(* ===== verification/_CoqProject ===== *)
-Q . S2P
Prelude.v
Errors.v
Sha256.v
IdemRepo.v
Idempotency.v
SystemLock.v
Json.v
ApiTypes.v
AnthropicStream.v
ResponsesStream.v
ProxyCircuit.v
AbuseLimiter.v
RedisSlots.v
ConcurrencyCache.v
ConcurrencyService.v
Float64.v
Subscription.v
SubscriptionRepo.v
SubscriptionService.v
SubscriptionTerms.v
Ordering.v
AccountQuota.v
Account.v
ModelMapping.v
UsageBilling.v
UsageLedger.v
JsonText.v
JsonCodec.v
ApiRequests.v
RequestToResponses.v
RequestToAnthropic.v
ToolPairing.v
RequestRoundTrip.v
RequestFacts.v
JsonValue.v
ChatTypes.v
ChatStream.v
ChatFacts.v
ChatPipeline.v
ChatRequest.v
ChatRequestFacts.v
BatchJobs.v
BatchIndex.v
BatchSettlement.v
BatchLife.v
Candidates.v
Scheduler.v
BatchQueue.v
BatchRequest.v
BatchSubmit.v
BatchRows.v
BatchPublic.v
BatchCleanup.v
