(* ===== verification/Prelude.v ===== *)
(** * Verification of the relay gateway's backend (Go)

    The gateway accepts requests of AI clients in one API dialect, picks an
    upstream account, relays the request under concurrency limits and converts
    the answer, streamed or whole, into the client's dialect.  This development
    models the parts of [src/backend/internal] that carry its own logic and
    whose mistakes cost money or correctness: idempotent execution, the
    distributed locks and slots, the conversion of responses, the in-memory
    breakers, subscriptions with their usage windows, the accounts, their
    quotas and models and how one is selected, the charging of usage, and batches
    of images from their submission to their payment.  Every definition is
    executable; the scenarios and test vectors in the files are evaluated by
    [vm_compute].

    ** Files

    - [Prelude]: machine integers, time, the state monad [ST], Go strings
      ([strings.TrimSpace], [strconv], UTF-8), and the tactics, hints and
      lemmas the components share.
    - [Errors] (pkg/errors): error values, [errors.Is]/[errors.As], the mapping
      to HTTP; calls to a store over a connection that can fail ([remote]) and
      the rule [holds] for computations over it.
    - [Sha256] (crypto/sha256, encoding/hex), [Json], [JsonText] and [JsonCodec]
      (encoding/json): the standard library as far as the sources use it,
      executable; [JsonText] gives the grammar that the scanner decides and
      [JsonCodec] the encoding and decoding of structs, which invert each other.
    - [IdemRepo] (repository/idempotency_repo.go): the table of idempotency
      records, each SQL statement a function of the table, and the interface
      [IdempotencyRepository] with its contract [RepoSpec], kept by the SQL
      repository under any sequence of faults.
    - [Idempotency] (service/idempotency.go): keys, fingerprints, stored
      responses and [Execute], with every branch, against [RepoSpec].
    - [SystemLock] (service/system_operation_lock_service.go and
      idempotency_cleanup_service.go): the global operation lock with its renew
      loop and the clean-up of expired rows, clients of the same interface.
    - [ApiTypes] (pkg/apicompat/types.go): the two dialects' data and the
      decoding of usage reports.
    - [AnthropicStream] (responses_to_anthropic.go) and [ResponsesStream]
      (anthropic_to_responses_response.go): the conversions of a response, whole
      and as state machines over the events of a stream.
    - [ApiRequests] (pkg/apicompat/types.go): requests of both dialects and the
      wire form of blocks, parts and items; [RequestToResponses]
      (anthropic_to_responses.go) and [RequestToAnthropic]
      (responses_to_anthropic_request.go): the conversions of a request.
      [ToolPairing] abstracts messages to the kinds of their blocks, on which
      merging and pairing are simulated, and holds the invariant of the repair;
      [RequestRoundTrip] does the same with blocks up to white space and shows
      that a conversation survives both conversions; [RequestFacts]: what the
      conversions keep, bound and refuse.
    - [ChatTypes] (pkg/apicompat/types.go): the data of Chat Completions;
      [ChatStream] (responses_to_chatcompletions.go): an answer for a chat client,
      whole and as a state machine over the events of a stream; [ChatRequest]
      (chatcompletions_to_responses.go, response_format.go): the conversion of a
      chat request.  [ChatFacts]: the protocol of the chunks and their agreement
      with the whole answer; [ChatPipeline] (the loop over events in
      service/gateway_forward_as_chat_completions.go): both converters of a stream
      in a row; [ChatRequestFacts]: a chat on its way to an Anthropic account.
    - [RedisSlots]: the Lua scripts of repository/concurrency_cache.go over the
      interface [Redis] with the laws [RedisSpec], and an in-memory instance.
    - [ConcurrencyCache] (the Go side of that file): keys, methods, the active
      indexes and their clean-up, over [remote].
    - [ConcurrencyService] (service/concurrency_service.go): request ids, slots
      and release functions, the cache of account loads, the ingress lease,
      against the interface [Cache] with the laws [SlotSpec], which the Redis
      cache keeps.
    - [ProxyCircuit] (service/openai_proxy_stream_circuit.go) and
      [AbuseLimiter] (service/invalid_auth_abuse_limiter.go): the quarantine of
      proxies that drop streams and the limiter of failed logins.
    - [Float64]: [float64] as the arithmetic of [SpecFloat], and [%0.10f].
    - [Subscription] (service/user_subscription.go, service/group.go,
      pkg/timezone): a subscription, its three usage windows and the limits of
      its group, over [float64] amounts and the days of one time zone.
    - [SubscriptionRepo] (repository/user_subscription_repo.go): the table of
      subscriptions with soft deletion, each statement and method of the
      repository, the operations on the table and the states they reach.
    - [SubscriptionService] (service/subscription_service.go and the branch of
      the middleware api_key_auth.go that admits a subscriber): assignment,
      renewal, revocation, window maintenance and the checks of a request;
      [SubscriptionTerms] holds the theorems on the terms of subscriptions.
    - [Ordering] (package sort and container/heap): [sort.Slice] as an interface
      of what it promises, [sort.SliceStable] and the heap operations.
    - [AccountQuota] (the quota functions of service/account.go, the SQL of
      repository/account_repo.go, the edit in service/admin_account.go): the
      total, daily and weekly quotas of an account and their reset points, as
      Go reads them and as the database charges and resets them.
    - [Account] (service/account.go, shadow_routing.go, upstream_capability.go):
      an account with its JSON objects and the predicates of scheduling;
      [ModelMapping] (the same file, openai_model_mapping.go, pkg/xai): which
      models it supports and maps them to.
    - [UsageBilling] (service/usage_billing.go, repository/usage_billing_repo.go,
      the claims' archive in dashboard_aggregation_repo.go): the transaction that
      claims a request and charges user, API key, subscription and account, the
      holds of a balance for batches of images, the rate windows of an API key;
      [UsageLedger] holds its theorems, on whole histories of requests, faults,
      clean-ups and payments.
    - [JsonValue] (encoding/json into [any]) and [BatchJobs]
      (service/batch_image.go, repository/batch_image_repo.go): jobs, items and
      events of image batches and every statement on them; [BatchIndex]
      (service/batch_image_processor.go): the result lines of a provider and
      [Index]; [BatchSettlement] (batch_image_billing_hold.go,
      batch_image_settlement.go, batch_image_processor.go,
      batch_image_billing_recovery.go): holds, [Settle], the pipeline [Process]
      and the recovery of stale submissions over the database of
      [UsageBilling]; [BatchLife]: theorems on whole histories of batches.
    - [BatchQueue] (service/batch_image_queue.go, repository/batch_image_queue.go,
      batch_image_worker.go): the queue of batches in Redis over the interface
      [RedisQueue] with the laws [RedisQueueSpec] and an in-memory instance, the
      locks of batches and the rounds of a worker.
    - [BatchRequest] and [BatchSubmit] (service/batch_image_public.go): the checks
      of a request, its expansion to one item per image, its hash, price and
      account; [Submit], [Cancel] and the calls of an owner on a batch, over the
      interfaces [Queue], which [BatchQueue] implements ([redisQueue]), and
      [Providers].  [BatchRows]: rules for what a method does to the rows and to
      the connection; [BatchPublic]: the theorems on submissions.  [BatchCleanup]
      (service/batch_image_cleanup.go): the deletion of files at the provider.
    - [Candidates] (service/openai_account_scheduler.go): runtime statistics,
      scores, the best candidates, the weighted draw and the order of a load
      plan; [Scheduler] (the same file): probing that order for a slot under a
      budget, the waiting plans, the pools of [selectByLoadBalance] and
      [selectBySessionHash], on top of [ConcurrencyService].

    ** What the theorems show

    - Idempotency: the rows reachable by any statements keep their keys unique;
      a held lease is exclusive; an executor runs only under a claim of its own;
      a finished request is replayed, a running or mismatching one refused, and
      on a store without faults a request runs exactly once; its answer is
      replayed unless it was cut, and then the repetition is refused.
    - Locks and slots: a system operation excludes others while its lease is
      live; the slots of an account or user stay within the highest limit in
      use, live sessions included, with one above its limit for a live session
      that replaces a slot; a lost live lease is never recreated; the active
      indexes list every busy id and one reconciliation settles what expired; an
      acquisition adds its own request id and its release takes it away; an
      ingress session is cut off exactly when its lease is lost; loads are at
      most 200 ms old.
    - Conversions: every converted stream follows the protocol of its dialect,
      whatever the upstream sends; text is neither lost, repeated nor reordered;
      a stream agrees with the whole-response conversion, a chat stream with the
      response rebuilt from it; token usage adds up and round-trips.  A request
      that both dialects can express survives the way there and back, and so does
      a chat of texts and answered tool calls served by an Anthropic account, whose
      streamed text reaches the chat client; whatever request is converted, its
      tool uses and results are well paired afterwards, and where the contents of
      its items can be read, the messages are exactly their texts, images and
      answered calls; a converter refuses exactly
      what cannot be read; blocks can be decoded and encoded again.
    - Breakers: both tables are bounded; one incident does not trip a
      quarantine, a quarantine holds and ends; a threshold of failures blocks
      for the whole block.
    - Subscriptions: a user has one live subscription per group; a usage
      counter is exactly what was recorded since its window began (for days in
      zones whose days have a midnight), so that quota is granted a bounded number of times; a window that has elapsed
      starts afresh on the anchor of its term, and the maintenance of a request
      settles to that state; an admitted request is within every limit; a
      renewal happens whole or not at all, and from the end of the running
      term; assigning twice equals assigning once; revoking and restoring is
      the identity.
    - Accounts: the Go reader of a quota and the SQL writer that charges it agree
      at every moment, where the stored time zone can be read and has no gaps at
      the reset hours, so that a fixed window counts exactly its period; the
      model a request is forwarded with is the longest match, and the scheduler
      admits an account with a mapping, unless it is in passthrough, exactly
      when there is one.
    - Billing: a request is charged once and as a whole, however often it is
      retried and whatever fails, an ambiguous COMMIT included; what leaves a
      user's funds is the sum of the costs of the requests that took effect, but
      for the rounding of holds that are no multiple of [10^-8] USD, and
      so is what an API key has used; the limiter reads of each rate window what
      was charged in it; the archive of claims forgets nothing.
    - Image batches: a checked request is within every limit and has an item for
      every image asked for; the best fitting account is chosen; a submission
      that goes well has exactly its effect, and whatever fails no money stays
      held without someone to return it (unless the answer of the COMMIT that
      records the provider job is lost or the queue refuses the batch) and no provider works on a batch that is
      not known; repeating it does nothing, and what a cancellation says is true;
      files are recorded as deleted only when they are;
      the terms of a batch never change and its status follows
      the state machine, whatever fails, but for a submit failure that is recorded
      late; indexing reconciles the provider's
      output with the items submitted; a batch is paid exactly once, and the
      hold of one that failed is returned exactly once; a queued batch is in one
      of the three queues until it is acknowledged, is handed to one holder of
      its lock, and comes back when its time or its worker's is over, the
      earliest first up to the limit of a round.
    - Selection: the heap yields the best candidates, the weighted draw ends
      with every candidate drawn once, a plan tries each account at most once
      and those that suit first; on a cache that answers, a selection leaves no
      slot behind except the one its release function gives back, probes at most 64 slots under a
      budget, and waits for accounts in the order of their chances.
    - Defects the model exhibits are theorems too: a lock that was taken over is
      not renewed, a truncated answer is refused instead of replayed, a thinking block
      after text drops the text from the final output, later text parts reuse
      content index 0, the whole-response conversions drop custom tool calls,
      where a day starts after midnight a daily window never resets, in the
      25th hour of a long day the daily window of an API key counts nothing, a
      settlement that gives up after an ambiguous COMMIT returns a hold that was
      paid from, a lost connection fails a batch that could be indexed, a hold
      whose COMMIT lost its answer is never returned, the hash of a request without
      a task name changes every second, batches whose clean-up fails block
      those behind them, and the default token limit of a converted request is
      below the thinking budget of every effort above medium.

    ** Conventions

    A Go [int], [int64] or [Duration] is a [Z]; arithmetic on values the program
    does not control wraps explicitly ([wrap64]).  A method that mutates its
    receiver is a state transformer [ST].  Reading the clock is an argument of
    the operation, in the order of the readings.  A Go map is a [gmap]; where
    the code ranges over one, the order is an argument [visit] constrained only
    to list the entries.  One SQL statement, one Lua script and one pipeline are
    atomic; programs that issue several are sequences, so interleavings with
    other processes are covered where a theorem quantifies over sequences of
    statements or scripts ([lease_exclusive], [slots_never_exceed]).  Functions
    and services that a component calls and that are not modelled are a type of
    calls with their answers ([serviceCall]) performed by an instance of
    [Gateway]; theorems assume the laws of [GatewaySpec], and the scenarios
    instantiate them.  Billing transactions are serial: they meet at the unique
    key of their claim and at the row locks of what they charge.  What
    PostgreSQL makes of a [float64] is an instance of [Money]; amounts in columns
    are integers that count [10^-8] USD.  The order in which a map is ranged over and the order
    [sort.Slice] gives equal elements are arguments with laws ([MapRange],
    [SliceSort]).  Scores are [float64], computed by [SpecFloat]; their bounds
    and NaN are treated as the program treats them.

    Fuel: [trim_with] gets the length of its input and every step shortens it;
    [sha_blocks] gets the length of the padded message; [digits36] gets 13
    digits, enough for 64 bits ([36 ^ 13 > 2 ^ 64]); [readChunks] gets the number
    of members and each round takes 500 ([readChunks_spec] shows that it reads
    all of them); [dropAny] gets the size of the map ([dropAny_spec] shows that
    it makes room); [truncate_loop] is bounded by the length kept;
    [up] and [down] get the size of the heap, and each step of [up] at least
    halves the index and each step of [down] increases it; [drawAll] gets the
    number of candidates and draws one each time ([weighted_order_draws_all]);
    [cleanupLoop] gets one more than the number of claims and every full round
    archives some ([cleanup_ends]); [decodeValue], [raw_members] and [raw_elements] get
    the length of the text and each step consumes some ([members_print],
    [elements_print]);
    [expectedPages] gets one more than the number of items and every page but
    the last moves on ([index_reconciles] shows that all are read); [Reserve]
    polls at the times of a list.

    ** Not modelled

    HTTP handlers and routing, the ORM schema and generated code, configuration
    and start-up, the frontend: glue and input/output.  Metrics and logging of
    the modelled functions.  Contexts and timeouts: a call answers or fails.
    [sweepLegacyWaitKeysOnce] (a SCAN loop over old keys) and the sharing of
    concurrent flights by singleflight.  Of subscriptions: the caches in front
    of the table, listings, the progress report and reminder mails; a time is
    stored at the precision of the database and there is one time zone.  Of
    accounts: the cache in front of the mapping, tokens and base URLs, WebSocket
    modes and window costs.  Of selection: the previous-response layer and
    [Select], the profit gate, the bodies of the checks of one account, the
    quota headroom and upstream cost factors (arguments), and the selection of
    the other gateways.  Of image batches: the
    listings of jobs and models, downloads, the providers themselves (an
    interface), the usage log, the payloads of events.  The text of a time in a
    default task name takes the local offset as an argument.  Of
    the API bridge: the bridge from Responses to upstreams of Chat Completions,
    the direct bridge between Chat Completions and Anthropic, namespaces and
    client tools, the wire form of stream events, and the decoding of whole
    requests by the handlers; the texts of errors.  Of prices: the arithmetic on [float64] over pricing files, whose
    results only tests pin down. *)

From stdpp Require Export prelude gmap strings list sorting.
From coqutil Require Export Datatypes.RecordSetters.
From Stdlib Require Import DecimalString DecimalZ DecimalPos DecimalFacts.
From Stdlib Require Export Ascii ZArith Lia.
Export RecordSetters.OCamlLikeNotations.
#[global] Open Scope Z_scope.
#[global] Arguments RecordSetters.constant {E} newValue _ /.

(** ** Machine integers

    Go's [int] is 64 bits wide on every platform the program is built for;
    [int64] and [time.Duration] are too.  A value is a [Z]; arithmetic that the
    program performs on values it does not control is written with [wrap64]. *)

Definition max_int64 : Z := 9223372036854775807.
Definition min_int64 : Z := -9223372036854775808.
Definition wrap64 (z : Z) : Z := (z + 2 ^ 63) mod 2 ^ 64 - 2 ^ 63.
Definition wrap32 (z : Z) : Z := (z + 2 ^ 31) mod 2 ^ 32 - 2 ^ 31.
Definition sat64 (z : Z) : Z := Z.max min_int64 (Z.min max_int64 z).
Definition int64_ok (z : Z) : Prop := min_int64 <= z <= max_int64.

(** ** [time.Time] and [time.Duration]

    An instant is the number of nanoseconds since the zero [Time]
    (0001-01-01T00:00:00Z), so [IsZero] is [= 0]; a duration is a number of
    nanoseconds.  [Sub] saturates exactly as [time.Time.Sub] does.  The
    monotonic reading Go attaches to [time.Now] is not modelled: one clock. *)

Abbreviation time := Z (only parsing).
Abbreviation duration := Z (only parsing).
Definition Millisecond : duration := 1000000.
Definition Second : duration := 1000000000.
Definition Minute : duration := 60 * Second.
Definition Hour : duration := 60 * Minute.
Definition IsZero (t : time) : bool := t =? 0.
Definition Before (t u : time) : bool := t <? u.
Definition After (t u : time) : bool := u <? t.
Definition AddT (t : time) (d : duration) : time := t + d.
Definition SubT (t u : time) : duration := sat64 (t - u).
(** [int(d.Seconds())] for a duration: truncation towards zero. *)
Definition SecondsInt (d : duration) : Z := Z.quot d Second.

(** ** Errors as values *)

Inductive result (E A : Type) : Type :=
| Ok (a : A)
| Err (e : E).
Arguments Ok {E A} a.
Arguments Err {E A} e.

(** ** A state monad for code that mutates one object

    A method with receiver [*T] that returns an [A] is a [T -> A * T]. *)

Definition ST (S A : Type) : Type := S -> A * S.
#[export] Instance ST_ret S : MRet (ST S) := fun A a s => (a, s).
#[export] Instance ST_bind S : MBind (ST S) :=
  fun A B (f : A -> ST S B) (m : ST S A) (s : S) => let '(a, s1) := m s in f a s1.
Definition get {S} : ST S S := fun s => (s, s).
Definition modify {S} (f : S -> S) : ST S unit := fun s => (tt, f s).

(** [a, err := m; if err != nil { return err }]. *)
Definition bind_ok {S E A B} (m : ST S (result E A)) (f : A -> ST S (result E B)) : ST S (result E B) :=
  r ← m; match r with Ok a => f a | Err e => mret (Err e) end.
Declare Scope gateway_scope.
Notation "x ←? m ; k" := (bind_ok m (fun x => k))
  (at level 20, m at level 100, k at level 200, only parsing) : gateway_scope.
#[global] Open Scope gateway_scope.

(** The outputs of a handler over a sequence of inputs, concatenated. *)
Fixpoint run_all {S I O} (h : I -> ST S (list O)) (l : list I) : ST S (list O) :=
  match l with
  | [] => mret []
  | i :: l' => o ← h i; os ← run_all h l'; mret (o ++ os)
  end.

(** ** Strings: Go strings are byte sequences *)

Definition slen (s : string) : Z := Z.of_nat (String.length s).
Definition byte_of (c : ascii) : Z := Z.of_nat (nat_of_ascii c).
Fixpoint str_bytes (s : string) : list Z :=
  match s with
  | EmptyString => []
  | String c s' => byte_of c :: str_bytes s'
  end.
Fixpoint CutPrefix (p s : string) : option string :=
  match p, s with
  | EmptyString, _ => Some s
  | String a p', String b s' => if Ascii.eqb a b then CutPrefix p' s' else None
  | String _ _, EmptyString => None
  end.
Definition HasPrefix (s p : string) : bool := match CutPrefix p s with Some _ => true | None => false end.
Definition HasSuffix (s p : string) : bool := HasPrefix (String.rev s) (String.rev p).
Fixpoint str_forallb (f : ascii -> bool) (s : string) : bool :=
  match s with
  | EmptyString => true
  | String c s' => f c && str_forallb f s'
  end.
Definition graphic (c : ascii) : bool := (33 <=? byte_of c) && (byte_of c <=? 126).
(** A text whose last character is graphic is not empty after trimming. *)
Fixpoint last_graphic (s : string) : bool :=
  match s with
  | EmptyString => false
  | String c EmptyString => graphic c
  | String _ s' => last_graphic s'
  end.
Fixpoint str_map (f : ascii -> ascii) (s : string) : string :=
  match s with
  | EmptyString => EmptyString
  | String c s' => String (f c) (str_map f s')
  end.
Fixpoint str_take (n : nat) (s : string) : string :=
  match n, s with
  | O, _ => EmptyString
  | S _, EmptyString => EmptyString
  | S n', String c s' => String c (str_take n' s')
  end.
Definition is_upper (c : ascii) : bool := (65 <=? byte_of c) && (byte_of c <=? 90).
Definition is_lower (c : ascii) : bool := (97 <=? byte_of c) && (byte_of c <=? 122).
Definition byte (z : Z) : ascii := ascii_of_nat (Z.to_nat z).
(** [strings.ToUpper] on ASCII text; bytes outside ASCII are kept. *)
Definition ToUpper (s : string) : string :=
  str_map (fun c => if is_lower c then byte (byte_of c - 32) else c) s.

Definition of_bytes (l : list Z) : string := foldr (fun z s => String (byte z) s) EmptyString l.

(** [unicode.IsSpace] runes in their UTF-8 encoding, as [strings.TrimSpace]
    removes them.  A prefix (suffix) that is one of these byte sequences is
    exactly a leading (trailing) white space rune of the string. *)
Definition go_spaces : list string :=
  of_bytes <$>
  [[9]; [10]; [11]; [12]; [13]; [32]; [194; 133]; [194; 160]; [225; 154; 128];
   [226; 128; 128]; [226; 128; 129]; [226; 128; 130]; [226; 128; 131];
   [226; 128; 132]; [226; 128; 133]; [226; 128; 134]; [226; 128; 135];
   [226; 128; 136]; [226; 128; 137]; [226; 128; 138]; [226; 128; 168];
   [226; 128; 169]; [226; 128; 175]; [226; 129; 159]; [227; 128; 128]].
Fixpoint cut_any (ps : list string) (s : string) : option string :=
  match ps with
  | [] => None
  | p :: ps' => match CutPrefix p s with Some r => Some r | None => cut_any ps' s end
  end.
Fixpoint trim_with (ps : list string) (fuel : nat) (s : string) : string :=
  match fuel with
  | O => s
  | S fuel' => match cut_any ps s with Some r => trim_with ps fuel' r | None => s end
  end.
Definition TrimLeftSpace (s : string) : string := trim_with go_spaces (String.length s) s.
Definition TrimRightSpace (s : string) : string :=
  String.rev (trim_with (String.rev <$> go_spaces) (String.length s) (String.rev s)).
Definition TrimSpace (s : string) : string := TrimRightSpace (TrimLeftSpace s).

(** [strconv.Itoa]/[FormatInt(_, 10)] and [strconv.Atoi]. *)
Definition Itoa (z : Z) : string := NilZero.string_of_int (Z.to_int z).
Definition parse_dec (s : string) : option Z :=
  match s with
  | String "+" s' => (fun u => Z.of_uint u) <$> NilZero.uint_of_string s'
  | _ => (fun u => Z.of_int u) <$> NilZero.int_of_string s
  end.
Definition Atoi (s : string) : option Z :=
  match parse_dec s with
  | Some z => if (min_int64 <=? z) && (z <=? max_int64) then Some z else None
  | None => None
  end.

(** ** UTF-8 validity, [utf8.ValidString] *)

Definition in_range (lo hi : Z) (c : ascii) : bool := (lo <=? byte_of c) && (byte_of c <=? hi).
Definition cont (c : ascii) : bool := in_range 128 191 c.
Fixpoint utf8_valid (s : string) : bool :=
  match s with
  | EmptyString => true
  | String a s1 =>
      if byte_of a <? 128 then utf8_valid s1
      else match s1 with
      | String b s2 =>
          if in_range 194 223 a then cont b && utf8_valid s2
          else match s2 with
          | String c s3 =>
              if in_range 224 239 a then
                (if byte_of a =? 224 then in_range 160 191 b
                 else if byte_of a =? 237 then in_range 128 159 b else cont b)
                && cont c && utf8_valid s3
              else match s3 with
              | String d s4 =>
                  in_range 240 244 a &&
                  (if byte_of a =? 240 then in_range 144 191 b
                   else if byte_of a =? 244 then in_range 128 143 b else cont b)
                  && cont c && cont d && utf8_valid s4
              | EmptyString => false
              end
          | EmptyString => false
          end
      | EmptyString => false
      end
  end.

(** ** Tactics and hints of the development *)

(** Split the branches of the code in the goal, or in a hypothesis. *)
Ltac split_if :=
  match goal with
  | |- context [if ?b then _ else _] => destruct b eqn:?
  | |- context [match ?o with Some _ => _ | None => _ end] => destruct o eqn:?
  end.
Ltac split_if_in H :=
  match type of H with
  | context [if ?b then _ else _] => destruct b eqn:?
  | context [match ?o with Some _ => _ | None => _ end] => destruct o eqn:?
  end.
(** Turn boolean comparisons into propositions for [lia]. *)
Ltac bool_to_prop :=
  unfold Before, After, IsZero, AddT in *;
  repeat match goal with
  | H : (_ && _)%bool = true |- _ => apply andb_true_iff in H; destruct H
  | H : (_ || _)%bool = false |- _ => apply orb_false_iff in H; destruct H
  | H : negb _ = true |- _ => apply negb_true_iff in H
  | H : negb _ = false |- _ => apply negb_false_iff in H
  | H : (_ <? _) = true |- _ => apply Z.ltb_lt in H
  | H : (_ <? _) = false |- _ => apply Z.ltb_ge in H
  | H : (_ <=? _) = true |- _ => apply Z.leb_le in H
  | H : (_ <=? _) = false |- _ => apply Z.leb_gt in H
  | H : (_ =? _) = true |- _ => apply Z.eqb_eq in H
  | H : (_ =? _) = false |- _ => apply Z.eqb_neq in H
  end.

(** Decide a comparison of constants. *)
Ltac by_compute := vm_compute; first [reflexivity | discriminate | split; first [reflexivity | discriminate]].

Create HintDb gateway.
Create Rewrite HintDb gateway.

(** ** Lemmas the components share *)

(** Running a sequence and a return, without naming the intermediate results. *)
Lemma bind_run {S A B} (m : ST S A) (f : A -> ST S B) (s : S) : (m ≫= f) s = f (m s).1 (m s).2.
Proof. unfold mbind, ST_bind. by destruct (m s). Qed.
Lemma bind_ok_run {S E A B} (m : ST S (result E A)) (f : A -> ST S (result E B)) (s s' : S) (a : A) :
  m s = (Ok a, s') -> bind_ok m f s = f a s'.
Proof. intros H. unfold bind_ok. by rewrite bind_run, H. Qed.
Lemma ret_run {S A} (a : A) (s : S) : (mret a : ST S A) s = (a, s).
Proof. done. Qed.

Lemma wrap64_id (z : Z) : int64_ok z -> wrap64 z = z.
Proof. unfold int64_ok, wrap64, min_int64, max_int64. intros. rewrite Z.mod_small; lia. Qed.

Lemma wrap64_range (z : Z) : int64_ok (wrap64 z).
Proof.
  unfold int64_ok, wrap64, min_int64, max_int64.
  pose proof (Z.mod_pos_bound (z + 2 ^ 63) (2 ^ 64)). lia.
Qed.

Lemma sat64_range (z : Z) : int64_ok (sat64 z).
Proof. unfold int64_ok, sat64, min_int64, max_int64. lia. Qed.

Lemma sat64_id (z : Z) : int64_ok z -> sat64 z = z.
Proof. unfold int64_ok, sat64, min_int64, max_int64. lia. Qed.

Lemma sat64_sign (z : Z) : (0 <? sat64 z) = (0 <? z).
Proof. unfold sat64, min_int64, max_int64. lia. Qed.

Lemma CutPrefix_app (p s : string) : CutPrefix p (p +:+ s) = Some s.
Proof. induction p as [|a p IH]; simpl; [done|]. by rewrite Ascii.eqb_refl. Qed.

Lemma CutPrefix_Some (p s r : string) : CutPrefix p s = Some r -> s = p +:+ r.
Proof.
  revert s. induction p as [|a p IH]; intros s H; simpl in *; [by simplify_eq|].
  destruct s as [|b s]; [done|].
  destruct (Ascii.eqb_spec a b) as [->|]; [|done]. by rewrite (IH s H).
Qed.

Lemma Itoa_no_plus (z : Z) (s : string) : Itoa z <> String "+" s.
Proof.
  unfold Itoa, NilZero.string_of_int, NilZero.string_of_uint.
  destruct (Z.to_int z) as [u|u]; [destruct u|]; simpl; done.
Qed.

Lemma to_int_nonnil (z : Z) :
  Z.to_int z <> Decimal.Pos Decimal.Nil /\ Z.to_int z <> Decimal.Neg Decimal.Nil.
Proof.
  destruct z as [|p|p]; simpl; split; try done; intros [=H];
    by apply (DecimalPos.Unsigned.to_uint_nonnil p).
Qed.

Lemma parse_dec_Itoa (z : Z) : parse_dec (Itoa z) = Some z.
Proof.
  transitivity (Z.of_int <$> NilZero.int_of_string (Itoa z)).
  - pose proof (Itoa_no_plus z) as H. destruct (Itoa z) as [|c s]; [done|].
    destruct c as [[] [] [] [] [] [] [] []]; try reflexivity. by destruct (H s).
  - destruct (to_int_nonnil z) as [H1 H2]. unfold Itoa.
    rewrite NilZero.isi by done. simpl. by rewrite DecimalZ.of_to.
Qed.

(** Printing a machine integer and reading it back is the identity. *)
Lemma Atoi_Itoa (z : Z) : int64_ok z -> Atoi (Itoa z) = Some z.
Proof.
  intros [H1 H2]. unfold Atoi. rewrite parse_dec_Itoa.
  by rewrite (proj2 (Z.leb_le _ _) H1), (proj2 (Z.leb_le _ _) H2).
Qed.
#[export] Hint Rewrite Atoi_Itoa : gateway.

(** [map] after [filter], by membership. *)
Lemma elem_of_map_filter {A B} (g : A -> B) f (l : list A) x :
  x ∈ l -> f x = true -> g x ∈ map g (List.filter f l).
Proof.
  intros Hx Hf. apply list_elem_of_fmap. exists x. split; [done|].
  apply list_elem_of_In, filter_In. split; [by apply list_elem_of_In|done].
Qed.
Lemma Forall_map_filter {A B} (P : B -> Prop) (g : A -> B) f (l : list A) :
  (forall x, x ∈ l -> f x = true -> P (g x)) -> Forall P (map g (List.filter f l)).
Proof.
  intros H. apply Forall_forall. intros y Hy. apply list_elem_of_fmap in Hy as (x & -> & Hx).
  apply list_elem_of_In, filter_In in Hx as [Hx Hf]. apply H; [by apply list_elem_of_In|done].
Qed.
(** Every element on the right of a [Forall2] has its partner. *)
Lemma Forall2_partner_r {A B} (R : A -> B -> Prop) l k y :
  Forall2 R l k -> y ∈ k -> exists x, x ∈ l /\ R x y.
Proof.
  intros H Hy. apply list_elem_of_lookup in Hy as [i Hy]. destruct (Forall2_lookup_r _ _ _ _ _ H Hy) as (x & Hx & HR).
  exists x. split; [by eapply list_elem_of_lookup_2|done].
Qed.
Lemma Forall2_partner_l {A B} (R : A -> B -> Prop) l k x :
  Forall2 R l k -> x ∈ l -> exists y, y ∈ k /\ R x y.
Proof.
  intros H Hx. apply list_elem_of_lookup in Hx as [i Hx]. destruct (Forall2_lookup_l _ _ _ _ _ H Hx) as (y & Hy & HR).
  exists y. split; [by eapply list_elem_of_lookup_2|done].
Qed.

Lemma Itoa_inj (a b : Z) : Itoa a = Itoa b -> a = b.
Proof. intros H. pose proof (parse_dec_Itoa a) as H1. rewrite H, parse_dec_Itoa in H1. congruence. Qed.
Lemma str_app_inj (p s t : string) : p +:+ s = p +:+ t -> s = t.
Proof. intros H. pose proof (CutPrefix_app p s) as H1. rewrite H, CutPrefix_app in H1. congruence. Qed.

(** ** Strings of graphic ASCII characters have nothing to trim *)

Lemma rev_app_forallb f s t : str_forallb f (String.rev_app s t) = str_forallb f s && str_forallb f t.
Proof. revert t. induction s as [|c s IH]; intros t; simpl; [done|]. rewrite IH. simpl. by destruct (f c), (str_forallb f s). Qed.

Lemma rev_app_rev_app s t u : String.rev_app (String.rev_app s t) u = String.rev_app t (s +:+ u).
Proof. revert t u. induction s as [|c s IH]; intros t u; [done|]. simpl. rewrite IH. done. Qed.
Lemma str_take_app (p r : string) : str_take (String.length p) (p +:+ r) = p.
Proof. induction p as [|c p IH]; [by destruct r|]. exact (f_equal (String c) IH). Qed.
Lemma str_length_app (p r : string) : String.length (p +:+ r) = (String.length p + String.length r)%nat.
Proof. induction p as [|c p IH]; [done|]. exact (f_equal S IH). Qed.
(** A filter that keeps everything, or nothing. *)
Lemma filter_all {A} (f : A -> bool) l : Forall (fun x => f x = true) l -> List.filter f l = l.
Proof. induction 1 as [|x l Hx _ IH]; [done|]. simpl. by rewrite Hx, IH. Qed.
Lemma filter_none {A} (f : A -> bool) l : Forall (fun x => f x = false) l -> List.filter f l = [].
Proof. induction 1 as [|x l Hx _ IH]; [done|]. simpl. by rewrite Hx, IH. Qed.
Lemma str_app_assoc (a b c : string) : (a +:+ b) +:+ c = a +:+ (b +:+ c).
Proof.
  induction a as [|x a IH]; [done|].
  change (String x ((a +:+ b) +:+ c) = String x (a +:+ (b +:+ c))). by rewrite IH.
Qed.
Lemma str_app_nil s : s +:+ "" = s.
Proof. induction s as [|c s IH]; [done|]. change (String c (s +:+ "") = String c s). by rewrite IH. Qed.
Lemma str_rev_rev s : String.rev (String.rev s) = s.
Proof. unfold String.rev. rewrite rev_app_rev_app. simpl. apply str_app_nil. Qed.

Lemma trim_with_graphic n s :
  str_forallb graphic s = true -> trim_with go_spaces n s = s /\ trim_with (String.rev <$> go_spaces) n s = s.
Proof.
  intros H. destruct n as [|n]; [done|]. destruct s as [|c s]; [done|]. simpl in H.
  apply andb_true_iff in H as [H _].
  destruct c as [[] [] [] [] [] [] [] []]; try discriminate H; split; reflexivity.
Qed.
Lemma TrimSpace_graphic s : str_forallb graphic s = true -> TrimSpace s = s.
Proof.
  intros H. unfold TrimSpace, TrimRightSpace, TrimLeftSpace.
  assert (Hr : str_forallb graphic (String.rev s) = true)
    by (unfold String.rev; by rewrite rev_app_forallb, H).
  by rewrite (proj1 (trim_with_graphic _ _ H)), (proj2 (trim_with_graphic _ _ Hr)), str_rev_rev.
Qed.
(** The characters of a printed integer. *)
Lemma Itoa_forallb f z :
  f "-"%char = true -> (forall a, in_range 48 57 a = true -> f a = true) -> str_forallb f (Itoa z) = true.
Proof.
  intros Hm Hd.
  assert (Hu : forall u, str_forallb f (NilEmpty.string_of_uint u) = true)
    by (induction u as [|u IH|u IH|u IH|u IH|u IH|u IH|u IH|u IH|u IH|u IH]; simpl;
        try (rewrite Hd by reflexivity); auto).
  unfold Itoa, NilZero.string_of_int, NilZero.string_of_uint.
  destruct (Z.to_int z) as [u|u]; destruct u; simpl; rewrite ?Hm, ?Hu, ?Hd by reflexivity; reflexivity.
Qed.
Lemma Itoa_graphic z : str_forallb graphic (Itoa z) = true.
Proof. apply Itoa_forallb; [done|]. unfold in_range, graphic. intros a. lia. Qed.
Lemma Itoa_nonempty z : Itoa z <> "".
Proof.
  unfold Itoa, NilZero.string_of_int, NilZero.string_of_uint.
  destruct (Z.to_int z) as [[]|[]]; done.
Qed.

Lemma last_graphic_app p r :
  last_graphic (p +:+ r) = if String.eqb r "" then last_graphic p else last_graphic r.
Proof.
  induction p as [|c p IH].
  - change ("" +:+ r) with r. by destruct r.
  - change (String c p +:+ r) with (String c (p +:+ r)). simpl. rewrite IH.
    destruct p as [|c' p].
    + change ("" +:+ r) with r. by destruct r.
    + change (String c' p +:+ r) with (String c' (p +:+ r)). by destruct r.
Qed.

Lemma cut_any_last ps s r :
  Forall (fun p => last_graphic p = false) ps -> last_graphic s = true ->
  cut_any ps s = Some r -> last_graphic r = true.
Proof.
  intros H Hs. induction H as [|p ps Hp _ IH]; simpl; [done|].
  destruct (CutPrefix p s) eqn:E; [|done]. intros [= ->].
  apply CutPrefix_Some in E. subst s. rewrite last_graphic_app, Hp in Hs.
  destruct (String.eqb r ""); [done|done].
Qed.

Lemma TrimSpace_last_graphic s : last_graphic s = true -> TrimSpace s <> "".
Proof.
  intros Hs.
  assert (Hl : forall n s, last_graphic s = true -> last_graphic (trim_with go_spaces n s) = true).
  { induction n as [|n IH]; intros s' Hs'; cbn [trim_with]; [exact Hs'|].
    destruct (cut_any go_spaces s') eqn:E; [|exact Hs']. apply IH.
    eapply cut_any_last; [|exact Hs'|exact E]. unfold go_spaces. repeat constructor. }
  specialize (Hl (String.length s) s Hs). unfold TrimSpace, TrimRightSpace, TrimLeftSpace.
  set (t := trim_with go_spaces (String.length s) s) in *. clearbody t. clear s Hs.
  assert (Hr : exists c u, String.rev t = String c u /\ graphic c = true).
  { unfold String.rev. generalize "" at 1. induction t as [|c t IH]; intros acc; [done|].
    destruct t as [|c' t]; [simpl in *; eauto|]. apply (IH Hl (String c acc)). }
  destruct Hr as (c & u & Hr & Hc). rewrite Hr.
  assert (Hid : forall n, trim_with (String.rev <$> go_spaces) n (String c u) = String c u).
  { intros [|n]; [done|]. destruct c as [[] [] [] [] [] [] [] []]; try discriminate Hc; reflexivity. }
  rewrite Hid, <- Hr, str_rev_rev. intros ->. done.
Qed.
