(* ===== verification/Errors.v ===== *)
(** * Application errors ([backend/internal/pkg/errors])

    The error values every service returns: [ApplicationError], the chain of
    causes, [errors.As]/[errors.Is] over that chain and the mapping to an HTTP
    status.  A Go [error] is [option goerror] where the code tests for [nil]. *)

From S2P Require Import Prelude.

Definition UnknownCode : Z := 500.
Definition UnknownReason : string := "".
Definition UnknownMessage : string := "internal error".

Record Status := mkStatus {
  st_Code : Z;
  st_Reason : string;
  st_Message : string;
  st_Metadata : option (gmap string string) }.

(** [AppErr] is a [*ApplicationError], [WrapErr] what [fmt.Errorf] makes with
    [%w], [PlainErr] an [errors.New] value, identified by its address. *)
Inductive goerror :=
| AppErr (a : ApplicationError)
| WrapErr (msg : string) (inner : goerror)
| PlainErr (addr : Z) (msg : string)
with ApplicationError :=
| mkApp (st : Status) (cause : option goerror).

Definition ae_Status (a : ApplicationError) : Status := let '(mkApp st _) := a in st.
Definition Unwrap (a : ApplicationError) : option goerror := let '(mkApp _ c) := a in c.

(** [errors.As(err, &se)] with [se : *ApplicationError]. *)
Fixpoint errors_As (e : goerror) : option ApplicationError :=
  match e with
  | AppErr a => Some a
  | WrapErr _ inner => errors_As inner
  | PlainErr _ _ => None
  end.

(** Method [Is] of [*ApplicationError]. *)
Definition Is (e : ApplicationError) (err : goerror) : bool :=
  match errors_As err with
  | Some se =>
      (st_Code (ae_Status se) =? st_Code (ae_Status e)) &&
      String.eqb (st_Reason (ae_Status se)) (st_Reason (ae_Status e))
  | None => false
  end.

(** [errors.Is(err, target)] for a target that is an [ApplicationError] or an
    [errors.New] sentinel. *)
Fixpoint errors_Is (e : goerror) (target : goerror) : bool :=
  match e with
  | AppErr (mkApp st cause) =>
      Is (mkApp st cause) target ||
      match cause with Some c => errors_Is c target | None => false end
  | WrapErr _ inner => errors_Is inner target
  | PlainErr addr _ => match target with PlainErr addr' _ => addr =? addr' | _ => false end
  end.

(** [Clone] copies the value (the metadata map is copied key by key). *)
Definition Clone (err : option ApplicationError) : option ApplicationError :=
  match err with
  | None => None
  | Some (mkApp st cause) =>
      Some (mkApp (mkStatus (st_Code st) (st_Reason st) (st_Message st) (st_Metadata st)) cause)
  end.

Definition WithCause (e : ApplicationError) (cause : option goerror) : ApplicationError :=
  match Clone (Some e) with
  | Some (mkApp st _) => mkApp st cause
  | None => e
  end.

Definition WithMetadata (e : ApplicationError) (md : option (gmap string string)) : ApplicationError :=
  match Clone (Some e) with
  | Some (mkApp st cause) =>
      mkApp (mkStatus (st_Code st) (st_Reason st) (st_Message st) md) cause
  | None => e
  end.

Definition New (code : Z) (reason message : string) : ApplicationError :=
  mkApp (mkStatus (wrap32 code) reason message None) None.

Definition FromError (err : option goerror) : option ApplicationError :=
  match err with
  | None => None
  | Some e =>
      match errors_As e with
      | Some se => Some se
      | None => Some (WithCause (New UnknownCode UnknownReason UnknownMessage) (Some e))
      end
  end.

Definition Code (err : option goerror) : Z :=
  match FromError err with
  | None => 200
  | Some a => st_Code (ae_Status a)
  end.

Definition Reason (err : option goerror) : string :=
  match FromError err with
  | None => UnknownReason
  | Some a => st_Reason (ae_Status a)
  end.

Definition Message (err : option goerror) : string :=
  match FromError err with
  | None => ""
  | Some a => st_Message (ae_Status a)
  end.

Definition BadRequest (reason message : string) := New 400 reason message.
Definition TooManyRequests (reason message : string) := New 429 reason message.
Definition Unauthorized (reason message : string) := New 401 reason message.
Definition Forbidden (reason message : string) := New 403 reason message.
Definition NotFound (reason message : string) := New 404 reason message.
Definition Conflict (reason message : string) := New 409 reason message.
Definition InternalServer (reason message : string) := New 500 reason message.
Definition ServiceUnavailable (reason message : string) := New 503 reason message.
Definition GatewayTimeout (reason message : string) := New 504 reason message.
Definition ClientClosed (reason message : string) := New 499 reason message.
Definition IsConflict (err : option goerror) : bool := Code err =? 409.
Definition IsServiceUnavailable (err : option goerror) : bool := Code err =? 503.
Definition IsBadRequest (err : option goerror) : bool := Code err =? 400.

Definition ToHTTP (err : option goerror) : Z * Status :=
  match err with
  | None => (200, mkStatus 200 "" "" None)
  | Some _ =>
      match FromError err with
      | None => (200, mkStatus 200 "" "" None)
      | Some appErr =>
          let st := ae_Status appErr in
          (st_Code st, mkStatus (st_Code st) (st_Reason st) (st_Message st) (st_Metadata st))
      end
  end.

(** [n] layers of [fmt.Errorf("...%w", err)] around an error. *)
Definition wrapped (msgs : list string) (e : goerror) : goerror := foldr WrapErr e msgs.

(** What the next call to an external store meets: an answer, or an error
    before or after the call took effect. *)
Inductive fault := NoFault | FailBefore (e : goerror) | FailAfter (e : goerror).

(** A call to a store [S] over a connection with the given future. *)
Definition remote {S A} (m : ST S A) : ST (S * list fault) (result goerror A) :=
  fun '(s, fs) =>
    let '(a, s') := m s in
    match fs with
    | [] => (Ok a, (s', []))
    | NoFault :: fs' => (Ok a, (s', fs'))
    | FailBefore e :: fs' => (Err e, (s, fs'))
    | FailAfter e :: fs' => (Err e, (s', fs'))
    end.

(** [if err != nil { return ..., fmt.Errorf(msg + ": %w", err) }]. *)
Definition wrapErr {W A} (msg : string) (m : ST W (result goerror A)) : ST W (result goerror A) :=
  r ← m; mret (match r with Ok a => Ok a | Err e => Err (WrapErr msg e) end).

(** ** Lemmas *)

(** On a connection without faults a call is the command itself. *)
Lemma remote_run {S A} (m : ST S A) (s : S) : remote m (s, []) = (Ok (m s).1, ((m s).2, [])).
Proof. unfold remote. by destruct (m s). Qed.
(** With faults, a call answers and takes effect, or fails with or without effect. *)
Lemma remote_cases {S A} (m : ST S A) (s : S) (fs : list fault) : exists fs',
  remote m (s, fs) = (Ok (m s).1, ((m s).2, fs')) \/
  exists e, remote m (s, fs) = (Err e, (s, fs')) \/ remote m (s, fs) = (Err e, ((m s).2, fs')).
Proof. unfold remote. destruct (m s) as [a s'], fs as [|[] fs']; simpl; eauto 6. Qed.
Lemma wrapErr_state {W A} msg (m : ST W (result goerror A)) w : (wrapErr msg m w).2 = (m w).2.
Proof. unfold wrapErr. by rewrite bind_run. Qed.
Lemma wrapErr_run {W A} msg (m : ST W (result goerror A)) w a w' :
  m w = (Ok a, w') -> wrapErr msg m w = (Ok a, w').
Proof. intros H. unfold wrapErr. by rewrite bind_run, H. Qed.

Lemma Is_self (a : ApplicationError) : Is a (AppErr a) = true.
Proof. unfold Is. simpl. by rewrite Z.eqb_refl, String.eqb_refl. Qed.

Lemma errors_Is_wrapped (msgs : list string) (e t : goerror) :
  errors_Is (wrapped msgs e) t = errors_Is e t.
Proof. induction msgs; simpl; auto. Qed.

Lemma errors_As_wrapped (msgs : list string) (e : goerror) :
  errors_As (wrapped msgs e) = errors_As e.
Proof. induction msgs; simpl; auto. Qed.

Lemma Is_decorated (e : ApplicationError) c md :
  Is (WithMetadata (WithCause e c) md) (AppErr e) = true.
Proof. destruct e as [st c0]. unfold Is. simpl. by rewrite Z.eqb_refl, String.eqb_refl. Qed.
#[export] Hint Resolve Is_self Is_decorated : gateway.

(** A computation over a connection without faults: from a store with [P] it
    ends, leaving no fault behind, with an answer and a store in [Q]. *)
Section Holds.
Context {S : Type}.
Implicit Types (P : S -> Prop).

Definition holds {A} P (m : ST (S * list fault) A) (Q : A -> S -> Prop) : Prop :=
  forall s, P s -> exists a s', m (s, []) = (a, (s', [])) /\ Q a s'.

Lemma holds_ret {A} P (a : A) (Q : A -> S -> Prop) : (forall s, P s -> Q a s) -> holds P (mret a) Q.
Proof. intros H s Hs. exists a, s. auto. Qed.
Lemma holds_bind {A B} P (m : ST (S * list fault) A) (f : A -> ST (S * list fault) B)
  (R' : A -> S -> Prop) (Q : B -> S -> Prop) :
  holds P m R' -> (forall a, holds (R' a) (f a) Q) -> holds P (m ≫= f) Q.
Proof.
  intros Hm Hf s Hs. destruct (Hm s Hs) as (a & s1 & E & H1). destruct (Hf a s1 H1) as (b & s2 & E2 & H2).
  exists b, s2. rewrite bind_run, E. auto.
Qed.
Lemma holds_bind_ok {E A B} P (m : ST (S * list fault) (result E A)) (f : A -> ST (S * list fault) (result E B))
  (R' : A -> S -> Prop) (Q : result E B -> S -> Prop) :
  holds P m (fun r s => exists a, r = Ok a /\ R' a s) -> (forall a, holds (R' a) (f a) Q) -> holds P (bind_ok m f) Q.
Proof.
  intros Hm Hf. eapply holds_bind; [exact Hm|]. intros r s (a & -> & Ha). by apply (Hf a).
Qed.
Lemma holds_remote {A} P (m : ST S A) (Q : A -> S -> Prop) :
  (forall s, P s -> Q (m s).1 (m s).2) -> holds P (remote m) (fun r s => exists a, r = Ok a /\ Q a s).
Proof. intros H s Hs. eexists _, _. rewrite remote_run. split; [done|]. eauto. Qed.
Lemma holds_wrapErr {A} P msg (m : ST (S * list fault) (result goerror A)) (Q : A -> S -> Prop) :
  holds P m (fun r s => exists a, r = Ok a /\ Q a s) ->
  holds P (wrapErr msg m) (fun r s => exists a, r = Ok a /\ Q a s).
Proof.
  intros Hm s Hs. destruct (Hm s Hs) as (r & s1 & E & a & -> & H1).
  exists (Ok a), s1. split; [by apply wrapErr_run|eauto].
Qed.
Lemma holds_consequence {A} P P' (m : ST (S * list fault) A) (Q Q' : A -> S -> Prop) :
  holds P m Q -> (forall s, P' s -> P s) -> (forall a s, Q a s -> Q' a s) -> holds P' m Q'.
Proof. intros H H1 H2 s Hs. destruct (H s (H1 s Hs)) as (a & s' & E & Ha). exists a, s'. auto. Qed.
End Holds.

(** *** Computations whose success tells what they did *)

Lemma bind_ok_eq {S A B} (m : ST S (result goerror A)) (f : A -> ST S (result goerror B)) s :
  bind_ok m f s = match m s with (Ok a, s') => f a s' | (Err e, s') => (Err e, s') end.
Proof. unfold bind_ok. rewrite bind_run. by destruct (m s) as [[a|e] s']. Qed.
Section Faithful.
Context {S : Type}.
Local Abbreviation method A := (ST (S * list fault) (result goerror A)).
(** A success under faults is the run without faults. *)
Definition faithful {A} (m : method A) : Prop :=
  forall s fs a s' fs', m (s, fs) = (Ok a, (s', fs')) -> m (s, []) = (Ok a, (s', [])).
Lemma faithful_ret {A} (r : result goerror A) : faithful (mret r).
Proof. by intros s fs a s' fs' [= -> -> ->]. Qed.
Lemma faithful_bind_ok {A B} (m : method A) (f : A -> method B) :
  faithful m -> (forall a, faithful (f a)) -> faithful (bind_ok m f).
Proof.
  intros Hm Hf s fs b s' fs'. rewrite !bind_ok_eq. destruct (m (s, fs)) as [[a|e] [s1 fs1]] eqn:E; [|done].
  rewrite (Hm _ _ _ _ _ E). apply Hf.
Qed.
Lemma faithful_if {A} (b : bool) (m m' : method A) : faithful m -> faithful m' -> faithful (if b then m else m').
Proof. by destruct b. Qed.
End Faithful.

(** ** Properties *)

(** Attaching a cause and metadata to a sentinel error, and wrapping the
    result any number of times, keeps its identity for [errors.Is] and the
    code, reason and message the HTTP layer reads from it. *)
Theorem decorated_sentinel_recognised (e : ApplicationError) c md (msgs : list string) :
  let err := wrapped msgs (AppErr (WithMetadata (WithCause e c) md)) in
  errors_Is err (AppErr e) = true /\
  fst (ToHTTP (Some err)) = st_Code (ae_Status e) /\
  Reason (Some err) = st_Reason (ae_Status e) /\
  Message (Some err) = st_Message (ae_Status e) /\
  st_Metadata (snd (ToHTTP (Some err))) = md.
Proof.
  cbv zeta. rewrite errors_Is_wrapped.
  unfold ToHTTP, Reason, Message, FromError. rewrite errors_As_wrapped.
  destruct e as [st c0]. cbn. unfold Is. cbn. by rewrite Z.eqb_refl, String.eqb_refl.
Qed.
