(* ===== verification/Sha256.v ===== *)
(** * SHA-256 and its hexadecimal encoding

    [crypto/sha256] and [encoding/hex] of Go's standard library, as the
    idempotency keys and fingerprints use them (FIPS 180-4). *)

From S2P Require Import Prelude.

Definition mask32 : Z := 4294967295.
Definition add32 (a b : Z) : Z := Z.land (a + b) mask32.
Definition rotr (n x : Z) : Z := Z.land (Z.lor (Z.shiftr x n) (Z.shiftl x (32 - n))) mask32.
Definition not32 (x : Z) : Z := Z.lxor x mask32.

(** FIPS 180-4 defines the constants as the first 32 bits of the fractional
    parts of the cube roots of the first 64 primes, and the initial hash value
    from the square roots of the first 8; they are computed here from that
    definition. *)
Definition is_prime (n : Z) : bool :=
  forallb (fun d => negb (n mod d =? 0)) (filter (fun d => d * d <=? n) (map Z.of_nat (seq 2 16))).
Definition primes : list Z := Eval vm_compute in filter is_prime (map Z.of_nat (seq 2 310)).

(** The integer cube root below [2^n], one bit at a time from the top. *)
Fixpoint cube_root (n : nat) (acc x : Z) : Z :=
  match n with
  | O => acc
  | S n' =>
      let acc' := acc + Z.shiftl 1 (Z.of_nat n') in
      cube_root n' (if acc' * acc' * acc' <=? x then acc' else acc) x
  end.

Definition sha_k : list Z :=
  Eval vm_compute in map (fun p => Z.land (cube_root 36 0 (Z.shiftl p 96)) mask32) primes.

Definition sha_state : Type := Z * Z * Z * Z * Z * Z * Z * Z.
Definition sha_init : sha_state :=
  Eval vm_compute in
  match map (fun p => Z.land (Z.sqrt (Z.shiftl p 64)) mask32) primes with
  | a :: b :: c :: d :: e :: f :: g :: h :: _ => (a, b, c, d, e, f, g, h)
  | _ => (0, 0, 0, 0, 0, 0, 0, 0)
  end.

Definition sha_round (st : sha_state) (kw : Z * Z) : sha_state :=
  let '(a, b, c, d, e, f, g, h) := st in
  let '(k, w) := kw in
  let s1 := Z.lxor (Z.lxor (rotr 6 e) (rotr 11 e)) (rotr 25 e) in
  let ch := Z.lxor (Z.land e f) (Z.land (not32 e) g) in
  let t1 := add32 (add32 (add32 (add32 h s1) ch) k) w in
  let s0 := Z.lxor (Z.lxor (rotr 2 a) (rotr 13 a)) (rotr 22 a) in
  let maj := Z.lxor (Z.lxor (Z.land a b) (Z.land a c)) (Z.land b c) in
  (add32 t1 (add32 s0 maj), a, b, c, add32 d t1, e, f, g).

(** The message schedule, most recent word first. *)
Fixpoint sha_schedule (n : nat) (ws : list Z) : list Z :=
  match n with
  | O => ws
  | S n' =>
      let w2 := nth 1 ws 0 in
      let w15 := nth 14 ws 0 in
      let s0 := Z.lxor (Z.lxor (rotr 7 w15) (rotr 18 w15)) (Z.shiftr w15 3) in
      let s1 := Z.lxor (Z.lxor (rotr 17 w2) (rotr 19 w2)) (Z.shiftr w2 10) in
      sha_schedule n' (add32 (add32 (add32 s1 (nth 6 ws 0)) s0) (nth 15 ws 0) :: ws)
  end.

Fixpoint words_of (bs : list Z) : list Z :=
  match bs with
  | a :: b :: c :: d :: bs' =>
      Z.lor (Z.shiftl a 24) (Z.lor (Z.shiftl b 16) (Z.lor (Z.shiftl c 8) d)) :: words_of bs'
  | _ => []
  end.

Definition sha_block (st : sha_state) (blk : list Z) : sha_state :=
  let ws := rev (sha_schedule 48 (rev (words_of blk))) in
  let '(a, b, c, d, e, f, g, h) := st in
  let '(a', b', c', d', e', f', g', h') := fold_left sha_round (combine sha_k ws) st in
  (add32 a a', add32 b b', add32 c c', add32 d d', add32 e e', add32 f f', add32 g g', add32 h h').

Definition be_bytes (n : nat) (z : Z) : list Z :=
  map (fun i => Z.land (Z.shiftr z (8 * Z.of_nat i)) 255) (rev (seq 0 n)).

Definition sha_pad (bs : list Z) : list Z :=
  let l := Z.of_nat (length bs) in
  bs ++ [128] ++ repeat 0 (Z.to_nat ((119 - l) mod 64)) ++ be_bytes 8 (8 * l).

Fixpoint sha_blocks (fuel : nat) (st : sha_state) (bs : list Z) : sha_state :=
  match fuel with
  | O => st
  | S fuel' =>
      match bs with
      | [] => st
      | _ => sha_blocks fuel' (sha_block st (take 64 bs)) (drop 64 bs)
      end
  end.

Definition Sum256 (bs : list Z) : list Z :=
  let p := sha_pad bs in
  let '(a, b, c, d, e, f, g, h) := sha_blocks (length p) sha_init p in
  concat (map (be_bytes 4) [a; b; c; d; e; f; g; h]).

Definition hex_digit (z : Z) : ascii := byte (if z <? 10 then 48 + z else 87 + z).
Fixpoint hex_EncodeToString (bs : list Z) : string :=
  match bs with
  | [] => ""
  | b :: bs' => String (hex_digit (Z.shiftr b 4)) (String (hex_digit (Z.land b 15)) (hex_EncodeToString bs'))
  end.

(** [hex.EncodeToString(sha256.Sum256([]byte(s)))]. *)
Definition sha256_hex (s : string) : string := hex_EncodeToString (Sum256 (str_bytes s)).

(** ** Lemmas *)

Lemma hex_length (bs : list Z) : String.length (hex_EncodeToString bs) = (2 * length bs)%nat.
Proof. induction bs as [|b bs IH]; simpl; [done|]. rewrite IH. lia. Qed.

Lemma Sum256_length (bs : list Z) : length (Sum256 bs) = 32%nat.
Proof.
  unfold Sum256. destruct (sha_blocks _ _ _) as [[[[[[[a b] c] d] e] f] g] h]. reflexivity.
Qed.

Lemma sha256_hex_length (s : string) : String.length (sha256_hex s) = 64%nat.
Proof. unfold sha256_hex. by rewrite hex_length, Sum256_length. Qed.
#[export] Hint Resolve sha256_hex_length : gateway.

(** The FIPS 180-4 test vectors. *)
Example sha256_empty :
  sha256_hex "" = "e3b0c44298fc1c149afbf4c8996fb92427ae41e4649b934ca495991b7852b855".
Proof. vm_compute. reflexivity. Qed.

Example sha256_abc :
  sha256_hex "abc" = "ba7816bf8f01cfea414140de5dae2223b00361a396177a9cb410ff61f20015ad".
Proof. vm_compute. reflexivity. Qed.

Example sha256_two_blocks :
  sha256_hex "abcdbcdecdefdefgefghfghighijhijkijkljklmklmnlmnomnopnopq"
  = "248d6a61d20638b8e5c026930c3e6039a33ce45964ff2167f6ecedd419db06c1".
Proof. vm_compute. reflexivity. Qed.

(** Only [vm_compute] evaluates digests; conversion leaves them alone. *)
#[global] Opaque sha256_hex.
