(* ===== verification/IdemRepo.v ===== *)
(** * The idempotency record store

    The interface [IdempotencyRepository] of [service/idempotency.go] as a type
    class over the type [W] of store states, what it promises to its clients
    ([RepoSpec]: every call is one atomic table operation, or an error after
    which the operation was applied or not), and the PostgreSQL implementation
    of [repository/idempotency_repo.go], which discharges the promise. *)

From S2P Require Import Prelude Errors.

Definition IdempotencyStatusProcessing : string := "processing".
Definition IdempotencyStatusSucceeded : string := "succeeded".
Definition IdempotencyStatusFailedRetryable : string := "failed_retryable".

Record IdempotencyRecord := mkRecord {
  rec_ID : Z;
  rec_Scope : string;
  rec_IdempotencyKeyHash : string;
  rec_RequestFingerprint : string;
  rec_Status : string;
  rec_ResponseStatus : option Z;
  rec_ResponseBody : option string;
  rec_ErrorReason : option string;
  rec_LockedUntil : option time;
  rec_ExpiresAt : time;
  rec_CreatedAt : time;
  rec_UpdatedAt : time }.

Definition rec_key (r : IdempotencyRecord) : string * string :=
  (rec_Scope r, rec_IdempotencyKeyHash r).

(** ** The interface *)

Class IdempotencyRepository (W : Type) := {
  CreateProcessing : IdempotencyRecord -> ST W (result goerror (bool * IdempotencyRecord));
  GetByScopeAndKeyHash : string -> string -> ST W (result goerror (option IdempotencyRecord));
  TryReclaim : Z -> string -> time -> time -> time -> ST W (result goerror bool);
  ExtendProcessingLock : Z -> string -> time -> time -> ST W (result goerror bool);
  MarkSucceeded : Z -> Z -> string -> time -> ST W (result goerror unit);
  MarkFailedRetryable : Z -> string -> time -> time -> ST W (result goerror unit);
  DeleteExpired : time -> Z -> ST W (result goerror Z) }.

(** ** The table [idempotency_records]

    Rows by primary key and the value the [BIGSERIAL] sequence hands out next.
    Each statement of the repository is a function of the table; [dbnow] is
    what [NOW()] reads. *)

Record table := mkTable {
  tbl_rows : gmap Z IdempotencyRecord;
  tbl_next : Z }.

Definition find_key (m : gmap Z IdempotencyRecord) (k : string * string) : option IdempotencyRecord :=
  snd <$> head (map_to_list (filter (fun p => rec_key p.2 = k) m)).

(** [INSERT ... ON CONFLICT (scope, idempotency_key_hash) DO NOTHING RETURNING id, ...]:
    the sequence value is consumed whether or not the row is inserted. *)
Definition stmt_create (dbnow : time) (record : IdempotencyRecord) (t : table)
  : (bool * IdempotencyRecord) * table :=
  let id := tbl_next t in
  match find_key (tbl_rows t) (rec_key record) with
  | Some _ => ((false, record), mkTable (tbl_rows t) (id + 1))
  | None =>
      let row := mkRecord id (rec_Scope record) (rec_IdempotencyKeyHash record)
        (rec_RequestFingerprint record) (rec_Status record) None None None
        (rec_LockedUntil record) (rec_ExpiresAt record) dbnow dbnow in
      ((true, { record with rec_ID := id; rec_CreatedAt := dbnow; rec_UpdatedAt := dbnow }),
       mkTable (<[id := row]> (tbl_rows t)) (id + 1))
  end.

(** [SELECT ... WHERE scope = $1 AND idempotency_key_hash = $2]. *)
Definition stmt_get (scope keyHash : string) (t : table) : option IdempotencyRecord * table :=
  (find_key (tbl_rows t) (scope, keyHash), t).

Definition lock_free (now : time) (r : IdempotencyRecord) : bool :=
  match rec_LockedUntil r with None => true | Some u => u <=? now end.

(** [UPDATE ... SET status = 'processing', locked_until, error_reason = NULL, expires_at
    WHERE id = $1 AND status = $5 AND (locked_until IS NULL OR locked_until <= $6)]. *)
Definition stmt_reclaim (dbnow : time) (id : Z) (fromStatus : string)
  (now newLockedUntil newExpiresAt : time) (t : table) : bool * table :=
  match tbl_rows t !! id with
  | Some r =>
      if String.eqb (rec_Status r) fromStatus && lock_free now r then
        (true, mkTable (<[id := { r with rec_Status := IdempotencyStatusProcessing;
                                  rec_LockedUntil := Some newLockedUntil;
                                  rec_ErrorReason := None;
                                  rec_UpdatedAt := dbnow;
                                  rec_ExpiresAt := newExpiresAt }]> (tbl_rows t)) (tbl_next t))
      else (false, t)
  | None => (false, t)
  end.

(** [UPDATE ... WHERE id = $1 AND status = 'processing' AND request_fingerprint = $5]. *)
Definition stmt_extend (dbnow : time) (id : Z) (requestFingerprint : string)
  (newLockedUntil newExpiresAt : time) (t : table) : bool * table :=
  match tbl_rows t !! id with
  | Some r =>
      if String.eqb (rec_Status r) IdempotencyStatusProcessing &&
         String.eqb (rec_RequestFingerprint r) requestFingerprint then
        (true, mkTable (<[id := { r with rec_LockedUntil := Some newLockedUntil;
                                  rec_ExpiresAt := newExpiresAt;
                                  rec_UpdatedAt := dbnow }]> (tbl_rows t)) (tbl_next t))
      else (false, t)
  | None => (false, t)
  end.

Definition stmt_succeeded (dbnow : time) (id : Z) (responseStatus : Z) (responseBody : string)
  (expiresAt : time) (t : table) : unit * table :=
  (tt, mkTable (alter (fun r => { r with rec_Status := IdempotencyStatusSucceeded;
                                  rec_ResponseStatus := Some responseStatus;
                                  rec_ResponseBody := Some responseBody;
                                  rec_ErrorReason := None;
                                  rec_LockedUntil := None;
                                  rec_ExpiresAt := expiresAt;
                                  rec_UpdatedAt := dbnow }) id (tbl_rows t)) (tbl_next t)).

Definition stmt_failed (dbnow : time) (id : Z) (errorReason : string)
  (lockedUntil expiresAt : time) (t : table) : unit * table :=
  (tt, mkTable (alter (fun r => { r with rec_Status := IdempotencyStatusFailedRetryable;
                                  rec_ErrorReason := Some errorReason;
                                  rec_LockedUntil := Some lockedUntil;
                                  rec_ExpiresAt := expiresAt;
                                  rec_UpdatedAt := dbnow }) id (tbl_rows t)) (tbl_next t)).

(** [ORDER BY expires_at ASC LIMIT $2] over the expired rows; rows with equal
    [expires_at] come in the order of the table. *)
Definition expires_le : relation (Z * IdempotencyRecord) :=
  fun p q => rec_ExpiresAt p.2 <= rec_ExpiresAt q.2.
#[export] Instance expires_le_dec : RelDecision expires_le.
Proof. intros p q. unfold expires_le. apply _. Defined.

Definition victims (now : time) (limit : nat) (m : gmap Z IdempotencyRecord) : list Z :=
  map fst (take limit (merge_sort expires_le
    (map_to_list (filter (fun p => rec_ExpiresAt p.2 <= now) m)))).

Definition stmt_delete_expired (now : time) (limit : Z) (t : table) : Z * table :=
  let limit := if limit <=? 0 then 500 else limit in
  let ids := victims now (Z.to_nat limit) (tbl_rows t) in
  (Z.of_nat (length ids), mkTable (foldr delete (tbl_rows t) ids) (tbl_next t)).

(** ** What a store promises *)

(** A call either answers as the atomic statement does, or reports an error,
    and then the statement took effect or not (a lost reply). *)
Definition refines {W A} (view : W -> table) (m : ST W (result goerror A))
  (stmt : time -> table -> A * table) : Prop :=
  forall w, exists dbnow,
    match m w with
    | (Ok a, w') => stmt dbnow (view w) = (a, view w')
    | (Err _, w') => view w' = view w \/ view w' = snd (stmt dbnow (view w))
    end.

Class RepoSpec (W : Type) `{!IdempotencyRepository W} := {
  view : W -> table;
  spec_create r : refines view (CreateProcessing r) (fun n => stmt_create n r);
  spec_get s h : refines view (GetByScopeAndKeyHash s h) (fun _ => stmt_get s h);
  spec_reclaim id from now nl ne :
    refines view (TryReclaim id from now nl ne) (fun n => stmt_reclaim n id from now nl ne);
  spec_extend id fp nl ne :
    refines view (ExtendProcessingLock id fp nl ne) (fun n => stmt_extend n id fp nl ne);
  spec_succeeded id st body ex :
    refines view (MarkSucceeded id st body ex) (fun n => stmt_succeeded n id st body ex);
  spec_failed id reason lu ex :
    refines view (MarkFailedRetryable id reason lu ex) (fun n => stmt_failed n id reason lu ex);
  spec_delete now limit :
    refines view (DeleteExpired now limit) (fun _ => stmt_delete_expired now limit) }.

(** ** The SQL repository

    The state of the database as the process sees it: the table, its clock and
    what the next statements meet (an error before or after they took effect). *)

Record sqldb := mkDB {
  db_table : table;
  db_clock : time;
  db_faults : list fault }.

Definition ExecStmt {A} (stmt : time -> table -> A * table) : ST sqldb (result goerror A) :=
  fun db =>
    let '(a, t') := stmt (db_clock db) (db_table db) in
    match db_faults db with
    | [] => (Ok a, mkDB t' (db_clock db) [])
    | NoFault :: fs => (Ok a, mkDB t' (db_clock db) fs)
    | FailBefore e :: fs => (Err e, mkDB (db_table db) (db_clock db) fs)
    | FailAfter e :: fs => (Err e, mkDB t' (db_clock db) fs)
    end.

Definition sql_CreateProcessing (record : IdempotencyRecord) := ExecStmt (fun n => stmt_create n record).
Definition sql_GetByScopeAndKeyHash (scope keyHash : string) := ExecStmt (fun _ => stmt_get scope keyHash).
Definition sql_TryReclaim (id : Z) (fromStatus : string) (now nl ne : time) :=
  ExecStmt (fun n => stmt_reclaim n id fromStatus now nl ne).
Definition sql_ExtendProcessingLock (id : Z) (fp : string) (nl ne : time) :=
  ExecStmt (fun n => stmt_extend n id fp nl ne).
Definition sql_MarkSucceeded (id status : Z) (body : string) (ex : time) :=
  ExecStmt (fun n => stmt_succeeded n id status body ex).
Definition sql_MarkFailedRetryable (id : Z) (reason : string) (lu ex : time) :=
  ExecStmt (fun n => stmt_failed n id reason lu ex).
Definition sql_DeleteExpired (now : time) (limit : Z) := ExecStmt (fun _ => stmt_delete_expired now limit).

#[export] Instance idempotencyRepository : IdempotencyRepository sqldb := {|
  CreateProcessing := sql_CreateProcessing;
  GetByScopeAndKeyHash := sql_GetByScopeAndKeyHash;
  TryReclaim := sql_TryReclaim;
  ExtendProcessingLock := sql_ExtendProcessingLock;
  MarkSucceeded := sql_MarkSucceeded;
  MarkFailedRetryable := sql_MarkFailedRetryable;
  DeleteExpired := sql_DeleteExpired |}.

(** ** Table operations as a labelled step relation *)

Inductive op :=
| OpCreate (record : IdempotencyRecord)
| OpGet (scope keyHash : string)
| OpReclaim (id : Z) (from : string) (now nl ne : time)
| OpExtend (id : Z) (fp : string) (nl ne : time)
| OpSucceeded (id status : Z) (body : string) (ex : time)
| OpFailed (id : Z) (reason : string) (lu ex : time)
| OpDelete (now : time) (limit : Z).

Definition apply_op (dbnow : time) (o : op) (t : table) : table :=
  match o with
  | OpCreate r => snd (stmt_create dbnow r t)
  | OpGet s h => snd (stmt_get s h t)
  | OpReclaim id from now nl ne => snd (stmt_reclaim dbnow id from now nl ne t)
  | OpExtend id fp nl ne => snd (stmt_extend dbnow id fp nl ne t)
  | OpSucceeded id st body ex => snd (stmt_succeeded dbnow id st body ex t)
  | OpFailed id reason lu ex => snd (stmt_failed dbnow id reason lu ex t)
  | OpDelete now limit => snd (stmt_delete_expired now limit t)
  end.

Definition step (t t' : table) : Prop := exists dbnow o, t' = apply_op dbnow o t.
Definition empty_table : table := mkTable ∅ 1.
Definition reachable (t : table) : Prop := rtc step empty_table t.

(** Every row sits under its own id, ids come from the sequence, and
    [(scope, idempotency_key_hash)] is unique. *)
Record table_ok (t : table) : Prop := {
  ok_id i r : tbl_rows t !! i = Some r -> rec_ID r = i /\ 0 < i < tbl_next t;
  ok_unique i j r s :
    tbl_rows t !! i = Some r -> tbl_rows t !! j = Some s -> rec_key r = rec_key s -> i = j;
  ok_next : 0 < tbl_next t }.

(** ** Lemmas *)

Lemma find_key_Some (m : gmap Z IdempotencyRecord) k r :
  find_key m k = Some r -> exists i, m !! i = Some r /\ rec_key r = k.
Proof.
  unfold find_key. intros H.
  destruct (map_to_list _) as [|[i r'] l] eqn:E; simpl in H; [done|]. simplify_eq.
  assert (Hin : (i, r) ∈ map_to_list (filter (fun p => rec_key p.2 = k) m)) by (rewrite E; left).
  apply elem_of_map_to_list in Hin. apply map_lookup_filter_Some in Hin as [? ?]. by exists i.
Qed.

Lemma find_key_None (m : gmap Z IdempotencyRecord) k i r :
  find_key m k = None -> m !! i = Some r -> rec_key r <> k.
Proof.
  unfold find_key. intros H Hi Hk.
  assert (Hin : (i, r) ∈ map_to_list (filter (fun p => rec_key p.2 = k) m)).
  { apply elem_of_map_to_list, map_lookup_filter_Some. done. }
  destruct (map_to_list _) as [|p l]; [by apply not_elem_of_nil in Hin | done].
Qed.

Lemma find_key_unique t i r :
  table_ok t -> tbl_rows t !! i = Some r -> find_key (tbl_rows t) (rec_key r) = Some r.
Proof.
  intros Hok Hi. destruct (find_key (tbl_rows t) (rec_key r)) as [s|] eqn:E.
  - apply find_key_Some in E as (j & Hj & Hk).
    pose proof (ok_unique _ Hok _ _ _ _ Hj Hi Hk). naive_solver.
  - by destruct (find_key_None _ _ _ _ E Hi).
Qed.

(** A row changed in place keeps its id and its key. *)
Lemma table_ok_insert t i r r' :
  table_ok t -> tbl_rows t !! i = Some r -> rec_ID r' = rec_ID r -> rec_key r' = rec_key r ->
  table_ok (mkTable (<[i := r']> (tbl_rows t)) (tbl_next t)).
Proof.
  intros [H1 H2 H3] Hi Hid Hk. split; simpl; [| |done].
  - intros j s [[<- <-]|[Hne Hj]]%lookup_insert_Some; [|by apply H1].
    rewrite Hid. by apply H1.
  - intros j j' s s' [[<- <-]|[Hne Hj]]%lookup_insert_Some [[<- <-]|[Hne' Hj']]%lookup_insert_Some;
      rewrite ?Hk; [done| | |]; intros E.
    + by apply (H2 i j' r s').
    + apply (H2 j i s r); congruence.
    + by apply (H2 j j' s s').
Qed.

Lemma table_ok_alter t f i :
  table_ok t -> (forall r, rec_ID (f r) = rec_ID r /\ rec_key (f r) = rec_key r) ->
  table_ok (mkTable (alter f i (tbl_rows t)) (tbl_next t)).
Proof.
  intros Hok Hf. destruct (tbl_rows t !! i) as [r|] eqn:Hi.
  - replace (alter f i (tbl_rows t)) with (<[i := f r]> (tbl_rows t)).
    + eapply table_ok_insert; [done | done | apply Hf | apply Hf].
    + apply map_eq. intros j. rewrite lookup_alter, lookup_insert.
      case_decide; simplify_eq; by rewrite ?Hi.
  - rewrite alter_id; [by destruct t|]. intros s Hs. congruence.
Qed.

Lemma table_ok_subset t m :
  table_ok t -> m ⊆ tbl_rows t -> table_ok (mkTable m (tbl_next t)).
Proof.
  intros [H1 H2 H3] Hsub. split; simpl; [| |done].
  - intros i r Hi. apply H1. by apply (lookup_weaken m).
  - intros i j r s Hi Hj. apply H2; by apply (lookup_weaken m).
Qed.

Lemma foldr_delete_subset (m : gmap Z IdempotencyRecord) (l : list Z) : foldr delete m l ⊆ m.
Proof.
  induction l as [|i l IH]; simpl; [done|]. etrans; [apply delete_subseteq|done].
Qed.

Lemma table_ok_create n r t : table_ok t -> table_ok (snd (stmt_create n r t)).
Proof.
  intros Hok. pose proof Hok as [H1 H2 H3]. unfold stmt_create. destruct (find_key _ _) as [old|] eqn:E; simpl.
  - split; simpl; [|done|lia]. intros i s Hi. destruct (H1 i s Hi). lia.
  - split; simpl; [| |lia].
    + intros i s [[<- <-]|[Hne Hi]]%lookup_insert_Some; simpl; [lia|].
      destruct (H1 i s Hi). lia.
    + intros i j s s' [[<- <-]|[Hne Hi]]%lookup_insert_Some [[<- <-]|[Hne' Hj]]%lookup_insert_Some;
        intros Hk; [done| | |by eapply H2].
      * by destruct (find_key_None _ _ _ _ E Hj).
      * by destruct (find_key_None _ _ _ _ E Hi).
Qed.

Lemma table_ok_apply n o t : table_ok t -> table_ok (apply_op n o t).
Proof.
  intros Hok. destruct o; simpl.
  - by apply table_ok_create.
  - done.
  - unfold stmt_reclaim. repeat split_if; simpl; [|done|done].
    by eapply table_ok_insert.
  - unfold stmt_extend. repeat split_if; simpl; [|done|done].
    by eapply table_ok_insert.
  - apply table_ok_alter; [done|]. intros [] ; done.
  - apply table_ok_alter; [done|]. intros []; done.
  - apply table_ok_subset; [done|]. apply foldr_delete_subset.
Qed.
#[export] Hint Resolve table_ok_apply : gateway.

Lemma empty_table_ok : table_ok empty_table.
Proof. split; simpl; [intros ?? H|intros ???? H|lia]; by rewrite lookup_empty in H. Qed.
#[export] Hint Resolve empty_table_ok : gateway.

Lemma ExecStmt_refines {A} (stmt : time -> table -> A * table) :
  refines db_table (ExecStmt stmt) stmt.
Proof.
  intros db. exists (db_clock db). unfold ExecStmt.
  destruct (stmt _ _) as [a t'] eqn:E. destruct (db_faults db) as [|[] ?]; simpl; auto.
Qed.
#[export] Hint Resolve ExecStmt_refines : gateway.

(** The SQL repository keeps the promise of the interface. *)
#[export] Instance sql_RepoSpec : RepoSpec sqldb.
Proof. by refine {| view := db_table |}; intros; apply ExecStmt_refines. Defined.

(** ** Leases over sequences of operations

    A row in status [processing] carries a lease until [locked_until].  An
    operation leaves the lease of row [id] alone when it is not one of the
    operations the lease holder issues for its own row, when a reclaim is
    attempted by a clock before [until], and when a clean-up runs by a clock
    before the row expires. *)
Definition leaves_lease (id : Z) (until ex : time) (o : op) : bool :=
  match o with
  | OpCreate _ | OpGet _ _ => true
  | OpReclaim id' _ now _ _ => negb (id' =? id) || (now <? until)
  | OpExtend id' _ _ _ | OpSucceeded id' _ _ _ | OpFailed id' _ _ _ => negb (id' =? id)
  | OpDelete now _ => now <? ex
  end.

(** Whether the operation hands a claim on row [id] (key [k]) to its caller. *)
Definition grants (id : Z) (k : string * string) (dbnow : time) (o : op) (t : table) : bool :=
  match o with
  | OpCreate r => bool_decide (rec_key r = k) && fst (fst (stmt_create dbnow r t))
  | OpReclaim id' from now nl ne => (id' =? id) && fst (stmt_reclaim dbnow id' from now nl ne t)
  | _ => false
  end.

Fixpoint count_grants (id : Z) (k : string * string) (l : list (time * op)) (t : table) : nat :=
  match l with
  | [] => 0
  | (n, o) :: l' => (if grants id k n o t then 1 else 0) + count_grants id k l' (apply_op n o t)
  end.

Definition apply_ops (l : list (time * op)) (t : table) : table :=
  fold_left (fun t p => apply_op p.1 p.2 t) l t.

Lemma victims_expired now limit m i r :
  m !! i = Some r -> i ∈ victims now limit m -> rec_ExpiresAt r <= now.
Proof.
  intros Hi Hin. unfold victims in Hin.
  apply list_elem_of_In, in_map_iff in Hin as ((j & s) & Hj & Hin). simpl in Hj. subst j.
  apply list_elem_of_In in Hin.
  assert (Hin2 : (i, s) ∈ merge_sort expires_le
    (map_to_list (filter (fun p => rec_ExpiresAt p.2 <= now) m))).
  { eapply elem_of_submseteq; [exact Hin|]. apply sublist_submseteq, sublist_take. }
  rewrite merge_sort_Permutation in Hin2.
  apply elem_of_map_to_list, map_lookup_filter_Some in Hin2 as [Hs Hle]. simpl in Hle. congruence.
Qed.

Lemma lookup_foldr_delete_notin (m : gmap Z IdempotencyRecord) (l : list Z) i :
  i ∉ l -> foldr delete m l !! i = m !! i.
Proof.
  induction l as [|j l IH]; simpl; [done|]. intros [Hne Hin]%not_elem_of_cons.
  rewrite lookup_delete_ne by done. auto.
Qed.

(** One step keeps the leased row and grants no second claim. *)
Lemma lease_step id k until ex n o t r :
  table_ok t -> tbl_rows t !! id = Some r -> rec_key r = k ->
  rec_LockedUntil r = Some until -> rec_ExpiresAt r = ex ->
  leaves_lease id until ex o = true ->
  grants id k n o t = false /\ tbl_rows (apply_op n o t) !! id = Some r.
Proof.
  intros Hok Hr Hk Hl Hex Ho. subst k. pose proof (find_key_unique _ _ _ Hok Hr) as Hfind.
  destruct o as [s| |id' f now nl ne|id' fp nl ne|id' st b e|id' rs lu e|now lim];
    simpl in *; try (apply negb_true_iff, Z.eqb_neq in Ho).
  - unfold stmt_create. case_bool_decide as Hks; [by rewrite Hks, Hfind|].
    split; [done|]. destruct (find_key (tbl_rows t) (rec_key s)) eqn:E; simpl; [done|].
    rewrite lookup_insert_ne; [done|]. intros ?. pose proof (ok_id _ Hok _ _ Hr). lia.
  - done.
  - unfold stmt_reclaim. destruct (Z.eqb_spec id' id) as [->|Hne]; simpl in *.
    + rewrite Hr. unfold lock_free. rewrite Hl, (proj2 (Z.leb_gt until now)), andb_false_r; [done|lia].
    + split; [done|]. repeat split_if; simpl; by rewrite ?lookup_insert_ne.
  - split; [done|]. unfold stmt_extend. repeat split_if; simpl; by rewrite ?lookup_insert_ne.
  - split; [done|]. by rewrite lookup_alter_ne.
  - split; [done|]. by rewrite lookup_alter_ne.
  - split; [done|]. rewrite lookup_foldr_delete_notin; [done|].
    intros Hin. apply (victims_expired _ _ _ _ _ Hr) in Hin. lia.
Qed.

(** ** Properties *)

(** C40: from the empty table, whatever statements the processes issue and in
    whatever order, every row stays under its own id, ids stay below the sequence
    value, and no two rows carry the same scope and key hash. *)
Theorem reachable_table_ok (t : table) : reachable t -> table_ok t.
Proof.
  intros H. pattern t. revert t H. apply rtc_ind_r; [apply empty_table_ok|].
  intros t1 t2 _ [n [o ->]] IH. auto with gateway.
Qed.

Lemma reachable_table_ok_witness :
  exists t, reachable t /\ tbl_rows t !! 1 <> None /\ table_ok t.
Proof.
  pose (r := mkRecord 0 "s" "h" "f" "processing" None None None (Some 5) 9 0 0).
  assert (Hr : reachable (apply_op 3 (OpCreate r) empty_table)).
  { apply rtc_once. by exists 3, (OpCreate r). }
  exists (apply_op 3 (OpCreate r) empty_table).
  split; [exact Hr|]. split; [by vm_compute|]. exact (reachable_table_ok _ Hr).
Defined.


