(* ===== verification/Idempotency.v ===== *)
(** * The idempotency coordinator ([service/idempotency.go])

    Key normalisation, fingerprints, [Execute] with its claim, replay, conflict
    and retry branches, and what is stored of a response.  The store is any
    implementation of the interface of [IdemRepo]; metrics and audit logs are
    not modelled.  [encoding/json] on [any] values dispatches to the methods of
    the values, so it is the class [JsonAny]; [logredact.RedactText] is a
    parameter of the definitions that call it. *)

From S2P Require Import Prelude Errors Sha256 IdemRepo.

(** ** Sentinel errors *)

Definition ErrIdempotencyKeyRequired := BadRequest "IDEMPOTENCY_KEY_REQUIRED" "idempotency key is required".
Definition ErrIdempotencyKeyInvalid := BadRequest "IDEMPOTENCY_KEY_INVALID" "idempotency key is invalid".
Definition ErrIdempotencyKeyConflict :=
  Conflict "IDEMPOTENCY_KEY_CONFLICT" "idempotency key reused with different payload".
Definition ErrIdempotencyInProgress :=
  Conflict "IDEMPOTENCY_IN_PROGRESS" "idempotent request is still processing".
Definition ErrIdempotencyRetryBackoff :=
  Conflict "IDEMPOTENCY_RETRY_BACKOFF" "idempotent request is in retry backoff window".
Definition ErrIdempotencyStoreUnavail :=
  ServiceUnavailable "IDEMPOTENCY_STORE_UNAVAILABLE" "idempotency store unavailable".
Definition ErrIdempotencyInvalidPayload :=
  BadRequest "IDEMPOTENCY_PAYLOAD_INVALID" "failed to normalize request payload".
Definition ErrExecutorNil := InternalServer "IDEMPOTENCY_EXECUTOR_NIL" "idempotency executor is nil".
Definition ErrScopeRequired := BadRequest "IDEMPOTENCY_SCOPE_REQUIRED" "idempotency scope is required".

Record IdempotencyConfig := mkIdemConfig {
  DefaultTTL : duration;
  SystemOperationTTL : duration;
  ProcessingTimeout : duration;
  FailedRetryBackoff : duration;
  MaxStoredResponseLen : Z;
  ObserveOnly : bool }.

Definition DefaultIdempotencyConfig : IdempotencyConfig :=
  mkIdemConfig (24 * Hour) (1 * Hour) (30 * Second) (5 * Second) (64 * 1024) true.

(** ** Keys and fingerprints *)

(** The loop [for _, r := range key] refuses runes below 33 or above 126; a
    byte from 128 on starts or is part of a rune above 126 (or decodes to
    U+FFFD), so the loop refuses exactly the keys with a byte outside 33..126. *)
Definition NormalizeIdempotencyKey (raw : string) : result goerror string :=
  let key := TrimSpace raw in
  if String.eqb key "" then Ok ""
  else if 128 <? slen key then Err (AppErr ErrIdempotencyKeyInvalid)
  else if str_forallb (fun r => negb ((byte_of r <? 33) || (126 <? byte_of r))) key then Ok key
  else Err (AppErr ErrIdempotencyKeyInvalid).

Definition HashIdempotencyKey (key : string) : string := sha256_hex key.

(** [encoding/json] at the type [any]. *)
Class JsonAny (D : Type) := {
  Marshal : D -> result goerror string;
  Unmarshal : string -> result goerror D;
  EmptyObject : D }.

Definition newline : string := String (byte 10) "".

Definition BuildIdempotencyFingerprint {D} `{JsonAny D} (method route actorScope : string)
  (payload : D) : result goerror string :=
  let method := if String.eqb method "" then "POST" else method in
  let route := if String.eqb route "" then "/" else route in
  let actorScope := if String.eqb actorScope "" then "anonymous" else actorScope in
  match Marshal payload with
  | Err e => Err (AppErr (WithCause ErrIdempotencyInvalidPayload (Some e)))
  | Ok raw =>
      Ok (sha256_hex (ToUpper method +:+ newline +:+ route +:+ newline +:+ actorScope +:+ newline +:+ raw))
  end.

Definition RetryAfterSecondsFromError (err : option goerror) : Z :=
  match err with
  | None => 0
  | Some e =>
      match errors_As e with
      | None => 0
      | Some appErr =>
          match st_Metadata (ae_Status appErr) with
          | None => 0
          | Some md =>
              let v := TrimSpace (default "" (md !! "retry_after")) in
              if String.eqb v "" then 0
              else match Atoi v with
                   | Some seconds => if seconds <=? 0 then 0 else seconds
                   | None => 0
                   end
          end
      end
  end.

Definition conflictWithRetryAfter (base : ApplicationError) (lockedUntil : option time) (now : time)
  : ApplicationError :=
  match lockedUntil with
  | None => base
  | Some u =>
      let sec := SecondsInt (SubT u now) in
      let sec := if sec <=? 0 then 1 else sec in
      WithMetadata base (Some {["retry_after" := Itoa sec]})
  end.

(** ** Stored responses *)

(** The loop counts [maxBytes] down to the longest valid prefix; it stops at 0
    at the latest, so [maxBytes] iterations are enough fuel. *)
Fixpoint truncate_loop (s : string) (maxBytes : nat) : nat :=
  match maxBytes with
  | O => O
  | S n => if utf8_valid (str_take (S n) s) then S n else truncate_loop s n
  end.

Definition truncateUTF8 (s : string) (maxBytes : Z) : string :=
  if (maxBytes <=? 0) || (slen s <=? maxBytes) then s
  else str_take (truncate_loop s (Z.to_nat maxBytes)) s.

Definition truncatedMark : string := "...(truncated)".

Definition marshalStoredResponse {D} `{JsonAny D} (RedactText : string -> string)
  (cfg : IdempotencyConfig) (data : D) : result goerror string :=
  match Marshal data with
  | Err e => Err e
  | Ok raw =>
      let redacted := RedactText raw in
      if (0 <? MaxStoredResponseLen cfg) && (MaxStoredResponseLen cfg <? slen redacted)
      then Ok (truncateUTF8 redacted (MaxStoredResponseLen cfg) +:+ truncatedMark)
      else Ok redacted
  end.

Definition decodeStoredResponse {D} `{JsonAny D} (stored : option string) : result goerror D :=
  match stored with
  | None => Ok EmptyObject
  | Some s =>
      if String.eqb (TrimSpace s) "" then Ok EmptyObject
      else match Unmarshal s with
           | Err e => Err (WrapErr "decode stored response" e)
           | Ok out => Ok out
           end
  end.

(** ** [Execute] *)

Record IdempotencyExecuteOptions (D : Type) := mkOpts {
  opt_Scope : string;
  opt_ActorScope : string;
  opt_Method : string;
  opt_Route : string;
  opt_IdempotencyKey : string;
  opt_Payload : D;
  opt_TTL : duration;
  opt_RequireKey : bool }.
Arguments mkOpts {D}. Arguments opt_Scope {D}. Arguments opt_ActorScope {D}.
Arguments opt_Method {D}. Arguments opt_Route {D}. Arguments opt_IdempotencyKey {D}.
Arguments opt_Payload {D}. Arguments opt_TTL {D}. Arguments opt_RequireKey {D}.

Record IdempotencyExecuteResult (D : Type) := mkResult { Data : D; Replayed : bool }.
Arguments mkResult {D}. Arguments Data {D}. Arguments Replayed {D}.

(** What the claim phase decides: run the executor on behalf of a row, or
    return at once. *)
Inductive claim_outcome (D : Type) :=
| Run (id : Z)
| Return (r : result goerror (IdempotencyExecuteResult D)).
Arguments Run {D} id.
Arguments Return {D} r.

Definition unavailable {D} (cause : option goerror) : claim_outcome D :=
  Return (Err (AppErr (match cause with
                       | Some e => WithCause ErrIdempotencyStoreUnavail (Some e)
                       | None => ErrIdempotencyStoreUnavail
                       end))).
Definition conflict {D} (e : ApplicationError) : claim_outcome D := Return (Err (AppErr e)).

Section Coordinator.
Context {W X D : Type} `{!IdempotencyRepository W} `{!JsonAny D}.
Variable RedactText : string -> string.
Variable repo_nil : bool.
Variable cfg : IdempotencyConfig.

(** The switch on [existing.Status]. *)
Definition byStatus (existing : IdempotencyRecord) (now lockedUntil expiresAt : time)
  : ST W (claim_outcome D) :=
  if String.eqb (rec_Status existing) IdempotencyStatusSucceeded then
    mret (match decodeStoredResponse (rec_ResponseBody existing) with
          | Err e => unavailable (Some e)
          | Ok data => Return (Ok (mkResult data true))
          end)
  else if String.eqb (rec_Status existing) IdempotencyStatusProcessing then
    mret (conflict (conflictWithRetryAfter ErrIdempotencyInProgress (rec_LockedUntil existing) now))
  else if String.eqb (rec_Status existing) IdempotencyStatusFailedRetryable then
    if match rec_LockedUntil existing with Some u => After u now | None => false end then
      mret (conflict (conflictWithRetryAfter ErrIdempotencyRetryBackoff (rec_LockedUntil existing) now))
    else
      r ← TryReclaim (rec_ID existing) IdempotencyStatusFailedRetryable now lockedUntil expiresAt;
      mret (match r with
            | Err e => unavailable (Some e)
            | Ok false =>
                conflict (conflictWithRetryAfter ErrIdempotencyInProgress (rec_LockedUntil existing) now)
            | Ok true => Run (rec_ID existing)
            end)
  else mret (conflict ErrIdempotencyKeyConflict).

(** [if !existing.ExpiresAt.After(now)]: try to take over an expired row; when
    that fails, go on with the row as it is now. *)
Definition reclaimExpired (existing : IdempotencyRecord) (scope keyHash fingerprint : string)
  (now lockedUntil expiresAt : time) : ST W (claim_outcome D) :=
  r ← TryReclaim (rec_ID existing) (rec_Status existing) now lockedUntil expiresAt;
  match r with
  | Err e => mret (unavailable (Some e))
  | Ok true => mret (Run (rec_ID existing))
  | Ok false =>
      g ← GetByScopeAndKeyHash scope keyHash;
      match g with
      | Err e => mret (unavailable (Some e))
      | Ok None => mret (unavailable None)
      | Ok (Some latest) =>
          if String.eqb (rec_RequestFingerprint latest) fingerprint
          then byStatus latest now lockedUntil expiresAt
          else mret (conflict ErrIdempotencyKeyConflict)
      end
  end.

(** [if !owner { ... }]. *)
Definition resolveExisting (scope keyHash fingerprint : string) (now lockedUntil expiresAt : time)
  : ST W (claim_outcome D) :=
  g ← GetByScopeAndKeyHash scope keyHash;
  match g with
  | Err e => mret (unavailable (Some e))
  | Ok None => mret (unavailable None)
  | Ok (Some existing) =>
      if negb (String.eqb (rec_RequestFingerprint existing) fingerprint) then
        mret (conflict ErrIdempotencyKeyConflict)
      else if negb (After (rec_ExpiresAt existing) now) then
        reclaimExpired existing scope keyHash fingerprint now lockedUntil expiresAt
      else byStatus existing now lockedUntil expiresAt
  end.

(** From [CreateProcessing] to the check of [record.ID]. *)
Definition claim (scope keyHash fingerprint : string) (now lockedUntil expiresAt : time)
  : ST W (claim_outcome D) :=
  let record := mkRecord 0 scope keyHash fingerprint IdempotencyStatusProcessing
                  None None None (Some lockedUntil) expiresAt 0 0 in
  c ← CreateProcessing record;
  o ← match c with
      | Err e => mret (unavailable (Some e))
      | Ok (true, record') => mret (Run (rec_ID record'))
      | Ok (false, _) => resolveExisting scope keyHash fingerprint now lockedUntil expiresAt
      end;
  mret (match o with
        | Run id => if id =? 0 then unavailable None else Run id
        | Return r => Return r
        end).

(** From the executor's answer to the end; [backoffNow] is the second reading
    of the clock, on the error path. *)
Definition finish (id : Z) (backoffNow expiresAt : time) (answer : result goerror D)
  : ST W (result goerror (IdempotencyExecuteResult D)) :=
  match answer with
  | Err execErr =>
      let backoffUntil := AddT backoffNow (FailedRetryBackoff cfg) in
      let reason := Reason (Some execErr) in
      let reason := if String.eqb reason "" then "EXECUTION_FAILED" else reason in
      _ ← MarkFailedRetryable id reason backoffUntil expiresAt;
      mret (Err execErr)
  | Ok data =>
      match marshalStoredResponse RedactText cfg data with
      | Err e => mret (Err (AppErr (WithCause ErrIdempotencyStoreUnavail (Some e))))
      | Ok storedBody =>
          m ← MarkSucceeded id 200 storedBody expiresAt;
          mret (match m with
                | Err e => Err (AppErr (WithCause ErrIdempotencyStoreUnavail (Some e)))
                | Ok _ => Ok (mkResult data false)
                end)
      end
  end.

(** The executor acts on a world [X] of its own.  [now] and [backoffNow] are
    the two readings of the clock. *)
Definition Execute (opts : IdempotencyExecuteOptions D) (now backoffNow : time)
  (execute : option (ST X (result goerror D)))
  : ST (W * X) (result goerror (IdempotencyExecuteResult D)) :=
  fun '(w, x) =>
  match execute with
  | None => (Err (AppErr ErrExecutorNil), (w, x))
  | Some execute =>
  match NormalizeIdempotencyKey (opt_IdempotencyKey opts) with
  | Err e => (Err e, (w, x))
  | Ok key =>
  if String.eqb key "" then
    if opt_RequireKey opts && negb (ObserveOnly cfg)
    then (Err (AppErr ErrIdempotencyKeyRequired), (w, x))
    else let '(r, x') := execute x in
         (match r with Err e => Err e | Ok data => Ok (mkResult data false) end, (w, x'))
  else if repo_nil then (Err (AppErr ErrIdempotencyStoreUnavail), (w, x))
  else if String.eqb (opt_Scope opts) "" then (Err (AppErr ErrScopeRequired), (w, x))
  else
  match BuildIdempotencyFingerprint (opt_Method opts) (opt_Route opts) (opt_ActorScope opts)
          (opt_Payload opts) with
  | Err e => (Err e, (w, x))
  | Ok fingerprint =>
      let ttl := if opt_TTL opts <=? 0 then DefaultTTL cfg else opt_TTL opts in
      let expiresAt := AddT now ttl in
      let lockedUntil := AddT now (ProcessingTimeout cfg) in
      let keyHash := HashIdempotencyKey key in
      let '(c, w1) := claim (opt_Scope opts) keyHash fingerprint now lockedUntil expiresAt w in
      match c with
      | Return r => (r, (w1, x))
      | Run id =>
          let '(answer, x1) := execute x in
          let '(r, w2) := finish id backoffNow expiresAt answer w1 in
          (r, (w2, x1))
      end
  end
  end
  end.

End Coordinator.

(** What makes a key claimable at [now], and what a claim leaves behind. *)
Definition claimable (t : table) (now : time) (k : string * string) (fp : string) : Prop :=
  find_key (tbl_rows t) k = None \/
  exists r, find_key (tbl_rows t) k = Some r /\ rec_RequestFingerprint r = fp /\
    lock_free now r = true /\
    (rec_ExpiresAt r <= now \/ rec_Status r = IdempotencyStatusFailedRetryable).

Definition claimed_row (t : table) (id : Z) (k : string * string) (fp : string)
  (lockedUntil expiresAt : time) : Prop :=
  exists r, tbl_rows t !! id = Some r /\ rec_key r = k /\ rec_RequestFingerprint r = fp /\
    rec_Status r = IdempotencyStatusProcessing /\
    rec_LockedUntil r = Some lockedUntil /\ rec_ExpiresAt r = expiresAt.

(** The key and fingerprint under which [Execute] looks a request up. *)
Definition request_key {D} (opts : IdempotencyExecuteOptions D) : string * string :=
  (opt_Scope opts,
   match NormalizeIdempotencyKey (opt_IdempotencyKey opts) with
   | Ok key => HashIdempotencyKey key
   | Err _ => ""
   end).
Definition request_fp {D} `{JsonAny D} (opts : IdempotencyExecuteOptions D) : result goerror string :=
  BuildIdempotencyFingerprint (opt_Method opts) (opt_Route opts) (opt_ActorScope opts) (opt_Payload opts).
Definition keyed_request {D} (opts : IdempotencyExecuteOptions D) : Prop :=
  opt_Scope opts <> "" /\
  exists key, NormalizeIdempotencyKey (opt_IdempotencyKey opts) = Ok key /\ key <> "".

(** ** Lemmas on the store interface *)

Section Store.
Context {W : Type} `{!IdempotencyRepository W} `{!RepoSpec W}.

Lemma get_inv s h w r w' :
  GetByScopeAndKeyHash s h w = (r, w') ->
  view w' = view w /\ (forall o, r = Ok o -> o = find_key (tbl_rows (view w)) (s, h)).
Proof.
  intros E. destruct (spec_get s h w) as [n H]. rewrite E in H.
  destruct r as [o|e]; simpl in H; [|by destruct H].
  unfold stmt_get in H. injection H as H1 H2. split; [done|]. intros o' [= <-]. done.
Qed.

Lemma create_inv_false r w r' w' :
  CreateProcessing r w = (Ok (false, r'), w') ->
  is_Some (find_key (tbl_rows (view w)) (rec_key r)) /\
  tbl_rows (view w') = tbl_rows (view w) /\ (table_ok (view w) -> table_ok (view w')).
Proof.
  intros E. destruct (spec_create r w) as [n H]. rewrite E in H.
  pose proof (table_ok_create n r (view w)) as Hok. rewrite H in Hok. simpl in Hok.
  unfold stmt_create in H. destruct (find_key _ _) as [old|]; [|done].
  injection H as _ Hv. split; [by eexists|]. split; [|done]. by rewrite <- Hv.
Qed.

Lemma create_inv_true r w r' w' :
  CreateProcessing r w = (Ok (true, r'), w') ->
  find_key (tbl_rows (view w)) (rec_key r) = None /\ rec_ID r' = tbl_next (view w) /\
  exists row, tbl_rows (view w') !! rec_ID r' = Some row /\ rec_key row = rec_key r /\
    rec_RequestFingerprint row = rec_RequestFingerprint r /\ rec_Status row = rec_Status r /\
    rec_LockedUntil row = rec_LockedUntil r /\ rec_ExpiresAt row = rec_ExpiresAt r.
Proof.
  intros E. destruct (spec_create r w) as [n H]. rewrite E in H.
  unfold stmt_create in H. destruct (find_key _ _) as [old|] eqn:Ef; [done|].
  injection H as Hr Hv. subst r'. rewrite <- Hv. simpl.
  split; [done|]. split; [done|]. eexists. rewrite lookup_insert_eq. done.
Qed.

Lemma reclaim_inv id from now nl ne w r w' :
  TryReclaim id from now nl ne w = (r, w') ->
  exists n, match r with
            | Ok b => stmt_reclaim n id from now nl ne (view w) = (b, view w')
            | Err _ => view w' = view w \/ view w' = snd (stmt_reclaim n id from now nl ne (view w))
            end.
Proof. intros E. destruct (spec_reclaim id from now nl ne w) as [n H]. rewrite E in H. eauto. Qed.

Lemma reclaim_true n id from now nl ne t t' :
  stmt_reclaim n id from now nl ne t = (true, t') ->
  exists r, tbl_rows t !! id = Some r /\ rec_Status r = from /\ lock_free now r = true /\
    claimed_row t' id (rec_key r) (rec_RequestFingerprint r) nl ne.
Proof.
  unfold stmt_reclaim. intros H. destruct (tbl_rows t !! id) as [r|] eqn:Hr; [|done].
  destruct (String.eqb_spec (rec_Status r) from) as [Hs|]; [|done].
  destruct (lock_free now r) eqn:Hl; simpl in H; [|done]. simplify_eq.
  exists r. repeat (split; [done|]). eexists. simpl. rewrite lookup_insert_eq. done.
Qed.

Lemma reclaim_false n id from now nl ne t t' :
  stmt_reclaim n id from now nl ne t = (false, t') ->
  t' = t /\ forall r, tbl_rows t !! id = Some r -> rec_Status r = from -> lock_free now r = false.
Proof.
  unfold stmt_reclaim. intros H. destruct (tbl_rows t !! id) as [r|] eqn:Hr; [|by simplify_eq].
  destruct (String.eqb_spec (rec_Status r) from) as [Hs|Hs], (lock_free now r) eqn:Hl;
    simpl in H; simplify_eq; split; try done; intros s [= <-]; congruence.
Qed.
End Store.

Ltac unfold_st H := unfold mbind, ST_bind, mret, ST_ret in H.
(** Name the answer of the next store call in [H] and bring its specification in. *)
Ltac store_call H :=
  match type of H with
  | context [GetByScopeAndKeyHash ?s ?h ?w] =>
      let E := fresh "E" in let r := fresh "r" in let w1 := fresh "w" in
      destruct (GetByScopeAndKeyHash s h w) as [r w1] eqn:E;
      apply get_inv in E; destruct E as [? ?]
  | context [TryReclaim ?id ?f ?a ?b ?c ?w] =>
      let E := fresh "E" in let r := fresh "r" in let w1 := fresh "w" in
      destruct (TryReclaim id f a b c w) as [r w1] eqn:E;
      apply reclaim_inv in E; destruct E as [? ?]
  end.

Section CoordinatorFacts.
Context {W X D : Type} `{!IdempotencyRepository W} `{!RepoSpec W} `{!JsonAny D}.
Variable RedactText : string -> string.
Variable cfg : IdempotencyConfig.
Implicit Types (w : W) (x : X) (now lu ea : time).

Lemma byStatus_Run existing now lu ea w id w' :
  byStatus (D:=D) existing now lu ea w = (Run id, w') ->
  id = rec_ID existing /\ rec_Status existing = IdempotencyStatusFailedRetryable /\
  exists n, stmt_reclaim n id IdempotencyStatusFailedRetryable now lu ea (view w) = (true, view w').
Proof.
  unfold byStatus. intros H. unfold_st H.
  destruct (String.eqb_spec (rec_Status existing) IdempotencyStatusSucceeded).
  { by destruct (decodeStoredResponse _). }
  destruct (String.eqb _ IdempotencyStatusProcessing); [done|].
  destruct (String.eqb_spec (rec_Status existing) IdempotencyStatusFailedRetryable); [|done].
  destruct (match rec_LockedUntil existing with Some _ => _ | None => _ end); [done|].
  store_call H. destruct r as [[]|]; simplify_eq. eauto.
Qed.

Lemma reclaimExpired_Run existing s h fp now lu ea w id w' :
  table_ok (view w) -> find_key (tbl_rows (view w)) (s, h) = Some existing ->
  rec_RequestFingerprint existing = fp -> rec_ExpiresAt existing <= now ->
  reclaimExpired (D:=D) existing s h fp now lu ea w = (Run id, w') ->
  claimable (view w) now (s, h) fp /\ claimed_row (view w') id (s, h) fp lu ea.
Proof.
  intros Hok Hf Hfp Hex H. unfold reclaimExpired in H. unfold_st H. store_call H.
  pose proof (find_key_Some _ _ _ Hf) as (i & Hi & Hk).
  destruct (ok_id _ Hok _ _ Hi) as [Hid _]. subst i.
  destruct r as [[]|]; [| |done].
  - simplify_eq. apply reclaim_true in H0 as (r & Hr & _ & Hfree & Hrow).
    rewrite Hi in Hr. simplify_eq. rewrite Hk in Hrow. split; [|done]. right. eauto 6.
  - apply reclaim_false in H0 as [Hv Hno]. store_call H.
    destruct r as [[latest|]|]; [|done|done]. specialize (H1 _ eq_refl).
    rewrite Hv, Hf in H1. simplify_eq.
    destruct (String.eqb_spec (rec_RequestFingerprint existing) (rec_RequestFingerprint existing)); [|done].
    apply byStatus_Run in H as (-> & Hs & n & Hr). rewrite H0, Hv in Hr.
    apply reclaim_true in Hr as (r & Hr & _ & Hfree & _).
    rewrite Hi in Hr. simplify_eq. by rewrite (Hno _ Hi eq_refl) in Hfree.
Qed.

(** A claim is granted only on a claimable key, and it leaves the row in
    [processing] under the caller's fingerprint and lease. *)
Lemma claim_Run s h fp now lu ea w id w' :
  table_ok (view w) -> claim (D:=D) s h fp now lu ea w = (Run id, w') ->
  claimable (view w) now (s, h) fp /\ claimed_row (view w') id (s, h) fp lu ea.
Proof.
  intros Hok H. unfold claim in H. unfold_st H.
  destruct (CreateProcessing _ w) as [[[[] r']|] w1] eqn:Ec.
  - destruct (rec_ID r' =? 0); [done|]. simplify_eq.
    apply create_inv_true in Ec as (Hn & Hid & row & Hrow). split; [by left|].
    exists row. exact Hrow.
  - apply create_inv_false in Ec as ([old Hold] & Hrows & Hok1). specialize (Hok1 Hok).
    destruct (resolveExisting _ _ _ _ _ _ w1) as [o w2] eqn:Er.
    destruct o as [id'|]; [|done]. destruct (id' =? 0); [done|]. simplify_eq.
    unfold resolveExisting in Er. unfold_st Er. store_call Er.
    destruct r as [[existing|]|]; [|done|done]. specialize (H0 _ eq_refl).
    symmetry in H0. unfold claimable. rewrite <- Hrows.
    destruct (String.eqb_spec (rec_RequestFingerprint existing) fp) as [Hfp|]; simpl in Er; [|done].
    destruct (After (rec_ExpiresAt existing) now) eqn:Hex; simpl in Er.
    + apply byStatus_Run in Er as (-> & Hs & n & Hr). rewrite H in Hr.
      pose proof (find_key_Some _ _ _ H0) as (i & Hi & Hk).
      destruct (ok_id _ Hok1 _ _ Hi) as [Hid _]. subst i.
      apply reclaim_true in Hr as (r & Hr & _ & Hfree & Hrow). rewrite Hi in Hr. simplify_eq.
      rewrite Hk in Hrow. split; [right; eauto 6|done].
    + apply reclaimExpired_Run in Er; rewrite ?H in *; try done. bool_to_prop. lia.
  - simplify_eq.
Qed.

(** When the key is taken by a row that [byStatus] answers without touching
    the store, the claim phase returns that answer or reports the store. *)
Lemma claim_taken s h fp now lu ea w c w' r :
  find_key (tbl_rows (view w)) (s, h) = Some r ->
  claim (D:=D) s h fp now lu ea w = (c, w') ->
  (exists e, c = unavailable e) \/
  (rec_RequestFingerprint r <> fp /\ c = conflict ErrIdempotencyKeyConflict /\
   tbl_rows (view w') = tbl_rows (view w)) \/
  (rec_RequestFingerprint r = fp /\ rec_ExpiresAt r <= now) \/
  (rec_RequestFingerprint r = fp /\ now < rec_ExpiresAt r /\
   exists w1 c1, tbl_rows (view w1) = tbl_rows (view w) /\
     byStatus r now lu ea w1 = (c1, w') /\ (c = c1 \/ exists id, c1 = Run id)).
Proof.
  intros Hf H. unfold claim in H. unfold_st H.
  destruct (CreateProcessing _ w) as [[[[] r']|] w1] eqn:Ec.
  - apply create_inv_true in Ec as (Hn & _). unfold rec_key in Hn. simpl in Hn. congruence.
  - apply create_inv_false in Ec as (_ & Hrows & _).
    destruct (resolveExisting _ _ _ _ _ _ w1) as [o w2] eqn:Er.
    unfold resolveExisting in Er. unfold_st Er. store_call Er.
    destruct r0 as [[existing|]|]; [|left; simplify_eq; by eexists ..].
    specialize (H1 _ eq_refl). rewrite Hrows, Hf in H1. simplify_eq.
    destruct (String.eqb_spec (rec_RequestFingerprint r) fp) as [Hfp|]; simpl in Er.
    + destruct (After (rec_ExpiresAt r) now) eqn:Hex; simpl in Er; bool_to_prop.
      * do 3 right. split; [done|]. split; [done|].
        eexists _, _. split; [|split; [exact Er|]]; [by rewrite H0|].
        destruct o as [id|]; simplify_eq; [right; eauto|by left].
      * by right; right; left.
    + right; left. simplify_eq. rewrite H0. done.
  - left. simplify_eq. by eexists.
Qed.

(** The delay in a refusal is what a client reads from it. *)
Lemma RetryAfter_round_trip base u now :
  RetryAfterSecondsFromError (Some (AppErr (conflictWithRetryAfter base (Some u) now))) =
  Z.max 1 (SecondsInt (SubT u now)).
Proof.
  assert (Hr : forall z, 0 < z -> int64_ok z ->
    RetryAfterSecondsFromError (Some (AppErr (WithMetadata base (Some {["retry_after" := Itoa z]})))) = z).
  { intros z Hz Hok. destruct base as [[co re me md] ca].
    unfold RetryAfterSecondsFromError, errors_As, WithMetadata, ae_Status, st_Metadata. simpl.
    rewrite lookup_singleton_eq. simpl. rewrite TrimSpace_graphic by apply Itoa_graphic.
    rewrite (proj2 (String.eqb_neq _ _) (Itoa_nonempty z)), Atoi_Itoa by done.
    destruct (z <=? 0) eqn:E; bool_to_prop; lia. }
  unfold conflictWithRetryAfter. pose proof (sat64_range (u - now)) as [H1 H2].
  unfold SecondsInt, SubT. set (s := Z.quot (sat64 (u - now)) Second).
  assert (min_int64 <= s <= max_int64).
  { unfold s, Second, min_int64, max_int64 in *. clear s Hr. revert H1 H2. generalize (sat64 (u - now)). intros. Z.to_euclidean_division_equations. lia. }
  destruct (s <=? 0) eqn:E; bool_to_prop; rewrite Hr; unfold int64_ok in *; try lia.
  done.
Qed.

(** [Execute] on a keyed request is the claim phase followed by the executor. *)
Lemma Execute_keyed opts now bnow f fp w x :
  keyed_request opts -> request_fp opts = Ok fp ->
  Execute (X:=X) RedactText false cfg opts now bnow (Some f) (w, x) =
  let ttl := if opt_TTL opts <=? 0 then DefaultTTL cfg else opt_TTL opts in
  let '(c, w1) := claim (opt_Scope opts) (snd (request_key opts)) fp now
                    (AddT now (ProcessingTimeout cfg)) (AddT now ttl) w in
  match c with
  | Return r => (r, (w1, x))
  | Run id => let '(answer, x1) := f x in
              let '(r, w2) := finish RedactText cfg id bnow (AddT now ttl) answer w1 in (r, (w2, x1))
  end.
Proof.
  intros (Hs & key & Hk & Hne) Hfp. unfold Execute, request_key. simpl. rewrite Hk.
  rewrite (proj2 (String.eqb_neq _ _) Hne), (proj2 (String.eqb_neq _ _) Hs).
  unfold request_fp in Hfp. rewrite Hfp. done.
Qed.

End CoordinatorFacts.

(** ** A concrete instance for the witnesses: values are JSON strings *)

Module Demo.
Definition quote : string := String (byte 34) "".
#[global] Instance strings : JsonAny string := {|
  Marshal := fun s => Ok (quote +:+ s +:+ quote);
  Unmarshal := fun s =>
    match CutPrefix quote s with
    | Some r => match CutPrefix quote (String.rev r) with
                | Some m => Ok (String.rev m)
                | None => Err (PlainErr 1 "unexpected end of JSON input")
                end
    | None => Err (PlainErr 2 "invalid character")
    end;
  EmptyObject := "" |}.
Definition cfg : IdempotencyConfig := mkIdemConfig 1000 1000 30 5 64 false.
Definition opts : IdempotencyExecuteOptions string := mkOpts "orders" "u1" "post" "/pay" "k-1" "body" 0 true.
Definition db : sqldb := mkDB empty_table 7 [].
Definition pay : ST nat (result goerror string) := fun n => (Ok "done", S n).
Definition key : string * string := request_key opts.
Definition fp : string := match request_fp opts with Ok f => f | Err _ => "" end.
Definition row (status : string) (lock : option time) (body : option string) : IdempotencyRecord :=
  mkRecord 1 (fst key) (snd key) fp status None body None lock 1000 0 0.
Definition db_with (r : IdempotencyRecord) : sqldb := mkDB (mkTable {[1 := r]} 2) 7 [].
End Demo.
#[global] Opaque Demo.key Demo.fp.

Fixpoint last_char (s : string) : option ascii :=
  match s with
  | EmptyString => None
  | String c EmptyString => Some c
  | String _ s' => last_char s'
  end.

Lemma last_char_app s t : t <> "" -> last_char (s +:+ t) = last_char t.
Proof.
  intros Ht. induction s as [|c s IH]; [done|].
  change (String c s +:+ t) with (String c (s +:+ t)). simpl. rewrite IH.
  destruct s; [destruct t; done|done].
Qed.
Lemma rev_cons c s : String.rev (String c s) = String.rev s +:+ String c "".
Proof.
  enough (H : forall s a b, String.rev_app s (a +:+ b) = String.rev_app s a +:+ b)
    by (exact (H s "" (String c ""))).
  clear. induction s as [|c s IH]; intros a b; [done|]. simpl. apply (IH (String c a) b).
Qed.
Lemma Demo_keyed : keyed_request Demo.opts.
Proof. split; [done|]. eexists. split; [vm_compute; reflexivity | done]. Qed.
Lemma Demo_fp : request_fp Demo.opts = Ok Demo.fp.
Proof. vm_compute. reflexivity. Qed.
Lemma Demo_row_key s l b : rec_key (Demo.row s l b) = Demo.key.
Proof. unfold rec_key, Demo.row. simpl. by destruct Demo.key. Qed.
Lemma Demo_find r : rec_key r = Demo.key -> find_key (tbl_rows (db_table (Demo.db_with r))) Demo.key = Some r.
Proof.
  intros Hk. destruct (find_key _ _) as [s|] eqn:E.
  - apply find_key_Some in E as (i & Hi & _). simpl in Hi. by apply lookup_singleton_Some in Hi as [_ ->].
  - destruct (find_key_None _ _ 1 r E); [apply lookup_singleton_eq | exact Hk].
Qed.
Lemma Demo_table_ok r : rec_ID r = 1 -> table_ok (db_table (Demo.db_with r)).
Proof.
  intros Hid. split; simpl; [| |lia].
  - intros i s [<- <-]%lookup_singleton_Some. lia.
  - by intros i j s s' [<- _]%lookup_singleton_Some [<- _]%lookup_singleton_Some.
Qed.

(** ** Properties *)

(** The four outcomes share their hypotheses: a keyed request against a store
    that keeps the promise of the interface. *)
Section Properties.
Context {W X D : Type} `{!IdempotencyRepository W} `{!RepoSpec W} `{!JsonAny D}.
Variable RedactText : string -> string.
Variable cfg : IdempotencyConfig.
Variable opts : IdempotencyExecuteOptions D.
Variable fp : string.
Hypothesis Hkeyed : keyed_request opts.
Hypothesis Hfp : request_fp opts = Ok fp.

(** C2: the executor runs only under a claim.  A keyed request either leaves
    the executor's world alone, or at [now] its key was free or its row carried
    the same fingerprint, an expired or failed state and no live lease; then the
    executor runs exactly once, on a store whose row is [processing] under the
    lease and expiry of this request, and the answer is that of [finish]. *)
Theorem executor_runs_under_claim now bnow f w x :
  table_ok (view w) ->
  let ttl := if opt_TTL opts <=? 0 then DefaultTTL cfg else opt_TTL opts in
  let '(r, (w', x')) := Execute (X:=X) RedactText false cfg opts now bnow (Some f) (w, x) in
  x' = x \/
  (claimable (view w) now (request_key opts) fp /\ x' = snd (f x) /\
   exists id w1, claimed_row (view w1) id (request_key opts) fp
                   (AddT now (ProcessingTimeout cfg)) (AddT now ttl) /\
     finish RedactText cfg id bnow (AddT now ttl) (fst (f x)) w1 = (r, w')).
Proof.
  intros Hok ttl. rewrite (Execute_keyed _ _ _ _ _ _ _ _ _ Hkeyed Hfp). cbv zeta. fold ttl.
  destruct (claim _ _ _ _ _ _ w) as [[id|r] w1] eqn:Ec; [|by left].
  apply (claim_Run _ _ _ _ _ _ _ _ _ Hok) in Ec as [Hc Hrow].
  destruct (f x) as [answer x1]. destruct (finish _ _ _ _ _ _ w1) as [r w2] eqn:Ef.
  right. split; [exact Hc|]. split; [done|]. exists id, w1. split; [exact Hrow|exact Ef].
Qed.

(** Replay.  While the row of a request is [succeeded] and not expired, a
    repeated request is answered from the stored response (or with a 503 when
    the store fails), the executor does not run and no row changes. *)
Theorem execute_replays now bnow f w x r d :
  find_key (tbl_rows (view w)) (request_key opts) = Some r ->
  rec_RequestFingerprint r = fp -> now < rec_ExpiresAt r ->
  rec_Status r = IdempotencyStatusSucceeded ->
  decodeStoredResponse (rec_ResponseBody r) = Ok d ->
  exists w', snd (Execute (X:=X) RedactText false cfg opts now bnow (Some f) (w, x)) = (w', x) /\
  (fst (Execute (X:=X) RedactText false cfg opts now bnow (Some f) (w, x)) = Ok (mkResult d true) \/
   exists e, fst (Execute (X:=X) RedactText false cfg opts now bnow (Some f) (w, x)) = Err e /\
             Code (Some e) = 503).
Proof.
  intros Hf Hr Hex Hs Hd. rewrite (Execute_keyed _ _ _ _ _ _ _ _ _ Hkeyed Hfp). cbv zeta.
  destruct (claim _ _ _ _ _ _ w) as [c w1] eqn:Ec.
  apply (claim_taken _ _ _ _ _ _ _ _ _ _ Hf) in Ec
    as [[e ->]|[(Hne & _)|[(_ & Hle)|(_ & _ & w0 & c1 & _ & Hb & Hc)]]]; [|done|lia|].
  - simpl. exists w1. split; [done|]. right. eexists. split; [done|]. by destruct e.
  - unfold byStatus in Hb. rewrite Hs in Hb. simpl in Hb. rewrite Hd in Hb. injection Hb as <- ->.
    destruct Hc as [->|[id [=]]]. simpl. exists w1. auto.
Qed.

(** A duplicate of a request in progress.  While the row is [processing]
    and not expired, whatever its lease, the request is refused with a 409 (or
    503), the executor does not run, and the delay a client reads from the
    refusal is the rest of the lease in whole seconds, at least 1. *)
Theorem execute_in_progress now bnow f w x r u :
  find_key (tbl_rows (view w)) (request_key opts) = Some r ->
  rec_RequestFingerprint r = fp -> now < rec_ExpiresAt r ->
  rec_Status r = IdempotencyStatusProcessing -> rec_LockedUntil r = Some u ->
  exists e w', Execute (X:=X) RedactText false cfg opts now bnow (Some f) (w, x) = (Err e, (w', x)) /\
  (Code (Some e) = 503 \/
   (Code (Some e) = 409 /\ errors_Is e (AppErr ErrIdempotencyInProgress) = true /\
    RetryAfterSecondsFromError (Some e) = Z.max 1 (SecondsInt (SubT u now)))).
Proof.
  intros Hf Hr Hex Hs Hl. rewrite (Execute_keyed _ _ _ _ _ _ _ _ _ Hkeyed Hfp). cbv zeta.
  destruct (claim _ _ _ _ _ _ w) as [c w1] eqn:Ec.
  apply (claim_taken _ _ _ _ _ _ _ _ _ _ Hf) in Ec
    as [[e ->]|[(Hne & _)|[(_ & Hle)|(_ & _ & w0 & c1 & _ & Hb & Hc)]]]; [|done|lia|].
  - simpl. eexists _, w1. split; [done|]. left. by destruct e.
  - unfold byStatus in Hb. rewrite Hs in Hb. simpl in Hb. injection Hb as <- ->.
    destruct Hc as [->|[id [=]]]. simpl. eexists _, w1. split; [done|]. right.
    rewrite Hl. split; [done|]. split; [done|]. apply RetryAfter_round_trip.
Qed.

(** A key reused for another request.  When the row of the key carries a
    different fingerprint, whatever its state, the request is refused with the
    409 of a conflict (or 503), nothing runs and no row changes. *)
Theorem execute_payload_mismatch now bnow f w x r :
  find_key (tbl_rows (view w)) (request_key opts) = Some r ->
  rec_RequestFingerprint r <> fp ->
  exists e w', Execute (X:=X) RedactText false cfg opts now bnow (Some f) (w, x) = (Err e, (w', x)) /\
  (Code (Some e) = 503 \/
   (e = AppErr ErrIdempotencyKeyConflict /\ tbl_rows (view w') = tbl_rows (view w))).
Proof.
  intros Hf Hr. rewrite (Execute_keyed _ _ _ _ _ _ _ _ _ Hkeyed Hfp). cbv zeta.
  destruct (claim _ _ _ _ _ _ w) as [c w1] eqn:Ec.
  apply (claim_taken _ _ _ _ _ _ _ _ _ _ Hf) in Ec
    as [[e ->]|[(_ & -> & Hrows)|[(Heq & _)|(Heq & _)]]]; [| |done|done].
  - simpl. eexists _, w1. split; [done|]. left. by destruct e.
  - simpl. eexists _, w1. split; [done|]. by right.
Qed.
End Properties.

Lemma executor_runs_under_claim_witness :
  snd (snd (Execute (fun s => s) false Demo.cfg Demo.opts 100 101 (Some Demo.pay) (Demo.db, 0%nat))) = 1%nat /\
  claimable empty_table 100 (request_key Demo.opts) Demo.fp.
Proof.
  pose proof (executor_runs_under_claim (fun s => s) Demo.cfg Demo.opts Demo.fp Demo_keyed Demo_fp
    100 101 Demo.pay Demo.db 0%nat empty_table_ok) as H. cbv zeta in H.
  assert (Hx : snd (snd (Execute (fun s => s) false Demo.cfg Demo.opts 100 101 (Some Demo.pay) (Demo.db, 0%nat)))
               = 1%nat) by (vm_compute; reflexivity).
  destruct (Execute _ _ _ _ _ _ _ _) as [r [w' x']]. simpl in Hx. subst x'.
  split; [reflexivity|]. destruct H as [H|[H _]]; [discriminate H | exact H].
Defined.

Lemma execute_replays_witness :
  let w := Demo.db_with (Demo.row "succeeded" None (Some (Demo.quote +:+ "paid" +:+ Demo.quote))) in
  exists w', snd (Execute (fun s => s) false Demo.cfg Demo.opts 100 101 (Some Demo.pay) (w, 0%nat)) = (w', 0%nat).
Proof.
  intros w.
  destruct (execute_replays (fun s => s) Demo.cfg Demo.opts Demo.fp Demo_keyed Demo_fp 100 101 Demo.pay
    w 0%nat (Demo.row "succeeded" None (Some (Demo.quote +:+ "paid" +:+ Demo.quote))) "paid")
    as (w' & Hw & _).
  - apply Demo_find, Demo_row_key.
  - reflexivity.
  - reflexivity.
  - reflexivity.
  - vm_compute. reflexivity.
  - exists w'. exact Hw.
Defined.

Lemma execute_in_progress_witness :
  let w := Demo.db_with (Demo.row "processing" (Some 5) None) in
  exists e w', Execute (fun s => s) false Demo.cfg Demo.opts 100 101 (Some Demo.pay) (w, 0%nat) = (Err e, (w', 0%nat)).
Proof.
  intros w.
  destruct (execute_in_progress (fun s => s) Demo.cfg Demo.opts Demo.fp Demo_keyed Demo_fp 100 101 Demo.pay
    w 0%nat (Demo.row "processing" (Some 5) None) 5) as (e & w' & He & _).
  - apply Demo_find, Demo_row_key.
  - reflexivity.
  - reflexivity.
  - reflexivity.
  - reflexivity.
  - eauto.
Defined.

Lemma execute_payload_mismatch_witness :
  let r := { Demo.row "succeeded" None None with rec_RequestFingerprint := "other" } in
  exists e w', Execute (fun s => s) false Demo.cfg Demo.opts 100 101 (Some Demo.pay) (Demo.db_with r, 0%nat)
    = (Err e, (w', 0%nat)).
Proof.
  intros r.
  destruct (execute_payload_mismatch (fun s => s) Demo.cfg Demo.opts Demo.fp Demo_keyed Demo_fp 100 101 Demo.pay
    (Demo.db_with r) 0%nat r) as (e & w' & He & _).
  - apply Demo_find. exact (Demo_row_key "succeeded" None None).
  - intros H. vm_compute in H. discriminate H.
  - eauto.
Defined.

(** ** Two requests with one key on a store without faults *)

Section Twice.
Context {X D : Type} `{!JsonAny D}.
Variable RedactText : string -> string.
Variable cfg : IdempotencyConfig.
Variable opts : IdempotencyExecuteOptions D.
Variable fp : string.
Hypothesis Hkeyed : keyed_request opts.
Hypothesis Hfp : request_fp opts = Ok fp.

Lemma claim_fresh s h now lu ea t c :
  table_ok t -> find_key (tbl_rows t) (s, h) = None ->
  claim (D:=D) s h fp now lu ea (mkDB t c []) =
  (Run (tbl_next t),
   mkDB (mkTable (<[tbl_next t := mkRecord (tbl_next t) s h fp IdempotencyStatusProcessing
                      None None None (Some lu) ea c c]> (tbl_rows t)) (tbl_next t + 1)) c []).
Proof.
  intros Hok Hn. unfold claim, mbind, ST_bind, mret, ST_ret. simpl.
  unfold sql_CreateProcessing, ExecStmt, stmt_create, rec_key. simpl. rewrite Hn. simpl.
  unfold RecordSetters.constant. pose proof (ok_next _ Hok). by rewrite (proj2 (Z.eqb_neq (tbl_next t) 0)) by lia.
Qed.

Lemma claim_succeeded s h now lu ea t c r :
  find_key (tbl_rows t) (s, h) = Some r -> rec_RequestFingerprint r = fp ->
  now < rec_ExpiresAt r -> rec_Status r = IdempotencyStatusSucceeded ->
  claim (D:=D) s h fp now lu ea (mkDB t c []) =
  (match decodeStoredResponse (rec_ResponseBody r) with
   | Err e => unavailable (Some e)
   | Ok data => Return (Ok (mkResult data true))
   end, mkDB (mkTable (tbl_rows t) (tbl_next t + 1)) c []).
Proof.
  intros Hf Hr Hex Hs. unfold claim, mbind, ST_bind, mret, ST_ret. simpl.
  unfold sql_CreateProcessing, ExecStmt, stmt_create, rec_key. simpl. rewrite Hf. simpl.
  unfold resolveExisting, mbind, ST_bind, mret, ST_ret. simpl.
  unfold sql_GetByScopeAndKeyHash, ExecStmt, stmt_get. simpl. rewrite Hf. simpl.
  rewrite Hr, String.eqb_refl. simpl. unfold After. rewrite (proj2 (Z.ltb_lt _ _) Hex). simpl.
  unfold byStatus. rewrite Hs. simpl. unfold mret, ST_ret. by destruct (decodeStoredResponse _).
Qed.

Definition effective_ttl : duration := if opt_TTL opts <=? 0 then DefaultTTL cfg else opt_TTL opts.

Lemma execute_stored now bnow f x t c r :
  find_key (tbl_rows t) (request_key opts) = Some r -> rec_RequestFingerprint r = fp ->
  now < rec_ExpiresAt r -> rec_Status r = IdempotencyStatusSucceeded ->
  exists db, Execute (X:=X) RedactText false cfg opts now bnow (Some f) (mkDB t c [], x) =
    (match decodeStoredResponse (D:=D) (rec_ResponseBody r) with
     | Ok d' => Ok (mkResult d' true)
     | Err e => Err (AppErr (WithCause ErrIdempotencyStoreUnavail (Some e)))
     end, (db, x)).
Proof.
  intros Hr Hrfp Hex Hs. rewrite (Execute_keyed RedactText cfg _ now bnow f _ _ x Hkeyed Hfp). cbv zeta.
  erewrite claim_succeeded by done.
  destruct (decodeStoredResponse (rec_ResponseBody r)); eexists; reflexivity.
Qed.

Lemma execute_fresh now bnow f x t c d body x1 :
  table_ok t -> find_key (tbl_rows t) (request_key opts) = None ->
  f x = (Ok d, x1) -> marshalStoredResponse RedactText cfg d = Ok body ->
  exists t1 r, Execute (X:=X) RedactText false cfg opts now bnow (Some f) (mkDB t c [], x) =
      (Ok (mkResult d false), (mkDB t1 c [], x1)) /\
    find_key (tbl_rows t1) (request_key opts) = Some r /\ rec_RequestFingerprint r = fp /\
    rec_ExpiresAt r = AddT now effective_ttl /\ rec_Status r = IdempotencyStatusSucceeded /\
    rec_ResponseBody r = Some body.
Proof.
  intros Hok Hn Hf Hm.
  rewrite (Execute_keyed RedactText cfg _ now bnow f _ (mkDB t c []) x Hkeyed Hfp).
  cbv zeta. fold effective_ttl.
  pose proof (table_ok_create c (mkRecord 0 (opt_Scope opts) (snd (request_key opts)) fp
    IdempotencyStatusProcessing None None None (Some (AddT now (ProcessingTimeout cfg)))
    (AddT now effective_ttl) 0 0) t Hok) as Hok1.
  unfold stmt_create in Hok1. change (rec_key _) with (request_key opts) in Hok1.
  rewrite Hn in Hok1. unfold request_key at 1 in Hn.
  rewrite claim_fresh by done. rewrite Hf. unfold finish. rewrite Hm.
  pose (r := mkRecord (tbl_next t) (opt_Scope opts) (snd (request_key opts)) fp
    IdempotencyStatusSucceeded (Some 200) (Some body) None None (AddT now effective_ttl) c c).
  eexists _, r.
  split; [reflexivity|]. split; [|done].
  pose proof (table_ok_apply c (OpSucceeded (tbl_next t) 200 body (AddT now effective_ttl)) _ Hok1) as Hok2.
  refine (find_key_unique _ (tbl_next t) r Hok2 _).
  etransitivity; [apply lookup_alter_eq|]. simpl. by rewrite lookup_insert_eq.
Qed.

(** The first request on a free key runs the executor and stores its answer;
    any later one before the expiry is answered from what was stored. *)
Lemma execute_twice now bnow f x t c d body x1 :
  table_ok t -> find_key (tbl_rows t) (request_key opts) = None ->
  f x = (Ok d, x1) -> marshalStoredResponse RedactText cfg d = Ok body ->
  exists db1, Execute (X:=X) RedactText false cfg opts now bnow (Some f) (mkDB t c [], x) =
              (Ok (mkResult d false), (db1, x1)) /\
  forall now2 bnow2 f2 x2, now2 < AddT now effective_ttl ->
  exists db2, Execute (X:=X) RedactText false cfg opts now2 bnow2 (Some f2) (db1, x2) =
    (match decodeStoredResponse (D:=D) (Some body) with
     | Ok d' => Ok (mkResult d' true)
     | Err e => Err (AppErr (WithCause ErrIdempotencyStoreUnavail (Some e)))
     end, (db2, x2)).
Proof.
  intros Hok Hn Hf Hm.
  destruct (execute_fresh now bnow f x t c d body x1 Hok Hn Hf Hm) as (t1 & r & He & Hr & Hrfp & Hex & Hs & Hb).
  eexists. split; [exact He|]. intros now2 bnow2 f2 x2 Hlt.
  destruct (execute_stored now2 bnow2 f2 x2 t1 c r) as [db2 H2]; [done|done|lia|done|].
  exists db2. by rewrite H2, Hb.
Qed.
End Twice.

Section StoredResponses.
Context {X D : Type} `{!JsonAny D}.
Variable RedactText : string -> string.
Variable cfg : IdempotencyConfig.
Variable opts : IdempotencyExecuteOptions D.
Variable fp : string.
Hypothesis Hkeyed : keyed_request opts.
Hypothesis Hfp : request_fp opts = Ok fp.

(** C3: an idempotent request runs once.  On a store without faults, a first request
    on a free key runs the executor and returns its answer, whenever JSON can encode
    it; no later request with the same options before the expiry runs its executor.
    It is answered with the first answer, marked as replayed, if that answer
    round-trips through JSON, redaction leaves it alone and it fits the stored
    length; an answer that is longer was cut, and the later request is refused
    with 503. *)
Theorem execute_once now bnow f x t c d x1 raw :
  table_ok t -> find_key (tbl_rows t) (request_key opts) = None ->
  f x = (Ok d, x1) -> Marshal d = Ok raw ->
  let limit := MaxStoredResponseLen cfg in
  exists db1, Execute (X:=X) RedactText false cfg opts now bnow (Some f) (mkDB t c [], x) =
              (Ok (mkResult d false), (db1, x1)) /\
  forall now2 bnow2 f2 x2, now2 < AddT now (effective_ttl cfg opts) ->
  exists answer db2, Execute (X:=X) RedactText false cfg opts now2 bnow2 (Some f2) (db1, x2) = (answer, (db2, x2)) /\
    (Unmarshal raw = Ok d -> TrimSpace raw <> "" -> RedactText raw = raw -> limit <= 0 \/ slen raw <= limit ->
       answer = Ok (mkResult d true)) /\
    (0 < limit < slen (RedactText raw) -> (forall s, exists e, Unmarshal (s +:+ truncatedMark) = Err e) ->
       exists e, answer = Err e /\ Code (Some e) = 503).
Proof.
  intros Hok Hn Hf Hm limit. set (cut := truncateUTF8 (RedactText raw) limit +:+ truncatedMark).
  assert (Hst : marshalStoredResponse RedactText cfg d = Ok (if (0 <? limit) && (limit <? slen (RedactText raw)) then cut else RedactText raw))
    by (unfold marshalStoredResponse; rewrite Hm; fold limit; by destruct (_ && _)).
  destruct (execute_twice RedactText cfg opts fp Hkeyed Hfp now bnow f x t c d _ x1 Hok Hn Hf Hst) as (db1 & He & Hrep).
  exists db1. split; [exact He|]. intros now2 bnow2 f2 x2 Hlt. destruct (Hrep now2 bnow2 f2 x2 Hlt) as [db2 H2].
  eexists _, db2. split; [exact H2|]. split.
  - intros Hu Ht Hr Hl. rewrite Hr. replace ((0 <? limit) && (limit <? slen raw)) with false by lia.
    unfold decodeStoredResponse. by rewrite (proj2 (String.eqb_neq _ _) Ht), Hu.
  - intros Hl Hbad. replace ((0 <? limit) && (limit <? slen (RedactText raw))) with true by lia.
    assert (Ht : TrimSpace cut <> "") by (apply TrimSpace_last_graphic; unfold cut; by rewrite last_graphic_app).
    unfold decodeStoredResponse. rewrite (proj2 (String.eqb_neq _ _) Ht). destruct (Hbad (truncateUTF8 (RedactText raw) limit)) as [e He'].
    unfold cut. rewrite He'. by eexists.
Qed.
End StoredResponses.

Lemma Demo_rejects_mark s : exists e, Unmarshal (s +:+ truncatedMark) = Err e.
Proof.
  unfold Unmarshal, Demo.strings.
  destruct (CutPrefix Demo.quote (s +:+ truncatedMark)) as [r|] eqn:E; [|eauto].
  apply CutPrefix_Some in E.
  assert (Hr : last_char (s +:+ truncatedMark) = Some ")"%char) by (by apply last_char_app).
  rewrite E in Hr. destruct r as [|c r]; [discriminate Hr|].
  change (Demo.quote +:+ String c r) with (String (byte 34) (String c r)) in Hr.
  destruct (CutPrefix Demo.quote (String.rev (String c r))) as [m|] eqn:E2; [|eauto].
  apply CutPrefix_Some in E2. exfalso.
  assert (Hm : String c r = String.rev m +:+ Demo.quote).
  { rewrite <- (str_rev_rev (String c r)), E2. apply rev_cons. }
  change (last_char (String c r) = Some ")"%char) in Hr. rewrite Hm, last_char_app in Hr by done. discriminate Hr.
Qed.

(** A payment that is replayed, and one whose stored answer was cut. *)
Lemma execute_once_witness :
  (exists db1 db2, Execute (fun s => s) false Demo.cfg Demo.opts 100 101 (Some Demo.pay) (Demo.db, 0%nat) =
       (Ok (mkResult "done" false), (db1, 1%nat)) /\
     Execute (fun s => s) false Demo.cfg Demo.opts 200 201 (Some Demo.pay) (db1, 1%nat) = (Ok (mkResult "done" true), (db2, 1%nat))) /\
  exists db1 db2 e, Execute (fun s => s) false { Demo.cfg with MaxStoredResponseLen := 3 } Demo.opts 100 101 (Some Demo.pay) (Demo.db, 0%nat) =
       (Ok (mkResult "done" false), (db1, 1%nat)) /\
     Execute (fun s => s) false { Demo.cfg with MaxStoredResponseLen := 3 } Demo.opts 200 201 (Some Demo.pay) (db1, 1%nat) =
       (Err e, (db2, 1%nat)) /\ Code (Some e) = 503.
Proof.
  pose (once cfg := execute_once (fun s => s) cfg Demo.opts Demo.fp Demo_keyed Demo_fp 100 101 Demo.pay 0%nat
    empty_table 7 "done" 1%nat (Demo.quote +:+ "done" +:+ Demo.quote) empty_table_ok eq_refl eq_refl eq_refl). split.
  - destruct (once Demo.cfg) as (db1 & H & Hrep). destruct (Hrep 200 201 Demo.pay 1%nat eq_refl) as (answer & db2 & H2 & Hok & _).
    exists db1, db2. split; [exact H|]. rewrite H2, Hok; [reflexivity|reflexivity|vm_compute; done|reflexivity|right; vm_compute; done].
  - destruct (once { Demo.cfg with MaxStoredResponseLen := 3 }) as (db1 & H & Hrep).
    destruct (Hrep 200 201 Demo.pay 1%nat eq_refl) as (answer & db2 & H2 & _ & Hcut).
    destruct Hcut as (e & -> & E); [vm_compute; done|apply Demo_rejects_mark|]. exists db1, db2, e. split_and!; [exact H|exact H2|exact E].
Defined.

(** What normalisation returns: nothing, or 1 to 128 graphic ASCII characters. *)
Definition normal_key (key : string) : Prop :=
  key = "" \/ (1 <= slen key <= 128 /\ str_forallb graphic key = true).

(** Key normalisation.  A key that is accepted is normal (and so has the
    64-character digest that is stored), normalising it again gives it back,
    and a normal key is always accepted. *)
Theorem NormalizeIdempotencyKey_spec raw :
  match NormalizeIdempotencyKey raw with
  | Ok key => normal_key key /\ NormalizeIdempotencyKey key = Ok key /\ slen (HashIdempotencyKey key) = 64
  | Err e => e = AppErr ErrIdempotencyKeyInvalid /\ ~ normal_key (TrimSpace raw)
  end.
Proof.
  assert (Hg : forall s, str_forallb (fun r => negb ((byte_of r <? 33) || (126 <? byte_of r))) s
                         = str_forallb graphic s).
  { intros s. induction s as [|c s IH]; simpl; [done|]. rewrite IH. f_equal.
    unfold graphic. rewrite negb_orb. by rewrite <- !Z.leb_antisym. }
  assert (Hh : forall k, slen (HashIdempotencyKey k) = 64).
  { intros k. unfold slen, HashIdempotencyKey. by rewrite sha256_hex_length. }
  assert (Hacc : forall k, k <> "" -> (128 <? slen k) = false -> str_forallb graphic k = true ->
                 NormalizeIdempotencyKey k = Ok k).
  { intros k Hne Hl Hk. unfold NormalizeIdempotencyKey. rewrite TrimSpace_graphic by done.
    by rewrite (proj2 (String.eqb_neq _ _) Hne), Hl, Hg, Hk. }
  unfold NormalizeIdempotencyKey at 1. rewrite Hg. unfold normal_key.
  destruct (String.eqb_spec (TrimSpace raw) "") as [He|Hne].
  { rewrite Hh. split; [by left|]. by split. }
  destruct (128 <? slen (TrimSpace raw)) eqn:Hl.
  { split; [done|]. bool_to_prop. intros [|[]]; [done|lia]. }
  destruct (str_forallb graphic (TrimSpace raw)) eqn:Hk.
  - rewrite Hh. split; [right|by rewrite Hacc]. split; [|done]. bool_to_prop.
    destruct (TrimSpace raw); [done|]. unfold slen in *. simpl in *. lia.
  - split; [done|]. intros [|[_ ?]]; congruence.
Qed.

Lemma truncate_loop_spec s n :
  utf8_valid (str_take (truncate_loop s n) s) = true /\ (truncate_loop s n <= n)%nat /\
  forall m, (truncate_loop s n < m <= n)%nat -> utf8_valid (str_take m s) = false.
Proof.
  induction n as [|n (IH1 & IH2 & IH3)]; cbn [truncate_loop].
  - split; [by destruct s|]. split; [lia|]. lia.
  - destruct (utf8_valid (str_take (S n) s)) eqn:E; [split; [exact E|]; split; lia|].
    split; [done|]. split; [lia|]. intros m Hm.
    destruct (decide (m = S n)) as [->|]; [done|]. apply IH3. lia.
Qed.
Lemma slen_take n s : slen (str_take n s) = Z.min (Z.of_nat n) (slen s).
Proof.
  unfold slen. revert s. induction n as [|n IH]; intros [|c s]; simpl; try lia.
  specialize (IH s). lia.
Qed.

(** Truncation.  A text longer than a positive limit is cut to its longest
    prefix within the limit that is valid UTF-8. *)
Theorem truncateUTF8_longest s maxBytes :
  0 < maxBytes < slen s ->
  exists n, truncateUTF8 s maxBytes = str_take n s /\ Z.of_nat n <= maxBytes /\
    utf8_valid (str_take n s) = true /\
    forall m, Z.of_nat n < Z.of_nat m <= maxBytes -> utf8_valid (str_take m s) = false.
Proof.
  intros H. unfold truncateUTF8.
  rewrite (proj2 (Z.leb_gt maxBytes 0)), (proj2 (Z.leb_gt (slen s) maxBytes)) by lia. simpl.
  destruct (truncate_loop_spec s (Z.to_nat maxBytes)) as (H1 & H2 & H3).
  eexists. split; [done|]. split; [lia|]. split; [done|]. intros m Hm. apply H3. lia.
Qed.

Lemma truncateUTF8_longest_witness :
  exists n, truncateUTF8 (of_bytes [97; 195; 169; 98]) 2 = str_take n (of_bytes [97; 195; 169; 98]) /\ Z.of_nat n <= 2.
Proof.
  destruct (truncateUTF8_longest (of_bytes [97; 195; 169; 98]) 2) as (n & H & Hn & _);
    [vm_compute; done | eauto].
Defined.
