(* ===== verification/SystemLock.v ===== *)
(** * The global system-operation lock and the idempotency clean-up

    [service/system_operation_lock_service.go] keeps one row of the idempotency
    store as a lock with a lease that a goroutine renews; one turn of the
    goroutine is [renewTick].  [service/idempotency_cleanup_service.go] deletes
    expired rows in batches.  Both are clients of the store interface. *)

From S2P Require Import Prelude Errors Sha256 IdemRepo Idempotency.

Definition systemOperationLockScope : string := "admin.system.operations.global_lock".
Definition systemOperationLockKey : string := "global-system-operation-lock".
Definition ErrSystemOperationBusy := Conflict "SYSTEM_OPERATION_BUSY" "another system operation is in progress".
Definition lockKey : string * string := (systemOperationLockScope, HashIdempotencyKey systemOperationLockKey).

Record SystemOperationLock := mkLock { lock_recordID : Z; lock_operationID : string; lock_stopped : bool }.
Record lockService := mkLockService { lease : duration; renewInterval : duration; ttl : duration }.

Definition NewSystemOperationLockService (cfg : IdempotencyConfig) : lockService :=
  let lease := if ProcessingTimeout cfg <=? 0 then 30 * Second else ProcessingTimeout cfg in
  let renewInterval := Z.quot lease 3 in
  let renewInterval := if renewInterval <? Second then Second else renewInterval in
  let ttl := if SystemOperationTTL cfg <=? 0 then Hour else SystemOperationTTL cfg in
  mkLockService lease renewInterval ttl.

Definition OperationID (l : option SystemOperationLock) : string :=
  match l with Some l => lock_operationID l | None => "" end.

Definition busyError (operationID : string) (lockedUntil : option time) (now : time) : goerror :=
  let metadata : gmap string string := if String.eqb operationID "" then ∅ else {["operation_id" := operationID]} in
  let metadata := match lockedUntil with
                  | None => metadata
                  | Some u =>
                      let sec := SecondsInt (SubT u now) in
                      <["retry_after" := Itoa (if sec <=? 0 then 1 else sec)]> metadata
                  end in
  AppErr (if decide (metadata = ∅) then ErrSystemOperationBusy
          else WithMetadata ErrSystemOperationBusy (Some metadata)).

Definition store_error (cause : option goerror) : goerror :=
  AppErr (match cause with
          | Some e => WithCause ErrIdempotencyStoreUnavail (Some e)
          | None => ErrIdempotencyStoreUnavail
          end).

Section Lock.
Context {W : Type} `{!IdempotencyRepository W}.
Variable s : lockService.

(** [if !owner { ... }]: the id of the row taken over. *)
Definition takeOver (now lockedUntil expiresAt : time) : ST W (result goerror Z) :=
  g ← GetByScopeAndKeyHash lockKey.1 lockKey.2;
  match g with
  | Err e => mret (Err (store_error (Some e)))
  | Ok None => mret (Err (store_error None))
  | Ok (Some existing) =>
      if String.eqb (rec_Status existing) IdempotencyStatusProcessing &&
         match rec_LockedUntil existing with Some u => After u now | None => false end
      then mret (Err (busyError (rec_RequestFingerprint existing) (rec_LockedUntil existing) now))
      else
        r ← TryReclaim (rec_ID existing) (rec_Status existing) now lockedUntil expiresAt;
        match r with
        | Err e => mret (Err (store_error (Some e)))
        | Ok true => mret (Ok (rec_ID existing))
        | Ok false =>
            g2 ← GetByScopeAndKeyHash lockKey.1 lockKey.2;
            mret (Err (match g2 with
                       | Ok (Some latest) => busyError (rec_RequestFingerprint latest) (rec_LockedUntil latest) now
                       | _ => AppErr ErrSystemOperationBusy
                       end))
        end
  end.

Definition Acquire (operationID : string) (now : time) : ST W (result goerror SystemOperationLock) :=
  if String.eqb operationID "" then
    mret (Err (AppErr (BadRequest "SYSTEM_OPERATION_ID_REQUIRED" "operation id is required")))
  else
    let expiresAt := AddT now (ttl s) in
    let lockedUntil := AddT now (lease s) in
    let record := mkRecord 0 lockKey.1 lockKey.2 operationID IdempotencyStatusProcessing
                    None None None (Some lockedUntil) expiresAt 0 0 in
    c ← CreateProcessing record;
    o ← match c with
        | Err e => mret (Err (store_error (Some e)))
        | Ok (true, record') => mret (Ok (rec_ID record'))
        | Ok (false, _) => takeOver now lockedUntil expiresAt
        end;
    mret (match o with
          | Err e => Err e
          | Ok id => if id =? 0 then Err (store_error None) else Ok (mkLock id operationID false)
          end).

(** [now1] and [now2] are the readings for the expiry and for the lock end. *)
Definition Release (lock : option SystemOperationLock) (succeeded : bool) (failureReason : string)
  (now1 now2 : time) : ST W (result goerror unit) :=
  match lock with
  | None => mret (Ok tt)
  | Some lock =>
      let expiresAt := AddT now1 (ttl s) in
      if succeeded then
        MarkSucceeded (lock_recordID lock) 200
          (String (byte 123) (String (byte 34) ("operation_id" +:+ String (byte 34) (":" +:+ String (byte 34)
             (lock_operationID lock +:+ String (byte 34) ("," +:+ String (byte 34) ("released" +:+
              String (byte 34) ":true}"))))))) expiresAt
      else
        MarkFailedRetryable (lock_recordID lock)
          (if String.eqb failureReason "" then "SYSTEM_OPERATION_FAILED" else failureReason) now2 expiresAt
  end.

(** One tick of [renewLoop]: go on, go on after an error, or stop with
    ownership_lost. *)
Inductive renewal := Renewed | RenewFailed | OwnershipLost.
Definition renewTick (lock : SystemOperationLock) (now : time) : ST W renewal :=
  r ← ExtendProcessingLock (lock_recordID lock) (lock_operationID lock) (AddT now (lease s)) (AddT now (ttl s));
  mret (match r with
        | Err _ => RenewFailed
        | Ok true => Renewed
        | Ok false => OwnershipLost
        end).

(** The loop over its ticks: it ends when the ownership is lost. *)
Fixpoint renewLoop (lock : SystemOperationLock) (ticks : list time) : ST W unit :=
  match ticks with
  | [] => mret tt
  | now :: ticks' =>
      r ← renewTick lock now;
      match r with
      | OwnershipLost => mret tt
      | _ => renewLoop lock ticks'
      end
  end.

End Lock.

(** ** Clean-up *)

Record cleanupService := mkCleanup { interval : duration; batch : Z }.
Record cleanupConfig := mkCleanupConfig { CleanupIntervalSeconds : Z; CleanupBatchSize : Z }.
Definition NewIdempotencyCleanupService (cfg : option cleanupConfig) : cleanupService :=
  match cfg with
  | None => mkCleanup (60 * Second) 500
  | Some c =>
      mkCleanup (if 0 <? CleanupIntervalSeconds c then wrap64 (CleanupIntervalSeconds c * Second) else 60 * Second)
                (if 0 <? CleanupBatchSize c then CleanupBatchSize c else 500)
  end.

Section Cleanup.
Context {W : Type} `{!IdempotencyRepository W}.
Definition cleanupOnce (s : cleanupService) (now : time) : ST W unit :=
  _ ← DeleteExpired now (batch s); mret tt.
(** [runLoop]: once at the start, then at every tick. *)
Fixpoint cleanupLoop (s : cleanupService) (ticks : list time) : ST W unit :=
  match ticks with
  | [] => mret tt
  | now :: ticks' => _ ← cleanupOnce s now; cleanupLoop s ticks'
  end.
End Cleanup.

(** ** Lemmas *)

Section LockFacts.
Context {W : Type} `{!IdempotencyRepository W} `{!RepoSpec W}.
Variable s : lockService.

Lemma takeOver_inv now lu ea w id w' :
  table_ok (view w) -> takeOver now lu ea w = (Ok id, w') ->
  exists r, find_key (tbl_rows (view w)) lockKey = Some r /\ lock_free now r = true /\
    claimed_row (view w') id lockKey (rec_RequestFingerprint r) lu ea.
Proof.
  intros Hok H. unfold takeOver in H. unfold_st H. store_call H.
  destruct r as [[existing|]|]; [|done|done]. specialize (H1 _ eq_refl).
  rewrite <- surjective_pairing in H1. symmetry in H1.
  destruct (String.eqb (rec_Status existing) IdempotencyStatusProcessing && _); [done|].
  store_call H. destruct r as [[]|]; [| |done].
  - simplify_eq. rewrite H0 in H2. apply reclaim_true in H2 as (r & Hr & _ & Hfree & Hrow).
    pose proof (find_key_Some _ _ _ H1) as (i & Hi & Hk).
    destruct (ok_id _ Hok _ _ Hi) as [Hid _]. subst i. rewrite Hi in Hr. injection Hr as <-.
    rewrite Hk in Hrow. eauto.
  - store_call H. by destruct r as [[|]|].
Qed.

(** What a successful acquisition found and what it left. *)
Lemma Acquire_inv op now w lock w' :
  table_ok (view w) -> Acquire s op now w = (Ok lock, w') ->
  lock_operationID lock = op /\
  ((find_key (tbl_rows (view w)) lockKey = None /\
    claimed_row (view w') (lock_recordID lock) lockKey op (AddT now (lease s)) (AddT now (ttl s))) \/
   exists r, find_key (tbl_rows (view w)) lockKey = Some r /\ lock_free now r = true /\
     claimed_row (view w') (lock_recordID lock) lockKey (rec_RequestFingerprint r)
       (AddT now (lease s)) (AddT now (ttl s))).
Proof.
  intros Hok H. unfold Acquire in H. destruct (String.eqb op ""); [done|]. unfold_st H.
  destruct (CreateProcessing _ w) as [[[[] r']|] w1] eqn:Ec.
  - destruct (rec_ID r' =? 0); [done|]. simplify_eq. simpl. split; [done|]. left.
    apply create_inv_true in Ec as (Hn & Hid & Hrow). unfold rec_key in Hn. simpl in Hn.
    split; [exact Hn|exact Hrow].
  - apply create_inv_false in Ec as (_ & Hrows & Hok1). specialize (Hok1 Hok).
    destruct (takeOver _ _ _ w1) as [[id|] w2] eqn:Et; [|done].
    destruct (id =? 0); [done|]. simplify_eq. simpl. split; [done|]. right.
    apply takeOver_inv in Et as (r & Hf & Hfree & Hrow); [|done]. rewrite Hrows in Hf. eauto.
  - done.
Qed.

Lemma renewTick_other_fp lock now w r :
  tbl_rows (view w) !! lock_recordID lock = Some r -> rec_RequestFingerprint r <> lock_operationID lock ->
  let '(res, w') := renewTick s lock now w in res <> Renewed /\ view w' = view w.
Proof.
  intros Hr Hne. unfold renewTick, mbind, ST_bind, mret, ST_ret.
  destruct (spec_extend (lock_recordID lock) (lock_operationID lock) (AddT now (lease s)) (AddT now (ttl s)) w)
    as [n H].
  assert (E : forall l e, stmt_extend n (lock_recordID lock) (lock_operationID lock) l e (view w) = (false, view w)).
  { intros l e. unfold stmt_extend. rewrite Hr. apply String.eqb_neq in Hne. by rewrite Hne, andb_false_r. }
  destruct (ExtendProcessingLock _ _ _ _ w) as [[b|err] w'].
  - rewrite E in H. by simplify_eq.
  - rewrite E in H. simpl in H. by destruct H as [-> | ->].
Qed.
End LockFacts.

(** ** Properties *)

Section LockProperties.
Context {W : Type} `{!IdempotencyRepository W} `{!RepoSpec W}.
Variable s : lockService.

(** Mutual exclusion while the lease is live.  An operation that acquires
    the lock at [now] found no lock row, or one whose lease had ended, and its
    row then carries a lease of its own until [now + lease]; so while a lease is
    live every acquisition is refused. *)
Theorem acquire_excludes op now w lock w' :
  table_ok (view w) -> Acquire s op now w = (Ok lock, w') ->
  (forall r u, find_key (tbl_rows (view w)) lockKey = Some r -> rec_LockedUntil r = Some u -> u <= now) /\
  exists r, tbl_rows (view w') !! lock_recordID lock = Some r /\ rec_key r = lockKey /\
    rec_Status r = IdempotencyStatusProcessing /\ rec_LockedUntil r = Some (AddT now (lease s)).
Proof.
  intros Hok H. apply Acquire_inv in H as [_ [[Hn (r & H1 & H2 & _ & H3 & H4 & _)]
    |(r0 & Hf & Hfree & (r & H1 & H2 & _ & H3 & H4 & _))]]; [| |done].
  - split; [intros r' u Hr'; congruence|]. exists r. auto.
  - split; [|exists r; auto]. intros r' u Hr' Hu. rewrite Hf in Hr'. injection Hr' as <-.
    unfold lock_free in Hfree. rewrite Hu in Hfree. by apply Z.leb_le.
Qed.

(** A lock that was taken over cannot be renewed.  [TryReclaim] leaves the
    fingerprint of the former holder in the row, so when the new holder has
    another operation id no tick of its renew loop extends the lease: the row
    is unchanged and the loop ends with ownership_lost at its first answered
    tick. *)
Theorem reclaimed_lock_not_renewed op now w lock w1 r ticks :
  table_ok (view w) -> find_key (tbl_rows (view w)) lockKey = Some r -> rec_RequestFingerprint r <> op ->
  Acquire s op now w = (Ok lock, w1) ->
  view (snd (renewLoop s lock ticks w1)) = view w1 /\
  forall t, fst (renewTick s lock t w1) <> Renewed.
Proof.
  intros Hok Hf Hne H. apply Acquire_inv in H as [Hop [[Hn _]|(r0 & Hf0 & _ & (r1 & H1 & _ & H2 & _))]];
    [congruence| |done].
  rewrite Hf in Hf0. injection Hf0 as <-. rewrite <- H2, <- Hop in Hne. split.
  - revert w1 H1. induction ticks as [|t ticks IH]; intros w1 H1; [done|].
    simpl. unfold mbind, ST_bind, mret, ST_ret.
    pose proof (renewTick_other_fp s lock t w1 r1 H1 Hne) as H. destruct (renewTick s lock t w1) as [res w2].
    destruct H as [_ Hv]. destruct res; try done; rewrite <- Hv in H1 |- *; by apply IH.
  - intros t. pose proof (renewTick_other_fp s lock t w1 r1 H1 Hne) as H.
    destruct (renewTick s lock t w1) as [res w2]. simpl. apply H.
Qed.
End LockProperties.

(** A scenario on the SQL store: A crashes, B takes the lock over at 40s; its
    lease is not renewed, and C acquires the lock at 80s while B still runs. *)
Definition demoService : lockService := NewSystemOperationLockService DefaultIdempotencyConfig.
Definition afterCrash : sqldb := snd (Acquire demoService "A" Second (mkDB empty_table 1 [])).

Lemma acquire_excludes_witness :
  exists lock w', Acquire demoService "A" Second (mkDB empty_table 1 []) = (Ok lock, w') /\
  exists r, tbl_rows (db_table w') !! lock_recordID lock = Some r /\ rec_Status r = IdempotencyStatusProcessing.
Proof.
  assert (Hok : table_ok (view (mkDB empty_table 1 []))) by exact empty_table_ok.
  destruct (Acquire demoService "A" Second (mkDB empty_table 1 [])) as [[lock|e] w'] eqn:H.
  - exists lock, w'. split; [reflexivity|].
    destruct (acquire_excludes demoService "A" Second (mkDB empty_table 1 []) lock w' Hok H)
      as (_ & r & H1 & _ & H2 & _).
    exists r. split; [exact H1|exact H2].
  - vm_compute in H. discriminate H.
Defined.

Lemma afterCrash_ok : table_ok (view afterCrash).
Proof.
  unfold afterCrash, Acquire, mbind, ST_bind, mret, ST_ret. simpl.
  match goal with |- context [sql_CreateProcessing ?r ?w] => pose proof (table_ok_create 1 r _ empty_table_ok) as H end.
  exact H.
Qed.

Lemma reclaimed_lock_not_renewed_witness :
  exists lock w1, Acquire demoService "B" (40 * Second) afterCrash = (Ok lock, w1) /\
    fst (renewTick demoService lock (50 * Second) w1) <> Renewed /\
    exists lock2 w2, Acquire demoService "C" (80 * Second) (snd (renewLoop demoService lock [50 * Second; 60 * Second] w1))
                     = (Ok lock2, w2).
Proof.
  destruct (Acquire demoService "B" (40 * Second) afterCrash) as [[lock|e] w1] eqn:E.
  - exists lock, w1. split; [reflexivity|].
    destruct (find_key (tbl_rows (db_table afterCrash)) lockKey) as [r|] eqn:Er; [|vm_compute in Er; discriminate Er].
    assert (Hne : rec_RequestFingerprint r <> "B").
    { vm_compute in Er. injection Er as <-. discriminate. }
    split.
    + exact (proj2 (reclaimed_lock_not_renewed demoService "B" (40 * Second) afterCrash lock w1 r [] afterCrash_ok Er Hne E)
               (50 * Second)).
    + vm_compute in E. injection E as <- <-. eexists _, _. vm_compute. reflexivity.
  - vm_compute in E. discriminate E.
Defined.

(** Clean-up is bounded and safe.  One round of the clean-up, on a store
    that answers, deletes at most a batch of rows, every one of them expired at
    the time of the round, and leaves every other row as it is. *)
Theorem cleanup_deletes_expired `{!IdempotencyRepository W} `{!RepoSpec W} (c : option cleanupConfig) now (w : W) :
  let s := NewIdempotencyCleanupService c in
  let w' := snd (cleanupOnce s now w) in
  tbl_rows (view w') ⊆ tbl_rows (view w) /\
  (forall i r, tbl_rows (view w) !! i = Some r -> now < rec_ExpiresAt r -> tbl_rows (view w') !! i = Some r) /\
  Z.of_nat (size (tbl_rows (view w))) - batch s <= Z.of_nat (size (tbl_rows (view w'))).
Proof.
  cbv zeta. set (s := NewIdempotencyCleanupService c).
  assert (Hb : 0 < batch s).
  { unfold s, NewIdempotencyCleanupService. destruct c; simpl; [|lia]. destruct (0 <? _) eqn:E; bool_to_prop; lia. }
  unfold cleanupOnce, mbind, ST_bind, mret, ST_ret. destruct (spec_delete now (batch s) w) as [n H].
  assert (K : view (snd (DeleteExpired now (batch s) w)) = view w \/
              view (snd (DeleteExpired now (batch s) w)) = snd (stmt_delete_expired now (batch s) (view w))).
  { destruct (DeleteExpired now (batch s) w) as [[a|e] w']; [right; by rewrite H|exact H]. }
  destruct (DeleteExpired now (batch s) w) as [a w']. simpl in *. destruct K as [-> | ->]; [split; [done|split; [done|lia]]|].
  unfold stmt_delete_expired. rewrite (proj2 (Z.leb_gt (batch s) 0)) by lia. simpl.
  set (ids := victims _ _ _). split; [apply foldr_delete_subset|]. split.
  - intros i r Hi Hlt. rewrite lookup_foldr_delete_notin; [done|]. intros Hin.
    apply (victims_expired _ _ _ _ _ Hi) in Hin. lia.
  - assert (Hlen : Z.of_nat (length ids) <= batch s).
    { unfold ids, victims. rewrite length_map, length_take. lia. }
    assert (Hsz : forall (m : gmap Z IdempotencyRecord) l, (size m <= size (foldr delete m l) + length l)%nat).
    { intros m l. induction l as [|i l IH]; simpl; [lia|].
      destruct (foldr delete m l !! i) eqn:E.
      - rewrite map_size_delete_Some by eauto. lia.
      - rewrite map_size_delete_None by done. lia. }
    specialize (Hsz (tbl_rows (view w)) ids). lia.
Qed.

(** A scenario on the SQL store: the row of a finished operation that expires
    at 5 is deleted at 9, the one that expires at 50 stays. *)
Definition finishedRow (id : Z) (scope : string) (expiresAt : time) : IdempotencyRecord :=
  mkRecord id scope "k" "fp" IdempotencyStatusSucceeded (Some 200) None None None expiresAt 0 0.
Definition twoRows : sqldb :=
  mkDB (mkTable (<[1 := finishedRow 1 "a" 5]> {[2 := finishedRow 2 "b" 50]}) 3) 9 [].

Lemma cleanup_deletes_expired_witness :
  let w' := snd (cleanupOnce (NewIdempotencyCleanupService None) 9 twoRows) in
  tbl_rows (view w') !! 2 = Some (finishedRow 2 "b" 50) /\ tbl_rows (view w') !! 1 = None.
Proof.
  intros w'. split.
  - exact (proj1 (proj2 (cleanup_deletes_expired None 9 twoRows)) 2 (finishedRow 2 "b" 50) eq_refl eq_refl).
  - reflexivity.
Defined.
