(* ===== verification/Json.v ===== *)
(** * What the converters use of [encoding/json]

    [json.Valid], [json.Unmarshal] into a [map[string]json.RawMessage] and
    [json.Marshal] of such a map or of a [map[string]string], on Go strings (byte
    sequences).  Parsing functions return the rest of the input.  A call of a
    value parser that does not consume a byte is followed by one that does, so
    [2 * length + 2] steps of fuel are enough. *)

From S2P Require Import Prelude.

Definition dq : ascii := byte 34.
Definition backslash : ascii := byte 92.
Definition is_ws (c : ascii) : bool :=
  (byte_of c =? 32) || (byte_of c =? 9) || (byte_of c =? 10) || (byte_of c =? 13).
Definition is_digit (c : ascii) : bool := in_range 48 57 c.
Definition hex_val (c : ascii) : option Z :=
  let b := byte_of c in
  if in_range 48 57 c then Some (b - 48)
  else if in_range 97 102 c then Some (b - 87)
  else if in_range 65 70 c then Some (b - 55)
  else None.

Fixpoint skip_ws (s : string) : string :=
  match s with
  | String c s' => if is_ws c then skip_ws s' else s
  | EmptyString => EmptyString
  end.
Fixpoint skip_digits (s : string) : string :=
  match s with
  | String c s' => if is_digit c then skip_digits s' else s
  | EmptyString => EmptyString
  end.
Definition digits1 (s : string) : option string :=
  match s with
  | String c s' => if is_digit c then Some (skip_digits s') else None
  | EmptyString => None
  end.

(** ** The scanner *)

Definition scan_exp (s : string) : option string :=
  match s with
  | String c s' =>
      if Ascii.eqb c "e" || Ascii.eqb c "E" then
        match s' with
        | String d s'' => if Ascii.eqb d "+" || Ascii.eqb d "-" then digits1 s'' else digits1 s'
        | EmptyString => None
        end
      else Some s
  | EmptyString => Some s
  end.
Definition scan_frac (s : string) : option string :=
  match s with
  | String "." s' => match digits1 s' with Some r => scan_exp r | None => None end
  | _ => scan_exp s
  end.
Definition scan_number (s : string) : option string :=
  let s1 := match s with String "-" s' => s' | _ => s end in
  match s1 with
  | String c s' =>
      if Ascii.eqb c "0" then scan_frac s'
      else if in_range 49 57 c then scan_frac (skip_digits s')
      else None
  | EmptyString => None
  end.

Definition is_hex (c : ascii) : bool := match hex_val c with Some _ => true | None => false end.
(** After the opening quote; escapes are checked, invalid UTF-8 is accepted. *)
Fixpoint scan_string (s : string) : option string :=
  match s with
  | EmptyString => None
  | String c s' =>
      if Ascii.eqb c dq then Some s'
      else if Ascii.eqb c backslash then
        match s' with
        | EmptyString => None
        | String e s'' =>
            if Ascii.eqb e "u" then
              match s'' with
              | String h1 (String h2 (String h3 (String h4 r))) =>
                  if is_hex h1 && is_hex h2 && is_hex h3 && is_hex h4 then scan_string r else None
              | _ => None
              end
            else if existsb (Ascii.eqb e) [dq; backslash; "/"%char; "b"%char; "f"%char; "n"%char; "r"%char; "t"%char]
            then scan_string s'' else None
        end
      else if byte_of c <? 32 then None
      else scan_string s'
  end.

Definition maxNestingDepth : Z := 10000.

Fixpoint scan_value (fuel : nat) (depth : Z) (s : string) : option string :=
  match fuel with
  | O => None
  | S fuel =>
      match skip_ws s with
      | EmptyString => None
      | String c s' =>
          if Ascii.eqb c "{" then
            if maxNestingDepth <=? depth then None
            else match skip_ws s' with
                 | String "}" r => Some r
                 | _ => scan_members fuel (depth + 1) s'
                 end
          else if Ascii.eqb c "[" then
            if maxNestingDepth <=? depth then None
            else match skip_ws s' with
                 | String "]" r => Some r
                 | _ => scan_elements fuel (depth + 1) s'
                 end
          else if Ascii.eqb c dq then scan_string s'
          else if Ascii.eqb c "t" then CutPrefix "rue" s'
          else if Ascii.eqb c "f" then CutPrefix "alse" s'
          else if Ascii.eqb c "n" then CutPrefix "ull" s'
          else scan_number (String c s')
      end
  end
with scan_members (fuel : nat) (depth : Z) (s : string) : option string :=
  match fuel with
  | O => None
  | S fuel =>
      match skip_ws s with
      | String c s1 =>
          if negb (Ascii.eqb c dq) then None else
          match scan_string s1 with
          | None => None
          | Some s2 =>
              match skip_ws s2 with
              | String ":" s3 =>
                  match scan_value fuel depth s3 with
                  | None => None
                  | Some s4 =>
                      match skip_ws s4 with
                      | String "," s5 => scan_members fuel depth s5
                      | String "}" r => Some r
                      | _ => None
                      end
                  end
              | _ => None
              end
          end
      | EmptyString => None
      end
  end
with scan_elements (fuel : nat) (depth : Z) (s : string) : option string :=
  match fuel with
  | O => None
  | S fuel =>
      match scan_value fuel depth s with
      | None => None
      | Some s1 =>
          match skip_ws s1 with
          | String "," s2 => scan_elements fuel depth s2
          | String "]" r => Some r
          | _ => None
          end
      end
  end.

Definition json_fuel (s : string) : nat := 2 * String.length s + 2.

(** [json.Valid]. *)
Definition Valid (s : string) : bool :=
  match scan_value (json_fuel s) 0 s with
  | Some r => String.eqb (skip_ws r) ""
  | None => false
  end.

(** ** Strings *)

Definition utf8_encode (r : Z) : string :=
  of_bytes (if r <? 128 then [r]
            else if r <? 2048 then [192 + Z.shiftr r 6; 128 + Z.land r 63]
            else if r <? 65536 then [224 + Z.shiftr r 12; 128 + Z.land (Z.shiftr r 6) 63; 128 + Z.land r 63]
            else [240 + Z.shiftr r 18; 128 + Z.land (Z.shiftr r 12) 63;
                  128 + Z.land (Z.shiftr r 6) 63; 128 + Z.land r 63]).
Definition RuneError : Z := 65533.

(** The bytes of the first rune of [s] and the rest; an invalid byte gives [None]. *)
Definition next_rune (s : string) : option string * string :=
  match s with
  | String a r1 =>
      if byte_of a <? 128 then (Some (String a ""), r1)
      else if utf8_valid (str_take 2 s) then (Some (str_take 2 s), match r1 with String _ r => r | _ => "" end)
      else if utf8_valid (str_take 3 s) then
        (Some (str_take 3 s), match r1 with String _ (String _ r) => r | _ => "" end)
      else if utf8_valid (str_take 4 s) then
        (Some (str_take 4 s), match r1 with String _ (String _ (String _ r)) => r | _ => "" end)
      else (None, r1)
  | EmptyString => (Some "", "")
  end.

Definition getu4 (s : string) : option (Z * string) :=
  match s with
  | String h1 (String h2 (String h3 (String h4 r))) =>
      match hex_val h1, hex_val h2, hex_val h3, hex_val h4 with
      | Some a, Some b, Some c, Some d => Some (a * 4096 + b * 256 + c * 16 + d, r)
      | _, _, _, _ => None
      end
  | _ => None
  end.
Definition is_surrogate (r : Z) : bool := (55296 <=? r) && (r <? 57344).

(** The content of a valid string literal after the opening quote. *)
Fixpoint unquote (fuel : nat) (s : string) : string :=
  match fuel with
  | O => ""
  | S fuel =>
      match s with
      | EmptyString => ""
      | String c s' =>
          if Ascii.eqb c dq then ""
          else if Ascii.eqb c backslash then
            match s' with
            | String "u" s2 =>
                match getu4 s2 with
                | Some (rr, s3) =>
                    if is_surrogate rr then
                      match s3 with
                      | String c1 (String "u" s4) =>
                          match (if Ascii.eqb c1 backslash then getu4 s4 else None) with
                          | Some (rr1, s5) =>
                              if (rr <? 56320) && (56320 <=? rr1) && (rr1 <? 57344)
                              then utf8_encode (65536 + (rr - 55296) * 1024 + (rr1 - 56320)) +:+ unquote fuel s5
                              else utf8_encode RuneError +:+ unquote fuel s3
                          | None => utf8_encode RuneError +:+ unquote fuel s3
                          end
                      | _ => utf8_encode RuneError +:+ unquote fuel s3
                      end
                    else utf8_encode rr +:+ unquote fuel s3
                | None => ""
                end
            | String e s2 =>
                String (if Ascii.eqb e "b" then byte 8 else if Ascii.eqb e "f" then byte 12
                        else if Ascii.eqb e "n" then byte 10 else if Ascii.eqb e "r" then byte 13
                        else if Ascii.eqb e "t" then byte 9 else e) (unquote fuel s2)
            | EmptyString => ""
            end
          else let '(r, rest) := next_rune s in
               default (utf8_encode RuneError) r +:+ unquote fuel rest
      end
  end.

(** ** [json.Unmarshal] into a [map[string]json.RawMessage] *)

(** The members of a valid object, in order, with decoded keys and raw values. *)
Fixpoint raw_members (fuel : nat) (s : string) : list (string * string) :=
  match fuel with
  | O => []
  | S fuel =>
      match skip_ws s with
      | String _ s1 =>
          match scan_string s1 with
          | None => []
          | Some s2 =>
              match skip_ws s2 with
              | String _ s3 =>
                  let v := skip_ws s3 in
                  match scan_value (json_fuel s3) 1 s3 with
                  | None => []
                  | Some s4 =>
                      (unquote (String.length s1) s1, str_take (String.length v - String.length s4) v) ::
                      match skip_ws s4 with
                      | String "," s5 => raw_members fuel s5
                      | _ => []
                      end
                  end
              | EmptyString => []
              end
          end
      | EmptyString => []
      end
  end.

(** [None] is an error; [null] leaves the map nil. *)
Definition UnmarshalRawMap (s : string) : option (gmap string string) :=
  if negb (Valid s) then None
  else match skip_ws s with
       | String "{" s' =>
           match skip_ws s' with
           | String "}" _ => Some ∅
           | _ => Some (foldl (fun m p => <[p.1 := p.2]> m) ∅ (raw_members (String.length s) s'))
           end
       | String "n" _ => Some ∅
       | _ => None
       end.

(** ** [json.Marshal] *)

Definition hex_digit (n : Z) : ascii := byte (if n <? 10 then 48 + n else 87 + n).
Definition u_escape (c : ascii) : string :=
  String backslash ("u00" +:+ String (hex_digit (Z.shiftr (byte_of c) 4))
    (String (hex_digit (Z.land (byte_of c) 15)) "")).
Definition html_special (c : ascii) : bool :=
  Ascii.eqb c "<" || Ascii.eqb c ">" || Ascii.eqb c "&".
Definition u2028 (s : string) : option (ascii * string) :=
  match s with
  | String a (String b (String c r)) =>
      if (byte_of a =? 226) && (byte_of b =? 128) && ((byte_of c =? 168) || (byte_of c =? 169))
      then Some (hex_digit (Z.land (byte_of c) 15), r) else None
  | _ => None
  end.

Fixpoint quote_body (fuel : nat) (s : string) : string :=
  match fuel with
  | O => ""
  | S fuel =>
      match s with
      | EmptyString => ""
      | String c s' =>
          let esc e := String backslash (String e (quote_body fuel s')) in
          if Ascii.eqb c dq || Ascii.eqb c backslash then esc c
          else if byte_of c =? 8 then esc "b"%char else if byte_of c =? 12 then esc "f"%char
          else if byte_of c =? 10 then esc "n"%char else if byte_of c =? 13 then esc "r"%char
          else if byte_of c =? 9 then esc "t"%char
          else if (byte_of c <? 32) || html_special c then u_escape c +:+ quote_body fuel s'
          else match u2028 s with
               | Some (h, r) => String backslash ("u202" +:+ String h (quote_body fuel r))
               | None =>
                   let '(r, rest) := next_rune s in
                   default (String backslash "ufffd") r +:+ quote_body fuel rest
               end
      end
  end.
Definition json_quote (s : string) : string :=
  String dq (quote_body (String.length s) s +:+ String dq "").

(** [appendCompact] on a valid text: white space outside strings is dropped,
    HTML characters and U+2028, U+2029 are escaped. *)
Fixpoint compact (fuel : nat) (in_str escaped : bool) (s : string) : string :=
  match fuel with
  | O => ""
  | S fuel =>
      match s with
      | EmptyString => ""
      | String c s' =>
          if html_special c then u_escape c +:+ compact fuel in_str false s'
          else match u2028 s with
          | Some (h, r) => String backslash ("u202" +:+ String h (compact fuel in_str false r))
          | None =>
              if in_str then
                String c (if escaped then compact fuel true false s'
                          else if Ascii.eqb c backslash then compact fuel true true s'
                          else compact fuel (negb (Ascii.eqb c dq)) false s')
              else if is_ws c then compact fuel false false s'
              else String c (compact fuel (Ascii.eqb c dq) false s')
          end
      end
  end.

Definition key_le (p q : string * string) : Prop := String.leb p.1 q.1 = true.
#[export] Instance key_le_dec : RelDecision key_le.
Proof. intros p q. unfold key_le. apply _. Defined.

Fixpoint join_comma (l : list string) : string :=
  match l with
  | [] => ""
  | [x] => x
  | x :: l' => x +:+ "," +:+ join_comma l'
  end.

(** Keys in byte order. *)
Definition MarshalRawMap (m : gmap string string) : string :=
  "{" +:+ join_comma (map (fun p => json_quote p.1 +:+ ":" +:+ compact (String.length p.2) false false p.2)
                        (merge_sort key_le (map_to_list m))) +:+ "}".

(** ** Checks against the library's documented behaviour *)

Definition qs (l : list string) : string := String.concat (String dq "") l.

Example valid_1 : Valid (qs ["{"; "a"; ": [1, -0.5e+3, true, null, "; "x\u00e9"; "]} "]) = true.
Proof. vm_compute. reflexivity. Qed.
Example valid_2 : Valid (qs ["{"; "a"; ":01}"]) = false /\ Valid "" = false /\ Valid "[1,]" = false /\ Valid "{" = false.
Proof. vm_compute. done. Qed.
Example raw_map : UnmarshalRawMap (qs ["{ "; "a"; ": [1, 2] , "; "p\u0062"; ":"; ""; "}"])
  = Some (<["a" := "[1, 2]"]> {["pb" := qs [""; ""; ""]]}).
Proof. vm_compute. reflexivity. Qed.
Example marshal_map :
  MarshalRawMap (<["b" := " [ 1, 2 ]"]> {["a<" := qs [""; "x y\"; "z&"; ""]]}) =
  qs ["{"; "a\u003c"; ":"; "x y\"; "z\u0026"; ","; "b"; ":[1,2]}"].
Proof. vm_compute. reflexivity. Qed.
