(* ===== verification/ApiTypes.v ===== *)
(** * Wire types of the API bridge ([pkg/apicompat/types.go])

    The structs the two stream converters read and write, with Go's zero values
    ([no_...]); a pointer field is an [option], a [json.RawMessage] is its text
    (nil and empty are not told apart by the code modelled here).  Also the
    normalisation that [ResponsesUsage.UnmarshalJSON] applies to decoded fields. *)

From S2P Require Import Prelude.

(** ** Anthropic Messages *)

Record AnthropicCacheControl := mkCacheControl { cc_Type : string; cc_TTL : string }.
Record AnthropicImageSource := mkImageSource { is_Type : string; is_MediaType : string; is_Data : string }.

Record AnthropicContentBlock := mkBlock {
  cb_Type : string;
  cb_CacheControl : option AnthropicCacheControl;
  cb_Text : string;
  cb_Thinking : string;
  cb_Signature : string;
  cb_Source : option AnthropicImageSource;
  cb_ID : string;
  cb_Name : string;
  cb_Input : string;
  cb_ToolUseID : string;
  cb_Content : string;
  cb_IsError : bool }.
Definition no_block : AnthropicContentBlock := mkBlock "" None "" "" "" None "" "" "" "" "" false.

Record AnthropicUsage := mkAnthropicUsage {
  au_InputTokens : Z;
  au_OutputTokens : Z;
  au_CacheCreationInputTokens : Z;
  au_CacheReadInputTokens : Z;
  au_PromptTokens : Z;
  au_CachedTokens : Z;
  au_PromptTokensDetails : option Z;
  au_PromptCacheHitTokens : option Z;
  au_PromptCacheMissTokens : option Z }.
Definition no_anthropic_usage : AnthropicUsage := mkAnthropicUsage 0 0 0 0 0 0 None None None.

Record AnthropicResponse := mkAnthropicResponse {
  ar_ID : string;
  ar_Type : string;
  ar_Role : string;
  ar_Content : list AnthropicContentBlock;
  ar_Model : string;
  ar_StopReason : option string;
  ar_StopSequence : option string;
  ar_Usage : AnthropicUsage }.

Definition AnthropicStopReasonPtr (s : string) : option string := Some s.
Definition AnthropicStopReasonString (p : option string) : string := default "" p.

Record AnthropicDelta := mkDelta {
  ad_Type : string;
  ad_Text : string;
  ad_PartialJSON : string;
  ad_Thinking : string;
  ad_Signature : string;
  ad_StopReason : string;
  ad_StopSequence : option string }.
Definition no_delta : AnthropicDelta := mkDelta "" "" "" "" "" "" None.

Record AnthropicStreamEvent := mkAnthropicEvent {
  ae_Type : string;
  ae_Message : option AnthropicResponse;
  ae_Index : option Z;
  ae_ContentBlock : option AnthropicContentBlock;
  ae_Delta : option AnthropicDelta;
  ae_Usage : option AnthropicUsage }.
Definition no_anthropic_event : AnthropicStreamEvent := mkAnthropicEvent "" None None None None None.

(** ** OpenAI Responses *)

Record ResponsesContentPart := mkPart {
  cp_Type : string;
  cp_Text : string;
  cp_ImageURL : string;
  cp_Filename : string;
  cp_FileData : string;
  cp_FileID : string }.
Definition output_text (text : string) : ResponsesContentPart := mkPart "output_text" text "" "" "" "".

Record WebSearchAction := mkAction { wa_Type : string; wa_Query : string }.
Record ResponsesSummary := mkSummary { sm_Type : string; sm_Text : string }.
Record ResponsesError := mkResponsesError { re_Code : string; re_Message : string }.
Record ResponsesIncompleteDetails := mkIncomplete { id_Reason : string }.

Record ResponsesInputTokensDetails := mkInputDetails {
  it_CachedTokens : Z;
  it_AudioTokens : Z;
  it_CacheCreationTokens : Z;
  it_CacheWriteTokens : Z }.
Record ResponsesOutputTokensDetails := mkOutputDetails {
  ot_ReasoningTokens : Z;
  ot_AudioTokens : Z;
  ot_AcceptedPredictionTokens : Z;
  ot_RejectedPredictionTokens : Z }.

Record ResponsesUsage := mkUsage {
  ru_InputTokens : Z;
  ru_OutputTokens : Z;
  ru_TotalTokens : Z;
  ru_CacheCreationInputTokens : Z;
  ru_InputTokensDetails : option ResponsesInputTokensDetails;
  ru_OutputTokensDetails : option ResponsesOutputTokensDetails }.

Record ResponsesOutput := mkOutput {
  ro_Type : string;
  ro_ID : string;
  ro_Role : string;
  ro_Content : list ResponsesContentPart;
  ro_Status : string;
  ro_EncryptedContent : string;
  ro_Summary : list ResponsesSummary;
  ro_CallID : string;
  ro_Name : string;
  ro_Arguments : string;
  ro_Namespace : string;
  ro_Input : string;
  ro_Action : option WebSearchAction }.
Definition no_output : ResponsesOutput := mkOutput "" "" "" [] "" "" [] "" "" "" "" "" None.

Record ResponsesResponse := mkResponse {
  rr_ID : string;
  rr_Object : string;
  rr_Model : string;
  rr_Status : string;
  rr_Output : list ResponsesOutput;
  rr_Usage : option ResponsesUsage;
  rr_ServiceTier : string;
  rr_IncompleteDetails : option ResponsesIncompleteDetails;
  rr_Error : option ResponsesError }.

Record ResponsesStreamEvent := mkResponsesEvent {
  rs_Type : string;
  rs_Response : option ResponsesResponse;
  rs_Usage : option ResponsesUsage;
  rs_Item : option ResponsesOutput;
  rs_OutputIndex : Z;
  rs_ContentIndex : Z;
  rs_Delta : string;
  rs_Text : string;
  rs_ItemID : string;
  rs_CallID : string;
  rs_Name : string;
  rs_Arguments : string;
  rs_Input : string;
  rs_SummaryIndex : Z;
  rs_Part : option ResponsesContentPart;
  rs_Code : string;
  rs_Param : string;
  rs_SequenceNumber : Z }.
Definition no_responses_event : ResponsesStreamEvent :=
  mkResponsesEvent "" None None None 0 0 "" "" "" "" "" "" "" 0 None "" "" 0.

(** ** [ResponsesUsage.UnmarshalJSON] on decoded fields *)

(** [cacheTokenPresence] *)
Record cachePresence := mkPresence {
  pr_CacheCreationTokens : option Z;
  pr_CacheWriteTokens : option Z }.

(** What the two [json.Unmarshal] calls decode. *)
Record usageWire := mkUsageWire {
  uw_alias : ResponsesUsage;
  uw_PromptTokens : Z;
  uw_CompletionTokens : Z;
  uw_CacheCreationTokens : Z;
  uw_CacheWriteInputTokens : Z;
  uw_CacheWriteTokens : Z;
  uw_PromptTokensDetails : option ResponsesInputTokensDetails;
  uw_CompletionTokensDetails : option ResponsesOutputTokensDetails;
  uw_nestedInput : option cachePresence;
  uw_nestedPrompt : option cachePresence }.

Definition canonicalCacheCreationTokens (w : usageWire) : option Z :=
  match uw_nestedInput w ≫= pr_CacheWriteTokens with
  | Some v => Some v
  | None => match uw_nestedPrompt w ≫= pr_CacheWriteTokens with
  | Some v => Some v
  | None => match uw_nestedInput w ≫= pr_CacheCreationTokens with
  | Some v => Some v
  | None => uw_nestedPrompt w ≫= pr_CacheCreationTokens
  end end end.

Definition UnmarshalResponsesUsage (w : usageWire) : ResponsesUsage :=
  let u := uw_alias w in
  let input := if (ru_InputTokens u =? 0) && negb (uw_PromptTokens w =? 0)
               then uw_PromptTokens w else ru_InputTokens u in
  let output := if (ru_OutputTokens u =? 0) && negb (uw_CompletionTokens w =? 0)
                then uw_CompletionTokens w else ru_OutputTokens u in
  let creation :=
    if ru_CacheCreationInputTokens u =? 0 then
      if 0 <? uw_CacheWriteInputTokens w then uw_CacheWriteInputTokens w
      else if 0 <? uw_CacheCreationTokens w then uw_CacheCreationTokens w
      else if 0 <? uw_CacheWriteTokens w then uw_CacheWriteTokens w
      else ru_CacheCreationInputTokens u
    else ru_CacheCreationInputTokens u in
  let inDetails := match ru_InputTokensDetails u with
                   | None => uw_PromptTokensDetails w | Some d => Some d end in
  let outDetails := match ru_OutputTokensDetails u with
                    | None => uw_CompletionTokensDetails w | Some d => Some d end in
  let creation := match canonicalCacheCreationTokens w with
                  | Some c => Z.max c 0 | None => creation end in
  let total := if (ru_TotalTokens u =? 0) && (negb (input =? 0) || negb (output =? 0))
               then wrap64 (input + output) else ru_TotalTokens u in
  mkUsage input output total creation inDetails outDetails.
