(* ===== verification/AnthropicStream.v ===== *)
(** * Responses API to Anthropic Messages ([pkg/apicompat/responses_to_anthropic.go])

    The conversion of a whole response and the stateful converter of a stream.
    A handler is a state transformer that returns the events it emits.  Token
    arithmetic wraps at 64 bits; block indices count emitted blocks and are
    plain integers. *)

From S2P Require Import Prelude Json ApiTypes.

(** [fromResponsesCallID] of [anthropic_to_responses.go]. *)
Definition fromResponsesCallID (id : string) : string :=
  match CutPrefix "fc_" id with
  | Some after => if HasPrefix after "toolu_" || HasPrefix after "call_" then after else id
  | None => id
  end.
Definition toResponsesCallID (id : string) : string := id.

Definition sanitizeAnthropicToolUseInput (name raw : string) : string :=
  if negb (String.eqb name "Read") || String.eqb raw "" then raw
  else match UnmarshalRawMap raw with
       | None => raw
       | Some input =>
           if match input !! "pages" with
              | Some pages => negb (String.eqb pages (qs [""; ""; ""]))
              | None => true
              end then raw
           else MarshalRawMap (delete "pages" input)
       end.

(** [json.Marshal(map[string]string{"query": query})] *)
Definition queryJSON (query : string) : string :=
  "{" +:+ json_quote "query" +:+ ":" +:+ json_quote query +:+ "}".
Definition emptyResults : string := "[]".

(** ** Whole responses *)

Definition reasoningBlocks (item : ResponsesOutput) : list AnthropicContentBlock :=
  let summaryText :=
    foldl (fun acc s => if String.eqb (sm_Type s) "summary_text" && negb (String.eqb (sm_Text s) "")
                        then acc +:+ sm_Text s else acc) "" (ro_Summary item) in
  if negb (String.eqb summaryText "") || negb (String.eqb (TrimSpace (ro_EncryptedContent item)) "")
  then [{ no_block with cb_Type := "thinking"; cb_Thinking := summaryText;
                        cb_Signature := ro_EncryptedContent item }]
  else [].

Definition messageBlocks (item : ResponsesOutput) : list AnthropicContentBlock :=
  flat_map (fun part => if String.eqb (cp_Type part) "output_text" && negb (String.eqb (cp_Text part) "")
                        then [{ no_block with cb_Type := "text"; cb_Text := cp_Text part }] else [])
           (ro_Content item).

Definition actionQuery (item : ResponsesOutput) : string :=
  match ro_Action item with Some a => wa_Query a | None => "" end.
Definition serverToolUse (item : ResponsesOutput) : AnthropicContentBlock :=
  { no_block with cb_Type := "server_tool_use"; cb_ID := "srvtoolu_" +:+ ro_ID item;
                  cb_Name := "web_search"; cb_Input := queryJSON (actionQuery item) }.
Definition searchResult (item : ResponsesOutput) : AnthropicContentBlock :=
  { no_block with cb_Type := "web_search_tool_result"; cb_ToolUseID := "srvtoolu_" +:+ ro_ID item;
                  cb_Content := emptyResults }.

Definition itemBlocks (item : ResponsesOutput) : list AnthropicContentBlock :=
  if String.eqb (ro_Type item) "reasoning" then reasoningBlocks item
  else if String.eqb (ro_Type item) "message" then messageBlocks item
  else if String.eqb (ro_Type item) "function_call" then
    [{ no_block with cb_Type := "tool_use"; cb_ID := fromResponsesCallID (ro_CallID item);
                     cb_Name := ro_Name item;
                     cb_Input := sanitizeAnthropicToolUseInput (ro_Name item) (ro_Arguments item) }]
  else if String.eqb (ro_Type item) "web_search_call" then [serverToolUse item; searchResult item]
  else [].

Definition containsAnthropicToolUseBlock (blocks : list AnthropicContentBlock) : bool :=
  existsb (fun b => String.eqb (cb_Type b) "tool_use") blocks.

Definition responsesStatusToAnthropicStopReason (status : string)
  (details : option ResponsesIncompleteDetails) (blocks : list AnthropicContentBlock) : string :=
  if String.eqb status "incomplete" then
    match details with
    | Some d => if String.eqb (id_Reason d) "max_output_tokens" then "max_tokens" else "end_turn"
    | None => "end_turn"
    end
  else if String.eqb status "completed" then
    if containsAnthropicToolUseBlock blocks then "tool_use" else "end_turn"
  else "end_turn".

Definition anthropicUsageFromResponsesUsage (usage : option ResponsesUsage) : AnthropicUsage :=
  match usage with
  | None => no_anthropic_usage
  | Some usage =>
      let cachedTokens := match ru_InputTokensDetails usage with Some d => it_CachedTokens d | None => 0 end in
      let inputTokens :=
        wrap64 (wrap64 (ru_InputTokens usage - cachedTokens) - ru_CacheCreationInputTokens usage) in
      let inputTokens := if inputTokens <? 0 then 0 else inputTokens in
      { no_anthropic_usage with
        au_InputTokens := inputTokens;
        au_OutputTokens := ru_OutputTokens usage;
        au_CacheReadInputTokens := cachedTokens;
        au_CacheCreationInputTokens := ru_CacheCreationInputTokens usage }
  end.

Definition ResponsesToAnthropic (resp : ResponsesResponse) (model : string) : AnthropicResponse :=
  let blocks := flat_map itemBlocks (rr_Output resp) in
  let blocks := match blocks with [] => [{ no_block with cb_Type := "text" }] | _ => blocks end in
  mkAnthropicResponse (rr_ID resp) "message" "assistant" blocks model
    (AnthropicStopReasonPtr
       (responsesStatusToAnthropicStopReason (rr_Status resp) (rr_IncompleteDetails resp) blocks))
    None
    (match rr_Usage resp with
     | Some u => anthropicUsageFromResponsesUsage (Some u)
     | None => no_anthropic_usage
     end).

(** ** Streams *)

Record ResponsesEventToAnthropicState := mkRA {
  MessageStartSent : bool;
  MessageStopSent : bool;
  ContentBlockIndex : Z;
  ContentBlockOpen : bool;
  CurrentBlockType : string;
  CurrentToolName : string;
  CurrentToolArgs : string;
  CurrentToolHadDelta : bool;
  PendingThinkingSignature : string;
  HasToolCall : bool;
  OutputIndexToBlockIdx : gmap Z Z;
  InputTokens : Z;
  OutputTokens : Z;
  CacheReadInputTokens : Z;
  CacheCreationInputTokens : Z;
  ResponseID : string;
  Model : string;
  Created : Z }.

Definition NewResponsesEventToAnthropicState (created : Z) : ResponsesEventToAnthropicState :=
  mkRA false false 0 false "" "" "" false "" false ∅ 0 0 0 0 "" "" created.

Definition emits := ST ResponsesEventToAnthropicState (list AnthropicStreamEvent).

Definition content_block_start (idx : Z) (block : AnthropicContentBlock) : AnthropicStreamEvent :=
  mkAnthropicEvent "content_block_start" None (Some idx) (Some block) None None.
Definition content_block_delta (idx : Z) (delta : AnthropicDelta) : AnthropicStreamEvent :=
  mkAnthropicEvent "content_block_delta" None (Some idx) None (Some delta) None.
Definition content_block_stop (idx : Z) : AnthropicStreamEvent :=
  mkAnthropicEvent "content_block_stop" None (Some idx) None None None.
Definition message_delta (stopReason : string) (st : ResponsesEventToAnthropicState) : AnthropicStreamEvent :=
  mkAnthropicEvent "message_delta" None None None
    (Some { no_delta with ad_StopReason := stopReason })
    (Some { no_anthropic_usage with
            au_InputTokens := InputTokens st; au_OutputTokens := OutputTokens st;
            au_CacheReadInputTokens := CacheReadInputTokens st;
            au_CacheCreationInputTokens := CacheCreationInputTokens st }).
Definition message_stop : AnthropicStreamEvent := mkAnthropicEvent "message_stop" None None None None None.
Definition text_delta (text : string) := { no_delta with ad_Type := "text_delta"; ad_Text := text }.
Definition input_json_delta (json : string) :=
  { no_delta with ad_Type := "input_json_delta"; ad_PartialJSON := json }.
Definition thinking_delta (text : string) := { no_delta with ad_Type := "thinking_delta"; ad_Thinking := text }.
Definition signature_delta (sig : string) := { no_delta with ad_Type := "signature_delta"; ad_Signature := sig }.

Definition closeCurrentBlock : emits := fun st =>
  if negb (ContentBlockOpen st) then ([], st)
  else
    let idx := ContentBlockIndex st in
    let sig := TrimSpace (PendingThinkingSignature st) in
    let thinking := String.eqb (CurrentBlockType st) "thinking" in
    let events := if thinking && negb (String.eqb sig "")
                  then [content_block_delta idx (signature_delta sig)] else [] in
    (events ++ [content_block_stop idx],
     { st with PendingThinkingSignature := if thinking then "" else PendingThinkingSignature st;
               ContentBlockOpen := false;
               ContentBlockIndex := idx + 1;
               CurrentToolName := "";
               CurrentToolArgs := "";
               CurrentToolHadDelta := false }).

Definition note_response (resp : option ResponsesResponse) (st : ResponsesEventToAnthropicState)
  : ResponsesEventToAnthropicState :=
  match resp with
  | Some r => { st with ResponseID := rr_ID r;
                        Model := if String.eqb (Model st) "" then rr_Model r else Model st }
  | None => st
  end.

Definition resToAnthHandleCreated (evt : ResponsesStreamEvent) : emits := fun st =>
  let st := note_response (rs_Response evt) st in
  if MessageStartSent st then ([], st)
  else
    ([mkAnthropicEvent "message_start"
        (Some (mkAnthropicResponse (ResponseID st) "message" "assistant" [] (Model st) None None
                 no_anthropic_usage)) None None None None],
     { st with MessageStartSent := true }).

(** The two block-opening cases of [resToAnthHandleOutputItemAdded]. *)
Definition addToolUse (evt : ResponsesStreamEvent) (item : ResponsesOutput) : emits :=
  events ← closeCurrentBlock;
  st ← get;
  _ ← modify (fun st => { st with
        OutputIndexToBlockIdx := <[rs_OutputIndex evt := ContentBlockIndex st]> (OutputIndexToBlockIdx st);
        ContentBlockOpen := true; CurrentBlockType := "tool_use";
        CurrentToolName := ro_Name item; CurrentToolArgs := "";
        CurrentToolHadDelta := false; HasToolCall := true });
  mret (events ++ [content_block_start (ContentBlockIndex st)
    { no_block with cb_Type := "tool_use"; cb_ID := fromResponsesCallID (ro_CallID item);
                    cb_Name := ro_Name item; cb_Input := "{}" }]).

Definition addThinking (evt : ResponsesStreamEvent) (item : ResponsesOutput) : emits :=
  events ← closeCurrentBlock;
  st ← get;
  _ ← modify (fun st => { st with
        OutputIndexToBlockIdx := <[rs_OutputIndex evt := ContentBlockIndex st]> (OutputIndexToBlockIdx st);
        ContentBlockOpen := true; CurrentBlockType := "thinking";
        PendingThinkingSignature := TrimSpace (ro_EncryptedContent item) });
  mret (events ++ [content_block_start (ContentBlockIndex st) { no_block with cb_Type := "thinking" }]).

Definition resToAnthHandleOutputItemAdded (evt : ResponsesStreamEvent) : emits :=
  match rs_Item evt with
  | None => mret []
  | Some item =>
      if String.eqb (ro_Type item) "function_call" || String.eqb (ro_Type item) "custom_tool_call"
      then addToolUse evt item
      else if String.eqb (ro_Type item) "reasoning" then addThinking evt item
      else mret []
  end.

Definition resToAnthHandleTextDelta (evt : ResponsesStreamEvent) : emits :=
  if String.eqb (rs_Delta evt) "" then mret []
  else
    st ← get;
    events ← (if negb (ContentBlockOpen st) || negb (String.eqb (CurrentBlockType st) "text") then
                events ← closeCurrentBlock;
                st1 ← get;
                _ ← modify (fun st1 => { st1 with ContentBlockOpen := true; CurrentBlockType := "text" });
                mret (events ++ [content_block_start (ContentBlockIndex st1) { no_block with cb_Type := "text" }])
              else mret []);
    st2 ← get;
    mret (events ++ [content_block_delta (ContentBlockIndex st2) (text_delta (rs_Delta evt))]).

Definition resToAnthHandleFuncArgsDelta (evt : ResponsesStreamEvent) : emits := fun st =>
  let tool := String.eqb (CurrentBlockType st) "tool_use" in
  if String.eqb (rs_Delta evt) "" then ([], st)
  else if tool && String.eqb (CurrentToolName st) "Read" then
    let st := { st with CurrentToolArgs := CurrentToolArgs st +:+ rs_Delta evt } in
    if CurrentToolHadDelta st || negb (Valid (CurrentToolArgs st)) then ([], st)
    else match OutputIndexToBlockIdx st !! rs_OutputIndex evt with
         | None => ([], st)
         | Some blockIdx =>
             ([content_block_delta blockIdx (input_json_delta
                 (sanitizeAnthropicToolUseInput (CurrentToolName st) (CurrentToolArgs st)))],
              { st with CurrentToolHadDelta := true })
         end
  else
    let st := if tool then { st with CurrentToolHadDelta := true } else st in
    match OutputIndexToBlockIdx st !! rs_OutputIndex evt with
    | None => ([], st)
    | Some blockIdx => ([content_block_delta blockIdx (input_json_delta (rs_Delta evt))], st)
    end.

Definition resToAnthHandleBlockDone : emits := fun st =>
  if negb (ContentBlockOpen st) then ([], st) else closeCurrentBlock st.

Definition resToAnthHandleFuncArgsDone (evt : ResponsesStreamEvent) : emits := fun st =>
  if negb (ContentBlockOpen st) then ([], st)
  else if negb (String.eqb (CurrentBlockType st) "tool_use") then resToAnthHandleBlockDone st
  else
    let raw := if String.eqb (rs_Arguments evt) "" then CurrentToolArgs st else rs_Arguments evt in
    if String.eqb raw "" || CurrentToolHadDelta st then closeCurrentBlock st
    else
      let raw' := if String.eqb (CurrentToolName st) "Read"
                  then sanitizeAnthropicToolUseInput (CurrentToolName st) raw else raw in
      if String.eqb (CurrentToolName st) "Read" && String.eqb raw' "" then closeCurrentBlock st
      else
        let blockIdx := default (ContentBlockIndex st) (OutputIndexToBlockIdx st !! rs_OutputIndex evt) in
        if negb (ContentBlockOpen st) || negb (blockIdx =? ContentBlockIndex st) then ([], st)
        else
          let '(events, st1) := closeCurrentBlock st in
          (content_block_delta blockIdx (input_json_delta raw') :: events, st1).

Definition resToAnthHandleReasoningDelta (evt : ResponsesStreamEvent) : emits := fun st =>
  if String.eqb (rs_Delta evt) "" then ([], st)
  else match OutputIndexToBlockIdx st !! rs_OutputIndex evt with
       | None => ([], st)
       | Some blockIdx => ([content_block_delta blockIdx (thinking_delta (rs_Delta evt))], st)
       end.

Definition resToAnthHandleWebSearchDone (item : ResponsesOutput) : emits :=
  events ← closeCurrentBlock;
  st ← get;
  let idx1 := ContentBlockIndex st in
  let idx2 := idx1 + 1 in
  _ ← modify (fun st => { st with ContentBlockIndex := idx2 + 1 });
  mret (events ++ [content_block_start idx1 (serverToolUse item); content_block_stop idx1;
                   content_block_start idx2 (searchResult item); content_block_stop idx2]).

Definition resToAnthHandleOutputItemDone (evt : ResponsesStreamEvent) : emits := fun st =>
  match rs_Item evt with
  | None => ([], st)
  | Some item =>
      if String.eqb (ro_Type item) "web_search_call" && String.eqb (ro_Status item) "completed"
      then resToAnthHandleWebSearchDone item st
      else
        let sig := TrimSpace (ro_EncryptedContent item) in
        let st := if String.eqb (ro_Type item) "reasoning" && negb (String.eqb sig "")
                  then { st with PendingThinkingSignature := sig } else st in
        if ContentBlockOpen st then closeCurrentBlock st else ([], st)
  end.

Definition take_usage (usage : option ResponsesUsage) (st : ResponsesEventToAnthropicState)
  : ResponsesEventToAnthropicState :=
  match usage with
  | None => st
  | Some _ =>
      let u := anthropicUsageFromResponsesUsage usage in
      { st with InputTokens := au_InputTokens u; OutputTokens := au_OutputTokens u;
                CacheReadInputTokens := au_CacheReadInputTokens u;
                CacheCreationInputTokens := au_CacheCreationInputTokens u }
  end.

Definition completed_stop_reason (resp : option ResponsesResponse) (hasToolCall : bool) : string :=
  match resp with
  | None => "end_turn"
  | Some r =>
      if String.eqb (rr_Status r) "incomplete" then
        match rr_IncompleteDetails r with
        | Some d => if String.eqb (id_Reason d) "max_output_tokens" then "max_tokens" else "end_turn"
        | None => "end_turn"
        end
      else if String.eqb (rr_Status r) "completed" then
        if hasToolCall then "tool_use" else "end_turn"
      else "end_turn"
  end.

Definition resToAnthHandleCompleted (evt : ResponsesStreamEvent) : emits := fun st =>
  if MessageStopSent st then ([], st)
  else
    let '(events, st) := closeCurrentBlock st in
    let st := take_usage (rs_Usage evt) st in
    let st := take_usage (rs_Response evt ≫= rr_Usage) st in
    (events ++ [message_delta (completed_stop_reason (rs_Response evt) (HasToolCall st)) st; message_stop],
     { st with MessageStopSent := true }).

Definition ResponsesEventToAnthropicEvents (evt : ResponsesStreamEvent) : emits :=
  let ty := String.eqb (rs_Type evt) in
  if ty "response.created" then resToAnthHandleCreated evt
  else if ty "response.output_item.added" then resToAnthHandleOutputItemAdded evt
  else if ty "response.output_text.delta" then resToAnthHandleTextDelta evt
  else if ty "response.output_text.done" then resToAnthHandleBlockDone
  else if ty "response.function_call_arguments.delta" || ty "response.custom_tool_call_input.delta"
  then resToAnthHandleFuncArgsDelta evt
  else if ty "response.function_call_arguments.done" then resToAnthHandleFuncArgsDone evt
  else if ty "response.output_item.done" then resToAnthHandleOutputItemDone evt
  else if ty "response.reasoning_summary_text.delta" || ty "response.reasoning_text.delta"
  then resToAnthHandleReasoningDelta evt
  else if ty "response.reasoning_summary_text.done" then mret []
  else if ty "response.completed" || ty "response.done" || ty "response.incomplete" || ty "response.failed"
  then resToAnthHandleCompleted evt
  else mret [].

Definition FinalizeResponsesAnthropicStream : emits := fun st =>
  if negb (MessageStartSent st) || MessageStopSent st then ([], st)
  else
    let '(events, st) := closeCurrentBlock st in
    (events ++ [message_delta (if HasToolCall st then "tool_use" else "end_turn") st; message_stop],
     { st with MessageStopSent := true }).

(** A whole stream: the events of the upstream, then the finaliser. *)
Definition convert_stream (evts : list ResponsesStreamEvent) : emits :=
  out ← run_all ResponsesEventToAnthropicEvents evts;
  fin ← FinalizeResponsesAnthropicStream;
  mret (out ++ fin).

(** ** The Anthropic stream protocol

    What a client checks of the events: blocks are numbered 0, 1, 2, ..., one
    is open at a time, text and signatures arrive in the open block, other
    deltas name a block that was started; the message starts and stops at most
    once, and its closing events find no open block.  The [strict] protocol
    also wants every block event between the start and the stop of the message. *)
Record proto := mkProto { p_next : Z; p_open : bool; p_started : bool; p_stopped : bool }.
Definition proto0 : proto := mkProto 0 false false false.

Definition in_open_block (d : AnthropicDelta) : bool :=
  String.eqb (ad_Type d) "text_delta" || String.eqb (ad_Type d) "signature_delta".

Definition proto_step (strict : bool) (p : proto) (e : AnthropicStreamEvent) : option proto :=
  let live := negb strict || (p_started p && negb (p_stopped p)) in
  let ty := String.eqb (ae_Type e) in
  if ty "message_start" then
    if p_started p then None else Some (mkProto (p_next p) (p_open p) true (p_stopped p))
  else if ty "content_block_start" then
    match ae_Index e with
    | Some i => if live && negb (p_open p) && (i =? p_next p)
                then Some (mkProto i true (p_started p) (p_stopped p)) else None
    | None => None
    end
  else if ty "content_block_delta" then
    match ae_Index e, ae_Delta e with
    | Some i, Some d =>
        if live && (0 <=? i) && ((negb (in_open_block d) && (i <? p_next p)) || (p_open p && (i =? p_next p)))
        then Some p else None
    | _, _ => None
    end
  else if ty "content_block_stop" then
    match ae_Index e with
    | Some i => if live && p_open p && (i =? p_next p)
                then Some (mkProto (i + 1) false (p_started p) (p_stopped p)) else None
    | None => None
    end
  else if ty "message_delta" then
    if live && negb (p_open p) && negb (p_stopped p) then Some p else None
  else if ty "message_stop" then
    if live && negb (p_open p) && negb (p_stopped p)
    then Some (mkProto (p_next p) false (p_started p) true) else None
  else None.

Fixpoint accepts (strict : bool) (p : proto) (es : list AnthropicStreamEvent) : option proto :=
  match es with
  | [] => Some p
  | e :: es' => p' ← proto_step strict p e; accepts strict p' es'
  end.

(** The text a client reads from the events, and the text the upstream sent. *)
Definition event_text (e : AnthropicStreamEvent) : string :=
  match ae_Delta e with
  | Some d => if String.eqb (ae_Type e) "content_block_delta" && String.eqb (ad_Type d) "text_delta"
              then ad_Text d else ""
  | None => ""
  end.
Fixpoint text_of (es : list AnthropicStreamEvent) : string :=
  match es with [] => "" | e :: es' => event_text e +:+ text_of es' end.
Fixpoint upstream_text (evts : list ResponsesStreamEvent) : string :=
  match evts with
  | [] => ""
  | e :: evts' => (if String.eqb (rs_Type e) "response.output_text.delta" then rs_Delta e else "")
                  +:+ upstream_text evts'
  end.

Definition terminal_event (e : ResponsesStreamEvent) : bool :=
  existsb (String.eqb (rs_Type e))
    ["response.completed"; "response.done"; "response.incomplete"; "response.failed"].

(** ** The converter state follows the protocol *)

Definition proto_of (st : ResponsesEventToAnthropicState) : proto :=
  mkProto (ContentBlockIndex st) (ContentBlockOpen st) (MessageStartSent st) (MessageStopSent st).

(** Indices are non-negative and an output index maps to a block that was started. *)
Definition wf (st : ResponsesEventToAnthropicState) : Prop :=
  0 <= ContentBlockIndex st /\
  forall k v, OutputIndexToBlockIdx st !! k = Some v ->
    0 <= v /\ (v < ContentBlockIndex st \/ (v = ContentBlockIndex st /\ ContentBlockOpen st = true)).

(** Under the strict protocol a handler may run while the message is live. *)
Definition ready (strict : bool) (st : ResponsesEventToAnthropicState) : Prop :=
  strict = true -> MessageStartSent st = true /\ MessageStopSent st = false.

Definition sound (strict : bool) (h : emits) : Prop := forall st,
  wf st -> ready strict st ->
  accepts strict (proto_of st) (h st).1 = Some (proto_of (h st).2) /\ wf (h st).2.
Definition steady (h : emits) : Prop := forall st,
  MessageStartSent (h st).2 = MessageStartSent st /\ MessageStopSent (h st).2 = MessageStopSent st.

Lemma accepts_app strict p es fs :
  accepts strict p (es ++ fs) = (p' ← accepts strict p es; accepts strict p' fs).
Proof.
  revert p. induction es as [|e es IH]; intros p; simpl; [done|].
  destruct (proto_step strict p e); simpl; [apply IH|done].
Qed.

Lemma text_of_app es fs : text_of (es ++ fs) = text_of es +:+ text_of fs.
Proof. induction es as [|e es IH]; simpl; [done|]. by rewrite IH, str_app_assoc. Qed.

Lemma ready_live strict st : ready strict st ->
  negb strict || (MessageStartSent st && negb (MessageStopSent st)) = true.
Proof. unfold ready. destruct strict; [|done]. intros H. by destruct (H eq_refl) as [-> ->]. Qed.

(** Protocol steps of the events a handler builds. *)
Lemma step_delta_open strict st d :
  wf st -> ready strict st -> ContentBlockOpen st = true ->
  proto_step strict (proto_of st) (content_block_delta (ContentBlockIndex st) d) = Some (proto_of st).
Proof.
  intros [H0 _] Hr Ho. unfold proto_step. simpl. rewrite (ready_live _ _ Hr), Ho, Z.eqb_refl.
  rewrite (proj2 (Z.leb_le _ _) H0), orb_true_r. simpl. unfold proto_of. by rewrite Ho.
Qed.
Lemma step_delta_mapped strict st k v d :
  wf st -> ready strict st -> OutputIndexToBlockIdx st !! k = Some v -> in_open_block d = false ->
  proto_step strict (proto_of st) (content_block_delta v d) = Some (proto_of st).
Proof.
  intros [_ Hm] Hr Hk Hd. destruct (Hm _ _ Hk) as [H0 Hv]. unfold proto_step. simpl.
  rewrite (ready_live _ _ Hr), Hd, (proj2 (Z.leb_le _ _) H0). simpl.
  destruct Hv as [Hv|[-> ->]]; [by rewrite (proj2 (Z.ltb_lt _ _) Hv)|].
  by rewrite Z.eqb_refl, orb_true_r.
Qed.
Lemma step_start strict st b :
  ready strict st -> ContentBlockOpen st = false ->
  proto_step strict (proto_of st) (content_block_start (ContentBlockIndex st) b) =
  Some (mkProto (ContentBlockIndex st) true (MessageStartSent st) (MessageStopSent st)).
Proof. intros Hr Ho. unfold proto_step. simpl. by rewrite (ready_live _ _ Hr), Ho, Z.eqb_refl. Qed.
Lemma step_stop strict st :
  ready strict st -> ContentBlockOpen st = true ->
  proto_step strict (proto_of st) (content_block_stop (ContentBlockIndex st)) =
  Some (mkProto (ContentBlockIndex st + 1) false (MessageStartSent st) (MessageStopSent st)).
Proof. intros Hr Ho. unfold proto_step. simpl. by rewrite (ready_live _ _ Hr), Ho, Z.eqb_refl. Qed.

Lemma close_sound strict : sound strict closeCurrentBlock.
Proof.
  intros st Hwf Hr. unfold closeCurrentBlock. destruct (ContentBlockOpen st) eqn:Ho; simpl; [|done].
  split.
  - rewrite accepts_app. destruct (String.eqb (CurrentBlockType st) "thinking" && _); cbn [accepts];
      rewrite ?step_delta_open by done; simpl; by rewrite step_stop.
  - destruct Hwf as [H0 Hm]. split; [simpl; lia|]. intros k v Hk. simpl in *.
    destruct (Hm k v Hk) as [? [?|[-> _]]]; (split; [lia|left; simpl; lia]).
Qed.
Lemma close_steady : steady closeCurrentBlock.
Proof. intros st. unfold closeCurrentBlock. by destruct (ContentBlockOpen st). Qed.
Lemma close_closed st : ContentBlockOpen (closeCurrentBlock st).2 = false.
Proof. unfold closeCurrentBlock. by destruct (ContentBlockOpen st) eqn:Ho. Qed.
Lemma close_text st : text_of (closeCurrentBlock st).1 = "".
Proof.
  unfold closeCurrentBlock. destruct (ContentBlockOpen st); [|done]. simpl.
  by destruct (String.eqb (CurrentBlockType st) "thinking" && _).
Qed.

Ltac unfold_emits := unfold mbind, ST_bind, mret, ST_ret, get, modify; simpl.

(** After [closeCurrentBlock], with the closed state named. *)
Ltac after_close st strict Hwf Hr :=
  pose proof (close_sound strict st Hwf Hr);
  pose proof (close_steady st);
  pose proof (close_closed st);
  destruct (closeCurrentBlock st) as [ce st1]; simpl in *.

Lemma ready_steady strict st st1 :
  ready strict st -> MessageStartSent st1 = MessageStartSent st /\ MessageStopSent st1 = MessageStopSent st ->
  ready strict st1.
Proof. intros Hr [E1 E2] Hs. rewrite E1, E2. auto. Qed.

(** Opening a block on the index [k] keeps the map well formed. *)
Lemma wf_open st k :
  wf st -> forall k' v, <[k := ContentBlockIndex st]> (OutputIndexToBlockIdx st) !! k' = Some v ->
  0 <= v /\ (v < ContentBlockIndex st \/ (v = ContentBlockIndex st /\ true = true)).
Proof.
  intros [H0 Hm] k' v [[-> <-]|[Hne Hv]]%lookup_insert_Some; [lia|].
  destruct (Hm _ _ Hv) as [? [?|[? _]]]; auto.
Qed.

Lemma add_block_sound strict (upd : ResponsesEventToAnthropicState -> ResponsesEventToAnthropicState) b :
  (forall st, ContentBlockOpen st = false -> wf st ->
     wf (upd st) /\ proto_of (upd st) = mkProto (ContentBlockIndex st) true (MessageStartSent st) (MessageStopSent st)) ->
  sound strict (events ← closeCurrentBlock; st ← get; _ ← modify upd;
                mret (events ++ [content_block_start (ContentBlockIndex st) b])).
Proof.
  intros Hu st Hwf Hr. unfold_emits. after_close st strict Hwf Hr.
  destruct H as [Ha Hwf1]. destruct (Hu st1 H1 Hwf1) as [Hw Hp]. split; [|exact Hw].
  rewrite accepts_app, Ha. cbn [mbind option_bind accepts].
  rewrite step_start by (done || by eapply ready_steady). simpl. by rewrite Hp.
Qed.

Lemma addToolUse_sound strict evt item : sound strict (addToolUse evt item).
Proof.
  refine (add_block_sound strict _ _ _). intros st Ho Hwf. split; [|done].
  split; [apply Hwf|]. intros k v. apply (wf_open st (rs_OutputIndex evt) Hwf).
Qed.
Lemma addThinking_sound strict evt item : sound strict (addThinking evt item).
Proof.
  refine (add_block_sound strict _ _ _). intros st Ho Hwf. split; [|done].
  split; [apply Hwf|]. intros k v. apply (wf_open st (rs_OutputIndex evt) Hwf).
Qed.

Lemma sound_nil strict : sound strict (mret []).
Proof. intros st Hwf _. done. Qed.

Lemma TextDelta_sound strict evt : sound strict (resToAnthHandleTextDelta evt).
Proof.
  intros st Hwf Hr. unfold resToAnthHandleTextDelta.
  destruct (String.eqb (rs_Delta evt) ""); [done|]. unfold_emits.
  destruct (negb (ContentBlockOpen st) || negb (String.eqb (CurrentBlockType st) "text")) eqn:Hc; simpl.
  - after_close st strict Hwf Hr. destruct H as [Ha Hwf1]. pose proof (ready_steady _ _ _ Hr H0) as Hr1.
    pose (st2 := { st1 with ContentBlockOpen := true; CurrentBlockType := "text" }).
    assert (Hwf2 : wf st2).
    { destruct Hwf1 as [Hn Hm]. split; [exact Hn|]. intros k v Hk.
      destruct (Hm k v Hk) as [? [?|[? _]]]; simpl; auto. }
    split; [|exact Hwf2].
    rewrite !accepts_app, Ha. cbn [mbind option_bind accepts].
    rewrite step_start by done. cbn [mbind option_bind].
    change (mkProto (ContentBlockIndex st1) true (MessageStartSent st1) (MessageStopSent st1)) with (proto_of st2).
    change (ContentBlockIndex st1) with (ContentBlockIndex st2). by rewrite step_delta_open.
  - apply orb_false_iff in Hc as [Ho _]. apply negb_false_iff in Ho.
    split; [|done]. cbn [accepts app]. by rewrite step_delta_open.
Qed.

Lemma FuncArgsDelta_sound strict evt : sound strict (resToAnthHandleFuncArgsDelta evt).
Proof.
  intros st Hwf Hr. unfold resToAnthHandleFuncArgsDelta.
  repeat (split_if; cbn [fst snd]); simpl in *; try done;
    (split; [|done]); cbn [accepts];
    match goal with
    | H : _ !! _ = Some ?v |- context [content_block_delta ?v ?d] =>
        by erewrite (step_delta_mapped strict st _ v d)
    end.
Qed.

Lemma FuncArgsDone_sound strict evt : sound strict (resToAnthHandleFuncArgsDone evt).
Proof.
  intros st Hwf Hr. unfold resToAnthHandleFuncArgsDone, resToAnthHandleBlockDone.
  destruct (ContentBlockOpen st) eqn:Ho; cbn [negb orb]; [|done].
  pose proof (close_sound strict st Hwf Hr) as [Ha Hwf1].
  repeat (split_if; [by split|]).
  destruct (Z.eqb_spec (default (ContentBlockIndex st) (OutputIndexToBlockIdx st !! rs_OutputIndex evt))
              (ContentBlockIndex st)) as [->|]; cbn [negb]; [|done].
  destruct (closeCurrentBlock st) as [ce st1]. split; [|exact Hwf1].
  cbn [fst snd accepts]. by rewrite step_delta_open.
Qed.

Lemma ReasoningDelta_sound strict evt : sound strict (resToAnthHandleReasoningDelta evt).
Proof.
  intros st Hwf Hr. unfold resToAnthHandleReasoningDelta.
  destruct (String.eqb _ _); [done|]. destruct (_ !! _) eqn:Hk; [|done].
  split; [|done]. cbn [fst snd accepts]. by erewrite step_delta_mapped.
Qed.

(** Two blocks, each closed at once. *)
Lemma accepts_pair strict st b1 b2 :
  ready strict st -> ContentBlockOpen st = false ->
  let i := ContentBlockIndex st in
  accepts strict (proto_of st)
    [content_block_start i b1; content_block_stop i; content_block_start (i + 1) b2; content_block_stop (i + 1)]
  = Some (mkProto (i + 1 + 1) false (MessageStartSent st) (MessageStopSent st)).
Proof.
  intros Hr Ho i. unfold i, proto_of. rewrite Ho. cbn [accepts]. unfold proto_step.
  do 4 (simpl; rewrite (ready_live _ _ Hr), Z.eqb_refl). done.
Qed.

Lemma WebSearch_sound strict item : sound strict (resToAnthHandleWebSearchDone item).
Proof.
  intros st Hwf Hr. unfold resToAnthHandleWebSearchDone. unfold_emits. after_close st strict Hwf Hr.
  destruct H as [Ha Hwf1]. pose proof (ready_steady _ _ _ Hr H0) as Hr1.
  split.
  - rewrite accepts_app, Ha. cbn [mbind option_bind].
    etransitivity; [apply (accepts_pair strict st1 _ _ Hr1 H1)|]. unfold proto_of. simpl. by rewrite <- H1.
  - destruct Hwf1 as [Hn Hm]. split; simpl; [lia|]. intros k v Hk.
    destruct (Hm k v Hk) as [? [?|[? ?]]]; [|congruence]. split; [done|]. left. lia.
Qed.

Lemma OutputItemDone_sound strict evt : sound strict (resToAnthHandleOutputItemDone evt).
Proof.
  intros st Hwf Hr. unfold resToAnthHandleOutputItemDone.
  destruct (rs_Item evt) as [item|]; [|done]. split_if; [by apply WebSearch_sound|].
  assert (K : forall st', wf st' -> ready strict st' -> proto_of st' = proto_of st ->
    let r := if ContentBlockOpen st' then closeCurrentBlock st' else ([], st') in
    accepts strict (proto_of st) r.1 = Some (proto_of r.2) /\ wf r.2).
  { intros st' Hwf' Hr' <-. destruct (ContentBlockOpen st'); [by apply close_sound|done]. }
  destruct (String.eqb (ro_Type item) "reasoning" && _); by apply K.
Qed.

(** The closing pair of events on a closed state. *)
Lemma accepts_closing strict sr st :
  ready strict st -> ContentBlockOpen st = false -> MessageStopSent st = false ->
  accepts strict (proto_of st) [message_delta sr st; message_stop] =
  Some (proto_of { st with MessageStopSent := true }).
Proof.
  intros Hr Ho Hs. cbn [accepts]. unfold proto_step. simpl.
  rewrite (ready_live _ _ Hr), Ho, Hs. simpl. rewrite (ready_live _ _ Hr), Ho, Hs. simpl.
  unfold proto_of. by rewrite <- Ho.
Qed.

Lemma closing_sound strict sr (upd : ResponsesEventToAnthropicState -> ResponsesEventToAnthropicState) st :
  wf st -> ready strict st -> MessageStopSent st = false ->
  (forall st, proto_of (upd st) = proto_of st /\ OutputIndexToBlockIdx (upd st) = OutputIndexToBlockIdx st) ->
  let '(events, st1) := closeCurrentBlock st in
  accepts strict (proto_of st) (events ++ [message_delta (sr (upd st1)) (upd st1); message_stop]) =
    Some (proto_of { upd st1 with MessageStopSent := true }) /\
  wf { upd st1 with MessageStopSent := true }.
Proof.
  intros Hwf Hr Hs Hu. after_close st strict Hwf Hr. destruct H as [Ha Hwf1].
  destruct (Hu st1) as [Hp Hmap]. pose proof Hp as Hp'. unfold proto_of in Hp'. injection Hp' as Hi Ho Hst Hsp.
  pose proof (ready_steady _ _ _ Hr H0) as Hr1. split.
  - rewrite accepts_app, Ha. cbn [mbind option_bind]. rewrite <- Hp. apply accepts_closing.
    + intros Hstrict. rewrite Hst, Hsp. by apply Hr1.
    + congruence.
    + rewrite Hsp, (proj2 H0). exact Hs.
  - destruct Hwf1 as [Hn Hm]. split; [change (0 <= ContentBlockIndex (upd st1)); by rewrite Hi|].
    change (forall k v, OutputIndexToBlockIdx (upd st1) !! k = Some v -> 0 <= v /\
      (v < ContentBlockIndex (upd st1) \/ (v = ContentBlockIndex (upd st1) /\ ContentBlockOpen (upd st1) = true))).
    rewrite Hmap, Hi, Ho. exact Hm.
Qed.

Lemma take_usage_same u st :
  proto_of (take_usage u st) = proto_of st /\ OutputIndexToBlockIdx (take_usage u st) = OutputIndexToBlockIdx st
  /\ HasToolCall (take_usage u st) = HasToolCall st.
Proof. by destruct u. Qed.

Lemma Completed_sound strict evt : sound strict (resToAnthHandleCompleted evt).
Proof.
  intros st Hwf Hr. unfold resToAnthHandleCompleted. destruct (MessageStopSent st) eqn:Hs; [done|].
  pose proof (closing_sound strict (fun s => completed_stop_reason (rs_Response evt) (HasToolCall s))
    (fun s => take_usage (rs_Response evt ≫= rr_Usage) (take_usage (rs_Usage evt) s)) st Hwf Hr Hs) as H.
  destruct (closeCurrentBlock st) as [ce st1]. apply H. intros s.
  destruct (take_usage_same (rs_Usage evt) s) as (E1 & E2 & _).
  destruct (take_usage_same (rs_Response evt ≫= rr_Usage) (take_usage (rs_Usage evt) s)) as (E3 & E4 & _).
  by rewrite E3, E4.
Qed.

Lemma Finalize_sound strict : sound strict FinalizeResponsesAnthropicStream.
Proof.
  intros st Hwf Hr. unfold FinalizeResponsesAnthropicStream.
  destruct (MessageStartSent st); [|done]. destruct (MessageStopSent st) eqn:Hs; [done|]. simpl.
  pose proof (closing_sound strict (fun s => if HasToolCall s then "tool_use" else "end_turn") (fun s => s)
    st Hwf Hr Hs) as H.
  destruct (closeCurrentBlock st) as [ce st1]. by apply H.
Qed.

Lemma note_response_same resp st : wf st -> wf (note_response resp st) /\ proto_of (note_response resp st) = proto_of st.
Proof. by destruct resp. Qed.

Lemma Created_sound evt : sound false (resToAnthHandleCreated evt).
Proof.
  intros st Hwf _. unfold resToAnthHandleCreated.
  destruct (note_response_same (rs_Response evt) st Hwf) as [Hwf' <-].
  generalize dependent (note_response (rs_Response evt) st). intros s Hs.
  destruct (MessageStartSent s) eqn:E; [done|]. split; [|exact Hs].
  cbn [fst snd accepts]. unfold proto_step. simpl. rewrite E. simpl. done.
Qed.

(** [created]: the only event type the strict protocol wants first. *)
Definition is_created (e : ResponsesStreamEvent) : bool := String.eqb (rs_Type e) "response.created".

(** Case analysis on the dispatch of [ResponsesEventToAnthropicEvents]. *)
Ltac by_event_type :=
  unfold ResponsesEventToAnthropicEvents;
  repeat match goal with |- context [if ?b then _ else _] => destruct b eqn:? end.

Lemma handler_sound_loose evt : sound false (ResponsesEventToAnthropicEvents evt).
Proof.
  by_event_type; eauto using Created_sound, TextDelta_sound, FuncArgsDelta_sound, FuncArgsDone_sound,
    OutputItemDone_sound, ReasoningDelta_sound, Completed_sound, sound_nil.
  - intros st Hwf Hr. unfold resToAnthHandleOutputItemAdded. destruct (rs_Item evt) as [item|]; [|done].
    repeat split_if; [by apply addToolUse_sound|by apply addThinking_sound|done].
  - intros st Hwf Hr. unfold resToAnthHandleBlockDone. destruct (negb (ContentBlockOpen st)); [done|].
    by apply close_sound.
Qed.

(** A second [response.created] emits nothing, so the strict protocol holds of
    every event once the message is live. *)
Lemma handler_sound strict evt :
  strict = true -> sound strict (ResponsesEventToAnthropicEvents evt).
Proof.
  intros Hstrict. by_event_type; eauto using TextDelta_sound, FuncArgsDelta_sound, FuncArgsDone_sound,
    OutputItemDone_sound, ReasoningDelta_sound, Completed_sound, sound_nil.
  - intros st Hwf Hr. unfold resToAnthHandleCreated.
    destruct (note_response_same (rs_Response evt) st Hwf) as [Hwf' <-].
    assert (E : MessageStartSent (note_response (rs_Response evt) st) = true).
    { rewrite <- (proj1 (Hr Hstrict)). by destruct (rs_Response evt). }
    by rewrite E.
  - intros st Hwf Hr. unfold resToAnthHandleOutputItemAdded. destruct (rs_Item evt) as [item|]; [|done].
    repeat split_if; [by apply addToolUse_sound|by apply addThinking_sound|done].
  - intros st Hwf Hr. unfold resToAnthHandleBlockDone. destruct (negb (ContentBlockOpen st)); [done|].
    by apply close_sound.
Qed.

(** *** Events that do not end the stream keep the message live *)

Definition live (st : ResponsesEventToAnthropicState) : Prop :=
  MessageStartSent st = true /\ MessageStopSent st = false.

Lemma close_live st : live st -> live (closeCurrentBlock st).2.
Proof. unfold live. by destruct (close_steady st) as [-> ->]. Qed.

Lemma add_block_live upd b st :
  (forall st, live st -> live (upd st)) -> live st ->
  live ((events ← closeCurrentBlock; st ← get; _ ← modify upd;
         mret (events ++ [content_block_start (ContentBlockIndex st) b])) st).2.
Proof.
  intros Hu Hl. unfold_emits. pose proof (close_live st Hl).
  destruct (closeCurrentBlock st) as [ce st1]. simpl in *. auto.
Qed.

Lemma handler_live evt st :
  terminal_event evt = false -> live st -> live (ResponsesEventToAnthropicEvents evt st).2.
Proof.
  intros Ht Hl. pose proof (close_live st Hl) as Hc.
  assert (Hcl : live (resToAnthHandleBlockDone st).2).
  { unfold resToAnthHandleBlockDone. by destruct (negb _). }
  by_event_type; try done.
  - unfold resToAnthHandleCreated.
    assert (E : live (note_response (rs_Response evt) st)) by (by destruct (rs_Response evt)).
    destruct E as [E1 E2]. by rewrite E1.
  - unfold resToAnthHandleOutputItemAdded. destruct (rs_Item evt); [|done].
    repeat split_if; try done; by apply add_block_live.
  - unfold resToAnthHandleTextDelta. split_if; [done|]. unfold_emits.
    destruct (negb _ || negb _); simpl; [|done]. by destruct (closeCurrentBlock st).
  - unfold resToAnthHandleFuncArgsDelta. by repeat split_if.
  - unfold resToAnthHandleFuncArgsDone. destruct (ContentBlockOpen st); simpl; [|done].
    repeat (split_if; try done); by destruct (closeCurrentBlock st).
  - unfold resToAnthHandleOutputItemDone. destruct (rs_Item evt) as [item|]; [|done].
    split_if.
    + unfold resToAnthHandleWebSearchDone. unfold_emits. by destruct (closeCurrentBlock st).
    + assert (K : forall st', live st' -> live (if ContentBlockOpen st' then closeCurrentBlock st' else ([], st')).2).
      { intros st' H. split_if; [by apply close_live|done]. }
      destruct (String.eqb (ro_Type item) "reasoning" && _); by apply K.
  - unfold resToAnthHandleReasoningDelta. by repeat split_if.
  - exfalso. unfold terminal_event in Ht. simpl in Ht. rewrite orb_false_r in Ht.
    rewrite !orb_assoc in Ht. congruence.
Qed.

Lemma run_all_sound strict (h : ResponsesStreamEvent -> emits) evts st :
  (forall e s, e ∈ evts -> wf s -> ready strict s ->
     accepts strict (proto_of s) (h e s).1 = Some (proto_of (h e s).2) /\ wf (h e s).2 /\ ready strict (h e s).2) ->
  wf st -> ready strict st ->
  accepts strict (proto_of st) (run_all h evts st).1 = Some (proto_of (run_all h evts st).2) /\
  wf (run_all h evts st).2 /\ ready strict (run_all h evts st).2.
Proof.
  revert st. induction evts as [|e evts IH]; intros st Hh Hwf Hr; [done|].
  simpl. unfold_emits. destruct (Hh e st ltac:(left) Hwf Hr) as (Ha & Hw & Hr1).
  destruct (h e st) as [o st1]. simpl in *.
  destruct (IH st1) as (Ha2 & Hw2 & Hr2); [intros e' s Hin; apply Hh; by right|done|done|].
  destruct (run_all h evts st1) as [os st2]. simpl in *.
  rewrite accepts_app, Ha. done.
Qed.

Lemma New_wf t : wf (NewResponsesEventToAnthropicState t).
Proof. split; [done|]. intros k v H. simpl in H. by rewrite lookup_empty in H. Qed.

(** The end of a stream: the finaliser, or a terminal event and then nothing. *)
Lemma closing_shape strict sr upd st :
  wf st -> ready strict st -> MessageStopSent st = false ->
  (forall st, proto_of (upd st) = proto_of st /\ OutputIndexToBlockIdx (upd st) = OutputIndexToBlockIdx st) ->
  let '(events, st1) := closeCurrentBlock st in
  exists n, accepts strict (proto_of st) (events ++ [message_delta (sr (upd st1)) (upd st1); message_stop]) =
    Some (mkProto n false (MessageStartSent st) true).
Proof.
  intros Hwf Hr Hs Hu. pose proof (closing_sound strict sr upd st Hwf Hr Hs Hu) as H.
  pose proof (close_closed st) as Hc. pose proof (close_steady st) as [Hst _].
  destruct (closeCurrentBlock st) as [events st1]. simpl in *. destruct H as [H _].
  destruct (Hu st1) as [Hp _]. unfold proto_of in Hp. injection Hp as H1 H2 H3 H4.
  exists (ContentBlockIndex (upd st1)). etransitivity; [exact H|].
  transitivity (Some (mkProto (ContentBlockIndex (upd st1)) (ContentBlockOpen (upd st1))
                        (MessageStartSent (upd st1)) true)); [reflexivity|].
  by rewrite H2, H3, Hc, Hst.
Qed.

(** ** Texts *)

Definition texts (h : emits) (text : string) : Prop := forall st, text_of (h st).1 = text.

Lemma text_add_block upd b : texts (events ← closeCurrentBlock; st ← get; _ ← modify upd;
  mret (events ++ [content_block_start (ContentBlockIndex st) b])) "".
Proof.
  intros st. unfold_emits. pose proof (close_text st) as H. destruct (closeCurrentBlock st) as [ce st1].
  simpl in *. by rewrite text_of_app, H.
Qed.

Lemma handler_text evt :
  texts (ResponsesEventToAnthropicEvents evt)
    (if String.eqb (rs_Type evt) "response.output_text.delta" then rs_Delta evt else "").
Proof.
  intros st. pose proof (close_text st) as Hc.
  assert (Hbd : text_of (resToAnthHandleBlockDone st).1 = "").
  { unfold resToAnthHandleBlockDone. by destruct (negb _). }
  destruct (String.eqb_spec (rs_Type evt) "response.output_text.delta") as [E|Hne].
  - unfold ResponsesEventToAnthropicEvents. rewrite E. simpl. unfold resToAnthHandleTextDelta.
    destruct (String.eqb_spec (rs_Delta evt) "") as [->|]; [done|]. unfold_emits.
    destruct (negb _ || negb _); simpl; [|apply str_app_nil].
    destruct (closeCurrentBlock st) as [ce st1]. simpl in *.
    rewrite !text_of_app, Hc. apply str_app_nil.
  - by_event_type; try done; try (by destruct Hne; apply String.eqb_eq).
    + unfold resToAnthHandleCreated. by destruct (MessageStartSent _).
    + unfold resToAnthHandleOutputItemAdded. destruct (rs_Item evt); [|done].
      repeat split_if; try done; apply text_add_block.
    + unfold resToAnthHandleFuncArgsDelta. by repeat split_if.
    + unfold resToAnthHandleFuncArgsDone. destruct (ContentBlockOpen st); simpl; [|done].
      repeat (split_if; try done); by destruct (closeCurrentBlock st).
    + unfold resToAnthHandleOutputItemDone. destruct (rs_Item evt) as [item|]; [|done]. split_if.
      * unfold resToAnthHandleWebSearchDone. unfold_emits. destruct (closeCurrentBlock st). simpl in *.
        by rewrite text_of_app, Hc.
      * destruct (String.eqb (ro_Type item) "reasoning" && _); (split_if; [apply close_text|done]).
    + unfold resToAnthHandleReasoningDelta. by repeat split_if.
    + unfold resToAnthHandleCompleted. split_if; [done|].
      destruct (closeCurrentBlock st) as [ce st1]. simpl in *. by rewrite text_of_app, Hc.
Qed.

Lemma Finalize_text : texts FinalizeResponsesAnthropicStream "".
Proof.
  intros st. unfold FinalizeResponsesAnthropicStream. split_if; [done|].
  pose proof (close_text st) as Hc. destruct (closeCurrentBlock st). simpl in *. by rewrite text_of_app, Hc.
Qed.

Lemma convert_stream_eq evts st :
  convert_stream evts st =
  let r := run_all ResponsesEventToAnthropicEvents evts st in
  let f := FinalizeResponsesAnthropicStream r.2 in (r.1 ++ f.1, f.2).
Proof.
  unfold convert_stream. unfold_emits. destruct (run_all _ evts st) as [o s]. simpl.
  by destruct (FinalizeResponsesAnthropicStream s).
Qed.

(** [Finalize] closes a live message; after a stop it is silent. *)
Lemma Finalize_closes strict st :
  wf st -> ready strict st -> live st ->
  exists n, accepts strict (proto_of st) (FinalizeResponsesAnthropicStream st).1 = Some (mkProto n false true true).
Proof.
  intros Hwf Hr [Hst Hsp]. unfold FinalizeResponsesAnthropicStream. rewrite Hst, Hsp. simpl.
  pose proof (closing_shape strict (fun s => if HasToolCall s then "tool_use" else "end_turn") (fun s => s)
    st Hwf Hr Hsp) as H.
  rewrite Hst in H. destruct (closeCurrentBlock st). apply H. done.
Qed.

Lemma Completed_closes strict evt st :
  wf st -> ready strict st -> live st ->
  exists n, accepts strict (proto_of st) (resToAnthHandleCompleted evt st).1 = Some (mkProto n false true true) /\
            MessageStopSent (resToAnthHandleCompleted evt st).2 = true.
Proof.
  intros Hwf Hr [Hst Hsp]. unfold resToAnthHandleCompleted. rewrite Hsp.
  pose proof (closing_shape strict (fun s => completed_stop_reason (rs_Response evt) (HasToolCall s))
    (fun s => take_usage (rs_Response evt ≫= rr_Usage) (take_usage (rs_Usage evt) s)) st Hwf Hr Hsp) as H.
  rewrite Hst in H. destruct (closeCurrentBlock st) as [ce st1]. destruct H as [n H]; [|exists n; by split].
  intros s. destruct (take_usage_same (rs_Usage evt) s) as (E1 & E2 & _).
  destruct (take_usage_same (rs_Response evt ≫= rr_Usage) (take_usage (rs_Usage evt) s)) as (E3 & E4 & _).
  by rewrite E3, E4.
Qed.

Lemma terminal_dispatch evt st : terminal_event evt = true ->
  ResponsesEventToAnthropicEvents evt st = resToAnthHandleCompleted evt st.
Proof.
  unfold terminal_event, ResponsesEventToAnthropicEvents. simpl. rewrite orb_false_r. intros H.
  repeat (apply orb_true_iff in H as [H|H]); apply String.eqb_eq in H; by rewrite H.
Qed.

Lemma run_all_snoc {I O S} (h : I -> ST S (list O)) l x s :
  run_all h (l ++ [x]) s =
  let r := run_all h l s in ((r.1 ++ (h x r.2).1)%list, (h x r.2).2).
Proof.
  revert s. induction l as [|i l IH]; intros s; simpl; unfold_emits.
  - destruct (h x s). simpl. by rewrite app_nil_r.
  - destruct (h i s) as [o s1]. rewrite IH. simpl. destruct (run_all h l s1). simpl. by rewrite app_assoc.
Qed.

Lemma created_first c t : is_created c = true ->
  exists e0 s1, ResponsesEventToAnthropicEvents c (NewResponsesEventToAnthropicState t) = ([e0], s1) /\
    ae_Type e0 = "message_start" /\ live s1 /\ wf s1 /\ proto_of s1 = mkProto 0 false true false.
Proof.
  unfold is_created, ResponsesEventToAnthropicEvents. intros ->. unfold resToAnthHandleCreated.
  pose proof (New_wf t) as Hwf.
  destruct (rs_Response c) as [r|]; simpl; eexists _, _; by repeat split; try apply Hwf.
Qed.

Lemma stop_reasons_agree r model :
  Some (completed_stop_reason (Some r) (containsAnthropicToolUseBlock (flat_map itemBlocks (rr_Output r)))) =
  ar_StopReason (ResponsesToAnthropic r model).
Proof.
  unfold ResponsesToAnthropic, AnthropicStopReasonPtr. simpl. f_equal.
  unfold responsesStatusToAnthropicStopReason.
  destruct (flat_map itemBlocks (rr_Output r)) as [|b l]; reflexivity.
Qed.

(** ** Properties *)

(** C34: whatever the upstream sends, the events a client receives follow the
    block protocol: blocks are numbered consecutively from 0, one at a time is
    open, every stop closes the open block, text and signatures go to the open
    block, other deltas name a block that was started, at most one message_start
    and one message_stop are sent, and no block is open at the stop. *)
Theorem blocks_well_formed (evts : list ResponsesStreamEvent) (t : Z) :
  accepts false proto0 (convert_stream evts (NewResponsesEventToAnthropicState t)).1 =
  Some (proto_of (convert_stream evts (NewResponsesEventToAnthropicState t)).2).
Proof.
  rewrite convert_stream_eq. cbv zeta. simpl.
  destruct (run_all_sound false ResponsesEventToAnthropicEvents evts (NewResponsesEventToAnthropicState t))
    as (Ha & Hw & Hr); [|apply New_wf|done|].
  - intros e s _ Hwf Hr. destruct (handler_sound_loose e s Hwf Hr) as [H1 H2]. done.
  - change proto0 with (proto_of (NewResponsesEventToAnthropicState t)). rewrite accepts_app, Ha. simpl.
    by apply (Finalize_sound false).
Qed.

(** A stream that begins with response.created, whose terminal event comes
    last if it comes at all, is converted into a complete message: a
    message_start, then events of the strict protocol (no block event outside
    the message), and at the end the message is stopped with no block open. *)
Theorem complete_stream (c : ResponsesStreamEvent) (body tail : list ResponsesStreamEvent) (t : Z) :
  is_created c = true -> Forall (fun e => terminal_event e = false) body ->
  (tail = [] \/ exists e, tail = [e] /\ terminal_event e = true) ->
  exists e0 es n,
    (convert_stream (c :: body ++ tail) (NewResponsesEventToAnthropicState t)).1 = e0 :: es /\
    ae_Type e0 = "message_start" /\
    accepts true (mkProto 0 false true false) es = Some (mkProto n false true true).
Proof.
  intros Hc Hb Ht. rewrite convert_stream_eq. cbv zeta. simpl. unfold_emits.
  destruct (created_first c t Hc) as (e0 & s1 & -> & He0 & Hl1 & Hw1 & Hp1). simpl.
  destruct (run_all_sound true ResponsesEventToAnthropicEvents body s1) as (Ha & Hw & Hr); [|done|by intros _|].
  { intros e s Hin Hwf Hr. destruct (handler_sound true e eq_refl s Hwf Hr) as [H1 H2].
    split; [done|]. split; [done|]. intros _. apply handler_live; [|by apply Hr].
    rewrite Forall_forall in Hb. by apply Hb. }
  rewrite Hp1 in Ha.
  destruct (run_all ResponsesEventToAnthropicEvents body s1) as [out s2] eqn:Eb. simpl in Ha, Hw, Hr.
  destruct Ht as [->|(e & -> & He)].
  - rewrite app_nil_r, Eb. simpl.
    destruct (Finalize_closes true s2 Hw Hr (Hr eq_refl)) as [n Hn].
    eexists _, _, n. split; [reflexivity|]. split; [done|]. by rewrite accepts_app, Ha.
  - rewrite run_all_snoc, Eb. simpl. rewrite terminal_dispatch by done.
    destruct (Completed_closes true e s2 Hw Hr (Hr eq_refl)) as (n & Hn & Hs).
    assert (Hf : FinalizeResponsesAnthropicStream (resToAnthHandleCompleted e s2).2 =
                 ([], (resToAnthHandleCompleted e s2).2)).
    { unfold FinalizeResponsesAnthropicStream. by rewrite Hs, orb_true_r. }
    destruct (resToAnthHandleCompleted e s2) as [o s3]. simpl in *. rewrite Hf. simpl.
    eexists _, _, n. split; [reflexivity|]. split; [done|]. rewrite app_nil_r, accepts_app, Ha. done.
Qed.

Lemma complete_stream_witness :
  let ev ty d := { no_responses_event with rs_Type := ty; rs_Delta := d } in
  exists e0 es n,
    (convert_stream (ev "response.created" "" :: [ev "response.output_text.delta" "hi"] ++ [ev "response.completed" ""])
       (NewResponsesEventToAnthropicState 0)).1 = e0 :: es /\
    accepts true (mkProto 0 false true false) es = Some (mkProto n false true true).
Proof.
  intros ev.
  destruct (complete_stream (ev "response.created" "") [ev "response.output_text.delta" "hi"]
    [ev "response.completed" ""] 0) as (e0 & es & n & H1 & _ & H2).
  - reflexivity.
  - constructor; [reflexivity|constructor].
  - right. eexists. split; reflexivity.
  - exists e0, es, n. split; [exact H1|exact H2].
Defined.

(** No text is lost, repeated or reordered: the text deltas a client
    receives concatenate to the text deltas of the upstream, for every stream. *)
Theorem text_preserved (evts : list ResponsesStreamEvent) (t : Z) :
  text_of (convert_stream evts (NewResponsesEventToAnthropicState t)).1 = upstream_text evts.
Proof.
  rewrite convert_stream_eq. cbv zeta. simpl. rewrite text_of_app, Finalize_text, str_app_nil.
  generalize (NewResponsesEventToAnthropicState t). induction evts as [|e evts IH]; intros st; [done|].
  simpl. unfold_emits. pose proof (handler_text e st) as He.
  destruct (ResponsesEventToAnthropicEvents e st) as [o st1]. specialize (IH st1).
  destruct (run_all ResponsesEventToAnthropicEvents evts st1) as [os st2]. simpl in *.
  by rewrite text_of_app, He, IH.
Qed.

(** The terminal event of a stream and the whole-response conversion agree.
    When the stream saw a tool call exactly if the final response has a tool_use
    block, the closing message_delta carries the usage and the stop reason that
    [ResponsesToAnthropic] gives the response of the event. *)
Theorem stream_agrees_with_response evt st r u model :
  MessageStopSent st = false -> rs_Response evt = Some r -> rr_Usage r = Some u ->
  HasToolCall st = containsAnthropicToolUseBlock (flat_map itemBlocks (rr_Output r)) ->
  exists ces d,
    (resToAnthHandleCompleted evt st).1 = (ces ++ [d; message_stop])%list /\
    ae_Usage d = Some (ar_Usage (ResponsesToAnthropic r model)) /\
    (ad_StopReason <$> ae_Delta d) = ar_StopReason (ResponsesToAnthropic r model).
Proof.
  intros Hs Hr Hu Ht. unfold resToAnthHandleCompleted. rewrite Hs, Hr. simpl. rewrite Hu.
  assert (Hh : HasToolCall (closeCurrentBlock st).2 = HasToolCall st).
  { unfold closeCurrentBlock. by destruct (ContentBlockOpen st). }
  destruct (closeCurrentBlock st) as [ce st1]. simpl in Hh.
  eexists ce, _. split; [reflexivity|]. split.
  - unfold ResponsesToAnthropic. simpl. reflexivity.
  - etransitivity; [|exact (stop_reasons_agree r model)].
    change (Some (completed_stop_reason (Some r) (HasToolCall (take_usage (rs_Usage evt) st1))) =
            Some (completed_stop_reason (Some r) (containsAnthropicToolUseBlock (flat_map itemBlocks (rr_Output r))))).
    destruct (take_usage_same (rs_Usage evt) st1) as (_ & _ & ->). by rewrite Hh, Ht.
Qed.

Lemma stream_agrees_with_response_witness :
  let u := mkUsage 10 4 14 2 (Some (mkInputDetails 3 0 0 0)) None in
  let r := mkResponse "r" "response" "m" "completed" [] (Some u) "" None None in
  let evt := { no_responses_event with rs_Response := Some r } in
  exists ces d, (resToAnthHandleCompleted evt (NewResponsesEventToAnthropicState 0)).1 = (ces ++ [d; message_stop])%list
    /\ ae_Usage d = Some (ar_Usage (ResponsesToAnthropic r "m")).
Proof.
  intros u r evt.
  destruct (stream_agrees_with_response evt (NewResponsesEventToAnthropicState 0) r u "m") as (ces & d & H1 & H2 & _).
  - reflexivity.
  - reflexivity.
  - reflexivity.
  - reflexivity.
  - exists ces, d. split; [exact H1|exact H2].
Defined.

(** Token buckets.  The converted input count is never negative, whatever
    the upstream reports; and when the report is consistent (no negative count,
    cached and created tokens within the input) the three input buckets add up
    to the upstream's input, so no token is billed twice or dropped. *)
Theorem usage_buckets (u : ResponsesUsage) :
  let a := anthropicUsageFromResponsesUsage (Some u) in
  0 <= au_InputTokens a /\
  (0 <= au_CacheReadInputTokens a -> 0 <= ru_CacheCreationInputTokens u -> int64_ok (ru_InputTokens u) ->
   au_CacheReadInputTokens a + ru_CacheCreationInputTokens u <= ru_InputTokens u ->
   au_InputTokens a + au_CacheReadInputTokens a + au_CacheCreationInputTokens a = ru_InputTokens u).
Proof.
  simpl. set (c := match ru_InputTokensDetails u with Some d => it_CachedTokens d | None => 0 end).
  split; [destruct (_ <? 0) eqn:E; bool_to_prop; lia|]. intros Hc Hk [H1 H2] Hle.
  unfold int64_ok, min_int64, max_int64 in *.
  rewrite (wrap64_id (ru_InputTokens u - c)) by (unfold int64_ok, min_int64, max_int64; lia).
  rewrite wrap64_id by (unfold int64_ok, min_int64, max_int64; lia).
  destruct (_ <? 0) eqn:E; bool_to_prop; lia.
Qed.

Lemma usage_buckets_witness :
  let u := mkUsage 10 4 14 2 (Some (mkInputDetails 3 0 0 0)) None in
  au_InputTokens (anthropicUsageFromResponsesUsage (Some u)) + 3 + 2 = 10.
Proof.
  intros u. apply (proj2 (usage_buckets u)).
  - vm_compute. discriminate.
  - vm_compute. discriminate.
  - split; vm_compute; discriminate.
  - vm_compute. discriminate.
Defined.

(** A custom tool call survives only on the stream.  The streaming handler
    opens a tool_use block for an item of type custom_tool_call, whatever the
    state, but the whole-response conversion turns a response that consists of
    such items into one empty text block with stop reason end_turn. *)
Theorem custom_tool_call_dropped (evt : ResponsesStreamEvent) (item : ResponsesOutput) st resp model :
  rs_Item evt = Some item -> ro_Type item = "custom_tool_call" ->
  rr_Output resp = [item] -> rr_Status resp = "completed" ->
  (exists ces i b, (resToAnthHandleOutputItemAdded evt st).1 = (ces ++ [content_block_start i b])%list /\
     cb_Type b = "tool_use" /\ cb_Name b = ro_Name item) /\
  HasToolCall (resToAnthHandleOutputItemAdded evt st).2 = true /\
  ar_Content (ResponsesToAnthropic resp model) = [{ no_block with cb_Type := "text" }] /\
  ar_StopReason (ResponsesToAnthropic resp model) = Some "end_turn".
Proof.
  intros Hi Hty Ho Hs. unfold resToAnthHandleOutputItemAdded. rewrite Hi, Hty. simpl.
  unfold addToolUse. unfold_emits. destruct (closeCurrentBlock st) as [ce st1]. simpl.
  split; [by eexists _, _, _|]. split; [done|].
  unfold ResponsesToAnthropic. rewrite Ho, Hs. simpl. unfold itemBlocks. rewrite Hty. simpl. done.
Qed.

Lemma custom_tool_call_dropped_witness :
  let item := { no_output with ro_Type := "custom_tool_call"; ro_Name := "apply_patch"; ro_Input := "p" } in
  let resp := mkResponse "r" "response" "m" "completed" [item] None "" None None in
  ar_StopReason (ResponsesToAnthropic resp "m") = Some "end_turn".
Proof.
  intros item resp.
  destruct (custom_tool_call_dropped { no_responses_event with rs_Item := Some item } item
    (NewResponsesEventToAnthropicState 0) resp "m") as (_ & _ & _ & H).
  - reflexivity.
  - reflexivity.
  - reflexivity.
  - reflexivity.
  - exact H.
Defined.
