(* ===== verification/ResponsesStream.v ===== *)
(** * Anthropic Messages to Responses API ([pkg/apicompat/anthropic_to_responses_response.go])

    The conversion of a whole response and the stateful converter of a stream.
    [crypto/rand] is a parameter: [rand12 n] is the n-th 12-byte read, and the
    state counts the reads.  A handler is a state transformer that returns the
    events it emits.  Nil and empty slices are not told apart. *)

From S2P Require Import Prelude Sha256 ApiTypes AnthropicStream.

(** [anthropicStopReasonToResponsesStatus]; its second argument is not used. *)
Definition anthropicStopReasonToResponsesStatus (stopReason : string)
  (blocks : list AnthropicContentBlock) : string :=
  if String.eqb stopReason "max_tokens" then "incomplete" else "completed".

Definition anthropicResponsesStreamTerminalState (stopReason : string)
  : string * option ResponsesIncompleteDetails :=
  if String.eqb stopReason "max_tokens"
  then ("incomplete", Some (mkIncomplete "max_output_tokens"))
  else ("completed", None).

(** The usage block both conversions build. *)
Definition responsesUsageFromAnthropic (input output read creation : Z) : ResponsesUsage :=
  let totalInputTokens := wrap64 (wrap64 (input + read) + creation) in
  mkUsage totalInputTokens output (wrap64 (totalInputTokens + output)) creation
    (if 0 <? read then Some (mkInputDetails read 0 0 0) else None) None.

Record AnthropicEventToResponsesState := mkAR {
  s_ResponseID : string;
  s_Model : string;
  s_Created : Z;
  s_SequenceNumber : Z;
  s_CreatedSent : bool;
  s_CompletedSent : bool;
  s_OutputIndex : Z;
  s_CurrentItemID : string;
  s_CurrentItemType : string;
  s_ContentIndex : Z;
  s_TextAccum : string;
  s_CurrentCallID : string;
  s_CurrentName : string;
  s_CurrentContent : list ResponsesContentPart;
  s_CurrentArgs : string;
  s_CurrentSummary : string;
  s_Outputs : list ResponsesOutput;
  s_InputTokens : Z;
  s_OutputTokens : Z;
  s_CacheReadInputTokens : Z;
  s_CacheCreationInputTokens : Z;
  s_StopReason : string;
  s_RandReads : nat }.

Definition NewAnthropicEventToResponsesState (created : Z) : AnthropicEventToResponsesState :=
  mkAR "" "" created 0 false false 0 "" "" 0 "" "" "" [] "" "" [] 0 0 0 0 "" 0.

Definition sends := ST AnthropicEventToResponsesState (list ResponsesStreamEvent).

Definition makeResponsesEvent (eventType : string) (template : ResponsesStreamEvent)
  : ST AnthropicEventToResponsesState ResponsesStreamEvent := fun st =>
  ({ template with rs_Type := eventType; rs_SequenceNumber := s_SequenceNumber st },
   { st with s_SequenceNumber := s_SequenceNumber st + 1 }).

Definition makeResponsesCreatedEvent : ST AnthropicEventToResponsesState ResponsesStreamEvent := fun st =>
  makeResponsesEvent "response.created"
    { no_responses_event with
      rs_Response := Some (mkResponse (s_ResponseID st) "response" (s_Model st) "in_progress" [] None "" None None) }
    st.

Definition makeResponsesCompletedEvent (status : string) (details : option ResponsesIncompleteDetails)
  : ST AnthropicEventToResponsesState ResponsesStreamEvent := fun st =>
  let usage := responsesUsageFromAnthropic (s_InputTokens st) (s_OutputTokens st)
                 (s_CacheReadInputTokens st) (s_CacheCreationInputTokens st) in
  makeResponsesEvent (if String.eqb status "incomplete" then "response.incomplete" else "response.completed")
    { no_responses_event with
      rs_Response := Some (mkResponse (s_ResponseID st) "response" (s_Model st) status (s_Outputs st)
                             (Some usage) "" details None) } st.

(** The item [closeCurrentResponsesItem] assembles. *)
Definition currentItem (st : AnthropicEventToResponsesState) : ResponsesOutput :=
  let item := { no_output with ro_Type := s_CurrentItemType st; ro_ID := s_CurrentItemID st;
                               ro_Status := "completed" } in
  if String.eqb (s_CurrentItemType st) "message" then
    { item with ro_Role := "assistant"; ro_Content := s_CurrentContent st }
  else if String.eqb (s_CurrentItemType st) "function_call" then
    { item with ro_CallID := s_CurrentCallID st; ro_Name := s_CurrentName st;
                ro_Arguments := if String.eqb (s_CurrentArgs st) "" then "{}" else s_CurrentArgs st }
  else if String.eqb (s_CurrentItemType st) "reasoning" then
    if String.eqb (s_CurrentSummary st) "" then item
    else { item with ro_Summary := [mkSummary "summary_text" (s_CurrentSummary st)] }
  else item.

Definition closeCurrentResponsesItem : sends := fun st =>
  if String.eqb (s_CurrentItemType st) "" then ([], st)
  else
    let item := currentItem st in
    let st := { st with s_Outputs := (s_Outputs st ++ [item])%list;
                        s_CurrentItemType := ""; s_CurrentItemID := ""; s_CurrentCallID := "";
                        s_CurrentName := ""; s_CurrentContent := []; s_CurrentArgs := "";
                        s_CurrentSummary := ""; s_TextAccum := "";
                        s_OutputIndex := s_OutputIndex st + 1; s_ContentIndex := 0 } in
    (e ← makeResponsesEvent "response.output_item.done"
           { no_responses_event with rs_OutputIndex := s_OutputIndex st - 1; rs_Item := Some item };
     mret [e]) st.

Definition pos_or (new old : Z) : Z := if 0 <? new then new else old.

Definition note_message (message : option AnthropicResponse) (st : AnthropicEventToResponsesState)
  : AnthropicEventToResponsesState :=
  match message with
  | None => st
  | Some m =>
      { st with s_ResponseID := ar_ID m;
                s_Model := if String.eqb (s_Model st) "" then ar_Model m else s_Model st;
                s_InputTokens := pos_or (au_InputTokens (ar_Usage m)) (s_InputTokens st);
                s_CacheReadInputTokens := pos_or (au_CacheReadInputTokens (ar_Usage m)) (s_CacheReadInputTokens st);
                s_CacheCreationInputTokens :=
                  pos_or (au_CacheCreationInputTokens (ar_Usage m)) (s_CacheCreationInputTokens st) }
  end.

Definition anthToResHandleMessageStart (evt : AnthropicStreamEvent) : sends := fun st =>
  let st := note_message (ae_Message evt) st in
  if s_CreatedSent st then ([], st)
  else (e ← makeResponsesCreatedEvent; mret [e]) { st with s_CreatedSent := true }.

Definition anthToResHandleContentBlockDelta (evt : AnthropicStreamEvent) : sends := fun st =>
  match ae_Delta evt with
  | None => ([], st)
  | Some d =>
      if String.eqb (ad_Type d) "text_delta" then
        if String.eqb (ad_Text d) "" then ([], st)
        else (e ← makeResponsesEvent "response.output_text.delta"
                { no_responses_event with rs_OutputIndex := s_OutputIndex st; rs_ContentIndex := s_ContentIndex st;
                                          rs_Delta := ad_Text d; rs_ItemID := s_CurrentItemID st };
              mret [e]) { st with s_TextAccum := s_TextAccum st +:+ ad_Text d }
      else if String.eqb (ad_Type d) "thinking_delta" then
        if String.eqb (ad_Thinking d) "" then ([], st)
        else (e ← makeResponsesEvent "response.reasoning_summary_text.delta"
                { no_responses_event with rs_OutputIndex := s_OutputIndex st; rs_SummaryIndex := 0;
                                          rs_Delta := ad_Thinking d; rs_ItemID := s_CurrentItemID st };
              mret [e]) { st with s_CurrentSummary := s_CurrentSummary st +:+ ad_Thinking d }
      else if String.eqb (ad_Type d) "input_json_delta" then
        if String.eqb (ad_PartialJSON d) "" then ([], st)
        else (e ← makeResponsesEvent "response.function_call_arguments.delta"
                { no_responses_event with rs_OutputIndex := s_OutputIndex st; rs_Delta := ad_PartialJSON d;
                                          rs_ItemID := s_CurrentItemID st; rs_CallID := s_CurrentCallID st;
                                          rs_Name := s_CurrentName st };
              mret [e]) { st with s_CurrentArgs := s_CurrentArgs st +:+ ad_PartialJSON d }
      else ([], st)
  end.

Definition anthToResHandleContentBlockStop (evt : AnthropicStreamEvent) : sends := fun st =>
  if String.eqb (s_CurrentItemType st) "reasoning" then
    (e ← makeResponsesEvent "response.reasoning_summary_text.done"
           { no_responses_event with rs_OutputIndex := s_OutputIndex st; rs_SummaryIndex := 0;
                                     rs_ItemID := s_CurrentItemID st };
     es ← closeCurrentResponsesItem; mret (e :: es)) st
  else if String.eqb (s_CurrentItemType st) "function_call" then
    (e ← makeResponsesEvent "response.function_call_arguments.done"
           { no_responses_event with rs_OutputIndex := s_OutputIndex st; rs_ItemID := s_CurrentItemID st;
                                     rs_CallID := s_CurrentCallID st; rs_Name := s_CurrentName st };
     es ← closeCurrentResponsesItem; mret (e :: es)) st
  else if String.eqb (s_CurrentItemType st) "message" then
    let text := s_TextAccum st in
    let at_item := { no_responses_event with rs_OutputIndex := s_OutputIndex st;
                                             rs_ContentIndex := s_ContentIndex st;
                                             rs_ItemID := s_CurrentItemID st } in
    (e1 ← makeResponsesEvent "response.output_text.done" { at_item with rs_Text := text };
     e2 ← makeResponsesEvent "response.content_part.done" { at_item with rs_Part := Some (output_text text) };
     mret [e1; e2])
    { st with s_TextAccum := ""; s_CurrentContent := (s_CurrentContent st ++ [output_text text])%list }
  else ([], st).

Definition anthToResHandleMessageDelta (evt : AnthropicStreamEvent) : sends := fun st =>
  let st := match ae_Usage evt with
            | None => st
            | Some u =>
                { st with s_OutputTokens := au_OutputTokens u;
                          s_InputTokens := pos_or (au_InputTokens u) (s_InputTokens st);
                          s_CacheReadInputTokens := pos_or (au_CacheReadInputTokens u) (s_CacheReadInputTokens st);
                          s_CacheCreationInputTokens :=
                            pos_or (au_CacheCreationInputTokens u) (s_CacheCreationInputTokens st) }
            end in
  ([], match ae_Delta evt with
       | Some d => if String.eqb (ad_StopReason d) "" then st else { st with s_StopReason := ad_StopReason d }
       | None => st
       end).

(** Close the open item and send the terminal event. *)
Definition finishResponses : sends :=
  events ← closeCurrentResponsesItem;
  st ← get;
  let '(status, details) := anthropicResponsesStreamTerminalState (s_StopReason st) in
  e ← makeResponsesCompletedEvent status details;
  _ ← modify (fun st => { st with s_CompletedSent := true });
  mret (events ++ [e])%list.

Definition anthToResHandleMessageStop : sends := fun st =>
  if s_CompletedSent st then ([], st) else finishResponses st.

Definition FinalizeAnthropicResponsesStream : sends := fun st =>
  if negb (s_CreatedSent st) || s_CompletedSent st then ([], st) else finishResponses st.

Section Converter.
Variable rand12 : nat -> list Z.

Definition generateItemID : ST AnthropicEventToResponsesState string := fun st =>
  ("item_" +:+ hex_EncodeToString (rand12 (s_RandReads st)), { st with s_RandReads := S (s_RandReads st) }).

(** The three cases of [anthToResHandleContentBlockStart]. *)
Definition startThinking : sends :=
  id ← generateItemID;
  _ ← modify (fun st => { st with s_CurrentItemID := id; s_CurrentItemType := "reasoning"; s_ContentIndex := 0 });
  st ← get;
  e ← makeResponsesEvent "response.output_item.added"
        { no_responses_event with rs_OutputIndex := s_OutputIndex st;
                                  rs_Item := Some { no_output with ro_Type := "reasoning"; ro_ID := id } };
  mret [e].

Definition openMessage : sends :=
  id ← generateItemID;
  _ ← modify (fun st => { st with s_CurrentItemID := id; s_CurrentItemType := "message"; s_ContentIndex := 0 });
  st ← get;
  e ← makeResponsesEvent "response.output_item.added"
        { no_responses_event with rs_OutputIndex := s_OutputIndex st;
                                  rs_Item := Some { no_output with ro_Type := "message"; ro_ID := id;
                                                    ro_Role := "assistant"; ro_Status := "in_progress" } };
  mret [e].

Definition startText : sends :=
  st0 ← get;
  events ← (if negb (String.eqb (s_CurrentItemType st0) "message") then openMessage else mret []);
  st ← get;
  e ← makeResponsesEvent "response.content_part.added"
        { no_responses_event with rs_OutputIndex := s_OutputIndex st; rs_ContentIndex := s_ContentIndex st;
                                  rs_ItemID := s_CurrentItemID st; rs_Part := Some (output_text "") };
  _ ← modify (fun st => { st with s_TextAccum := "" });
  mret (events ++ [e])%list.

Definition startToolUse (block : AnthropicContentBlock) : sends :=
  events ← closeCurrentResponsesItem;
  id ← generateItemID;
  _ ← modify (fun st => { st with s_CurrentItemID := id; s_CurrentItemType := "function_call";
                                  s_CurrentCallID := toResponsesCallID (cb_ID block);
                                  s_CurrentName := cb_Name block });
  st ← get;
  e ← makeResponsesEvent "response.output_item.added"
        { no_responses_event with rs_OutputIndex := s_OutputIndex st;
                                  rs_Item := Some { no_output with ro_Type := "function_call"; ro_ID := id;
                                                    ro_CallID := s_CurrentCallID st; ro_Name := s_CurrentName st;
                                                    ro_Status := "in_progress" } };
  mret (events ++ [e])%list.

Definition anthToResHandleContentBlockStart (evt : AnthropicStreamEvent) : sends :=
  match ae_ContentBlock evt with
  | None => mret []
  | Some b =>
      if String.eqb (cb_Type b) "thinking" then startThinking
      else if String.eqb (cb_Type b) "text" then startText
      else if String.eqb (cb_Type b) "tool_use" then startToolUse b
      else mret []
  end.

Definition AnthropicEventToResponsesEvents (evt : AnthropicStreamEvent) : sends :=
  let ty := String.eqb (ae_Type evt) in
  if ty "message_start" then anthToResHandleMessageStart evt
  else if ty "content_block_start" then anthToResHandleContentBlockStart evt
  else if ty "content_block_delta" then anthToResHandleContentBlockDelta evt
  else if ty "content_block_stop" then anthToResHandleContentBlockStop evt
  else if ty "message_delta" then anthToResHandleMessageDelta evt
  else if ty "message_stop" then anthToResHandleMessageStop
  else mret [].

Definition convert (evts : list AnthropicStreamEvent) : sends :=
  out ← run_all AnthropicEventToResponsesEvents evts;
  fin ← FinalizeAnthropicResponsesStream;
  mret (out ++ fin)%list.

(** ** Whole responses *)

(** [generateItemID] with the counter of reads alone. *)
Definition nextItemID : ST nat string := fun n => ("item_" +:+ hex_EncodeToString (rand12 n), S n).
Definition generateResponsesID : ST nat string := fun n => ("resp_" +:+ hex_EncodeToString (rand12 n), S n).

(** One step of the loop over [resp.Content]: outputs and message parts. *)
Definition blockOutputs (block : AnthropicContentBlock)
  : ST nat (list ResponsesOutput * list ResponsesContentPart) :=
  if String.eqb (cb_Type block) "thinking" then
    if String.eqb (cb_Thinking block) "" then mret ([], [])
    else id ← nextItemID;
         mret ([{ no_output with ro_Type := "reasoning"; ro_ID := id;
                                 ro_Summary := [mkSummary "summary_text" (cb_Thinking block)] }], [])
  else if String.eqb (cb_Type block) "text" then
    mret ([], if String.eqb (cb_Text block) "" then [] else [output_text (cb_Text block)])
  else if String.eqb (cb_Type block) "tool_use" then
    id ← nextItemID;
    mret ([{ no_output with ro_Type := "function_call"; ro_ID := id;
                            ro_CallID := toResponsesCallID (cb_ID block); ro_Name := cb_Name block;
                            ro_Arguments := if String.eqb (cb_Input block) "" then "{}" else cb_Input block;
                            ro_Status := "completed" }], [])
  else mret ([], []).

Fixpoint contentOutputs (blocks : list AnthropicContentBlock)
  : ST nat (list ResponsesOutput * list ResponsesContentPart) :=
  match blocks with
  | [] => mret ([], [])
  | b :: bs => p ← blockOutputs b; q ← contentOutputs bs; mret ((p.1 ++ q.1)%list, (p.2 ++ q.2)%list)
  end.

Definition messageItem (id : string) (parts : list ResponsesContentPart) : ResponsesOutput :=
  { no_output with ro_Type := "message"; ro_ID := id; ro_Role := "assistant"; ro_Content := parts;
                   ro_Status := "completed" }.

Definition AnthropicToResponsesResponse (resp : AnthropicResponse) : ST nat ResponsesResponse :=
  id ← (if String.eqb (ar_ID resp) "" then generateResponsesID else mret (ar_ID resp));
  p ← contentOutputs (ar_Content resp);
  outputs ← (match p.2 with
             | [] => mret p.1
             | parts => mid ← nextItemID; mret (p.1 ++ [messageItem mid parts])%list
             end);
  outputs ← (match outputs with
             | [] => mid ← nextItemID; mret [messageItem mid [output_text ""]]
             | _ => mret outputs
             end);
  let status := anthropicStopReasonToResponsesStatus (AnthropicStopReasonString (ar_StopReason resp))
                  (ar_Content resp) in
  let u := ar_Usage resp in
  mret (mkResponse id "response" (ar_Model resp) status outputs
          (Some (responsesUsageFromAnthropic (au_InputTokens u) (au_OutputTokens u)
                   (au_CacheReadInputTokens u) (au_CacheCreationInputTokens u))) ""
          (if String.eqb status "incomplete" then Some (mkIncomplete "max_output_tokens") else None) None).
End Converter.

(** ** What a client of the event stream relies on

    A [phase] is what the client has seen: the finished items, the name of the item
    that is open, whether response.created and the terminal event were sent.
    [follows p e p']: the event may come in this phase and leads to that one; in a
    [trace] the events also carry consecutive numbers. *)
Definition is_terminal (e : ResponsesStreamEvent) : bool :=
  String.eqb (rs_Type e) "response.completed" || String.eqb (rs_Type e) "response.incomplete".
(** Type, id, call id and function name of an item. *)
Record itemName := mkItemName { in_Type : string; in_ID : string; in_CallID : string; in_Name : string }.
Definition nameOf (it : ResponsesOutput) : itemName := mkItemName (ro_Type it) (ro_ID it) (ro_CallID it) (ro_Name it).
Record phase := mkPhase { ph_Outputs : list ResponsesOutput; ph_Open : option itemName; ph_Created : bool; ph_Ended : bool }.
Definition openID (p : phase) : string := default "" (in_ID <$> ph_Open p).
Definition nextIndex (p : phase) : Z := Z.of_nat (length (ph_Outputs p)).
Definition partEvents : list string :=
  ["response.content_part.added"; "response.output_text.delta"; "response.output_text.done"; "response.content_part.done";
   "response.reasoning_summary_text.delta"; "response.reasoning_summary_text.done";
   "response.function_call_arguments.delta"; "response.function_call_arguments.done"].

Inductive follows (p : phase) (e : ResponsesStreamEvent) : phase -> Prop :=
| follow_created :
    rs_Type e = "response.created" -> ph_Created p = false ->
    follows p e (mkPhase (ph_Outputs p) (ph_Open p) true (ph_Ended p))
| follow_added it :
    rs_Type e = "response.output_item.added" -> rs_Item e = Some it -> rs_OutputIndex e = nextIndex p ->
    ro_Type it = "function_call" /\ ph_Open p = None \/ ro_Type it = "message" \/ ro_Type it = "reasoning" ->
    follows p e (mkPhase (ph_Outputs p) (Some (nameOf it)) (ph_Created p) (ph_Ended p))
| follow_part :
    existsb (String.eqb (rs_Type e)) partEvents = true -> rs_OutputIndex e = nextIndex p -> rs_ItemID e = openID p -> follows p e p
| follow_done it :
    rs_Type e = "response.output_item.done" -> rs_Item e = Some it -> rs_OutputIndex e = nextIndex p ->
    ph_Open p = Some (nameOf it) -> ro_Status it = "completed" ->
    follows p e (mkPhase (ph_Outputs p ++ [it])%list None (ph_Created p) (ph_Ended p))
| follow_terminal r :
    is_terminal e = true -> rs_Response e = Some r -> rr_Output r = ph_Outputs p -> ph_Open p = None -> ph_Ended p = false ->
    follows p e (mkPhase (ph_Outputs p) None (ph_Created p) true).
Inductive trace : Z -> phase -> list ResponsesStreamEvent -> Z -> phase -> Prop :=
| trace_nil n p : trace n p [] n p
| trace_cons n p e p1 es n' p' :
    rs_SequenceNumber e = n -> follows p e p1 -> trace (n + 1) p1 es n' p' -> trace n p (e :: es) n' p'.
Definition freshPhase : phase := mkPhase [] None false false.
(** The upstream sends nothing after its message_stop. *)
Definition endsAtStop (evts : list AnthropicStreamEvent) : Prop :=
  Forall (fun e => ae_Type e <> "message_stop") (removelast evts).

Definition reply_text (e : ResponsesStreamEvent) : string :=
  if String.eqb (rs_Type e) "response.output_text.delta" then rs_Delta e else "".
Fixpoint replied_text (es : list ResponsesStreamEvent) : string :=
  match es with [] => "" | e :: es' => reply_text e +:+ replied_text es' end.

(** ** Lemmas *)

Create HintDb responses.

Lemma trace_app n p es n1 p1 fs n2 p2 : trace n p es n1 p1 -> trace n1 p1 fs n2 p2 -> trace n p (es ++ fs)%list n2 p2.
Proof. induction 1; intros; simpl; eauto using trace. Qed.

(** The phase a state is in, and the invariant of the converter. *)
Definition openItem (st : AnthropicEventToResponsesState) : option itemName :=
  if String.eqb (s_CurrentItemType st) "" then None
  else Some (if String.eqb (s_CurrentItemType st) "function_call"
             then mkItemName (s_CurrentItemType st) (s_CurrentItemID st) (s_CurrentCallID st) (s_CurrentName st)
             else mkItemName (s_CurrentItemType st) (s_CurrentItemID st) "" "").
Definition phaseOf (st : AnthropicEventToResponsesState) : phase :=
  mkPhase (s_Outputs st) (openItem st) (s_CreatedSent st) (s_CompletedSent st).
Definition tracks (st : AnthropicEventToResponsesState) (es : list ResponsesStreamEvent)
  (st' : AnthropicEventToResponsesState) : Prop :=
  trace (s_SequenceNumber st) (phaseOf st) es (s_SequenceNumber st') (phaseOf st').
Definition state_ok (st : AnthropicEventToResponsesState) : Prop :=
  s_OutputIndex st = Z.of_nat (length (s_Outputs st)) /\ s_ContentIndex st = 0 /\
  (s_CurrentItemType st = "" -> s_CurrentItemID st = "").
Lemma state_ok_id st : state_ok st -> s_CurrentItemID st = openID (phaseOf st).
Proof.
  intros (_ & _ & H). unfold openID, phaseOf, openItem. simpl. destruct (String.eqb_spec (s_CurrentItemType st) ""); [by apply H|].
  by destruct (String.eqb _ "function_call").
Qed.
Lemma currentItem_open st : s_CurrentItemType st <> "" -> openItem st = Some (nameOf (currentItem st)).
Proof.
  intros H. unfold openItem, currentItem. apply String.eqb_neq in H. rewrite H.
  destruct (String.eqb_spec (s_CurrentItemType st) "message") as [->|]; [done|].
  destruct (String.eqb_spec (s_CurrentItemType st) "function_call") as [->|]; [done|].
  by destruct (String.eqb _ "reasoning"), (String.eqb (s_CurrentSummary st) "").
Qed.
Lemma currentItem_status st : ro_Status (currentItem st) = "completed".
Proof. unfold currentItem. by repeat split_if. Qed.
Definition at_zero (es : list ResponsesStreamEvent) : Prop := Forall (fun e => rs_ContentIndex e = 0) es.

Definition well_sent (h : sends) : Prop := forall st, state_ok st ->
  tracks st (h st).1 (h st).2 /\ state_ok (h st).2 /\ at_zero (h st).1.

Ltac unfold_sends := unfold mbind, ST_bind, mret, ST_ret, get, modify, makeResponsesEvent,
  makeResponsesCreatedEvent, makeResponsesCompletedEvent, generateItemID; simpl.
Lemma trace_length n p es n' p' : trace n p es n' p' -> n' = n + Z.of_nat (length es).
Proof. induction 1; simpl; lia. Qed.
Lemma trace_part n p e es n' p' :
  rs_SequenceNumber e = n -> existsb (String.eqb (rs_Type e)) partEvents = true -> rs_OutputIndex e = nextIndex p ->
  rs_ItemID e = openID p -> trace (n + 1) p es n' p' -> trace n p (e :: es) n' p'.
Proof. intros. eapply trace_cons; [done| |done]. by apply follow_part. Qed.
Lemma trace_one n p e p' : rs_SequenceNumber e = n -> follows p e p' -> trace n p [e] (n + 1) p'.
Proof. intros. eapply trace_cons; [done..|constructor]. Qed.
Lemma follows_added p e it p' :
  rs_Type e = "response.output_item.added" -> rs_Item e = Some it -> rs_OutputIndex e = nextIndex p ->
  ro_Type it = "function_call" /\ ph_Open p = None \/ ro_Type it = "message" \/ ro_Type it = "reasoning" ->
  p' = mkPhase (ph_Outputs p) (Some (nameOf it)) (ph_Created p) (ph_Ended p) -> follows p e p'.
Proof. intros ? ? ? ? ->. by eapply follow_added. Qed.
(** A handler that sends parts of the open item, or nothing. *)
Ltac plain Hok := pose proof (state_ok_id _ Hok); destruct Hok as (Ho & Hc & Hi);
  split; [unfold tracks; simpl; repeat (apply trace_part; [done|done|exact Ho|done|]); constructor
         |split; [by split_and!|unfold at_zero; repeat constructor; by simpl]].

Lemma close_well_sent : well_sent closeCurrentResponsesItem.
Proof.
  intros st Hok. unfold closeCurrentResponsesItem. destruct (String.eqb_spec (s_CurrentItemType st) "") as [|Ht]; [plain Hok|].
  destruct Hok as (Ho & Hc & _). unfold_sends. split; [|split; [|by repeat constructor]].
  - apply trace_one; [done|]. apply (follow_done (phaseOf st) _ (currentItem st)); simpl; [done|done| |by apply currentItem_open|apply currentItem_status].
    unfold nextIndex. simpl. lia.
  - split_and!; [simpl|done|done]. rewrite length_app. simpl. lia.
Qed.
Lemma close_closes st : s_CurrentItemType (closeCurrentResponsesItem st).2 = "".
Proof. unfold closeCurrentResponsesItem. by destruct (String.eqb_spec (s_CurrentItemType st) ""). Qed.
Lemma close_sent st : s_CompletedSent (closeCurrentResponsesItem st).2 = s_CompletedSent st /\
  s_CreatedSent (closeCurrentResponsesItem st).2 = s_CreatedSent st.
Proof. unfold closeCurrentResponsesItem. by destruct (String.eqb _ ""). Qed.

Lemma finish_well_sent st : state_ok st -> s_CompletedSent st = false ->
  tracks st (finishResponses st).1 (finishResponses st).2 /\ state_ok (finishResponses st).2 /\
  at_zero (finishResponses st).1 /\ s_CompletedSent (finishResponses st).2 = true.
Proof.
  intros Hok Hc. unfold finishResponses. unfold_sends.
  destruct (close_well_sent st Hok) as (Ht & Hok1 & Hz). destruct (close_sent st) as [Hc1 _]. pose proof (close_closes st) as Hcl.
  destruct (closeCurrentResponsesItem st) as [es st1]. simpl in *. rewrite Hc in Hc1.
  assert (E : exists status details, anthropicResponsesStreamTerminalState (s_StopReason st1) = (status, details)
            /\ (status = "incomplete" \/ status = "completed")).
  { unfold anthropicResponsesStreamTerminalState. destruct (String.eqb _ _); eauto. }
  destruct E as (status & details & -> & Hst). simpl.
  split; [|split; [by destruct Hok1|split; [|done]]].
  - unfold tracks in *. eapply trace_app; [exact Ht|].
    assert (Hop : openItem st1 = None) by (unfold openItem; by rewrite Hcl).
    apply (trace_one _ _ _ (mkPhase (s_Outputs st1) (openItem st1) (s_CreatedSent st1) true)); [done|]. rewrite Hop.
    by eapply (follow_terminal (phaseOf st1)); [destruct Hst as [->| ->]|..].
  - apply Forall_app_2; [done|by repeat constructor].
Qed.

Section ConverterFacts.
Variable rand12 : nat -> list Z.

Lemma Start_well_sent evt : well_sent (anthToResHandleContentBlockStart rand12 evt).
Proof.
  intros st Hok. unfold anthToResHandleContentBlockStart. destruct (ae_ContentBlock evt) as [b|]; [|plain Hok].
  destruct (String.eqb (cb_Type b) "thinking").
  { destruct Hok as (Ho & Hc & Hi). unfold startThinking. unfold_sends. split; [|split; [by split_and!|by repeat constructor]].
    apply trace_one; [done|]. eapply follows_added; [done|done|done|auto|done]. }
  destruct (String.eqb (cb_Type b) "text").
  { unfold startText, openMessage. unfold_sends. destruct (String.eqb_spec (s_CurrentItemType st) "message") as [E|E]; simpl; unfold_sends; [plain Hok|].
    destruct Hok as (Ho & Hc & Hi). split; [|split; [by split_and!|by repeat constructor]].
    eapply trace_cons; [done|eapply follows_added; [done|done|done|auto|done]|]. by apply trace_part; [..|constructor]. }
  destruct (String.eqb (cb_Type b) "tool_use"); [|plain Hok].
  unfold startToolUse. unfold_sends. destruct (close_well_sent st Hok) as (Ht & (Ho1 & Hc1 & _) & Hz). pose proof (close_closes st) as Hcl.
  destruct (closeCurrentResponsesItem st) as [es st1]. simpl in *.
  split; [|split; [by split_and!|by apply Forall_app_2; [|repeat constructor]]].
  unfold tracks in *. simpl in *. eapply trace_app; [exact Ht|]. apply trace_one; [done|].
  eapply follows_added; [done|done|done| |done]. left. split; [done|]. simpl. unfold openItem. by rewrite Hcl.
Qed.

Lemma Stop_well_sent evt : well_sent (anthToResHandleContentBlockStop evt).
Proof.
  intros st Hok. pose proof (state_ok_id st Hok) as Hid. unfold anthToResHandleContentBlockStop.
  assert (K : forall e st', rs_SequenceNumber e = s_SequenceNumber st -> s_SequenceNumber st' = s_SequenceNumber st + 1 ->
    existsb (String.eqb (rs_Type e)) partEvents = true -> rs_OutputIndex e = s_OutputIndex st -> rs_ItemID e = s_CurrentItemID st ->
    rs_ContentIndex e = 0 -> state_ok st' -> phaseOf st' = phaseOf st ->
    let r := (let '(es, s) := closeCurrentResponsesItem st' in (e :: es, s)) in
    tracks st r.1 r.2 /\ state_ok r.2 /\ at_zero r.1).
  { intros e st' Hn Hs Hp Hx Hi Hz Hok' Hph. destruct (close_well_sent st' Hok') as (Htr & Hok1 & Hz1).
    destruct (closeCurrentResponsesItem st') as [es s]. simpl in *.
    split; [|split; [done|by constructor]]. unfold tracks in *. rewrite Hs, Hph in Htr.
    apply trace_part; [done|done|rewrite Hx; apply Hok|by rewrite Hi|done]. }
  destruct (String.eqb (s_CurrentItemType st) "reasoning").
  { unfold_sends. by apply K. }
  destruct (String.eqb (s_CurrentItemType st) "function_call").
  { unfold_sends. by apply K. }
  destruct (String.eqb (s_CurrentItemType st) "message"); [|plain Hok]. unfold_sends. plain Hok.
Qed.

Lemma note_message_keeps m st : phaseOf (note_message m st) = phaseOf st /\
  s_SequenceNumber (note_message m st) = s_SequenceNumber st /\ (state_ok st -> state_ok (note_message m st)).
Proof. by destruct m. Qed.
Lemma Delta_well_sent evt : well_sent (anthToResHandleContentBlockDelta evt).
Proof.
  intros st Hok. unfold anthToResHandleContentBlockDelta.
  repeat (split_if; unfold_sends; try plain Hok).
Qed.

Lemma handler_well_sent evt : well_sent (AnthropicEventToResponsesEvents rand12 evt).
Proof.
  unfold AnthropicEventToResponsesEvents.
  repeat match goal with |- context [if ?b then _ else _] => destruct b end;
    eauto using Start_well_sent, Stop_well_sent, Delta_well_sent.
  - intros st Hok. unfold anthToResHandleMessageStart.
    destruct (note_message_keeps (ae_Message evt) st) as (Ep & En & Hn). specialize (Hn Hok). set (st1 := note_message _ st) in *.
    destruct (s_CreatedSent st1) eqn:Ec; unfold_sends; unfold tracks; rewrite <- Ep, <- En;
      (split; [|split; [by destruct Hn|by repeat constructor]]); [constructor|].
    apply trace_one; [done|]. by apply (follow_created (phaseOf st1)).
  - intros st Hok. unfold anthToResHandleMessageDelta.
    destruct (ae_Usage evt); destruct (ae_Delta evt); simpl; repeat split_if; plain Hok.
  - intros st Hok. unfold anthToResHandleMessageStop. destruct (s_CompletedSent st) eqn:Hs.
    + plain Hok.
    + by destruct (finish_well_sent st Hok Hs) as (H1 & H2 & H3 & _).
  - intros st Hok. plain Hok.
Qed.

Lemma Finalize_well_sent : well_sent FinalizeAnthropicResponsesStream.
Proof.
  intros st Hok. unfold FinalizeAnthropicResponsesStream. destruct (s_CompletedSent st) eqn:Hs.
  - rewrite orb_true_r. plain Hok.
  - rewrite orb_false_r. destruct (s_CreatedSent st); simpl; [|plain Hok].
    by destruct (finish_well_sent st Hok Hs) as (H1 & H2 & H3 & _).
Qed.

Lemma run_all_well_sent evts : well_sent (run_all (AnthropicEventToResponsesEvents rand12) evts).
Proof.
  induction evts as [|e evts IH]; intros st Hok; [plain Hok|].
  simpl. unfold mbind, ST_bind, mret, ST_ret. destruct (handler_well_sent e st Hok) as (H1 & H2 & H3).
  destruct (AnthropicEventToResponsesEvents rand12 e st) as [o st1]. simpl in *.
  destruct (IH st1 H2) as (H4 & H5 & H6).
  destruct (run_all _ evts st1) as [os st2]. simpl in *.
  split; [by eapply trace_app|]. split; [done|by apply Forall_app_2].
Qed.

Lemma convert_well_sent evts : well_sent (convert rand12 evts).
Proof.
  intros st Hok. unfold convert, mbind, ST_bind, mret, ST_ret.
  destruct (run_all_well_sent evts st Hok) as (H1 & H2 & H3).
  destruct (run_all _ evts st) as [o st1]. simpl in *.
  destruct (Finalize_well_sent st1 H2) as (H4 & H5 & H6).
  destruct (FinalizeAnthropicResponsesStream st1) as [os st2]. simpl in *.
  split; [by eapply trace_app|]. split; [done|by apply Forall_app_2].
Qed.

Lemma New_ok t : state_ok (NewAnthropicEventToResponsesState t).
Proof. done. Qed.
End ConverterFacts.

Section ConverterMore.
Variable rand12 : nat -> list Z.

(** A started message stays started, and its end is sent. *)
Definition keeps_created (h : sends) : Prop :=
  forall st, s_CreatedSent st = true -> s_CreatedSent (h st).2 = true.

Lemma finish_created : keeps_created finishResponses.
Proof.
  intros st H. unfold finishResponses. unfold_sends. destruct (close_sent st) as [_ Hc].
  destruct (closeCurrentResponsesItem st) as [es st1]. simpl in *.
  unfold anthropicResponsesStreamTerminalState. destruct (String.eqb _ _); simpl; exact (eq_trans Hc H).
Qed.

Lemma handler_created evt : keeps_created (AnthropicEventToResponsesEvents rand12 evt).
Proof.
  intros st H. unfold AnthropicEventToResponsesEvents. destruct (close_sent st) as [_ Hcl].
  repeat match goal with |- context [if ?b then _ else _] => destruct b end; try done.
  - unfold anthToResHandleMessageStart.
    assert (E : s_CreatedSent (note_message (ae_Message evt) st) = true) by (by destruct (ae_Message evt)).
    by rewrite E.
  - unfold anthToResHandleContentBlockStart. destruct (ae_ContentBlock evt) as [b|]; [|done].
    destruct (String.eqb (cb_Type b) "thinking"); [by unfold startThinking; unfold_sends|].
    destruct (String.eqb (cb_Type b) "text").
    { unfold startText, openMessage. unfold_sends. destruct (negb _); by unfold_sends. }
    destruct (String.eqb (cb_Type b) "tool_use"); [|done].
    unfold startToolUse. unfold_sends. destruct (closeCurrentResponsesItem st). simpl in *. exact (eq_trans Hcl H).
  - unfold anthToResHandleContentBlockDelta. repeat (split_if; unfold_sends; try done).
  - unfold anthToResHandleContentBlockStop.
    assert (K : forall e st', s_CreatedSent st' = true ->
      s_CreatedSent (let '(es, s) := closeCurrentResponsesItem st' in (e :: es : list ResponsesStreamEvent, s)).2 = true).
    { intros e st' H'. destruct (close_sent st') as [_ E]. destruct (closeCurrentResponsesItem st'). simpl in *. exact (eq_trans E H'). }
    destruct (String.eqb _ "reasoning"); [unfold_sends; by apply K|].
    destruct (String.eqb _ "function_call"); [unfold_sends; by apply K|].
    destruct (String.eqb _ "message"); by unfold_sends.
  - unfold anthToResHandleMessageDelta. destruct (ae_Usage evt), (ae_Delta evt); simpl; by repeat split_if.
  - unfold anthToResHandleMessageStop. split_if; [done|by apply finish_created].
Qed.

Lemma run_all_created evts : keeps_created (run_all (AnthropicEventToResponsesEvents rand12) evts).
Proof.
  induction evts as [|e evts IH]; intros st H; [done|]. simpl. unfold mbind, ST_bind, mret, ST_ret.
  pose proof (handler_created e st H) as H1.
  destruct (AnthropicEventToResponsesEvents rand12 e st) as [o st1]. simpl in *.
  specialize (IH st1 H1). by destruct (run_all _ evts st1).
Qed.

Lemma run_all_starts evts st :
  Exists (fun e => ae_Type e = "message_start") evts ->
  s_CreatedSent (run_all (AnthropicEventToResponsesEvents rand12) evts st).2 = true.
Proof.
  intros H. revert st. induction H as [e evts He|e evts _ IH]; intros st; simpl; unfold mbind, ST_bind, mret, ST_ret.
  - assert (H1 : s_CreatedSent (AnthropicEventToResponsesEvents rand12 e st).2 = true).
    { unfold AnthropicEventToResponsesEvents. rewrite He. simpl. unfold anthToResHandleMessageStart.
      destruct (ae_Message e); simpl; split_if; by unfold_sends. }
    destruct (AnthropicEventToResponsesEvents rand12 e st) as [o st1]. simpl in *.
    pose proof (run_all_created evts st1 H1). by destruct (run_all _ evts st1).
  - destruct (AnthropicEventToResponsesEvents rand12 e st) as [o st1]. specialize (IH st1).
    by destruct (run_all _ evts st1).
Qed.

Lemma replied_text_app es fs : replied_text (es ++ fs)%list = replied_text es +:+ replied_text fs.
Proof. induction es as [|e es IH]; simpl; [done|]. by rewrite IH, str_app_assoc. Qed.

Lemma close_no_text st : replied_text (closeCurrentResponsesItem st).1 = "".
Proof. unfold closeCurrentResponsesItem. by destruct (String.eqb _ ""). Qed.

Lemma finish_no_text st : replied_text (finishResponses st).1 = "".
Proof.
  unfold finishResponses. unfold_sends. pose proof (close_no_text st) as H.
  destruct (closeCurrentResponsesItem st) as [es st1]. simpl in *.
  unfold anthropicResponsesStreamTerminalState. destruct (String.eqb _ _); simpl; by rewrite replied_text_app, H.
Qed.

Lemma handler_replies evt st :
  replied_text (AnthropicEventToResponsesEvents rand12 evt st).1 = event_text evt.
Proof.
  pose proof (close_no_text st) as Hcl.
  assert (Hd : String.eqb (ae_Type evt) "content_block_delta" = false -> event_text evt = "").
  { intros E. unfold event_text. rewrite E. by destruct (ae_Delta evt). }
  unfold AnthropicEventToResponsesEvents.
  destruct (String.eqb (ae_Type evt) "content_block_delta") eqn:E.
  - apply String.eqb_eq in E. unfold event_text. rewrite E. simpl. unfold anthToResHandleContentBlockDelta.
    destruct (ae_Delta evt) as [d|]; [|done]. destruct (String.eqb (ad_Type d) "text_delta").
    + destruct (String.eqb_spec (ad_Text d) "") as [->|]; [done|]. unfold_sends. apply str_app_nil.
    + by repeat split_if.
  - rewrite (Hd eq_refl). repeat match goal with |- context [if ?b then _ else _] => destruct b end; try done.
    + unfold anthToResHandleMessageStart. destruct (ae_Message evt); simpl; by split_if.
    + unfold anthToResHandleContentBlockStart. destruct (ae_ContentBlock evt) as [b|]; [|done].
      destruct (String.eqb (cb_Type b) "thinking"); [by unfold startThinking; unfold_sends|].
      destruct (String.eqb (cb_Type b) "text").
      { unfold startText, openMessage. unfold_sends. destruct (negb _); by unfold_sends. }
      destruct (String.eqb (cb_Type b) "tool_use"); [|done].
      unfold startToolUse. unfold_sends. destruct (closeCurrentResponsesItem st). simpl in *.
      by rewrite replied_text_app, Hcl.
    + unfold anthToResHandleContentBlockStop.
      assert (K : forall e st', reply_text e = "" ->
        replied_text (let '(es, s) := closeCurrentResponsesItem st' in (e :: es, s)).1 = "").
      { intros e st' H. pose proof (close_no_text st') as H'. destruct (closeCurrentResponsesItem st'). simpl in *.
        by rewrite H, H'. }
      destruct (String.eqb _ "reasoning"); [unfold_sends; by apply K|].
      destruct (String.eqb _ "function_call"); [unfold_sends; by apply K|].
      by destruct (String.eqb _ "message").
    + unfold anthToResHandleMessageStop. split_if; [done|apply finish_no_text].
Qed.

(** The terminal event is sent, and nothing else ends the stream. *)
Lemma convert_completes evts t : Exists (fun e => ae_Type e = "message_start") evts ->
  s_CompletedSent (convert rand12 evts (NewAnthropicEventToResponsesState t)).2 = true.
Proof.
  intros H. unfold convert, mbind, ST_bind, mret, ST_ret.
  pose proof (run_all_starts evts (NewAnthropicEventToResponsesState t) H) as Hc.
  destruct (run_all_well_sent rand12 evts _ (New_ok t)) as (_ & Hok & _).
  destruct (run_all _ evts _) as [o st1]. simpl in *. unfold FinalizeAnthropicResponsesStream. rewrite Hc. simpl.
  destruct (s_CompletedSent st1) eqn:Hs; [done|].
  destruct (finish_well_sent st1 Hok Hs) as (_ & _ & _ & H4). by destruct (finishResponses st1).
Qed.
Definition unended (es : list ResponsesStreamEvent) : Prop := Forall (fun e => is_terminal e = false) es.
Definition goes_on (h : sends) : Prop := forall st, unended (h st).1 /\ s_CompletedSent (h st).2 = s_CompletedSent st.
Lemma close_goes_on : goes_on closeCurrentResponsesItem.
Proof. intros st. unfold closeCurrentResponsesItem. destruct (String.eqb _ ""); unfold_sends; by repeat constructor. Qed.
Lemma finish_ends st : unended (removelast (finishResponses st).1) /\ s_CompletedSent (finishResponses st).2 = true.
Proof.
  unfold finishResponses. unfold_sends. destruct (close_goes_on st) as [H _]. destruct (closeCurrentResponsesItem st) as [es st1].
  simpl in *. destruct (anthropicResponsesStreamTerminalState _). simpl. by rewrite removelast_last.
Qed.
Lemma handler_goes_on evt : ae_Type evt <> "message_stop" -> goes_on (AnthropicEventToResponsesEvents rand12 evt).
Proof.
  intros Hs st. unfold AnthropicEventToResponsesEvents.
  destruct (String.eqb _ "message_start").
  { unfold anthToResHandleMessageStart. assert (E : s_CompletedSent (note_message (ae_Message evt) st) = s_CompletedSent st) by (by destruct (ae_Message evt)).
    destruct (s_CreatedSent _); unfold_sends; (split; [by repeat constructor|exact E]). }
  destruct (String.eqb _ "content_block_start").
  { unfold anthToResHandleContentBlockStart. destruct (ae_ContentBlock evt) as [b|]; [|by repeat constructor].
    destruct (String.eqb (cb_Type b) "thinking"); [unfold startThinking; unfold_sends; by repeat constructor|].
    destruct (String.eqb (cb_Type b) "text").
    { unfold startText, openMessage. unfold_sends. destruct (negb _); unfold_sends; by repeat constructor. }
    destruct (String.eqb (cb_Type b) "tool_use"); [|by repeat constructor].
    unfold startToolUse. unfold_sends. destruct (close_goes_on st) as [H1 H2]. destruct (closeCurrentResponsesItem st). simpl in *.
    split; [apply Forall_app_2; [done|by repeat constructor]|done]. }
  destruct (String.eqb _ "content_block_delta").
  { unfold anthToResHandleContentBlockDelta. repeat (split_if; unfold_sends; try by repeat constructor). }
  destruct (String.eqb _ "content_block_stop").
  { unfold anthToResHandleContentBlockStop.
    assert (K : forall e st', is_terminal e = false -> s_CompletedSent st' = s_CompletedSent st ->
      let r := (let '(es, s) := closeCurrentResponsesItem st' in (e :: es, s)) in unended r.1 /\ s_CompletedSent r.2 = s_CompletedSent st).
    { intros e st' He <-. destruct (close_goes_on st') as [H1 H2]. destruct (closeCurrentResponsesItem st'). by split; [constructor|]. }
    destruct (String.eqb _ "reasoning"); [unfold_sends; by apply K|].
    destruct (String.eqb _ "function_call"); [unfold_sends; by apply K|].
    destruct (String.eqb _ "message"); unfold_sends; by repeat constructor. }
  destruct (String.eqb _ "message_delta").
  { unfold anthToResHandleMessageDelta. destruct (ae_Usage evt), (ae_Delta evt); simpl; repeat split_if; by repeat constructor. }
  rewrite (proj2 (String.eqb_neq _ _) Hs). by repeat constructor.
Qed.
Lemma run_all_goes_on evts : Forall (fun e => ae_Type e <> "message_stop") evts ->
  goes_on (run_all (AnthropicEventToResponsesEvents rand12) evts).
Proof.
  induction 1 as [|e evts He _ IH]; intros st; [by repeat constructor|]. simpl. unfold mbind, ST_bind, mret, ST_ret.
  destruct (handler_goes_on e He st) as [H1 H2]. destruct (AnthropicEventToResponsesEvents rand12 e st) as [o st1]. simpl in *.
  destruct (IH st1) as [H3 H4]. destruct (run_all _ evts st1). simpl in *. split; [by apply Forall_app_2|congruence].
Qed.
Lemma Finalize_ends st : unended (removelast (FinalizeAnthropicResponsesStream st).1) /\
  (s_CompletedSent st = true -> (FinalizeAnthropicResponsesStream st).1 = []).
Proof.
  unfold FinalizeAnthropicResponsesStream. destruct (s_CompletedSent st); rewrite ?orb_true_r, ?orb_false_r; [by repeat constructor|].
  destruct (s_CreatedSent st); [|by repeat constructor]. split; [apply finish_ends|done].
Qed.
Lemma unended_removelast xs : unended xs -> unended (removelast xs).
Proof. induction 1 as [|x [|y xs] Hx Hxs IH]; [constructor|constructor|by constructor]. Qed.
Lemma unended_app xs ys : unended xs -> unended (removelast ys) -> unended (removelast (xs ++ ys)).
Proof.
  intros Hx Hy. destruct ys as [|y ys]; [rewrite app_nil_r; by apply unended_removelast|].
  rewrite removelast_app by done. by apply Forall_app_2.
Qed.
Lemma convert_cons e evts st : let r := AnthropicEventToResponsesEvents rand12 e st in
  (convert rand12 (e :: evts) st).1 = (r.1 ++ (convert rand12 evts r.2).1)%list.
Proof.
  unfold convert, mbind, ST_bind, mret, ST_ret. simpl. unfold mbind, ST_bind, mret, ST_ret.
  destruct (AnthropicEventToResponsesEvents rand12 e st) as [o st1]. simpl. destruct (run_all _ evts st1) as [os st2].
  destruct (FinalizeAnthropicResponsesStream st2). simpl. by rewrite app_assoc.
Qed.
Lemma convert_nil st : (convert rand12 [] st).1 = (FinalizeAnthropicResponsesStream st).1.
Proof. unfold convert, mbind, ST_bind, mret, ST_ret. simpl. by destruct (FinalizeAnthropicResponsesStream st). Qed.
Lemma convert_ends evts st : s_CompletedSent st = false -> endsAtStop evts -> unended (removelast (convert rand12 evts st).1).
Proof.
  unfold endsAtStop. revert st. induction evts as [|e evts IH]; intros st Hs He; [rewrite convert_nil; apply Finalize_ends|].
  rewrite convert_cons. cbv zeta. destruct (decide (ae_Type e = "message_stop")) as [Ee|Ee].
  - destruct evts as [|e2 evts]; [|exfalso; by apply Forall_cons in He as [He _]]. rewrite convert_nil.
    unfold AnthropicEventToResponsesEvents. rewrite Ee. simpl. unfold anthToResHandleMessageStop. rewrite Hs.
    destruct (finish_ends st) as [H1 H2]. by rewrite (proj2 (Finalize_ends _) H2), app_nil_r.
  - destruct (handler_goes_on e Ee st) as [H1 H2]. apply unended_app; [done|]. apply IH; [congruence|].
    destruct evts; [constructor|by apply Forall_cons in He as [_ He]].
Qed.

(** ** Properties *)


(** No text is lost, repeated or reordered: the text deltas sent to the
    client concatenate to the text deltas of the upstream, for every stream. *)
Theorem responses_text_preserved (evts : list AnthropicStreamEvent) (t : Z) :
  replied_text (convert rand12 evts (NewAnthropicEventToResponsesState t)).1 = text_of evts.
Proof.
  unfold convert, mbind, ST_bind, mret, ST_ret.
  assert (H : forall st, replied_text (run_all (AnthropicEventToResponsesEvents rand12) evts st).1 = text_of evts).
  { induction evts as [|e es IH]; intros st; [done|]. simpl. unfold mbind, ST_bind, mret, ST_ret.
    pose proof (handler_replies e st) as He. destruct (AnthropicEventToResponsesEvents rand12 e st) as [o st1].
    specialize (IH st1). destruct (run_all _ es st1). simpl in *. by rewrite replied_text_app, He, IH. }
  specialize (H (NewAnthropicEventToResponsesState t)). destruct (run_all _ evts _) as [o st1]. simpl in *.
  assert (Hf : replied_text (FinalizeAnthropicResponsesStream st1).1 = "").
  { unfold FinalizeAnthropicResponsesStream. split_if; [done|apply finish_no_text]. }
  destruct (FinalizeAnthropicResponsesStream st1). simpl in *. rewrite replied_text_app, H, Hf. apply str_app_nil.
Qed.

(** Every event of every stream carries content_index 0, so the second and
    later text parts of a message are announced and filled at the index of the
    first part. *)
Theorem content_index_always_zero (evts : list AnthropicStreamEvent) (t : Z) :
  Forall (fun e => rs_ContentIndex e = 0) (convert rand12 evts (NewAnthropicEventToResponsesState t)).1.
Proof. apply (convert_well_sent rand12 evts _ (New_ok t)). Qed.

(** A thinking block after a text block loses the text.  From a state with
    an open message, a thinking block is announced at the output index of the
    message, and when it stops the only item added to the finished items is the
    reasoning item: the message and its content are in no finished item and the
    state no longer holds them. *)
Theorem thinking_replaces_open_message st (start stop : AnthropicStreamEvent) b :
  s_CurrentItemType st = "message" ->
  ae_Type start = "content_block_start" -> ae_ContentBlock start = Some b -> cb_Type b = "thinking" ->
  ae_Type stop = "content_block_stop" ->
  let '(es, st') := run_all (AnthropicEventToResponsesEvents rand12) [start; stop] st in
  (exists e rest, es = e :: rest /\ rs_Type e = "response.output_item.added" /\
                  rs_OutputIndex e = s_OutputIndex st) /\
  (exists it, s_Outputs st' = (s_Outputs st ++ [it])%list /\ ro_Type it = "reasoning" /\ ro_Content it = []) /\
  s_CurrentItemType st' = "" /\ s_CurrentContent st' = [].
Proof.
  intros Hm Hs Hb Ht Hp. simpl. unfold mbind, ST_bind, mret, ST_ret.
  unfold AnthropicEventToResponsesEvents. rewrite Hs, Hp. simpl.
  unfold anthToResHandleContentBlockStart. rewrite Hb, Ht. simpl.
  unfold startThinking, anthToResHandleContentBlockStop. unfold_sends.
  unfold closeCurrentResponsesItem. unfold_sends.
  split; [by eexists _, _|]. split; [|done]. eexists. split; [done|].
  unfold currentItem. simpl. by split_if.
Qed.
End ConverterMore.

Definition no_rand : nat -> list Z := fun _ => repeat 0 12.

Definition greeting : list AnthropicStreamEvent :=
  let ev ty := { no_anthropic_event with ae_Type := ty } in
  [ev "message_start";
   { (ev "content_block_start") with ae_ContentBlock := Some { no_block with cb_Type := "text" } };
   { (ev "content_block_delta") with ae_Delta := Some { no_delta with ad_Type := "text_delta"; ad_Text := "Hello" } };
   ev "content_block_stop"; ev "message_stop"].

Lemma thinking_replaces_open_message_witness :
  let start ty := { no_anthropic_event with ae_Type := "content_block_start";
                    ae_ContentBlock := Some { no_block with cb_Type := ty } } in
  let stop := { no_anthropic_event with ae_Type := "content_block_stop" } in
  let st := (run_all (AnthropicEventToResponsesEvents no_rand) [start "text"; stop]
               (NewAnthropicEventToResponsesState 0)).2 in
  s_CurrentContent st = [output_text ""] /\
  s_CurrentContent (run_all (AnthropicEventToResponsesEvents no_rand) [start "thinking"; stop] st).2 = [].
Proof.
  intros start stop st. split; [reflexivity|].
  pose proof (thinking_replaces_open_message no_rand st (start "thinking") stop { no_block with cb_Type := "thinking" }
    eq_refl eq_refl eq_refl eq_refl eq_refl) as H.
  destruct (run_all (AnthropicEventToResponsesEvents no_rand) [start "thinking"; stop] st) as [es st'].
  exact (proj2 (proj2 (proj2 H))).
Defined.

(** The usage conversions are inverse.  A usage with non-negative counts
    whose total fits in 63 bits comes back unchanged when an Anthropic response
    is converted to a Responses response and back. *)
Theorem usage_round_trip (input output read creation : Z) :
  0 <= input -> 0 <= read -> 0 <= creation -> input + read + creation <= max_int64 ->
  anthropicUsageFromResponsesUsage (Some (responsesUsageFromAnthropic input output read creation)) =
  { no_anthropic_usage with au_InputTokens := input; au_OutputTokens := output;
    au_CacheReadInputTokens := read; au_CacheCreationInputTokens := creation }.
Proof.
  intros Hi Hr Hc Hs. unfold anthropicUsageFromResponsesUsage, responsesUsageFromAnthropic. simpl.
  unfold max_int64 in *.
  rewrite (wrap64_id (input + read)) by (unfold int64_ok, min_int64, max_int64; lia).
  rewrite (wrap64_id (input + read + creation)) by (unfold int64_ok, min_int64, max_int64; lia).
  assert (E : match (if 0 <? read then Some (mkInputDetails read 0 0 0) else None) with
              | Some d => it_CachedTokens d | None => 0 end = read).
  { destruct (0 <? read) eqn:E; bool_to_prop; simpl; lia. }
  rewrite E.
  rewrite (wrap64_id (input + read + creation - read)) by (unfold int64_ok, min_int64, max_int64; lia).
  replace (input + read + creation - read - creation) with input by lia.
  rewrite wrap64_id by (unfold int64_ok, min_int64, max_int64; lia).
  by rewrite (proj2 (Z.ltb_ge input 0) Hi).
Qed.

Lemma usage_round_trip_witness :
  au_InputTokens (anthropicUsageFromResponsesUsage (Some (responsesUsageFromAnthropic 5 7 11 13))) = 5.
Proof.
  rewrite (usage_round_trip 5 7 11 13); [reflexivity|lia|lia|lia|vm_compute; discriminate].
Defined.
