(* ===== verification/ProxyCircuit.v ===== *)
(** * The proxy stream circuit ([service/openai_proxy_stream_circuit.go])

    A bounded in-process table of proxies whose streams break: a proxy that
    fails often enough inside a window is quarantined for a while.  Methods run
    under the mutex, so each is one step; [now] is the clock reading a method is
    given.  Go visits a map in any order: [visit] is the order of one loop. *)

From S2P Require Import Prelude.

Definition defaultFailureThreshold : Z := 2.
Definition defaultFailureWindow : duration := Minute.
Definition defaultQuarantineTTL : duration := 10 * Minute.
Definition defaultMaxEntries : Z := 4096.
Definition defaultFailureCollapse : duration := 3 * Second.

Record settings := mkSettings {
  disabled : bool;
  failureThreshold : Z;
  failureWindow : duration;
  quarantineTTL : duration;
  collapseInterval : duration;
  maxEntries : Z }.

(** [cfg.Gateway.OpenAIProxyStreamCircuit]; [None] is a nil service or config. *)
Record circuitConfig := mkCircuitConfig {
  cfg_Disabled : bool;
  cfg_FailureThreshold : Z;
  cfg_WindowSeconds : Z;
  cfg_TTLSeconds : Z }.

Definition resolveSettings (cfg : option circuitConfig) : settings :=
  let s := mkSettings false defaultFailureThreshold defaultFailureWindow defaultQuarantineTTL
             defaultFailureCollapse defaultMaxEntries in
  match cfg with
  | None => s
  | Some c =>
      { s with disabled := cfg_Disabled c;
               failureThreshold := if 0 <? cfg_FailureThreshold c then cfg_FailureThreshold c
                                   else failureThreshold s;
               failureWindow := if 0 <? cfg_WindowSeconds c then wrap64 (cfg_WindowSeconds c * Second)
                                else failureWindow s;
               quarantineTTL := if 0 <? cfg_TTLSeconds c then wrap64 (cfg_TTLSeconds c * Second)
                                else quarantineTTL s }
  end.

Record entry := mkEntry {
  failureCount : Z;
  windowStart : time;
  lastFailureAt : time;
  blockedUntil : time;
  lastTouched : time }.
Definition no_entry : entry := mkEntry 0 0 0 0 0.

Record circuit := mkCircuit {
  cset : settings;
  entries : gmap Z entry }.

Definition newCircuit (s : settings) : circuit :=
  mkCircuit { s with failureThreshold := if failureThreshold s <=? 0 then defaultFailureThreshold else failureThreshold s;
                     failureWindow := if failureWindow s <=? 0 then defaultFailureWindow else failureWindow s;
                     quarantineTTL := if quarantineTTL s <=? 0 then defaultQuarantineTTL else quarantineTTL s;
                     maxEntries := if maxEntries s <=? 0 then defaultMaxEntries else maxEntries s;
                     collapseInterval := if collapseInterval s <? 0 then 0 else collapseInterval s } ∅.

Section Circuit.
Variable visit : gmap Z entry -> list (Z * entry).

Definition removable (s : settings) (now : time) (e : entry) : bool :=
  let staleObservation := IsZero (blockedUntil e) && (failureWindow s <? SubT now (lastTouched e)) in
  let expiredQuarantine := negb (IsZero (blockedUntil e)) && negb (Before now (blockedUntil e)) in
  staleObservation || expiredQuarantine.

(** The first loop of [ensureCapacityLocked]. *)
Definition dropRemovable (s : settings) (now : time) (m : gmap Z entry) : gmap Z entry :=
  foldl (fun m p => if removable s now p.2 then delete p.1 m else m) m (visit m).

(** The second loop: [(oldestProxyID, oldest)]. *)
Definition oldestEntry (m : gmap Z entry) : Z * time :=
  foldl (fun acc p => if (acc.1 =? 0) || Before (lastTouched p.2) acc.2 then (p.1, lastTouched p.2) else acc)
        (0, 0) (visit m).

Definition msize (m : gmap Z entry) : Z := Z.of_nat (size m).

Definition ensureCapacityLocked (now : time) (c : circuit) : circuit :=
  if msize (entries c) <? maxEntries (cset c) then c
  else
    let m := dropRemovable (cset c) now (entries c) in
    if msize m <? maxEntries (cset c) then mkCircuit (cset c) m
    else
      let oldestProxyID := (oldestEntry m).1 in
      mkCircuit (cset c) (if 0 <? oldestProxyID then delete oldestProxyID m else m).

(** [if entry.windowStart.IsZero() || ...]: a new observation window. *)
Definition openWindow (s : settings) (now : time) (e : entry) : entry :=
  if IsZero (windowStart e) || Before now (windowStart e) || (failureWindow s <? SubT now (windowStart e))
  then { e with failureCount := 0; windowStart := now; blockedUntil := 0 }
  else e.

Definition collapses (s : settings) (now : time) (e : entry) : bool :=
  (0 <? collapseInterval s) && negb (IsZero (lastFailureAt e)) &&
  (0 <=? SubT now (lastFailureAt e)) && (SubT now (lastFailureAt e) <? collapseInterval s).

(** From the window check to the end of [recordFailure], on the entry alone. *)
Definition observe (s : settings) (now : time) (e : entry) : (bool * time) * entry :=
  let e := openWindow s now e in
  if collapses s now e then ((false, 0), { e with lastTouched := now })
  else
    let n := failureCount e + 1 in
    let tripped := failureThreshold s <=? n in
    let e := { e with failureCount := n; lastFailureAt := now; lastTouched := now;
                      blockedUntil := if tripped then AddT now (quarantineTTL s) else blockedUntil e } in
    ((tripped, blockedUntil e), e).

Definition recordFailure (proxyID : Z) (now : time) : ST circuit (bool * time) := fun c =>
  if disabled (cset c) || (proxyID <=? 0) then ((false, 0), c)
  else
    let put e c := mkCircuit (cset c) (<[proxyID := e]> (entries c)) in
    match entries c !! proxyID with
    | Some e =>
        if Before now (blockedUntil e)
        then ((false, blockedUntil e), put { e with lastTouched := now } c)
        else let '(r, e') := observe (cset c) now e in (r, put e' c)
    | None => let '(r, e') := observe (cset c) now no_entry in (r, put e' (ensureCapacityLocked now c))
    end.

Definition recordSuccess (proxyID : Z) : ST circuit bool := fun c =>
  if proxyID <=? 0 then (false, c)
  else match entries c !! proxyID with
       | None => (false, c)
       | Some _ => (true, mkCircuit (cset c) (delete proxyID (entries c)))
       end.

Definition isBlocked (proxyID : Z) (now : time) : ST circuit bool := fun c =>
  if disabled (cset c) || (proxyID <=? 0) then (false, c)
  else match entries c !! proxyID with
       | None => (false, c)
       | Some e =>
           if IsZero (blockedUntil e) then (false, c)
           else if negb (Before now (blockedUntil e)) then (false, mkCircuit (cset c) (delete proxyID (entries c)))
           else (true, c)
       end.

Definition activeBlockCount (now : time) (c : circuit) : Z :=
  if disabled (cset c) then 0
  else foldl (fun n p => if negb (IsZero (blockedUntil p.2)) && Before now (blockedUntil p.2) then n + 1 else n)
             0 (visit (entries c)).

(** What the gateway service asks of the circuit, for an account's proxy. *)
Record account := mkAccount { acc_Platform : string; acc_ProxyID : option Z }.
Definition PlatformOpenAI : string := "openai".

Definition circuitProxyID (a : option account) : option Z :=
  match a with
  | Some (mkAccount platform (Some p)) =>
      if String.eqb platform PlatformOpenAI && negb (p <=? 0) then Some p else None
  | _ => None
  end.

(** [errors.Is(streamErr, context.Canceled)] and [DeadlineExceeded] are [ours]. *)
Definition recordDisconnect (a : option account) (streamErr ours : bool) (now : time) : ST circuit unit := fun c =>
  match circuitProxyID a with
  | Some p => if negb streamErr || ours then (tt, c) else (tt, (recordFailure p now c).2)
  | None => (tt, c)
  end.
Definition clearDisconnect (a : option account) : ST circuit unit := fun c =>
  match circuitProxyID a with
  | Some p => (tt, (recordSuccess p c).2)
  | None => (tt, c)
  end.
Definition isQuarantined (bypassed : bool) (a : option account) (now : time) : ST circuit bool := fun c =>
  match circuitProxyID a with
  | Some p => if bypassed then (false, c) else isBlocked p now c
  | None => (false, c)
  end.

(** The calls other parts of the gateway make, with their clock readings. *)
Inductive call :=
| Failure (proxyID : Z)
| Success (proxyID : Z)
| Query (proxyID : Z).

Definition perform (k : call) (now : time) (c : circuit) : circuit :=
  match k with
  | Failure p => (recordFailure p now c).2
  | Success p => (recordSuccess p c).2
  | Query p => (isBlocked p now c).2
  end.
Fixpoint perform_all (l : list (time * call)) (c : circuit) : circuit :=
  match l with
  | [] => c
  | (now, k) :: l' => perform_all l' (perform k now c)
  end.
Definition call_id (k : call) : Z := match k with Failure p | Success p | Query p => p end.
End Circuit.

(** ** Lemmas *)

(** The bound of the table, and that its keys are proxy ids. *)
Record circuit_ok (c : circuit) : Prop := {
  ok_keys k e : entries c !! k = Some e -> 0 < k;
  ok_size : msize (entries c) <= maxEntries (cset c);
  ok_max : 0 < maxEntries (cset c) }.

Section Facts.
Variable visit : gmap Z entry -> list (Z * entry).
Hypothesis visit_all : forall m, visit m ≡ₚ map_to_list m.

Lemma dropRemovable_sub s now m : dropRemovable visit s now m ⊆ m.
Proof.
  unfold dropRemovable. generalize (visit m). intros l.
  assert (H : forall m', m' ⊆ m ->
    foldl (fun m p => if removable s now p.2 then delete p.1 m else m) m' l ⊆ m).
  { induction l as [|p l IH]; intros m' Hm; simpl; [done|]. apply IH.
    destruct (removable s now p.2); [|done]. etrans; [apply delete_subseteq|done]. }
  by apply H.
Qed.

(** What the first loop leaves is not removable. *)
Lemma dropRemovable_keeps s now m k e :
  m !! k = Some e -> removable s now e = false -> dropRemovable visit s now m !! k = Some e.
Proof.
  intros Hk Hr. unfold dropRemovable.
  assert (Hin : forall p : Z * entry, p ∈ visit m -> p.1 = k -> p.2 = e).
  { intros [k' e'] Hp Heq. simpl in *. subst k'. rewrite (visit_all m) in Hp.
    apply elem_of_map_to_list in Hp. congruence. }
  revert Hin. generalize (visit m). intros l.
  assert (H : forall m' : gmap Z entry, m' !! k = Some e -> (forall p, p ∈ l -> p.1 = k -> p.2 = e) ->
    foldl (fun m p => if removable s now p.2 then delete p.1 m else m) m' l !! k = Some e).
  { induction l as [|p l IH]; intros m' Hm Hin; simpl; [done|]. apply IH.
    - destruct (removable s now p.2) eqn:E; [|done]. rewrite lookup_delete_ne; [done|].
      intros Heq. rewrite (Hin p ltac:(left) Heq) in E. congruence.
    - intros p' Hp. apply Hin. by right. }
  by apply H.
Qed.

Lemma msize_sub (m1 m2 : gmap Z entry) : m1 ⊆ m2 -> msize m1 <= msize m2.
Proof. intros H. apply map_subseteq_size in H. unfold msize. lia. Qed.

Lemma oldest_in m : (forall k e, m !! k = Some e -> 0 < k) -> m <> ∅ ->
  exists e, m !! (oldestEntry visit m).1 = Some e.
Proof.
  intros Hpos Hne. unfold oldestEntry.
  assert (Hv : forall p, p ∈ visit m -> m !! p.1 = Some p.2).
  { intros [k e] Hp. rewrite (visit_all m) in Hp. by apply elem_of_map_to_list in Hp. }
  assert (Hn : visit m <> []).
  { intros E. apply Hne. apply map_to_list_empty_iff. apply Permutation_nil. by rewrite <- (visit_all m), E. }
  destruct (visit m) as [|p l]; [done|]. simpl. clear Hn.
  assert (Hp : exists e, m !! p.1 = Some e) by (exists p.2; apply Hv; left).
  assert (Hl : forall q, q ∈ l -> m !! q.1 = Some q.2) by (intros q Hq; apply Hv; by right).
  clear Hv. change (exists e, m !! (p.1, lastTouched p.2).1 = Some e) in Hp.
  revert Hp. generalize (p.1, lastTouched p.2). induction l as [|q l IH]; intros acc Hacc; [done|].
  simpl. apply IH; [intros q' Hq'; apply Hl; by right|].
  destruct (_ || _); [|done]. exists q.2. apply Hl. left.
Qed.

Lemma ensureCapacity_ok now c : circuit_ok c ->
  let c' := ensureCapacityLocked visit now c in
  cset c' = cset c /\ entries c' ⊆ entries c /\ msize (entries c') < maxEntries (cset c).
Proof.
  intros [Hk Hs Hm]. unfold ensureCapacityLocked. destruct (_ <? _) eqn:E1; bool_to_prop; [done|].
  pose proof (dropRemovable_sub (cset c) now (entries c)) as Hsub.
  set (m := dropRemovable visit (cset c) now (entries c)) in *. simpl.
  destruct (msize m <? _) eqn:E2; bool_to_prop; simpl; [done|].
  assert (Hpos : forall k e, m !! k = Some e -> 0 < k).
  { intros k e Hke. apply (Hk k e). by apply (lookup_weaken m). }
  destruct (oldest_in m Hpos) as [e He].
  { intros ->. unfold msize in E2. rewrite map_size_empty in E2. lia. }
  rewrite (proj2 (Z.ltb_lt _ _) (Hpos _ _ He)). split; [done|]. split.
  - etrans; [apply delete_subseteq|done].
  - unfold msize in *. rewrite map_size_delete_Some by eauto.
    pose proof (map_subseteq_size _ _ Hsub). lia.
Qed.

Lemma msize_insert_le (m : gmap Z entry) k e :
  msize (<[k := e]> m) <= msize m + 1 /\ (is_Some (m !! k) -> msize (<[k := e]> m) = msize m).
Proof.
  unfold msize. rewrite map_size_insert. destruct (m !! k) eqn:E; simpl.
  - split; [lia|done].
  - split; [lia|]. intros [? [=]].
Qed.

Lemma recordFailure_ok p now c : circuit_ok c -> circuit_ok (recordFailure visit p now c).2.
Proof.
  intros Hok. pose proof Hok as [Hk Hs Hm]. unfold recordFailure.
  destruct (disabled (cset c) || (p <=? 0)) eqn:E; [done|]. bool_to_prop.
  assert (Hput : forall e, is_Some (entries c !! p) ->
    circuit_ok (mkCircuit (cset c) (<[p := e]> (entries c)))).
  { intros e Hp. split; simpl; [| |done].
    - intros k e' [[<- _]|[_ Hke]]%lookup_insert_Some; [lia|eauto].
    - by rewrite (proj2 (msize_insert_le (entries c) p e)). }
  destruct (entries c !! p) as [e|] eqn:Ep.
  - destruct (now <? blockedUntil e); [apply Hput; eauto|].
    destruct (observe (cset c) now e) as [r e']. apply Hput. eauto.
  - destruct (observe (cset c) now no_entry) as [r e'].
    destruct (ensureCapacity_ok now c Hok) as (Hset & Hsub & Hlt). simpl in *.
    split; simpl; rewrite ?Hset; [| |done].
    + intros k e'' [[<- _]|[_ Hke]]%lookup_insert_Some; [lia|].
      apply (Hk k e''). by eapply lookup_weaken.
    + pose proof (proj1 (msize_insert_le (entries (ensureCapacityLocked visit now c)) p e')). lia.
Qed.

Lemma delete_ok p c : circuit_ok c -> circuit_ok (mkCircuit (cset c) (delete p (entries c))).
Proof.
  intros [Hk Hs Hm]. split; simpl; [| |done].
  - intros k e [_ He]%lookup_delete_Some. eauto.
  - pose proof (msize_sub _ _ (delete_subseteq (entries c) p)). lia.
Qed.

Lemma perform_ok k now c : circuit_ok c -> circuit_ok (perform visit k now c).
Proof.
  intros Hok. destruct k as [p|p|p]; simpl; [by apply recordFailure_ok| |].
  - unfold recordSuccess. repeat split_if; [done|by apply delete_ok|done].
  - unfold isBlocked. repeat split_if; try done. by apply delete_ok.
Qed.

Lemma newCircuit_ok s : circuit_ok (newCircuit s).
Proof.
  split; simpl; [intros k e H; by rewrite lookup_empty in H| |].
  - unfold msize. rewrite map_size_empty. destruct (_ <=? _) eqn:E; bool_to_prop; unfold defaultMaxEntries; lia.
  - destruct (_ <=? _) eqn:E; bool_to_prop; unfold defaultMaxEntries; lia.
Qed.

(** How one call changes the entry of proxy [p]: it is left alone, dropped, or
    moved by a failure of [p] itself. *)
Lemma perform_entry p k now c e :
  entries (perform visit k now c) !! p = Some e ->
  entries c !! p = Some e \/
  (k = Failure p /\
   ((exists e0, entries c !! p = Some e0 /\ Before now (blockedUntil e0) = true /\
                e = { e0 with lastTouched := now }) \/
    (exists e0, (entries c !! p = Some e0 /\ Before now (blockedUntil e0) = false \/
                 entries c !! p = None /\ e0 = no_entry) /\
                e = snd (observe (cset c) now e0)))).
Proof.
  assert (Hcap : forall q e', entries (ensureCapacityLocked visit now c) !! q = Some e' -> entries c !! q = Some e').
  { intros q e'. unfold ensureCapacityLocked. destruct (_ <? _); [done|].
    pose proof (dropRemovable_sub (cset c) now (entries c)) as Hsub.
    repeat (split_if; simpl); intros Hq; try (by apply (lookup_weaken _ _ _ _ Hq)).
    apply lookup_delete_Some in Hq as [_ Hq]. by apply (lookup_weaken _ _ _ _ Hq). }
  destruct k as [q|q|q]; simpl.
  - unfold recordFailure. destruct (disabled (cset c) || (q <=? 0)); [by left|].
    destruct (entries c !! q) as [e0|] eqn:Eq.
    + destruct (Before now (blockedUntil e0)) eqn:Eb; simpl.
      * intros [[-> <-]|[_ Hp]]%lookup_insert_Some; [right; split; [done|]; left; eauto|by left].
      * destruct (observe (cset c) now e0) as [r e1] eqn:Eo. simpl.
        intros [[-> <-]|[_ Hp]]%lookup_insert_Some; [|by left].
        right. split; [done|]. right. exists e0. rewrite Eo. auto.
    + destruct (observe (cset c) now no_entry) as [r e1] eqn:Eo. simpl.
      intros [[-> <-]|[_ Hp]]%lookup_insert_Some; [|left; by apply Hcap].
      right. split; [done|]. right. exists no_entry. rewrite Eo. auto.
  - unfold recordSuccess. repeat split_if; simpl; try (by left).
    intros [_ H]%lookup_delete_Some. by left.
  - unfold isBlocked. repeat split_if; simpl; try (by left).
    intros [_ H]%lookup_delete_Some. by left.
Qed.

Lemma perform_settings k now c : cset (perform visit k now c) = cset c.
Proof.
  destruct k; simpl.
  - unfold recordFailure. split_if; [done|]. destruct (entries c !! proxyID); [split_if; [done|]|].
    + by destruct (observe _ _ _).
    + destruct (observe _ _ _). simpl. unfold ensureCapacityLocked. by repeat split_if.
  - unfold recordSuccess. by repeat split_if.
  - unfold isBlocked. by repeat split_if.
Qed.

(** The state of a proxy whose failures all fall into one collapse interval. *)
Definition burst_entry (t0 now : time) (e : entry) : Prop :=
  failureCount e = 1 /\ blockedUntil e = 0 /\ t0 <= lastFailureAt e <= now /\
  (windowStart e = lastFailureAt e).

Lemma SubT_small a b : 0 <= a - b <= max_int64 -> SubT a b = a - b.
Proof. intros H. unfold SubT. apply sat64_id. unfold int64_ok, min_int64. lia. Qed.

Lemma observe_burst s t0 t now e0 :
  0 < t0 -> t0 <= t <= now -> now < t0 + collapseInterval s -> collapseInterval s <= max_int64 ->
  collapseInterval s <= failureWindow s -> 2 <= failureThreshold s ->
  burst_entry t0 t e0 \/ e0 = no_entry ->
  burst_entry t0 now (snd (observe s now e0)) /\ fst (fst (observe s now e0)) = false.
Proof.
  intros H0 Ht Hnow Hmax Hcw Hth He. unfold observe, openWindow, collapses.
  destruct He as [(Hn & Hb & [Hl1 Hl2] & Hw)| ->].
  - rewrite Hw, (SubT_small now (lastFailureAt e0)) by lia. unfold IsZero, Before.
    rewrite (proj2 (Z.eqb_neq (lastFailureAt e0) 0)) by lia.
    rewrite (proj2 (Z.ltb_ge now (lastFailureAt e0))) by lia.
    rewrite (proj2 (Z.ltb_ge (failureWindow s) (now - lastFailureAt e0))) by lia. simpl.
    rewrite (proj2 (Z.ltb_lt 0 (collapseInterval s))) by lia.
    rewrite (proj2 (Z.eqb_neq (lastFailureAt e0) 0)) by lia.
    rewrite (SubT_small now (lastFailureAt e0)) by lia.
    rewrite (proj2 (Z.leb_le 0 (now - lastFailureAt e0))) by lia.
    rewrite (proj2 (Z.ltb_lt (now - lastFailureAt e0) (collapseInterval s))) by lia. simpl.
    split; [|done]. destruct e0. unfold burst_entry. simpl in *. lia.
  - unfold IsZero at 1. simpl. rewrite andb_false_r. simpl.
    rewrite (proj2 (Z.leb_gt (failureThreshold s) (0 + 1))) by lia.
    split; [|done]. unfold burst_entry. simpl. lia.
Qed.

Definition burst_ok (p t0 : Z) (now : time) (c : circuit) : Prop :=
  forall e, entries c !! p = Some e -> burst_entry t0 now e.

Lemma burst_step p t0 t k now c :
  0 < t0 -> t0 <= t <= now -> collapseInterval (cset c) <= max_int64 ->
  collapseInterval (cset c) <= failureWindow (cset c) -> 2 <= failureThreshold (cset c) ->
  (k = Failure p -> now < t0 + collapseInterval (cset c)) ->
  burst_ok p t0 t c -> burst_ok p t0 now (perform visit k now c).
Proof.
  intros H0 Ht Hmax Hcw Hth Hk Hb e He.
  apply perform_entry in He as [He|[-> [(e0 & He0 & Hblk & _)|(e0 & He0 & ->)]]].
  - destruct (Hb _ He) as (? & ? & ? & ?). unfold burst_entry. lia.
  - destruct (Hb _ He0) as (_ & Hz & _). rewrite Hz in Hblk. unfold Before in Hblk.
    apply Z.ltb_lt in Hblk. lia.
  - apply (observe_burst (cset c) t0 t now e0); try done; [by apply Hk|].
    destruct He0 as [[He0 _]|[_ ->]]; [left; by apply Hb|by right].
Qed.

(** ** Properties *)

(** The table is bounded.  Whatever calls are made, in any order and with
    any clock readings, the circuit keeps at most [maxEntries] proxies, each
    with a positive id. *)
Theorem circuit_bounded s (l : list (time * call)) :
  circuit_ok (perform_all visit l (newCircuit s)).
Proof.
  assert (H : forall c, circuit_ok c -> circuit_ok (perform_all visit l c)).
  { induction l as [|[now k] l IH]; intros c Hc; [done|]. simpl. apply IH. by apply perform_ok. }
  apply H, newCircuit_ok.
Qed.

(** One incident does not trip the breaker.  With a threshold of at least
    two, failures of a proxy that all fall into one collapse interval, however
    many and however interleaved with calls about other proxies, evictions
    included, never quarantine it, and it stays unblocked. *)
Theorem burst_never_trips p t0 c (l : list (time * call)) :
  0 < t0 -> entries c !! p = None ->
  collapseInterval (cset c) <= max_int64 -> collapseInterval (cset c) <= failureWindow (cset c) ->
  2 <= failureThreshold (cset c) ->
  Sorted Z.le (map fst l) -> Forall (fun q => t0 <= fst q) l ->
  Forall (fun q => snd q = Failure p -> fst q < t0 + collapseInterval (cset c)) l ->
  forall now, fst (isBlocked p now (perform_all visit l c)) = false.
Proof.
  intros H0 Hnone Hmax Hcw Hth Hsort Hge Hin now.
  assert (H : forall t c', t0 <= t -> cset c' = cset c -> burst_ok p t0 t c' -> Forall (fun q => t <= fst q) l ->
    exists t', burst_ok p t0 t' (perform_all visit l c')).
  { clear Hnone Hge. induction l as [|[t1 k] l IH]; intros t c' Ht Hs Hb Hle; [by exists t|].
    simpl. apply Forall_cons in Hle as [H1 Hle]. simpl in H1. apply Forall_cons in Hin as [Hk Hin]. simpl in Hk.
    simpl in Hsort. apply Sorted_StronglySorted in Hsort; [|intros ??? ? ?; lia].
    inversion Hsort as [|? ? Hss Hall]; subst. apply (IH (StronglySorted_Sorted Hss) Hin t1).
    - lia.
    - by rewrite perform_settings.
    - eapply burst_step; rewrite ?Hs; try done.
    - rewrite Forall_map in Hall. done. }
  destruct (H t0 c) as [t' Hb]; [lia|done|intros e He; congruence|done|].
  unfold isBlocked. split_if; [done|]. destruct (entries (perform_all visit l c) !! p) as [e|] eqn:Ee; [|reflexivity].
  destruct (Hb _ Ee) as (_ & Hz & _). by rewrite Hz.
Qed.

(** A quarantine ends.  From its end on a proxy is reported unblocked and
    its entry is dropped, so its failures count from zero again. *)
Theorem quarantine_ends p now c e :
  disabled (cset c) = false -> 0 < p -> entries c !! p = Some e -> 0 < blockedUntil e <= now ->
  (isBlocked p now c).1 = false /\ entries (isBlocked p now c).2 !! p = None.
Proof.
  intros Hd Hp He Hb. unfold isBlocked. rewrite Hd, He, (proj2 (Z.leb_gt p 0) Hp). simpl.
  unfold IsZero, Before. rewrite (proj2 (Z.eqb_neq (blockedUntil e) 0)), (proj2 (Z.ltb_ge now (blockedUntil e))) by lia.
  simpl. by rewrite lookup_delete_eq.
Qed.

(** A quarantine holds.  While fewer than [maxEntries] proxies are tracked
    (or the call is about a tracked proxy), no call other than a success of the
    proxy itself ends or extends its quarantine before its end. *)
Theorem quarantine_holds p k now c e :
  entries c !! p = Some e -> now < blockedUntil e -> k <> Success p ->
  (msize (entries c) < maxEntries (cset c) \/ is_Some (entries c !! call_id k)) ->
  exists e', entries (perform visit k now c) !! p = Some e' /\ blockedUntil e' = blockedUntil e.
Proof.
  intros He Hb Hk Hroom. destruct k as [q|q|q]; simpl in *.
  - unfold recordFailure. split_if; [eauto|]. destruct (decide (q = p)) as [->|Hne].
    + rewrite He. unfold Before. rewrite (proj2 (Z.ltb_lt _ _) Hb). simpl. rewrite lookup_insert_eq. eauto.
    + destruct (entries c !! q) as [eq|] eqn:Eq.
      * destruct (Before now (blockedUntil eq)); simpl; [rewrite lookup_insert_ne by done; eauto|].
        destruct (observe _ _ _). simpl. rewrite lookup_insert_ne by done. eauto.
      * destruct Hroom as [Hroom|[? [=]]]. destruct (observe _ _ _). simpl.
        unfold ensureCapacityLocked. rewrite (proj2 (Z.ltb_lt _ _) Hroom).
        rewrite lookup_insert_ne by done. eauto.
  - assert (q <> p) by congruence. unfold recordSuccess. repeat split_if; simpl; eauto.
    rewrite lookup_delete_ne by done. eauto.
  - unfold isBlocked. split_if; [eauto|]. destruct (entries c !! q) as [eq|] eqn:Eq; [|eauto].
    repeat split_if; simpl; eauto. destruct (decide (q = p)) as [->|Hne].
    + bool_to_prop. simplify_eq. lia.
    + rewrite lookup_delete_ne by done. eauto.
Qed.
End Facts.

Definition demo : circuit := newCircuit (resolveSettings None).

Lemma burst_never_trips_witness :
  fst (isBlocked 7 (5 * Second)
    (perform_all map_to_list [(Second, Failure 7); (2 * Second, Failure 9); (3 * Second, Failure 7)] demo)) = false.
Proof.
  apply (burst_never_trips map_to_list 7 Second demo).
  - reflexivity.
  - reflexivity.
  - vm_compute. discriminate.
  - vm_compute. discriminate.
  - vm_compute. discriminate.
  - repeat constructor; vm_compute; discriminate.
  - repeat constructor; vm_compute; discriminate.
  - repeat constructor; intros; vm_compute; reflexivity.
Defined.

Lemma quarantine_ends_witness :
  let c := mkCircuit (cset demo) {[7 := mkEntry 2 1 1 9 1]} in (isBlocked 7 9 c).1 = false.
Proof.
  intros c. refine (proj1 (quarantine_ends 7 9 c (mkEntry 2 1 1 9 1) _ _ _ _)).
  - reflexivity.
  - reflexivity.
  - reflexivity.
  - split; vm_compute; [reflexivity|discriminate].
Defined.

Lemma quarantine_holds_witness :
  let c := mkCircuit (cset demo) {[7 := mkEntry 2 1 1 9 1]} in
  exists e', entries (perform map_to_list (Failure 7) 8 c) !! 7 = Some e' /\ blockedUntil e' = 9.
Proof.
  intros c. apply (quarantine_holds map_to_list 7 (Failure 7) 8 c (mkEntry 2 1 1 9 1)).
  - reflexivity.
  - reflexivity.
  - discriminate.
  - right. eexists. reflexivity.
Defined.

Lemma circuit_bounded_witness :
  circuit_ok (perform_all map_to_list [(1, Failure 7); (2, Failure 8); (3, Success 7)] demo).
Proof. apply (circuit_bounded map_to_list). intros m. reflexivity. Defined.
