(* ===== verification/AbuseLimiter.v ===== *)
(** * The invalid-auth abuse limiter ([service/invalid_auth_abuse_limiter.go])

    Failed API-key authentications are counted per client key in 16 shards with
    a common capacity; clients that find no room share one overflow counter.
    A method is one step on the state: the shard and overflow locks and the
    atomic counters make the interleavings of two calls equal to such steps
    except for the reads of [tracked] between locks.  [now] is the reading of
    [l.now].  Counters that only feed the health report are kept too. *)

From S2P Require Import Prelude.

Definition invalidAuthAbuseShardCount : Z := 16.

Record entry := mkEntry {
  failures : Z;
  windowStart : time;
  blockedUntil : time }.

(** [overflow] has the fields of an entry. *)
Record limiter := mkLimiter {
  threshold : Z;
  window : duration;
  block : duration;
  capacity : Z;
  shards : list (gmap string entry);
  overflow : entry;
  tracked : Z;
  recorded : Z;
  blocked : Z;
  rejected : Z;
  expired : Z;
  overflowed : Z;
  globalBlocked : Z;
  cleanupNext : time;
  cleanupCursor : Z }.

Record abuseConfig := mkAbuseConfig {
  cfg_Enabled : bool;
  cfg_Threshold : Z;
  cfg_WindowSeconds : Z;
  cfg_BlockSeconds : Z;
  cfg_Capacity : Z }.

(** [UnixNano] of the zero [cleanupNext] is the Unix epoch. *)
Definition unixEpoch : time := 62135596800 * Second.

Definition newInvalidAuthAbuseLimiter (cfg : option abuseConfig) : option limiter :=
  match cfg with
  | None => None
  | Some c =>
      if negb (cfg_Enabled c) then None
      else if (cfg_Threshold c <=? 0) || (cfg_WindowSeconds c <=? 0) || (cfg_BlockSeconds c <=? 0)
              || (cfg_Capacity c <=? 0) then None
      else Some (mkLimiter (cfg_Threshold c) (wrap64 (cfg_WindowSeconds c * Second))
                   (wrap64 (cfg_BlockSeconds c * Second)) (cfg_Capacity c)
                   (repeat ∅ (Z.to_nat invalidAuthAbuseShardCount)) (mkEntry 0 0 0)
                   0 0 0 0 0 0 0 unixEpoch 0)
  end.

(** FNV-1a on 32 bits. *)
Definition fnv1a (s : string) : Z :=
  foldl (fun hash c => (Z.lxor hash c * 16777619) mod 2 ^ 32) 2166136261 (str_bytes s).
Definition shard_index (clientKey : string) : nat := Z.to_nat (fnv1a clientKey mod invalidAuthAbuseShardCount).

Definition shard_of (i : nat) (l : limiter) : gmap string entry := default ∅ (shards l !! i).
Definition lookup_key (k : string) (l : limiter) : option entry := shard_of (shard_index k) l !! k.
Definition put_shard (i : nat) (m : gmap string entry) (l : limiter) : limiter :=
  { l with shards := <[i := m]> (shards l) }.
Definition put_key (k : string) (e : entry) (l : limiter) : limiter :=
  put_shard (shard_index k) (<[k := e]> (shard_of (shard_index k) l)) l.

Definition entryExpired (l : limiter) (e : entry) (now : time) : bool :=
  negb (After (blockedUntil e) now) && negb (After (windowStart e) now) &&
  negb (Before now (AddT (windowStart e) (window l))).

Definition maybeCleanupAtCapacity (now : time) (l : limiter) : limiter :=
  if tracked l <? capacity l then l
  else if now <? cleanupNext l then l
  else
    let i := Z.to_nat (cleanupCursor l mod invalidAuthAbuseShardCount) in
    let m := shard_of i l in
    let kept := filter (fun p => entryExpired l p.2 now = false) m in
    let removed := Z.of_nat (size m) - Z.of_nat (size kept) in
    { put_shard i kept l with
      cleanupNext := AddT now (100 * Millisecond);
      cleanupCursor := (cleanupCursor l + 1) mod 2 ^ 32;
      tracked := tracked l - removed;
      expired := expired l + removed }.

(** [if entry != nil && l.entryExpired(entry, now) { ... }]. *)
Definition expireKey (k : string) (now : time) (l : limiter) : limiter :=
  match lookup_key k l with
  | Some e =>
      if entryExpired l e now then
        { put_shard (shard_index k) (delete k (shard_of (shard_index k) l)) l with
          tracked := tracked l - 1; expired := expired l + 1 }
      else l
  | None => l
  end.

Definition checkOverflow (now : time) (l : limiter) : option duration :=
  if After (blockedUntil (overflow l)) now then Some (SubT (blockedUntil (overflow l)) now) else None.

(** [check]: [Some retry] when the client is refused. *)
Definition check (clientKey : string) (now : time) : ST limiter (option duration) := fun l =>
  if String.eqb clientKey "" then (None, l)
  else
    let l := expireKey clientKey now (maybeCleanupAtCapacity now l) in
    match lookup_key clientKey l with
    | Some e =>
        if After (blockedUntil e) now
        then (Some (SubT (blockedUntil e) now), { l with rejected := rejected l + 1 })
        else (None, l)
    | None =>
        if capacity l <=? tracked l then
          match checkOverflow now l with
          | Some retry => (Some retry, { l with rejected := rejected l + 1; globalBlocked := globalBlocked l + 1 })
          | None => (None, l)
          end
        else (None, l)
    end.

(** The end of [record] and of [recordOverflow]: count one failure; the flag
    says that a block began. *)
Definition countFailure (l : limiter) (now : time) (e : entry) : entry * bool :=
  let n := failures e + 1 in
  if threshold l <=? n then (mkEntry 0 (AddT now (block l)) (AddT now (block l)), true)
  else (mkEntry n (windowStart e) (blockedUntil e), false).

Definition recordOverflow (now : time) (l : limiter) : limiter :=
  let l := { l with overflowed := overflowed l + 1 } in
  let o := overflow l in
  if After (blockedUntil o) now then l
  else
    let o := if IsZero (windowStart o) || negb (Before now (AddT (windowStart o) (window l)))
             then mkEntry 0 now (blockedUntil o) else o in
    let '(o, b) := countFailure l now o in
    { l with overflow := o; blocked := if b then blocked l + 1 else blocked l }.

Definition recordEntry (clientKey : string) (now : time) (e : entry) (l : limiter) : limiter :=
  if After (blockedUntil e) now then put_key clientKey e l
  else
    let e := if After (windowStart e) now || negb (Before now (AddT (windowStart e) (window l)))
             then mkEntry 0 now (blockedUntil e) else e in
    let '(e, b) := countFailure l now e in
    { put_key clientKey e l with blocked := if b then blocked l + 1 else blocked l }.

Definition record (clientKey : string) (now : time) (l : limiter) : limiter :=
  if String.eqb clientKey "" then l
  else
    let l := { l with recorded := recorded l + 1 } in
    let l := expireKey clientKey now (maybeCleanupAtCapacity now l) in
    match lookup_key clientKey l with
    | Some e => recordEntry clientKey now e l
    | None =>
        (* [reserveEntry] *)
        if capacity l <=? tracked l then recordOverflow now l
        else recordEntry clientKey now (mkEntry 0 now 0) { l with tracked := tracked l + 1 }
    end.

Record InvalidAuthAbuseHealth := mkHealth {
  Enabled : bool; Tracked : Z; Capacity : Z; Recorded : Z; Blocks : Z; Rejected : Z; Expired : Z;
  Overflowed : Z; GlobalBlocked : Z }.
Definition health (l : limiter) : InvalidAuthAbuseHealth :=
  mkHealth true (tracked l) (capacity l) (recorded l) (blocked l) (rejected l) (expired l)
    (overflowed l) (globalBlocked l).

(** [APIKeyService]'s entry points: a nil limiter never refuses. *)
Definition CheckInvalidAuthAbuse (clientKey : string) (now : time) : ST (option limiter) (option duration) := fun s =>
  match s with
  | None => (None, None)
  | Some l => let '(r, l') := check clientKey now l in (r, Some l')
  end.
Definition RecordInvalidAuthFailure (clientKey : string) (now : time) (s : option limiter) : option limiter :=
  record clientKey now <$> s.

Inductive event := Check (k : string) | Failed (k : string).
#[export] Instance event_eq_dec : EqDecision event.
Proof. solve_decision. Defined.
Definition step (now : time) (e : event) (l : limiter) : limiter :=
  match e with Check k => (check k now l).2 | Failed k => record k now l end.
Fixpoint steps (es : list (time * event)) (l : limiter) : limiter :=
  match es with [] => l | (now, e) :: es' => steps es' (step now e l) end.

(** ** Lemmas *)

Fixpoint total (ms : list (gmap string entry)) : Z :=
  match ms with [] => 0 | m :: ms' => Z.of_nat (size m) + total ms' end.

(** 16 shards; [tracked] counts the entries and stays within the capacity. *)
Record limiter_ok (l : limiter) : Prop := {
  ok_shards : length (shards l) = Z.to_nat invalidAuthAbuseShardCount;
  ok_tracked : tracked l = total (shards l);
  ok_capacity : tracked l <= capacity l }.

Lemma total_insert ms i m : (i < length ms)%nat ->
  total (<[i := m]> ms) = total ms - Z.of_nat (size (default ∅ (ms !! i))) + Z.of_nat (size m).
Proof.
  revert i. induction ms as [|m0 ms IH]; intros [|i] H; simpl in *; [lia..| |].
  - lia.
  - rewrite IH by lia. lia.
Qed.

Lemma shard_index_lt k : (shard_index k < Z.to_nat invalidAuthAbuseShardCount)%nat.
Proof.
  unfold shard_index, invalidAuthAbuseShardCount. pose proof (Z.mod_pos_bound (fnv1a k) 16). lia.
Qed.
Lemma cursor_lt z : (Z.to_nat (z mod invalidAuthAbuseShardCount) < Z.to_nat invalidAuthAbuseShardCount)%nat.
Proof. unfold invalidAuthAbuseShardCount. pose proof (Z.mod_pos_bound z 16). lia. Qed.

Lemma shard_of_insert i j m (l : limiter) : (i < length (shards l))%nat ->
  shard_of j (put_shard i m l) = if decide (i = j) then m else shard_of j l.
Proof.
  intros Hi. unfold shard_of, put_shard. simpl. destruct (decide (i = j)) as [->|Hne].
  - by rewrite list_lookup_insert_eq.
  - by rewrite list_lookup_insert_ne.
Qed.

(** Changing one shard. *)
Lemma put_shard_ok i m (l : limiter) (n : Z) :
  length (shards l) = Z.to_nat invalidAuthAbuseShardCount ->
  (i < Z.to_nat invalidAuthAbuseShardCount)%nat ->
  tracked l = total (shards l) ->
  n = tracked l - Z.of_nat (size (shard_of i l)) + Z.of_nat (size m) ->
  length (shards (put_shard i m l)) = Z.to_nat invalidAuthAbuseShardCount /\
  n = total (shards (put_shard i m l)).
Proof.
  intros Hl Hi Ht ->. unfold put_shard, shard_of. simpl. rewrite length_insert. split; [done|].
  rewrite total_insert by lia. lia.
Qed.

Lemma filter_size (P : string * entry -> Prop) `{!forall p, Decision (P p)} (m : gmap string entry) :
  (size (filter P m) <= size m)%nat.
Proof. apply map_subseteq_size, map_filter_subseteq. Qed.

Lemma cleanup_ok now l : limiter_ok l -> limiter_ok (maybeCleanupAtCapacity now l).
Proof.
  intros [Hl Ht Hc]. unfold maybeCleanupAtCapacity. split_if; [done|]. split_if; [done|].
  set (i := Z.to_nat _). set (kept := filter _ _).
  pose proof (filter_size (fun p => entryExpired l p.2 now = false) (shard_of i l)) as Hsz. fold kept in Hsz.
  destruct (put_shard_ok i kept l (tracked l - (Z.of_nat (size (shard_of i l)) - Z.of_nat (size kept))) Hl
    (cursor_lt _) Ht) as [H1 H2]; [lia|].
  split; [exact H1|exact H2|]. change (tracked l - (Z.of_nat (size (shard_of i l)) - Z.of_nat (size kept)) <= capacity l).
  lia.
Qed.

Lemma expire_ok k now l : limiter_ok l -> limiter_ok (expireKey k now l).
Proof.
  intros Hok. unfold expireKey. destruct (lookup_key k l) as [e|] eqn:E; [|done].
  destruct (entryExpired l e now); [|done]. destruct Hok as [Hl Ht Hc].
  unfold lookup_key in E.
  destruct (put_shard_ok (shard_index k) (delete k (shard_of (shard_index k) l)) l (tracked l - 1) Hl
    (shard_index_lt k) Ht) as [H1 H2].
  { assert (size (shard_of (shard_index k) l) <> 0%nat).
    { apply map_size_ne_0_lookup. exists k. eauto. }
    rewrite map_size_delete_Some by eauto. lia. }
  split; [exact H1|exact H2|]. change (tracked l - 1 <= capacity l). lia.
Qed.

Lemma put_key_ok k e l n : length (shards l) = Z.to_nat invalidAuthAbuseShardCount ->
  tracked l = total (shards l) ->
  n = match lookup_key k l with Some _ => tracked l | None => tracked l + 1 end ->
  length (shards (put_key k e l)) = Z.to_nat invalidAuthAbuseShardCount /\ n = total (shards (put_key k e l)).
Proof.
  intros Hl Ht ->. unfold put_key. apply put_shard_ok; [done|apply shard_index_lt|done|].
  rewrite map_size_insert. unfold lookup_key. destruct (shard_of (shard_index k) l !! k); simpl; lia.
Qed.

(** [recordEntry] stores one entry for the key and touches no other field that
    the invariant reads. *)
Lemma recordEntry_shape k now e l :
  exists e', (exists b, recordEntry k now e l = { put_key k e' l with blocked := b }) \/
            recordEntry k now e l = put_key k e' l.
Proof.
  unfold recordEntry. destruct (After (blockedUntil e) now); [eauto|].
  destruct (countFailure _ _ _) as [e' b]. eauto.
Qed.

Lemma step_ok now e l : limiter_ok l -> limiter_ok (step now e l).
Proof.
  intros Hok. destruct e as [k|k]; simpl.
  - unfold check. destruct (String.eqb k ""); [done|].
    pose proof (expire_ok k now _ (cleanup_ok now l Hok)) as Hok1.
    set (l1 := expireKey _ _ _) in *. destruct Hok1 as [H1 H2 H3].
    repeat (split_if; simpl); by split.
  - unfold record. destruct (String.eqb k ""); [done|].
    assert (Hr : limiter_ok { l with recorded := recorded l + 1 }) by (by destruct Hok).
    pose proof (expire_ok k now _ (cleanup_ok now _ Hr)) as Hok1.
    set (l1 := expireKey _ _ _) in *. clearbody l1. destruct Hok1 as [H1 H2 H3].
    destruct (lookup_key k l1) as [e|] eqn:E.
    + destruct (recordEntry_shape k now e l1) as (e' & Hsh).
      destruct (put_key_ok k e' l1 (tracked l1) H1 H2) as [H4 H5]; [by rewrite E|].
      destruct Hsh as [[b ->] | ->]; by split.
    + destruct (capacity l1 <=? tracked l1) eqn:Hc.
      * unfold recordOverflow. repeat (split_if; simpl); try (by split);
          destruct (countFailure _ _ _); by split.
      * bool_to_prop. set (l2 := { l1 with tracked := tracked l1 + 1 }).
        destruct (recordEntry_shape k now (mkEntry 0 now 0) l2) as (e' & Hsh).
        destruct (put_key_ok k e' l1 (tracked l1 + 1) H1 H2) as [H4 H5]; [by rewrite E|].
        destruct Hsh as [[b ->] | ->]; (split; [exact H4|exact H5|]);
          change (tracked l1 + 1 <= capacity l1); lia.
Qed.

(** *** The entry of one key *)

Definition same_config (l l' : limiter) : Prop :=
  threshold l' = threshold l /\ window l' = window l /\ block l' = block l /\ capacity l' = capacity l.

Lemma same_config_trans l1 l2 l3 : same_config l1 l2 -> same_config l2 l3 -> same_config l1 l3.
Proof. intros (?&?&?&?) (?&?&?&?). repeat split; congruence. Qed.

(** What one more failure makes of an entry. *)
Definition next_entry (l : limiter) (now : time) (e : entry) : entry :=
  if After (blockedUntil e) now then e
  else fst (countFailure l now
              (if After (windowStart e) now || negb (Before now (AddT (windowStart e) (window l)))
               then mkEntry 0 now (blockedUntil e) else e)).

Lemma lookup_put_key k k' e l : length (shards l) = Z.to_nat invalidAuthAbuseShardCount ->
  lookup_key k' (put_key k e l) = if decide (k = k') then Some e else lookup_key k' l.
Proof.
  intros Hl. unfold lookup_key, put_key. rewrite shard_of_insert by (rewrite Hl; apply shard_index_lt).
  destruct (decide (k = k')) as [->|Hne].
  - rewrite decide_True by done. by rewrite lookup_insert_eq.
  - destruct (decide (shard_index k = shard_index k')) as [E|]; [|done].
    rewrite lookup_insert_ne by done. by rewrite E.
Qed.

Lemma cleanup_keeps now l k e : limiter_ok l ->
  lookup_key k l = Some e -> entryExpired l e now = false ->
  lookup_key k (maybeCleanupAtCapacity now l) = Some e /\ same_config l (maybeCleanupAtCapacity now l).
Proof.
  intros [Hl _ _] Hk He. unfold maybeCleanupAtCapacity. split_if; [done|]. split_if; [done|].
  split; [|done]. set (i := Z.to_nat _). set (kept := filter _ _).
  change (lookup_key k (put_shard i kept l) = Some e). unfold lookup_key in *.
  rewrite shard_of_insert by (rewrite Hl; apply cursor_lt). destruct (decide (i = shard_index k)) as [E|]; [|done].
  unfold kept. apply map_lookup_filter_Some. by rewrite E.
Qed.

Lemma expire_keeps now l k k' e : limiter_ok l ->
  lookup_key k l = Some e -> entryExpired l e now = false ->
  lookup_key k (expireKey k' now l) = Some e /\ same_config l (expireKey k' now l).
Proof.
  intros [Hl _ _] Hk He. unfold expireKey. destruct (lookup_key k' l) as [e'|] eqn:E; [|done].
  destruct (entryExpired l e' now) eqn:Ee; [|done]. split; [|done].
  change (lookup_key k (put_shard (shard_index k') (delete k' (shard_of (shard_index k') l)) l) = Some e).
  unfold lookup_key in *. rewrite shard_of_insert by (rewrite Hl; apply shard_index_lt).
  assert (k' <> k) by congruence.
  destruct (decide (shard_index k' = shard_index k)) as [E2|]; [|done].
  rewrite lookup_delete_ne by done. by rewrite E2.
Qed.

Lemma recordEntry_next k now e l :
  length (shards l) = Z.to_nat invalidAuthAbuseShardCount ->
  (forall k', lookup_key k' (recordEntry k now e l) =
     if decide (k = k') then Some (next_entry l now e) else lookup_key k' l) /\
  same_config l (recordEntry k now e l).
Proof.
  intros Hl. unfold recordEntry, next_entry. destruct (After (blockedUntil e) now).
  - split; [|done]. intros k'. by apply lookup_put_key.
  - destruct (countFailure l now _) as [e' b]. split; [|done]. intros k'.
    change (lookup_key k' (put_key k e' l) = if decide (k = k') then Some e' else lookup_key k' l).
    by apply lookup_put_key.
Qed.

(** The first steps of [check] and [record] keep a live entry. *)
Lemma settle_keeps now l k k' e : limiter_ok l ->
  lookup_key k l = Some e -> entryExpired l e now = false ->
  let l1 := expireKey k' now (maybeCleanupAtCapacity now l) in
  limiter_ok l1 /\ lookup_key k l1 = Some e /\ same_config l l1.
Proof.
  intros Hok Hk He. destruct (cleanup_keeps now l k e Hok Hk He) as [H1 Hc1].
  pose proof (cleanup_ok now l Hok) as Hok1.
  assert (He1 : entryExpired (maybeCleanupAtCapacity now l) e now = false).
  { unfold entryExpired in *. destruct Hc1 as (_ & -> & _). exact He. }
  destruct (expire_keeps now _ k k' e Hok1 H1 He1) as [H2 Hc2].
  split; [by apply expire_ok|]. split; [exact H2|].
  by apply same_config_trans with (maybeCleanupAtCapacity now l).
Qed.

(** An event while the entry of [k] is live. *)
Lemma step_entry now ev l k e : limiter_ok l -> k <> "" ->
  lookup_key k l = Some e -> entryExpired l e now = false ->
  lookup_key k (step now ev l) = Some (if bool_decide (ev = Failed k) then next_entry l now e else e) /\
  same_config l (step now ev l).
Proof.
  intros Hok Hne Hk He. destruct ev as [k'|k']; cbn [step].
  - rewrite bool_decide_eq_false_2 by done. unfold check. destruct (String.eqb k' ""); [done|].
    destruct (settle_keeps now l k k' e Hok Hk He) as (_ & H2 & H3).
    set (l1 := expireKey _ _ _) in *. clearbody l1. repeat (split_if; simpl); done.
  - unfold record. destruct (String.eqb_spec k' "") as [->|Hne'].
    { rewrite bool_decide_eq_false_2 by congruence. done. }
    assert (Hok0 : limiter_ok { l with recorded := recorded l + 1 }) by (by destruct Hok).
    destruct (settle_keeps now { l with recorded := recorded l + 1 } k k' e Hok0 Hk He) as (Hok1 & H2 & H3).
    set (l1 := expireKey _ _ _) in *. clearbody l1. pose proof (ok_shards _ Hok1) as Hsh.
    assert (Hnext : next_entry l1 now e = next_entry l now e).
    { destruct H3 as (E1 & E2 & E3 & _). unfold next_entry, countFailure. by rewrite E1, E2, E3. }
    destruct (lookup_key k' l1) as [e'|] eqn:E.
    + destruct (recordEntry_next k' now e' l1 Hsh) as [Hl Hc]. rewrite Hl.
      split; [|exact (same_config_trans _ _ _ H3 Hc)].
      destruct (decide (k' = k)) as [->|Hk'].
      * rewrite bool_decide_eq_true_2 by done. rewrite H2 in E. simplify_eq. by rewrite Hnext.
      * rewrite bool_decide_eq_false_2 by congruence. exact H2.
    + assert (k' <> k) by congruence. rewrite bool_decide_eq_false_2 by congruence.
      destruct (capacity l1 <=? tracked l1).
      * unfold recordOverflow. repeat (split_if; simpl); try done; by destruct (countFailure _ _ _).
      * match goal with |- context [recordEntry k' now ?e0 ?l2] =>
          destruct (recordEntry_next k' now e0 l2 Hsh) as [Hl Hc] end.
        rewrite Hl, decide_False by done. split; [exact H2|]. exact (same_config_trans _ _ _ H3 Hc).
Qed.

Lemma steps_app es1 es2 l : steps (es1 ++ es2) l = steps es2 (steps es1 l).
Proof. revert l. induction es1 as [|[now e] es1 IH]; intros l; simpl; [done|]. apply IH. Qed.

Definition failures_of (k : string) (es : list (time * event)) : Z :=
  Z.of_nat (length (filter (fun p => p.2 = Failed k) es)).

(** While the count stays below the threshold, failures in the window add up. *)
Lemma steps_count es l k i t0 bu :
  limiter_ok l -> k <> "" -> lookup_key k l = Some (mkEntry i t0 bu) -> bu <= t0 ->
  Forall (fun p => t0 <= p.1 < t0 + window l) es -> i + failures_of k es < threshold l ->
  lookup_key k (steps es l) = Some (mkEntry (i + failures_of k es) t0 bu) /\ same_config l (steps es l) /\
  limiter_ok (steps es l).
Proof.
  intros Hok Hne. revert l i Hok. induction es as [|[now ev] es IH]; intros l i Hok Hk Hbu Hin Hlt.
  { unfold failures_of. simpl. rewrite Z.add_0_r. done. }
  apply Forall_cons in Hin as [Hnow Hin]. simpl in Hnow.
  assert (Hlive : entryExpired l (mkEntry i t0 bu) now = false).
  { unfold entryExpired, Before, AddT. simpl. rewrite (proj2 (Z.ltb_lt _ _)) by lia. by rewrite andb_false_r. }
  destruct (step_entry now ev l k _ Hok Hne Hk Hlive) as [Hs Hc]. pose proof (step_ok now ev l Hok) as Hok1.
  destruct Hc as (C1 & C2 & C3 & C4). simpl.
  assert (Hf : failures_of k ((now, ev) :: es) = (if bool_decide (ev = Failed k) then 1 else 0) + failures_of k es).
  { unfold failures_of. rewrite filter_cons. simpl. case_bool_decide; [rewrite decide_True by done|rewrite decide_False by done];
      simpl; lia. }
  rewrite Hf in *. case_bool_decide as Hev.
  - assert (Hn : next_entry l now (mkEntry i t0 bu) = mkEntry (i + 1) t0 bu).
    { unfold next_entry, countFailure, After, Before, AddT. simpl.
      rewrite (proj2 (Z.ltb_ge now bu)), (proj2 (Z.ltb_ge now t0)), (proj2 (Z.ltb_lt now (t0 + window l))) by lia.
      simpl. assert (0 <= failures_of k es) by (unfold failures_of; lia).
      by rewrite (proj2 (Z.leb_gt (threshold l) (i + 1))) by lia. }
    rewrite Hn in Hs. destruct (IH (step now ev l) (i + 1) Hok1 Hs Hbu) as (H1 & H2 & H3).
    + by rewrite C2.
    + rewrite C1. lia.
    + split; [rewrite H1; do 2 f_equal; lia|]. split; [|done]. by eapply same_config_trans.
  - destruct (IH (step now ev l) i Hok1 Hs Hbu) as (H1 & H2 & H3).
    + by rewrite C2.
    + rewrite C1. lia.
    + split; [rewrite H1; do 2 f_equal; lia|]. split; [|done]. by eapply same_config_trans.
Qed.

(** A blocked entry is not changed before the block ends. *)
Lemma steps_blocked es l k i w u :
  limiter_ok l -> k <> "" -> lookup_key k l = Some (mkEntry i w u) -> Forall (fun p => p.1 < u) es ->
  lookup_key k (steps es l) = Some (mkEntry i w u) /\ limiter_ok (steps es l).
Proof.
  intros Hok Hne. revert l Hok. induction es as [|[now ev] es IH]; intros l Hok Hk Hin; [done|].
  apply Forall_cons in Hin as [Hnow Hin]. simpl in Hnow.
  assert (Ha : After u now = true) by (unfold After; by apply Z.ltb_lt).
  assert (Hlive : entryExpired l (mkEntry i w u) now = false).
  { unfold entryExpired. simpl. by rewrite Ha. }
  destruct (step_entry now ev l k _ Hok Hne Hk Hlive) as [Hs _]. simpl. apply IH; [by apply step_ok| |done].
  rewrite Hs. unfold next_entry. simpl. rewrite Ha. by destruct (bool_decide _).
Qed.

(** ** Properties *)

(** The limiter is bounded.  Whatever clients do, [tracked] is the number
    of entries kept in the 16 shards and never exceeds the capacity. *)
Theorem limiter_bounded cfg l (es : list (time * event)) :
  newInvalidAuthAbuseLimiter cfg = Some l -> limiter_ok (steps es l).
Proof.
  intros H. assert (Hok : limiter_ok l).
  { unfold newInvalidAuthAbuseLimiter in H. destruct cfg as [c|]; [|done].
    destruct (cfg_Enabled c); simpl in H; [|done].
    destruct (cfg_Capacity c <=? 0) eqn:Hc; [by rewrite orb_true_r in H|]. rewrite orb_false_r in H.
    destruct (_ || _); [done|]. simplify_eq. bool_to_prop. split; simpl; [done|done|lia]. }
  clear H. revert l Hok. induction es as [|[now e] es IH]; intros l Hok; [done|].
  simpl. apply IH. by apply step_ok.
Qed.

(** The threshold blocks, for the whole block and only then.  Let the
    entry of a client hold [i] failures since [t0].  If events in the window add
    up to one failure less than the threshold and the client then fails once
    more at [t] in the window, every check of the client before [t + block] is
    refused with the time left, whatever other clients do and whatever the
    client itself does in between. *)
Theorem threshold_blocks l k i t0 bu es1 t es2 t' :
  limiter_ok l -> k <> "" -> lookup_key k l = Some (mkEntry i t0 bu) -> bu <= t0 ->
  Forall (fun p => t0 <= p.1 < t0 + window l) es1 ->
  i + failures_of k es1 = threshold l - 1 -> t0 <= t < t0 + window l ->
  Forall (fun p => p.1 < t + block l) es2 -> t' < t + block l ->
  (check k t' (steps (es1 ++ (t, Failed k) :: es2) l)).1 = Some (SubT (t + block l) t').
Proof.
  intros Hok Hne Hk Hbu H1 Hcount Ht H2 Ht'. rewrite steps_app.
  destruct (steps_count es1 l k i t0 bu Hok Hne Hk Hbu H1) as (E1 & Hc & Hok1); [lia|].
  set (l1 := steps es1 l) in *. clearbody l1. destruct Hc as (C1 & C2 & C3 & C4).
  assert (Hlive : entryExpired l1 (mkEntry (i + failures_of k es1) t0 bu) t = false).
  { unfold entryExpired, Before, AddT. simpl. rewrite C2, (proj2 (Z.ltb_lt _ _)) by lia. by rewrite andb_false_r. }
  destruct (step_entry t (Failed k) l1 k _ Hok1 Hne E1 Hlive) as [Hs _].
  rewrite bool_decide_eq_true_2 in Hs by done.
  assert (Hn : next_entry l1 t (mkEntry (i + failures_of k es1) t0 bu) = mkEntry 0 (t + block l) (t + block l)).
  { unfold next_entry, countFailure, After, Before, AddT. simpl. rewrite C1, C2, C3.
    rewrite (proj2 (Z.ltb_ge t bu)), (proj2 (Z.ltb_ge t t0)), (proj2 (Z.ltb_lt t (t0 + window l))) by lia. simpl.
    by rewrite (proj2 (Z.leb_le (threshold l) (i + failures_of k es1 + 1))) by lia. }
  rewrite Hn in Hs. cbn [steps].
  destruct (steps_blocked es2 _ k _ _ _ (step_ok t (Failed k) l1 Hok1) Hne Hs H2) as [Hb Hok2].
  set (l2 := steps es2 _) in *. clearbody l2.
  unfold check. rewrite (proj2 (String.eqb_neq _ _) Hne).
  assert (Ha : After (t + block l) t' = true) by (unfold After; by apply Z.ltb_lt).
  destruct (settle_keeps t' l2 k k _ Hok2 Hb) as (_ & H3 & _); [unfold entryExpired; simpl; by rewrite Ha|].
  cbv zeta. rewrite H3. simpl. by rewrite Ha.
Qed.

Definition demo : limiter :=
  mkLimiter 3 100 50 2 (repeat ∅ 16) (mkEntry 0 0 0) 0 0 0 0 0 0 0 unixEpoch 0.

Lemma limiter_bounded_witness :
  limiter_ok (steps [(5, Failed "a"); (6, Failed "b"); (7, Failed "c")]
    (default demo (newInvalidAuthAbuseLimiter (Some (mkAbuseConfig true 3 1 1 2))))).
Proof. apply (limiter_bounded (Some (mkAbuseConfig true 3 1 1 2))). reflexivity. Defined.

Lemma threshold_blocks_witness :
  let l := record "1.2.3.4" 1000 demo in
  (check "1.2.3.4" 1030 (steps [(1010, Failed "x"); (1010, Failed "1.2.3.4"); (1020, Failed "1.2.3.4");
                                (1025, Failed "y")] l)).1 = Some 40.
Proof.
  intros l.
  apply (threshold_blocks l "1.2.3.4" 1 1000 0 [(1010, Failed "x"); (1010, Failed "1.2.3.4")] 1020
    [(1025, Failed "y")] 1030).
  - apply (step_ok 1000 (Failed "1.2.3.4") demo). split; reflexivity || (vm_compute; discriminate).
  - discriminate.
  - vm_compute. reflexivity.
  - lia.
  - repeat constructor; vm_compute; discriminate || reflexivity.
  - reflexivity.
  - split; vm_compute; discriminate || reflexivity.
  - repeat constructor.
  - reflexivity.
Defined.
