(* ===== verification/RedisSlots.v ===== *)
(** * Concurrency slots: the Redis scripts of [repository/concurrency_cache.go]

    Redis is not part of the repository: [Redis] is the interface of the
    commands the scripts call, [RedisSpec] their documented behaviour on the
    sorted sets and counters they touch, and [memRedis] an instance.  Each Lua
    script is an atomic transformer of the store, translated command by
    command.  Scores are whole Unix seconds, which doubles represent exactly. *)

From S2P Require Import Prelude.

Class Redis (S : Type) := {
  TIME : ST S Z;
  ZREMRANGEBYSCORE : string -> Z -> ST S unit;
  ZSCORE : string -> string -> ST S (option Z);
  ZCARD : string -> ST S Z;
  ZADD : string -> Z -> string -> ST S unit;
  ZREM : string -> string -> ST S Z;
  ZRANGE_ALL : string -> ST S (list string);
  ZRANGEBYSCORE : string -> Z -> Z -> ST S (list string);
  EXPIRE : string -> Z -> ST S unit;
  DEL : string -> ST S unit;
  GET : string -> ST S (option Z);
  INCR : string -> ST S unit;
  DECR : string -> ST S unit }.

(** The sorted set and the counter of every key, absent keys being empty.  A
    key whose time to live ends is emptied between commands. *)
Class RedisSpec (S : Type) `{!Redis S} := {
  zset : S -> string -> gmap string Z;
  counter : S -> string -> option Z;
  clock : S -> Z;
  time_spec s : TIME s = (clock s, s);
  clock_pos s : 0 < clock s;
  zscore_spec k m s : ZSCORE k m s = (zset s k !! m, s);
  zcard_spec k s : ZCARD k s = (Z.of_nat (size (zset s k)), s);
  zrange_spec k s : ZRANGE_ALL k s = (map fst (map_to_list (zset s k)), s);
  zrangebyscore_state k max count s : (ZRANGEBYSCORE k max count s).2 = s;
  zrangebyscore_sound k max count s m : m ∈ (ZRANGEBYSCORE k max count s).1 ->
    exists v, zset s k !! m = Some v /\ v <= max;
  zrangebyscore_complete k max count s m v : zset s k !! m = Some v -> v <= max -> 0 <= count ->
    m ∈ (ZRANGEBYSCORE k max count s).1 \/ Z.of_nat (length (ZRANGEBYSCORE k max count s).1) = count;
  get_spec k s : GET k s = (counter s k, s);
  zremrange_spec k lim s k' : zset (ZREMRANGEBYSCORE k lim s).2 k' =
    if decide (k = k') then filter (fun p => lim < p.2) (zset s k) else zset s k';
  zremrange_counter k lim s k' : counter (ZREMRANGEBYSCORE k lim s).2 k' = counter s k';
  zadd_spec k v m s k' : zset (ZADD k v m s).2 k' = if decide (k = k') then <[m := v]> (zset s k) else zset s k';
  zadd_counter k v m s k' : counter (ZADD k v m s).2 k' = counter s k';
  zrem_result k m s : (ZREM k m s).1 = match zset s k !! m with Some _ => 1 | None => 0 end;
  zrem_spec k m s k' : zset (ZREM k m s).2 k' = if decide (k = k') then delete m (zset s k) else zset s k';
  zrem_counter k m s k' : counter (ZREM k m s).2 k' = counter s k';
  expire_spec k t s k' : zset (EXPIRE k t s).2 k' = if decide (k = k' /\ t <= 0) then ∅ else zset s k';
  expire_counter k t s k' : counter (EXPIRE k t s).2 k' = if decide (k = k' /\ t <= 0) then None else counter s k';
  del_spec k s k' : zset (DEL k s).2 k' = if decide (k = k') then ∅ else zset s k';
  del_counter k s k' : counter (DEL k s).2 k' = if decide (k = k') then None else counter s k';
  incr_spec k s k' : zset (INCR k s).2 k' = zset s k';
  incr_counter k s k' : counter (INCR k s).2 k' =
    if decide (k = k') then Some (default 0 (counter s k) + 1) else counter s k';
  decr_spec k s k' : zset (DECR k s).2 k' = zset s k';
  decr_counter k s k' : counter (DECR k s).2 k' =
    if decide (k = k') then Some (default 0 (counter s k) - 1) else counter s k' }.

(** ** The scripts *)

Section Scripts.
Context {S : Type} `{!Redis S}.

(** [{1, now}] and [{0, now}] are pairs of a flag and the time. *)
Definition acquireScript (key liveKey : string) (maxConcurrency ttl : Z) (requestID : string) : ST S (bool * Z) :=
  now ← TIME;
  _ ← ZREMRANGEBYSCORE key (now - ttl);
  _ ← ZREMRANGEBYSCORE liveKey (now - 60);
  exist ← ZSCORE key requestID;
  match exist with
  | Some _ => _ ← ZADD key now requestID; _ ← EXPIRE key ttl; mret (true, now)
  | None =>
      c1 ← ZCARD key;
      c2 ← ZCARD liveKey;
      if c1 + c2 <? maxConcurrency
      then _ ← ZADD key now requestID; _ ← EXPIRE key ttl; mret (true, now)
      else mret (false, now)
  end.

Definition getCountScript (key liveKey : string) (ttl : Z) : ST S Z :=
  now ← TIME;
  _ ← ZREMRANGEBYSCORE key (now - ttl);
  _ ← ZREMRANGEBYSCORE liveKey (now - 60);
  c1 ← ZCARD key;
  c2 ← ZCARD liveKey;
  mret (c1 + c2).

Definition acquireLiveLeaseScript (accountRegular accountLive userRegular userLive apiLive : string)
  (accountMax userMax ttl : Z) (leaseID : string) (replacing : Z) : ST S bool :=
  now ← TIME;
  _ ← ZREMRANGEBYSCORE accountLive (now - ttl);
  _ ← ZREMRANGEBYSCORE userLive (now - ttl);
  _ ← ZREMRANGEBYSCORE apiLive (now - ttl);
  exist ← ZSCORE accountLive leaseID;
  match exist with
  | Some _ => mret true
  | None =>
      a1 ← ZCARD accountRegular; a2 ← ZCARD accountLive;
      u1 ← ZCARD userRegular; u2 ← ZCARD userLive;
      let allowance := if replacing =? 1 then 1 else 0 in
      if (0 <? accountMax) && (accountMax + allowance <=? a1 + a2) then mret false
      else if (0 <? userMax) && (userMax + allowance <=? u1 + u2) then mret false
      else
        _ ← ZADD accountLive now leaseID; _ ← ZADD userLive now leaseID; _ ← ZADD apiLive now leaseID;
        _ ← EXPIRE accountLive ttl; _ ← EXPIRE userLive ttl; _ ← EXPIRE apiLive ttl;
        mret true
  end.

(** The first loop of [refreshLiveLeaseScript]: [false] at the first key that
    has lost the lease. *)
Fixpoint confirmAll (keys : list string) (expireBefore : Z) (leaseID : string) : ST S bool :=
  match keys with
  | [] => mret true
  | key :: keys' =>
      _ ← ZREMRANGEBYSCORE key expireBefore;
      exist ← ZSCORE key leaseID;
      match exist with
      | None => mret false
      | Some _ => confirmAll keys' expireBefore leaseID
      end
  end.
Fixpoint renewAll (keys : list string) (now ttl : Z) (leaseID : string) : ST S unit :=
  match keys with
  | [] => mret tt
  | key :: keys' => _ ← ZADD key now leaseID; _ ← EXPIRE key ttl; renewAll keys' now ttl leaseID
  end.
Definition refreshLiveLeaseScript (keys : list string) (ttl : Z) (leaseID : string) : ST S bool :=
  now ← TIME;
  ok ← confirmAll keys (now - ttl) leaseID;
  match ok with
  | true => _ ← renewAll keys now ttl leaseID; mret true
  | false => mret false
  end.

Definition trackSlotScript (key : string) (ttl : Z) (requestID : string) : ST S unit :=
  now ← TIME;
  _ ← ZREMRANGEBYSCORE key (now - ttl);
  _ ← ZADD key now requestID;
  EXPIRE key ttl.

Definition acquireOpenAIWSIngressLeaseScript (key : string) (maxConnections ttl : Z) (leaseID : string) : ST S bool :=
  now ← TIME;
  _ ← ZREMRANGEBYSCORE key (now - ttl);
  exist ← ZSCORE key leaseID;
  match exist with
  | Some _ => _ ← ZADD key now leaseID; _ ← EXPIRE key ttl; mret true
  | None =>
      c ← ZCARD key;
      if c <? maxConnections then _ ← ZADD key now leaseID; _ ← EXPIRE key ttl; mret true
      else mret false
  end.

Definition refreshOpenAIWSIngressLeaseScript (key : string) (ttl : Z) (leaseID : string) : ST S bool :=
  now ← TIME;
  _ ← ZREMRANGEBYSCORE key (now - ttl);
  exist ← ZSCORE key leaseID;
  match exist with
  | None => mret false
  | Some _ => _ ← ZADD key now leaseID; _ ← EXPIRE key ttl; mret true
  end.

(** [incrementWaitScript] and [incrementAccountWaitScript] have the same text. *)
Definition incrementWaitScript (key : string) (maxWait ttl : Z) : ST S (bool * Z) :=
  current ← GET key;
  now ← TIME;
  if maxWait <=? default 0 current then mret (false, now)
  else _ ← INCR key; _ ← EXPIRE key ttl; mret (true, now).

Definition decrementWaitScript (key : string) : ST S unit :=
  current ← GET key;
  match current with
  | Some c => if 0 <? c then DECR key else mret tt
  | None => mret tt
  end.

Definition cleanupExpiredSlotsScript (key : string) (ttl : Z) : ST S unit :=
  now ← TIME;
  _ ← ZREMRANGEBYSCORE key (now - ttl);
  c ← ZCARD key;
  if c =? 0 then DEL key else EXPIRE key ttl.

Fixpoint removeForeign (key activePrefix : string) (members : list string) (removed : Z) : ST S Z :=
  match members with
  | [] => mret removed
  | member :: members' =>
      if negb (HasPrefix member activePrefix) then
        n ← ZREM key member; removeForeign key activePrefix members' (removed + n)
      else removeForeign key activePrefix members' removed
  end.
Definition startupCleanupSlotScript (key activePrefix : string) (slotTTL : Z) : ST S (Z * Z) :=
  members ← ZRANGE_ALL key;
  removed ← removeForeign key activePrefix members 0;
  remaining ← ZCARD key;
  _ ← (if remaining =? 0 then DEL key else EXPIRE key slotTTL);
  mret (removed, remaining).
End Scripts.

(** ** What can happen to the slots of one account (or user) *)

(** The slots are the members of [key] (ordinary requests) and [live] (live
    sessions) of an account or of a user: a live session takes one of both, so that
    its script sees the keys in the place of the account's or of the user's.
    [Lapse] is the time to live of keys ending. *)
Inductive slot_op :=
| Acquire (maxConcurrency ttl : Z) (requestID : string)
| AcquireLive (userRegular userLive apiLive : string) (accountMax userMax ttl : Z) (leaseID : string)
    (replacing : Z)
| AcquireUserLive (accountRegular accountLive apiLive : string) (accountMax userMax ttl : Z) (leaseID : string)
    (replacing : Z)
| RefreshLive (keys : list string) (ttl : Z) (leaseID : string)
| Release (k member : string)
| Count (ttl : Z)
| Cleanup (k : string) (ttl : Z)
| Startup (k activePrefix : string) (ttl : Z)
| Track (k : string) (ttl : Z) (requestID : string)
| Lapse.

Section Slots.
Context {S : Type} `{!Redis S} `{!RedisSpec S}.
Variables key live : string.

Inductive slot_step : slot_op -> S -> S -> Prop :=
| step_acquire m t r s : slot_step (Acquire m t r) s (acquireScript key live m t r s).2
| step_live ur ul al am um t l rp s :
    slot_step (AcquireLive ur ul al am um t l rp) s (acquireLiveLeaseScript key live ur ul al am um t l rp s).2
| step_user_live ar al pl am um t l rp s :
    slot_step (AcquireUserLive ar al pl am um t l rp) s (acquireLiveLeaseScript ar al key live pl am um t l rp s).2
| step_refresh ks t l s : slot_step (RefreshLive ks t l) s (refreshLiveLeaseScript ks t l s).2
| step_release k m s : slot_step (Release k m) s (ZREM k m s).2
| step_count t s : slot_step (Count t) s (getCountScript key live t s).2
| step_cleanup k t s : slot_step (Cleanup k t) s (cleanupExpiredSlotsScript k t s).2
| step_startup k p t s : slot_step (Startup k p t) s (startupCleanupSlotScript k p t s).2
| step_track k t r s : slot_step (Track k t r) s (trackSlotScript k t r s).2
| step_lapse s s' : (forall k, zset s' k ⊆ zset s k) -> slot_step Lapse s s'.

(** A session that replaces an ordinary slot may take one more for a while. *)
Definition allowance (replacing : Z) : Z := if replacing =? 1 then 1 else 0.

(** Acquisitions have a limit, which is at most [M] with its allowance, and the keys
    are not used as the keys of something else. *)
Definition op_ok (M : Z) (o : slot_op) : Prop :=
  match o with
  | Acquire m _ _ => m <= M
  | AcquireLive ur ul al am _ _ _ rp => 0 < am /\ am + allowance rp <= M /\ ul <> key /\ ul <> live /\ al <> key /\ al <> live
  | AcquireUserLive ar al pl _ um _ _ rp => 0 < um /\ um + allowance rp <= M /\ al <> key /\ al <> live /\ pl <> key /\ pl <> live
  | Track k _ _ => k <> key /\ k <> live
  | RefreshLive _ t _ => 0 < t
  | _ => True
  end.

Definition slots (s : S) : Z := Z.of_nat (size (zset s key)) + Z.of_nat (size (zset s live)).

Inductive slot_steps : list slot_op -> S -> S -> Prop :=
| steps_nil s : slot_steps [] s s
| steps_cons o l s s1 s2 : slot_step o s s1 -> slot_steps l s1 s2 -> slot_steps (o :: l) s s2.
End Slots.

(** ** Lemmas *)

Section Facts.
Context {S : Type} `{!Redis S} `{!RedisSpec S}.
Implicit Types (s : S) (k : string).

(** No key gains a member. *)
Definition shrinks s s' : Prop := forall k, dom (zset s' k) ⊆ dom (zset s k).

Lemma shrinks_refl s : shrinks s s.
Proof. intros k. reflexivity. Qed.
Lemma shrinks_trans s1 s2 s3 : shrinks s1 s2 -> shrinks s2 s3 -> shrinks s1 s3.
Proof. intros H1 H2 k. etrans; [apply H2|apply H1]. Qed.

Lemma zremrange_shrinks k lim s : shrinks s (ZREMRANGEBYSCORE k lim s).2.
Proof.
  intros k'. rewrite zremrange_spec. destruct (decide (k = k')) as [->|]; [|reflexivity]. apply dom_filter_subseteq.
Qed.
Lemma zrem_shrinks k m s : shrinks s (ZREM k m s).2.
Proof.
  intros k'. rewrite zrem_spec. destruct (decide (k = k')) as [->|]; [|reflexivity].
  rewrite dom_delete. apply subseteq_difference_l. reflexivity.
Qed.
Lemma expire_shrinks k t s : shrinks s (EXPIRE k t s).2.
Proof. intros k'. rewrite expire_spec. destruct (decide _); [|reflexivity]. rewrite dom_empty. set_solver. Qed.
Lemma del_shrinks k s : shrinks s (DEL k s).2.
Proof. intros k'. rewrite del_spec. destruct (decide _); [|reflexivity]. rewrite dom_empty. set_solver. Qed.
Lemma zadd_present k v m s : is_Some (zset s k !! m) -> shrinks s (ZADD k v m s).2.
Proof.
  intros Hm k'. rewrite zadd_spec. destruct (decide (k = k')) as [->|]; [|reflexivity].
  apply elem_of_dom in Hm. rewrite dom_insert. apply union_subseteq. split; [by apply singleton_subseteq_l|reflexivity].
Qed.

Lemma shrinks_size s s' k : shrinks s s' -> (size (zset s' k) <= size (zset s k))%nat.
Proof. intros H. rewrite <- !size_dom. apply subseteq_size, H. Qed.
End Facts.
#[export] Hint Resolve shrinks_refl zremrange_shrinks zrem_shrinks expire_shrinks del_shrinks zadd_present : gateway.

(** Run the commands of a script: reads are replaced by what they read, the
    state after a write stays [(write s).2]. *)
Ltac run_redis :=
  repeat first
    [ rewrite bind_run | rewrite ret_run | rewrite time_spec | rewrite zscore_spec | rewrite zcard_spec
    | rewrite zrange_spec | rewrite get_spec ]; cbn beta iota delta [fst snd].

(** A state reached by commands that add no new member. *)
Ltac shrinking :=
  repeat first
    [ assumption | apply shrinks_refl
    | eapply shrinks_trans;
      [|first [apply expire_shrinks | apply zremrange_shrinks | apply zrem_shrinks | apply del_shrinks
              | apply zadd_present; eauto; fail]] ].

Section SlotFacts.
Context {S : Type} `{!Redis S} `{!RedisSpec S}.
Implicit Types (s : S).
Variables key live : string.
Hypothesis key_live : key <> live.

Lemma slots_shrink s s' : shrinks s s' -> slots key live s' <= slots key live s.
Proof. intros H. unfold slots. pose proof (shrinks_size s s' key H). pose proof (shrinks_size s s' live H). lia. Qed.

(** Adding one member to [k] adds at most one slot, and none to another key. *)
Lemma slots_zadd k v m s :
  slots key live (ZADD k v m s).2 <= slots key live s + (if decide (k = key \/ k = live) then 1 else 0).
Proof.
  unfold slots. rewrite !zadd_spec.
  assert (Hi : forall z : gmap string Z, (size (<[m:=v]> z) <= size z + 1)%nat).
  { intros z. rewrite map_size_insert. destruct (z !! m); simpl; lia. }
  pose proof (Hi (zset s k)) as H.
  repeat case_decide; subst; try tauto; lia.
Qed.

(** An optional addition to [k], followed by commands that only remove. *)
Lemma slots_add s s1 s2 k v m :
  shrinks s s1 -> shrinks (ZADD k v m s1).2 s2 ->
  slots key live s2 <= slots key live s1 + (if decide (k = key \/ k = live) then 1 else 0).
Proof.
  intros _ H2. pose proof (slots_zadd k v m s1). pose proof (slots_shrink _ _ H2). lia.
Qed.

Lemma acquire_grant m t r s :
  let s' := (acquireScript key live m t r s).2 in
  slots key live s' <= slots key live s \/ slots key live s' <= m.
Proof.
  unfold acquireScript. run_redis. set (s1 := (ZREMRANGEBYSCORE live _ _).2).
  assert (H1 : shrinks s s1) by (unfold s1; shrinking). clearbody s1.
  destruct (zset s1 key !! r) eqn:E; run_redis.
  - left. apply slots_shrink. shrinking.
  - destruct (_ <? m) eqn:Hlt; run_redis; [right|left; by apply slots_shrink].
    bool_to_prop. assert (H2 : shrinks (ZADD key (clock s) r s1).2 (EXPIRE key t (ZADD key (clock s) r s1).2).2) by shrinking.
    pose proof (slots_add s s1 _ key (clock s) r H1 H2) as H. rewrite decide_True in H by auto. unfold slots in *. lia.
Qed.

Lemma live_grant ur ul al am um t l rp s :
  ul <> key -> ul <> live -> al <> key -> al <> live ->
  let s' := (acquireLiveLeaseScript key live ur ul al am um t l rp s).2 in
  slots key live s' <= slots key live s \/ am <= 0 \/ slots key live s' <= am + allowance rp.
Proof.
  intros Hu1 Hu2 Ha1 Ha2. unfold acquireLiveLeaseScript. run_redis. set (s1 := (ZREMRANGEBYSCORE al _ _).2).
  assert (H1 : shrinks s s1) by (unfold s1; shrinking). clearbody s1.
  destruct (zset s1 live !! l) eqn:E; run_redis; [left; by apply slots_shrink|]. fold (allowance rp).
  destruct (0 <? am) eqn:Ham; simpl; [|right; left; bool_to_prop; lia].
  destruct (_ <=? _) eqn:Hlt; run_redis; [left; by apply slots_shrink|].
  destruct ((0 <? um) && _); run_redis; [left; by apply slots_shrink|].
  right; right. bool_to_prop.
  set (s2 := (ZADD live (clock s) l s1).2). set (s3 := (ZADD ul (clock s) l s2).2).
  set (s4 := (ZADD al (clock s) l s3).2). set (s5 := (EXPIRE al t _).2).
  assert (H5 : shrinks s4 s5) by (unfold s5; shrinking).
  pose proof (slots_zadd live (clock s) l s1) as H2. pose proof (slots_zadd ul (clock s) l s2) as H3.
  pose proof (slots_zadd al (clock s) l s3) as H4. pose proof (slots_shrink _ _ H5) as H6.
  rewrite decide_True in H2 by auto. rewrite decide_False in H3 by tauto. rewrite decide_False in H4 by tauto.
  fold s2 in H2. fold s3 in H3. fold s4 in H4. unfold slots in *. lia.
Qed.

Lemma user_live_grant ar al pl am um t l rp s :
  al <> key -> al <> live -> pl <> key -> pl <> live ->
  let s' := (acquireLiveLeaseScript ar al key live pl am um t l rp s).2 in
  slots key live s' <= slots key live s \/ um <= 0 \/ slots key live s' <= um + allowance rp.
Proof.
  intros Hu1 Hu2 Ha1 Ha2. unfold acquireLiveLeaseScript. run_redis. set (s1 := (ZREMRANGEBYSCORE pl _ _).2).
  assert (H1 : shrinks s s1) by (unfold s1; shrinking). clearbody s1.
  destruct (zset s1 al !! l) eqn:E; run_redis; [left; by apply slots_shrink|]. fold (allowance rp).
  destruct ((0 <? am) && _); run_redis; [left; by apply slots_shrink|].
  destruct (0 <? um) eqn:Hum; simpl; [|right; left; bool_to_prop; lia].
  destruct (_ <=? _) eqn:Hlt; run_redis; [left; by apply slots_shrink|].
  right; right. bool_to_prop.
  set (s2 := (ZADD al (clock s) l s1).2). set (s3 := (ZADD live (clock s) l s2).2).
  set (s4 := (ZADD pl (clock s) l s3).2). set (s5 := (EXPIRE pl t _).2).
  assert (H5 : shrinks s4 s5) by (unfold s5; shrinking).
  pose proof (slots_zadd al (clock s) l s1) as H2. pose proof (slots_zadd live (clock s) l s2) as H3.
  pose proof (slots_zadd pl (clock s) l s3) as H4. pose proof (slots_shrink _ _ H5) as H6.
  rewrite decide_False in H2 by tauto. rewrite decide_True in H3 by auto. rewrite decide_False in H4 by tauto.
  fold s2 in H2. fold s3 in H3. fold s4 in H4. unfold slots in *. lia.
Qed.

Lemma confirmAll_shrinks ks e l s : shrinks s (confirmAll ks e l s).2.
Proof.
  revert s. induction ks as [|k ks IH]; intros s; [apply shrinks_refl|]. simpl. run_redis.
  destruct (zset (ZREMRANGEBYSCORE k e s).2 k !! l); run_redis; [|shrinking].
  eapply shrinks_trans; [apply zremrange_shrinks|apply IH].
Qed.

(** Confirmed keys hold the lease, so renewing it adds no member. *)
Lemma confirmAll_holds ks e l s : (confirmAll ks e l s).1 = true ->
  forall k, k ∈ ks -> is_Some (zset (confirmAll ks e l s).2 k !! l).
Proof.
  assert (Hkeep : forall ks s k v, zset s k !! l = Some v -> e < v -> zset (confirmAll ks e l s).2 k !! l = Some v).
  { clear. induction ks as [|k' ks IH]; intros s k v Hv He; [done|]. simpl. run_redis.
    assert (Hv1 : zset (ZREMRANGEBYSCORE k' e s).2 k !! l = Some v).
    { rewrite zremrange_spec. destruct (decide (k' = k)) as [->|]; [|done]. by apply map_lookup_filter_Some. }
    destruct (zset (ZREMRANGEBYSCORE k' e s).2 k' !! l); run_redis; [by apply IH|done]. }
  revert s. induction ks as [|k0 ks IH]; intros s Hok k Hk; [by apply not_elem_of_nil in Hk|].
  simpl in *. revert Hok. run_redis. destruct (zset (ZREMRANGEBYSCORE k0 e s).2 k0 !! l) as [v|] eqn:E; run_redis; [|done].
  intros Hok. apply elem_of_cons in Hk as [->|Hk]; [|by apply IH].
  eexists. apply (Hkeep _ _ _ v E). rewrite zremrange_spec, decide_True in E by done.
  by apply map_lookup_filter_Some in E as [_ ?].
Qed.

Lemma renewAll_shrinks ks now t l s : (forall k, k ∈ ks -> is_Some (zset s k !! l)) -> 0 < t ->
  shrinks s (renewAll ks now t l s).2.
Proof.
  revert s. induction ks as [|k ks IH]; intros s Hk Ht; [apply shrinks_refl|]. simpl. run_redis.
  eapply shrinks_trans; [|apply IH; [|done]].
  - eapply shrinks_trans; [apply zadd_present, Hk; left|apply expire_shrinks].
  - intros k' Hk'. rewrite expire_spec, decide_False by lia. rewrite zadd_spec.
    destruct (decide (k = k')) as [->|]; [rewrite lookup_insert_eq; eauto|]. apply Hk. by right.
Qed.

Lemma refresh_shrinks ks t l s : 0 < t -> shrinks s (refreshLiveLeaseScript ks t l s).2.
Proof.
  intros Ht. unfold refreshLiveLeaseScript. run_redis. pose proof (confirmAll_shrinks ks (clock s - t) l s) as Hs.
  pose proof (confirmAll_holds ks (clock s - t) l s) as Hh.
  destruct (confirmAll ks (clock s - t) l s) as [ok s1]. simpl in *. destruct ok; run_redis; [|done].
  eapply shrinks_trans; [exact Hs|]. apply renewAll_shrinks; auto.
Qed.

Lemma count_shrinks t s : shrinks s (getCountScript key live t s).2.
Proof. unfold getCountScript. run_redis. shrinking. Qed.
Lemma cleanup_shrinks k t s : shrinks s (cleanupExpiredSlotsScript k t s).2.
Proof. unfold cleanupExpiredSlotsScript. run_redis. destruct (_ =? 0); shrinking. Qed.
Lemma removeForeign_shrinks k p ms n s : shrinks s (removeForeign k p ms n s).2.
Proof.
  revert n s. induction ms as [|m ms IH]; intros n s; simpl; [apply shrinks_refl|].
  destruct (negb _); [|apply IH]. run_redis. eapply shrinks_trans; [apply zrem_shrinks|apply IH].
Qed.
Lemma startup_shrinks k p t s : shrinks s (startupCleanupSlotScript k p t s).2.
Proof.
  unfold startupCleanupSlotScript. run_redis.
  destruct (_ =? 0); (eapply shrinks_trans; [apply removeForeign_shrinks|shrinking]).
Qed.
Lemma track_other k t r s : k <> key -> k <> live ->
  slots key live (trackSlotScript k t r s).2 <= slots key live s.
Proof.
  intros H1 H2. unfold trackSlotScript. run_redis.
  set (s1 := (ZREMRANGEBYSCORE k _ s).2). assert (Hs1 : shrinks s s1) by (unfold s1; shrinking).
  pose proof (slots_zadd k (clock s) r s1) as H. rewrite decide_False in H by tauto.
  pose proof (slots_shrink _ _ Hs1).
  pose proof (slots_shrink _ _ (expire_shrinks k t (ZADD k (clock s) r s1).2)). lia.
Qed.

(** What an acquisition decides and leaves behind. *)
Lemma acquireScript_spec m t r (s : S) :
  0 < t ->
  let z := filter (fun p => clock s - t < p.2) (zset s key) in
  let zl := filter (fun p => clock s - 60 < p.2) (zset s live) in
  let '(granted, now, s') := acquireScript key live m t r s in
  now = clock s /\
  granted = bool_decide (is_Some (z !! r) \/ Z.of_nat (size z) + Z.of_nat (size zl) < m) /\
  zset s' key = (if granted then <[r := now]> z else z) /\ zset s' live = zl.
Proof.
  intros Ht z zl. unfold acquireScript. run_redis.
  set (s1 := (ZREMRANGEBYSCORE live (clock s - 60) (ZREMRANGEBYSCORE key (clock s - t) s).2).2).
  assert (E1 : zset s1 key = z).
  { unfold s1. rewrite zremrange_spec, decide_False by congruence. by rewrite zremrange_spec, decide_True. }
  assert (E2 : zset s1 live = zl).
  { unfold s1. rewrite zremrange_spec, decide_True by done. by rewrite zremrange_spec, decide_False. }
  assert (Hput : forall s2, s2 = (EXPIRE key t (ZADD key (clock s) r s1).2).2 ->
    zset s2 key = <[r := clock s]> z /\ zset s2 live = zl).
  { intros s2 ->. rewrite !expire_spec, !decide_False by lia. rewrite !zadd_spec, decide_True, decide_False by done.
    by rewrite E1, E2. }
  rewrite E1. destruct (z !! r) as [v|] eqn:E; run_redis.
  - split; [done|]. rewrite bool_decide_eq_true_2 by eauto. split; [done|]. by apply Hput.
  - rewrite E1, E2. destruct (_ <? m) eqn:Hlt; run_redis; bool_to_prop; (split; [done|]).
    + rewrite bool_decide_eq_true_2 by auto. split; [done|]. by apply Hput.
    + rewrite bool_decide_eq_false_2; [done|]. intros [[? ?]|?]; [done|lia].
Qed.
End SlotFacts.

(** ** An in-memory Redis *)

Record memRedis := mkMem { m_zsets : gmap string (gmap string Z); m_counters : gmap string Z; m_clock : positive }.
Definition m_zset (s : memRedis) (k : string) : gmap string Z := default ∅ (m_zsets s !! k).
Definition put_zset (k : string) (z : gmap string Z) (s : memRedis) : memRedis :=
  { s with m_zsets := <[k := z]> (m_zsets s) }.

Definition score_le : relation (string * Z) := fun p q => p.2 <= q.2.
#[export] Instance score_le_dec : RelDecision score_le.
Proof. intros p q. apply Z_le_dec. Defined.

#[export] Instance mem_Redis : Redis memRedis := {|
  TIME := fun s => (Z.pos (m_clock s), s);
  ZREMRANGEBYSCORE := fun k lim s => (tt, put_zset k (filter (fun p => lim < p.2) (m_zset s k)) s);
  ZSCORE := fun k m s => (m_zset s k !! m, s);
  ZCARD := fun k s => (Z.of_nat (size (m_zset s k)), s);
  ZADD := fun k v m s => (tt, put_zset k (<[m := v]> (m_zset s k)) s);
  ZREM := fun k m s => (match m_zset s k !! m with Some _ => 1 | None => 0 end, put_zset k (delete m (m_zset s k)) s);
  ZRANGE_ALL := fun k s => (map fst (map_to_list (m_zset s k)), s);
  ZRANGEBYSCORE := fun k max count s =>
    (take (Z.to_nat count) (map fst (merge_sort score_le (map_to_list (filter (fun p => p.2 <= max) (m_zset s k))))), s);
  EXPIRE := fun k t s =>
    (tt, if decide (t <= 0) then { put_zset k ∅ s with m_counters := delete k (m_counters s) } else s);
  DEL := fun k s => (tt, { put_zset k ∅ s with m_counters := delete k (m_counters s) });
  GET := fun k s => (m_counters s !! k, s);
  INCR := fun k s => (tt, { s with m_counters := <[k := default 0 (m_counters s !! k) + 1]> (m_counters s) });
  DECR := fun k s => (tt, { s with m_counters := <[k := default 0 (m_counters s !! k) - 1]> (m_counters s) }) |}.

Lemma put_zset_get k k' z s : m_zset (put_zset k z s) k' = if decide (k = k') then z else m_zset s k'.
Proof.
  unfold m_zset, put_zset. simpl. destruct (decide (k = k')) as [->|].
  - by rewrite lookup_insert_eq.
  - by rewrite lookup_insert_ne.
Qed.

#[export] Instance mem_RedisSpec : RedisSpec memRedis.
Proof.
  refine {| zset := m_zset; counter := fun s k => m_counters s !! k; clock := fun s => Z.pos (m_clock s) |}; intros; simpl in *; try done.
  - apply elem_of_take in H as (i & H & _).
    apply list_elem_of_lookup_2, list_elem_of_fmap in H as ([m' v] & -> & H).
    rewrite merge_sort_Permutation in H. apply elem_of_map_to_list, map_lookup_filter_Some in H as [H1 H2]. eauto.
  - set (l0 := map fst _). destruct (decide (Z.to_nat count <= length l0)%nat) as [Hn|Hn].
    + right. rewrite length_take. lia.
    + left. rewrite take_ge by lia. apply list_elem_of_fmap. exists (m, v). split; [done|].
      rewrite merge_sort_Permutation. apply elem_of_map_to_list, map_lookup_filter_Some. done.
  - apply put_zset_get.
  - apply put_zset_get.
  - apply put_zset_get.
  - destruct (decide (t <= 0)).
    + etransitivity; [apply put_zset_get|]. repeat case_decide; try done; tauto.
    + rewrite decide_False by tauto. done.
  - destruct (decide (t <= 0)); simpl.
    + rewrite lookup_delete. repeat case_decide; try done; tauto.
    + rewrite decide_False by tauto. done.
  - apply put_zset_get.
  - apply lookup_delete.
  - apply lookup_insert.
  - apply lookup_insert.
Defined.

(** ** Properties *)

Section Properties.
Context {S : Type} `{!Redis S} `{!RedisSpec S}.
Variables key live : string.
Hypothesis key_live : key <> live.

(** C26: the concurrency limit of an account or user holds.  From a state with at most
    [M] slots taken (ordinary and live together), whatever requests acquire with limits
    up to [M], live sessions start under limits up to [M] (one below [M] when they
    replace an ordinary slot, since the script then allows one slot above the limit),
    renew or end, processes clean up, restart or keys expire, in any order, there are
    never more than [M] slots taken.  Live sessions without a limit are not bounded and
    not covered. *)
Theorem slots_never_exceed M (l : list slot_op) (s s' : S) :
  slots key live s <= M -> slot_steps key live l s s' -> Forall (op_ok key live M) l ->
  slots key live s' <= M.
Proof.
  intros Hs Hl Hok. revert Hs. induction Hl as [s|o l s s1 s2 Ho Hl IH]; intros Hs; [done|].
  apply Forall_cons in Hok as [Hop Hok]. apply IH; [done|]. clear IH Hl.
  destruct Ho; simpl in Hop.
  - destruct (acquire_grant key live key_live m t r s); lia.
  - destruct Hop as (H1 & H2 & H3 & H4 & H5 & H6).
    destruct (live_grant key live key_live ur ul al am um t l0 rp s H3 H4 H5 H6) as [?|[?|?]]; lia.
  - destruct Hop as (H1 & H2 & H3 & H4 & H5 & H6).
    destruct (user_live_grant key live key_live ar al pl am um t l0 rp s H3 H4 H5 H6) as [?|[?|?]]; lia.
  - pose proof (slots_shrink key live _ _ (refresh_shrinks ks t l0 s Hop)). lia.
  - pose proof (slots_shrink key live _ _ (zrem_shrinks k m s)). lia.
  - pose proof (slots_shrink key live _ _ (count_shrinks key live t s)). lia.
  - pose proof (slots_shrink key live _ _ (cleanup_shrinks k t s)). lia.
  - pose proof (slots_shrink key live _ _ (startup_shrinks k p t s)). lia.
  - destruct Hop as [H1 H2]. pose proof (track_other key live key_live k t r s H1 H2). lia.
  - assert (Hsh : shrinks s s') by (intros k; apply subseteq_dom; auto).
    pose proof (slots_shrink key live _ _ Hsh). lia.
Qed.

(** What an acquisition decides.  It succeeds exactly when the request
    already holds an unexpired slot or fewer than the limit are unexpired, and
    afterwards the request holds a slot stamped with the Redis time exactly if
    it succeeded; a repeated acquisition never takes a second slot. *)
Theorem acquire_decides m t r (s : S) :
  0 < t ->
  let z := filter (fun p => clock s - t < p.2) (zset s key) in
  let zl := filter (fun p => clock s - 60 < p.2) (zset s live) in
  let '(granted, now, s') := acquireScript key live m t r s in
  now = clock s /\
  granted = bool_decide (is_Some (z !! r) \/ Z.of_nat (size z) + Z.of_nat (size zl) < m) /\
  zset s' key = (if granted then <[r := now]> z else z) /\ zset s' live = zl.
Proof. apply acquireScript_spec. exact key_live. Qed.

(** A lost live lease stays lost.  Renewing a lease never creates a member
    in any sorted set, and when it succeeds every key still held the lease: the
    renewal of a lease that a key has lost reports the loss. *)
Theorem live_lease_not_recreated ks t l (s : S) :
  0 < t ->
  shrinks s (refreshLiveLeaseScript ks t l s).2 /\
  ((refreshLiveLeaseScript ks t l s).1 = true -> forall k, k ∈ ks -> is_Some (zset s k !! l)).
Proof.
  intros Ht. split; [by apply refresh_shrinks|]. unfold refreshLiveLeaseScript. run_redis.
  pose proof (confirmAll_shrinks ks (clock s - t) l s) as Hs.
  pose proof (confirmAll_holds ks (clock s - t) l s) as Hh.
  destruct (confirmAll ks (clock s - t) l s) as [ok s1]. simpl in *. destruct ok; run_redis; [|done].
  intros _ k Hk. apply elem_of_dom. apply (Hs k). apply elem_of_dom. auto.
Qed.

(** The wait queue is bounded.  An increment is granted exactly below the
    limit, a granted one adds one and a refused one changes nothing; a
    decrement takes one away only above zero; so a counter between 0 and the
    limit stays there. *)
Theorem wait_counter_bounded k maxWait t (s : S) :
  0 < t ->
  let c := default 0 (counter s k) in
  let inc := incrementWaitScript k maxWait t s in
  inc.1.1 = (c <? maxWait) /\
  default 0 (counter inc.2 k) = (if c <? maxWait then c + 1 else c) /\
  default 0 (counter (decrementWaitScript k s).2 k) = (if 0 <? c then c - 1 else c) /\
  (0 <= c <= Z.max 0 maxWait -> 0 <= default 0 (counter inc.2 k) <= Z.max 0 maxWait /\ 0 <= default 0 (counter (decrementWaitScript k s).2 k) <= Z.max 0 maxWait).
Proof.
  intros Ht c inc.
  assert (E1 : inc.1.1 = (c <? maxWait) /\ default 0 (counter inc.2 k) = (if c <? maxWait then c + 1 else c)).
  { unfold inc, incrementWaitScript. run_redis. fold c. rewrite Z.leb_antisym. destruct (c <? maxWait); simpl; [|done].
    run_redis. by rewrite expire_counter, decide_False, incr_counter, decide_True by (done || lia). }
  assert (E2 : default 0 (counter (decrementWaitScript k s).2 k) = (if 0 <? c then c - 1 else c)).
  { unfold decrementWaitScript. run_redis. unfold c.
    destruct (counter s k) as [v|] eqn:Ev; unfold default, id; [destruct (0 <? v)|]; run_redis;
      rewrite ?decr_counter, ?decide_True by done; cbn [snd]; rewrite ?Ev; reflexivity. }
  destruct E1 as [E1 E1']. split; [done|]. split; [done|]. split; [done|]. rewrite E1', E2.
  intros Hc. destruct (c <? maxWait) eqn:H1; destruct (0 <? c) eqn:H2; bool_to_prop; lia.
Qed.
End Properties.

Lemma slots_never_exceed_witness :
  let s := mkMem ∅ ∅ 1000%positive in
  let s1 := (acquireScript "k" "l" 2 900 "r1" s).2 in
  let s2 := (acquireScript "k" "l" 2 900 "r2" s1).2 in
  slots "k" "l" (acquireScript "k" "l" 2 900 "r3" s2).2 <= 2.
Proof.
  intros s s1 s2.
  apply (slots_never_exceed "k" "l" ltac:(discriminate) 2 [Acquire 2 900 "r1"; Acquire 2 900 "r2"; Acquire 2 900 "r3"] s).
  - vm_compute. discriminate.
  - eapply steps_cons; [apply step_acquire|]. eapply steps_cons; [apply step_acquire|].
    eapply steps_cons; [apply step_acquire|]. apply steps_nil.
  - repeat constructor; simpl; lia.
Defined.

Lemma acquire_decides_witness :
  let s := mkMem ∅ ∅ 1000%positive in (acquireScript "k" "l" 1 900 "r" s).1.1 = true.
Proof.
  intros s. pose proof (acquire_decides "k" "l" ltac:(discriminate) 1 900 "r" s ltac:(lia)) as H. cbv zeta in H.
  destruct (acquireScript "k" "l" 1 900 "r" s) as [[granted now] s']. simpl.
  destruct H as (_ & -> & _). vm_compute. reflexivity.
Defined.

Lemma live_lease_not_recreated_witness :
  let s := mkMem {["a" := {["lease" := 995]}]} ∅ 1000%positive in
  is_Some (m_zset s "a" !! "lease") /\ (refreshLiveLeaseScript ["a"; "b"] 60 "lease" s).1 = false.
Proof.
  intros s. split; [|vm_compute; reflexivity].
  refine (proj2 (live_lease_not_recreated (S := memRedis) ["a"] 60 "lease" s ltac:(lia)) _ "a" _).
  - vm_compute. reflexivity.
  - left.
Defined.

Lemma wait_counter_bounded_witness :
  let s := mkMem ∅ {["w" := 3]} 1000%positive in (incrementWaitScript "w" 3 60 s).1.1 = false.
Proof.
  intros s. rewrite (proj1 (wait_counter_bounded "w" 3 60 s ltac:(lia))). vm_compute. reflexivity.
Defined.
