(* ===== verification/ConcurrencyCache.v ===== *)
(** * The concurrency cache ([backend/internal/repository/concurrency_cache.go])

    The Go side of the concurrency limits: the keys, the calls of the scripts of
    [RedisSlots] over a connection that can fail, the batch reads, and the two
    active indexes with their maintenance and clean-up.  A method is a function
    of the store and of what its calls meet ([remote]); a pipeline is one call.
    The one-time sweep of keys older than the indexes ([sweepLegacyWaitKeysOnce],
    a SCAN loop) and the logging are left out. *)

From S2P Require Import Prelude Errors RedisSlots.

(** ** Configuration and keys *)

Record concurrencyCache := mkCache { slotTTLSeconds : Z; waitQueueTTLSeconds : Z }.

Definition defaultSlotTTLMinutes : Z := 15.
Definition openAIWSIngressLeaseTTLSeconds : Z := 60.
Definition liveLeaseTTLSeconds : Z := 60.
Definition activeIndexCleanupBatchSize : Z := 1000.
Definition activeIndexPipelineChunkSize : nat := 500.

Definition NewConcurrencyCache (slotTTLMinutes waitQueueTTLSeconds : Z) : concurrencyCache :=
  let slotTTLMinutes := if slotTTLMinutes <=? 0 then defaultSlotTTLMinutes else slotTTLMinutes in
  let waitQueueTTLSeconds := if waitQueueTTLSeconds <=? 0 then slotTTLMinutes * 60 else waitQueueTTLSeconds in
  mkCache (slotTTLMinutes * 60) waitQueueTTLSeconds.

Definition accountSlotKey (accountID : Z) : string := "concurrency:account:" +:+ Itoa accountID.
Definition userSlotKey (userID : Z) : string := "concurrency:user:" +:+ Itoa userID.
Definition apiKeySlotKey (apiKeyID : Z) : string := "concurrency:api_key:" +:+ Itoa apiKeyID.
Definition liveAccountSlotKey (accountID : Z) : string := "concurrency:live:account:" +:+ Itoa accountID.
Definition liveUserSlotKey (userID : Z) : string := "concurrency:live:user:" +:+ Itoa userID.
Definition liveAPIKeySlotKey (apiKeyID : Z) : string := "concurrency:live:api_key:" +:+ Itoa apiKeyID.
Definition openAIWSIngressLeaseKey (apiKeyID : Z) : string :=
  "concurrency:openai_ws_ingress:api_key:" +:+ Itoa apiKeyID.
Definition waitQueueKey (userID : Z) : string := "concurrency:wait:" +:+ Itoa userID.
Definition accountWaitKey (accountID : Z) : string := "wait:account:" +:+ Itoa accountID.
Definition accountActiveIndexKey : string := "concurrency:account:active_index".
Definition userActiveIndexKey : string := "concurrency:user:active_index".

Record slotIndexSpec := mkSpec { indexKey : string; slotKey : Z -> string; waitKey : Z -> string }.
Definition accountSlotIndex : slotIndexSpec := mkSpec accountActiveIndexKey accountSlotKey accountWaitKey.
Definition userSlotIndex : slotIndexSpec := mkSpec userActiveIndexKey userSlotKey waitQueueKey.

(** [id] and [member] of the source's [activeIndexLoad] are [al_id] and
    [Itoa al_id] for members the program wrote. *)
Record activeIndexLoad := mkLoad { al_id : Z; al_member : string; slotCount : Z; waitCount : Z }.

(** [AccountLoadInfo] and [UserLoadInfo]. *)
Record LoadInfo := mkLoadInfo {
  li_ID : Z; li_CurrentConcurrency : Z; li_WaitingCount : Z; li_LoadRate : Z }.

(** ** The methods *)

Section Cache.
Context {S : Type} `{!Redis S}.
Variable c : concurrencyCache.

Abbreviation call := (ST (S * list fault)).

(** [touchActiveIndexAt]: best effort, an error is only logged. *)
Definition touchActiveIndexAt (idx : string) (id expireAt : Z) : call unit :=
  if (id <=? 0) || (expireAt <=? 0) then mret tt
  else _ ← remote (ZADD idx expireAt (Itoa id)); mret tt.

Definition activeIndexTTL (slots waits : Z) : Z :=
  let ttlSeconds := if 0 <? slots then slotTTLSeconds c else 0 in
  if (0 <? waits) && (ttlSeconds <? waitQueueTTLSeconds c) then waitQueueTTLSeconds c else ttlSeconds.

(** [if v, err := getCmd.Int(); err == nil && v > 0]. *)
Definition waiting (v : option Z) : Z := match v with Some w => if 0 <? w then w else 0 | None => 0 end.

(** The three commands of one candidate in a pipeline. *)
Definition loadCommands (spec : slotIndexSpec) (member : string) (id now : Z) : ST S activeIndexLoad :=
  _ ← ZREMRANGEBYSCORE (slotKey spec id) (now - slotTTLSeconds c);
  n ← ZCARD (slotKey spec id);
  w ← GET (waitKey spec id);
  mret (mkLoad id member n (waiting w)).

Definition readActiveLoadForKey (spec : slotIndexSpec) (id now : Z) : call (result goerror activeIndexLoad) :=
  wrapErr "pipeline exec" (remote (loadCommands spec (Itoa id) id now)).

Definition redisUnixSeconds : call (result goerror Z) := wrapErr "redis TIME" (remote TIME).

(** [refreshAccountActiveIndex] and [refreshUserActiveIndex] at the two specs. *)
Definition refreshActiveIndex (spec : slotIndexSpec) (id : Z) : call unit :=
  if id <=? 0 then mret tt
  else
    t ← redisUnixSeconds;
    match t with
    | Err _ => mret tt
    | Ok now =>
        l ← readActiveLoadForKey spec id now;
        match l with
        | Err _ => mret tt
        | Ok load =>
            if (slotCount load =? 0) && (waitCount load <=? 0) then
              _ ← remote (ZREM (indexKey spec) (Itoa id)); mret tt
            else
              let ttlSeconds := activeIndexTTL (slotCount load) (waitCount load) in
              if ttlSeconds <=? 0 then mret tt
              else touchActiveIndexAt (indexKey spec) id (now + ttlSeconds)
        end
    end.

(** [AcquireAccountSlot] and [AcquireUserSlot] differ in the keys alone, and so
    do the other pairs of methods below. *)
Definition acquireSlot (spec : slotIndexSpec) (liveKey : Z -> string) (id maxConcurrency : Z)
  (requestID : string) : call (result goerror bool) :=
  r ←? remote (acquireScript (slotKey spec id) (liveKey id) maxConcurrency (slotTTLSeconds c) requestID);
  match r with
  | (true, now) => _ ← touchActiveIndexAt (indexKey spec) id (now + slotTTLSeconds c); mret (Ok true)
  | (false, _) => mret (Ok false)
  end.
Definition AcquireAccountSlot := acquireSlot accountSlotIndex liveAccountSlotKey.
Definition AcquireUserSlot := acquireSlot userSlotIndex liveUserSlotKey.

Definition releaseSlot (spec : slotIndexSpec) (id : Z) (requestID : string) : call (result goerror unit) :=
  _ ←? remote (ZREM (slotKey spec id) requestID);
  _ ← refreshActiveIndex spec id;
  mret (Ok tt).
Definition ReleaseAccountSlot := releaseSlot accountSlotIndex.
Definition ReleaseUserSlot := releaseSlot userSlotIndex.

Definition GetAccountConcurrency (accountID : Z) : call (result goerror Z) :=
  remote (getCountScript (accountSlotKey accountID) (liveAccountSlotKey accountID) (slotTTLSeconds c)).
Definition GetUserConcurrency (userID : Z) : call (result goerror Z) :=
  remote (getCountScript (userSlotKey userID) (liveUserSlotKey userID) (slotTTLSeconds c)).

(** The pipeline of the batch counts: [(id, slots + live)] in the order asked. *)
Fixpoint countCommands (slot live : Z -> string) (ids : list Z) (now : Z) : ST S (list (Z * Z)) :=
  match ids with
  | [] => mret []
  | id :: ids' =>
      _ ← ZREMRANGEBYSCORE (slot id) (now - slotTTLSeconds c);
      _ ← ZREMRANGEBYSCORE (live id) (now - liveLeaseTTLSeconds);
      n ← ZCARD (slot id);
      l ← ZCARD (live id);
      rest ← countCommands slot live ids' now;
      mret ((id, n + l) :: rest)
  end.
Definition countBatch (slot live : Z -> string) (ids : list Z) : call (result goerror (gmap Z Z)) :=
  match ids with
  | [] => mret (Ok ∅)
  | _ =>
      now ←? wrapErr "redis TIME" (remote TIME);
      cmds ←? wrapErr "pipeline exec" (remote (countCommands slot live ids now));
      mret (Ok (foldl (fun m p => <[p.1 := p.2]> m) ∅ cmds))
  end.
Definition GetAccountConcurrencyBatch := countBatch accountSlotKey liveAccountSlotKey.
Definition GetAPIKeyConcurrencyBatch := countBatch apiKeySlotKey liveAPIKeySlotKey.

Definition TrackAPIKeySlot (apiKeyID : Z) (requestID : string) : call (result goerror unit) :=
  remote (trackSlotScript (apiKeySlotKey apiKeyID) (slotTTLSeconds c) requestID).
Definition ReleaseAPIKeySlot (apiKeyID : Z) (requestID : string) : call (result goerror unit) :=
  _ ←? remote (ZREM (apiKeySlotKey apiKeyID) requestID); mret (Ok tt).

Definition AcquireOpenAIWSIngressLease (apiKeyID maxConnections : Z) (leaseID : string)
  : call (result goerror bool) :=
  if (apiKeyID <=? 0) || (maxConnections <=? 0) || String.eqb leaseID "" then mret (Ok false)
  else remote (acquireOpenAIWSIngressLeaseScript (openAIWSIngressLeaseKey apiKeyID) maxConnections
                 openAIWSIngressLeaseTTLSeconds leaseID).
Definition RefreshOpenAIWSIngressLease (apiKeyID : Z) (leaseID : string) : call (result goerror bool) :=
  if (apiKeyID <=? 0) || String.eqb leaseID "" then mret (Ok false)
  else remote (refreshOpenAIWSIngressLeaseScript (openAIWSIngressLeaseKey apiKeyID)
                 openAIWSIngressLeaseTTLSeconds leaseID).
Definition ReleaseOpenAIWSIngressLease (apiKeyID : Z) (leaseID : string) : call (result goerror unit) :=
  if (apiKeyID <=? 0) || String.eqb leaseID "" then mret (Ok tt)
  else _ ←? remote (ZREM (openAIWSIngressLeaseKey apiKeyID) leaseID); mret (Ok tt).

Definition AcquireLiveLease (accountID accountMax userID userMax apiKeyID : Z) (leaseID : string)
  (replacingRegularSlots : bool) : call (result goerror bool) :=
  if (accountID <=? 0) || (userID <=? 0) || (apiKeyID <=? 0) || String.eqb leaseID "" then mret (Ok false)
  else remote (acquireLiveLeaseScript (accountSlotKey accountID) (liveAccountSlotKey accountID)
                 (userSlotKey userID) (liveUserSlotKey userID) (liveAPIKeySlotKey apiKeyID)
                 accountMax userMax liveLeaseTTLSeconds leaseID (if replacingRegularSlots then 1 else 0)).
Definition RefreshLiveLease (accountID userID apiKeyID : Z) (leaseID : string) : call (result goerror bool) :=
  if String.eqb leaseID "" then mret (Ok false)
  else remote (refreshLiveLeaseScript
                 [liveAccountSlotKey accountID; liveUserSlotKey userID; liveAPIKeySlotKey apiKeyID]
                 liveLeaseTTLSeconds leaseID).
Definition ReleaseLiveLease (accountID userID apiKeyID : Z) (leaseID : string) : call (result goerror unit) :=
  if String.eqb leaseID "" then mret (Ok tt)
  else remote (_ ← ZREM (liveAccountSlotKey accountID) leaseID;
               _ ← ZREM (liveUserSlotKey userID) leaseID;
               _ ← ZREM (liveAPIKeySlotKey apiKeyID) leaseID; mret tt).

(** [IncrementWaitCount] counts users, [IncrementAccountWaitCount] accounts. *)
Definition incrementWait (spec : slotIndexSpec) (id maxWait : Z) : call (result goerror bool) :=
  r ←? remote (incrementWaitScript (waitKey spec id) maxWait (waitQueueTTLSeconds c));
  match r with
  | (true, now) => _ ← touchActiveIndexAt (indexKey spec) id (now + waitQueueTTLSeconds c); mret (Ok true)
  | (false, _) => mret (Ok false)
  end.
Definition IncrementWaitCount := incrementWait userSlotIndex.
Definition IncrementAccountWaitCount := incrementWait accountSlotIndex.

Definition decrementWait (spec : slotIndexSpec) (id : Z) : call (result goerror unit) :=
  _ ←? remote (decrementWaitScript (waitKey spec id));
  _ ← refreshActiveIndex spec id;
  mret (Ok tt).
Definition DecrementWaitCount := decrementWait userSlotIndex.
Definition DecrementAccountWaitCount := decrementWait accountSlotIndex.

Definition GetAccountWaitingCount (accountID : Z) : call (result goerror Z) :=
  v ←? remote (GET (accountWaitKey accountID)); mret (Ok (default 0 v)).

(** [(currentConcurrency + waitingCount) * 100 / maxConcurrency] on 64 bits. *)
Definition loadRate (currentConcurrency waitingCount maxConcurrency : Z) : Z :=
  if 0 <? maxConcurrency
  then Z.quot (wrap64 (wrap64 (currentConcurrency + waitingCount) * 100)) maxConcurrency else 0.

(** The pipeline of the load batches; an item is [(ID, MaxConcurrency)]. *)
Fixpoint loadBatchCommands (spec : slotIndexSpec) (live : Z -> string) (items : list (Z * Z)) (now : Z)
  : ST S (list LoadInfo) :=
  match items with
  | [] => mret []
  | (id, maxConcurrency) :: items' =>
      _ ← ZREMRANGEBYSCORE (slotKey spec id) (now - slotTTLSeconds c);
      _ ← ZREMRANGEBYSCORE (live id) (now - liveLeaseTTLSeconds);
      n ← ZCARD (slotKey spec id);
      l ← ZCARD (live id);
      w ← GET (waitKey spec id);
      rest ← loadBatchCommands spec live items' now;
      mret (mkLoadInfo id (n + l) (default 0 w) (loadRate (n + l) (default 0 w) maxConcurrency) :: rest)
  end.
Definition loadBatch (spec : slotIndexSpec) (live : Z -> string) (items : list (Z * Z))
  : call (result goerror (gmap Z LoadInfo)) :=
  match items with
  | [] => mret (Ok ∅)
  | _ =>
      now ←? wrapErr "redis TIME" (remote TIME);
      infos ←? wrapErr "pipeline exec" (remote (loadBatchCommands spec live items now));
      mret (Ok (foldl (fun m i => <[li_ID i := i]> m) ∅ infos))
  end.
Definition GetAccountsLoadBatch := loadBatch accountSlotIndex liveAccountSlotKey.
Definition GetUsersLoadBatch := loadBatch userSlotIndex liveUserSlotKey.

Definition CleanupExpiredAccountSlots (accountID : Z) : call (result goerror unit) :=
  _ ←? remote (cleanupExpiredSlotsScript (accountSlotKey accountID) (slotTTLSeconds c));
  _ ← refreshActiveIndex accountSlotIndex accountID;
  mret (Ok tt).

(** *** Reconciling the indexes *)

(** [readIndexLoads]: the candidates among the members, then one pipeline for
    every 500 of them. *)
Definition candidate (member : string) : option (string * Z) :=
  match Atoi member with Some id => if id <=? 0 then None else Some (member, id) | None => None end.
Definition candidates (members : list string) : list (string * Z) := omap candidate members.
Definition staleNames (members : list string) : list string :=
  filter (fun m => candidate m = None) members.

Fixpoint chunkCommands (spec : slotIndexSpec) (cands : list (string * Z)) (now : Z) : ST S (list activeIndexLoad) :=
  match cands with
  | [] => mret []
  | (member, id) :: cands' =>
      l ← loadCommands spec member id now;
      ls ← chunkCommands spec cands' now;
      mret (l :: ls)
  end.
Fixpoint readChunks (fuel : nat) (spec : slotIndexSpec) (cands : list (string * Z)) (now : Z)
  : call (result goerror (list activeIndexLoad)) :=
  match fuel, cands with
  | O, _ | _, [] => mret (Ok [])
  | Datatypes.S fuel', _ =>
      ls ←? wrapErr "pipeline exec" (remote (chunkCommands spec (take activeIndexPipelineChunkSize cands) now));
      rest ←? readChunks fuel' spec (drop activeIndexPipelineChunkSize cands) now;
      mret (Ok (ls ++ rest)%list)
  end.
Definition readIndexLoads (spec : slotIndexSpec) (members : list string) (now : Z)
  : call (result goerror (list activeIndexLoad * list string)) :=
  loads ←? readChunks (length members) spec (candidates members) now;
  mret (Ok (loads, staleNames members)).

(** One ZADD, or ZREM, of several members. *)
Fixpoint zaddAll (idx : string) (zs : list (Z * string)) : ST S unit :=
  match zs with [] => mret tt | (v, m) :: zs' => _ ← ZADD idx v m; zaddAll idx zs' end.
Fixpoint zremAll (idx : string) (ms : list string) : ST S unit :=
  match ms with [] => mret tt | m :: ms' => _ ← ZREM idx m; zremAll idx ms' end.

Definition refreshMembers (idx : string) (refreshed : list (Z * string)) : call unit :=
  match refreshed with [] => mret tt | _ => _ ← remote (zaddAll idx refreshed); mret tt end.
Definition removeActiveIndexMembers (idx : string) (members : list string) : call unit :=
  match members with [] => mret tt | _ => _ ← remote (zremAll idx members); mret tt end.

Definition idle (l : activeIndexLoad) : bool := (slotCount l =? 0) && (waitCount l <=? 0).

Definition reconcileExpiredIndexCandidates (spec : slotIndexSpec) : call (result goerror unit) :=
  now ←? redisUnixSeconds;
  members ←? wrapErr ("read expired index " +:+ indexKey spec)
               (remote (ZRANGEBYSCORE (indexKey spec) now activeIndexCleanupBatchSize));
  r ←? readIndexLoads spec members now;
  let '(loads, staleMembers) := r in
  let stale := (staleMembers ++ map al_member (List.filter idle loads))%list in
  let refreshed := map (fun l => (now + activeIndexTTL (slotCount l) (waitCount l), al_member l))
                     (List.filter (fun l => negb (idle l)) loads) in
  _ ← refreshMembers (indexKey spec) refreshed;
  _ ← removeActiveIndexMembers (indexKey spec) stale;
  mret (Ok tt).
Definition CleanupExpiredAccountSlotKeys : call (result goerror unit) :=
  _ ←? reconcileExpiredIndexCandidates accountSlotIndex;
  reconcileExpiredIndexCandidates userSlotIndex.

(** [cleanupStaleProcessSlotsForIndex]: the loop over the members, with the
    members to refresh and to remove. *)
Fixpoint staleLoop (spec : slotIndexSpec) (activeRequestPrefix : string) (now : Z) (members : list string)
  : call (result goerror (list (Z * string) * list string)) :=
  match members with
  | [] => mret (Ok ([], []))
  | member :: members' =>
      match candidate member with
      | None =>
          r ←? staleLoop spec activeRequestPrefix now members';
          mret (Ok (r.1, member :: r.2))
      | Some (_, id) =>
          n ←? wrapErr ("cleanup stale process slots " +:+ slotKey spec id)
                 (remote (startupCleanupSlotScript (slotKey spec id) activeRequestPrefix (slotTTLSeconds c)));
          _ ←? wrapErr ("delete stale wait key " +:+ waitKey spec id) (remote (DEL (waitKey spec id)));
          r ←? staleLoop spec activeRequestPrefix now members';
          mret (Ok (if 0 <? n.2 then ((now + slotTTLSeconds c, member) :: r.1, r.2)
                    else (r.1, member :: r.2)))
      end
  end.
Definition cleanupStaleProcessSlotsForIndex (spec : slotIndexSpec) (members : list string)
  (activeRequestPrefix : string) (now : Z) : call (result goerror unit) :=
  r ←? staleLoop spec activeRequestPrefix now members;
  _ ← refreshMembers (indexKey spec) r.1;
  _ ← removeActiveIndexMembers (indexKey spec) r.2;
  mret (Ok tt).
Definition allIndexMembers (idx : string) : call (result goerror (list string)) :=
  wrapErr ("read active index " +:+ idx) (remote (ZRANGE_ALL idx)).

(** [CleanupStaleProcessSlots] after the one-time sweep. *)
Definition CleanupStaleProcessSlots (activeRequestPrefix : string) : call (result goerror unit) :=
  if String.eqb activeRequestPrefix "" then mret (Ok tt)
  else
    now ←? redisUnixSeconds;
    accountMembers ←? allIndexMembers accountActiveIndexKey;
    _ ←? cleanupStaleProcessSlotsForIndex accountSlotIndex accountMembers activeRequestPrefix now;
    userMembers ←? allIndexMembers userActiveIndexKey;
    cleanupStaleProcessSlotsForIndex userSlotIndex userMembers activeRequestPrefix now.
End Cache.

(** ** Lemmas: the keys are distinct *)

(** The text of a key up to its last colon. *)
Fixpoint key_prefix (s : string) : string :=
  match s with
  | EmptyString => ""
  | String a s' =>
      let p := key_prefix s' in
      if String.eqb p "" then (if Ascii.eqb a ":" then ":" else "") else String a p
  end.

Lemma key_prefix_app p t : key_prefix t = "" -> key_prefix (p +:+ t) = key_prefix p.
Proof.
  intros Ht. induction p as [|a p IH]; [exact Ht|].
  change (String a p +:+ t) with (String a (p +:+ t)). simpl. by rewrite IH.
Qed.
Lemma key_prefix_Itoa z : key_prefix (Itoa z) = "".
Proof.
  assert (H : forall s, str_forallb (fun a => negb (Ascii.eqb a ":")) s = true -> key_prefix s = "").
  { induction s as [|a s IH]; [done|]. simpl. intros H. apply andb_true_iff in H as [H1 H2].
    rewrite (IH H2). apply negb_true_iff in H1. simpl. by rewrite H1. }
  apply H, Itoa_forallb; [done|]. intros a Ha. destruct (Ascii.eqb_spec a ":") as [->|]; done.
Qed.
Lemma key_prefix_id p z : key_prefix (p +:+ Itoa z) = key_prefix p.
Proof. apply key_prefix_app, key_prefix_Itoa. Qed.

(** Two families of keys with different prefixes share no key. *)
Lemma keys_apart p q a b : key_prefix p <> key_prefix q -> p +:+ Itoa a <> q +:+ Itoa b.
Proof. intros Hpq H. apply Hpq. by rewrite <- (key_prefix_id p a), H, key_prefix_id. Qed.

Inductive kind := Account | User.
#[export] Instance kind_eq_dec : EqDecision kind.
Proof. solve_decision. Defined.
Definition spec_of (κ : kind) : slotIndexSpec := match κ with Account => accountSlotIndex | User => userSlotIndex end.
Definition idx (κ : kind) : string := indexKey (spec_of κ).
Definition slot (κ : kind) : Z -> string := slotKey (spec_of κ).
Definition wait (κ : kind) : Z -> string := waitKey (spec_of κ).
(** The keys of other things than the slots and waits an index lists. *)
Definition foreign (k : string) : Prop :=
  forall κ id, k <> idx κ /\ k <> slot κ id /\ k <> wait κ id.

Lemma slot_inj κ κ' id id' : slot κ id = slot κ' id' -> κ = κ' /\ id = id'.
Proof.
  intros H. destruct κ, κ'; (split; [try done|]); try (apply str_app_inj in H; by apply Itoa_inj);
    exfalso; revert H; apply keys_apart; vm_compute; discriminate.
Qed.
Lemma wait_inj κ κ' id id' : wait κ id = wait κ' id' -> κ = κ' /\ id = id'.
Proof.
  intros H. destruct κ, κ'; (split; [try done|]); try (apply str_app_inj in H; by apply Itoa_inj);
    exfalso; revert H; apply keys_apart; vm_compute; discriminate.
Qed.
Lemma slot_wait κ κ' id id' : slot κ id <> wait κ' id'.
Proof. destruct κ, κ'; apply keys_apart; vm_compute; discriminate. Qed.
Lemma idx_inj κ κ' : idx κ = idx κ' -> κ = κ'.
Proof. destruct κ, κ'; try done; vm_compute; discriminate. Qed.
Lemma idx_slot κ κ' id : idx κ <> slot κ' id.
Proof.
  assert (Hl : forall p z, "active_index" <> Itoa z /\ p +:+ "active_index" <> p +:+ Itoa z).
  { intros p z. assert (H : "active_index" <> Itoa z).
    { intros H. pose proof (Itoa_forallb (fun a => (byte_of a <? 58)) z eq_refl) as H1.
      rewrite <- H in H1. discriminate H1. unfold in_range. intros a. lia. }
    split; [done|]. intros H1. by apply str_app_inj in H1. }
  assert (Hp : forall p q z, key_prefix p <> key_prefix q -> p <> q +:+ Itoa z).
  { intros p q z H ->. by rewrite key_prefix_id in H. }
  destruct κ, κ'; try (apply (Hp _ _ id); vm_compute; discriminate).
  - apply (proj2 (Hl "concurrency:account:" id)).
  - apply (proj2 (Hl "concurrency:user:" id)).
Qed.
Lemma idx_wait κ κ' id : idx κ <> wait κ' id.
Proof.
  assert (Hp : forall p q z, key_prefix p <> key_prefix q -> p <> q +:+ Itoa z).
  { intros p q z H ->. by rewrite key_prefix_id in H. }
  destruct κ, κ'; apply (Hp _ _ id); vm_compute; discriminate.
Qed.
Lemma slot_not_idx κ id κ' : slot κ id <> idx κ'.
Proof. intros H. by apply (idx_slot κ' κ id). Qed.
Lemma wait_not_idx κ id κ' : wait κ id <> idx κ'.
Proof. intros H. by apply (idx_wait κ' κ id). Qed.
Lemma foreign_not_idx k : foreign k -> forall κ, k <> idx κ.
Proof. intros H κ. apply (H κ 0). Qed.
Lemma foreign_not_slot k : foreign k -> forall κ id, k <> slot κ id.
Proof. intros H κ id. apply (H κ id). Qed.
#[export] Hint Resolve slot_not_idx wait_not_idx foreign_not_idx foreign_not_slot idx_slot : gateway.
Lemma foreign_prefix p id :
  key_prefix p <> "concurrency:account:" -> key_prefix p <> "concurrency:user:" ->
  key_prefix p <> "concurrency:wait:" -> key_prefix p <> "wait:account:" -> foreign (p +:+ Itoa id).
Proof.
  intros H1 H2 H3 H4 κ id'. assert (E := key_prefix_id p id).
  split; [|split]; intros H; rewrite H in E.
  - destruct κ; [apply H1 | apply H2]; rewrite <- E; reflexivity.
  - destruct κ; [apply H1 | apply H2]; rewrite <- E; (etransitivity; [apply key_prefix_id|reflexivity]).
  - destruct κ; [apply H4 | apply H3]; rewrite <- E; (etransitivity; [apply key_prefix_id|reflexivity]).
Qed.

(** ** Lemmas: what the commands do to loads and indexes *)

Section Facts.
Context {S : Type} `{!Redis S} `{!RedisSpec S}.
Implicit Types (s : S).

(** An id with a slot or with waiting requests. *)
Definition busy (κ : kind) s (id : Z) : Prop :=
  zset s (slot κ id) <> ∅ \/ 0 < default 0 (counter s (wait κ id)).
Definition listed (κ : kind) s (id : Z) : Prop := is_Some (zset s (idx κ) !! Itoa id).
(** Ids are positive [int64] values. *)
Definition valid (id : Z) : Prop := 0 < id <= max_int64.
(** Every busy id is listed in its index, but for one that is being changed. *)
Definition indexed s : Prop := forall κ id, valid id -> busy κ s id -> listed κ s id.
Definition indexed_but (κ0 : kind) (id0 : Z) s : Prop :=
  forall κ id, valid id -> busy κ s id -> (κ, id) <> (κ0, id0) -> listed κ s id.

(** No id becomes busy and none leaves an index. *)
Definition calm s s' : Prop := forall κ id,
  (busy κ s' id -> busy κ s id) /\ (listed κ s id -> listed κ s' id).

Lemma calm_refl s : calm s s.
Proof. intros κ id. auto. Qed.
Lemma calm_trans s1 s2 s3 : calm s1 s2 -> calm s2 s3 -> calm s1 s3.
Proof. intros H1 H2 κ id. destruct (H1 κ id), (H2 κ id). auto. Qed.
Lemma calm_indexed s s' : calm s s' -> indexed s -> indexed s'.
Proof. intros H Hs κ id Hid Hb. apply H, Hs; [done|]. by apply H. Qed.
Lemma calm_but κ0 id0 s s' : calm s s' -> indexed_but κ0 id0 s -> indexed_but κ0 id0 s'.
Proof. intros H Hs κ id Hid Hb Hne. apply H, Hs; [done| |done]. by apply H. Qed.
Lemma indexed_weaken κ0 id0 s : indexed s -> indexed_but κ0 id0 s.
Proof. intros H κ id ? ? _. by apply H. Qed.
Lemma indexed_nonpos κ0 id0 s : id0 <= 0 -> indexed_but κ0 id0 s -> indexed s.
Proof. intros H0 H κ id Hid Hb. apply H; [done|done|]. intros [= -> ->]. unfold valid in Hid. lia. Qed.

(** A command that empties or shrinks keys other than the indexes. *)
Lemma calm_shrinks s s' :
  (forall k, (forall κ, k <> idx κ) -> zset s' k = ∅ \/ dom (zset s' k) ⊆ dom (zset s k)) ->
  (forall κ, zset s' (idx κ) = zset s (idx κ)) ->
  (forall k, default 0 (counter s' k) <= Z.max 0 (default 0 (counter s k))) -> calm s s'.
Proof.
  intros Hz Hi Hc κ id. split.
  - intros [H|H]; [left|right].
    + destruct (Hz (slot κ id)) as [H1|H1]; [intros κ' E; by apply (idx_slot κ' κ id)|done|].
      intros E. apply H. apply dom_empty_inv_L. rewrite E, dom_empty_L in H1. set_solver.
    + specialize (Hc (wait κ id)). lia.
  - unfold listed. by rewrite Hi.
Qed.

Lemma calm_zremrange k lim s : (forall κ, k <> idx κ) -> calm s (ZREMRANGEBYSCORE k lim s).2.
Proof.
  intros Hk. apply calm_shrinks.
  - intros k' _. right. apply zremrange_shrinks.
  - intros κ. by rewrite zremrange_spec, decide_False.
  - intros k'. rewrite zremrange_counter. lia.
Qed.
Lemma calm_zrem k m s : (forall κ, k <> idx κ) -> calm s (ZREM k m s).2.
Proof.
  intros Hk. apply calm_shrinks.
  - intros k' _. right. apply zrem_shrinks.
  - intros κ. by rewrite zrem_spec, decide_False.
  - intros k'. rewrite zrem_counter. lia.
Qed.
Lemma calm_expire k t s : (forall κ, k <> idx κ) -> calm s (EXPIRE k t s).2.
Proof.
  intros Hk. apply calm_shrinks.
  - intros k' _. right. apply expire_shrinks.
  - intros κ. rewrite expire_spec, decide_False; [done|]. intros [H _]. by apply (Hk κ).
  - intros k'. rewrite expire_counter. destruct (decide _); simpl; lia.
Qed.
Lemma calm_del k s : (forall κ, k <> idx κ) -> calm s (DEL k s).2.
Proof.
  intros Hk. apply calm_shrinks.
  - intros k' _. right. apply del_shrinks.
  - intros κ. by rewrite del_spec, decide_False.
  - intros k'. rewrite del_counter. destruct (decide _); simpl; lia.
Qed.
Lemma calm_decr k s : 0 < default 0 (counter s k) -> calm s (DECR k s).2.
Proof.
  intros Hk. apply calm_shrinks.
  - intros k' _. right. by rewrite decr_spec.
  - intros κ. by rewrite decr_spec.
  - intros k'. rewrite decr_counter. destruct (decide _) as [->|]; simpl; lia.
Qed.
Lemma calm_zadd k v m s : (forall κ id, k <> slot κ id) -> calm s (ZADD k v m s).2.
Proof.
  intros Hk κ id. unfold busy, listed. rewrite zadd_counter, !zadd_spec. split.
  - by rewrite decide_False.
  - destruct (decide _) as [->|]; [|done]. intros H. apply lookup_insert_is_Some'. auto.
Qed.

(** Additions to the id that is being changed, and its entry in the index. *)
Lemma but_zadd_slot κ0 id0 v m s : indexed_but κ0 id0 s -> indexed_but κ0 id0 (ZADD (slot κ0 id0) v m s).2.
Proof.
  intros H κ id Hid Hb Hne. unfold listed. rewrite zadd_spec, decide_False.
  - apply H; [done| |done]. revert Hb. unfold busy. rewrite zadd_counter, zadd_spec, decide_False; [done|].
    intros E. apply slot_inj in E as [-> ->]. done.
  - intros E. by apply (idx_slot κ κ0 id0).
Qed.
Lemma but_incr κ0 id0 s : indexed_but κ0 id0 s -> indexed_but κ0 id0 (INCR (wait κ0 id0) s).2.
Proof.
  intros H κ id Hid Hb Hne. unfold listed. rewrite incr_spec. apply H; [done| |done]. revert Hb. unfold busy.
  rewrite incr_spec, incr_counter, decide_False; [done|].
  intros E. apply wait_inj in E as [-> ->]. done.
Qed.
Lemma but_listed κ0 id0 v s : indexed_but κ0 id0 s -> indexed (ZADD (idx κ0) v (Itoa id0) s).2.
Proof.
  intros H κ id Hid Hb. unfold listed. rewrite zadd_spec.
  assert (Hb' : busy κ s id).
  { revert Hb. unfold busy. rewrite zadd_counter, zadd_spec, decide_False; [done|]. apply idx_slot. }
  destruct (decide ((κ, id) = (κ0, id0))) as [[= -> ->]|Hne].
  - rewrite decide_True by done. rewrite lookup_insert_eq. eauto.
  - specialize (H κ id Hid Hb' Hne). destruct (decide _) as [E|]; [|done].
    apply idx_inj in E as ->. apply lookup_insert_is_Some'. auto.
Qed.
(** The entry of an id that is not busy can go. *)
Lemma unlisted κ0 id0 s : ~ busy κ0 s id0 -> indexed_but κ0 id0 s -> indexed (ZREM (idx κ0) (Itoa id0) s).2.
Proof.
  intros Hn H κ id Hid Hb. unfold listed. rewrite zrem_spec.
  assert (Hb' : busy κ s id).
  { revert Hb. unfold busy. rewrite zrem_counter, zrem_spec, decide_False; [done|]. apply idx_slot. }
  assert (Hne : (κ, id) <> (κ0, id0)) by (intros [= -> ->]; done).
  specialize (H κ id Hid Hb' Hne). destruct (decide _) as [E|]; [|done].
  apply idx_inj in E as ->. rewrite lookup_delete_ne; [done|]. intros E. apply Itoa_inj in E as ->. done.
Qed.
End Facts.

(** Commands on keys other than the indexes that add no slot, in sequence. *)
Ltac calming :=
  repeat first
    [ assumption | apply calm_refl
    | eapply calm_trans;
      [|first [ apply calm_zremrange; eauto with gateway; fail | apply calm_expire; eauto with gateway; fail
              | apply calm_zrem; eauto with gateway; fail | apply calm_del; eauto with gateway; fail
              | apply calm_zadd; eauto with gateway; fail ]] ].

(** ** Lemmas: the scripts *)

Section ScriptFacts.
Context {S : Type} `{!Redis S} `{!RedisSpec S}.
Implicit Types (s : S).

Lemma foreign_live_account id : foreign (liveAccountSlotKey id).
Proof. apply foreign_prefix; vm_compute; discriminate. Qed.
Lemma foreign_live_user id : foreign (liveUserSlotKey id).
Proof. apply foreign_prefix; vm_compute; discriminate. Qed.
Lemma foreign_live_api id : foreign (liveAPIKeySlotKey id).
Proof. apply foreign_prefix; vm_compute; discriminate. Qed.
Lemma foreign_api id : foreign (apiKeySlotKey id).
Proof. apply foreign_prefix; vm_compute; discriminate. Qed.
Lemma foreign_ingress id : foreign (openAIWSIngressLeaseKey id).
Proof. apply foreign_prefix; vm_compute; discriminate. Qed.
#[local] Hint Resolve foreign_live_account foreign_live_user foreign_live_api foreign_api foreign_ingress : gateway.

(** An acquisition that is granted may leave its id out of the index; every
    other id, and a refused one, are as they were. *)
Lemma acquire_indexes κ id live m t r s : foreign live -> indexed s ->
  let '(granted, now, s') := acquireScript (slot κ id) live m t r s in
  now = clock s /\ (granted = true -> indexed_but κ id s') /\ (granted = false -> indexed s').
Proof.
  intros Hl Hs. unfold acquireScript. run_redis. set (s1 := (ZREMRANGEBYSCORE live _ _).2).
  assert (H1 : calm s s1) by (unfold s1; calming). clearbody s1.
  assert (Hadd : indexed_but κ id (EXPIRE (slot κ id) t (ZADD (slot κ id) (clock s) r s1).2).2).
  { eapply calm_but; [apply calm_expire; eauto with gateway|].
    apply but_zadd_slot. eapply calm_but; [exact H1|]. by apply indexed_weaken. }
  destruct (zset s1 _ !! r); run_redis; [by auto|].
  destruct (_ <? m); run_redis; [by auto|]. split; [done|]. split; [done|].
  intros _. by eapply calm_indexed.
Qed.

Lemma increment_indexes κ id m t s : indexed s ->
  let '(granted, now, s') := incrementWaitScript (wait κ id) m t s in
  now = clock s /\ (granted = true -> indexed_but κ id s') /\ (granted = false -> indexed s').
Proof.
  intros Hs. unfold incrementWaitScript. run_redis.
  destruct (m <=? _); run_redis; [by auto|]. split; [done|]. split; [|done].
  intros _. eapply calm_but; [apply calm_expire; eauto with gateway|]. apply but_incr. by apply indexed_weaken.
Qed.

Lemma decrement_calm κ id s : calm s (decrementWaitScript (wait κ id) s).2.
Proof.
  unfold decrementWaitScript. run_redis. destruct (counter s _) as [w|] eqn:E; [|apply calm_refl].
  destruct (0 <? w) eqn:Hw; [|apply calm_refl]. apply calm_decr. rewrite E. simpl. by bool_to_prop.
Qed.

Lemma count_calm κ id live t s : foreign live -> calm s (getCountScript (slot κ id) live t s).2.
Proof. intros Hl. unfold getCountScript. run_redis. calming. Qed.
Lemma track_calm k t r s : foreign k -> calm s (trackSlotScript k t r s).2.
Proof. intros Hk. unfold trackSlotScript. run_redis. calming. Qed.
Lemma ingress_acquire_calm k m t l s : foreign k -> calm s (acquireOpenAIWSIngressLeaseScript k m t l s).2.
Proof.
  intros Hk. unfold acquireOpenAIWSIngressLeaseScript. run_redis. destruct (_ !! l); run_redis; [calming|].
  destruct (_ <? m); run_redis; calming.
Qed.
Lemma ingress_refresh_calm k t l s : foreign k -> calm s (refreshOpenAIWSIngressLeaseScript k t l s).2.
Proof.
  intros Hk. unfold refreshOpenAIWSIngressLeaseScript. run_redis. destruct (_ !! l); run_redis; calming.
Qed.
Lemma live_acquire_calm ar al ur ul pl am um t l rp s : foreign al -> foreign ul -> foreign pl ->
  calm s (acquireLiveLeaseScript ar al ur ul pl am um t l rp s).2.
Proof.
  intros H1 H2 H3. unfold acquireLiveLeaseScript. run_redis. destruct (_ !! l); run_redis; [calming|].
  destruct ((0 <? am) && _); run_redis; [calming|]. destruct ((0 <? um) && _); run_redis; calming.
Qed.
Lemma confirm_calm ks e l s : Forall foreign ks -> calm s (confirmAll ks e l s).2.
Proof.
  intros H. revert s. induction H as [|k ks Hk _ IH]; intros s; [apply calm_refl|]. simpl. run_redis.
  destruct (_ !! l); run_redis; [|calming]. eapply calm_trans; [|apply IH]. calming.
Qed.
Lemma renew_calm ks now t l s : Forall foreign ks -> calm s (renewAll ks now t l s).2.
Proof.
  intros H. revert s. induction H as [|k ks Hk _ IH]; intros s; [apply calm_refl|]. simpl. run_redis.
  eapply calm_trans; [|apply IH]. calming.
Qed.
Lemma live_refresh_calm ks t l s : Forall foreign ks -> calm s (refreshLiveLeaseScript ks t l s).2.
Proof.
  intros H. unfold refreshLiveLeaseScript. run_redis. pose proof (confirm_calm ks (clock s - t) l s H) as H1.
  destruct (confirmAll _ _ _ _) as [[] s1]; cbn [fst snd] in *; run_redis; [|done].
  eapply calm_trans; [exact H1|]. by apply renew_calm.
Qed.
Lemma cleanup_calm κ id t s : calm s (cleanupExpiredSlotsScript (slot κ id) t s).2.
Proof. unfold cleanupExpiredSlotsScript. run_redis. destruct (_ =? 0); calming. Qed.
Lemma removeForeign_calm κ id p ms n s : calm s (removeForeign (slot κ id) p ms n s).2.
Proof.
  revert n s. induction ms as [|m ms IH]; intros n s; simpl; [apply calm_refl|].
  destruct (negb _); [|apply IH]. run_redis. eapply calm_trans; [|apply IH]. calming.
Qed.
(** After the start-up script on an id without remaining slots it has none. *)
Lemma startup_calm κ id p t s :
  let '(_, remaining, s') := startupCleanupSlotScript (slot κ id) p t s in
  calm s s' /\ (remaining <= 0 -> zset s' (slot κ id) = ∅).
Proof.
  unfold startupCleanupSlotScript. run_redis.
  pose proof (removeForeign_calm κ id p (map fst (map_to_list (zset s (slot κ id)))) 0 s) as H.
  set (s1 := (removeForeign _ _ _ _ s).2) in *. clearbody s1.
  destruct (_ =? 0) eqn:E; run_redis; (split; [calming|]); intros Hr; bool_to_prop.
  - by rewrite del_spec, decide_True.
  - lia.
Qed.
End ScriptFacts.
#[export] Hint Resolve foreign_live_account foreign_live_user foreign_live_api foreign_api foreign_ingress : gateway.

(** ** Lemmas: the methods keep the indexes complete *)

Section Methods.
Context {S : Type} `{!Redis S} `{!RedisSpec S}.
Variable c : concurrencyCache.
Hypothesis slot_ttl : 0 <= slotTTLSeconds c.
Hypothesis wait_ttl : 0 <= waitQueueTTLSeconds c.
Implicit Types (s : S).

Abbreviation ok Q := (fun r s => exists a, r = Ok a /\ Q a s).

Lemma holds_calm {A} (m : ST S A) : (forall s, calm s (m s).2) ->
  holds indexed (remote m) (ok (fun _ => indexed)).
Proof. intros H. apply holds_remote. intros s Hs. by eapply calm_indexed. Qed.
Lemma holds_done {A E} P (m : ST (S * list fault) (result E A)) (Q : S -> Prop) :
  holds P m (ok (fun _ => Q)) -> holds P m (fun _ => Q).
Proof. intros H. eapply holds_consequence; [exact H|done|]. by intros r s (a & _ & ?). Qed.
Lemma holds_const {A} (a : A) : holds (S := S) indexed (mret a) (fun _ => indexed).
Proof. by apply holds_ret. Qed.

Lemma touch_indexes κ id e : 0 < e -> holds (indexed_but κ id) (touchActiveIndexAt (idx κ) id e) (fun _ => indexed).
Proof.
  intros He. unfold touchActiveIndexAt. destruct (id <=? 0) eqn:Hid; simpl; bool_to_prop.
  - apply holds_ret. intros s. by apply indexed_nonpos.
  - rewrite (proj2 (Z.leb_gt e 0)) by lia.
    eapply holds_bind; [apply (holds_remote _ _ (fun _ => indexed)); intros s Hs; by apply but_listed|].
    intros r. apply holds_ret. by intros s (a & _ & ?).
Qed.

Lemma holds_TIME P : holds P redisUnixSeconds (ok (fun now s => now = clock s /\ P s)).
Proof.
  apply holds_wrapErr, holds_remote. intros s Hs. rewrite time_spec. auto.
Qed.

(** The load that is read is that of the store it leaves. *)
Lemma load_spec κ id m now s :
  let '(l, s') := loadCommands c (spec_of κ) m id now s in
  calm s s' /\ al_id l = id /\ al_member l = m /\ 0 <= slotCount l /\ (idle l = true <-> ~ busy κ s' id).
Proof.
  unfold loadCommands. fold (slot κ) (wait κ). run_redis. set (s1 := (ZREMRANGEBYSCORE _ _ s).2).
  split; [unfold s1; calming|]. split; [done|]. split; [done|]. split; [simpl; lia|].
  unfold idle, busy. simpl. rewrite andb_true_iff, Z.eqb_eq, Z.leb_le.
  assert (Hz : Z.of_nat (size (zset s1 (slot κ id))) = 0 <-> zset s1 (slot κ id) = ∅).
  { rewrite <- map_size_empty_iff. lia. }
  assert (Hw : waiting (counter s1 (wait κ id)) <= 0 <-> ~ 0 < default 0 (counter s1 (wait κ id))).
  { unfold waiting. destruct (counter s1 (wait κ id)) as [w|]; simpl; [destruct (0 <? w) eqn:E; bool_to_prop|]; lia. }
  rewrite Hz, Hw. destruct (decide (zset s1 (slot κ id) = ∅)); tauto.
Qed.

Lemma refresh_indexes κ id : holds indexed (refreshActiveIndex c (spec_of κ) id) (fun _ => indexed).
Proof.
  unfold refreshActiveIndex. destruct (id <=? 0); [apply holds_const|].
  eapply holds_bind; [apply holds_TIME|]. intros [now|e]; [|apply holds_ret; intros s (a & E & _); discriminate E].
  eapply holds_bind.
  { apply holds_wrapErr, (holds_remote _ _ (fun l s => indexed s /\ 0 < now /\ (idle l = true -> ~ busy κ s id))).
    intros s (a & [= <-] & -> & Hs). pose proof (load_spec κ id (Itoa id) (clock s) s) as H.
    destruct (loadCommands _ _ _ _ _ s) as [l s1]. destruct H as (H1 & _ & _ & _ & H2). simpl.
    split; [by eapply calm_indexed|]. split; [apply clock_pos|]. by apply H2. }
  intros [l|e]; [|apply holds_ret; intros s (a & E & _); discriminate E].
  destruct ((slotCount l =? 0) && (waitCount l <=? 0)) eqn:Hi.
  - eapply holds_bind; [apply (holds_remote _ _ (fun _ => indexed)); intros s (a & [= <-] & Hs & _ & Hb)|].
    + apply unlisted; [by apply Hb|by apply indexed_weaken].
    + intros r. apply holds_ret. by intros s (a & _ & ?).
  - destruct (activeIndexTTL c _ _ <=? 0) eqn:Ht; [apply holds_ret; by intros s (a & _ & ? & _)|]. bool_to_prop.
    destruct (decide (0 < now)) as [Hn|Hn]; [|intros s (a & _ & _ & ? & _); lia].
    eapply holds_consequence; [apply touch_indexes| |done].
    + lia.
    + intros s (a & _ & Hs & _). by apply indexed_weaken.
Qed.

Lemma acquireSlot_indexes κ live id m r : foreign (live id) ->
  holds indexed (acquireSlot c (spec_of κ) live id m r) (fun _ => indexed).
Proof.
  intros Hl. unfold acquireSlot. fold (slot κ). eapply holds_bind_ok.
  { apply (holds_remote _ _ (fun p s => 0 < p.2 /\ (p.1 = true -> indexed_but κ id s) /\ (p.1 = false -> indexed s))).
    intros s Hs. pose proof (acquire_indexes κ id (live id) m (slotTTLSeconds c) r s Hl Hs) as H.
    destruct (acquireScript _ _ _ _ _ s) as [[g now] s']. destruct H as (-> & H). split; [apply clock_pos|exact H]. }
  intros [[] now]; simpl.
  - destruct (decide (0 < now)) as [Hn|Hn]; [|intros s (? & _); lia].
    eapply holds_bind; [eapply holds_consequence; [apply (touch_indexes κ id); lia| |done]|].
    + intros s (_ & H & _). by apply H.
    + intros []. apply holds_const.
  - apply holds_ret. intros s (_ & _ & H). by apply H.
Qed.
Lemma incrementWait_indexes κ id m : holds indexed (incrementWait c (spec_of κ) id m) (fun _ => indexed).
Proof.
  unfold incrementWait. fold (wait κ). eapply holds_bind_ok.
  { apply (holds_remote _ _ (fun p s => 0 < p.2 /\ (p.1 = true -> indexed_but κ id s) /\ (p.1 = false -> indexed s))).
    intros s Hs. pose proof (increment_indexes κ id m (waitQueueTTLSeconds c) s Hs) as H.
    destruct (incrementWaitScript _ _ _ s) as [[g now] s']. destruct H as (-> & H). split; [apply clock_pos|exact H]. }
  intros [[] now]; simpl.
  - destruct (decide (0 < now)) as [Hn|Hn]; [|intros s (? & _); lia].
    eapply holds_bind; [eapply holds_consequence; [apply (touch_indexes κ id); lia| |done]|].
    + intros s (_ & H & _). by apply H.
    + intros []. apply holds_const.
  - apply holds_ret. intros s (_ & _ & H). by apply H.
Qed.

(** A call that keeps the indexes, then the refresh of one id. *)
Lemma then_refresh {A} κ id (m : ST S A) : (forall s, calm s (m s).2) ->
  holds indexed (_ ←? remote m; _ ← refreshActiveIndex c (spec_of κ) id; mret (Ok (E := goerror) tt)) (fun _ => indexed).
Proof.
  intros H. eapply holds_bind_ok; [by apply holds_calm|]. intros ?.
  eapply holds_bind; [apply refresh_indexes|]. intros ?. apply holds_const.
Qed.
Lemma releaseSlot_indexes κ id r : holds indexed (releaseSlot c (spec_of κ) id r) (fun _ => indexed).
Proof. apply then_refresh. intros s. fold (slot κ). calming. Qed.
Lemma decrementWait_indexes κ id : holds indexed (decrementWait c (spec_of κ) id) (fun _ => indexed).
Proof. apply then_refresh. intros s. apply decrement_calm. Qed.
Lemma cleanup_indexes id : holds indexed (CleanupExpiredAccountSlots c id) (fun _ => indexed).
Proof. apply (then_refresh Account). intros s. apply (cleanup_calm Account). Qed.

(** *** Batches and clean-up *)

Lemma counts_calm sl live ids now s : (forall id κ, sl id <> idx κ) -> (forall id, foreign (live id)) ->
  calm s (countCommands c sl live ids now s).2.
Proof.
  intros H1 H2. revert s. induction ids as [|id ids IH]; intros s; simpl; [apply calm_refl|]. run_redis.
  eapply calm_trans; [|apply IH]. calming.
Qed.
Lemma countBatch_indexes sl live ids : (forall id κ, sl id <> idx κ) -> (forall id, foreign (live id)) ->
  holds indexed (countBatch c sl live ids) (fun _ => indexed).
Proof.
  intros H1 H2. unfold countBatch. destruct ids as [|i ids]; [apply holds_const|].
  eapply holds_bind_ok; [apply (holds_TIME indexed)|]. intros now.
  eapply holds_bind_ok; [eapply holds_wrapErr, (holds_remote _ _ (fun _ => indexed))|].
  - intros s [_ Hs]. eapply calm_indexed; [|exact Hs]. by apply counts_calm.
  - intros l. apply holds_const.
Qed.

Lemma loads_calm κ live items now s : (forall id, foreign (live id)) ->
  calm s (loadBatchCommands c (spec_of κ) live items now s).2.
Proof.
  intros H. revert s. induction items as [|[id m] items IH]; intros s; simpl; [apply calm_refl|].
  fold (slot κ) (wait κ). run_redis. eapply calm_trans; [|apply IH]. calming.
Qed.
Lemma loadBatch_indexes κ live items : (forall id, foreign (live id)) ->
  holds indexed (loadBatch c (spec_of κ) live items) (fun _ => indexed).
Proof.
  intros H. unfold loadBatch. destruct items as [|i items]; [apply holds_const|].
  eapply holds_bind_ok; [apply (holds_TIME indexed)|]. intros now.
  eapply holds_bind_ok; [eapply holds_wrapErr, (holds_remote _ _ (fun _ => indexed))|].
  - intros s [_ Hs]. eapply calm_indexed; [|exact Hs]. by apply loads_calm.
  - intros l. apply holds_const.
Qed.

(** A member that names no busy id. *)
Definition dead (κ : kind) s (m : string) : Prop := forall id, valid id -> m = Itoa id -> ~ busy κ s id.
Lemma dead_calm κ s s' m : calm s s' -> dead κ s m -> dead κ s' m.
Proof. intros H Hd id Hid Hm Hb. eapply Hd; [exact Hid|exact Hm|]. by apply H. Qed.
Lemma candidate_None m κ s : candidate m = None -> dead κ s m.
Proof.
  intros H id Hid -> _. unfold candidate in H. rewrite Atoi_Itoa in H.
  - rewrite (proj2 (Z.leb_gt id 0)) in H; [done|]. apply Hid.
  - unfold valid, int64_ok, min_int64 in *. lia.
Qed.
Lemma candidate_Some m m' id : candidate m = Some (m', id) -> m' = m /\ 0 < id /\ Atoi m = Some id.
Proof.
  unfold candidate. destruct (Atoi m) as [i|] eqn:E; [|done]. destruct (i <=? 0) eqn:Hi; [done|].
  intros [= <- <-]. bool_to_prop. auto.
Qed.
(** A member that reads as [id] can only be the name of [id]. *)
Lemma candidate_dead m m' id κ s : candidate m = Some (m', id) -> ~ busy κ s id -> dead κ s m.
Proof.
  intros H Hn id' Hid' -> Hb. apply candidate_Some in H as (_ & _ & H). rewrite Atoi_Itoa in H.
  - by simplify_eq.
  - unfold valid, int64_ok, min_int64 in *. lia.
Qed.

Lemma busy_zrem_idx κ κ0 m s id : busy κ (ZREM (idx κ0) m s).2 id <-> busy κ s id.
Proof. unfold busy. rewrite zrem_counter, zrem_spec, decide_False; [done|apply idx_slot]. Qed.
Lemma zremAll_indexes κ ms s : Forall (dead κ s) ms -> indexed s -> indexed (zremAll (idx κ) ms s).2.
Proof.
  revert s. induction ms as [|m ms IH]; intros s Hd Hs; simpl; [done|]. run_redis.
  apply Forall_cons in Hd as [Hm Hd]. apply IH.
  - eapply Forall_impl; [exact Hd|]. intros m' H id Hid E. rewrite busy_zrem_idx. by apply H.
  - intros κ' id Hid Hb. rewrite busy_zrem_idx in Hb. unfold listed. rewrite zrem_spec.
    pose proof (Hs κ' id Hid Hb) as Hl. destruct (decide _) as [E|]; [|done]. apply idx_inj in E as ->.
    rewrite lookup_delete_ne; [done|]. intros ->. by apply (Hm id).
Qed.
Lemma zaddAll_calm κ zs s : calm s (zaddAll (idx κ) zs s).2.
Proof.
  revert s. induction zs as [|[v m] zs IH]; intros s; simpl; [apply calm_refl|]. run_redis.
  eapply calm_trans; [|apply IH]. calming.
Qed.

(** The two writes that end a clean-up of an index. *)
Definition written (k : string) (zs : list (Z * string)) (ms : list string) s : S :=
  (zremAll k ms (zaddAll k zs s).2).2.
Lemma finish_run k zs ms s :
  (_ ← refreshMembers k zs; _ ← removeActiveIndexMembers k ms; mret (Ok (E := goerror) tt)) (s, []) =
  (Ok tt, (written k zs ms s, [])).
Proof.
  rewrite bind_run.
  assert (E1 : refreshMembers k zs (s, []) = (tt, ((zaddAll k zs s).2, []))).
  { destruct zs; [done|]. unfold refreshMembers. by rewrite bind_run, remote_run. }
  rewrite E1. simpl. rewrite bind_run.
  assert (E2 : forall s, removeActiveIndexMembers k ms (s, []) = (tt, ((zremAll k ms s).2, []))).
  { intros s1. destruct ms; [done|]. unfold removeActiveIndexMembers. by rewrite bind_run, remote_run. }
  by rewrite E2.
Qed.
Lemma written_indexes κ zs ms s : Forall (dead κ s) ms -> indexed s -> indexed (written (idx κ) zs ms s).
Proof.
  intros Hd Hs. pose proof (zaddAll_calm κ zs s) as Hc. apply zremAll_indexes.
  - eapply Forall_impl; [exact Hd|]. intros m. by apply dead_calm.
  - by eapply calm_indexed.
Qed.

Lemma zremAll_lookup k ms m s :
  zset (zremAll k ms s).2 k !! m = if bool_decide (m ∈ ms) then None else zset s k !! m.
Proof.
  revert s. induction ms as [|m' ms IH]; intros s; simpl; [done|]. run_redis. rewrite IH, zrem_spec, decide_True by done.
  destruct (decide (m = m')) as [->|Hne].
  - rewrite lookup_delete_eq. rewrite (bool_decide_eq_true_2 (m' ∈ m' :: ms)) by left. by destruct (bool_decide _).
  - rewrite lookup_delete_ne by done. by rewrite (bool_decide_ext (m ∈ m' :: ms) (m ∈ ms)) by (rewrite elem_of_cons; tauto).
Qed.
Lemma zaddAll_lookup k zs m lim s : Forall (fun z => lim < z.1) zs ->
  m ∈ map snd zs \/ (exists v, zset s k !! m = Some v /\ lim < v) ->
  exists v, zset (zaddAll k zs s).2 k !! m = Some v /\ lim < v.
Proof.
  intros H. revert s. induction H as [|[v0 m0] zs Hv _ IH]; intros s Hm; simpl in *.
  - destruct Hm as [Hm|Hm]; [by apply not_elem_of_nil in Hm|done].
  - run_redis. apply IH. rewrite zadd_spec, decide_True by done.
    destruct (decide (m = m0)) as [->|Hne]; [right; rewrite lookup_insert_eq; eauto|].
    rewrite lookup_insert_ne by done. destruct Hm as [Hm|Hm]; [|by right].
    apply elem_of_cons in Hm as [->|Hm]; [done|by left].
Qed.

(** *** Reading the loads of many members *)

(** What is known of a load that was read between [s] and [s']. *)
Definition load_of κ s s' (p : string * Z) (l : activeIndexLoad) : Prop :=
  al_member l = p.1 /\ al_id l = p.2 /\ 0 <= slotCount l /\
  (idle l = true -> ~ busy κ s' p.2) /\ (~ busy κ s p.2 -> idle l = true).

Lemma load_of_calm κ s s1 s2 s' p l : calm s s1 -> calm s2 s' -> load_of κ s1 s2 p l -> load_of κ s s' p l.
Proof.
  intros H1 H2 (Hm & Hi & Hz & Ha & Hb). split; [done|]. split; [done|]. split; [done|]. split.
  - intros Hl Hbu. apply (Ha Hl). by apply (H2 κ p.2).
  - intros Hn. apply Hb. intros Hbu. apply Hn. by apply (H1 κ p.2).
Qed.

Lemma chunk_spec κ cands now s :
  let '(ls, s') := chunkCommands c (spec_of κ) cands now s in
  calm s s' /\ Forall2 (load_of κ s s') cands ls.
Proof.
  revert s. induction cands as [|[m id] cands IH]; intros s; simpl; [split; [apply calm_refl|constructor]|].
  rewrite bind_run. pose proof (load_spec κ id m now s) as H.
  destruct (loadCommands c (spec_of κ) m id now s) as [l s1]. destruct H as (H1 & Hid & Hm & Hz & Hi). simpl.
  rewrite bind_run. specialize (IH s1). destruct (chunkCommands _ _ cands now s1) as [ls s2]. destruct IH as (H2 & IH).
  rewrite ret_run. simpl. split; [by eapply calm_trans|]. constructor.
  - apply (load_of_calm κ s s s1 s2); [apply calm_refl|done|]. repeat split; try done.
    + intros Hl. by apply Hi.
    + intros Hn. apply Hi. intros Hb. apply Hn. by apply (H1 κ id).
  - eapply Forall2_impl; [exact IH|]. intros p l'. apply load_of_calm; [done|apply calm_refl].
Qed.

Lemma readChunks_spec κ fuel cands now s : (length cands <= fuel)%nat ->
  exists ls s', readChunks c fuel (spec_of κ) cands now (s, []) = (Ok ls, (s', [])) /\
    calm s s' /\ Forall2 (load_of κ s s') cands ls.
Proof.
  revert cands s. induction fuel as [|fuel IH]; intros cands s Hf.
  - destruct cands; [|simpl in Hf; lia]. exists [], s. split; [done|]. split; [apply calm_refl|constructor].
  - destruct cands as [|p cands]; [exists [], s; split; [done|]; split; [apply calm_refl|constructor]|].
    cbn [readChunks]. set (cs := p :: cands) in *.
    pose proof (chunk_spec κ (take activeIndexPipelineChunkSize cs) now s) as H.
    destruct (chunkCommands c (spec_of κ) (take activeIndexPipelineChunkSize cs) now s) as [ls s1] eqn:E.
    destruct H as [H1 H2].
    erewrite bind_ok_run; [|eapply wrapErr_run; rewrite remote_run, E; reflexivity]. simpl.
    destruct (IH (drop activeIndexPipelineChunkSize cs) s1) as (rest & s2 & E2 & H3 & H4).
    { rewrite length_drop. unfold cs, activeIndexPipelineChunkSize in *. simpl in *. lia. }
    erewrite bind_ok_run; [|exact E2]. exists (ls ++ rest)%list, s2. split; [done|].
    split; [by eapply calm_trans|]. rewrite <- (take_drop activeIndexPipelineChunkSize cs). apply Forall2_app.
    + eapply Forall2_impl; [exact H2|]. intros q l. apply load_of_calm; [apply calm_refl|done].
    + eapply Forall2_impl; [exact H4|]. intros q l. apply load_of_calm; [done|apply calm_refl].
Qed.

Lemma candidates_length ms : (length (candidates ms) <= length ms)%nat.
Proof.
  unfold candidates. induction ms as [|m ms IH]; [done|]. cbn [omap list_omap length] in *.
  destruct (candidate m); simpl; unfold omap in *; lia.
Qed.
Lemma candidates_in ms p : p ∈ candidates ms -> exists m, m ∈ ms /\ candidate m = Some p.
Proof. intros H. unfold candidates in H. apply list_elem_of_omap in H as (m & H1 & H2). eauto. Qed.

(** The entries a reconciliation refreshes are later than its time. *)
Definition refreshed_of (now : Z) (loads : list activeIndexLoad) : list (Z * string) :=
  map (fun l => (now + activeIndexTTL c (slotCount l) (waitCount l), al_member l))
    (List.filter (fun l => negb (idle l)) loads).
Lemma refreshed_later κ s s' cands loads now : Forall2 (load_of κ s s') cands loads ->
  0 < slotTTLSeconds c -> 0 < waitQueueTTLSeconds c -> Forall (fun z => now < z.1) (refreshed_of now loads).
Proof.
  intros Hl T1 T2. apply Forall_map_filter. intros l Hin Hni. simpl.
  destruct (Forall2_partner_r _ _ _ _ Hl Hin) as (p & _ & _ & _ & Hz & _).
  revert Hni. unfold idle, activeIndexTTL.
  destruct (0 <? slotCount l) eqn:A, (0 <? waitCount l) eqn:B; simpl;
    try destruct (_ <? waitQueueTTLSeconds c) eqn:D; intros Hni; bool_to_prop; lia.
Qed.

(** One reconciliation, to its last write. *)
Lemma reconcile_run κ s :
  let members := (ZRANGEBYSCORE (idx κ) (clock s) activeIndexCleanupBatchSize s).1 in
  exists loads s', calm s s' /\ Forall2 (load_of κ s s') (candidates members) loads /\
  reconcileExpiredIndexCandidates c (spec_of κ) (s, []) =
  (Ok tt, (written (idx κ)
     (map (fun l => (clock s + activeIndexTTL c (slotCount l) (waitCount l), al_member l))
        (List.filter (fun l => negb (idle l)) loads))
     (staleNames members ++ map al_member (List.filter idle loads))%list s', [])).
Proof.
  intros members. destruct (readChunks_spec κ (length members) (candidates members) (clock s) s)
    as (loads & s' & E & H1 & H2); [apply candidates_length|].
  exists loads, s'. split; [done|]. split; [done|]. unfold reconcileExpiredIndexCandidates.
  erewrite bind_ok_run; [|eapply wrapErr_run; rewrite remote_run, time_spec; reflexivity]. cbn [fst snd].
  erewrite bind_ok_run; [|eapply wrapErr_run; rewrite remote_run, zrangebyscore_state; reflexivity].
  fold (idx κ) members. unfold readIndexLoads.
  erewrite bind_ok_run; [|erewrite bind_ok_run; [|exact E]; reflexivity].
  apply finish_run.
Qed.

Lemma reconcile_indexes κ : holds indexed (reconcileExpiredIndexCandidates c (spec_of κ))
  (fun r s => r = Ok tt /\ indexed s).
Proof.
  intros s Hs. destruct (reconcile_run κ s) as (loads & s' & H1 & H2 & E). cbv zeta in *.
  set (members := (ZRANGEBYSCORE _ _ _ s).1) in *. eexists _, _. split; [exact E|]. split; [done|].
  apply written_indexes; [|by eapply calm_indexed]. apply Forall_app. split.
  - apply Forall_forall. intros m Hm. unfold staleNames in Hm. apply list_elem_of_filter in Hm as [Hm _].
    by apply candidate_None.
  - apply Forall_map_filter. intros l Hin Hi. destruct (Forall2_partner_r _ _ _ _ H2 Hin) as ([m' id] & Hp & Hlo).
    destruct Hlo as (Em & _ & _ & Hb & _). rewrite Em. apply candidates_in in Hp as (m & _ & Hc).
    pose proof (candidate_Some _ _ _ Hc) as (-> & _). eapply candidate_dead; [exact Hc|]. by apply Hb.
Qed.

(** *** The clean-up at start-up *)

Lemma staleLoop_run κ prefix now members s : exists r s',
  staleLoop c (spec_of κ) prefix now members (s, []) = (Ok r, (s', [])) /\ calm s s' /\ Forall (dead κ s') r.2.
Proof.
  revert s. induction members as [|m members IH]; intros s.
  - exists ([], []), s. split; [done|]. split; [apply calm_refl|constructor].
  - cbn [staleLoop]. destruct (candidate m) as [[m' id]|] eqn:Hc.
    + fold (slot κ) (wait κ). pose proof (startup_calm κ id prefix (slotTTLSeconds c) s) as H.
      destruct (startupCleanupSlotScript (slot κ id) prefix (slotTTLSeconds c) s) as [[removed remaining] s1] eqn:E.
      destruct H as [H1 H2].
      erewrite bind_ok_run; [|eapply wrapErr_run; rewrite remote_run, E; reflexivity]. cbn [fst snd].
      erewrite bind_ok_run; [|eapply wrapErr_run; rewrite remote_run; reflexivity].
      set (s2 := (DEL (wait κ id) s1).2). destruct (IH s2) as (r & s3 & E3 & H3 & H4).
      erewrite bind_ok_run; [|exact E3].
      assert (Hs2 : calm s1 s2) by (unfold s2; calming).
      assert (Hs : calm s s3) by (do 2 (eapply calm_trans; [eassumption|]); exact H3).
      destruct (0 <? remaining) eqn:Hr; eexists _, s3; (split; [reflexivity|split; [exact Hs|]]); simpl; [done|].
      constructor; [|done]. eapply candidate_dead; [exact Hc|]. intros Hb. apply H3 in Hb.
      bool_to_prop. specialize (H2 ltac:(lia)). revert Hb. unfold busy, s2.
      rewrite del_counter, del_spec, decide_False by (intros Ek; by apply (slot_wait κ κ id id)).
      rewrite decide_True by done. simpl.
      intros [?|?]; [done|lia].
    + destruct (IH s) as (r & s' & E & H1 & H2). erewrite bind_ok_run; [|exact E].
      eexists _, s'. split; [reflexivity|]. split; [done|]. simpl. constructor; [by apply candidate_None|done].
Qed.

Lemma cleanupStale_indexes κ ms prefix now :
  holds indexed (cleanupStaleProcessSlotsForIndex c (spec_of κ) ms prefix now) (fun r s => r = Ok tt /\ indexed s).
Proof.
  intros s Hs. unfold cleanupStaleProcessSlotsForIndex.
  destruct (staleLoop_run κ prefix now ms s) as (r & s1 & E & H1 & H2).
  erewrite bind_ok_run; [|exact E]. fold (idx κ). rewrite finish_run. eexists _, _. split; [done|]. split; [done|].
  apply written_indexes; [done|]. by eapply calm_indexed.
Qed.

Lemma CleanupStale_indexes prefix : holds indexed (CleanupStaleProcessSlots c prefix) (fun _ => indexed).
Proof.
  unfold CleanupStaleProcessSlots. destruct (String.eqb prefix ""); [apply holds_const|].
  eapply holds_bind_ok; [apply (holds_TIME indexed)|]. intros now.
  assert (Hall : forall k, holds indexed (allIndexMembers k) (ok (fun _ => indexed))).
  { intros k. apply holds_wrapErr, holds_remote. intros s Hs. by rewrite zrange_spec. }
  eapply holds_bind_ok; [eapply holds_consequence; [apply Hall|by intros s [_ ?]|intros r s H; exact H]|].
  intros am.
  eapply holds_bind_ok; [eapply holds_consequence; [apply (cleanupStale_indexes Account)|done|]|].
  { intros r s [-> Hs]. exists tt. split; [done|]. exact (Hs : (fun _ => indexed) tt s). }
  intros []. eapply holds_bind_ok; [apply Hall|]. intros um.
  eapply holds_consequence; [apply (cleanupStale_indexes User)|done|]. by intros r s [_ ?].
Qed.
End Methods.

(** ** The operations of the cache as steps of the store *)

Inductive cache_op :=
| OpAcquire (κ : kind) (id maxConcurrency : Z) (requestID : string)
| OpRelease (κ : kind) (id : Z) (requestID : string)
| OpIncrementWait (κ : kind) (id maxWait : Z)
| OpDecrementWait (κ : kind) (id : Z)
| OpGet (κ : kind) (id : Z)
| OpGetBatch (ids : list Z)
| OpGetAPIKeyBatch (ids : list Z)
| OpLoadBatch (κ : kind) (items : list (Z * Z))
| OpTrackAPIKey (apiKeyID : Z) (requestID : string)
| OpReleaseAPIKey (apiKeyID : Z) (requestID : string)
| OpAcquireIngress (apiKeyID maxConnections : Z) (leaseID : string)
| OpRefreshIngress (apiKeyID : Z) (leaseID : string)
| OpReleaseIngress (apiKeyID : Z) (leaseID : string)
| OpAcquireLive (accountID accountMax userID userMax apiKeyID : Z) (leaseID : string) (replacing : bool)
| OpRefreshLive (accountID userID apiKeyID : Z) (leaseID : string)
| OpReleaseLive (accountID userID apiKeyID : Z) (leaseID : string)
| OpCleanupAccount (accountID : Z)
| OpCleanupExpired
| OpStartup (activeRequestPrefix : string).

Section Steps.
Context {S : Type} `{!Redis S} `{!RedisSpec S}.
Variable c : concurrencyCache.

Definition done {A} (m : ST (S * list fault) A) : ST (S * list fault) unit := _ ← m; mret tt.

Definition run_op (o : cache_op) : ST (S * list fault) unit :=
  match o with
  | OpAcquire Account id m r => done (AcquireAccountSlot c id m r)
  | OpAcquire User id m r => done (AcquireUserSlot c id m r)
  | OpRelease Account id r => done (ReleaseAccountSlot c id r)
  | OpRelease User id r => done (ReleaseUserSlot c id r)
  | OpIncrementWait Account id m => done (IncrementAccountWaitCount c id m)
  | OpIncrementWait User id m => done (IncrementWaitCount c id m)
  | OpDecrementWait Account id => done (DecrementAccountWaitCount c id)
  | OpDecrementWait User id => done (DecrementWaitCount c id)
  | OpGet Account id => done (GetAccountConcurrency c id)
  | OpGet User id => done (GetUserConcurrency c id)
  | OpGetBatch ids => done (GetAccountConcurrencyBatch c ids)
  | OpGetAPIKeyBatch ids => done (GetAPIKeyConcurrencyBatch c ids)
  | OpLoadBatch Account items => done (GetAccountsLoadBatch c items)
  | OpLoadBatch User items => done (GetUsersLoadBatch c items)
  | OpTrackAPIKey id r => done (TrackAPIKeySlot c id r)
  | OpReleaseAPIKey id r => done (ReleaseAPIKeySlot id r)
  | OpAcquireIngress id m l => done (AcquireOpenAIWSIngressLease id m l)
  | OpRefreshIngress id l => done (RefreshOpenAIWSIngressLease id l)
  | OpReleaseIngress id l => done (ReleaseOpenAIWSIngressLease id l)
  | OpAcquireLive a am u um k l r => done (AcquireLiveLease a am u um k l r)
  | OpRefreshLive a u k l => done (RefreshLiveLease a u k l)
  | OpReleaseLive a u k l => done (ReleaseLiveLease a u k l)
  | OpCleanupAccount id => done (CleanupExpiredAccountSlots c id)
  | OpCleanupExpired => done (CleanupExpiredAccountSlotKeys c)
  | OpStartup p => done (CleanupStaleProcessSlots c p)
  end.

(** An operation that runs to its end, or the end of some keys' time to live
    (the indexes have none). *)
Inductive cache_step (s s' : S) : Prop :=
| step_op o : run_op o (s, []) = (tt, (s', [])) -> cache_step s s'
| step_expire :
    (forall k, zset s' k = zset s k \/ zset s' k = ∅) -> (forall κ, zset s' (idx κ) = zset s (idx κ)) ->
    (forall k, counter s' k = counter s k \/ counter s' k = None) -> cache_step s s'.

Hypothesis slot_ttl : 0 <= slotTTLSeconds c.
Hypothesis wait_ttl : 0 <= waitQueueTTLSeconds c.

Lemma holds_end {A} (m : ST (S * list fault) A) :
  holds indexed m (fun _ => indexed) -> holds indexed (done m) (fun _ => indexed).
Proof. intros H. eapply holds_bind; [exact H|]. intros a. by apply holds_ret. Qed.
Lemma holds_end_calm {A} (m : ST S A) : (forall s, calm s (m s).2) -> holds indexed (done (remote m)) (fun _ => indexed).
Proof. intros H. apply holds_end, holds_done. by apply holds_calm. Qed.
Lemma holds_skip {A} (a : A) : holds indexed (done (mret a)) (fun _ => indexed).
Proof. apply holds_end. by apply holds_ret. Qed.
Lemma holds_zrem k m : foreign k ->
  holds indexed (done (_ ←? remote (ZREM k m); mret (Ok (E := goerror) tt))) (fun _ => indexed).
Proof.
  intros Hk. apply holds_end. eapply holds_bind_ok; [apply holds_calm; intros s; calming|].
  intros n. by apply holds_ret.
Qed.

(** Every operation ends and keeps the indexes complete. *)
Lemma run_op_indexes o : holds indexed (run_op o) (fun _ => indexed).
Proof.
  destruct o; simpl; try destruct κ.
  - apply holds_end, (acquireSlot_indexes c slot_ttl Account). auto with gateway.
  - apply holds_end, (acquireSlot_indexes c slot_ttl User). auto with gateway.
  - apply holds_end, (releaseSlot_indexes c Account).
  - apply holds_end, (releaseSlot_indexes c User).
  - apply holds_end, (incrementWait_indexes c wait_ttl Account).
  - apply holds_end, (incrementWait_indexes c wait_ttl User).
  - apply holds_end, (decrementWait_indexes c Account).
  - apply holds_end, (decrementWait_indexes c User).
  - apply holds_end_calm. intros s. apply (count_calm Account). auto with gateway.
  - apply holds_end_calm. intros s. apply (count_calm User). auto with gateway.
  - apply holds_end, countBatch_indexes; [intros; apply (slot_not_idx Account)|auto with gateway].
  - apply holds_end, countBatch_indexes; auto with gateway.
  - apply holds_end, (loadBatch_indexes c Account). auto with gateway.
  - apply holds_end, (loadBatch_indexes c User). auto with gateway.
  - apply holds_end_calm. intros s. apply track_calm. auto with gateway.
  - apply holds_zrem. auto with gateway.
  - unfold AcquireOpenAIWSIngressLease. destruct (_ || _); [apply holds_skip|].
    apply holds_end_calm. intros s. apply ingress_acquire_calm. auto with gateway.
  - unfold RefreshOpenAIWSIngressLease. destruct (_ || _); [apply holds_skip|].
    apply holds_end_calm. intros s. apply ingress_refresh_calm. auto with gateway.
  - unfold ReleaseOpenAIWSIngressLease. destruct (_ || _); [apply holds_skip|]. apply holds_zrem. auto with gateway.
  - unfold AcquireLiveLease. destruct (_ || _); [apply holds_skip|].
    apply holds_end_calm. intros s. apply live_acquire_calm; auto with gateway.
  - unfold RefreshLiveLease. destruct (String.eqb _ _); [apply holds_skip|].
    apply holds_end_calm. intros s. apply live_refresh_calm. repeat apply Forall_cons_2; auto with gateway.
  - unfold ReleaseLiveLease. destruct (String.eqb _ _); [apply holds_skip|].
    apply holds_end_calm. intros s. run_redis. calming.
  - apply holds_end, cleanup_indexes.
  - apply holds_end. eapply holds_bind_ok; [eapply holds_consequence; [apply (reconcile_indexes c Account)|done|]|].
    + intros r s [-> Hs]. exists tt. split; [done|]. exact (Hs : (fun _ => indexed) tt s).
    + intros []. eapply holds_consequence; [apply (reconcile_indexes c User)|done|]. by intros r s [_ ?].
  - apply holds_end, CleanupStale_indexes.
Qed.
End Steps.

(** ** Properties *)

Section Properties.
Context {S : Type} `{!Redis S} `{!RedisSpec S}.
Variables slotTTLMinutes waitQueueTTLSeconds0 : Z.

Abbreviation cache := (NewConcurrencyCache slotTTLMinutes waitQueueTTLSeconds0).

Lemma cache_ttls : 0 < slotTTLSeconds cache /\ 0 < waitQueueTTLSeconds cache.
Proof.
  unfold NewConcurrencyCache, defaultSlotTTLMinutes.
  destruct (slotTTLMinutes <=? 0) eqn:E1, (waitQueueTTLSeconds0 <=? 0) eqn:E2; simpl; bool_to_prop; lia.
Qed.

(** The active indexes are complete.  From a store without slots and
    waiting requests, whatever operations of the cache run on a connection
    without faults, one after the other, and whatever keys expire, every
    account and user that has a slot or a waiting request is listed in its
    active index; so the clean-ups, which look at listed ids alone, miss none. *)
Theorem active_indexes_complete (s0 s : S) :
  (forall k, zset s0 k = ∅ /\ counter s0 k = None) -> rtc (cache_step cache) s0 s -> indexed s.
Proof.
  intros H0 H. assert (Hs : indexed s0).
  { intros κ id _ [Hb|Hb]; exfalso; [by apply Hb, H0|]. rewrite (proj2 (H0 _)) in Hb. simpl in Hb. lia. }
  clear H0. induction H as [s|s1 s2 s3 Hstep _ IH]; [done|]. apply IH. clear IH.
  destruct Hstep as [o E|Hz Hi Hc].
  - destruct cache_ttls as [T1 T2].
    destruct (run_op_indexes cache ltac:(lia) ltac:(lia) o s1 Hs) as (a & s' & E' & Hs').
    rewrite E in E'. by simplify_eq.
  - eapply calm_indexed; [|exact Hs]. apply calm_shrinks; [|done|].
    + intros k _. destruct (Hz k) as [->| ->]; [right; reflexivity|by left].
    + intros k. destruct (Hc k) as [->| ->]; simpl; lia.
Qed.

(** An expired index entry is settled by one reconciliation.  When fewer
    entries than a batch have expired, a reconciliation without faults ends
    without error, and of every expired entry either the id is gone from the
    index or its score is in the future; an id without load is gone. *)
Theorem index_reconciled κ (s : S) :
  Z.of_nat (length (ZRANGEBYSCORE (idx κ) (clock s) activeIndexCleanupBatchSize s).1) < activeIndexCleanupBatchSize ->
  exists s', reconcileExpiredIndexCandidates cache (spec_of κ) (s, []) = (Ok tt, (s', [])) /\
  forall id v, valid id -> zset s (idx κ) !! Itoa id = Some v -> v <= clock s ->
  (~ busy κ s id -> zset s' (idx κ) !! Itoa id = None) /\
  (forall v', zset s' (idx κ) !! Itoa id = Some v' -> clock s < v').
Proof.
  intros Hlen. destruct (reconcile_run cache κ s) as (loads & s' & Hc & Hl & E). cbv zeta in *.
  set (members := (ZRANGEBYSCORE _ _ _ s).1) in *. eexists. split; [exact E|]. intros id v Hid Hv Hle.
  assert (Hin : Itoa id ∈ members).
  { destruct (zrangebyscore_complete _ _ activeIndexCleanupBatchSize _ _ _ Hv Hle ltac:(done)) as [?|Heq]; [done|].
    fold members in Heq. lia. }
  assert (Hcand : candidate (Itoa id) = Some (Itoa id, id)).
  { unfold candidate. rewrite Atoi_Itoa by (unfold valid, int64_ok, min_int64 in *; lia).
    rewrite (proj2 (Z.leb_gt id 0)); [done|]. apply Hid. }
  assert (Hp : (Itoa id, id) ∈ candidates members) by (apply list_elem_of_omap; eauto).
  destruct (Forall2_partner_l _ _ _ _ Hl Hp) as (l & Hli & Em & _ & _ & _ & Hidle). simpl in Em.
  unfold written. setoid_rewrite zremAll_lookup. split.
  - intros Hn. rewrite bool_decide_eq_true_2; [done|]. apply elem_of_app. right.
    rewrite <- Em. apply elem_of_map_filter; auto.
  - intros v'. destruct (bool_decide _) eqn:Eb; [done|]. apply bool_decide_eq_false in Eb.
    destruct (idle l) eqn:Ei.
    + exfalso. apply Eb, elem_of_app. right. rewrite <- Em. by apply elem_of_map_filter.
    + destruct (zaddAll_lookup (idx κ) (refreshed_of cache (clock s) loads) (Itoa id) (clock s) s')
        as (v2 & E2 & Hv2).
      * eapply refreshed_later; [exact Hl|apply cache_ttls|apply cache_ttls].
      * left. unfold refreshed_of. rewrite map_map. simpl. rewrite <- Em.
        apply (elem_of_map_filter al_member (fun l => negb (idle l))); [done|by rewrite Ei].
      * unfold refreshed_of in E2. rewrite E2. by intros [= <-].
Qed.
End Properties.

(** A scenario: an account with one acquired slot; and an expired index entry
    of an account without load. *)
Definition freshRedis : memRedis := mkMem ∅ ∅ 1000.
Definition oneSlot : memRedis :=
  (run_op (NewConcurrencyCache 15 0) (OpAcquire Account 7 2 "r1") (freshRedis, [])).2.1.
Definition staleEntry : memRedis := mkMem {["concurrency:account:active_index" := {["7" := 5]}]} ∅ 1000.

Lemma active_indexes_complete_witness :
  m_zset oneSlot "concurrency:account:7" = {["r1" := 1000]} /\ is_Some (m_zset oneSlot (idx Account) !! "7").
Proof.
  split; [vm_compute; reflexivity|].
  refine (active_indexes_complete (S := memRedis) 15 0 freshRedis oneSlot _ _ Account 7 _ _).
  - intros k. split; reflexivity.
  - apply rtc_once, (step_op _ _ _ (OpAcquire Account 7 2 "r1")). vm_compute. reflexivity.
  - split; [reflexivity|discriminate].
  - left. vm_compute. discriminate.
Defined.

Lemma index_reconciled_witness :
  exists s', reconcileExpiredIndexCandidates (NewConcurrencyCache 15 0) (spec_of Account) (staleEntry, [])
             = (Ok tt, (s', [])) /\ m_zset s' (idx Account) !! Itoa 7 = None.
Proof.
  destruct (index_reconciled (S := memRedis) 15 0 Account staleEntry) as (s' & E & H).
  - vm_compute. reflexivity.
  - exists s'. split; [exact E|]. destruct (H 7 5) as [Hgone _].
    + split; [reflexivity|discriminate].
    + vm_compute. reflexivity.
    + discriminate.
    + apply Hgone. intros [Hb|Hb]; [apply Hb; vm_compute; reflexivity|vm_compute in Hb; discriminate].
Defined.
