(* ===== verification/ConcurrencyService.v ===== *)
(** * The concurrency service ([backend/internal/service/concurrency_service.go])

    What the gateway does with the concurrency cache: request ids, slots with
    their release functions, wait counters that fail open, the short-lived cache
    of account loads and the refresh loop of a WebSocket ingress lease.  The
    service is written against the interface [Cache]; [SlotSpec] is what it may
    rely on and the Redis cache of [ConcurrencyCache] keeps it.  Timeouts and
    contexts are not modelled: a call answers or fails.  [singleflight] runs its
    function, since calls are made one at a time. *)

From S2P Require Import Prelude Errors Sha256 RedisSlots ConcurrencyCache.

(** ** The interface *)

Class Cache (W : Type) := {
  cacheAcquireAccountSlot : Z -> Z -> string -> ST W (result goerror bool);
  cacheReleaseAccountSlot : Z -> string -> ST W (result goerror unit);
  cacheAcquireUserSlot : Z -> Z -> string -> ST W (result goerror bool);
  cacheReleaseUserSlot : Z -> string -> ST W (result goerror unit);
  cacheTrackAPIKeySlot : Z -> string -> ST W (result goerror unit);
  cacheReleaseAPIKeySlot : Z -> string -> ST W (result goerror unit);
  cacheGetAPIKeyConcurrencyBatch : list Z -> ST W (result goerror (gmap Z Z));
  cacheGetAccountConcurrencyBatch : list Z -> ST W (result goerror (gmap Z Z));
  cacheIncrementWaitCount : Z -> Z -> ST W (result goerror bool);
  cacheDecrementWaitCount : Z -> ST W (result goerror unit);
  cacheIncrementAccountWaitCount : Z -> Z -> ST W (result goerror bool);
  cacheDecrementAccountWaitCount : Z -> ST W (result goerror unit);
  cacheGetAccountWaitingCount : Z -> ST W (result goerror Z);
  cacheGetAccountsLoadBatch : list (Z * Z) -> ST W (result goerror (gmap Z LoadInfo));
  cacheAcquireIngress : Z -> Z -> string -> ST W (result goerror bool);
  cacheRefreshIngress : Z -> string -> ST W (result goerror bool);
  cacheReleaseIngress : Z -> string -> ST W (result goerror unit) }.

(** Who holds a slot of an account or a user.  An acquisition adds nobody but
    the request, and has added it when it says so; a release adds nobody, and
    has removed the request when it reports no error. *)
Class SlotSpec (W : Type) `{!Cache W} := {
  holders : W -> kind -> Z -> gset string;
  acquire_of (κ : kind) : Z -> Z -> string -> ST W (result goerror bool) :=
    match κ with Account => cacheAcquireAccountSlot | User => cacheAcquireUserSlot end;
  release_of (κ : kind) : Z -> string -> ST W (result goerror unit) :=
    match κ with Account => cacheReleaseAccountSlot | User => cacheReleaseUserSlot end;
  acquire_law κ id m r w :
    let '(res, w') := acquire_of κ id m r w in
    holders w' κ id ⊆ holders w κ id ∪ {[r]} /\
    (res = Ok true -> r ∈ holders w' κ id) /\ (res = Ok false -> holders w' κ id ⊆ holders w κ id);
  release_law κ id r w :
    let '(res, w') := release_of κ id r w in
    holders w' κ id ⊆ holders w κ id /\ (res = Ok tt -> r ∉ holders w' κ id) }.

(** ** Request ids *)

(** [strconv.FormatUint(n, 36)]: at most 13 digits for 64 bits. *)
Definition digit36 (d : Z) : ascii := byte (if d <? 10 then 48 + d else 87 + d).
Fixpoint digits36 (fuel : nat) (n : Z) (acc : string) : string :=
  match fuel with
  | O => acc
  | S fuel' =>
      let acc := String (digit36 (n mod 36)) acc in
      if n / 36 =? 0 then acc else digits36 fuel' (n / 36) acc
  end.
Definition FormatUint36 (n : Z) : string := digits36 13 n "".

Definition initRequestIDPrefix (random : Z) : string := "r" +:+ FormatUint36 random.

Section Service.
Context {W : Type} `{!Cache W}.

(** [requestIDPrefix] is fixed when the process starts, [requestIDCounter]
    counts modulo [2 ^ 64]. *)
Record process := mkProcess { requestIDPrefix : string; requestIDCounter : Z; world : W }.

Definition lift {A} (m : ST W A) : ST process A :=
  fun p => let '(a, w) := m (world p) in (a, mkProcess (requestIDPrefix p) (requestIDCounter p) w).

Definition generateRequestID : ST process string := fun p =>
  let seq := (requestIDCounter p + 1) mod 2 ^ 64 in
  (requestIDPrefix p +:+ "-" +:+ FormatUint36 seq, mkProcess (requestIDPrefix p) seq (world p)).

(** ** Slots *)

Record AcquireResult := mkAcquire { Acquired : bool; ReleaseFunc : option (ST W unit) }.

Definition ignoring {A E} (m : ST W (result E A)) : ST W unit := _ ← m; mret tt.

Definition AcquireAccountSlot (accountID maxConcurrency : Z) : ST process (result goerror AcquireResult) :=
  if maxConcurrency <=? 0 then mret (Ok (mkAcquire true (Some (mret tt))))
  else
    requestID ← generateRequestID;
    acquired ←? lift (cacheAcquireAccountSlot accountID maxConcurrency requestID);
    if acquired
    then mret (Ok (mkAcquire true (Some (ignoring (cacheReleaseAccountSlot accountID requestID)))))
    else mret (Ok (mkAcquire false None)).

Definition AcquireUserSlot (userID maxConcurrency : Z) : ST process (result goerror AcquireResult) :=
  if maxConcurrency <=? 0 then mret (Ok (mkAcquire true (Some (mret tt))))
  else
    requestID ← generateRequestID;
    acquired ←? lift (cacheAcquireUserSlot userID maxConcurrency requestID);
    if acquired
    then mret (Ok (mkAcquire true (Some (ignoring (cacheReleaseUserSlot userID requestID)))))
    else mret (Ok (mkAcquire false None)).

(** Statistics only: an error is logged and nothing is to be released. *)
Definition TrackAPIKeySlot (apiKeyID : Z) : ST process (ST W unit) :=
  if apiKeyID <=? 0 then mret (mret tt)
  else
    requestID ← generateRequestID;
    r ← lift (cacheTrackAPIKeySlot apiKeyID requestID);
    mret (match r with
          | Err _ => mret tt
          | Ok _ => ignoring (cacheReleaseAPIKeySlot apiKeyID requestID)
          end).

Definition zeroAPIKeyConcurrencyMap (apiKeyIDs : list Z) : gmap Z Z :=
  foldl (fun m id => <[id := 0]> m) ∅ apiKeyIDs.
Definition GetAPIKeyConcurrencyBatch (apiKeyIDs : list Z) : ST W (result goerror (gmap Z Z)) :=
  let result := zeroAPIKeyConcurrencyMap apiKeyIDs in
  match apiKeyIDs with
  | [] => mret (Ok result)
  | _ =>
      r ← cacheGetAPIKeyConcurrencyBatch apiKeyIDs;
      mret (Ok (match r with
                | Err _ => result
                | Ok counts => foldl (fun m id => <[id := default 0 (counts !! id)]> m) result apiKeyIDs
                end))
  end.
Definition GetAccountConcurrencyBatch (accountIDs : list Z) : ST W (result goerror (gmap Z Z)) :=
  match accountIDs with [] => mret (Ok ∅) | _ => cacheGetAccountConcurrencyBatch accountIDs end.

(** ** Wait counters: errors let the request proceed *)

Definition failOpen (m : ST W (result goerror bool)) : ST W bool :=
  r ← m; mret (match r with Ok b => b | Err _ => true end).
Definition IncrementWaitCount (userID maxWait : Z) : ST W bool := failOpen (cacheIncrementWaitCount userID maxWait).
Definition IncrementAccountWaitCount (accountID maxWait : Z) : ST W bool :=
  failOpen (cacheIncrementAccountWaitCount accountID maxWait).
Definition DecrementWaitCount (userID : Z) : ST W unit := ignoring (cacheDecrementWaitCount userID).
Definition DecrementAccountWaitCount (accountID : Z) : ST W unit := ignoring (cacheDecrementAccountWaitCount accountID).

Definition defaultExtraWaitSlots : Z := 20.
Definition CalculateMaxWait (userConcurrency : Z) : Z :=
  (if userConcurrency <=? 0 then 1 else userConcurrency) + defaultExtraWaitSlots.

(** ** The cache of account loads *)

Definition maxAccountLoadBatchCacheEntries : Z := 256.
Definition defaultAccountLoadBatchCacheTTL : duration := 200 * Millisecond.

Record cachedAccountLoadBatch := mkCached { loadMap : gmap Z LoadInfo; expiresAt : time }.
Record loadCache := mkLoadCache {
  accountLoadCacheTTL : duration;
  accountLoadCache : gmap string cachedAccountLoadBatch }.

Definition NewConcurrencyService : loadCache := mkLoadCache defaultAccountLoadBatchCacheTTL ∅.
Definition SetAccountLoadBatchCacheTTL (ttl : duration) (c : loadCache) : loadCache :=
  mkLoadCache ttl (if ttl <=? 0 then ∅ else accountLoadCache c).

(** The 16 bytes of one account: [PutUint64] of the ID and of the limit. *)
Definition le_bytes (n : Z) : list Z := rev (be_bytes 8 (n mod 2 ^ 64)).
Definition accountLoadBatchCacheKey (accounts : list (Z * Z)) : string :=
  Itoa (Z.of_nat (length accounts)) +:+ ":" +:+
  hex_EncodeToString (Sum256 (concat (map (fun a => le_bytes a.1 ++ le_bytes a.2)%list accounts))).

Definition getCachedAccountLoadBatch (key : string) (now : time) : ST loadCache (option (gmap Z LoadInfo)) :=
  fun c =>
  match accountLoadCache c !! key with
  | None => (None, c)
  | Some e =>
      if negb (Before now (expiresAt e))
      then (None, mkLoadCache (accountLoadCacheTTL c) (delete key (accountLoadCache c)))
      else (Some (loadMap e), c)
  end.

Section Eviction.
(** The order in which Go visits a map is not specified: [visit] is any. *)
Variable visit : gmap string cachedAccountLoadBatch -> list (string * cachedAccountLoadBatch).

Definition dropExpired (now : time) (m : gmap string cachedAccountLoadBatch) : gmap string cachedAccountLoadBatch :=
  foldl (fun m p => if negb (Before now (expiresAt p.2)) then delete p.1 m else m) m (visit m).
(** Delete whichever entry comes first until there is room. *)
Fixpoint dropAny (fuel : nat) (m : gmap string cachedAccountLoadBatch) : gmap string cachedAccountLoadBatch :=
  match fuel with
  | O => m
  | S fuel' =>
      if Z.of_nat (size m) <? maxAccountLoadBatchCacheEntries then m
      else match visit m with [] => m | p :: _ => dropAny fuel' (delete p.1 m) end
  end.
Definition storeCachedAccountLoadBatch (key : string) (loads : gmap Z LoadInfo) (expires now : time)
  (c : loadCache) : loadCache :=
  let m := accountLoadCache c in
  let m := if maxAccountLoadBatchCacheEntries <=? Z.of_nat (size m)
           then let m := dropExpired now m in dropAny (size m) m else m in
  mkLoadCache (accountLoadCacheTTL c) (<[key := mkCached loads expires]> m).

(** [now1], [now2] and [now3] are the readings of the clock at the first look,
    in the flight and in the eviction. *)
Definition getAccountsLoadBatch (accounts : list (Z * Z)) (allowCache : bool) (now1 now2 now3 : time)
  : ST (loadCache * W) (result goerror (gmap Z LoadInfo)) := fun '(c, w) =>
  match accounts with
  | [] => (Ok ∅, (c, w))
  | _ =>
      let ttl := accountLoadCacheTTL c in
      if negb allowCache || (ttl <=? 0) then
        let '(r, w') := cacheGetAccountsLoadBatch accounts w in (r, (c, w'))
      else
        let key := accountLoadBatchCacheKey accounts in
        let '(hit, c) := getCachedAccountLoadBatch key now1 c in
        match hit with
        | Some m => (Ok m, (c, w))
        | None =>
            let '(hit, c) := getCachedAccountLoadBatch key now2 c in
            match hit with
            | Some m => (Ok m, (c, w))
            | None =>
                let '(r, w') := cacheGetAccountsLoadBatch accounts w in
                match r with
                | Err e => (Err e, (c, w'))
                | Ok loads =>
                    (Ok loads, (storeCachedAccountLoadBatch key loads (AddT now2 ttl) now3 c, w'))
                end
            end
        end
  end.
Definition GetAccountsLoadBatch (accounts : list (Z * Z)) := getAccountsLoadBatch accounts true.
Definition GetAccountsLoadBatchFresh (accounts : list (Z * Z)) := getAccountsLoadBatch accounts false.
End Eviction.

(** ** The ingress lease *)

Definition openAIWSIngressLeaseTTL : duration := 60 * Second.
Definition openAIWSIngressLeaseRefreshInterval : duration := 20 * Second.
Definition ErrOpenAIWSIngressLeaseLost : goerror := PlainErr 1 "openai websocket ingress lease lost".

(** One refresh at [now] with the answer of the cache: when the lease was last
    confirmed, and whether it is lost. *)
Definition refresh (now : time) (answer : result goerror bool) (lastConfirmedAt : time) : time * bool :=
  match answer with
  | Ok true => (now, false)
  | _ =>
      let err := match answer with Err e => e | Ok _ => ErrOpenAIWSIngressLeaseLost end in
      let elapsed := SubT now lastConfirmedAt in
      if errors_Is err ErrOpenAIWSIngressLeaseLost || (openAIWSIngressLeaseTTL <=? elapsed)
      then (lastConfirmedAt, true) else (lastConfirmedAt, false)
  end.

(** The loop over the ticks at which it runs; [true] when it cancelled the
    session. *)
Fixpoint refreshLoop (apiKeyID : Z) (leaseID : string) (ticks : list time) (lastConfirmedAt : time) : ST W (time * bool) :=
  match ticks with
  | [] => mret (lastConfirmedAt, false)
  | now :: ticks' =>
      answer ← cacheRefreshIngress apiKeyID leaseID;
      let '(lastConfirmedAt, lost) := refresh now answer lastConfirmedAt in
      if lost then mret (lastConfirmedAt, true) else refreshLoop apiKeyID leaseID ticks' lastConfirmedAt
  end.

(** [AcquireOpenAIWSIngressLease]: [Some id] is a lease with its refresh loop,
    [None] with [true] that the limit is disabled. *)
Definition ingressUnavailable : goerror := PlainErr 2 "openai websocket ingress lease cache is unavailable".
Definition AcquireOpenAIWSIngressLease (apiKeyID maxConnections : Z)
  : ST process (result goerror (option string * bool)) :=
  if maxConnections <=? 0 then mret (Ok (None, true))
  else if apiKeyID <=? 0 then mret (Err ingressUnavailable)
  else
    leaseID ← generateRequestID;
    acquired ←? lift (cacheAcquireIngress apiKeyID maxConnections leaseID);
    mret (Ok (if acquired then (Some leaseID, true) else (None, false))).
(** [Release]: the part that runs once. *)
Definition ReleaseIngressLease (apiKeyID : Z) (leaseID : string) : ST W unit :=
  if (apiKeyID <=? 0) || String.eqb leaseID "" then mret tt
  else ignoring (cacheReleaseIngress apiKeyID leaseID).
End Service.
Arguments process W : clear implicits.
Arguments AcquireResult W : clear implicits.

(** ** The Redis cache keeps the interface *)

Section Implementation.
Context {S : Type} `{!Redis S} `{!RedisSpec S}.
Variables slotTTLMinutes waitTTL : Z.
Abbreviation cfg := (NewConcurrencyCache slotTTLMinutes waitTTL).

#[export] Instance redisCache : Cache (S * list fault) := {|
  cacheAcquireAccountSlot := ConcurrencyCache.AcquireAccountSlot cfg;
  cacheReleaseAccountSlot := ConcurrencyCache.ReleaseAccountSlot cfg;
  cacheAcquireUserSlot := ConcurrencyCache.AcquireUserSlot cfg;
  cacheReleaseUserSlot := ConcurrencyCache.ReleaseUserSlot cfg;
  cacheTrackAPIKeySlot := ConcurrencyCache.TrackAPIKeySlot cfg;
  cacheReleaseAPIKeySlot := ConcurrencyCache.ReleaseAPIKeySlot;
  cacheGetAPIKeyConcurrencyBatch := ConcurrencyCache.GetAPIKeyConcurrencyBatch cfg;
  cacheGetAccountConcurrencyBatch := ConcurrencyCache.GetAccountConcurrencyBatch cfg;
  cacheIncrementWaitCount := ConcurrencyCache.IncrementWaitCount cfg;
  cacheDecrementWaitCount := ConcurrencyCache.DecrementWaitCount cfg;
  cacheIncrementAccountWaitCount := ConcurrencyCache.IncrementAccountWaitCount cfg;
  cacheDecrementAccountWaitCount := ConcurrencyCache.DecrementAccountWaitCount cfg;
  cacheGetAccountWaitingCount := ConcurrencyCache.GetAccountWaitingCount;
  cacheGetAccountsLoadBatch := ConcurrencyCache.GetAccountsLoadBatch cfg;
  cacheAcquireIngress := ConcurrencyCache.AcquireOpenAIWSIngressLease;
  cacheRefreshIngress := ConcurrencyCache.RefreshOpenAIWSIngressLease;
  cacheReleaseIngress := ConcurrencyCache.ReleaseOpenAIWSIngressLease |}.

(** No account or user gains a holder. *)
Definition quiet (w w' : S * list fault) : Prop :=
  forall κ id, dom (zset w'.1 (slot κ id)) ⊆ dom (zset w.1 (slot κ id)).
Lemma quiet_refl w : quiet w w.
Proof. by intros κ id. Qed.
Lemma quiet_trans w1 w2 w3 : quiet w1 w2 -> quiet w2 w3 -> quiet w1 w3.
Proof. intros H1 H2 κ id. etrans; [apply H2|apply H1]. Qed.
Lemma quiet_remote {A} (m : ST S A) w :
  (forall s κ id, dom (zset (m s).2 (slot κ id)) ⊆ dom (zset s (slot κ id))) -> quiet w (remote m w).2.
Proof.
  intros H κ id. destruct w as [s fs]. destruct (remote_cases m s fs) as (fs' & [->|(e & [->| ->])]); simpl; auto.
Qed.
Lemma quiet_zadd κ v m w : quiet w (remote (ZADD (idx κ) v m) w).2.
Proof. apply quiet_remote. intros s κ' id. by rewrite zadd_spec, decide_False by apply idx_slot. Qed.
Lemma quiet_touch κ id e w : quiet w (touchActiveIndexAt (idx κ) id e w).2.
Proof.
  unfold touchActiveIndexAt. destruct (_ || _); [apply quiet_refl|]. rewrite bind_run. apply quiet_zadd.
Qed.
Lemma quiet_shrinks {A} (m : ST S A) w : (forall s, shrinks s (m s).2) -> quiet w (remote m w).2.
Proof. intros H. apply quiet_remote. intros s κ id. apply H. Qed.
Lemma quiet_refresh κ id w : quiet w (refreshActiveIndex cfg (spec_of κ) id w).2.
Proof.
  unfold refreshActiveIndex. destruct (id <=? 0); [apply quiet_refl|]. rewrite bind_run.
  unfold redisUnixSeconds. rewrite wrapErr_state.
  assert (H1 : quiet w (remote TIME w).2) by (apply quiet_shrinks; intros s; rewrite time_spec; apply shrinks_refl).
  set (w1 := (remote TIME w).2) in *. clearbody w1. eapply quiet_trans; [exact H1|]. clear H1.
  destruct (wrapErr _ _ w).1 as [now|e]; [|apply quiet_refl]. rewrite bind_run.
  unfold readActiveLoadForKey. rewrite wrapErr_state.
  assert (H2 : quiet w1 (remote (loadCommands cfg (spec_of κ) (Itoa id) id now) w1).2).
  { apply quiet_shrinks. intros s. unfold loadCommands. run_redis. apply zremrange_shrinks. }
  set (w2 := (remote (loadCommands _ _ _ _ _) w1).2) in *. clearbody w2. eapply quiet_trans; [exact H2|]. clear H2.
  destruct (wrapErr _ _ w1).1 as [l|e]; [|apply quiet_refl].
  destruct (_ && _).
  - rewrite bind_run. apply quiet_shrinks. intros s. apply zrem_shrinks.
  - destruct (_ <=? 0); [apply quiet_refl|]. apply quiet_touch.
Qed.

(** What the script does to the holders. *)
Lemma script_holders κ id live m r s : (forall κ id, live <> slot κ id) ->
  let '(granted, _, s') := acquireScript (slot κ id) live m (slotTTLSeconds cfg) r s in
  dom (zset s' (slot κ id)) ⊆ dom (zset s (slot κ id)) ∪ {[r]} /\
  (granted = true -> r ∈ dom (zset s' (slot κ id))) /\
  (granted = false -> dom (zset s' (slot κ id)) ⊆ dom (zset s (slot κ id))).
Proof.
  intros Hlive. destruct (cache_ttls slotTTLMinutes waitTTL) as [T1 _].
  assert (Hne : slot κ id <> live) by (intros E; by apply (Hlive κ id)).
  pose proof (acquireScript_spec (slot κ id) live Hne m _ r s T1) as H. cbv zeta in H.
  destruct (acquireScript _ _ _ _ _ s) as [[granted now] s']. destruct H as (_ & _ & Hz & _). rewrite Hz.
  set (z := filter _ (zset s (slot κ id))).
  assert (Hz' : dom z ⊆ dom (zset s (slot κ id))) by apply dom_filter_subseteq.
  destruct granted; (split; [|split; try done]).
  - rewrite dom_insert. apply union_subseteq. split; [apply union_subseteq_r|by apply union_subseteq_l'].
  - intros _. rewrite dom_insert. apply elem_of_union_l, elem_of_singleton_2. done.
  - by apply union_subseteq_l'.
Qed.

Lemma acquireSlot_holders κ live id m r w : (forall κ' id', live id <> slot κ' id') ->
  let '(res, w') := acquireSlot cfg (spec_of κ) live id m r w in
  dom (zset w'.1 (slot κ id)) ⊆ dom (zset w.1 (slot κ id)) ∪ {[r]} /\
  (res = Ok true -> r ∈ dom (zset w'.1 (slot κ id))) /\
  (res = Ok false -> dom (zset w'.1 (slot κ id)) ⊆ dom (zset w.1 (slot κ id))).
Proof.
  intros Hl. destruct w as [s fs]. unfold acquireSlot. fold (slot κ) (idx κ).
  pose proof (script_holders κ id (live id) m r s Hl) as H.
  set (script := acquireScript _ _ _ _ _) in *.
  unfold bind_ok. rewrite bind_run.
  destruct (remote_cases script s fs) as (fs' & [->|(e & [->| ->])]);
    destruct (script s) as [[granted now] s']; cbn [fst snd] in *; destruct H as (H1 & H2 & H3);
    [|split; [set_solver|by split; intros [=]]|split; [done|by split; intros [=]]].
  destruct granted; [|by split; [set_solver|split; [intros [=]|auto]]]. rewrite bind_run. cbn [fst snd].
  assert (Hq : zset (touchActiveIndexAt (idx κ) id (now + slotTTLSeconds cfg) (s', fs')).2.1 (slot κ id) =
               zset s' (slot κ id)).
  { unfold touchActiveIndexAt. destruct (_ || _); [done|]. rewrite bind_run.
    destruct (remote_cases (ZADD (idx κ) (now + slotTTLSeconds cfg) (Itoa id)) s' fs') as (fs2 & [->|(e & [->| ->])]);
      simpl; try done; by rewrite zadd_spec, decide_False by apply idx_slot. }
  rewrite ret_run, Hq. split; [done|]. split; [auto|intros [=]].
Qed.
Lemma releaseSlot_holders κ id r w :
  let '(res, w') := releaseSlot cfg (spec_of κ) id r w in
  dom (zset w'.1 (slot κ id)) ⊆ dom (zset w.1 (slot κ id)) /\ (res = Ok tt -> r ∉ dom (zset w'.1 (slot κ id))).
Proof.
  destruct w as [s fs]. unfold releaseSlot. fold (slot κ). unfold bind_ok. rewrite bind_run.
  destruct (remote_cases (ZREM (slot κ id) r) s fs) as (fs' & [->|(e & [->| ->])]); simpl.
  - rewrite bind_run. simpl. pose proof (quiet_refresh κ id ((ZREM (slot κ id) r s).2, fs') κ id) as Hq. simpl in Hq.
    rewrite zrem_spec, decide_True, dom_delete in Hq by done.
    split; [etrans; [exact Hq|by apply subseteq_difference_l]|]. intros _ Hin.
    apply Hq, elem_of_difference in Hin as [_ Hn]. by apply Hn, elem_of_singleton_2.
  - done.
  - split; [|done]. apply zrem_shrinks.
Qed.

#[export] Instance redisSlotSpec : SlotSpec (S * list fault).
Proof.
  refine {| holders := fun w κ id => dom (zset w.1 (slot κ id)) |}.
  - intros [] id m r w.
    + apply (acquireSlot_holders Account liveAccountSlotKey id m r w). intros κ' id'. apply foreign_not_slot. auto with gateway.
    + apply (acquireSlot_holders User liveUserSlotKey id m r w). intros κ' id'. apply foreign_not_slot. auto with gateway.
  - intros [] id r w.
    + apply (releaseSlot_holders Account id r w).
    + apply (releaseSlot_holders User id r w).
Defined.
End Implementation.

(** ** Lemmas: request ids *)

Definition digit_val (a : ascii) : Z := if byte_of a <? 58 then byte_of a - 48 else byte_of a - 87.
Fixpoint val_from (v : Z) (s : string) : Z :=
  match s with EmptyString => v | String a s' => val_from (v * 36 + digit_val a) s' end.

Lemma digit36_val d : 0 <= d < 36 -> digit_val (digit36 d) = d.
Proof.
  intros H. assert (E : d ∈ map Z.of_nat (seq 0 36)).
  { apply list_elem_of_fmap. exists (Z.to_nat d). split; [lia|]. apply elem_of_seq. lia. }
  clear H. apply list_elem_of_In in E. revert d E. apply List.Forall_forall. vm_compute. repeat constructor.
Qed.
Lemma digits36_val fuel n acc : 0 <= n < 36 ^ Z.of_nat fuel -> val_from 0 (digits36 fuel n acc) = val_from n acc.
Proof.
  revert n acc. induction fuel as [|fuel IH]; intros n acc Hn; [simpl in *; f_equal; lia|].
  cbn [digits36]. pose proof (Z.div_mod n 36 ltac:(lia)) as Hd. pose proof (Z.mod_pos_bound n 36 ltac:(lia)) as Hm.
  destruct (n / 36 =? 0) eqn:E; bool_to_prop.
  - simpl. rewrite digit36_val by lia. f_equal. lia.
  - rewrite Nat2Z.inj_succ, Z.pow_succ_r in Hn by lia. rewrite IH by (split; [apply Z.div_pos|apply Z.div_lt_upper_bound]; lia).
    simpl. rewrite digit36_val by lia. f_equal. lia.
Qed.
Lemma FormatUint36_inj a b : 0 <= a < 2 ^ 64 -> 0 <= b < 2 ^ 64 -> FormatUint36 a = FormatUint36 b -> a = b.
Proof.
  intros Ha Hb H. assert (E : forall n, 0 <= n < 2 ^ 64 -> val_from 0 (FormatUint36 n) = n).
  { intros n Hn. apply (digits36_val 13 n ""). lia. }
  rewrite <- (E a Ha), <- (E b Hb). by rewrite H.
Qed.

(** Two processes states of one process give different ids unless their
    counters agree modulo [2 ^ 64]. *)
Lemma request_ids_distinct {W} (p q : process W) : requestIDPrefix p = requestIDPrefix q ->
  (generateRequestID p).1 = (generateRequestID q).1 ->
  requestIDCounter (generateRequestID p).2 = requestIDCounter (generateRequestID q).2.
Proof.
  intros Hp H. simpl in *. rewrite Hp in H. apply str_app_inj, str_app_inj in H.
  apply FormatUint36_inj in H; [done| |]; apply Z.mod_pos_bound; lia.
Qed.

(** ** Lemmas: the load cache *)

Record load_call := mkLoadCall { lc_accounts : list (Z * Z); lc_allow : bool; lc_now1 : time; lc_now2 : time; lc_now3 : time }.

Section LoadFacts.
Context {W : Type} `{!Cache W}.
Variable visit : gmap string cachedAccountLoadBatch -> list (string * cachedAccountLoadBatch).
Hypothesis visit_all : forall m, visit m ≡ₚ map_to_list m.

Definition load_step (k : load_call) : ST (loadCache * W) (result goerror (gmap Z LoadInfo)) :=
  getAccountsLoadBatch visit (lc_accounts k) (lc_allow k) (lc_now1 k) (lc_now2 k) (lc_now3 k).
(** A sequence of calls, with the world each of them saw. *)
Fixpoint run_loads (calls : list load_call) (s : loadCache * W) : list (load_call * W) * (loadCache * W) :=
  match calls with
  | [] => ([], s)
  | k :: calls' => let '(trace, s') := run_loads calls' (load_step k s).2 in ((k, s.2) :: trace, s')
  end.

(** The call at [p] fetched [m] for the batch with the given key. *)
Definition fetched (p : load_call * W) (key : string) (m : gmap Z LoadInfo) : Prop :=
  accountLoadBatchCacheKey (lc_accounts p.1) = key /\ (cacheGetAccountsLoadBatch (lc_accounts p.1) p.2).1 = Ok m.

Record cache_ok (ttl : duration) (trace : list (load_call * W)) (c : loadCache) : Prop := {
  ok_ttl : accountLoadCacheTTL c = ttl;
  ok_size : Z.of_nat (size (accountLoadCache c)) <= maxAccountLoadBatchCacheEntries;
  ok_entry key e : accountLoadCache c !! key = Some e ->
    exists p, p ∈ trace /\ fetched p key (loadMap e) /\ expiresAt e = AddT (lc_now2 p.1) ttl }.

Lemma dropExpired_sub now m : dropExpired visit now m ⊆ m.
Proof.
  unfold dropExpired. generalize (visit m). intros l.
  assert (H : forall m', m' ⊆ m ->
    foldl (fun m p => if negb (Before now (expiresAt p.2)) then delete p.1 m else m) m' l ⊆ m).
  { induction l as [|p l IH]; intros m' Hm; simpl; [done|]. apply IH.
    destruct (negb _); [|done]. etrans; [apply delete_subseteq|done]. }
  by apply H.
Qed.
Lemma dropAny_spec fuel m : (size m <= fuel)%nat ->
  dropAny visit fuel m ⊆ m /\ Z.of_nat (size (dropAny visit fuel m)) < maxAccountLoadBatchCacheEntries.
Proof.
  revert m. induction fuel as [|fuel IH]; intros m Hf; cbn [dropAny].
  - split; [done|]. unfold maxAccountLoadBatchCacheEntries. lia.
  - destruct (Z.of_nat (size m) <? _) eqn:E; bool_to_prop; [split; [done|lia]|].
    pose proof (visit_all m) as Hv. destruct (visit m) as [|[k e] l].
    + symmetry in Hv. apply Permutation_nil_r, map_to_list_empty_iff in Hv as ->.
      rewrite map_size_empty in E. unfold maxAccountLoadBatchCacheEntries in E. lia.
    + assert (Hk : m !! k = Some e) by (apply elem_of_map_to_list; rewrite <- Hv; left).
      assert (Hs : size (delete k m) = pred (size m)) by (apply map_size_delete_Some; eauto).
      unfold maxAccountLoadBatchCacheEntries in E.
      destruct (IH (delete k m)) as [H1 H2]; [simpl; lia|]. split; [|done]. etrans; [exact H1|apply delete_subseteq].
Qed.

Lemma store_ok ttl trace c k w m now : cache_ok ttl trace c ->
  fetched (k, w) (accountLoadBatchCacheKey (lc_accounts k)) m -> (k, w) ∈ trace ->
  cache_ok ttl trace (storeCachedAccountLoadBatch visit (accountLoadBatchCacheKey (lc_accounts k)) m
                        (AddT (lc_now2 k) ttl) now c).
Proof.
  intros [Ht Hs He] Hf Hin. unfold storeCachedAccountLoadBatch. set (m1 := if _ <=? _ then _ else _).
  assert (Hm : m1 ⊆ accountLoadCache c /\ Z.of_nat (size m1) < maxAccountLoadBatchCacheEntries).
  { unfold m1. destruct (_ <=? _) eqn:E; bool_to_prop; [|split; [done|lia]].
    destruct (dropAny_spec _ (dropExpired visit now (accountLoadCache c)) (le_n _)) as [H1 H2].
    split; [|done]. etrans; [exact H1|apply dropExpired_sub]. }
  destruct Hm as [Hsub Hsz]. split; simpl.
  - done.
  - rewrite map_size_insert. destruct (m1 !! _); simpl; lia.
  - intros key e. destruct (decide (key = accountLoadBatchCacheKey (lc_accounts k))) as [->|Hne].
    + rewrite lookup_insert_eq. intros [= <-]. exists (k, w). auto.
    + rewrite lookup_insert_ne by done. intros H. apply (He key e). by eapply lookup_weaken.
Qed.
Lemma get_ok ttl trace c key now : cache_ok ttl trace c ->
  cache_ok ttl trace (getCachedAccountLoadBatch key now c).2.
Proof.
  intros [Ht Hs He]. unfold getCachedAccountLoadBatch. destruct (accountLoadCache c !! key) eqn:E; [|done].
  destruct (negb _); [|done]. split; simpl; [done| |].
  - rewrite map_size_delete. destruct (_ !! _); simpl; lia.
  - intros key' e' H. apply lookup_delete_Some in H as [_ H]. by apply He.
Qed.
Lemma get_hit c key now m : (getCachedAccountLoadBatch key now c).1 = Some m ->
  exists e, accountLoadCache c !! key = Some e /\ loadMap e = m /\ now < expiresAt e.
Proof.
  unfold getCachedAccountLoadBatch. destruct (accountLoadCache c !! key) as [e|] eqn:E; [|done].
  destruct (negb _) eqn:Hb; [done|]. intros [= <-]. bool_to_prop. eauto.
Qed.
(** After a miss the key is not in the cache. *)
Lemma get_miss c key now now' : (getCachedAccountLoadBatch key now c).1 = None ->
  getCachedAccountLoadBatch key now' (getCachedAccountLoadBatch key now c).2 =
  (None, (getCachedAccountLoadBatch key now c).2).
Proof.
  unfold getCachedAccountLoadBatch. destruct (accountLoadCache c !! key) as [e|] eqn:E; simpl; [|by rewrite E].
  destruct (negb _) eqn:Hb; simpl; [|done]. intros _. by rewrite lookup_delete_eq.
Qed.

(** One call: what it answers and what it leaves in the cache. *)
Lemma load_step_ok ttl trace k c w : 0 < ttl -> cache_ok ttl trace c ->
  let '(r, (c', w')) := load_step k (c, w) in
  cache_ok ttl (trace ++ [(k, w)])%list c' /\
  forall m, r = Ok m -> lc_accounts k <> [] ->
    (cacheGetAccountsLoadBatch (lc_accounts k) w).1 = Ok m \/
    (lc_allow k = true /\ exists p, p ∈ trace /\ fetched p (accountLoadBatchCacheKey (lc_accounts k)) m /\
       lc_now1 k < AddT (lc_now2 p.1) ttl).
Proof.
  intros Hpos Hc. assert (Hw : forall c, cache_ok ttl trace c -> cache_ok ttl (trace ++ [(k, w)])%list c).
  { intros c0 [H1 H2 H3]. split; [done|done|]. intros key e He. destruct (H3 key e He) as (p & Hp & H).
    exists p. split; [|done]. apply elem_of_app. by left. }
  unfold load_step, getAccountsLoadBatch. destruct (lc_accounts k) as [|a accs] eqn:Ea; [split; [by apply Hw|done]|].
  rewrite <- Ea. rewrite (ok_ttl _ _ _ Hc), (proj2 (Z.leb_gt ttl 0)) by done. rewrite orb_false_r.
  destruct (lc_allow k) eqn:Hallow; simpl.
  - set (key := accountLoadBatchCacheKey (lc_accounts k)). pose proof (get_ok ttl trace c key (lc_now1 k) Hc) as Hc1.
    pose proof (get_hit c key (lc_now1 k)) as Hh. pose proof (get_miss c key (lc_now1 k) (lc_now2 k)) as Hm.
    destruct (getCachedAccountLoadBatch key (lc_now1 k) c) as [[m|] c1]; simpl in *.
    + split; [by apply Hw|]. intros m' [= <-] _. right. split; [done|].
      destruct (Hh m eq_refl) as (e & He & <- & Hlt). destruct (ok_entry _ _ _ Hc key e He) as (p & Hp & Hf & Hx).
      exists p. rewrite <- Hx. auto.
    + rewrite Hm by done. destruct (cacheGetAccountsLoadBatch (lc_accounts k) w) as [[loads|e] w'] eqn:E.
      * split; [|intros m [= <-]; auto]. apply (store_ok _ _ _ k w); [by apply Hw| |apply elem_of_app; right; left].
        split; [done|]. simpl. by rewrite E.
      * split; [by apply Hw|done].
  - destruct (cacheGetAccountsLoadBatch (lc_accounts k) w) as [r w']. split; [by apply Hw|]. intros m ->. auto.
Qed.

Lemma run_loads_ok ttl calls trace c w : 0 < ttl -> cache_ok ttl trace c ->
  let '(trace', (c', w')) := run_loads calls (c, w) in cache_ok ttl (trace ++ trace')%list c'.
Proof.
  intros Hpos. revert trace c w. induction calls as [|k calls IH]; intros trace c w Hc; cbn [run_loads].
  - by rewrite app_nil_r.
  - pose proof (load_step_ok ttl trace k c w Hpos Hc) as H. destruct (load_step k (c, w)) as [r [c1 w1]].
    destruct H as [H _]. specialize (IH _ c1 w1 H). cbn [snd]. destruct (run_loads calls (c1, w1)) as [tr [c2 w2]].
    rewrite <- app_assoc in IH. exact IH.
Qed.
End LoadFacts.

(** ** Lemmas: the ingress lease *)

Section Lease.
Context {W : Type} `{!Cache W}.
Variables (apiKeyID : Z) (leaseID : string).

(** The answers the cache gives at the ticks, were the loop to run on. *)
Fixpoint answers (ticks : list time) (w : W) : list (time * result goerror bool) :=
  match ticks with
  | [] => []
  | now :: ticks' => let '(a, w') := cacheRefreshIngress apiKeyID leaseID w in (now, a) :: answers ticks' w'
  end.
(** When the lease was last confirmed after some answers. *)
Definition confirmed (t0 : time) (l : list (time * result goerror bool)) : time :=
  foldl (fun last p => match p.2 with Ok true => p.1 | _ => last end) t0 l.
(** An answer that keeps the lease, last confirmed at [last]. *)
Definition keeps (last : time) (p : time * result goerror bool) : Prop :=
  match p.2 with
  | Ok b => b = true
  | Err e => errors_Is e ErrOpenAIWSIngressLeaseLost = false /\ SubT p.1 last < openAIWSIngressLeaseTTL
  end.

Lemma refresh_keeps now a last : (refresh now a last).2 = false <-> keeps last (now, a).
Proof.
  unfold refresh, keeps. destruct a as [[]|e]; simpl; [done|done|].
  destruct (errors_Is e _); simpl; [split; [done|by intros [? _]]|].
  destruct (_ <=? _) eqn:E; simpl; bool_to_prop; split; try done; intros; lia.
Qed.
Lemma refresh_confirmed now a last : (refresh now a last).1 = confirmed last [(now, a)].
Proof. unfold refresh, confirmed. destruct a as [[]|e]; simpl; try done. by destruct (_ || _). Qed.
End Lease.

(** ** Properties *)

Section SlotProperties.
Context {W : Type} `{!Cache W} `{!SlotSpec W}.

(** [AcquireAccountSlot] or [AcquireUserSlot]. *)
Definition AcquireSlot (κ : kind) : Z -> Z -> ST (process W) (result goerror (AcquireResult W)) :=
  match κ with Account => AcquireAccountSlot | User => AcquireUserSlot end.

(** What an acquisition through the service and its release do to the holders.  An
    acquisition adds no holder but its own request id, also when it fails; a refused
    one adds none; one that is granted under a limit holds the slot afterwards.  The
    release function it hands out can run on any later store: it adds no holder, and
    when the cache reports no error the request holds the slot no more.  (In between
    the slot may lapse, when its lifetime in the cache ends.) *)
Theorem slot_and_release κ id m (p : process W) :
  let r := (generateRequestID p).1 in
  let '(res, p1) := AcquireSlot κ id m p in
  holders (world p1) κ id ⊆ holders (world p) κ id ∪ {[r]} /\
  match res with
  | Err _ => True
  | Ok a =>
      match ReleaseFunc a with
      | None => Acquired a = false /\ holders (world p1) κ id ⊆ holders (world p) κ id
      | Some release =>
          Acquired a = true /\ (0 < m -> r ∈ holders (world p1) κ id) /\
          forall w, holders (release w).2 κ id ⊆ holders w κ id /\
                    (0 < m -> (release_of κ id r w).1 = Ok tt -> r ∉ holders (release w).2 κ id)
      end
  end.
Proof.
  intros r. pose proof (acquire_law κ id m r (world p)) as Ha. pose proof (release_law κ id r) as Hr.
  assert (Hrel : forall w, holders (ignoring (release_of κ id r) w).2 κ id ⊆ holders w κ id /\
    ((release_of κ id r w).1 = Ok tt -> r ∉ holders (ignoring (release_of κ id r) w).2 κ id)).
  { intros w. specialize (Hr w). unfold ignoring. rewrite bind_run. simpl. by destruct (release_of κ id r w). }
  destruct κ; simpl; unfold AcquireAccountSlot, AcquireUserSlot; destruct (m <=? 0) eqn:Em; bool_to_prop;
    try (split; [apply union_subseteq_l|]; split; [done|]; split; [lia|]; intros w; split; [done|lia]);
    rewrite bind_run; fold r; unfold bind_ok, lift; rewrite bind_run; simpl in *.
  - destruct (cacheAcquireAccountSlot id m r (world p)) as [[[]|e] w']; destruct Ha as (H1 & H2 & H3); simpl;
      (split; [done|]); try done; [|by split; [done|apply H3]].
    split; [done|]. split; [by auto|]. intros w. destruct (Hrel w). auto.
  - destruct (cacheAcquireUserSlot id m r (world p)) as [[[]|e] w']; destruct Ha as (H1 & H2 & H3); simpl;
      (split; [done|]); try done; [|by split; [done|apply H3]].
    split; [done|]. split; [by auto|]. intros w. destruct (Hrel w). auto.
Qed.
End SlotProperties.

Section LeaseProperties.
Context {W : Type} `{!Cache W}.

(** When an ingress session is cut off.  The refresh loop cancels the
    session exactly when some tick finds the lease gone, or fails and the lease
    has not been confirmed for a whole lifetime of 60 s; until then it knows
    when the lease was last confirmed. *)
Theorem ingress_lease_lost apiKeyID leaseID (ticks : list time) t0 (w : W) :
  let '(last, lost) := (refreshLoop apiKeyID leaseID ticks t0 w).1 in
  let l := answers apiKeyID leaseID ticks w in
  (lost = false <-> forall pre p post, l = (pre ++ p :: post)%list -> keeps (confirmed t0 pre) p) /\
  (lost = false -> last = confirmed t0 l).
Proof.
  revert t0 w. induction ticks as [|now ticks IH]; intros t0 w; cbn [refreshLoop answers].
  - rewrite ret_run. simpl. split; [|done]. split; [|done]. intros _ pre p post H. by destruct pre.
  - rewrite bind_run. destruct (cacheRefreshIngress apiKeyID leaseID w) as [a w']. cbn [fst snd].
    pose proof (refresh_keeps now a t0) as Hk. pose proof (refresh_confirmed now a t0) as Hc.
    destruct (refresh now a t0) as [last lost]. cbn [fst snd] in *. subst last. destruct lost; cbn [fst snd].
    + rewrite ret_run. simpl. split; [|done]. split; [done|]. intros H.
      apply Hk. apply (H [] (now, a) _ eq_refl).
    + specialize (IH (confirmed t0 [(now, a)]) w').
      destruct (refreshLoop apiKeyID leaseID ticks _ w').1 as [last lost]. destruct IH as [IH1 IH2]. split; [|exact IH2].
      rewrite IH1. split; intros H.
      * intros [|q pre] p post [= <- E]; [by apply Hk|]. apply (H pre p post E).
      * intros pre p post E. apply (H ((now, a) :: pre) p post). by rewrite E.
Qed.
End LeaseProperties.

Section LoadProperties.
Context {W : Type} `{!Cache W}.
Variable visit : gmap string cachedAccountLoadBatch -> list (string * cachedAccountLoadBatch).
Hypothesis visit_all : forall m, visit m ≡ₚ map_to_list m.

(** Account loads are fresh.  After any calls on a new service, whatever
    their clock readings and whatever the order in which maps are visited, at
    most 256 batches are cached, and the answer to a call is what the cache
    server says now or, where the call allows it, what it said to an earlier
    call for a batch with the same key less than 200 ms before. *)
Theorem loads_are_fresh (calls : list load_call) (w0 : W) (k : load_call) :
  let '(trace, (c, w)) := run_loads visit calls (NewConcurrencyService, w0) in
  Z.of_nat (size (accountLoadCache c)) <= 256 /\
  forall m, (load_step visit k (c, w)).1 = Ok m -> lc_accounts k <> [] ->
    (cacheGetAccountsLoadBatch (lc_accounts k) w).1 = Ok m \/
    (lc_allow k = true /\ exists p, p ∈ trace /\ fetched p (accountLoadBatchCacheKey (lc_accounts k)) m /\
       lc_now1 k < lc_now2 p.1 + 200 * Millisecond).
Proof.
  assert (H0 : cache_ok (200 * Millisecond) [] NewConcurrencyService).
  { split; [done| |by intros key e H]. simpl. rewrite map_size_empty. done. }
  pose proof (run_loads_ok visit visit_all (200 * Millisecond) calls [] NewConcurrencyService w0 ltac:(reflexivity) H0) as H.
  destruct (run_loads visit calls _) as [trace [c w]]. simpl in H. split; [apply H|].
  intros m Hm Hne. pose proof (load_step_ok visit visit_all (200 * Millisecond) trace k c w ltac:(reflexivity) H) as Hk.
  destruct (load_step visit k (c, w)) as [r [c' w']]. destruct Hk as [_ Hk]. by apply Hk.
Qed.
End LoadProperties.

(** Scenarios on the in-memory Redis. *)
#[local] Instance demoCache : Cache (memRedis * list fault) := redisCache 15 0.
Definition demoProcess : process (memRedis * list fault) := mkProcess (initRequestIDPrefix 99) 0 (freshRedis, []).

Lemma slot_and_release_witness :
  (generateRequestID demoProcess).1 = "r2r-1" /\
  "r2r-1" ∈ dom (m_zset (world (AcquireAccountSlot 7 2 demoProcess).2).1 "concurrency:account:7").
Proof.
  split; [vm_compute; reflexivity|].
  pose proof (slot_and_release (SlotSpec0 := redisSlotSpec 15 0) Account 7 2 demoProcess) as H. cbv zeta in H.
  assert (E : match (AcquireAccountSlot 7 2 demoProcess).1 with Ok a => Acquired a | Err _ => false end = true)
    by (vm_compute; reflexivity).
  change (AcquireSlot Account 7 2 demoProcess) with (AcquireAccountSlot 7 2 demoProcess) in H.
  destruct (AcquireAccountSlot 7 2 demoProcess) as [[a|e] p1]; cbn [fst snd] in *; [|discriminate E].
  destruct H as (_ & H). destruct (ReleaseFunc a); [|destruct H as [H _]; rewrite H in E; discriminate E].
  exact (proj1 (proj2 H) eq_refl).
Defined.

Lemma ingress_lease_lost_witness :
  (refreshLoop 7 "lease" [20 * Second; 40 * Second] 0 (freshRedis, [FailBefore ErrOpenAIWSIngressLeaseLost])).1.2 = true /\
  (refreshLoop 7 "lease" [20 * Second] 0 (freshRedis, [FailBefore (PlainErr 9 "timeout")])).1 = (0, false).
Proof.
  split; [vm_compute; reflexivity|].
  pose proof (ingress_lease_lost 7 "lease" [20 * Second] 0 (freshRedis, [FailBefore (PlainErr 9 "timeout")])) as H.
  destruct (refreshLoop 7 "lease" [20 * Second] 0 _).1 as [last lost]. destruct H as [H1 H2].
  assert (lost = false) as ->.
  { apply H1. intros [|q pre] p post E; vm_compute in E; [|by destruct pre].
    injection E as <- _. split; vm_compute; reflexivity. }
  rewrite (H2 eq_refl). vm_compute. reflexivity.
Defined.

Lemma loads_are_fresh_witness :
  exists c w, (run_loads map_to_list [mkLoadCall [(7, 2)] true Second Second Second]
                 (NewConcurrencyService, (oneSlot, []))).2 = (c, w) /\ Z.of_nat (size (accountLoadCache c)) <= 256.
Proof.
  pose proof (loads_are_fresh map_to_list (fun m => reflexivity _) [mkLoadCall [(7, 2)] true Second Second Second]
    (oneSlot, []) (mkLoadCall [(7, 2)] true Second Second Second)) as H.
  destruct (run_loads map_to_list _ _) as [trace [c w]]. exists c, w. split; [reflexivity|]. exact (proj1 H).
Defined.
