(* ===== verification/Float64.v ===== *)
(** * [float64]

    IEEE 754 binary64 as the formal arithmetic [SpecFloat] of the Standard
    Library, the operations of Go on it, and [%0.10f] of package fmt. *)

From S2P Require Import Prelude.
From Stdlib Require Export SpecFloat.

Definition float64 : Type := spec_float.
Definition fzero : float64 := S754_zero false.
Definition fadd : float64 -> float64 -> float64 := SFadd 53 1024.
Definition fsub : float64 -> float64 -> float64 := SFsub 53 1024.
Definition fmul : float64 -> float64 -> float64 := SFmul 53 1024.
Definition fdiv : float64 -> float64 -> float64 := SFdiv 53 1024.
Definition fsqrt : float64 -> float64 := SFsqrt 53 1024.
(** [float64(z)]. *)
Definition float_of_Z (z : Z) : float64 := binary_normalize 53 1024 z 0 false.
Definition fone : float64 := float_of_Z 1.
Definition fhalf : float64 := fdiv fone (float_of_Z 2).
Definition IsNaN (f : float64) : bool := match f with S754_nan => true | _ => false end.
Definition IsInf (f : float64) : bool := match f with S754_infinity _ => true | _ => false end.
(** [v == 0]. *)
Definition isZero (f : float64) : bool := match f with S754_zero _ => true | _ => false end.

(** ** [fmt.Sprintf("%0.10f", v)] *)

(** [n/d] rounded to the nearest integer, to the even one in the middle. *)
Definition roundHalfEven (n d : Z) : Z :=
  let q := n / d in
  let r := n mod d in
  if 2 * r <? d then q else if d <? 2 * r then q + 1 else if Z.even q then q else q + 1.
Definition padZeros (width : nat) (s : string) : string :=
  Nat.iter (width - String.length s) (String (byte 48)) s.
Definition formatFixed10 (f : float64) : string :=
  let sign (s : bool) := if s then "-" else "" in
  match f with
  | S754_nan => "NaN"
  | S754_infinity s => if s then "-Inf" else "+Inf"
  | S754_zero s => sign s +:+ "0.0000000000"
  | S754_finite s m e =>
      let n := Zpos m * 10 ^ 10 in
      let q := if 0 <=? e then n * 2 ^ e else roundHalfEven n (2 ^ (- e)) in
      sign s +:+ Itoa (q / 10 ^ 10) +:+ "." +:+ padZeros 10 (Itoa (q mod 10 ^ 10))
  end.

(** The decimals of some binary fractions, a tie and the largest double. *)
Example formatFixed10_vectors :
  map formatFixed10 [fhalf; fdiv fone (float_of_Z 10); fdiv (float_of_Z (-7)) (float_of_Z 3);
                     fdiv fone (float_of_Z (2 ^ 11)); S754_zero true; float_of_Z (10 ^ 15)] =
  ["0.5000000000"; "0.1000000000"; "-2.3333333333"; "0.0004882812"; "-0.0000000000"; "1000000000000000.0000000000"].
Proof. vm_compute. reflexivity. Qed.
