(* ===== verification/Subscription.v ===== *)
(** * Subscriptions: terms, usage windows and limits

    The value side of [service/user_subscription.go], the parts of
    [service/group.go] it reads, and the calendar of [pkg/timezone].  A
    subscription grants a quota per day, per 7 days and per 30 days; these
    functions decide when a quota window has passed and where the next begins.

    The time zone is a parameter: [zoneOffset t] is the offset of local time at
    the instant [t], what [Location.lookup] answers from the zone database.
    Every [time.Time] carries [time.Local], which [timezone.Init] sets to the
    configured zone.  Usage amounts have a type [A]: [float64] in memory,
    [numeric] in the database.  The pointers to the user, the group and the
    assigning user that the ORM may load are not part of the record. *)

From S2P Require Import Prelude Float64.

(** ** The calendar *)

Definition Day : duration := 24 * Hour.
Definition subscriptionDayDuration : duration := 24 * Hour.

Section Calendar.
Context (zoneOffset : time -> duration).

Definition localDay (t : time) : Z := (t + zoneOffset t) / Day.
(** [time.Date] at the clock reading [m] in the zone: the offset in force at
    [m] read as UTC, looked up again at the instant it leads to. *)
Definition dateLocal (m : time) : time :=
  if zoneOffset m =? 0 then m else m - zoneOffset (m - zoneOffset m).
Definition StartOfDay (t : time) : time := dateLocal (localDay t * Day).
(** [t.AddDate(0, 0, n)]. *)
Definition AddDays (t : time) (n : Z) : time := dateLocal (t + zoneOffset t + n * Day).
End Calendar.

(** ** Data *)

Definition SubscriptionStatusActive : string := "active".
Definition SubscriptionStatusExpired : string := "expired".
Definition SubscriptionStatusSuspended : string := "suspended".
Definition SubscriptionTypeSubscription : string := "subscription".

Record UserSubscription (A : Type) := mkSub {
  sub_ID : Z;
  sub_UserID : Z;
  sub_GroupID : Z;
  StartsAt : time;
  ExpiresAt : time;
  sub_Status : string;
  DailyWindowStart : option time;
  WeeklyWindowStart : option time;
  MonthlyWindowStart : option time;
  DailyUsageUSD : A;
  WeeklyUsageUSD : A;
  MonthlyUsageUSD : A;
  AssignedBy : option Z;
  AssignedAt : time;
  Notes : string;
  CreatedAt : time;
  UpdatedAt : time;
  DeletedAt : option time }.
Arguments mkSub {A}. Arguments sub_ID {A}. Arguments sub_UserID {A}. Arguments sub_GroupID {A}.
Arguments StartsAt {A}. Arguments ExpiresAt {A}. Arguments sub_Status {A}.
Arguments DailyWindowStart {A}. Arguments WeeklyWindowStart {A}. Arguments MonthlyWindowStart {A}.
Arguments DailyUsageUSD {A}. Arguments WeeklyUsageUSD {A}. Arguments MonthlyUsageUSD {A}.
Arguments AssignedBy {A}. Arguments AssignedAt {A}. Arguments Notes {A}.
Arguments CreatedAt {A}. Arguments UpdatedAt {A}. Arguments DeletedAt {A}.

Record Group := mkGroup {
  SubscriptionType : string;
  DailyLimitUSD : option float64;
  WeeklyLimitUSD : option float64;
  MonthlyLimitUSD : option float64 }.
Definition IsSubscriptionType (g : Group) : bool := String.eqb (SubscriptionType g) SubscriptionTypeSubscription.
Definition positiveLimit (limit : option float64) : bool :=
  match limit with Some l => SFltb fzero l | None => false end.
Definition HasDailyLimit (g : Group) : bool := positiveLimit (DailyLimitUSD g).
Definition HasWeeklyLimit (g : Group) : bool := positiveLimit (WeeklyLimitUSD g).
Definition HasMonthlyLimit (g : Group) : bool := positiveLimit (MonthlyLimitUSD g).

(** ** Status and windows *)

(** The three windows, as [CheckAndResetWindows] goes through them. *)
Inductive window := Daily | Weekly | Monthly.
#[export] Instance window_eq_dec : EqDecision window.
Proof. solve_decision. Defined.

Section Windows.
Context (zoneOffset : time -> duration) {A : Type}.
Implicit Types (s : UserSubscription A) (now : time).

Definition IsActive s now : bool := String.eqb (sub_Status s) SubscriptionStatusActive && Before now (ExpiresAt s).
Definition IsExpired s now : bool := After now (ExpiresAt s).
Definition daysRemainingAt s now : Z :=
  let remaining := SubT (ExpiresAt s) now in
  if remaining <=? 0 then 0
  else let days := Z.quot remaining subscriptionDayDuration in
       if Z.rem remaining subscriptionDayDuration =? 0 then days else days + 1.
Definition IsWindowActivated s : bool :=
  match DailyWindowStart s, WeeklyWindowStart s, MonthlyWindowStart s with
  | None, None, None => false
  | _, _, _ => true
  end.
Definition HasOneTimeDailyQuota s : bool :=
  if IsZero (StartsAt s) || IsZero (ExpiresAt s) then false
  else negb (After (ExpiresAt s) (AddDays zoneOffset (StartsAt s) 1)).
Definition needsReset (start : option time) (period : duration) now : bool :=
  match start with None => false | Some t => negb (Before now (AddT t period)) end.
Definition NeedsWeeklyResetAt s now : bool := needsReset (WeeklyWindowStart s) (7 * 24 * Hour) now.
Definition NeedsMonthlyResetAt s now : bool := needsReset (MonthlyWindowStart s) (30 * 24 * Hour) now.

Definition automaticDailyWindowStartAt s now : option time :=
  match DailyWindowStart s with
  | None => None
  | Some start =>
      if HasOneTimeDailyQuota s then None
      else let today := StartOfDay zoneOffset now in
           if negb (After today (StartOfDay zoneOffset start)) then None else Some today
  end.
(** The anchor of a window: a first window that was initialised at the midnight
    before the start of the term counts from the start of the term. *)
Definition anchorOf s (previous : time) : time :=
  let legacyAnchor := StartOfDay zoneOffset (StartsAt s) in
  if Before legacyAnchor (StartsAt s) && (previous =? legacyAnchor) then StartsAt s else previous.
Definition automaticWindowStartAt s (previous : option time) (period : duration) now : option time :=
  match previous with
  | None => None
  | Some previous =>
      let anchor := anchorOf s previous in
      let next := AddT anchor period in
      if Before now next || negb (Before next (ExpiresAt s)) then None
      else
        let periods := Z.quot (SubT now anchor) period in
        let lastPeriodBeforeExpiry := Z.quot (wrap64 (SubT (ExpiresAt s) anchor - 1)) period in
        let periods := if lastPeriodBeforeExpiry <? periods then lastPeriodBeforeExpiry else periods in
        Some (AddT anchor (wrap64 (periods * period)))
  end.
Definition canAutomaticallyResetDailyAt s now : bool :=
  match automaticDailyWindowStartAt s now with Some _ => true | None => false end.
Definition canAutomaticallyResetWeeklyAt s now : bool :=
  match automaticWindowStartAt s (WeeklyWindowStart s) (7 * 24 * Hour) now with Some _ => true | None => false end.
Definition canAutomaticallyResetMonthlyAt s now : bool :=
  match automaticWindowStartAt s (MonthlyWindowStart s) (30 * 24 * Hour) now with Some _ => true | None => false end.
Definition NeedsDailyResetAt s now : bool := canAutomaticallyResetDailyAt s now.

Definition DailyResetTime s : option time :=
  match DailyWindowStart s with
  | None => None
  | Some start =>
      if HasOneTimeDailyQuota s then Some (ExpiresAt s)
      else Some (AddDays zoneOffset (StartOfDay zoneOffset start) 1)
  end.
Definition WeeklyResetTime s : option time := (fun t => AddT t (7 * 24 * Hour)) <$> WeeklyWindowStart s.
Definition MonthlyResetTime s : option time := (fun t => AddT t (30 * 24 * Hour)) <$> MonthlyWindowStart s.

Definition period (k : window) : duration :=
  match k with Daily => 24 * Hour | Weekly => 7 * 24 * Hour | Monthly => 30 * 24 * Hour end.
Definition windowStart (k : window) s : option time :=
  match k with Daily => DailyWindowStart s | Weekly => WeeklyWindowStart s | Monthly => MonthlyWindowStart s end.
Definition windowUsage (k : window) s : A :=
  match k with Daily => DailyUsageUSD s | Weekly => WeeklyUsageUSD s | Monthly => MonthlyUsageUSD s end.
Definition setUsage (k : window) (u : A) s : UserSubscription A :=
  match k with
  | Daily => { s with DailyUsageUSD := u }
  | Weekly => { s with WeeklyUsageUSD := u }
  | Monthly => { s with MonthlyUsageUSD := u }
  end.
Definition setWindowStart (k : window) (w : option time) s : UserSubscription A :=
  match k with
  | Daily => { s with DailyWindowStart := w }
  | Weekly => { s with WeeklyWindowStart := w }
  | Monthly => { s with MonthlyWindowStart := w }
  end.
Definition automaticStart (k : window) s now : option time :=
  match k with
  | Daily => automaticDailyWindowStartAt s now
  | Weekly | Monthly => automaticWindowStartAt s (windowStart k s) (period k) now
  end.
End Windows.

(** ** Limits, on the amounts in memory *)

Definition withinLimit (limit : option float64) (usage additionalCost : float64) : bool :=
  match limit with Some l => SFleb (fadd usage additionalCost) l | None => true end.
Definition CheckDailyLimit (s : UserSubscription float64) (group : Group) (additionalCost : float64) : bool :=
  if negb (HasDailyLimit group) then true else withinLimit (DailyLimitUSD group) (DailyUsageUSD s) additionalCost.
Definition CheckWeeklyLimit (s : UserSubscription float64) (group : Group) (additionalCost : float64) : bool :=
  if negb (HasWeeklyLimit group) then true else withinLimit (WeeklyLimitUSD group) (WeeklyUsageUSD s) additionalCost.
Definition CheckMonthlyLimit (s : UserSubscription float64) (group : Group) (additionalCost : float64) : bool :=
  if negb (HasMonthlyLimit group) then true else withinLimit (MonthlyLimitUSD group) (MonthlyUsageUSD s) additionalCost.
Definition CheckAllLimits (s : UserSubscription float64) (group : Group) (additionalCost : float64) : bool * bool * bool :=
  (CheckDailyLimit s group additionalCost, CheckWeeklyLimit s group additionalCost, CheckMonthlyLimit s group additionalCost).

(** ** Lemmas *)

(** The instant of a Unix time. *)
Definition utc (unix : Z) : time := (62135596800 + unix) * Second.

(** Instants that [UnixNano] can represent, 1970 to 2262: their differences are
    durations. *)
Definition unixEpoch : time := utc 0.
Definition modern (t : time) : Prop := unixEpoch <= t <= unixEpoch + max_int64.
(** The local day of an instant has a midnight that [time.Date] finds, and so has
    every day of the zone. *)
Definition has_midnight (zoneOffset : time -> duration) (t : time) : Prop :=
  localDay zoneOffset (StartOfDay zoneOffset t) = localDay zoneOffset t.
Definition has_midnights (zoneOffset : time -> duration) : Prop := forall t, has_midnight zoneOffset t.

Lemma modern_sub t u : modern t -> modern u -> int64_ok (t - u).
Proof. unfold modern, int64_ok, min_int64, max_int64. lia. Qed.
#[export] Hint Resolve modern_sub : gateway.

Lemma sat64_bounds z : min_int64 <= z -> sat64 z <= z.
Proof. unfold sat64, min_int64, max_int64. lia. Qed.
Lemma sat64_ge z k : k <= z -> k <= max_int64 -> k <= sat64 z.
Proof. unfold sat64, min_int64, max_int64. lia. Qed.

(** [z / period] whole periods fit in [z]. *)
Lemma quot_fits z period : 0 < period -> 0 <= z -> 0 <= Z.quot z period /\ Z.quot z period * period <= z < Z.quot z period * period + period.
Proof. intros Hp Hz. rewrite Z.quot_div_nonneg by lia. pose proof (Z.mod_pos_bound z period). pose proof (Z.div_mod z period). pose proof (Z.div_pos z period). lia. Qed.
Lemma quot_ge_1 z period : 0 < period -> period <= z -> 1 <= Z.quot z period.
Proof. intros Hp Hz. destruct (quot_fits z period); nia. Qed.

(** A zone with one offset all year has all its midnights. *)
Lemma fixed_has_midnights d : has_midnights (fun _ => d).
Proof.
  intros t. unfold has_midnight, StartOfDay, dateLocal, localDay. destruct (d =? 0) eqn:E; bool_to_prop.
  - subst d. rewrite !Z.add_0_r. by rewrite Z.div_mul.
  - rewrite Z.sub_add. by rewrite Z.div_mul.
Qed.

Section WindowFacts.
Context (zoneOffset : time -> duration) {A : Type}.
Implicit Types (s : UserSubscription A) (now : time).

Lemma anchorOf_ge s p : p <= anchorOf zoneOffset s p.
Proof. unfold anchorOf. destruct (_ && _) eqn:E; bool_to_prop; lia. Qed.

(** A window that advances starts a whole number of periods after its anchor,
    not after [now] and before the end of the term. *)
Lemma automaticWindowStartAt_Some s prev period now w :
  0 < period < max_int64 -> automaticWindowStartAt zoneOffset s prev period now = Some w ->
  exists p k, prev = Some p /\ 1 <= k /\ w = anchorOf zoneOffset s p + k * period /\ w <= now /\ w < ExpiresAt s /\
    (int64_ok (now - anchorOf zoneOffset s p) -> int64_ok (ExpiresAt s - anchorOf zoneOffset s p) ->
     now < w + period \/ ExpiresAt s <= w + period).
Proof.
  intros Hp. unfold automaticWindowStartAt. destruct prev as [p|]; [|done]. set (a := anchorOf zoneOffset s p).
  destruct (_ || _) eqn:E; [done|]. bool_to_prop. intros Hw.
  unfold SubT in Hw. set (x := sat64 (now - a)) in *. set (y := sat64 (ExpiresAt s - a)) in *.
  assert (Hx : period <= x <= now - a) by (split; [apply sat64_ge; lia|apply sat64_bounds; unfold min_int64; lia]).
  assert (Hy : period <= y - 1 < ExpiresAt s - a)
    by (split; [cut (period + 1 <= y); [lia|apply sat64_ge; lia]
               |cut (y <= ExpiresAt s - a); [lia|apply sat64_bounds; unfold min_int64; lia]]).
  assert (Hxr : x <= max_int64) by apply sat64_range. assert (Hyr : y <= max_int64) by apply sat64_range.
  rewrite (wrap64_id (y - 1)) in Hw by (unfold int64_ok, min_int64, max_int64 in *; lia).
  pose proof (quot_fits x period) as Qx. pose proof (quot_fits (y - 1) period) as Qy.
  pose proof (quot_ge_1 x period) as Gx. pose proof (quot_ge_1 (y - 1) period) as Gy.
  set (k := if _ <? _ then _ else _) in Hw. assert (Hk : k = Z.min (Z.quot x period) (Z.quot (y - 1) period))
    by (unfold k; destruct (_ <? _) eqn:E; bool_to_prop; lia). clearbody k.
  assert (Hkp : 0 <= k * period <= max_int64) by nia.
  rewrite wrap64_id in Hw by (unfold int64_ok, min_int64; lia). injection Hw as <-.
  exists p, k. fold a. repeat split; try nia.
  intros Hi1 Hi2. unfold x, y in *. rewrite !sat64_id in * by done. nia.
Qed.
Lemma automaticWindowStartAt_None s prev period now :
  automaticWindowStartAt zoneOffset s prev period now = None <->
  forall p, prev = Some p -> now < anchorOf zoneOffset s p + period \/ ExpiresAt s <= anchorOf zoneOffset s p + period.
Proof.
  unfold automaticWindowStartAt. destruct prev as [p|]; [|naive_solver].
  set (a := anchorOf zoneOffset s p). split.
  - intros H q [= <-]. fold a. destruct (_ || _) eqn:E; [|done]. apply orb_true_iff in E as [E|E]; bool_to_prop; lia.
  - intros H. specialize (H p eq_refl). fold a in H. replace (_ || _) with true; [done|].
    symmetry. apply orb_true_iff. destruct H; [left|right]; unfold Before, AddT; lia.
Qed.

(** A window that was advanced at [now] does not advance again at [now]. *)
Lemma automaticWindowStartAt_settled s s' prev period now w :
  0 < period < max_int64 -> modern now -> modern (ExpiresAt s) -> modern (StartsAt s) ->
  (forall p, prev = Some p -> modern p) -> ExpiresAt s' = ExpiresAt s ->
  automaticWindowStartAt zoneOffset s prev period now = Some w ->
  automaticWindowStartAt zoneOffset s' (Some w) period now = None.
Proof.
  intros Hp Hn He Hs Hm Heq H. apply automaticWindowStartAt_Some in H as (p & k & Hprev & _ & _ & _ & _ & H); [|done].
  apply automaticWindowStartAt_None. intros q [= <-]. pose proof (anchorOf_ge s' w). rewrite Heq.
  assert (Ha : modern (anchorOf zoneOffset s p))
    by (unfold anchorOf; destruct (_ && _); [done|by apply Hm]).
  destruct H; [auto with gateway..| |]; [left|right]; lia.
Qed.

(** Starting at a midnight of the local day, the daily window waits for the next. *)
Lemma automaticDailyWindowStartAt_settled s now :
  has_midnight zoneOffset now -> DailyWindowStart s = Some (StartOfDay zoneOffset now) ->
  automaticDailyWindowStartAt zoneOffset s now = None.
Proof.
  intros Hz Hd. unfold automaticDailyWindowStartAt. rewrite Hd. destruct (HasOneTimeDailyQuota _ _); [done|].
  unfold StartOfDay at 2. rewrite Hz. fold (StartOfDay zoneOffset now).
  unfold After. by rewrite Z.ltb_irrefl.
Qed.

(** The order in which the starts of a window advance. *)
Definition windowRank (k : window) (w : time) : time :=
  match k with Daily => StartOfDay zoneOffset w | _ => w end.
Lemma automaticStart_advances k s now w :
  (k = Daily -> has_midnight zoneOffset now) -> automaticStart zoneOffset k s now = Some w ->
  exists p, windowStart k s = Some p /\ windowRank k p < windowRank k w.
Proof.
  intros Hz. destruct k; simpl.
  - unfold automaticDailyWindowStartAt. destruct (DailyWindowStart s) as [p|]; [|done].
    destruct (HasOneTimeDailyQuota _ _); [done|]. destruct (After _ _) eqn:E; [|done]. intros [= <-].
    exists p. split; [done|]. unfold StartOfDay at 2. rewrite Hz by done. by bool_to_prop.
  - intros (p & k & -> & Hk & -> & _)%automaticWindowStartAt_Some; [|done]. exists p. split; [done|].
    pose proof (anchorOf_ge s p). unfold Hour, Minute, Second. lia.
  - intros (p & k & -> & Hk & -> & _)%automaticWindowStartAt_Some; [|done]. exists p. split; [done|].
    pose proof (anchorOf_ge s p). unfold Hour, Minute, Second. lia.
Qed.

Lemma automaticStart_periodic k s now p w :
  k <> Daily -> windowStart k s = Some p -> automaticStart zoneOffset k s now = Some w ->
  anchorOf zoneOffset s p + period k <= w < ExpiresAt s.
Proof.
  intros Hk Hp H. assert (Hr : 0 < period k < max_int64) by (by destruct k).
  assert (Ha : automaticWindowStartAt zoneOffset s (Some p) (period k) now = Some w) by (destruct k; [done|by rewrite <- Hp..]).
  apply automaticWindowStartAt_Some in Ha as (q & j & [= <-] & Hj & -> & _ & Hlt & _); [nia|done].
Qed.
End WindowFacts.

(** The anchor depends on the start of the term only. *)
Lemma anchorOf_term zoneOffset {A B} (s : UserSubscription A) (s' : UserSubscription B) p :
  StartsAt s = StartsAt s' -> anchorOf zoneOffset s p = anchorOf zoneOffset s' p.
Proof. intros E. unfold anchorOf. by rewrite E. Qed.

(** ** Properties *)

(** The weekly and monthly windows follow the term.  A window advances
    exactly when a whole period has passed since its anchor and another begins
    before the end of the term; it then starts a whole number of periods after
    the anchor, not after the current time, before the end of the term, and it
    is the last such start. *)
Theorem window_advances (zoneOffset : time -> duration) {A} (s : UserSubscription A) (previous : time) (period : duration) (now : time) :
  0 < period < max_int64 -> modern now -> modern (StartsAt s) -> modern (ExpiresAt s) -> modern previous ->
  let anchor := anchorOf zoneOffset s previous in
  match automaticWindowStartAt zoneOffset s (Some previous) period now with
  | Some w =>
      exists k, 1 <= k /\ w = anchor + k * period /\ w <= now /\ w < ExpiresAt s /\
        forall k', anchor + k' * period <= now -> anchor + k' * period < ExpiresAt s -> anchor + k' * period <= w
  | None => forall k, 1 <= k -> anchor + k * period <= now -> ExpiresAt s <= anchor + k * period
  end.
Proof.
  intros Hp Hn Hs He Hm anchor. destruct (automaticWindowStartAt _ _ _ _ _) as [w|] eqn:H.
  - apply automaticWindowStartAt_Some in H as (p & k & [= <-] & Hk & -> & Hw1 & Hw2 & Hw3); [|done].
    fold anchor in Hw1, Hw2, Hw3 |- *. assert (Ha : modern anchor) by (unfold anchor, anchorOf; by destruct (_ && _)).
    exists k. split; [done|]. split; [done|]. split; [lia|]. split; [done|]. intros k' H1 H2.
    assert (k' < k + 1); [|nia]. destruct Hw3; [auto with gateway..|nia|nia].
  - intros k Hk Hle. apply automaticWindowStartAt_None with (p := previous) in H; [|done]. fold anchor in H. nia.
Qed.

(** A subscription of 30 days from 1 January 2025, 10:00 UTC, in UTC. *)
Definition utcZone (t : time) : duration := 0.
Definition demoStart : time := utc 1735725600.
Definition demoTerm : UserSubscription Z :=
  mkSub 1 7 3 demoStart (demoStart + 30 * Day) SubscriptionStatusActive
    (Some (StartOfDay utcZone demoStart)) (Some demoStart) (Some demoStart) 0 0 0 None demoStart "" demoStart demoStart None.

Lemma window_advances_witness :
  exists k, automaticWindowStartAt utcZone demoTerm (Some demoStart) (7 * Day) (demoStart + 15 * Day) = Some (demoStart + k * (7 * Day)) /\
    1 <= k.
Proof.
  assert (Hp : 0 < 7 * Day < max_int64) by by_compute.
  assert (H1 : modern (demoStart + 15 * Day)) by by_compute.
  assert (H2 : modern (StartsAt demoTerm)) by by_compute.
  assert (H3 : modern (ExpiresAt demoTerm)) by by_compute.
  pose proof (window_advances utcZone demoTerm demoStart (7 * Day) (demoStart + 15 * Day) Hp H1 H2 H3 H2) as H.
  destruct (automaticWindowStartAt utcZone demoTerm (Some demoStart) (7 * Day) (demoStart + 15 * Day)) as [w|] eqn:E.
  - destruct H as (k & Hk & Hw & _). exists k. rewrite Hw. replace (anchorOf utcZone demoTerm demoStart) with demoStart by by_compute.
    split; [reflexivity|exact Hk].
  - vm_compute in E. discriminate E.
Defined.
