(* ===== verification/SubscriptionRepo.v ===== *)
(** * The table of subscriptions

    [repository/user_subscription_repo.go] over a table of rows: every SQL
    statement is a function of the table, every method a call of one or two
    statements over a connection that can fail, its errors translated by
    [repository/error_translate.go].  Amounts are [numeric(20,10)] columns,
    integers counting [10^-10] USD; how the driver converts them to and from
    [float64] is the class [Numeric].  Reads go through the soft-delete
    interceptor of [ent/schema/mixins/soft_delete.go], updates do not. *)

From S2P Require Import Prelude Float64 Errors Subscription.

Class Numeric := {
  toNumeric : float64 -> Z;
  fromNumeric : Z -> float64;
  toNumeric_zero : toNumeric fzero = 0;
  fromNumeric_zero : fromNumeric 0 = fzero }.
(** [numeric(20,10)]. *)
Definition fits (z : Z) : bool := Z.abs z <? 10 ^ 20.

Definition ErrSubscriptionNotFound := NotFound "SUBSCRIPTION_NOT_FOUND" "subscription not found".
Definition ErrSubscriptionAlreadyExists := Conflict "SUBSCRIPTION_ALREADY_EXISTS" "subscription already exists for this user and group".
Definition ErrSubscriptionRestoreConflict := Conflict "SUBSCRIPTION_RESTORE_CONFLICT" "subscription already exists for this user and group".
Definition SubscriptionStatusRevoked : string := "revoked".

(** Errors of the ORM and of the database, by their addresses. *)
Definition NotFoundError : goerror := PlainErr (-1) "ent: user_subscription not found".
Definition NotSingularError : goerror := PlainErr (-2) "ent: user_subscription not singular".
Definition UniqueViolation : goerror := PlainErr (-3) "pq: duplicate key value violates unique constraint".
Definition NumericOverflow : goerror := PlainErr (-4) "pq: numeric field overflow".
Definition ErrNoRows : goerror := PlainErr (-5) "sql: no rows in result set".
(** The test for the error code 23505; the fallback on the message text serves
    other drivers. *)
Definition isUniqueConstraintViolation (err : goerror) : bool := errors_Is err UniqueViolation.
Definition translatePersistenceError (err : goerror) (notFound conflict : option ApplicationError) : goerror :=
  match notFound, conflict with
  | Some nf, _ =>
      if errors_Is err ErrNoRows || errors_Is err NotFoundError then AppErr (WithCause nf (Some err))
      else match conflict with
           | Some c => if isUniqueConstraintViolation err then AppErr (WithCause c (Some err)) else err
           | None => err
           end
  | None, Some c => if isUniqueConstraintViolation err then AppErr (WithCause c (Some err)) else err
  | None, None => err
  end.

(** ** The database *)

(** [clock] is what [time.Now] reads for [updated_at] and [deleted_at]; [groups]
    are the groups that are not deleted. *)
Record table := mkTable {
  subs : gmap Z (UserSubscription Z);
  nextID : Z;
  groups : gmap Z Group;
  clock : time }.

Definition mapAmounts {A B} (f : A -> B) (s : UserSubscription A) : UserSubscription B :=
  mkSub (sub_ID s) (sub_UserID s) (sub_GroupID s) (StartsAt s) (ExpiresAt s) (sub_Status s)
    (DailyWindowStart s) (WeeklyWindowStart s) (MonthlyWindowStart s)
    (f (DailyUsageUSD s)) (f (WeeklyUsageUSD s)) (f (MonthlyUsageUSD s))
    (AssignedBy s) (AssignedAt s) (Notes s) (CreatedAt s) (UpdatedAt s) (DeletedAt s).
Definition sub_key {A} (s : UserSubscription A) : Z * Z := (sub_UserID s, sub_GroupID s).
Definition live {A} (s : UserSubscription A) : bool := match DeletedAt s with None => true | Some _ => false end.
(** The live rows of a user and group but for the one with the given id. *)
Definition otherRows (key : Z * Z) (id : Z) (m : gmap Z (UserSubscription Z)) : list (Z * UserSubscription Z) :=
  map_to_list (filter (fun p => p.1 <> id /\ sub_key p.2 = key /\ DeletedAt p.2 = None) m).
Definition liveRows (key : Z * Z) (m : gmap Z (UserSubscription Z)) : list (Z * UserSubscription Z) :=
  map_to_list (filter (fun p => sub_key p.2 = key /\ DeletedAt p.2 = None) m).

Section Repository.
Context {num : Numeric}.
Local Abbreviation stmt A := (ST table (result goerror A)).

Definition userSubscriptionEntityToService (mapDeletedToRevoked : bool) (m : UserSubscription Z) : UserSubscription float64 :=
  let out := mapAmounts fromNumeric m in
  if mapDeletedToRevoked && negb (live m) then { out with sub_Status := SubscriptionStatusRevoked } else out.
Definition amountsFit (s : UserSubscription Z) : bool :=
  fits (DailyUsageUSD s) && fits (WeeklyUsageUSD s) && fits (MonthlyUsageUSD s).

Definition stmt_create (sub : UserSubscription float64) : stmt (UserSubscription Z) := fun t =>
  let id := nextID t in
  let row := { mapAmounts toNumeric sub with
      sub_ID := id;
      StartsAt := if IsZero (StartsAt sub) then clock t else StartsAt sub;
      sub_Status := if String.eqb (sub_Status sub) "" then SubscriptionStatusActive else sub_Status sub;
      AssignedAt := if IsZero (AssignedAt sub) then clock t else AssignedAt sub;
      CreatedAt := clock t; UpdatedAt := clock t; DeletedAt := None } in
  if negb (amountsFit row) then (Err NumericOverflow, t)
  else match liveRows (sub_key sub) (subs t) with
       | [] => (Ok row, { t with subs := <[id := row]> (subs t); nextID := id + 1 })
       | _ => (Err UniqueViolation, { t with nextID := id + 1 })
       end.
(** [Query().Where(id).Only]; [skip] is [SkipSoftDelete]. *)
Definition stmt_get (skip : bool) (id : Z) : stmt (UserSubscription Z) := fun t =>
  (match subs t !! id with
   | Some row => if skip || live row then Ok row else Err NotFoundError
   | None => Err NotFoundError
   end, t).
Definition stmt_getByKey (key : Z * Z) : stmt (UserSubscription Z) := fun t =>
  (match liveRows key (subs t) with
   | [] => Err NotFoundError
   | [(_, row)] => Ok row
   | _ => Err NotSingularError
   end, t).
(** [UpdateOneID(id).Set...]: a row that comes to share the key of a live one
    violates the unique index. *)
Definition stmt_updateOne (id : Z) (f : UserSubscription Z -> UserSubscription Z) : stmt (UserSubscription Z) := fun t =>
  match subs t !! id with
  | None => (Err NotFoundError, t)
  | Some row =>
      let row' := { f row with UpdatedAt := clock t } in
      if negb (amountsFit row') then (Err NumericOverflow, t)
      else if live row' && negb (bool_decide (otherRows (sub_key row') id (subs t) = [])) then (Err UniqueViolation, t)
      else (Ok row', { t with subs := <[id := row']> (subs t) })
  end.
(** [Update().Where(IDEQ(id), cond).Set...]: the number of rows changed. *)
Definition stmt_updateWhere (id : Z) (cond : UserSubscription Z -> bool) (f : UserSubscription Z -> UserSubscription Z) : stmt Z := fun t =>
  match subs t !! id with
  | Some row =>
      if cond row then (Ok 1, { t with subs := <[id := { f row with UpdatedAt := clock t }]> (subs t) })
      else (Ok 0, t)
  | None => (Ok 0, t)
  end.
Definition stmt_exist (id : Z) : stmt bool := fun t =>
  (Ok (match subs t !! id with Some row => live row | None => false end), t).
(** The soft-delete hook turns [DELETE] into [UPDATE SET deleted_at]. *)
Definition stmt_delete (id : Z) : stmt Z := fun t =>
  stmt_updateWhere id live (fun row => { row with DeletedAt := Some (clock t) }) t.
Definition stmt_exists (key : Z * Z) : stmt bool := fun t =>
  (Ok (negb (bool_decide (liveRows key (subs t) = []))), t).
(** The raw UPDATE of [IncrementUsage]: the row and its group are live. *)
Definition addUsage (cost : Z) (row : UserSubscription Z) : UserSubscription Z :=
  { row with DailyUsageUSD := DailyUsageUSD row + cost;
             WeeklyUsageUSD := WeeklyUsageUSD row + cost;
             MonthlyUsageUSD := MonthlyUsageUSD row + cost }.
Definition stmt_increment (costUSD : float64) (id : Z) : stmt Z := fun t =>
  match subs t !! id with
  | Some row =>
      if negb (live row) || bool_decide (groups t !! sub_GroupID row = None) then (Ok 0, t)
      else
        let row' := { addUsage (toNumeric costUSD) row with UpdatedAt := clock t } in
        if negb (amountsFit row') then (Err NumericOverflow, t)
        else (Ok 1, { t with subs := <[id := row']> (subs t) })
  | None => (Ok 0, t)
  end.
Definition overdue (now : time) (row : UserSubscription Z) : bool :=
  String.eqb (sub_Status row) SubscriptionStatusActive && (ExpiresAt row <=? now).
Definition expireRow (now : time) (row : UserSubscription Z) : UserSubscription Z :=
  if overdue now row then { row with sub_Status := SubscriptionStatusExpired; UpdatedAt := now } else row.
Definition stmt_batchExpire : stmt Z := fun t =>
  (Ok (Z.of_nat (size (filter (fun p => overdue (clock t) p.2 = true) (subs t)))),
   { t with subs := expireRow (clock t) <$> subs t }).
(** [WHERE ... window_start IS NULL] or [= expected], then a fresh window. *)
Definition startIs (k : window) (expected : option time) (row : UserSubscription Z) : bool :=
  bool_decide (windowStart k row = expected).
Definition freshWindow (k : window) (start : time) (row : UserSubscription Z) : UserSubscription Z :=
  setWindowStart k (Some start) (setUsage k 0 row).
Definition stmt_reset (k : window) (id : Z) (expected : option time) (start : time) : stmt Z :=
  stmt_updateWhere id (startIs k expected) (freshWindow k start).
Definition activateRow (dailyStart periodicStart : time) (row : UserSubscription Z) : UserSubscription Z :=
  { row with DailyWindowStart := Some dailyStart; WeeklyWindowStart := Some periodicStart;
             MonthlyWindowStart := Some periodicStart }.
Definition stmt_activate (id : Z) (dailyStart periodicStart : time) : stmt Z :=
  stmt_updateWhere id (fun row => negb (IsWindowActivated row)) (activateRow dailyStart periodicStart).
Definition resetRow (daily weekly monthly : bool) (dailyStart periodicStart : time)
  (row : UserSubscription Z) : UserSubscription Z :=
  let row := if daily then freshWindow Daily dailyStart row else row in
  let row := if weekly then freshWindow Weekly periodicStart row else row in
  if monthly then freshWindow Monthly periodicStart row else row.
(** [SetNillable...(nil)] leaves the column as it is. *)
Definition orKeep {A} (new old : option A) : option A := match new with Some _ => new | None => old end.
Definition updateRow (sub : UserSubscription float64) (row : UserSubscription Z) : UserSubscription Z :=
  { mapAmounts toNumeric sub with
      sub_ID := sub_ID row;
      DailyWindowStart := orKeep (DailyWindowStart sub) (DailyWindowStart row);
      WeeklyWindowStart := orKeep (WeeklyWindowStart sub) (WeeklyWindowStart row);
      MonthlyWindowStart := orKeep (MonthlyWindowStart sub) (MonthlyWindowStart row);
      AssignedBy := orKeep (AssignedBy sub) (AssignedBy row);
      CreatedAt := CreatedAt row; DeletedAt := DeletedAt row }.

(** ** The methods *)

Local Abbreviation world := (table * list fault)%type.
Local Abbreviation method A := (ST world (result goerror A)).

Definition call {A} (notFound conflict : option ApplicationError) (s : stmt A) : method A :=
  r ← remote s;
  mret (match r with
        | Ok (Ok a) => Ok a
        | Ok (Err e) | Err e => Err (translatePersistenceError e notFound conflict)
        end).
Definition toService (m : method (UserSubscription Z)) : method (UserSubscription float64) :=
  row ←? m; mret (Ok (userSubscriptionEntityToService true row)).

(** Returns the subscription with the id and times of the created row. *)
Definition Create (sub : UserSubscription float64) : method (UserSubscription float64) :=
  created ←? call None (Some ErrSubscriptionAlreadyExists) (stmt_create sub);
  mret (Ok { sub with sub_ID := sub_ID created; CreatedAt := CreatedAt created; UpdatedAt := UpdatedAt created }).
Definition GetByID (id : Z) : method (UserSubscription float64) :=
  toService (call (Some ErrSubscriptionNotFound) None (stmt_get false id)).
Definition GetByIDForUpdate (id : Z) : method (UserSubscription float64) :=
  toService (call (Some ErrSubscriptionNotFound) None (stmt_get false id)).
Definition GetByIDIncludeDeleted (id : Z) : method (UserSubscription float64) :=
  row ←? call (Some ErrSubscriptionNotFound) None (stmt_get true id);
  mret (Ok (userSubscriptionEntityToService false row)).
Definition GetByUserIDAndGroupID (userID groupID : Z) : method (UserSubscription float64) :=
  toService (call (Some ErrSubscriptionNotFound) None (stmt_getByKey (userID, groupID))).
Definition Update (sub : UserSubscription float64) : method (UserSubscription float64) :=
  updated ←? call (Some ErrSubscriptionNotFound) (Some ErrSubscriptionAlreadyExists)
    (stmt_updateOne (sub_ID sub) (updateRow sub));
  mret (Ok { sub with sub_ID := sub_ID updated; CreatedAt := CreatedAt updated; UpdatedAt := UpdatedAt updated }).
Definition Delete (id : Z) : method Z := call None None (stmt_delete id).
Definition Restore (subscriptionID : Z) (restoredStatus : string) : method (UserSubscription float64) :=
  _ ←? call (Some ErrSubscriptionNotFound) (Some ErrSubscriptionRestoreConflict)
    (stmt_updateOne subscriptionID (fun row => { row with sub_Status := restoredStatus; DeletedAt := None }));
  GetByID subscriptionID.
Definition ExistsByUserIDAndGroupID (userID groupID : Z) : method bool := call None None (stmt_exists (userID, groupID)).
Definition ExistsActiveByUserIDAndGroupID (userID groupID : Z) : method bool := ExistsByUserIDAndGroupID userID groupID.
Definition updateOneID (id : Z) (f : UserSubscription Z -> UserSubscription Z) : method unit :=
  _ ←? call (Some ErrSubscriptionNotFound) None (stmt_updateOne id f); mret (Ok tt).
Definition ExtendExpiry (id : Z) (newExpiresAt : time) : method unit :=
  updateOneID id (fun row => { row with ExpiresAt := newExpiresAt }).
Definition UpdateStatus (id : Z) (status : string) : method unit :=
  updateOneID id (fun row => { row with sub_Status := status }).
Definition UpdateNotes (id : Z) (notes : string) : method unit :=
  updateOneID id (fun row => { row with Notes := notes }).
Definition ResetUsageWindows (id : Z) (resetDaily resetWeekly resetMonthly : bool) (dailyStart periodicStart : time) : method unit :=
  updateOneID id (resetRow resetDaily resetWeekly resetMonthly dailyStart periodicStart).
(** A stale reset is no error, a missing row is. *)
Definition translateConditionalWindowReset (id : Z) (update : stmt Z) : method unit :=
  n ←? call (Some ErrSubscriptionNotFound) None update;
  if 0 <? n then mret (Ok tt)
  else
    found ←? call (Some ErrSubscriptionNotFound) None (stmt_exist id);
    mret (if negb found then Err (AppErr ErrSubscriptionNotFound) else Ok tt).
Definition ActivateWindows (id : Z) (dailyStart periodicStart : time) : method unit :=
  translateConditionalWindowReset id (stmt_activate id dailyStart periodicStart).
Definition ResetDailyUsage (id : Z) (expectedWindowStart : option time) (newWindowStart : time) : method unit :=
  translateConditionalWindowReset id (stmt_reset Daily id expectedWindowStart newWindowStart).
Definition ResetWeeklyUsage (id : Z) (expectedWindowStart : option time) (newWindowStart : time) : method unit :=
  translateConditionalWindowReset id (stmt_reset Weekly id expectedWindowStart newWindowStart).
Definition ResetMonthlyUsage (id : Z) (expectedWindowStart : option time) (newWindowStart : time) : method unit :=
  translateConditionalWindowReset id (stmt_reset Monthly id expectedWindowStart newWindowStart).
Definition IncrementUsage (id : Z) (costUSD : float64) : method unit :=
  affected ←? call None None (stmt_increment costUSD id);
  mret (if 0 <? affected then Ok tt else Err (AppErr ErrSubscriptionNotFound)).
Definition BatchUpdateExpiredStatus : method Z := call None None stmt_batchExpire.
End Repository.

(** ** Statements of all processes, as operations on the table *)

Inductive op :=
| OpCreate (sub : UserSubscription float64)
| OpUpdate (sub : UserSubscription float64)
| OpRestore (id : Z) (status : string)
| OpDelete (id : Z)
| OpExtend (id : Z) (expiresAt : time)
| OpStatus (id : Z) (status : string)
| OpNotes (id : Z) (notes : string)
| OpResetWindows (id : Z) (daily weekly monthly : bool) (dailyStart periodicStart : time)
| OpReset (k : window) (id : Z) (expected : option time) (start : time)
| OpActivate (id : Z) (dailyStart periodicStart : time)
| OpIncrement (cost : float64) (id : Z)
| OpBatchExpire
| OpClock (now : time).

Section Operations.
Context {num : Numeric}.

Definition apply_op (o : op) (t : table) : table :=
  match o with
  | OpCreate sub => (stmt_create sub t).2
  | OpUpdate sub => (stmt_updateOne (sub_ID sub) (updateRow sub) t).2
  | OpRestore id status => (stmt_updateOne id (fun row => { row with sub_Status := status; DeletedAt := None }) t).2
  | OpDelete id => (stmt_delete id t).2
  | OpExtend id e => (stmt_updateOne id (fun row => { row with ExpiresAt := e }) t).2
  | OpStatus id status => (stmt_updateOne id (fun row => { row with sub_Status := status }) t).2
  | OpNotes id notes => (stmt_updateOne id (fun row => { row with Notes := notes }) t).2
  | OpResetWindows id d w m ds ps => (stmt_updateOne id (resetRow d w m ds ps) t).2
  | OpReset k id expected start => (stmt_reset k id expected start t).2
  | OpActivate id ds ps => (stmt_activate id ds ps t).2
  | OpIncrement cost id => (stmt_increment cost id t).2
  | OpBatchExpire => (stmt_batchExpire t).2
  | OpClock now => { t with clock := now }
  end.
Definition empty_table (g : gmap Z Group) : table := mkTable ∅ 1 g 0.
Definition reachable (g : gmap Z Group) (t : table) : Prop := rtc (fun t t' => exists o, t' = apply_op o t) (empty_table g) t.

(** Every row sits under its own id, ids come from the sequence, and no two
    live rows share user and group. *)
Record table_ok (t : table) : Prop := {
  ok_id i r : subs t !! i = Some r -> sub_ID r = i /\ 0 < i < nextID t;
  ok_unique i j r s : subs t !! i = Some r -> subs t !! j = Some s ->
    live r = true -> live s = true -> sub_key r = sub_key s -> i = j;
  ok_next : 0 < nextID t }.

(** ** Lemmas *)

Lemma live_None {A} (s : UserSubscription A) : live s = true <-> DeletedAt s = None.
Proof. unfold live. destruct (DeletedAt s); done. Qed.

Lemma liveRows_spec key m i r : (i, r) ∈ liveRows key m <-> m !! i = Some r /\ sub_key r = key /\ live r = true.
Proof. unfold liveRows. rewrite elem_of_map_to_list, map_lookup_filter_Some, live_None. simpl. done. Qed.
Lemma otherRows_nil key id m i r :
  otherRows key id m = [] -> m !! i = Some r -> sub_key r = key -> live r = true -> i = id.
Proof.
  intros H Hi Hk Hl. destruct (decide (i = id)) as [|Hne]; [done|].
  assert (Hin : (i, r) ∈ otherRows key id m)
    by (apply elem_of_map_to_list, map_lookup_filter_Some; rewrite <- live_None; done).
  rewrite H in Hin. by apply not_elem_of_nil in Hin.
Qed.

(** A live row is the only one with its user and group. *)
Lemma liveRows_one t i r :
  table_ok t -> subs t !! i = Some r -> live r = true -> liveRows (sub_key r) (subs t) = [(i, r)].
Proof.
  intros Hok Hi Hl. assert (Hin : (i, r) ∈ liveRows (sub_key r) (subs t)) by (apply liveRows_spec; done).
  assert (Hall : forall p, p ∈ liveRows (sub_key r) (subs t) -> p = (i, r)).
  { intros [j s] (Hj & Hk & Ls)%liveRows_spec. pose proof (ok_unique _ Hok j i s r Hj Hi Ls Hl Hk). subst j. congruence. }
  pose proof (NoDup_map_to_list (filter (fun p => sub_key p.2 = sub_key r /\ DeletedAt p.2 = None) (subs t))) as Hnd.
  fold (liveRows (sub_key r) (subs t)) in Hnd. destruct (liveRows (sub_key r) (subs t)) as [|p l]; [by apply not_elem_of_nil in Hin|].
  rewrite (Hall p) by left. destruct l as [|q l]; [done|].
  apply NoDup_cons in Hnd as [Hnd _]. destruct Hnd. rewrite (Hall p), (Hall q) by (try left; right; left). left.
Qed.

(** A row replaced by one that collides with no live row. *)
Lemma table_ok_put t i r r' :
  table_ok t -> subs t !! i = Some r -> sub_ID r' = sub_ID r ->
  (live r' = true -> live r = true /\ sub_key r' = sub_key r \/ otherRows (sub_key r') i (subs t) = []) ->
  table_ok { t with subs := <[i := r']> (subs t) }.
Proof.
  intros [H1 H2 H3] Hi Hid Hk. split; simpl; [| |done].
  - intros j s [[<- <-]|[_ Hj]]%lookup_insert_Some; [rewrite Hid|]; by apply H1.
  - assert (K : forall j s, i <> j -> subs t !! j = Some s -> live r' = true -> live s = true -> sub_key r' = sub_key s -> i = j).
    { intros j s Hne Hj L1 L2 E. destruct (Hk L1) as [[Lr Er]|Hn].
      - apply (H2 i j r s); congruence.
      - symmetry. by eapply otherRows_nil. }
    intros j j' s s' [[<- <-]|[Hne Hj]]%lookup_insert_Some [[<- <-]|[Hne' Hj']]%lookup_insert_Some L1 L2 E;
      [done|by eapply K|symmetry; eapply K; [done|exact Hj|done|done|congruence]|by eapply H2].
Qed.

Lemma table_ok_updateWhere t id cond f :
  table_ok t -> (forall r, sub_ID (f r) = sub_ID r /\ sub_key (f r) = sub_key r /\ (live (f r) = true -> live r = true)) ->
  table_ok (stmt_updateWhere id cond f t).2.
Proof.
  intros Hok Hf. unfold stmt_updateWhere. destruct (subs t !! id) as [r|] eqn:E; [|done].
  destruct (cond r); [|done]. destruct (Hf r) as (H1 & H2 & H3).
  eapply table_ok_put; [done|exact E|exact H1|]. intros L. left. split; [apply H3; exact L|exact H2].
Qed.
Lemma table_ok_updateOne t id f :
  table_ok t -> (forall r, sub_ID (f r) = sub_ID r) -> table_ok (stmt_updateOne id f t).2.
Proof.
  intros Hok Hf. unfold stmt_updateOne. destruct (subs t !! id) as [r|] eqn:E; [|done].
  destruct (negb (amountsFit _)); [done|]. destruct (_ && _) eqn:Hl; [done|].
  eapply table_ok_put; [done|exact E|by apply Hf|]. intros L. right.
  rewrite L in Hl. by apply negb_false_iff, bool_decide_eq_true in Hl.
Qed.

Lemma subs_ok_create t sub : table_ok t -> table_ok (stmt_create sub t).2.
Proof.
  intros [H1 H2 H3]. unfold stmt_create. destruct (negb _); [done|].
  assert (Hnext : forall i r, subs t !! i = Some r -> sub_ID r = i /\ 0 < i < nextID t + 1)
    by (intros i r Hi; destruct (H1 i r Hi); lia).
  destruct (liveRows (sub_key sub) (subs t)) as [|p l] eqn:E; split; simpl; try done; try lia.
  - intros i r [[<- <-]|[_ Hi]]%lookup_insert_Some; [simpl; lia|by apply Hnext].
  - assert (K : forall i r, subs t !! i = Some r -> live r = true -> sub_key r = sub_key sub -> False).
    { intros i r Hi L Ek. assert (Hin : (i, r) ∈ liveRows (sub_key sub) (subs t)) by (apply liveRows_spec; done).
      rewrite E in Hin. by apply not_elem_of_nil in Hin. }
    intros i j r s [[<- <-]|[_ Hi]]%lookup_insert_Some [[<- <-]|[_ Hj]]%lookup_insert_Some L1 L2 Ek;
      [done|destruct (K j s Hj L2); by rewrite <- Ek|by destruct (K i r Hi L1)|by eapply H2].
Qed.
Lemma table_ok_increment t cost id : table_ok t -> table_ok (stmt_increment cost id t).2.
Proof.
  intros Hok. unfold stmt_increment. destruct (subs t !! id) as [r|] eqn:E; [|done].
  destruct (_ || _); [done|]. destruct (negb _); [done|]. eapply table_ok_put; [done|exact E|done|].
  intros L. by left.
Qed.
Lemma expireRow_keeps now r :
  sub_ID (expireRow now r) = sub_ID r /\ sub_key (expireRow now r) = sub_key r /\ live (expireRow now r) = live r.
Proof. unfold expireRow. by destruct (overdue now r). Qed.
Lemma table_ok_batchExpire t : table_ok t -> table_ok (stmt_batchExpire t).2.
Proof.
  intros [H1 H2 H3]. split; simpl; [| |done].
  - intros i r. rewrite lookup_fmap. intros (s & E & ->)%fmap_Some.
    destruct (expireRow_keeps (clock t) s) as (-> & _). by apply H1.
  - intros i j r s. rewrite !lookup_fmap. intros (r0 & Ei & ->)%fmap_Some (s0 & Ej & ->)%fmap_Some.
    destruct (expireRow_keeps (clock t) r0) as (_ & -> & ->), (expireRow_keeps (clock t) s0) as (_ & -> & ->).
    by apply H2.
Qed.
Lemma subs_ok_apply o t : table_ok t -> table_ok (apply_op o t).
Proof.
  intros Hok. destruct o; simpl.
  - by apply subs_ok_create.
  - by apply table_ok_updateOne.
  - by apply table_ok_updateOne.
  - by apply table_ok_updateWhere.
  - by apply table_ok_updateOne.
  - by apply table_ok_updateOne.
  - by apply table_ok_updateOne.
  - apply table_ok_updateOne; [done|]. by intros r; destruct daily, weekly, monthly.
  - apply table_ok_updateWhere; [done|]. by intros r; destruct k.
  - by apply table_ok_updateWhere.
  - by apply table_ok_increment.
  - by apply table_ok_batchExpire.
  - by destruct Hok; split.
Qed.
End Operations.

(** ** The quota of one window of one row *)

Section Quota.
Context {num : Numeric} (zoneOffset : time -> duration) (k : window) (id : Z).

(** What a statement records: a cost, under the window start it meets. *)
Definition recorded (o : op) (t : table) : list (option time * Z) :=
  match o with
  | OpIncrement cost id' =>
      match subs t !! id', (stmt_increment cost id' t).1 with
      | Some row, Ok 1 => if id' =? id then [(windowStart k row, toNumeric cost)] else []
      | _, _ => []
      end
  | _ => []
  end.
(** The number of fresh windows it opens. *)
Definition advanced (o : op) (t : table) : Z :=
  match o with
  | OpReset k' id' expected start =>
      match (stmt_reset k' id' expected start t).1 with
      | Ok n => if bool_decide (k' = k) && (id' =? id) then n else 0
      | Err _ => 0
      end
  | _ => 0
  end.
Fixpoint run (os : list op) (t : table) : table * list (option time * Z) * Z :=
  match os with
  | [] => (t, [], 0)
  | o :: os' =>
      let '(t', led, n) := run os' (apply_op o t) in
      (t', recorded o t ++ led, advanced o t + n)
  end.
Definition costsIn (start : option time) (led : list (option time * Z)) : Z :=
  foldr (fun e n => e.2 + n) 0 (filter (fun e => e.1 = start) led).

(** What processes do to the row between a renewal or a manual reset and the
    next: every reset was decided by the code on some earlier reading of it. *)
Definition quota_op (o : op) : Prop :=
  match o with
  | OpUpdate sub => sub_ID sub <> id
  | OpResetWindows id' _ _ _ _ _ => id' <> id
  | OpReset k' id' expected start => id' = id ->
      exists (snap : UserSubscription float64) now,
        expected = windowStart k' snap /\ automaticStart zoneOffset k' snap now = Some start
  | _ => True
  end.
(** The term does not change either, and the readings are of this term. *)
Definition term_op (starts expires : time) (o : op) : Prop :=
  match o with
  | OpUpdate sub => sub_ID sub <> id
  | OpResetWindows id' _ _ _ _ _ => id' <> id
  | OpExtend id' _ => id' <> id
  | OpReset k' id' expected start => id' = id ->
      exists (snap : UserSubscription float64) now,
        StartsAt snap = starts /\ ExpiresAt snap = expires /\
        expected = windowStart k' snap /\ automaticStart zoneOffset k' snap now = Some start
  | _ => True
  end.
Lemma term_quota starts expires o : term_op starts expires o -> quota_op o.
Proof. destruct o; simpl; try done. intros H E. destruct (H E) as (snap & now & _ & _ & H1). eauto. Qed.

(** The term of a row, and the state of its window [k]. *)
Definition sameTerm (r r' : UserSubscription Z) : Prop := StartsAt r' = StartsAt r /\ ExpiresAt r' = ExpiresAt r.
Definition sameWindow (r r' : UserSubscription Z) : Prop :=
  windowStart k r' = windowStart k r /\ windowUsage k r' = windowUsage k r.

(** A row after an update: as it was, or changed by this very update. *)
Lemma updateOne_row id' f t r :
  subs t !! id = Some r ->
  exists r', subs (stmt_updateOne id' f t).2 !! id = Some r' /\
    (r' = r \/ id' = id /\ r' = { f r with UpdatedAt := clock t }).
Proof.
  intros Hr. unfold stmt_updateOne. destruct (subs t !! id') as [r0|] eqn:E; [|by eauto].
  destruct (negb _); [by eauto|]. destruct (_ && _); [by eauto|]. simpl.
  destruct (decide (id' = id)) as [->|Hne]; [|rewrite lookup_insert_ne by done; by eauto].
  rewrite Hr in E. injection E as <-. rewrite lookup_insert_eq. eauto.
Qed.
Lemma updateWhere_row id' cond f t r :
  subs t !! id = Some r ->
  exists r', subs (stmt_updateWhere id' cond f t).2 !! id = Some r' /\
    (r' = r /\ (id' = id -> (stmt_updateWhere id' cond f t).1 = Ok 0) \/
     id' = id /\ cond r = true /\ (stmt_updateWhere id' cond f t).1 = Ok 1 /\ r' = { f r with UpdatedAt := clock t }).
Proof.
  intros Hr. unfold stmt_updateWhere. destruct (subs t !! id') as [r0|] eqn:E; [|by eauto 6].
  destruct (decide (id' = id)) as [->|Hne].
  - rewrite Hr in E. injection E as <-. destruct (cond r) eqn:Ec; [|by eauto 6].
    simpl. rewrite lookup_insert_eq. eauto 10.
  - exists r. split; [|by left]. destruct (cond r0); simpl; [by rewrite lookup_insert_ne|done].
Qed.
Lemma increment_row cost id' t r :
  subs t !! id = Some r ->
  exists r', subs (stmt_increment cost id' t).2 !! id = Some r' /\
    (r' = r /\ recorded (OpIncrement cost id') t = [] \/
     id' = id /\ r' = { addUsage (toNumeric cost) r with UpdatedAt := clock t } /\
     recorded (OpIncrement cost id') t = [(windowStart k r, toNumeric cost)]).
Proof.
  intros Hr. unfold recorded, stmt_increment. destruct (subs t !! id') as [r0|] eqn:E; [|exists r; split; [done|by left]].
  destruct (_ || _); [exists r; split; [done|by left]|]. destruct (negb _); [exists r; split; [done|by left]|]. simpl.
  destruct (decide (id' = id)) as [->|Hne].
  - rewrite Hr in E. injection E as <-. rewrite lookup_insert_eq, Z.eqb_refl. eauto 6.
  - exists r. rewrite lookup_insert_ne by done. rewrite (proj2 (Z.eqb_neq id' id)) by done. auto.
Qed.
Lemma create_row sub t r : table_ok t -> subs t !! id = Some r -> subs (stmt_create sub t).2 !! id = Some r.
Proof.
  intros Hok Hr. unfold stmt_create. destruct (negb _); [done|]. destruct (liveRows _ _); [|done]. simpl.
  rewrite lookup_insert_ne; [done|]. destruct (ok_id _ Hok _ _ Hr). lia.
Qed.

(** What a statement does to the window [k] of a row: it keeps the start and
    adds what it records, or opens a fresh window in place of [w]. *)
Definition stepped (o : op) (t : table) (r r' : UserSubscription Z) (w : time) : Prop :=
  windowStart k r' = Some w /\ advanced o t = 0 /\ Forall (fun e => e.1 = Some w) (recorded o t) /\
    windowUsage k r' = windowUsage k r + costsIn (Some w) (recorded o t) \/
  exists w', o = OpReset k id (Some w) w' /\ windowStart k r' = Some w' /\ windowUsage k r' = 0 /\
    recorded o t = [] /\ advanced o t = 1.

Lemma stepped_same o t r r' w :
  windowStart k r = Some w -> sameWindow r r' -> recorded o t = [] -> advanced o t = 0 -> stepped o t r r' w.
Proof.
  intros Hw [H1 H2] Hrec Hadv. left. rewrite Hrec, H1, H2. repeat split; [done|done|constructor|].
  unfold costsIn. simpl. lia.
Qed.
Lemma step_updateOne o id' f t r w :
  subs t !! id = Some r -> windowStart k r = Some w -> recorded o t = [] -> advanced o t = 0 ->
  (id' = id -> sameWindow r (f r)) -> apply_op o t = (stmt_updateOne id' f t).2 ->
  exists r', subs (apply_op o t) !! id = Some r' /\ stepped o t r r' w.
Proof.
  intros Hr Hw Hrec Hadv Hf ->. destruct (updateOne_row id' f t r Hr) as (r' & Hr' & [->|[-> ->]]).
  - exists r. split; [done|]. by apply stepped_same.
  - eexists. split; [exact Hr'|]. apply stepped_same; [done| |done|done].
    unfold sameWindow. destruct (Hf eq_refl) as [<- <-]. by destruct k.
Qed.
Lemma step_updateWhere o id' cond f t r w :
  subs t !! id = Some r -> windowStart k r = Some w -> recorded o t = [] -> advanced o t = 0 ->
  (id' = id -> cond r = true -> sameWindow r (f r)) -> apply_op o t = (stmt_updateWhere id' cond f t).2 ->
  exists r', subs (apply_op o t) !! id = Some r' /\ stepped o t r r' w.
Proof.
  intros Hr Hw Hrec Hadv Hf ->. destruct (updateWhere_row id' cond f t r Hr) as (r' & Hr' & [[-> _]|(-> & Hc & _ & ->)]).
  - exists r. split; [done|]. by apply stepped_same.
  - eexists. split; [exact Hr'|]. apply stepped_same; [done| |done|done].
    unfold sameWindow. destruct (Hf eq_refl Hc) as [<- <-]. by destruct k.
Qed.
Lemma step_reset k' id' expected start t r w :
  subs t !! id = Some r -> windowStart k r = Some w ->
  exists r', subs (stmt_reset k' id' expected start t).2 !! id = Some r' /\
    stepped (OpReset k' id' expected start) t r r' w.
Proof.
  intros Hr Hw. destruct (updateWhere_row id' (startIs k' expected) (freshWindow k' start) t r Hr)
    as (r' & Hr' & [[-> H0]|(-> & Hc & H1 & ->)]); (eexists; split; [exact Hr'|]).
  - apply stepped_same; [done|done|done|]. simpl. unfold stmt_reset.
    destruct (decide (id' = id)) as [->|Hne]; [rewrite H0 by done; by destruct (_ && _)|].
    rewrite (proj2 (Z.eqb_neq id' id)), andb_false_r by done. by destruct (stmt_updateWhere _ _ _ _) as [[] ?].
  - assert (Hadv : advanced (OpReset k' id expected start) t = if bool_decide (k' = k) then 1 else 0)
      by (simpl; unfold stmt_reset; rewrite H1, Z.eqb_refl; by case_bool_decide).
    case_bool_decide as Hk; [|apply stepped_same; [done|unfold sameWindow; by destruct k, k'; try congruence|done|done]].
    subst k'. right. exists start. unfold startIs in Hc. apply bool_decide_eq_true in Hc. rewrite Hw in Hc. subst expected.
    by destruct k.
Qed.
Lemma step_batchExpire t r w :
  subs t !! id = Some r -> windowStart k r = Some w ->
  exists r', subs (apply_op OpBatchExpire t) !! id = Some r' /\ stepped OpBatchExpire t r r' w.
Proof.
  intros Hr Hw. exists (expireRow (clock t) r). simpl. rewrite lookup_fmap, Hr. split; [done|].
  apply stepped_same; [done| |done|done]. unfold expireRow, sameWindow. destruct (overdue _ _); by destruct k.
Qed.
Lemma step_increment cost id' t r w :
  subs t !! id = Some r -> windowStart k r = Some w ->
  exists r', subs (apply_op (OpIncrement cost id') t) !! id = Some r' /\ stepped (OpIncrement cost id') t r r' w.
Proof.
  intros Hr Hw. destruct (increment_row cost id' t r Hr) as (r' & Hr' & [[-> Hrec]|(-> & -> & Hrec)]);
    (eexists; split; [exact Hr'|]).
  - by apply stepped_same.
  - left. rewrite Hrec, Hw. repeat split; [by destruct k|by repeat constructor|].
    unfold costsIn. rewrite filter_cons_True by done. destruct k; simpl; lia.
Qed.

Lemma step_row o t r w :
  table_ok t -> subs t !! id = Some r -> windowStart k r = Some w -> quota_op o ->
  exists r', subs (apply_op o t) !! id = Some r' /\ stepped o t r r' w.
Proof.
  intros Hok Hr Hw Hq. destruct o;
    try (eapply step_updateOne; [done..| |reflexivity]; solve [intros; unfold sameWindow; by destruct k|intros; by destruct Hq]).
  - exists r. split; [by apply create_row|by apply stepped_same].
  - eapply step_updateWhere; [done..| |reflexivity]. intros. unfold sameWindow. by destruct k.
  - by apply step_reset.
  - eapply step_updateWhere; [done..| |reflexivity]. intros _ Hn. unfold IsWindowActivated in Hn.
    destruct k; simpl in Hw; rewrite Hw in Hn; simpl in Hn; destruct (DailyWindowStart r), (WeeklyWindowStart r); done.
  - by apply step_increment.
  - by apply step_batchExpire.
  - exists r. split; [done|by apply stepped_same].
Qed.

Lemma costsIn_app start l1 l2 : costsIn start (l1 ++ l2) = costsIn start l1 + costsIn start l2.
Proof. unfold costsIn. rewrite filter_app. induction (filter _ l1); simpl; lia. Qed.
Lemma costsIn_other w w' led : w <> w' -> Forall (fun e => e.1 = Some w) led -> costsIn (Some w') led = 0.
Proof.
  intros Hne H. unfold costsIn. induction H as [|e led He _ IH]; [done|].
  rewrite filter_cons_False; [done|congruence].
Qed.
Lemma run_cons o os t : run (o :: os) t =
  let '(t', led, n) := run os (apply_op o t) in (t', recorded o t ++ led, advanced o t + n).
Proof. done. Qed.

(** The term of the row under the statements that do not change it. *)
Lemma term_updateOne id' f t r :
  subs t !! id = Some r -> (id' = id -> sameTerm r (f r)) ->
  exists r', subs (stmt_updateOne id' f t).2 !! id = Some r' /\ sameTerm r r'.
Proof.
  intros Hr Hf. destruct (updateOne_row id' f t r Hr) as (r' & Hr' & [->|[-> ->]]); (eexists; split; [exact Hr'|]); [done|by apply Hf].
Qed.
Lemma term_updateWhere id' cond f t r :
  subs t !! id = Some r -> sameTerm r (f r) ->
  exists r', subs (stmt_updateWhere id' cond f t).2 !! id = Some r' /\ sameTerm r r'.
Proof.
  intros Hr Hf. destruct (updateWhere_row id' cond f t r Hr) as (r' & Hr' & [[-> _]|(-> & _ & _ & ->)]);
    (eexists; split; [exact Hr'|]); [done|by apply Hf].
Qed.
Lemma step_term starts expires o t r :
  table_ok t -> subs t !! id = Some r -> term_op starts expires o ->
  exists r', subs (apply_op o t) !! id = Some r' /\ sameTerm r r'.
Proof.
  intros Hok Hr Hq. destruct o; simpl;
    try (apply term_updateOne; [done|solve [done|intros; by destruct Hq]]);
    try (apply term_updateWhere; [done|done]).
  - exists r. split; [by apply create_row|done].
  - apply term_updateWhere; [done|by destruct k0].
  - destruct (increment_row cost id0 t r Hr) as (r' & Hr' & [[-> _]|(_ & -> & _)]); by eexists.
  - exists (expireRow (clock t) r). rewrite lookup_fmap, Hr. split; [done|]. unfold expireRow. by destruct (overdue _ _).
  - by exists r.
Qed.

(** A fresh window ranks above the one it replaces. *)
Lemma reset_rank w w' :
  (k = Daily -> has_midnights zoneOffset) -> quota_op (OpReset k id (Some w) w') ->
  windowRank zoneOffset k w < windowRank zoneOffset k w'.
Proof.
  intros Hz Hq. destruct (Hq eq_refl) as (snap & now & Hs & Ha).
  apply automaticStart_advances in Ha as (p & Hp & Hlt); [congruence|intros Ek; by apply Hz].
Qed.

Lemma run_counts os t r w :
  (k = Daily -> has_midnights zoneOffset) -> table_ok t -> subs t !! id = Some r -> windowStart k r = Some w -> Forall quota_op os ->
  let '(t', led, _) := run os t in
  exists r' w', subs t' !! id = Some r' /\ windowStart k r' = Some w' /\
    windowRank zoneOffset k w <= windowRank zoneOffset k w' /\
    windowUsage k r' = (if w' =? w then windowUsage k r else 0) + costsIn (Some w') led.
Proof.
  intros Hz Hok Hr Hw H. revert t r w Hok Hr Hw. induction H as [|o os Ho _ IH]; intros t r w Hok Hr Hw.
  - exists r, w. rewrite Z.eqb_refl. unfold costsIn. simpl. repeat split; [done..|lia|lia].
  - rewrite run_cons. destruct (step_row o t r w Hok Hr Hw Ho) as (r1 & Hr1 & Hst).
    assert (Hw1 : exists w1, windowStart k r1 = Some w1) by (destruct Hst as [[E _]|(w1 & _ & E & _)]; eauto).
    destruct Hw1 as [w1 Hw1]. specialize (IH (apply_op o t) r1 w1 (subs_ok_apply o t Hok) Hr1 Hw1).
    destruct (run os (apply_op o t)) as [[t' led] n]. destruct IH as (r' & w' & Hr' & Hw' & Hle & Hu).
    exists r', w'. split; [done|]. split; [done|]. rewrite Hu, costsIn_app.
    destruct Hst as [(E & _ & Hrec & Hu1)|(w2 & -> & E & Hu1 & -> & _)]; rewrite Hw1 in E; injection E as <-.
    + split; [done|]. destruct (Z.eqb_spec w' w1) as [->|Hne]; [lia|].
      rewrite (costsIn_other _ _ _ (not_eq_sym Hne) Hrec). lia.
    + pose proof (reset_rank _ _ Hz Ho). split; [lia|]. unfold costsIn at 2. simpl.
      replace (w' =? w) with false; [destruct (w' =? w1); lia|]. symmetry. apply Z.eqb_neq. intros ->. lia.
Qed.
End Quota.

(** ** Properties *)

Section Properties.
Context {num : Numeric}.

(** A user has at most one live subscription of a group.  In every table
    the statements reach, in any order and with any arguments, the live rows
    have distinct pairs of user and group, so [GetByUserIDAndGroupID] is never
    ambiguous; ids are unique and below the sequence. *)
Theorem one_live_subscription g t key :
  reachable g t -> table_ok t /\ (length (liveRows key (subs t)) <= 1)%nat.
Proof.
  intros H. assert (Hok : table_ok t).
  { unfold reachable in H. apply (rtc_ind_r (fun t => table_ok t) (empty_table g)) in H; [done| |].
    - split; simpl; [intros i r; by rewrite lookup_empty|intros i j r s; by rewrite lookup_empty|lia].
    - intros x y _ [o ->] Hx. by apply subs_ok_apply. }
  split; [done|]. destruct (liveRows key (subs t)) as [|[i r] l] eqn:E; simpl; [lia|].
  assert (Hi : (i, r) ∈ liveRows key (subs t)) by (rewrite E; left).
  apply liveRows_spec in Hi as (Hi & Hk & Hl). rewrite <- Hk, (liveRows_one t i r Hok Hi Hl) in E. injection E as <-. simpl. lia.
Qed.

(** C30: no usage is lost and none is counted twice.  Whatever statements the
    processes issue between two renewals or manual resets, on whatever stale
    readings of the row, the usage counter of a window is the sum of exactly
    the costs recorded since that window began.  For the daily window this needs
    a zone whose days all have a midnight; in a zone where daylight saving time
    skips one the daily counter is reset by every request of that day
    ([SubscriptionService.midnight_gap_unlimited]). *)
Theorem usage_counts_window zoneOffset k id os t r w :
  (k = Daily -> has_midnights zoneOffset) -> table_ok t -> subs t !! id = Some r -> windowStart k r = Some w ->
  Forall (quota_op zoneOffset id) os ->
  let '(t', led, _) := run k id os t in
  exists r' w', subs t' !! id = Some r' /\ windowStart k r' = Some w' /\
    windowUsage k r' = (if w' =? w then windowUsage k r else 0) + costsIn (Some w') led.
Proof.
  intros Hz Hok Hr Hw H. pose proof (run_counts zoneOffset k id os t r w Hz Hok Hr Hw H) as K.
  destruct (run k id os t) as [[t' led] n]. destruct K as (r' & w' & H1 & H2 & _ & H3). eauto.
Qed.

(** C31: a term grants its weekly and monthly quota once per period.  However
    many processes advance the window of a subscription, the number of fresh
    windows they open stays below the number of periods that begin before the
    end of the term: with the first window the quota is granted at most once
    for every period begun. *)
Theorem quota_grants_bounded zoneOffset k id os t r w :
  k <> Daily -> table_ok t -> subs t !! id = Some r -> windowStart k r = Some w ->
  Forall (term_op zoneOffset id (StartsAt r) (ExpiresAt r)) os ->
  let '(_, _, n) := run k id os t in
  0 <= n /\ (0 < n -> anchorOf zoneOffset r w + n * period k < ExpiresAt r).
Proof.
  intros Hk Hok Hr Hw H. revert t r w Hok Hr Hw H. induction os as [|o os IH]; intros t r w Hok Hr Hw H.
  - simpl. lia.
  - inversion H as [|?? Ho Hos]. subst. rewrite run_cons.
    destruct (step_row zoneOffset k id o t r w Hok Hr Hw) as (r1 & Hr1 & Hst); [by eapply term_quota|].
    destruct (step_term zoneOffset k id _ _ o t r Hok Hr Ho) as (r1' & Hr1' & Hs & He). rewrite Hr1 in Hr1'. injection Hr1' as <-.
    assert (Hw1 : exists w1, windowStart k r1 = Some w1) by (destruct Hst as [[E _]|(w1 & _ & E & _)]; eauto).
    destruct Hw1 as [w1 Hw1]. rewrite <- Hs, <- He in Hos.
    specialize (IH (apply_op o t) r1 w1 (subs_ok_apply o t Hok) Hr1 Hw1 Hos).
    destruct (run k id os (apply_op o t)) as [[t' led] n]. rewrite He in IH.
    rewrite (anchorOf_term _ r1 r w1 Hs) in IH.
    destruct Hst as [(E & -> & _)|(w2 & -> & E & _ & _ & ->)]; rewrite Hw1 in E; injection E as <-.
    + lia.
    + destruct (Ho eq_refl) as (snap & now & Es & Ee & Ew & Hauto).
      apply (automaticStart_periodic zoneOffset k snap now w) in Hauto; [|done..].
      rewrite (anchorOf_term _ snap r w Es), Ee in Hauto. pose proof (anchorOf_ge zoneOffset r w1).
      split; [lia|]. intros _. destruct (Z.eq_dec n 0); [subst n|]; lia.
Qed.
End Properties.

(** ** Scenarios *)

(** A driver that converts a [float64] to [10^-10] USD by rounding down, and
    back by a division. *)
Definition scale : Z := 10 ^ 10.
Definition floorFloat (f : float64) : Z :=
  match f with
  | S754_finite sign m e => (if sign then Z.opp else id) (Z.shiftl (Z.pos m * scale) e)
  | _ => 0
  end.
Definition decimalDriver : Numeric := {|
  toNumeric := floorFloat;
  fromNumeric z := SFdiv 53 1024 (float_of_Z z) (float_of_Z scale);
  toNumeric_zero := eq_refl;
  fromNumeric_zero := eq_refl |}.
#[local] Existing Instance decimalDriver.

Definition demoGroup : Group := mkGroup SubscriptionTypeSubscription (Some (float_of_Z 5)) (Some (float_of_Z 20)) None.
Definition demoTable : table := mkTable {[1 := demoTerm]} 2 {[3 := demoGroup]} demoStart.
(** Two processes read the row on the ninth day; both reset the weekly window. *)
Definition demoReset : op := OpReset Weekly 1 (Some demoStart) (demoStart + 7 * Day).
Definition demoOps : list op :=
  [OpIncrement (float_of_Z 3) 1; demoReset; OpIncrement (float_of_Z 4) 1; demoReset; OpIncrement (float_of_Z 5) 1].

Lemma demoTable_ok : table_ok demoTable.
Proof.
  split; simpl; [| |done].
  - intros i r [<- <-]%lookup_singleton_Some. done.
  - intros i j r s [<- <-]%lookup_singleton_Some [<- <-]%lookup_singleton_Some. done.
Qed.
Lemma demoOps_term : Forall (term_op utcZone 1 (StartsAt demoTerm) (ExpiresAt demoTerm)) demoOps.
Proof.
  repeat constructor; intros _; exists (mapAmounts fromNumeric demoTerm), (demoStart + 8 * Day); repeat split; by vm_compute.
Qed.
Lemma demoOps_quota : Forall (quota_op utcZone 1) demoOps.
Proof. apply (Forall_impl _ _ _ demoOps_term). intros o. apply term_quota. Qed.
Lemma utcZone_midnights : has_midnights utcZone.
Proof. apply (fixed_has_midnights 0). Qed.

Lemma one_live_subscription_witness :
  (length (liveRows (7, 3)%Z (subs (apply_op (OpCreate (mapAmounts fromNumeric demoTerm)) (empty_table ∅)))) <= 1)%nat.
Proof.
  refine (proj2 (one_live_subscription ∅ (apply_op (OpCreate (mapAmounts fromNumeric demoTerm)) (empty_table ∅)) (7, 3)%Z _)).
  apply rtc_once. eexists. reflexivity.
Defined.
Lemma usage_counts_window_witness :
  let '(t', led, _) := run Weekly 1 demoOps demoTable in
  WeeklyUsageUSD <$> subs t' !! 1 = Some (9 * scale) /\
  exists r' w', subs t' !! 1 = Some r' /\ WeeklyWindowStart r' = Some w' /\
    WeeklyUsageUSD r' = (if w' =? demoStart then WeeklyUsageUSD demoTerm else 0) + costsIn (Some w') led.
Proof.
  pose proof (usage_counts_window utcZone Weekly 1 demoOps demoTable demoTerm demoStart (fun _ => utcZone_midnights) demoTable_ok
    eq_refl eq_refl demoOps_quota) as H.
  destruct (run Weekly 1 demoOps demoTable) as [[t' led] n] eqn:E. split; [|exact H].
  vm_compute in E. injection E as <- _ _. reflexivity.
Defined.
Lemma quota_grants_bounded_witness :
  let '(_, _, n) := run Weekly 1 demoOps demoTable in n = 1 /\ demoStart + n * (7 * Day) < demoStart + 30 * Day.
Proof.
  pose proof (quota_grants_bounded utcZone Weekly 1 demoOps demoTable demoTerm demoStart (ltac:(discriminate)) demoTable_ok
    eq_refl eq_refl demoOps_term) as H.
  destruct (run Weekly 1 demoOps demoTable) as [[t' led] n] eqn:E.
  assert (Hn : n = 1) by (vm_compute in E; injection E as _ _ <-; reflexivity).
  split; [exact Hn|]. exact (proj2 H ltac:(rewrite Hn; reflexivity)).
Defined.
