(* ===== verification/SubscriptionService.v ===== *)
(** * The subscription service

    [service/subscription_service.go]: assigning, renewing, extending, revoking
    and restoring subscriptions, the maintenance of their usage windows, and
    the branch of [server/middleware/api_key_auth.go] that admits a request of
    a subscriber.  The clock readings are arguments, in the order in which the
    code takes them.  The in-process cache of subscriptions and the metrics are
    not modelled; the calls to the billing cache whose errors are returned are
    arguments. *)

From S2P Require Import Prelude Float64 Errors Subscription SubscriptionRepo.

Definition MaxExpiresAt : time := (62135596800 + 4102444799) * Second.
Definition MaxValidityDays : Z := 36500.
Definition ErrSubscriptionExpired := Forbidden "SUBSCRIPTION_EXPIRED" "subscription has expired".
Definition ErrSubscriptionSuspended := Forbidden "SUBSCRIPTION_SUSPENDED" "subscription is suspended".
Definition ErrSubscriptionAssignConflict := Conflict "SUBSCRIPTION_ASSIGN_CONFLICT" "subscription exists but request conflicts with existing assignment semantics".
Definition ErrSubscriptionNotRevoked := Conflict "SUBSCRIPTION_NOT_REVOKED" "subscription is not revoked".
Definition ErrGroupNotSubscriptionType := BadRequest "GROUP_NOT_SUBSCRIPTION_TYPE" "group is not a subscription type".
Definition ErrInvalidInput := BadRequest "INVALID_INPUT" "at least one of resetDaily, resetWeekly, or resetMonthly must be true".
Definition ErrDailyLimitExceeded := TooManyRequests "DAILY_LIMIT_EXCEEDED" "daily usage limit exceeded".
Definition ErrWeeklyLimitExceeded := TooManyRequests "WEEKLY_LIMIT_EXCEEDED" "weekly usage limit exceeded".
Definition ErrMonthlyLimitExceeded := TooManyRequests "MONTHLY_LIMIT_EXCEEDED" "monthly usage limit exceeded".
Definition ErrSubscriptionNilInput := BadRequest "SUBSCRIPTION_NIL_INPUT" "subscription input cannot be nil".
Definition ErrAdjustWouldExpire := BadRequest "ADJUST_WOULD_EXPIRE" "adjustment would result in expired subscription (remaining days must be > 0)".
Definition ErrCannotShortenExpired := BadRequest "CANNOT_SHORTEN_EXPIRED" "cannot shorten an expired subscription".
Definition ErrGroupNotFound := NotFound "GROUP_NOT_FOUND" "group not found".

Record AssignSubscriptionInput := mkInput {
  in_UserID : Z; in_GroupID : Z; ValidityDays : Z; in_AssignedBy : Z; in_Notes : string }.

(** ** Pure parts *)

Definition normalizeAssignValidityDays (days : Z) : Z :=
  let days := if days <=? 0 then 30 else days in
  if MaxValidityDays <? days then MaxValidityDays else days.
Definition capExpiry (expiresAt : time) : time := if After expiresAt MaxExpiresAt then MaxExpiresAt else expiresAt.
Definition appendSubscriptionNotes (existingNotes newNotes : string) : string :=
  if String.eqb newNotes "" then existingNotes
  else if String.eqb existingNotes "" then newNotes
  else existingNotes +:+ String (byte 10) newNotes.

Definition CheckUsageLimits (sub : UserSubscription float64) (group : Group) (additionalCost : float64) : option goerror :=
  if negb (CheckDailyLimit sub group additionalCost) then Some (AppErr ErrDailyLimitExceeded)
  else if negb (CheckWeeklyLimit sub group additionalCost) then Some (AppErr ErrWeeklyLimitExceeded)
  else if negb (CheckMonthlyLimit sub group additionalCost) then Some (AppErr ErrMonthlyLimitExceeded)
  else None.

Section Pure.
Context (zoneOffset : time -> duration).

Definition renewedSubscriptionTerm (existingSub : UserSubscription float64) (notes : string) (startsAt expiresAt : time)
  : UserSubscription float64 :=
  { existingSub with
      StartsAt := startsAt; ExpiresAt := expiresAt; sub_Status := SubscriptionStatusActive;
      DailyWindowStart := Some (StartOfDay zoneOffset startsAt);
      WeeklyWindowStart := Some startsAt; MonthlyWindowStart := Some startsAt;
      DailyUsageUSD := fzero; WeeklyUsageUSD := fzero; MonthlyUsageUSD := fzero;
      Notes := appendSubscriptionNotes (Notes existingSub) notes }.

Definition detectAssignSemanticConflict (existing : UserSubscription float64) (input : AssignSubscriptionInput) : option string :=
  let normalizedDays := normalizeAssignValidityDays (ValidityDays input) in
  if negb (IsZero (StartsAt existing)) &&
     negb (ExpiresAt existing =? capExpiry (AddDays zoneOffset (StartsAt existing) normalizedDays))
  then Some "validity_days_mismatch"
  else if negb (String.eqb (TrimSpace (Notes existing)) (TrimSpace (in_Notes input))) then Some "notes_mismatch"
  else None.

(** One window of [normalizeExpiredWindowsAt]. *)
Definition clearExpired (k : window) (now : time) (sub : UserSubscription float64) : UserSubscription float64 :=
  match automaticStart zoneOffset k sub now with
  | Some _ => setUsage k fzero (setWindowStart k None sub)
  | None => sub
  end.
Definition normalizeExpiredWindowsAt (subs : list (UserSubscription float64)) (now : time) : list (UserSubscription float64) :=
  map (fun sub => clearExpired Monthly now (clearExpired Weekly now (clearExpired Daily now sub))) subs.
Definition normalizeSubscriptionStatus (subs : list (UserSubscription float64)) (now : time) : list (UserSubscription float64) :=
  map (fun sub => if String.eqb (sub_Status sub) SubscriptionStatusActive && negb (After (ExpiresAt sub) now)
                  then { sub with sub_Status := SubscriptionStatusExpired } else sub) subs.

(** The usage of a window that has passed counts as zero. *)
Definition zeroExpired (k : window) (now : time) (sub : UserSubscription float64) : UserSubscription float64 :=
  match automaticStart zoneOffset k sub now with Some _ => setUsage k fzero sub | None => sub end.
Definition isSome {A} (o : option A) : bool := match o with Some _ => true | None => false end.
Definition ValidateAndCheckLimits (group : Group) (now : time) : ST (UserSubscription float64) (bool * option goerror) := fun sub =>
  if String.eqb (sub_Status sub) SubscriptionStatusExpired then ((false, Some (AppErr ErrSubscriptionExpired)), sub)
  else if String.eqb (sub_Status sub) SubscriptionStatusSuspended then ((false, Some (AppErr ErrSubscriptionSuspended)), sub)
  else if negb (After (ExpiresAt sub) now) then ((false, Some (AppErr ErrSubscriptionExpired)), sub)
  else
    let needsMaintenance :=
      canAutomaticallyResetDailyAt zoneOffset sub now || canAutomaticallyResetWeeklyAt zoneOffset sub now ||
      canAutomaticallyResetMonthlyAt zoneOffset sub now || negb (IsWindowActivated sub) in
    let sub := zeroExpired Monthly now (zeroExpired Weekly now (zeroExpired Daily now sub)) in
    ((needsMaintenance, CheckUsageLimits sub group fzero), sub).
End Pure.

(** ** Operations over the repository *)

Section Service.
Context {num : Numeric} (zoneOffset : time -> duration).
Local Abbreviation world := (table * list fault)%type.
Local Abbreviation method A := (ST world (result goerror A)).

(** [groupRepo.GetByID], as far as the group's own row. *)
Definition groupByID (id : Z) : method Group :=
  call (Some ErrGroupNotFound) None (fun t => (match groups t !! id with Some g => Ok g | None => Err NotFoundError end, t)).

(** *** Windows *)

Definition checkAndActivateWindowAt (sub : UserSubscription float64) (now : time) : method unit :=
  if IsWindowActivated sub then mret (Ok tt)
  else ActivateWindows (sub_ID sub) (StartOfDay zoneOffset now) now.

(** One block of [CheckAndResetWindows]; the subscription is updated in place. *)
Definition resetUsage (k : window) : Z -> option time -> time -> method unit :=
  match k with Daily => ResetDailyUsage | Weekly => ResetWeeklyUsage | Monthly => ResetMonthlyUsage end.
Definition checkAndReset (k : window) (now : time) (sub : UserSubscription float64) : method (UserSubscription float64) :=
  match automaticStart zoneOffset k sub now with
  | None => mret (Ok sub)
  | Some start =>
      _ ←? resetUsage k (sub_ID sub) (windowStart k sub) start;
      mret (Ok (setUsage k fzero (setWindowStart k (Some start) sub)))
  end.
Definition CheckAndResetWindows (sub : UserSubscription float64) (now : time) : method (UserSubscription float64) :=
  sub ←? checkAndReset Daily now sub;
  sub ←? checkAndReset Weekly now sub;
  checkAndReset Monthly now sub.
Definition EnsureWindowMaintenance (sub : option (UserSubscription float64)) (now1 now2 : time) : method (UserSubscription float64) :=
  match sub with
  | None => mret (Err (AppErr ErrSubscriptionNilInput))
  | Some sub =>
      _ ←? checkAndActivateWindowAt sub now1;
      _ ←? CheckAndResetWindows sub now2;
      GetByID (sub_ID sub)
  end.
(** The background variant logs the errors. *)
Definition doWindowMaintenance (sub : UserSubscription float64) (now1 now2 : time) : ST world unit :=
  _ ← checkAndActivateWindowAt sub now1;
  _ ← CheckAndResetWindows sub now2;
  mret tt.
Definition AdminResetQuota (id : Z) (resetDaily resetWeekly resetMonthly : bool) (now : time) : method (UserSubscription float64) :=
  if negb resetDaily && negb resetWeekly && negb resetMonthly then mret (Err (AppErr ErrInvalidInput))
  else
    sub ←? GetByID id;
    _ ←? ResetUsageWindows (sub_ID sub) resetDaily resetWeekly resetMonthly (StartOfDay zoneOffset now) now;
    GetByID id.
Definition RecordUsage (id : Z) (costUSD : float64) : method unit := IncrementUsage id costUSD.
Definition ValidateSubscription (sub : UserSubscription float64) (now : time) : method unit :=
  if String.eqb (sub_Status sub) SubscriptionStatusExpired then mret (Err (AppErr ErrSubscriptionExpired))
  else if String.eqb (sub_Status sub) SubscriptionStatusSuspended then mret (Err (AppErr ErrSubscriptionSuspended))
  else if IsExpired sub now then
    _ ← UpdateStatus (sub_ID sub) SubscriptionStatusExpired; mret (Err (AppErr ErrSubscriptionExpired))
  else mret (Ok tt).

(** *** The branch of the middleware for subscribers: what aborts the request,
    or the subscription it goes on with. *)
Inductive refusal := MaintenanceFailed | SubscriptionInvalid (e : goerror) | UsageLimitExceeded (e : goerror).
Definition refuse (e : goerror) : refusal :=
  if errors_Is e (AppErr ErrDailyLimitExceeded) || errors_Is e (AppErr ErrWeeklyLimitExceeded) ||
     errors_Is e (AppErr ErrMonthlyLimitExceeded)
  then UsageLimitExceeded e else SubscriptionInvalid e.
Definition refusalStatus (r : refusal) : Z :=
  match r with MaintenanceFailed => 500 | SubscriptionInvalid _ => 403 | UsageLimitExceeded _ => 429 end.
(** [now0] and [now3] are read by the two checks, [now1] and [now2] by the
    maintenance between them. *)
Definition admitSubscriber (group : Group) (subscription : UserSubscription float64) (now0 now1 now2 now3 : time)
  : ST world (result refusal (UserSubscription float64)) :=
  let '((needsMaintenance, validateErr), subscription) := ValidateAndCheckLimits zoneOffset group now0 subscription in
  if needsMaintenance then
    r ← EnsureWindowMaintenance (Some subscription) now1 now2;
    match r with
    | Err _ => mret (Err MaintenanceFailed)
    | Ok refreshed =>
        let '((_, validateErr), subscription) := ValidateAndCheckLimits zoneOffset group now3 refreshed in
        mret (match validateErr with Some e => Err (refuse e) | None => Ok subscription end)
    end
  else mret (match validateErr with Some e => Err (refuse e) | None => Ok subscription end).

(** *** Terms *)

(** BEGIN, the body, COMMIT or ROLLBACK.  [own] tells whether the call opens the
    transaction or runs in that of its caller. *)
Definition withSubscriptionUpdateTx (own : bool) (fn : method unit) : method unit := fun w =>
  if negb own then fn w
  else
    let '(b, w1) := remote (fun t => (tt, t)) w in
    match b with
    | Err e => (Err (WrapErr "begin transaction" e), w1)
    | Ok _ =>
        let '(r, (t2, fs2)) := fn w1 in
        match r with
        | Err e => (Err e, (w1.1, fs2))
        | Ok _ => wrapErr "commit transaction" (remote (fun _ => (tt, t2))) (w1.1, fs2)
        end
    end.

(** The body of the transaction: the row is locked from its reading on. *)
Definition updateLockedTerm (subscriptionID validityDays : Z) (notes : string) (assignmentSemantics : bool) (now : time) : method unit :=
  existingSub ←? wrapErr "lock subscription for renewal" (GetByIDForUpdate subscriptionID);
  if assignmentSemantics && String.eqb (sub_Status existingSub) SubscriptionStatusSuspended then mret (Ok tt)
  else
    let isExpired :=
      if assignmentSemantics
      then String.eqb (sub_Status existingSub) SubscriptionStatusExpired ||
           (negb (String.eqb (sub_Status existingSub) SubscriptionStatusSuspended) && negb (After (ExpiresAt existingSub) now))
      else negb (After (ExpiresAt existingSub) now) in
    let newExpiresAt := capExpiry (AddDays zoneOffset (if isExpired then now else ExpiresAt existingSub) validityDays) in
    let notes := if assignmentSemantics && String.eqb (TrimSpace (Notes existingSub)) (TrimSpace notes) then "" else notes in
    if isExpired then
      _ ←? wrapErr "renew expired subscription" (Update (renewedSubscriptionTerm zoneOffset existingSub notes now newExpiresAt));
      mret (Ok tt)
    else
      _ ←? wrapErr "extend subscription" (ExtendExpiry (sub_ID existingSub) newExpiresAt);
      _ ←? (if negb (String.eqb (sub_Status existingSub) SubscriptionStatusActive)
            then wrapErr "update subscription status" (UpdateStatus (sub_ID existingSub) SubscriptionStatusActive)
            else mret (Ok tt));
      if negb (String.eqb notes "")
      then wrapErr "update subscription notes" (UpdateNotes (sub_ID existingSub) (appendSubscriptionNotes (Notes existingSub) notes))
      else mret (Ok tt).
Definition updateExistingSubscriptionTerm (own : bool) (subscriptionID validityDays : Z) (notes : string)
  (assignmentSemantics : bool) (now : time) : method unit :=
  withSubscriptionUpdateTx own (updateLockedTerm subscriptionID validityDays notes assignmentSemantics now).

Definition createSubscription (input : AssignSubscriptionInput) (now : time) : method (UserSubscription float64) :=
  let expiresAt := capExpiry (AddDays zoneOffset now (normalizeAssignValidityDays (ValidityDays input))) in
  sub ←? Create (mkSub 0 (in_UserID input) (in_GroupID input) now expiresAt SubscriptionStatusActive None None None
                  fzero fzero fzero (if 0 <? in_AssignedBy input then Some (in_AssignedBy input) else None)
                  now (in_Notes input) now now None);
  GetByID (sub_ID sub).

(** The flag tells a renewal from a new subscription. *)
Definition assignOrExtendSubscription (own : bool) (input : AssignSubscriptionInput) (now : time)
  : method (UserSubscription float64 * bool) :=
  group ←? wrapErr "group not found" (groupByID (in_GroupID input));
  if negb (IsSubscriptionType group) then mret (Err (AppErr ErrGroupNotSubscriptionType))
  else
    existing ← GetByUserIDAndGroupID (in_UserID input) (in_GroupID input);
    match existing with
    | Ok existingSub =>
        _ ←? updateExistingSubscriptionTerm own (sub_ID existingSub) (normalizeAssignValidityDays (ValidityDays input)) (in_Notes input) false now;
        sub ←? GetByID (sub_ID existingSub);
        mret (Ok (sub, true))
    | Err _ =>
        sub ←? createSubscription input now;
        mret (Ok (sub, false))
    end.

Definition assignSubscriptionWithReuse (input : AssignSubscriptionInput) (now1 now2 : time)
  : method (UserSubscription float64 * bool) :=
  group ←? wrapErr "group not found" (groupByID (in_GroupID input));
  if negb (IsSubscriptionType group) then mret (Err (AppErr ErrGroupNotSubscriptionType))
  else
    exists_ ←? ExistsByUserIDAndGroupID (in_UserID input) (in_GroupID input);
    if exists_ : bool then
      sub ←? GetByUserIDAndGroupID (in_UserID input) (in_GroupID input);
      if String.eqb (sub_Status sub) SubscriptionStatusExpired ||
         (negb (String.eqb (sub_Status sub) SubscriptionStatusSuspended) && negb (After (ExpiresAt sub) now1))
      then
        _ ←? updateExistingSubscriptionTerm true (sub_ID sub) (normalizeAssignValidityDays (ValidityDays input)) (in_Notes input) true now2;
        renewed ←? GetByID (sub_ID sub);
        mret (Ok (renewed, true))
      else
        mret (match detectAssignSemanticConflict zoneOffset sub input with
              | Some reason => Err (AppErr (WithMetadata ErrSubscriptionAssignConflict (Some {["conflict_reason" := reason]})))
              | None => Ok (sub, true)
              end)
    else
      sub ←? createSubscription input now1;
      mret (Ok (sub, false)).
Definition AssignSubscription (input : AssignSubscriptionInput) (now1 now2 : time) : method (UserSubscription float64) :=
  r ←? assignSubscriptionWithReuse input now1 now2; mret (Ok r.1).

(** *** Revocation and restoration *)

(** The answers of the billing cache to the invalidation and the publication. *)
Definition invalidateSubscriptionCaches (invalidated published : option goerror) : result goerror unit :=
  match invalidated, published with
  | Some e, _ => Err (WrapErr "invalidate billing subscription cache" e)
  | None, Some e => Err (WrapErr "publish subscription cache invalidation" e)
  | None, None => Ok tt
  end.
Definition RevokeSubscription (id : Z) (invalidated published : option goerror) : method unit :=
  _ ←? GetByID id;
  _ ←? Delete id;
  mret (invalidateSubscriptionCaches invalidated published).
Definition RestoreSubscription (id : Z) (now : time) (invalidated published : option goerror) : method (UserSubscription float64) :=
  sub ←? GetByIDIncludeDeleted id;
  if live sub then mret (Err (AppErr ErrSubscriptionNotRevoked))
  else
    exists_ ←? ExistsActiveByUserIDAndGroupID (sub_UserID sub) (sub_GroupID sub);
    if exists_ : bool then mret (Err (AppErr ErrSubscriptionRestoreConflict))
    else
      let restoredStatus := if String.eqb (sub_Status sub) SubscriptionStatusActive && negb (After (ExpiresAt sub) now)
                            then SubscriptionStatusExpired else sub_Status sub in
      restored ←? Restore id restoredStatus;
      mret (match invalidateSubscriptionCaches invalidated published with Err e => Err e | Ok _ => Ok restored end).

Definition ExtendSubscription (id days : Z) (now : time) : method (UserSubscription float64) :=
  r ← GetByID id;
  match r with
  | Err _ => mret (Err (AppErr ErrSubscriptionNotFound))
  | Ok sub =>
      let days := if MaxValidityDays <? days then MaxValidityDays else days in
      let days := if days <? - MaxValidityDays then - MaxValidityDays else days in
      let isExpired := negb (After (ExpiresAt sub) now) in
      if isExpired && (days <? 0) then mret (Err (AppErr ErrCannotShortenExpired))
      else
        let newExpiresAt := capExpiry (AddDays zoneOffset (if isExpired then now else ExpiresAt sub) days) in
        if negb (After newExpiresAt now) then mret (Err (AppErr ErrAdjustWouldExpire))
        else
          _ ←? ExtendExpiry id newExpiresAt;
          _ ←? (if String.eqb (sub_Status sub) SubscriptionStatusExpired
                then UpdateStatus id SubscriptionStatusActive else mret (Ok tt));
          GetByID id
  end.

(** *** Assignment in bulk *)

Record BulkAssignResult := mkBulk {
  SuccessCount : Z; CreatedCount : Z; ReusedCount : Z; FailedCount : Z;
  bulkSubscriptions : list (UserSubscription float64);
  bulkErrors : list (Z * goerror);
  Statuses : gmap Z string }.
Definition addOutcome (userID : Z) (r : result goerror (UserSubscription float64 * bool)) (res : BulkAssignResult) : BulkAssignResult :=
  match r with
  | Err e => { res with FailedCount := FailedCount res + 1; bulkErrors := bulkErrors res ++ [(userID, e)];
                        Statuses := <[userID := "failed"]> (Statuses res) }
  | Ok (sub, reused) =>
      let res := { res with SuccessCount := SuccessCount res + 1; bulkSubscriptions := bulkSubscriptions res ++ [sub] } in
      if reused : bool
      then { res with ReusedCount := ReusedCount res + 1; Statuses := <[userID := "reused"]> (Statuses res) }
      else { res with CreatedCount := CreatedCount res + 1; Statuses := <[userID := "created"]> (Statuses res) }
  end.
(** Every user comes with the clock readings during its assignment. *)
Fixpoint bulkAssign (input : AssignSubscriptionInput) (users : list (Z * (time * time))) (res : BulkAssignResult) : ST world BulkAssignResult :=
  match users with
  | [] => mret res
  | (userID, (now1, now2)) :: users' =>
      r ← assignSubscriptionWithReuse { input with in_UserID := userID } now1 now2;
      bulkAssign input users' (addOutcome userID r res)
  end.
Definition BulkAssignSubscription (input : AssignSubscriptionInput) (users : list (Z * (time * time))) : ST world BulkAssignResult :=
  bulkAssign input users (mkBulk 0 0 0 0 [] [] ∅).
End Service.

(** ** Lemmas *)

(** A subscription but for its [updated_at], which the database sets. *)
Definition strip {A} (s : UserSubscription A) : UserSubscription A := { s with UpdatedAt := 0 }.

Lemma capExpiry_le e : capExpiry e <= MaxExpiresAt.
Proof. unfold capExpiry. destruct (After _ _) eqn:E; bool_to_prop; lia. Qed.

Section Facts.
Context {num : Numeric} (zoneOffset : time -> duration).
Implicit Types (t : table) (row : UserSubscription Z) (sub : UserSubscription float64).

Lemma call_run {A} nf cf (s : ST table (result goerror A)) t :
  call nf cf s (t, []) =
  (match (s t).1 with Ok a => Ok a | Err e => Err (translatePersistenceError e nf cf) end, ((s t).2, [])).
Proof. unfold call. rewrite bind_run, remote_run. by destruct (s t) as [[a|e] t']. Qed.
Lemma call_ok {A} nf cf (s : ST table (result goerror A)) t a t' :
  s t = (Ok a, t') -> call nf cf s (t, []) = (Ok a, (t', [])).
Proof. intros E. by rewrite call_run, E. Qed.
Lemma bind_ok_ok {A B} (m : ST (table * list fault) (result goerror A)) (f : A -> ST _ (result goerror B)) w a w' :
  m w = (Ok a, w') -> (a0 ←? m; f a0) w = f a w'.
Proof. apply bind_ok_run. Qed.

Lemma GetByID_run t id row :
  subs t !! id = Some row -> live row = true -> GetByID id (t, []) = (Ok (mapAmounts fromNumeric row), (t, [])).
Proof.
  intros Hr Hl. unfold GetByID, toService. erewrite bind_ok_ok by (apply call_ok; unfold stmt_get; by rewrite Hr, Hl).
  unfold userSubscriptionEntityToService. by rewrite Hl.
Qed.

Lemma conditional_run t id cond f row :
  subs t !! id = Some row -> cond row = true ->
  translateConditionalWindowReset id (stmt_updateWhere id cond f) (t, []) =
  (Ok tt, ({ t with subs := <[id := { f row with UpdatedAt := clock t }]> (subs t) }, [])).
Proof.
  intros Hr Hc. unfold translateConditionalWindowReset.
  by erewrite bind_ok_ok by (apply call_ok; unfold stmt_updateWhere; rewrite Hr, Hc; reflexivity).
Qed.

(** The subscription in memory is the row, up to [updated_at]. *)
Definition inSync t sub row : Prop :=
  subs t !! sub_ID sub = Some row /\ live row = true /\ strip (mapAmounts fromNumeric row) = strip sub.

(** What [checkAndReset] makes of the subscription. *)
Definition advance (k : window) (now : time) sub : UserSubscription float64 :=
  match automaticStart zoneOffset k sub now with
  | Some start => setUsage k fzero (setWindowStart k (Some start) sub)
  | None => sub
  end.

Lemma strip_windowStart k sub sub' : strip sub = strip sub' -> windowStart k sub = windowStart k sub'.
Proof. destruct sub, sub'. intros E. injection E as -> -> -> -> -> -> -> -> -> -> -> -> -> -> -> -> ->. by destruct k. Qed.
Lemma mapAmounts_windowStart k row : windowStart k (mapAmounts fromNumeric row) = windowStart k row.
Proof. by destruct k. Qed.
Lemma strip_fresh k start row sub clk :
  strip (mapAmounts fromNumeric row) = strip sub ->
  strip (mapAmounts fromNumeric { freshWindow k start row with UpdatedAt := clk }) =
  strip (setUsage k fzero (setWindowStart k (Some start) sub)).
Proof.
  destruct row, sub. intros E. injection E as -> -> -> -> -> -> -> -> -> <- <- <- -> -> -> -> ->.
  destruct k; unfold strip, mapAmounts; simpl; by rewrite fromNumeric_zero.
Qed.

Lemma checkAndReset_run k now t sub row :
  inSync t sub row -> exists t' row',
    checkAndReset zoneOffset k now sub (t, []) = (Ok (advance k now sub), (t', [])) /\ inSync t' (advance k now sub) row'.
Proof.
  intros (Hr & Hl & Hs). unfold checkAndReset, advance.
  destruct (automaticStart zoneOffset k sub now) as [start|]; [|by exists t, row].
  set (row' := { freshWindow k start row with UpdatedAt := clock t }).
  exists { t with subs := <[sub_ID sub := row']> (subs t) }, row'. split.
  - erewrite bind_ok_ok; [reflexivity|].
    assert (Hc : startIs k (windowStart k sub) row = true).
    { unfold startIs. apply bool_decide_eq_true.
      by rewrite <- (strip_windowStart k _ _ Hs), mapAmounts_windowStart. }
    by destruct k; apply (conditional_run t _ _ _ row Hr Hc).
  - assert (Hid : sub_ID (setUsage k fzero (setWindowStart k (Some start) sub)) = sub_ID sub) by (by destruct k).
    split; [by rewrite Hid; simpl; rewrite lookup_insert_eq|]. split; [unfold row'; by destruct k|].
    by apply strip_fresh.
Qed.

Definition advanceAll (now : time) sub : UserSubscription float64 :=
  advance Monthly now (advance Weekly now (advance Daily now sub)).
Lemma CheckAndResetWindows_run now t sub row :
  inSync t sub row -> exists t' row',
    CheckAndResetWindows zoneOffset sub now (t, []) = (Ok (advanceAll now sub), (t', [])) /\ inSync t' (advanceAll now sub) row'.
Proof.
  intros H. unfold CheckAndResetWindows, advanceAll.
  destruct (checkAndReset_run Daily now _ _ _ H) as (t1 & row1 & E1 & H1). erewrite bind_ok_ok by exact E1.
  destruct (checkAndReset_run Weekly now _ _ _ H1) as (t2 & row2 & E2 & H2). erewrite bind_ok_ok by exact E2.
  apply (checkAndReset_run Monthly now _ _ _ H2).
Qed.

(** Advancing one window leaves the decisions about the others. *)
Lemma automaticStart_other k k' sub u w now :
  k <> k' -> automaticStart zoneOffset k (setUsage k' u (setWindowStart k' w sub)) now = automaticStart zoneOffset k sub now.
Proof. intros Hne. destruct k, k'; done. Qed.
Lemma automaticStart_advance k k' sub now :
  k <> k' -> automaticStart zoneOffset k (advance k' now sub) now = automaticStart zoneOffset k sub now.
Proof. intros Hne. unfold advance. destruct (automaticStart zoneOffset k' sub now); [by apply automaticStart_other|done]. Qed.

(** The instants that decide about a window are of our era. *)
Definition modernWindow (k : window) sub : Prop :=
  modern (StartsAt sub) /\ modern (ExpiresAt sub) /\ forall p, windowStart k sub = Some p -> modern p.
Lemma modernWindow_advance k k' sub now : k <> k' -> modernWindow k sub -> modernWindow k (advance k' now sub).
Proof. intros Hne. unfold advance. destruct (automaticStart zoneOffset k' sub now); [|done]. by destruct k, k'. Qed.

Lemma automaticStart_settled k sub now :
  has_midnight zoneOffset now -> modern now -> modernWindow k sub -> automaticStart zoneOffset k (advance k now sub) now = None.
Proof.
  intros Hz Hn (Hs & He & Hw). unfold advance. destruct (automaticStart zoneOffset k sub now) as [start|] eqn:E; [|done].
  destruct k; simpl in E |- *.
  - apply automaticDailyWindowStartAt_settled; [done|]. unfold automaticDailyWindowStartAt in E. simpl.
    destruct (DailyWindowStart sub); [|done]. destruct (HasOneTimeDailyQuota _ _); [done|].
    destruct (negb _); [done|]. by injection E as ->.
  - by eapply automaticWindowStartAt_settled; [..|exact E].
  - by eapply automaticWindowStartAt_settled; [..|exact E].
Qed.
Lemma advanceAll_settled k sub now :
  has_midnight zoneOffset now -> modern now -> (forall k, modernWindow k sub) ->
  automaticStart zoneOffset k (advanceAll now sub) now = None.
Proof.
  intros Hz Hn Hm. unfold advanceAll. destruct k; rewrite ?automaticStart_advance by done;
    apply automaticStart_settled; auto using modernWindow_advance.
Qed.

(** The usage that counts, and what else the checks look at. *)
Definition zeroAll (now : time) sub : UserSubscription float64 :=
  zeroExpired zoneOffset Monthly now (zeroExpired zoneOffset Weekly now (zeroExpired zoneOffset Daily now sub)).
Definition countedUsage k now sub : float64 :=
  match automaticStart zoneOffset k sub now with Some _ => fzero | None => windowUsage k sub end.
Lemma automaticStart_zeroExpired k k' sub now :
  automaticStart zoneOffset k (zeroExpired zoneOffset k' now sub) now = automaticStart zoneOffset k sub now.
Proof. unfold zeroExpired. destruct (automaticStart zoneOffset k' sub now); [|done]. by destruct k, k'. Qed.
Lemma zeroAll_usage k now sub : windowUsage k (zeroAll now sub) = countedUsage k now sub.
Proof.
  unfold zeroAll, countedUsage. unfold zeroExpired at 1. rewrite !automaticStart_zeroExpired.
  unfold zeroExpired at 1 3. rewrite !automaticStart_zeroExpired. unfold zeroExpired.
  by destruct k, (automaticStart zoneOffset Daily sub now), (automaticStart zoneOffset Weekly sub now),
    (automaticStart zoneOffset Monthly sub now).
Qed.

Definition termError (now : time) sub : option goerror :=
  if String.eqb (sub_Status sub) SubscriptionStatusExpired then Some (AppErr ErrSubscriptionExpired)
  else if String.eqb (sub_Status sub) SubscriptionStatusSuspended then Some (AppErr ErrSubscriptionSuspended)
  else if negb (After (ExpiresAt sub) now) then Some (AppErr ErrSubscriptionExpired) else None.
Definition resettable (k : window) (now : time) sub : bool := isSome (automaticStart zoneOffset k sub now).
Lemma validate_run group now sub :
  ValidateAndCheckLimits zoneOffset group now sub =
  match termError now sub with
  | Some e => ((false, Some e), sub)
  | None => ((resettable Daily now sub || resettable Weekly now sub || resettable Monthly now sub || negb (IsWindowActivated sub),
              CheckUsageLimits (zeroAll now sub) group fzero), zeroAll now sub)
  end.
Proof. unfold ValidateAndCheckLimits, termError. by repeat case_match. Qed.
Lemma CheckUsageLimits_ext sub sub' group cost :
  (forall k, windowUsage k sub = windowUsage k sub') -> CheckUsageLimits sub group cost = CheckUsageLimits sub' group cost.
Proof.
  intros H. unfold CheckUsageLimits, CheckDailyLimit, CheckWeeklyLimit, CheckMonthlyLimit.
  specialize (H Daily) as H1; specialize (H Weekly) as H2; specialize (H Monthly) as H3. simpl in *. by rewrite H1, H2, H3.
Qed.
(** Two subscriptions with the same counted usage pass the same checks; a
    settled one needs no maintenance. *)
Lemma validate_settled group now sub sub' :
  termError now sub' = termError now sub -> (forall k, automaticStart zoneOffset k sub' now = None) ->
  (forall k, windowUsage k sub' = countedUsage k now sub) -> IsWindowActivated sub' = true ->
  fst (ValidateAndCheckLimits zoneOffset group now sub') = (false, snd (fst (ValidateAndCheckLimits zoneOffset group now sub))).
Proof.
  intros Ht Hn Hu Ha. rewrite !validate_run, Ht. destruct (termError now sub); [done|].
  unfold resettable. rewrite !Hn, Ha. simpl. f_equal. apply CheckUsageLimits_ext. intros k.
  rewrite !zeroAll_usage, <- Hu. unfold countedUsage. by rewrite Hn.
Qed.
Lemma strip_eq sub sub' now :
  strip sub = strip sub' ->
  termError now sub = termError now sub' /\ IsWindowActivated sub = IsWindowActivated sub' /\
  forall k, windowUsage k sub = windowUsage k sub' /\ automaticStart zoneOffset k sub now = automaticStart zoneOffset k sub' now.
Proof.
  destruct sub, sub'. intros E. injection E as -> -> -> -> -> -> -> -> -> -> -> -> -> -> -> -> ->.
  split; [done|]. split; [done|]. by intros [].
Qed.
Lemma advance_usage k k' sub now :
  windowUsage k (advance k' now sub) = if decide (k = k') then countedUsage k now sub else windowUsage k sub.
Proof. unfold advance, countedUsage. destruct (automaticStart _ k' _ _) eqn:E; destruct (decide (k = k')) as [->|Hne]; rewrite ?E; [by destruct k'|by destruct k, k'|done|done]. Qed.
Lemma advance_other_usage k k' sub now : k <> k' -> countedUsage k now (advance k' now sub) = countedUsage k now sub.
Proof.
  intros Hne. unfold countedUsage. rewrite automaticStart_advance by done. destruct (automaticStart _ _ _ _); [done|].
  rewrite advance_usage. by destruct (decide _).
Qed.
Lemma advanceAll_usage k sub now : windowUsage k (advanceAll now sub) = countedUsage k now sub.
Proof.
  unfold advanceAll. destruct k; rewrite !advance_usage; simpl; rewrite ?advance_other_usage by done; done.
Qed.
Lemma advance_keeps k sub now :
  termError now (advance k now sub) = termError now sub /\ sub_ID (advance k now sub) = sub_ID sub /\
  (IsWindowActivated sub = true -> IsWindowActivated (advance k now sub) = true).
Proof.
  unfold advance. destruct (automaticStart _ _ _ _); [|done]. unfold IsWindowActivated. destruct k; simpl; repeat split;
    intros; repeat case_match; done.
Qed.
Lemma advanceAll_keeps sub now :
  termError now (advanceAll now sub) = termError now sub /\ sub_ID (advanceAll now sub) = sub_ID sub /\
  (IsWindowActivated sub = true -> IsWindowActivated (advanceAll now sub) = true).
Proof.
  unfold advanceAll. destruct (advance_keeps Daily sub now) as (E1 & I1 & A1), (advance_keeps Weekly (advance Daily now sub) now) as (E2 & I2 & A2),
    (advance_keeps Monthly (advance Weekly now (advance Daily now sub)) now) as (E3 & I3 & A3).
  rewrite E3, E2, E1, I3, I2, I1. repeat split; auto.
Qed.
Lemma inSync_GetByID t sub row :
  inSync t sub row -> exists refreshed, GetByID (sub_ID sub) (t, []) = (Ok refreshed, (t, [])) /\ strip refreshed = strip sub.
Proof. intros (Hr & Hl & Hs). exists (mapAmounts fromNumeric row). split; [by apply GetByID_run|done]. Qed.
(** The first use starts the windows. *)
Definition activated (now : time) sub : UserSubscription float64 :=
  { sub with DailyWindowStart := Some (StartOfDay zoneOffset now); WeeklyWindowStart := Some now; MonthlyWindowStart := Some now }.
Lemma activate_run t sub row now :
  inSync t sub row -> IsWindowActivated sub = false -> exists t' row',
    checkAndActivateWindowAt zoneOffset sub now (t, []) = (Ok tt, (t', [])) /\ inSync t' (activated now sub) row'.
Proof.
  intros (Hr & Hl & Hs) Ha. unfold checkAndActivateWindowAt. rewrite Ha.
  set (row' := { activateRow (StartOfDay zoneOffset now) now row with UpdatedAt := clock t }).
  exists { t with subs := <[sub_ID sub := row']> (subs t) }, row'. split.
  - assert (Hc : negb (IsWindowActivated row) = true)
      by (destruct (strip_eq _ _ now Hs) as (_ & E & _); rewrite Ha in E; change (IsWindowActivated row = false) in E; by rewrite E).
    exact (conditional_run t _ _ _ row Hr Hc).
  - split; [simpl; by rewrite lookup_insert_eq|]. split; [done|]. unfold row'. revert Hs. clear. destruct row, sub. intros E.
    injection E as -> -> -> -> -> -> -> -> -> <- <- <- -> -> -> -> ->. done.
Qed.
Lemma unactivated_start k sub now : IsWindowActivated sub = false -> automaticStart zoneOffset k sub now = None.
Proof.
  unfold IsWindowActivated. destruct (DailyWindowStart sub) eqn:E1, (WeeklyWindowStart sub) eqn:E2, (MonthlyWindowStart sub) eqn:E3; try done.
  intros _. destruct k; simpl; unfold automaticDailyWindowStartAt, automaticWindowStartAt; by rewrite ?E1, ?E2, ?E3.
Qed.
Lemma activated_settled k sub now : has_midnight zoneOffset now -> automaticStart zoneOffset k (activated now sub) now = None.
Proof.
  intros Hz. destruct k; cbn [automaticStart]; [by apply automaticDailyWindowStartAt_settled|..];
    apply automaticWindowStartAt_None; intros p [= <-]; left;
    pose proof (anchorOf_ge zoneOffset (activated now sub) now); unfold period, Hour, Minute, Second; lia.
Qed.

Lemma unactivated_reset sub now w : IsWindowActivated sub = false -> CheckAndResetWindows zoneOffset sub now w = (Ok sub, w).
Proof.
  intros Ha. assert (H : forall k, checkAndReset zoneOffset k now sub w = (Ok sub, w))
    by (intros k; unfold checkAndReset; by rewrite unactivated_start).
  unfold CheckAndResetWindows. by do 2 (erewrite bind_ok_ok by apply H).
Qed.

(** The maintenance of a subscription in memory that is the row. *)
Lemma maintenance_run t sub row now :
  has_midnight zoneOffset now -> modern now -> (forall k, modernWindow k sub) -> inSync t sub row ->
  exists refreshed t' sub', EnsureWindowMaintenance zoneOffset (Some sub) now now (t, []) = (Ok refreshed, (t', [])) /\
    strip refreshed = strip sub' /\ termError now sub' = termError now sub /\ IsWindowActivated sub' = true /\
    forall k, automaticStart zoneOffset k sub' now = None /\ windowUsage k sub' = countedUsage k now sub.
Proof.
  intros Hz Hn Hm Hs. unfold EnsureWindowMaintenance. destruct (IsWindowActivated sub) eqn:Ha.
  - unfold checkAndActivateWindowAt at 1. rewrite Ha. erewrite bind_ok_ok by reflexivity.
    destruct (CheckAndResetWindows_run now t sub row Hs) as (t1 & row1 & E1 & H1). erewrite bind_ok_ok by exact E1.
    destruct (advanceAll_keeps sub now) as (K1 & K2 & K3). destruct (inSync_GetByID _ _ _ H1) as (r & Er & Hr).
    rewrite K2 in Er. exists r, t1, (advanceAll now sub). repeat split; auto using advanceAll_settled, advanceAll_usage.
  - destruct (activate_run t sub row now Hs Ha) as (t1 & row1 & E1 & H1). erewrite bind_ok_ok by exact E1.
    erewrite bind_ok_ok by (by apply unactivated_reset).
    destruct (inSync_GetByID _ _ _ H1) as (r & Er & Hr). exists r, t1, (activated now sub).
    repeat split; auto using activated_settled. unfold countedUsage. rewrite unactivated_start by done. by destruct k.
Qed.

Lemma isSome_false {A} (o : option A) : isSome o = false -> o = None.
Proof. by destruct o. Qed.

Lemma faithful_call {A} nf cf (s : ST table (result goerror A)) : faithful (call nf cf s).
Proof.
  intros t fs a t' fs'. rewrite call_run. unfold call. rewrite bind_run. unfold remote.
  destruct (s t) as [[b|e] t1], fs as [|[] fs1]; simpl; unfold mret, ST_ret; intros H; by simplify_eq.
Qed.
Lemma faithful_wrapErr {A} msg (m : ST (table * list fault) (result goerror A)) : faithful m -> faithful (wrapErr msg m).
Proof.
  intros Hm t fs a t' fs' H. unfold wrapErr in H. rewrite bind_run in H.
  destruct (m (t, fs)) as [[b|e] [t1 fs1]] eqn:E; simpl in H; unfold mret, ST_ret in H; simplify_eq. apply wrapErr_run. by eapply Hm.
Qed.
Lemma faithful_get id : faithful (GetByID id).
Proof. apply faithful_bind_ok; [apply faithful_call|intros; apply faithful_ret]. Qed.
Lemma faithful_update sub : faithful (Update sub).
Proof. apply faithful_bind_ok; [apply faithful_call|intros; apply faithful_ret]. Qed.
Lemma faithful_updateOneID id f : faithful (updateOneID id f).
Proof. apply faithful_bind_ok; [apply faithful_call|intros; apply faithful_ret]. Qed.
#[local] Hint Resolve faithful_ret faithful_get faithful_update faithful_updateOneID faithful_wrapErr faithful_if : gateway.

Lemma bind_ok_inv {A B} (m : ST (table * list fault) (result goerror A)) (f : A -> ST _ (result goerror B)) t b t' :
  faithful m -> bind_ok m f (t, []) = (Ok b, (t', [])) -> exists a t1, m (t, []) = (Ok a, (t1, [])) /\ f a (t1, []) = (Ok b, (t', [])).
Proof.
  intros Hm H. unfold bind_ok in H. rewrite bind_run in H. destruct (m (t, [])) as [[a|e] [t1 fs1]] eqn:E; [|done].
  pose proof (Hm _ _ _ _ _ E) as E'. rewrite E in E'. injection E' as ->. by exists a, t1.
Qed.

Lemma GetByID_inv id w sub w' :
  GetByID id w = (Ok sub, w') -> exists row, subs w'.1 !! id = Some row /\ live row = true /\ sub = mapAmounts fromNumeric row.
Proof.
  destruct w as [t fs], w' as [t' fs']. intros H%faithful_get. unfold GetByID, toService, bind_ok in H.
  rewrite bind_run, call_run in H. unfold stmt_get in H. simpl in H. destruct (subs t !! id) as [row|] eqn:E; [|done].
  destruct (live row) eqn:L; [|done]. unfold mret, ST_ret, userSubscriptionEntityToService in H. rewrite L in H. simpl in H.
  injection H as <- <-. by exists row.
Qed.
Lemma validate_ok group now sub needs sub' :
  ValidateAndCheckLimits zoneOffset group now sub = ((needs, None), sub') ->
  termError now sub = None /\ sub' = zeroAll now sub /\ CheckUsageLimits sub' group fzero = None /\
  needs = resettable Daily now sub || resettable Weekly now sub || resettable Monthly now sub || negb (IsWindowActivated sub).
Proof. rewrite validate_run. destruct (termError now sub); [done|]. intros H. injection H as <- Hc <-. auto. Qed.
Lemma ensure_inv sub now1 now2 w r w' :
  EnsureWindowMaintenance zoneOffset (Some sub) now1 now2 w = (Ok r, w') ->
  exists row, subs w'.1 !! sub_ID sub = Some row /\ live row = true /\ r = mapAmounts fromNumeric row.
Proof.
  unfold EnsureWindowMaintenance, bind_ok. rewrite bind_run. destruct (checkAndActivateWindowAt _ _ _ w) as [[[]|e] w1]; [|done]. simpl.
  rewrite bind_run. destruct (CheckAndResetWindows _ _ _ w1) as [[?|e] w2]; [|done]. apply GetByID_inv.
Qed.
Lemma validate_id group now sub : sub_ID (ValidateAndCheckLimits zoneOffset group now sub).2 = sub_ID sub.
Proof.
  assert (H : forall k s, sub_ID (zeroExpired zoneOffset k now s) = sub_ID s)
    by (intros k s; unfold zeroExpired; destruct (automaticStart _ k s now); [by destruct k|done]).
  rewrite validate_run. destruct (termError now sub); [done|]. unfold zeroAll. simpl. by rewrite !H.
Qed.
Lemma limits_ok sub group cost :
  CheckUsageLimits sub group cost = None <->
  CheckDailyLimit sub group cost = true /\ CheckWeeklyLimit sub group cost = true /\ CheckMonthlyLimit sub group cost = true.
Proof.
  unfold CheckUsageLimits.
  destruct (CheckDailyLimit _ _ _), (CheckWeeklyLimit _ _ _), (CheckMonthlyLimit _ _ _); simpl; (split; [done|by intros (? & ? & ?)]).
Qed.
End Facts.
#[export] Hint Resolve faithful_ret faithful_get faithful_update faithful_updateOneID faithful_wrapErr faithful_if : gateway.

(** ** Properties *)

Section Properties.
Context {num : Numeric} (zoneOffset : time -> duration).

(** C32: maintenance settles the windows without changing the verdict.  For a
    reading that is the current row, on a store that answers, with one reading of
    the clock, on a day that has a midnight, all instants between 1970 and 2262, [EnsureWindowMaintenance] succeeds, and
    the check repeated on the refreshed row needs no further maintenance and decides
    as the first check did: the in-memory correction of [ValidateAndCheckLimits]
    anticipates exactly what the database then does.  (A stale reading may be
    decided differently the second time; on a day whose midnight is skipped the
    maintenance never settles, [midnight_gap_unlimited].) *)
Theorem maintenance_settles t row now group :
  let sub := mapAmounts fromNumeric row in
  has_midnight zoneOffset now -> modern now -> (forall k, modernWindow k sub) ->
  subs t !! sub_ID row = Some row -> live row = true ->
  exists refreshed t', EnsureWindowMaintenance zoneOffset (Some sub) now now (t, []) = (Ok refreshed, (t', [])) /\
    fst (ValidateAndCheckLimits zoneOffset group now refreshed) =
    (false, snd (fst (ValidateAndCheckLimits zoneOffset group now sub))).
Proof.
  intros sub Hz Hn Hm Hr Hl. destruct (maintenance_run zoneOffset t sub row now Hz Hn Hm) as (r & t' & sub' & E & Hs & Ht & Ha & Hk);
    [done|]. exists r, t'. split; [exact E|]. destruct (strip_eq zoneOffset r sub' now Hs) as (K1 & K2 & K3).
  apply validate_settled; [congruence| | |congruence]; intros k; destruct (K3 k), (Hk k); congruence.
Qed.

(** C33: who is admitted.  Whatever reading of the subscription the request came
    with and whatever faults the store has, an admitted request goes on with a
    subscription that is neither expired nor suspended, has not reached its end,
    and whose counted usage is within every limit of the group; and when a
    window had passed on the reading, it is a fresh reading of the row. *)
Theorem admitted_within_limits group sub now0 now1 now2 now3 w sub' w' :
  admitSubscriber zoneOffset group sub now0 now1 now2 now3 w = (Ok sub', w') ->
  exists now s, sub' = zeroAll zoneOffset now s /\
    sub_Status s <> SubscriptionStatusExpired /\ sub_Status s <> SubscriptionStatusSuspended /\ now < ExpiresAt s /\
    CheckAllLimits sub' group fzero = (true, true, true) /\
    (now = now0 /\ s = sub /\ (forall k, automaticStart zoneOffset k sub now0 = None) /\ IsWindowActivated sub = true \/
     now = now3 /\ exists row, subs w'.1 !! sub_ID sub = Some row /\ live row = true /\ s = mapAmounts fromNumeric row).
Proof.
  assert (K : forall now s needs, ValidateAndCheckLimits zoneOffset group now s = ((needs, None), sub') ->
    sub' = zeroAll zoneOffset now s /\ sub_Status s <> SubscriptionStatusExpired /\ sub_Status s <> SubscriptionStatusSuspended /\
    now < ExpiresAt s /\ CheckAllLimits sub' group fzero = (true, true, true)).
  { intros now s needs (Ht & Hs & (Hd & Hw & Hm)%limits_ok & _)%validate_ok. unfold CheckAllLimits. rewrite Hd, Hw, Hm.
    unfold termError in Ht. destruct (String.eqb_spec (sub_Status s) SubscriptionStatusExpired); [done|].
    destruct (String.eqb_spec (sub_Status s) SubscriptionStatusSuspended); [done|]. destruct (After _ _) eqn:E; [|done].
    bool_to_prop. repeat split; done. }
  unfold admitSubscriber. pose proof (validate_id zoneOffset group now0 sub) as Hid.
  destruct (ValidateAndCheckLimits zoneOffset group now0 sub) as [[needs verr] s0] eqn:E0. simpl in Hid. destruct needs.
  - rewrite bind_run. destruct (EnsureWindowMaintenance _ _ _ _ w) as [[r|e] w1] eqn:Em; simpl; [|done].
    destruct (ValidateAndCheckLimits zoneOffset group now3 r) as [[n3 [e|]] s3] eqn:E3; [done|]. intros H. injection H as -> <-.
    apply ensure_inv in Em as (row & H1 & H2 & H3). rewrite Hid in H1. exists now3, r.
    destruct (K _ _ _ E3) as (K1 & K2 & K3 & K4 & K5). eauto 12.
  - destruct verr; [done|]. intros H. injection H as -> <-. exists now0, sub. destruct (K _ _ _ E0) as (K1 & K2 & K3 & K4 & K5).
    apply validate_ok in E0 as (_ & _ & _ & Hn). symmetry in Hn. repeat apply orb_false_iff in Hn as [Hn ?].
    repeat split; auto. left. repeat split; auto; [intros []; by apply isSome_false|by apply negb_false_iff].
Qed.
End Properties.

(** ** A zone in which a local day has no midnight

    In Havana the clocks of 2025 went from 23:59:59 on 8 March (UTC-5) to 01:00
    on 9 March (UTC-4), at 05:00 UTC, and back on 2 November. *)
Definition havana (t : time) : duration :=
  if (utc 1741496400 <=? t) && (t <? utc 1762059600) then - (4 * Hour) else - (5 * Hour).
(** 23:00 on 8 March, which [StartOfDay] takes for the midnight of 9 March. *)
Definition gapStart : time := utc 1741492800.

Definition gapDay (now : time) : Prop := utc 1741496400 <= now < utc 1741579200.

Lemma gap_start now : gapDay now -> StartOfDay havana now = gapStart.
Proof.
  intros H. unfold gapDay, utc, Second in H. unfold StartOfDay.
  replace (localDay havana now) with 739318; [by vm_compute|]. unfold localDay.
  replace (havana now) with (- (4 * Hour)).
  - unfold Day, Hour, Minute, Second. apply (Z.div_unique _ _ _ (now - 14400000000000 - 739318 * 86400000000000)); lia.
  - unfold havana, utc, Second. destruct (_ && _) eqn:E; [done|]. apply andb_false_iff in E as [E|E]; bool_to_prop; lia.
Qed.
Lemma positive_limit_zero limit : positiveLimit (Some limit) = true -> withinLimit (Some limit) fzero fzero = true.
Proof. by destruct limit as [[]|[]| |[] m e]. Qed.

(** On such a day the daily quota does not bind.  From the first
    maintenance of 9 March on the daily window of a subscription starts at the
    instant [StartOfDay] returns, which lies on 8 March; so the window counts as
    passed at every moment of the day: each request sees no usage, each
    maintenance opens it anew, and the daily limit refuses nobody. *)
Theorem midnight_gap_unlimited (sub : UserSubscription float64) group now :
  gapDay now -> DailyWindowStart sub = Some gapStart -> HasOneTimeDailyQuota havana sub = false ->
  automaticStart havana Daily sub now = Some gapStart /\ countedUsage havana Daily now sub = fzero /\
  snd (fst (ValidateAndCheckLimits havana group now sub)) <> Some (AppErr ErrDailyLimitExceeded).
Proof.
  intros Hg Hd Ho.
  assert (Ha : automaticStart havana Daily sub now = Some gapStart).
  { simpl. unfold automaticDailyWindowStartAt. rewrite Hd, Ho, (gap_start now Hg). by vm_compute. }
  assert (Hc : countedUsage havana Daily now sub = fzero) by (unfold countedUsage; by rewrite Ha).
  split; [exact Ha|]. split; [exact Hc|]. rewrite validate_run. destruct (termError now sub) eqn:Ht.
  - unfold termError in Ht. simpl. repeat case_match; simplify_eq; done.
  - assert (Hu : DailyUsageUSD (zeroAll havana now sub) = fzero) by (rewrite <- Hc; apply (zeroAll_usage havana Daily)).
    assert (Hl : CheckDailyLimit (zeroAll havana now sub) group fzero = true).
    { unfold CheckDailyLimit, HasDailyLimit. rewrite Hu. destruct (DailyLimitUSD group) as [l|]; [|done].
      destruct (positiveLimit (Some l)) eqn:E; [by apply positive_limit_zero|done]. }
    unfold CheckUsageLimits. rewrite Hl. simpl. repeat case_match; done.
Qed.

(** ** Scenarios

    The ninth day of a subscription whose daily and weekly windows have passed
    with more usage than the limits allow. *)
#[local] Existing Instance decimalDriver.
Definition spentTerm : UserSubscription Z := { demoTerm with DailyUsageUSD := 6 * scale; WeeklyUsageUSD := 25 * scale }.
Definition spentTable : table := { demoTable with subs := {[1 := spentTerm]} }.
Definition ninthDay : time := demoStart + 8 * Day.

Lemma maintenance_settles_witness :
  exists refreshed t', EnsureWindowMaintenance utcZone (Some (mapAmounts fromNumeric spentTerm)) ninthDay ninthDay (spentTable, []) = (Ok refreshed, (t', [])) /\
    fst (ValidateAndCheckLimits utcZone demoGroup ninthDay refreshed) = (false, None).
Proof.
  assert (Hn : modern ninthDay) by by_compute.
  assert (Hs : modern (StartsAt spentTerm)) by by_compute. assert (He : modern (ExpiresAt spentTerm)) by by_compute.
  assert (Hm : forall k, modernWindow k (mapAmounts fromNumeric spentTerm))
    by (intros []; (split; [exact Hs|split; [exact He|intros p [= <-]; by_compute]])).
  destruct (maintenance_settles utcZone spentTable spentTerm ninthDay demoGroup (utcZone_midnights ninthDay) Hn Hm eq_refl eq_refl)
    as (r & t' & H1 & H2). exists r, t'. split; [exact H1|]. rewrite H2. by_compute.
Defined.

Lemma admitted_within_limits_witness :
  exists sub' w', admitSubscriber utcZone demoGroup (mapAmounts fromNumeric spentTerm) ninthDay ninthDay ninthDay ninthDay (spentTable, []) = (Ok sub', w') /\
    CheckAllLimits sub' demoGroup fzero = (true, true, true).
Proof.
  destruct (admitSubscriber utcZone demoGroup (mapAmounts fromNumeric spentTerm) ninthDay ninthDay ninthDay ninthDay (spentTable, []))
    as [[sub'|e] w'] eqn:E.
  - exists sub', w'. split; [reflexivity|].
    destruct (admitted_within_limits utcZone demoGroup _ _ _ _ _ _ _ _ E) as (now & s & _ & _ & _ & _ & H & _). exact H.
  - exfalso. vm_compute in E. discriminate E.
Defined.

(** 12:00 and 20:00 on 9 March in Havana: two requests, each after 100 USD. *)
Definition gapTerm : UserSubscription float64 :=
  { mapAmounts fromNumeric demoTerm with ExpiresAt := demoStart + 90 * Day; DailyWindowStart := Some gapStart; DailyUsageUSD := float_of_Z 100 }.
Lemma midnight_gap_unlimited_witness :
  Forall (fun now => countedUsage havana Daily now gapTerm = fzero /\
    snd (fst (ValidateAndCheckLimits havana demoGroup now gapTerm)) <> Some (AppErr ErrDailyLimitExceeded))
    [utc (1741496400 + 11 * 3600); utc (1741496400 + 19 * 3600)].
Proof.
  assert (H1 : gapDay (utc (1741496400 + 11 * 3600))) by by_compute.
  assert (H2 : gapDay (utc (1741496400 + 19 * 3600))) by by_compute.
  assert (Ho : HasOneTimeDailyQuota havana gapTerm = false) by by_compute.
  constructor; [|constructor; [|constructor]].
  - exact (proj2 (midnight_gap_unlimited gapTerm demoGroup _ H1 eq_refl Ho)).
  - exact (proj2 (midnight_gap_unlimited gapTerm demoGroup _ H2 eq_refl Ho)).
Defined.
