(* ===== verification/SubscriptionTerms.v ===== *)
(** * Terms of subscriptions

    What renewals, assignments, adjustments and revocations of
    [service/subscription_service.go] do to the table: their effect on a store
    that answers, and what holds whatever faults they meet. *)

From S2P Require Import Prelude Float64 Errors Subscription SubscriptionRepo SubscriptionService.

(** ** Lemmas *)

Section Facts.
Context {num : Numeric} (zoneOffset : time -> duration).
Implicit Types (t : table) (row : UserSubscription Z) (sub : UserSubscription float64).

Lemma faithful_updateLockedTerm id days notes sem now : faithful (updateLockedTerm zoneOffset id days notes sem now).
Proof.
  apply faithful_bind_ok; [apply faithful_wrapErr, faithful_get|intros sub]. apply faithful_if; [apply faithful_ret|].
  cbv zeta. apply faithful_if.
  - apply faithful_bind_ok; auto with gateway.
  - apply faithful_bind_ok; [apply faithful_wrapErr, faithful_updateOneID|intros _].
    apply faithful_bind_ok; [|intros _]; (apply faithful_if; [apply faithful_wrapErr, faithful_updateOneID|apply faithful_ret]).
Qed.
(** A transaction takes effect as a whole or not at all. *)
Lemma transaction_atomic (fn : ST (table * list fault) (result goerror unit)) t fs r t' fs' :
  faithful fn -> withSubscriptionUpdateTx true fn (t, fs) = (r, (t', fs')) ->
  (r = Ok tt -> fn (t, []) = (Ok tt, (t', []))) /\ (t' = t \/ fn (t, []) = (Ok tt, (t', []))).
Proof.
  intros Hf H. unfold withSubscriptionUpdateTx in H. simpl in H.
  assert (K : forall fs0, (let '(r, (t2, fs2)) := fn (t, fs0) in
    match r with Err e => (Err e, (t, fs2)) | Ok _ => wrapErr "commit transaction" (remote (fun _ => (tt, t2))) (t, fs2) end) = (r, (t', fs')) ->
    (r = Ok tt -> fn (t, []) = (Ok tt, (t', []))) /\ (t' = t \/ fn (t, []) = (Ok tt, (t', [])))).
  { intros fs0 K. destruct (fn (t, fs0)) as [[[]|e] [t2 fs2]] eqn:E; [|simplify_eq; split; [by intros|by left]].
    apply Hf in E. unfold wrapErr in K. rewrite bind_run in K. unfold remote, mret, ST_ret in K.
    destruct fs2 as [|[] fs2]; simpl in K; simplify_eq; (split; [by intros|auto]). }
  destruct fs as [|[] fs1]; simpl in H; [by eapply K..| |]; simplify_eq; (split; [by intros|by left]).
Qed.

(** *** Renewals on a store that answers *)

Lemma otherRows_none t id row :
  table_ok t -> subs t !! id = Some row -> live row = true -> otherRows (sub_key row) id (subs t) = [].
Proof.
  intros Hok Hr Hl. destruct (otherRows _ _ _) as [|[j s] l] eqn:E; [done|]. exfalso.
  assert (Hin : (j, s) ∈ otherRows (sub_key row) id (subs t)) by (rewrite E; left).
  apply elem_of_map_to_list, map_lookup_filter_Some in Hin as (Hj & Hne & Hk & Hd). simpl in *.
  apply Hne. apply (ok_unique _ Hok j id s row); auto. by apply live_None.
Qed.
(** An update to a row in range that shares its key with no other live row. *)
Lemma updateOne_free t id f row row' :
  subs t !! id = Some row -> { f row with UpdatedAt := clock t } = row' -> amountsFit row' = true ->
  otherRows (sub_key row') id (subs t) = [] ->
  stmt_updateOne id f t = (Ok row', { t with subs := <[id := row']> (subs t) }).
Proof.
  intros Hr Hrow Ha Ho. unfold stmt_updateOne. rewrite Hr. cbv zeta. rewrite Hrow, Ha, Ho, bool_decide_true by done.
  cbn [negb]. by rewrite andb_false_r.
Qed.
(** In particular one that keeps the key. *)
Lemma updateOne_run t id f row :
  table_ok t -> subs t !! id = Some row -> live row = true -> sub_key (f row) = sub_key row -> amountsFit (f row) = true ->
  stmt_updateOne id f t =
  (Ok { f row with UpdatedAt := clock t }, { t with subs := <[id := { f row with UpdatedAt := clock t }]> (subs t) }).
Proof.
  intros Hok Hr Hl Hk Ha. apply (updateOne_free t id f row); [exact Hr|done|exact Ha|].
  transitivity (otherRows (sub_key row) id (subs t)); [by rewrite <- Hk|by apply otherRows_none].
Qed.
(** A table in which only the row [id] changed. *)
Definition changed (id : Z) (row' : UserSubscription Z) t t' : Prop :=
  exists u, subs t' = <[id := { row' with UpdatedAt := u }]> (subs t) /\ nextID t' = nextID t /\ groups t' = groups t /\ clock t' = clock t.
Lemma updateOneID_run t id f row :
  table_ok t -> subs t !! id = Some row -> live row = true -> sub_ID (f row) = sub_ID row ->
  sub_key (f row) = sub_key row -> amountsFit (f row) = true ->
  exists t', updateOneID id f (t, []) = (Ok tt, (t', [])) /\ table_ok t' /\ changed id (f row) t t'.
Proof.
  intros Hok Hr Hl Hi Hk Ha. eexists. split; [|split].
  - unfold updateOneID. erewrite bind_ok_ok by (apply call_ok; by apply updateOne_run). done.
  - eapply table_ok_put; [done|exact Hr|exact Hi|]. intros _. by left.
  - by exists (clock t).
Qed.

(** What a renewal makes of a row. *)
Definition renewalOf (days : Z) (notes : string) (now : time) row : UserSubscription Z :=
  let expired := ExpiresAt row <=? now in
  { row with
      StartsAt := if expired then now else StartsAt row;
      ExpiresAt := capExpiry (AddDays zoneOffset (if expired then now else ExpiresAt row) days);
      sub_Status := SubscriptionStatusActive;
      DailyWindowStart := if expired then Some (StartOfDay zoneOffset now) else DailyWindowStart row;
      WeeklyWindowStart := if expired then Some now else WeeklyWindowStart row;
      MonthlyWindowStart := if expired then Some now else MonthlyWindowStart row;
      DailyUsageUSD := if expired then 0 else DailyUsageUSD row;
      WeeklyUsageUSD := if expired then 0 else WeeklyUsageUSD row;
      MonthlyUsageUSD := if expired then 0 else MonthlyUsageUSD row;
      Notes := appendSubscriptionNotes (Notes row) notes }.

Lemma orKeep_id {A} (o : option A) : orKeep o o = o.
Proof. by destruct o. Qed.
Lemma updateRow_renewed days notes now row :
  (ExpiresAt row <=? now) = true ->
  updateRow (renewedSubscriptionTerm zoneOffset (mapAmounts fromNumeric row) notes now (capExpiry (AddDays zoneOffset now days))) row =
  { renewalOf days notes now row with UpdatedAt := UpdatedAt row }.
Proof.
  intros He. unfold updateRow, renewalOf, renewedSubscriptionTerm, mapAmounts. rewrite He. destruct row. simpl.
  by rewrite toNumeric_zero, orKeep_id.
Qed.

(** A step of an extension: a setter runs when its condition holds. *)
Lemma setter_run (b : bool) msg t id f row :
  table_ok t -> subs t !! id = Some row -> live row = true -> amountsFit row = true ->
  (forall r, sub_ID (f r) = sub_ID r /\ sub_key (f r) = sub_key r /\ live (f r) = live r /\ amountsFit (f r) = amountsFit r) ->
  exists t' row', (if b then wrapErr msg (updateOneID id f) else mret (Ok tt)) (t, []) = (Ok tt, (t', [])) /\
    table_ok t' /\ subs t' = <[id := row']> (subs t) /\ live row' = true /\ amountsFit row' = true /\
    strip row' = strip (if b then f row else row).
Proof.
  intros Hok Hr Hl Ha Hf. destruct (Hf row) as (H1 & H2 & H3 & H4). destruct b.
  - destruct (updateOneID_run t id f row) as (t' & E & Hok' & u & Hs & _); [done..|congruence|].
    exists t', { f row with UpdatedAt := u }. split; [by apply wrapErr_run|].
    split_and!; [exact Hok'|exact Hs|transitivity (live (f row)); [done|congruence]
                |transitivity (amountsFit (f row)); [done|congruence]|done].
  - exists t, row. by rewrite insert_id.
Qed.
(** The rows along an extension. *)
Lemma extended_row days notes now row r1 r2 r3 :
  (ExpiresAt row <=? now) = false ->
  strip r1 = strip { row with ExpiresAt := capExpiry (AddDays zoneOffset (ExpiresAt row) days) } ->
  strip r2 = strip (if negb (String.eqb (sub_Status row) SubscriptionStatusActive) then { r1 with sub_Status := SubscriptionStatusActive } else r1) ->
  strip r3 = strip (if negb (String.eqb notes "") then { r2 with Notes := appendSubscriptionNotes (Notes row) notes } else r2) ->
  strip r3 = strip (renewalOf days notes now row).
Proof.
  intros He K1 K2 K3.
  assert (N : forall (r : UserSubscription Z) n, strip { r with Notes := n } = { strip r with Notes := n }) by done.
  assert (S : forall (r : UserSubscription Z) n, strip { r with sub_Status := n } = { strip r with sub_Status := n }) by done.
  assert (E : strip r2 = strip { row with ExpiresAt := capExpiry (AddDays zoneOffset (ExpiresAt row) days); sub_Status := SubscriptionStatusActive }).
  { rewrite K2. destruct (String.eqb_spec (sub_Status row) SubscriptionStatusActive) as [<-|]; simpl negb; cbv iota;
      [|rewrite S]; rewrite K1; by destruct row. }
  rewrite K3. unfold renewalOf. rewrite He. unfold appendSubscriptionNotes.
  destruct (String.eqb notes ""); simpl negb; cbv iota; [|rewrite N]; rewrite E; by destruct row.
Qed.
Lemma renewal_run t id row days notes now :
  table_ok t -> subs t !! id = Some row -> live row = true -> amountsFit row = true ->
  exists t' row', updateLockedTerm zoneOffset id days notes false now (t, []) = (Ok tt, (t', [])) /\
    subs t' = <[id := row']> (subs t) /\ strip row' = strip (renewalOf days notes now row).
Proof.
  intros Hok Hr Hl Ha. unfold updateLockedTerm.
  erewrite bind_ok_ok by (apply wrapErr_run; by apply GetByID_run). cbv zeta. cbn [andb].
  change (After (ExpiresAt (mapAmounts fromNumeric row)) now) with (now <? ExpiresAt row). rewrite <- Z.leb_antisym.
  destruct (ok_id _ Hok _ _ Hr) as [Hid _].
  destruct (ExpiresAt row <=? now) eqn:He.
  - set (renewed := renewedSubscriptionTerm zoneOffset (mapAmounts fromNumeric row) notes now (capExpiry (AddDays zoneOffset now days))).
    assert (Hf : updateRow renewed row = { renewalOf days notes now row with UpdatedAt := UpdatedAt row }) by (by apply updateRow_renewed).
    assert (Hid' : sub_ID renewed = id) by exact Hid.
    eexists _, { updateRow renewed row with UpdatedAt := clock t }. split; [|split].
    + unfold Update. erewrite bind_ok_ok; [reflexivity|]. apply wrapErr_run. erewrite bind_ok_ok; [reflexivity|].
      apply call_ok. rewrite Hid'. apply updateOne_run; try done. rewrite Hf. unfold amountsFit, renewalOf. simpl. by rewrite He.
    + done.
    + by rewrite Hf.
  - change (sub_ID (mapAmounts fromNumeric row)) with (sub_ID row). rewrite Hid.
    destruct (setter_run true "extend subscription" t id (fun r => { r with ExpiresAt := capExpiry (AddDays zoneOffset (ExpiresAt row) days) }) row)
      as (t1 & r1 & E1 & Hok1 & S1 & L1 & A1 & K1); [done..|]. erewrite bind_ok_ok by exact E1.
    assert (R1 : subs t1 !! id = Some r1) by (by rewrite S1, lookup_insert_eq).
    destruct (setter_run (negb (String.eqb (sub_Status row) SubscriptionStatusActive)) "update subscription status" t1 id
      (fun r => { r with sub_Status := SubscriptionStatusActive }) r1) as (t2 & r2 & E2 & Hok2 & S2 & L2 & A2 & K2); [done..|].
    erewrite bind_ok_ok by exact E2.
    assert (R2 : subs t2 !! id = Some r2) by (by rewrite S2, lookup_insert_eq).
    destruct (setter_run (negb (String.eqb notes "")) "update subscription notes" t2 id
      (fun r => { r with Notes := appendSubscriptionNotes (Notes row) notes }) r2) as (t3 & r3 & E3 & Hok3 & S3 & _ & _ & K3); [done..|].
    exists t3, r3. split; [exact E3|]. split; [by rewrite S3, S2, S1, !insert_insert_eq|].
    by apply (extended_row days notes now row r1 r2 r3).
Qed.

(** *** Assignment *)

Definition createdRow (input : AssignSubscriptionInput) (now : time) t : UserSubscription Z :=
  mkSub (nextID t) (in_UserID input) (in_GroupID input) now
    (capExpiry (AddDays zoneOffset now (normalizeAssignValidityDays (ValidityDays input))))
    SubscriptionStatusActive None None None 0 0 0 (if 0 <? in_AssignedBy input then Some (in_AssignedBy input) else None)
    now (in_Notes input) (clock t) (clock t) None.
Lemma createdRow_key input now t : sub_key (createdRow input now t) = (in_UserID input, in_GroupID input).
Proof. done. Qed.
Definition newSubscription (input : AssignSubscriptionInput) (now : time) : UserSubscription float64 :=
  mkSub 0 (in_UserID input) (in_GroupID input) now
    (capExpiry (AddDays zoneOffset now (normalizeAssignValidityDays (ValidityDays input))))
    SubscriptionStatusActive None None None fzero fzero fzero
    (if 0 <? in_AssignedBy input then Some (in_AssignedBy input) else None) now (in_Notes input) now now None.
Definition afterCreate (input : AssignSubscriptionInput) (now : time) t : table :=
  { t with subs := <[nextID t := createdRow input now t]> (subs t); nextID := nextID t + 1 }.
Lemma stmt_create_run t input now :
  0 < now -> liveRows (in_UserID input, in_GroupID input) (subs t) = [] ->
  stmt_create (newSubscription input now) t = (Ok (createdRow input now t), afterCreate input now t).
Proof.
  intros Hnow Hk. assert (Hz : IsZero now = false) by (unfold IsZero; lia).
  unfold stmt_create, newSubscription, mapAmounts, createdRow. simpl. rewrite Hz, toNumeric_zero. unfold sub_key. simpl. by rewrite Hk.
Qed.
Lemma create_run t input now :
  0 < now -> liveRows (in_UserID input, in_GroupID input) (subs t) = [] ->
  createSubscription zoneOffset input now (t, []) =
  (Ok (mapAmounts fromNumeric (createdRow input now t)), (afterCreate input now t, [])).
Proof.
  intros Hnow Hk. unfold createSubscription.
  erewrite bind_ok_ok by (unfold Create; erewrite bind_ok_ok by (apply call_ok; by apply stmt_create_run); reflexivity).
  apply GetByID_run; [|done]. simpl. by rewrite lookup_insert_eq.
Qed.
Lemma create_ok t input now :
  table_ok t -> 0 < now -> liveRows (in_UserID input, in_GroupID input) (subs t) = [] -> table_ok (afterCreate input now t).
Proof.
  intros Hok Hnow Hk. pose proof (subs_ok_create t (newSubscription input now) Hok) as H. by rewrite stmt_create_run in H.
Qed.
Lemma groupByID_run t id g : groups t !! id = Some g -> groupByID id (t, []) = (Ok g, (t, [])).
Proof. intros H. apply call_ok. by rewrite H. Qed.
Lemma exists_run t user group : ExistsByUserIDAndGroupID user group (t, []) = (Ok (negb (bool_decide (liveRows (user, group) (subs t) = []))), (t, [])).
Proof. by apply call_ok. Qed.
Lemma getByKey_run t id row :
  table_ok t -> subs t !! id = Some row -> live row = true ->
  GetByUserIDAndGroupID (sub_UserID row) (sub_GroupID row) (t, []) = (Ok (mapAmounts fromNumeric row), (t, [])).
Proof.
  intros Hok Hr Hl. unfold GetByUserIDAndGroupID, toService. change (sub_UserID row, sub_GroupID row) with (sub_key row).
  erewrite bind_ok_ok by (apply call_ok; unfold stmt_getByKey; by rewrite (liveRows_one t id row)).
  unfold userSubscriptionEntityToService. by rewrite Hl.
Qed.
Lemma no_conflict input now t :
  detectAssignSemanticConflict zoneOffset (mapAmounts fromNumeric (createdRow input now t)) input = None.
Proof.
  unfold detectAssignSemanticConflict. simpl. by rewrite Z.eqb_refl, andb_false_r, String.eqb_refl.
Qed.

(** *** Adjustments *)

Lemma faithful_or {A B} (m : ST (table * list fault) (result goerror A)) (f : A -> ST _ (result goerror B)) e :
  faithful m -> (forall a, faithful (f a)) ->
  faithful (r ← m; match r with Ok a => f a | Err _ => mret (Err e) end).
Proof.
  intros Hm Hf t fs b t' fs' H. rewrite bind_run in H. destruct (m (t, fs)) as [[a|e'] [t1 fs1]] eqn:E; simpl in H; [|done].
  rewrite bind_run. rewrite (Hm _ _ _ _ _ E). by eapply Hf.
Qed.
Lemma faithful_extend id days now : faithful (ExtendSubscription zoneOffset id days now).
Proof.
  apply faithful_or; [apply faithful_get|intros sub]. cbv zeta. apply faithful_if; [apply faithful_ret|].
  apply faithful_if; [apply faithful_ret|]. apply faithful_bind_ok; [apply faithful_updateOneID|intros _].
  apply faithful_bind_ok; [apply faithful_if; [apply faithful_updateOneID|apply faithful_ret]|intros _; apply faithful_get].
Qed.
Lemma updateOneID_inv id f t t' :
  updateOneID id f (t, []) = (Ok tt, (t', [])) ->
  exists row, subs t !! id = Some row /\ subs t' = <[id := { f row with UpdatedAt := clock t }]> (subs t).
Proof.
  unfold updateOneID, bind_ok. rewrite bind_run, call_run. unfold stmt_updateOne.
  destruct (subs t !! id) as [row|]; [|done]. destruct (negb _); [done|]. destruct (_ && _); [done|].
  intros H. exists row. split; [done|]. simpl in H. unfold mret, ST_ret in H. by simplify_eq.
Qed.

(** *** Revocation *)

Lemma otherRows_insert key id x (m : gmap Z (UserSubscription Z)) : otherRows key id (<[id := x]> m) = otherRows key id m.
Proof.
  unfold otherRows. f_equal. apply map_eq. intros j. apply option_eq. intros r.
  rewrite !map_lookup_filter_Some. destruct (decide (id = j)) as [->|Hne]; [|by rewrite lookup_insert_ne].
  split; by intros (_ & Hj & _).
Qed.
Definition revokedRow t row : UserSubscription Z := { row with DeletedAt := Some (clock t); UpdatedAt := clock t }.
Definition afterRevoke t row : table := { t with subs := <[sub_ID row := revokedRow t row]> (subs t) }.
Lemma revoke_run t row :
  subs t !! sub_ID row = Some row -> live row = true ->
  RevokeSubscription (sub_ID row) None None (t, []) = (Ok tt, (afterRevoke t row, [])).
Proof.
  intros Hr Hl. unfold RevokeSubscription. erewrite bind_ok_ok by (by apply GetByID_run).
  erewrite bind_ok_ok; [reflexivity|]. apply call_ok. unfold stmt_delete, stmt_updateWhere. by rewrite Hr, Hl.
Qed.
Lemma revoked_free t row :
  table_ok t -> subs t !! sub_ID row = Some row -> live row = true -> liveRows (sub_key row) (subs (afterRevoke t row)) = [].
Proof.
  intros Hok Hr Hl. destruct (liveRows _ _) as [|[j s] l] eqn:E; [done|]. exfalso.
  assert (Hin : (j, s) ∈ liveRows (sub_key row) (subs (afterRevoke t row))) by (rewrite E; left).
  apply liveRows_spec in Hin as (Hj & Hk & Ls). simpl in Hj. apply lookup_insert_Some in Hj as [[_ <-]|[Hne Hj]]; [done|].
  apply Hne. symmetry. by apply (ok_unique _ Hok j (sub_ID row) s row).
Qed.
Definition restoredStatus (now : time) row : string :=
  if String.eqb (sub_Status row) SubscriptionStatusActive && negb (After (ExpiresAt row) now)
  then SubscriptionStatusExpired else sub_Status row.
Lemma restore_run t row now :
  table_ok t -> subs t !! sub_ID row = Some row -> live row = true -> amountsFit row = true ->
  let row' := { row with sub_Status := restoredStatus now row; UpdatedAt := clock t } in
  RestoreSubscription (sub_ID row) now None None (afterRevoke t row, []) =
  (Ok (mapAmounts fromNumeric row'), ({ t with subs := <[sub_ID row := row']> (subs t) }, [])).
Proof.
  intros Hok Hr Hl Ha row'. set (t1 := afterRevoke t row).
  assert (H1 : subs t1 !! sub_ID row = Some (revokedRow t row)) by (simpl; by rewrite lookup_insert_eq).
  unfold RestoreSubscription, GetByIDIncludeDeleted.
  erewrite bind_ok_ok by (erewrite bind_ok_ok by (apply call_ok; unfold stmt_get; by rewrite H1); reflexivity).
  change (live (userSubscriptionEntityToService false (revokedRow t row))) with false. cbv iota.
  erewrite bind_ok_ok by apply exists_run. change (liveRows _ (subs t1)) with (liveRows (sub_key row) (subs t1)).
  subst t1. rewrite (revoked_free t row Hok Hr Hl). change (negb (bool_decide ([] = []))) with false. cbv iota.
  erewrite bind_ok_ok; [reflexivity|]. unfold Restore.
  erewrite bind_ok_ok; [|apply call_ok; apply (updateOne_free _ _ _ (revokedRow t row) row'); [exact H1| |exact Ha|]].
  - replace { t with subs := <[sub_ID row := row']> (subs t) }
      with { afterRevoke t row with subs := <[sub_ID row := row']> (subs (afterRevoke t row)) }
      by (unfold afterRevoke; simpl; by rewrite insert_insert_eq).
    apply GetByID_run; [simpl; by rewrite lookup_insert_eq|done].
  - apply live_None in Hl. unfold row', revokedRow. destruct row. simpl in Hl. by subst.
  - simpl. rewrite otherRows_insert. by apply (otherRows_none t (sub_ID row) row).
Qed.
End Facts.

(** ** Properties *)

Section Properties.
Context {num : Numeric} (zoneOffset : time -> duration).

(** C39: a renewal happens as a whole or not at all.  Whatever faults its
    statements meet, a renewal that reports success left what it leaves
    without faults, and one that reports an error left the table as it was or,
    when only the reply to COMMIT was lost, the complete renewal. *)
Theorem renewal_atomic t fs id days notes sem now r t' fs' :
  updateExistingSubscriptionTerm zoneOffset true id days notes sem now (t, fs) = (r, (t', fs')) ->
  (r = Ok tt -> updateLockedTerm zoneOffset id days notes sem now (t, []) = (Ok tt, (t', []))) /\
  (t' = t \/ updateLockedTerm zoneOffset id days notes sem now (t, []) = (Ok tt, (t', []))).
Proof.
  apply transaction_atomic, faithful_updateLockedTerm.
Qed.

(** What a renewal does.  On a store that answers, renewing a live
    subscription succeeds and changes nothing but its row: a term that has not
    ended is prolonged from its own end, with its windows and usage untouched,
    one that has ended starts afresh now with fresh windows and no usage;
    either way it is active and ends no later than [MaxExpiresAt]. *)
Theorem renewal_spec t id row days notes now :
  table_ok t -> subs t !! id = Some row -> live row = true -> amountsFit row = true ->
  exists t' row', updateExistingSubscriptionTerm zoneOffset true id days notes false now (t, []) = (Ok tt, (t', [])) /\
    subs t' = <[id := row']> (subs t) /\ strip row' = strip (renewalOf zoneOffset days notes now row) /\
    ExpiresAt row' <= MaxExpiresAt.
Proof.
  intros Hok Hr Hl Ha. destruct (renewal_run zoneOffset t id row days notes now Hok Hr Hl Ha) as (t' & row' & E & Hs & Hrow).
  exists t', row'. split_and!; [|exact Hs|exact Hrow|].
  - unfold updateExistingSubscriptionTerm, withSubscriptionUpdateTx. simpl. by rewrite E.
  - replace (ExpiresAt row') with (ExpiresAt (strip row')) by done. rewrite Hrow. apply capExpiry_le.
Qed.

(** Assigning a subscription is idempotent.  On a store that answers, a
    first assignment to a user without a live subscription of the group creates
    it, and the same assignment repeated before its end returns the very same
    subscription, reports it as reused and leaves the table as it is. *)
Theorem assign_idempotent t input g now now' x y :
  table_ok t -> groups t !! in_GroupID input = Some g -> IsSubscriptionType g = true ->
  liveRows (in_UserID input, in_GroupID input) (subs t) = [] -> 0 < now ->
  now' < capExpiry (AddDays zoneOffset now (normalizeAssignValidityDays (ValidityDays input))) ->
  exists sub t', assignSubscriptionWithReuse zoneOffset input now x (t, []) = (Ok (sub, false), (t', [])) /\
    assignSubscriptionWithReuse zoneOffset input now' y (t', []) = (Ok (sub, true), (t', [])).
Proof.
  intros Hok Hg Ht Hk Hnow Hend. set (row := createdRow zoneOffset input now t).
  set (t' := afterCreate zoneOffset input now t).
  exists (mapAmounts fromNumeric row), t'.
  assert (Hrow : subs t' !! nextID t = Some row) by (simpl; by rewrite lookup_insert_eq).
  assert (Hok' : table_ok t') by (by apply create_ok).
  split; unfold assignSubscriptionWithReuse; erewrite bind_ok_ok by (apply wrapErr_run; by apply groupByID_run); rewrite Ht; cbn [negb].
  - erewrite bind_ok_ok by apply exists_run. rewrite Hk. simpl. by erewrite bind_ok_ok by (by apply create_run).
  - erewrite bind_ok_ok by apply exists_run.
    assert (Hne : liveRows (in_UserID input, in_GroupID input) (subs t') <> [])
      by (change (in_UserID input, in_GroupID input) with (sub_key row); by rewrite (liveRows_one t' (nextID t) row Hok' Hrow)).
    rewrite bool_decide_false by done. cbn [negb].
    erewrite bind_ok_ok by (apply (getByKey_run t' (nextID t) row); done).
    change (ExpiresAt (mapAmounts fromNumeric row)) with (ExpiresAt row).
    assert (Hl : After (ExpiresAt row) now' = true) by (unfold After; by apply Z.ltb_lt). rewrite Hl.
    unfold row. by rewrite no_conflict.
Qed.

(** An adjustment never leaves an expired subscription behind.  Whatever
    faults the store has, an adjustment by any number of days that succeeds
    leaves a row that ends after now and no later than [MaxExpiresAt], and is
    not marked expired if it was before. *)
Theorem extend_not_expired id days now w sub w' :
  ExtendSubscription zoneOffset id days now w = (Ok sub, w') ->
  exists row, subs w'.1 !! id = Some row /\ live row = true /\ sub = mapAmounts fromNumeric row /\
    now < ExpiresAt row <= MaxExpiresAt.
Proof.
  destruct w as [t fs], w' as [t' fs']. intros H%faithful_extend. unfold ExtendSubscription in H. rewrite bind_run in H.
  destruct (GetByID id (t, [])) as [[sub0|e] [t0 fs0]] eqn:E0; [|done]. simpl in H.
  pose proof (faithful_get _ _ _ _ _ _ E0) as E0'. rewrite E0 in E0'. injection E0' as ->.
  set (new := capExpiry _) in H. destruct (_ && _); [done|]. destruct (negb (After new now)) eqn:Enew; [done|].
  apply bind_ok_inv in H as ([] & t1 & E1 & H); [|apply faithful_updateOneID].
  apply bind_ok_inv in H as ([] & t2 & E2 & H); [|apply faithful_if; [apply faithful_updateOneID|apply faithful_ret]].
  apply updateOneID_inv in E1 as (r0 & _ & S1).
  assert (R2 : exists r2, subs t2 !! id = Some r2 /\ ExpiresAt r2 = new).
  { destruct (String.eqb _ _).
    - apply updateOneID_inv in E2 as (r1 & R1 & S2). rewrite S1, lookup_insert_eq in R1. injection R1 as <-.
      eexists. by rewrite S2, lookup_insert_eq.
    - injection E2 as <-. eexists. by rewrite S1, lookup_insert_eq. }
  destruct R2 as (r2 & R2 & Hx). pose proof H as (row & Hr & Hl & Hs)%GetByID_inv.
  assert (Ht : t' = t2).
  { unfold GetByID, toService in H. apply bind_ok_inv in H as (a & t3 & E3 & H); [|apply faithful_call].
    rewrite call_run in E3. unfold mret, ST_ret in H. simpl in *. by simplify_eq. }
  subst t'. simpl in Hr. rewrite R2 in Hr. injection Hr as <-. exists r2. rewrite Hx. split_and!; [done..|by bool_to_prop|].
  apply capExpiry_le.
Qed.

(** Revoking can be undone.  On a store that answers, revoking a live
    subscription hides it, and restoring it while the user has no other live
    subscription of the group brings the same row back, with its windows and
    usage; only the status follows the clock, expired when the term has ended. *)
Theorem revoke_restore t row now :
  table_ok t -> subs t !! sub_ID row = Some row -> live row = true -> amountsFit row = true ->
  let row' := { row with sub_Status := restoredStatus now row; UpdatedAt := clock t } in
  exists t1, RevokeSubscription (sub_ID row) None None (t, []) = (Ok tt, (t1, [])) /\
    (exists e, GetByID (sub_ID row) (t1, []) = (Err e, (t1, [])) /\ errors_Is e (AppErr ErrSubscriptionNotFound) = true) /\
    RestoreSubscription (sub_ID row) now None None (t1, []) =
      (Ok (mapAmounts fromNumeric row'), ({ t with subs := <[sub_ID row := row']> (subs t) }, [])).
Proof.
  intros Hok Hr Hl Ha row'. exists (afterRevoke t row). split_and!; [by apply revoke_run| |by apply restore_run].
  assert (H1 : subs (afterRevoke t row) !! sub_ID row = Some (revokedRow t row)) by (simpl; by rewrite lookup_insert_eq).
  unfold GetByID, toService, bind_ok. rewrite bind_run, call_run. unfold stmt_get. rewrite H1. simpl. by eexists.
Qed.
End Properties.

(** ** Scenarios *)

#[local] Existing Instance decimalDriver.
Definition demoInput : AssignSubscriptionInput := mkInput 9 3 30 0 "gift".

Lemma renewal_atomic_witness :
  exists r t' fs', updateExistingSubscriptionTerm utcZone true 1 30 "more" false (demoStart + 40 * Day)
      (demoTable, [NoFault; NoFault; NoFault; FailAfter ErrNoRows]) = (r, (t', fs')) /\
    (t' = demoTable \/ updateLockedTerm utcZone 1 30 "more" false (demoStart + 40 * Day) (demoTable, []) = (Ok tt, (t', []))).
Proof.
  destruct (updateExistingSubscriptionTerm utcZone true 1 30 "more" false (demoStart + 40 * Day)
    (demoTable, [NoFault; NoFault; NoFault; FailAfter ErrNoRows])) as [r [t' fs']] eqn:E.
  exists r, t', fs'. split; [reflexivity|]. exact (proj2 (renewal_atomic utcZone _ _ _ _ _ _ _ _ _ _ E)).
Defined.
Lemma renewal_spec_witness :
  exists t' row', updateExistingSubscriptionTerm utcZone true 1 30 "more" false (demoStart + 40 * Day) (demoTable, []) = (Ok tt, (t', [])) /\
    subs t' = <[1 := row']> (subs demoTable) /\ ExpiresAt row' <= MaxExpiresAt.
Proof.
  destruct (renewal_spec utcZone demoTable 1 demoTerm 30 "more" (demoStart + 40 * Day) demoTable_ok eq_refl eq_refl eq_refl)
    as (t' & row' & H1 & H2 & _ & H3). exists t', row'. split; [exact H1|]. split; [exact H2|exact H3].
Defined.
Lemma assign_idempotent_witness :
  exists sub t', assignSubscriptionWithReuse utcZone demoInput demoStart demoStart (demoTable, []) = (Ok (sub, false), (t', [])) /\
    assignSubscriptionWithReuse utcZone demoInput (demoStart + 29 * Day) demoStart (t', []) = (Ok (sub, true), (t', [])).
Proof.
  assert (H1 : 0 < demoStart) by by_compute.
  assert (H2 : demoStart + 29 * Day < capExpiry (AddDays utcZone demoStart (normalizeAssignValidityDays (ValidityDays demoInput)))) by by_compute.
  exact (assign_idempotent utcZone demoTable demoInput demoGroup demoStart (demoStart + 29 * Day) demoStart demoStart
    demoTable_ok eq_refl eq_refl eq_refl H1 H2).
Defined.
Lemma extend_not_expired_witness :
  exists sub w', ExtendSubscription utcZone 1 (-10) demoStart (demoTable, []) = (Ok sub, w') /\
    exists row, subs w'.1 !! 1 = Some row /\ demoStart < ExpiresAt row.
Proof.
  destruct (ExtendSubscription utcZone 1 (-10) demoStart (demoTable, [])) as [[sub|e] w'] eqn:E.
  - exists sub, w'. split; [reflexivity|].
    destruct (extend_not_expired utcZone _ _ _ _ _ _ E) as (row & H1 & _ & _ & H2 & _). exists row. split; [exact H1|exact H2].
  - exfalso. vm_compute in E. discriminate E.
Defined.
Lemma revoke_restore_witness :
  exists t1, RevokeSubscription 1 None None (demoTable, []) = (Ok tt, (t1, [])) /\
    exists sub t2, RestoreSubscription 1 (demoStart + Day) None None (t1, []) = (Ok sub, (t2, [])) /\ sub_Status sub = SubscriptionStatusActive.
Proof.
  destruct (revoke_restore demoTable demoTerm (demoStart + Day) demoTable_ok eq_refl eq_refl eq_refl) as (t1 & H1 & _ & H2).
  exists t1. split; [exact H1|]. eexists _, _. split; [exact H2|]. by_compute.
Defined.
