(* ===== verification/Ordering.v ===== *)
(** * Sorting and heaps of Go's standard library

    [sort.Slice] promises a permutation that is sorted when [less] is a strict
    weak order and leaves open which one: the interface [SliceSort] states that
    contract, and the development holds for every implementation of it.
    [sort.SliceStable] is determined by its contract; it is the insertion sort,
    which is also the instance of [SliceSort] the scenarios use.  [up], [down],
    [Push] and [Fix] are those of [container/heap] over a slice. *)

From S2P Require Import Prelude.

(** ** Orders given by a [less] function *)

(** [less] is a strict weak order on the values that satisfy [P]. *)
Record weak_order {A} (less : A -> A -> bool) (P : A -> Prop) : Prop := {
  less_irrefl x : P x -> less x x = false;
  less_trans x y z : P x -> P y -> P z -> less x y = true -> less y z = true -> less x z = true;
  notless_trans x y z : P x -> P y -> P z -> less x y = false -> less y z = false -> less x z = false }.

(** Only equal values that satisfy [P] are left unordered. *)
Definition total_order {A} (less : A -> A -> bool) (P : A -> Prop) : Prop :=
  weak_order less P /\ forall x y, P x -> P y -> less x y = false -> less y x = false -> x = y.

(** [y] does not come before [x]. *)
Definition upto {A} (less : A -> A -> bool) (x y : A) : Prop := less y x = false.

Class SliceSort := {
  sortSlice {A} : (A -> A -> bool) -> list A -> list A;
  sortSlice_perm {A} (less : A -> A -> bool) l : sortSlice less l ≡ₚ l;
  sortSlice_sorted {A} (less : A -> A -> bool) l :
    weak_order less (.∈ l) -> Sorted (upto less) (sortSlice less l) }.

Fixpoint insertSorted {A} (less : A -> A -> bool) (x : A) (l : list A) : list A :=
  match l with
  | [] => [x]
  | y :: l' => if less y x then y :: insertSorted less x l' else x :: y :: l'
  end.
Definition SliceStable {A} (less : A -> A -> bool) (l : list A) : list A := foldr (insertSorted less) [] l.

(** ** [container/heap] *)

Section Heap.
Context {A : Type} (less : A -> A -> bool).

Definition lessAt (h : list A) (i j : nat) : bool :=
  match h !! i, h !! j with Some x, Some y => less x y | _, _ => false end.
Definition swapAt (h : list A) (i j : nat) : list A :=
  match h !! i, h !! j with Some x, Some y => <[j := x]> (<[i := y]> h) | _, _ => h end.

Fixpoint up (fuel : nat) (h : list A) (j : nat) : list A :=
  match fuel with
  | O => h
  | S fuel' =>
      let i := ((j - 1) / 2)%nat in
      if Nat.eqb i j || negb (lessAt h j i) then h else up fuel' (swapAt h i j) i
  end.
(** The child that goes up when [i] goes down. *)
Definition smallerChild (h : list A) (i : nat) : nat :=
  let j1 := (2 * i + 1)%nat in
  if Nat.ltb (j1 + 1) (length h) && lessAt h (j1 + 1) j1 then (j1 + 1)%nat else j1.
Fixpoint down (fuel : nat) (h : list A) (i : nat) : list A * nat :=
  match fuel with
  | O => (h, i)
  | S fuel' =>
      if Nat.leb (length h) (2 * i + 1) then (h, i)
      else
        let j := smallerChild h i in
        if negb (lessAt h j i) then (h, i) else down fuel' (swapAt h i j) j
  end.
Definition Push (h : list A) (x : A) : list A :=
  let h := (h ++ [x])%list in up (length h) h (length h - 1).
Definition Fix_ (h : list A) (i : nat) : list A :=
  let '(h', i') := down (length h) h i in
  if Nat.ltb i i' then h' else up (length h) h' i.
End Heap.

(** ** Lemmas: sorting *)

Section SortFacts.
Context {A : Type} (less : A -> A -> bool).

Lemma weak_order_mono (P Q : A -> Prop) : (forall x, Q x -> P x) -> weak_order less P -> weak_order less Q.
Proof. intros H [H1 H2 H3]. split; eauto. Qed.
Lemma total_order_mono (P Q : A -> Prop) : (forall x, Q x -> P x) -> total_order less P -> total_order less Q.
Proof. intros H [H1 H2]. split; [by eapply weak_order_mono|auto]. Qed.

Lemma insertSorted_perm x l : insertSorted less x l ≡ₚ x :: l.
Proof.
  induction l as [|y l IH]; simpl; [done|]. destruct (less y x); [|done]. rewrite IH. apply perm_swap.
Qed.
Lemma SliceStable_perm l : SliceStable less l ≡ₚ l.
Proof. induction l as [|x l IH]; simpl; [done|]. by rewrite insertSorted_perm, IH. Qed.

Lemma insertSorted_sorted x l : weak_order less (.∈ x :: l) -> Sorted (upto less) l ->
  Sorted (upto less) (insertSorted less x l).
Proof.
  intros Ho. induction l as [|y l IH]; intros Hs; simpl; [by repeat constructor|].
  apply Sorted_inv in Hs as [Hs Hd]. destruct (less y x) eqn:E.
  - constructor.
    + apply IH; [|done]. eapply weak_order_mono; [|exact Ho]. intros z. rewrite !elem_of_cons. tauto.
    + destruct l as [|z l]; simpl in *.
      * constructor. unfold upto. destruct (less x y) eqn:E'; [|done].
        pose proof (less_trans _ _ Ho x y x) as T. rewrite (less_irrefl _ _ Ho) in T by set_solver.
        symmetry. apply T; set_solver.
      * destruct (less z x); constructor; [by inversion Hd|]. unfold upto.
        destruct (less x y) eqn:E'; [|done].
        pose proof (less_trans _ _ Ho x y x) as T. rewrite (less_irrefl _ _ Ho) in T by set_solver.
        symmetry. apply T; set_solver.
  - constructor; [by constructor|]. by constructor.
Qed.
Lemma SliceStable_sorted l : weak_order less (.∈ l) -> Sorted (upto less) (SliceStable less l).
Proof.
  induction l as [|x l IH]; intros Ho; simpl; [constructor|]. apply insertSorted_sorted.
  - eapply weak_order_mono; [|exact Ho]. intros y. pose proof (SliceStable_perm l) as Hp.
    rewrite !elem_of_cons. intros [->|Hy]; [by left|]. right. by rewrite <- Hp.
  - apply IH. eapply weak_order_mono; [|exact Ho]. intros z. rewrite !elem_of_cons. tauto.
Qed.

Lemma sorted_strong l : weak_order less (.∈ l) -> Sorted (upto less) l -> StronglySorted (upto less) l.
Proof.
  intros Ho Hs. induction Hs as [|x l Hs IH Hd]; [constructor|].
  assert (Ho' : weak_order less (.∈ l)) by (eapply weak_order_mono; [|exact Ho]; intros z; rewrite !elem_of_cons; tauto).
  specialize (IH Ho'). constructor; [done|]. destruct Hd as [|y l Hxy]; [constructor|].
  constructor; [done|]. apply StronglySorted_inv in IH as [_ IH]. rewrite Forall_forall in IH |- *.
  intros z Hz. unfold upto in *. apply (notless_trans _ _ Ho z y x); [set_solver..|auto|done].
Qed.

(** Under a total order there is one sorted arrangement. *)
Lemma sorted_unique l k : total_order less (.∈ l) -> l ≡ₚ k ->
  Sorted (upto less) l -> Sorted (upto less) k -> l = k.
Proof.
  intros [Ho Ht] Hp Hl Hk. apply (StronglySorted_unique_strong (upto less)); [| | |done].
  - intros x y Hx Hy Hxy Hyx. rewrite <- Hp in Hy. by apply Ht.
  - by apply sorted_strong.
  - apply sorted_strong; [|done]. eapply weak_order_mono; [|exact Ho]. simpl. intros x. by rewrite Hp.
Qed.
End SortFacts.

(** ** Lemmas: the heap order *)

Section HeapFacts.
Context {A : Type} (less : A -> A -> bool) (P : A -> Prop) (Hord : weak_order less P).

(** The child [c] does not come before its parent [p]. *)
Definition edge_ok (h : list A) (p c : nat) : Prop :=
  forall x y, h !! p = Some x -> h !! c = Some y -> less y x = false.
Definition parent (c : nat) : nat := ((c - 1) / 2)%nat.
(** The edges above the children other than those of [hole]. *)
Definition heap_but (h : list A) (hole : nat) : Prop :=
  forall c, (0 < c)%nat -> parent c <> hole -> edge_ok h (parent c) c.
Definition heap (h : list A) : Prop := forall c, (0 < c)%nat -> edge_ok h (parent c) c.

Lemma parent_lt c : (0 < c)%nat -> (parent c < c)%nat.
Proof. intros H. unfold parent. apply Nat.Div0.div_lt_upper_bound. lia. Qed.
Lemma parent_child c i : (0 < c)%nat -> parent c = i -> c = (2 * i + 1)%nat \/ c = (2 * i + 1 + 1)%nat.
Proof. unfold parent. intros Hc H. pose proof (Nat.div_mod_eq (c - 1) 2). pose proof (Nat.mod_upper_bound (c - 1) 2). lia. Qed.
Lemma parent_left i : parent (2 * i + 1) = i.
Proof. unfold parent. replace (2 * i + 1 - 1)%nat with (i * 2)%nat by lia. by apply Nat.div_mul. Qed.
Lemma parent_right i : parent (2 * i + 1 + 1) = i.
Proof. unfold parent. replace (2 * i + 1 + 1 - 1)%nat with (1 + i * 2)%nat by lia. by rewrite Nat.div_add. Qed.

Lemma swapAt_perm (h : list A) i j : swapAt h i j ≡ₚ h.
Proof.
  unfold swapAt. destruct (h !! i) as [x|] eqn:Hi; [|done]. destruct (h !! j) as [y|] eqn:Hj; [|done].
  by apply Permutation_insert_swap.
Qed.
Lemma swapAt_lookup (h : list A) i j k x y : h !! i = Some x -> h !! j = Some y -> i <> j ->
  swapAt h i j !! k = if decide (k = i) then Some y else if decide (k = j) then Some x else h !! k.
Proof.
  intros Hi Hj Hne. unfold swapAt. rewrite Hi, Hj. apply lookup_lt_Some in Hi as Li. apply lookup_lt_Some in Hj as Lj.
  destruct (decide (k = i)) as [->|]; [|destruct (decide (k = j)) as [->|]].
  - rewrite list_lookup_insert_ne by done. by rewrite list_lookup_insert_eq.
  - rewrite list_lookup_insert_eq; [done|]. by rewrite length_insert.
  - by rewrite !list_lookup_insert_ne by done.
Qed.
Lemma lessAt_lookup h i j : lessAt less h i j = true -> exists x y, h !! i = Some x /\ h !! j = Some y /\ less x y = true.
Proof. unfold lessAt. destruct (h !! i) as [x|], (h !! j) as [y|]; try done. eauto. Qed.

Lemma Forall_swapAt h i j : Forall P h -> Forall P (swapAt h i j).
Proof. by rewrite swapAt_perm. Qed.
Lemma less_asym x y : P x -> P y -> less x y = true -> less y x = false.
Proof.
  intros Hx Hy H. destruct (less y x) eqn:E; [|done].
  rewrite <- (less_irrefl _ _ Hord x Hx). symmetry. by apply (less_trans _ _ Hord x y x).
Qed.
(** What does not come before [x] does not come before [y] either when [y]
    comes before [x]. *)
Lemma notless_less x y z : P x -> P y -> P z -> less z x = false -> less y x = true -> less z y = false.
Proof.
  intros Hx Hy Hz H1 H2. destruct (less z y) eqn:E; [|done].
  rewrite <- H1. symmetry. by apply (less_trans _ _ Hord z y x).
Qed.

(** [up] and [down] move the one element that is out of place. *)
Definition up_pre (h : list A) (j : nat) : Prop :=
  (forall c, (0 < c)%nat -> c <> j -> edge_ok h (parent c) c) /\
  ((0 < j)%nat -> forall c, (0 < c)%nat -> parent c = j -> edge_ok h (parent j) c).
Definition down_pre (h : list A) (i : nat) : Prop :=
  heap_but h i /\ ((0 < i)%nat -> forall c, (0 < c)%nat -> parent c = i -> edge_ok h (parent i) c).

Lemma up_step h j x y : Forall P h -> (0 < j)%nat -> h !! parent j = Some x -> h !! j = Some y -> less y x = true ->
  up_pre h j -> up_pre (swapAt h (parent j) j) (parent j).
Proof.
  intros HP Hj Hx Hy Hl [H1 H2]. pose proof (parent_lt j Hj) as Hlt. set (i := parent j) in *.
  assert (Hne : i <> j) by lia. assert (HL := fun k => swapAt_lookup h i j k x y Hx Hy Hne).
  assert (Px : P x) by by eapply Forall_lookup_1. assert (Py : P y) by by eapply Forall_lookup_1.
  split.
  - intros c Hc Hci u v. rewrite !HL. pose proof (parent_lt c Hc) as Hcl.
    destruct (decide (c = i)); [done|]. destruct (decide (c = j)) as [->|Hcj].
    + rewrite decide_True by done. intros [= <-] [= <-]. by apply less_asym.
    + destruct (decide (parent c = i)) as [Ep|Ep]; [|destruct (decide (parent c = j)) as [Ej|Ej]].
      * intros [= <-] Hv. apply (notless_less x); [done|done|by eapply Forall_lookup_1| |done].
        apply (H1 c Hc Hcj); [by rewrite Ep|done].
      * intros [= <-] Hv. by apply (H2 Hj c Hc Ej).
      * by apply H1.
  - intros Hi c Hc Ec u v. rewrite !HL. pose proof (parent_lt i Hi) as Hil. pose proof (parent_lt c Hc) as Hcl.
    rewrite decide_False, decide_False, decide_False by lia. destruct (decide (c = j)) as [->|Hcj].
    + intros Hu [= <-]. apply (H1 i); [done|lia|done|done].
    + intros Hu Hv. apply (notless_trans _ _ Hord v x u); [by eapply Forall_lookup_1|done|by eapply Forall_lookup_1| |].
      * apply (H1 c Hc Hcj); [by rewrite Ec|done].
      * by apply (H1 i Hi ltac:(lia)).
Qed.
Lemma up_heap fuel h j : (j < fuel)%nat -> Forall P h -> up_pre h j -> heap (up less fuel h j) /\ up less fuel h j ≡ₚ h.
Proof.
  revert h j. induction fuel as [|fuel IH]; intros h j Hf HP Hpre; [lia|]. cbn [up]. fold (parent j).
  destruct (Nat.eqb (parent j) j) eqn:Ej; simpl.
  - apply Nat.eqb_eq in Ej. split; [|done]. intros c Hc. apply (proj1 Hpre c Hc). intros ->.
    pose proof (parent_lt j Hc). lia.
  - apply Nat.eqb_neq in Ej. assert (Hj : (0 < j)%nat) by (destruct j; [done|lia]). pose proof (parent_lt j Hj) as Hlt.
    destruct (lessAt less h j (parent j)) eqn:El; simpl.
    + apply lessAt_lookup in El as (y & x & Hy & Hx & Hl).
      destruct (IH (swapAt h (parent j) j) (parent j)) as [H1 H2]; [lia|by apply Forall_swapAt|by eapply up_step|].
      split; [done|]. by rewrite H2, swapAt_perm.
    + split; [|done]. intros c Hc. destruct (decide (c = j)) as [->|Hne]; [|by apply (proj1 Hpre)].
      intros x y Hx Hy. unfold lessAt in El. by rewrite Hx, Hy in El.
Qed.

(** [j] is a child of [i] that no child of [i] comes before. *)
Lemma smallerChild_spec h i : Forall P h -> (2 * i + 1 < length h)%nat ->
  let j := smallerChild less h i in
  (i < j < length h)%nat /\ parent j = i /\ forall c, (0 < c)%nat -> parent c = i -> edge_ok h j c.
Proof.
  intros HP Hlen. unfold smallerChild, lessAt. set (j1 := (2 * i + 1)%nat) in *.
  destruct (lookup_lt_is_Some_2 h j1 Hlen) as [y1 Hy1].
  assert (Py : P y1) by by eapply Forall_lookup_1.
  destruct (Nat.ltb (j1 + 1) (length h)) eqn:El; simpl.
  - apply Nat.ltb_lt in El. destruct (lookup_lt_is_Some_2 h (j1 + 1) El) as [y2 Hy2].
    assert (Py2 : P y2) by by eapply Forall_lookup_1. rewrite Hy1, Hy2. destruct (less y2 y1) eqn:E.
    + split; [lia|]. unfold j1. rewrite parent_right. fold j1. split; [done|].
      intros c Hc Ep x y Hx Hy. destruct (parent_child c i Hc Ep) as [-> | ->]; fold j1 in Hy; simplify_eq;
        [by apply less_asym|by apply (less_irrefl _ _ Hord)].
    + split; [lia|]. unfold j1. rewrite parent_left. fold j1. split; [done|].
      intros c Hc Ep x y Hx Hy. destruct (parent_child c i Hc Ep) as [-> | ->]; fold j1 in Hy; simplify_eq;
        [by apply (less_irrefl _ _ Hord)|done].
  - apply Nat.ltb_ge in El. split; [lia|]. unfold j1. rewrite parent_left. fold j1. split; [done|].
    intros c Hc Ep x y Hx Hy. destruct (parent_child c i Hc Ep) as [-> | ->]; fold j1 in Hy; simplify_eq;
      [by apply (less_irrefl _ _ Hord)|]. apply lookup_lt_Some in Hy. lia.
Qed.
Lemma down_step h i j x y : Forall P h -> (i < j)%nat -> parent j = i -> h !! i = Some x -> h !! j = Some y ->
  less y x = true -> (forall c, (0 < c)%nat -> parent c = i -> edge_ok h j c) ->
  down_pre h i -> down_pre (swapAt h i j) j.
Proof.
  intros HP Hij Hpj Hx Hy Hl Hmin [H1 H2]. assert (Hne : i <> j) by lia.
  assert (HL := fun k => swapAt_lookup h i j k x y Hx Hy Hne).
  assert (Px : P x) by by eapply Forall_lookup_1. assert (Py : P y) by by eapply Forall_lookup_1.
  split.
  - intros c Hc Hcj u v. rewrite !HL. pose proof (parent_lt c Hc) as Hcl. destruct (decide (parent c = i)) as [Ep|Ep].
    + destruct (decide (c = i)); [lia|]. destruct (decide (c = j)) as [->|].
      * intros [= <-] [= <-]. by apply less_asym.
      * intros [= <-] Hv. by apply (Hmin c Hc Ep).
    + destruct (decide (parent c = j)); [done|]. destruct (decide (c = i)) as [->|].
      * intros Hu [= <-]. by apply (H2 Hc j ltac:(lia) Hpj).
      * destruct (decide (c = j)) as [->|]; [done|]. by apply H1.
  - intros Hj c Hc Ec u v. rewrite !HL. pose proof (parent_lt c Hc) as Hcl.
    rewrite decide_True, decide_False, decide_False by lia. intros [= <-] Hv.
    apply (H1 c Hc); [lia|by rewrite Ec|done].
Qed.
Lemma down_heap fuel h i : (length h <= fuel + i)%nat -> Forall P h -> down_pre h i ->
  heap (down less fuel h i).1 /\ (down less fuel h i).1 ≡ₚ h.
Proof.
  revert h i. induction fuel as [|fuel IH]; intros h i Hf HP Hpre; cbn [down].
  - split; [|done]. simpl. intros c Hc x y Hx Hy. pose proof (parent_lt c Hc). apply lookup_lt_Some in Hy as Hlt.
    apply (proj1 Hpre c Hc); [lia|done|done].
  - destruct (Nat.leb (length h) (2 * i + 1)) eqn:El; simpl.
    + apply Nat.leb_le in El. split; [|done]. intros c Hc. destruct (decide (parent c = i)) as [Ep|]; [|by apply (proj1 Hpre)].
      intros x y Hx Hy. apply lookup_lt_Some in Hy. destruct (parent_child c i Hc Ep); lia.
    + apply Nat.leb_gt in El. destruct (smallerChild_spec h i HP El) as ((Hij & Hj) & Hpj & Hmin).
      set (j := smallerChild less h i) in *. destruct (lessAt less h j i) eqn:E; simpl.
      * apply lessAt_lookup in E as (y & x & Hy & Hx & Hl).
        destruct (IH (swapAt h i j) j) as [Ha Hb].
        -- rewrite swapAt_perm. lia.
        -- by apply Forall_swapAt.
        -- by eapply down_step.
        -- split; [done|]. by rewrite Hb, swapAt_perm.
      * split; [|done]. intros c Hc. destruct (decide (parent c = i)) as [Ep|]; [|by apply (proj1 Hpre)].
        intros x z Hx Hz. rewrite Ep in Hx. destruct (lookup_lt_is_Some_2 h j Hj) as [y Hy].
        unfold lessAt in E. rewrite Hy, Hx in E.
        apply (notless_trans _ _ Hord z y x); [by eapply Forall_lookup_1..| |done]. by apply (Hmin c Hc Ep).
Qed.

Lemma Push_heap h x : Forall P (h ++ [x]) -> heap h -> heap (Push less h x) /\ Push less h x ≡ₚ x :: h.
Proof.
  intros HP Hh. unfold Push. assert (Hl : length (h ++ [x]) = S (length h)) by (rewrite length_app; simpl; lia).
  destruct (up_heap (length (h ++ [x])) (h ++ [x]) (length (h ++ [x]) - 1)) as [H1 H2]; [lia|done| |].
  - rewrite Hl. replace (S (length h) - 1)%nat with (length h) by lia. split.
    + intros c Hc Hne u v Hu Hv. apply lookup_lt_Some in Hv as Hlt. pose proof (parent_lt c Hc).
      rewrite lookup_app_l in Hu, Hv by lia. by apply (Hh c).
    + intros _ c Hc Ep u v _ Hv. pose proof (parent_lt c Hc). apply lookup_lt_Some in Hv. lia.
  - split; [done|]. rewrite H2. symmetry. apply Permutation_cons_append.
Qed.
(** Replacing the root and fixing the heap. *)
Lemma Fix_heap h x y : Forall P (y :: h) -> heap (x :: h) -> heap (Fix_ less (y :: h) 0) /\ Fix_ less (y :: h) 0 ≡ₚ y :: h.
Proof.
  intros HP Hh. unfold Fix_. destruct (down_heap (length (y :: h)) (y :: h) 0) as [H1 H2]; [lia|done| |].
  - split; [|lia]. intros c Hc Hp u v Hu Hv. destruct c as [|c]; [lia|]. destruct (parent (S c)) as [|q] eqn:E; [done|].
    by apply (Hh (S c) Hc u v); rewrite ?E.
  - destruct (down less _ (y :: h) 0) as [h' i']. simpl in *. destruct (Nat.ltb 0 i'); [done|].
    destruct h'; done.
Qed.
(** The root of a heap: nothing comes before it. *)
Lemma heap_root h x y : Forall P h -> heap h -> h !! 0%nat = Some x -> y ∈ h -> less y x = false.
Proof.
  intros HP Hh Hx Hy. apply list_elem_of_lookup in Hy as [i Hi]. revert y Hi.
  induction i as [i IH] using (well_founded_induction lt_wf). intros y Hi.
  destruct (decide (i = 0%nat)) as [->|Hn]; [simplify_eq; apply (less_irrefl _ _ Hord); by eapply Forall_lookup_1|].
  assert (Hc : (0 < i)%nat) by lia. pose proof (parent_lt i Hc) as Hlt. apply lookup_lt_Some in Hi as Hl.
  destruct (lookup_lt_is_Some_2 h (parent i) ltac:(lia)) as [z Hz].
  apply (notless_trans _ _ Hord y z x); [by eapply Forall_lookup_1..| |by eapply IH]. by apply (Hh i).
Qed.
End HeapFacts.

(** The instance of the scenarios. *)

(** *** Whatever the order, nothing is lost *)

Section HeapPerm.
Context {A : Type} (less : A -> A -> bool).
Lemma up_perm fuel (h : list A) j : up less fuel h j ≡ₚ h.
Proof.
  revert h j. induction fuel as [|fuel IH]; intros h j; cbn [up]; [done|].
  destruct (_ || _); [done|]. by rewrite IH, swapAt_perm.
Qed.
Lemma down_perm fuel (h : list A) i : (down less fuel h i).1 ≡ₚ h.
Proof.
  revert h i. induction fuel as [|fuel IH]; intros h i; cbn [down]; [done|].
  destruct (Nat.leb _ _); [done|]. destruct (negb _); [done|]. by rewrite IH, swapAt_perm.
Qed.
Lemma Push_perm (h : list A) x : Push less h x ≡ₚ x :: h.
Proof. unfold Push. rewrite up_perm. apply Permutation_sym, Permutation_cons_append. Qed.
Lemma Fix_perm (h : list A) i : Fix_ less h i ≡ₚ h.
Proof.
  unfold Fix_. pose proof (down_perm (length h) h i) as H. destruct (down less (length h) h i) as [h' i']. simpl in H.
  destruct (Nat.ltb i i'); [done|]. by rewrite up_perm.
Qed.
End HeapPerm.

(** ** Orders given by keys *)

Fixpoint lexlt (x y : list Z) : bool :=
  match x, y with
  | a :: x', b :: y' => if a =? b then lexlt x' y' else a <? b
  | _, _ => false
  end.
Lemma lexlt_irrefl x : lexlt x x = false.
Proof. induction x as [|a x IH]; simpl; [done|]. by rewrite Z.eqb_refl. Qed.
Lemma lexlt_trans x y z : lexlt x y = true -> lexlt y z = true -> lexlt x z = true.
Proof.
  revert y z. induction x as [|a x IH]; intros [|b y] [|c z]; simpl; try done.
  repeat split_if; bool_to_prop; subst; eauto; intros; bool_to_prop; subst; try lia.
Qed.
Lemma lexlt_total x y : length x = length y -> lexlt x y = false -> lexlt y x = false -> x = y.
Proof.
  revert y. induction x as [|a x IH]; intros [|b y]; simpl; try done. rewrite (Z.eqb_sym b a).
  intros [= Hl]. split_if; bool_to_prop; [subst; intros; f_equal; auto|lia].
Qed.
Lemma lexlt_neg x y z : length x = length y -> length y = length z -> lexlt x y = false -> lexlt y z = false -> lexlt x z = false.
Proof.
  intros H1 H2 Hxy Hyz. destruct (lexlt x z) eqn:Hxz; [|done]. destruct (lexlt y x) eqn:Hyx.
  - by rewrite (lexlt_trans _ _ _ Hyx Hxz) in Hyz.
  - by rewrite (lexlt_total x y H1 Hxy Hyx), Hyz in Hxz.
Qed.
Lemma key_weak_order {A} (less : A -> A -> bool) (key : A -> list Z) n (P : A -> Prop) :
  (forall x, P x -> length (key x) = n) -> (forall x y, P x -> P y -> less x y = lexlt (key x) (key y)) -> weak_order less P.
Proof.
  intros Hn Hk. split.
  - intros x Hx. rewrite Hk by done. apply lexlt_irrefl.
  - intros x y z Hx Hy Hz. rewrite !Hk by done. apply lexlt_trans.
  - intros x y z Hx Hy Hz. rewrite !Hk by done. apply lexlt_neg; by rewrite !Hn.
Qed.
Lemma key_total_order {A} (less : A -> A -> bool) (key : A -> list Z) n (P : A -> Prop) :
  (forall x, P x -> length (key x) = n) -> (forall x y, P x -> P y -> less x y = lexlt (key x) (key y)) ->
  (forall x y, P x -> P y -> key x = key y -> x = y) -> total_order less P.
Proof.
  intros Hn Hk Hi. split; [by eapply key_weak_order|]. intros x y Hx Hy. rewrite !Hk by done. intros H1 H2.
  apply Hi; [done..|]. apply lexlt_total; [by rewrite !Hn|done..].
Qed.

Definition stableSliceSort : SliceSort := {|
  sortSlice := @SliceStable; sortSlice_perm := @SliceStable_perm; sortSlice_sorted := @SliceStable_sorted |}.
