(* ===== verification/AccountQuota.v ===== *)
(** * Spending quotas of an account

    An account may carry a total, a daily and a weekly quota in its [extra]
    column.  Two programs share that state: the Go reader of
    [service/account.go], which decides whether a quota is used up, and the SQL
    writer of [repository/account_repo.go], which adds what a request cost and
    starts a new period when the old one has passed.  Each computes the period
    in its own way; the theorems show that the two agree in every state that
    administrators and requests can reach.

    The keys of [extra] are the fields of a record, [None] for an absent key; a
    time stands for its RFC 3339 text.  Amounts are decimals of the JSON column,
    counted in a unit that is fine enough for all of them; [jsonFloat] is how the
    reader parses one, [jsonNumber] how the driver sends a [float64].  The zone
    database of Go and that of PostgreSQL are parameters. *)

From S2P Require Import Prelude Float64 Errors Subscription.

(** ** Data *)

Inductive quotaPeriod := QDaily | QWeekly.

(** The keys [quota_daily_*], or [quota_weekly_*]. *)
Record quotaDim := mkDim {
  q_limit : Z;
  q_used : option Z;
  q_start : option time;
  q_reset_mode : option string;
  q_reset_hour : option Z;
  q_reset_at : option time }.
Record quotaExtra := mkExtra {
  quota_limit : Z;
  quota_used : option Z;
  quota_daily : quotaDim;
  quota_weekly : quotaDim;
  quota_weekly_reset_day : option Z;
  quota_reset_timezone : option string }.

Definition dimOf (k : quotaPeriod) (e : quotaExtra) : quotaDim :=
  match k with QDaily => quota_daily e | QWeekly => quota_weekly e end.
Definition setDim (k : quotaPeriod) (d : quotaDim) (e : quotaExtra) : quotaExtra :=
  match k with QDaily => { e with quota_daily := d } | QWeekly => { e with quota_weekly := d } end.

Class JsonNumbers := {
  jsonNumber : float64 -> Z;
  jsonFloat : Z -> float64;
  jsonFloat_positive z : SFltb fzero (jsonFloat z) = (0 <? z) }.

(** ** Fixed reset points *)

Section ResetPoints.
Context (zone : time -> duration).

(** [time.Date(t.Year(), t.Month(), t.Day(), hour, 0, 0, 0, tz)]. *)
Definition atHour (hour : Z) (t : time) : time := dateLocal zone (localDay zone t * Day + hour * Hour).
(** [t.Weekday()]; 1 January of the year 1 was a Monday. *)
Definition Weekday (t : time) : Z := (localDay zone t + 1) mod 7.

Definition nextFixedDailyReset (hour : Z) (after : time) : time :=
  let today := atHour hour after in
  if negb (Before after today) then AddDays zone today 1 else today.
Definition lastFixedDailyReset (hour : Z) (now : time) : time :=
  let today := atHour hour now in
  if Before now today then AddDays zone today (-1) else today.
Definition nextFixedWeeklyReset (day hour : Z) (after : time) : time :=
  let todayReset := atHour hour after in
  let currentDay := Weekday todayReset in
  let daysForward := Z.rem (day - currentDay + 7) 7 in
  let daysForward := if (daysForward =? 0) && negb (Before after todayReset) then 7 else daysForward in
  AddDays zone todayReset daysForward.
Definition lastFixedWeeklyReset (day hour : Z) (now : time) : time :=
  let todayReset := atHour hour now in
  let currentDay := Weekday todayReset in
  let daysBack := Z.rem (currentDay - day + 7) 7 in
  let daysBack := if (daysBack =? 0) && Before now todayReset then 7 else daysBack in
  AddDays zone todayReset (- daysBack).
End ResetPoints.

(** ** The reader: [service/account.go] *)

Section Reader.
(** [time.LoadLocation]: [None] for a name that is not in the zone database. *)
Context (LoadLocation : string -> option (time -> duration)) {numbers : JsonNumbers}.

Definition GetQuotaResetTimezone (e : quotaExtra) : string :=
  match quota_reset_timezone e with Some tz => if String.eqb tz "" then "UTC" else tz | None => "UTC" end.
Definition quotaLocation (e : quotaExtra) : time -> duration := default utcZone (LoadLocation (GetQuotaResetTimezone e)).
Definition isFixed (d : quotaDim) : bool := String.eqb (default "" (q_reset_mode d)) "fixed".
Definition GetQuotaResetMode (d : quotaDim) : string := if isFixed d then "fixed" else "rolling".
Definition GetQuotaResetHour (d : quotaDim) : Z := default 0 (q_reset_hour d).
Definition GetQuotaWeeklyResetDay (e : quotaExtra) : Z := default 1 (quota_weekly_reset_day e).

Definition isFixedDailyPeriodExpired (e : quotaExtra) (periodStart now : time) : bool :=
  if IsZero periodStart then true
  else Before periodStart (lastFixedDailyReset (quotaLocation e) (GetQuotaResetHour (quota_daily e)) now).
Definition isFixedWeeklyPeriodExpired (e : quotaExtra) (periodStart now : time) : bool :=
  if IsZero periodStart then true
  else Before periodStart
         (lastFixedWeeklyReset (quotaLocation e) (GetQuotaWeeklyResetDay e) (GetQuotaResetHour (quota_weekly e)) now).
Definition isPeriodExpired (periodStart : time) (dur : duration) (now : time) : bool :=
  if IsZero periodStart then true else dur <=? SubT now periodStart.

Definition IsDailyQuotaPeriodExpired (e : quotaExtra) (now : time) : bool :=
  let start := default 0 (q_start (quota_daily e)) in
  if String.eqb (GetQuotaResetMode (quota_daily e)) "fixed" then isFixedDailyPeriodExpired e start now
  else isPeriodExpired start (24 * Hour) now.
Definition IsWeeklyQuotaPeriodExpired (e : quotaExtra) (now : time) : bool :=
  let start := default 0 (q_start (quota_weekly e)) in
  if String.eqb (GetQuotaResetMode (quota_weekly e)) "fixed" then isFixedWeeklyPeriodExpired e start now
  else isPeriodExpired start (7 * 24 * Hour) now.

(** [limit > 0 && used >= limit], on the parsed numbers. *)
Definition usedUp (limit : Z) (used : option Z) : bool :=
  SFltb fzero (jsonFloat limit) && SFleb (jsonFloat limit) (jsonFloat (default 0 used)).
Definition HasAnyQuotaLimit (e : quotaExtra) : bool :=
  SFltb fzero (jsonFloat (quota_limit e)) || SFltb fzero (jsonFloat (q_limit (quota_daily e))) ||
  SFltb fzero (jsonFloat (q_limit (quota_weekly e))).
Definition IsQuotaExceeded (e : quotaExtra) (now : time) : bool :=
  if usedUp (quota_limit e) (quota_used e) then true
  else if negb (IsDailyQuotaPeriodExpired e now) && usedUp (q_limit (quota_daily e)) (q_used (quota_daily e)) then true
  else negb (IsWeeklyQuotaPeriodExpired e now) && usedUp (q_limit (quota_weekly e)) (q_used (quota_weekly e)).

(** ** Saving a configuration *)

(** The text of a time at the precision of seconds. *)
Definition toSeconds (t : time) : time := t / Second * Second.
Definition clampHour (d : quotaDim) : Z :=
  let hour := GetQuotaResetHour d in if (hour <? 0) || (23 <? hour) then 0 else hour.
Definition clampDay (e : quotaExtra) : Z :=
  let day := GetQuotaWeeklyResetDay e in if (day <? 0) || (6 <? day) then 1 else day.

Definition nextFixedReset (k : quotaPeriod) (e : quotaExtra) (now : time) : time :=
  match k with
  | QDaily => nextFixedDailyReset (quotaLocation e) (clampHour (quota_daily e)) now
  | QWeekly => nextFixedWeeklyReset (quotaLocation e) (clampDay e) (clampHour (quota_weekly e)) now
  end.
Definition lastFixedReset (k : quotaPeriod) (e : quotaExtra) (now : time) : time :=
  match k with
  | QDaily => lastFixedDailyReset (quotaLocation e) (clampHour (quota_daily e)) now
  | QWeekly => lastFixedWeeklyReset (quotaLocation e) (clampDay e) (clampHour (quota_weekly e)) now
  end.
Definition computeDim (k : quotaPeriod) (now : time) (e : quotaExtra) : quotaExtra :=
  let d := dimOf k e in
  setDim k { d with q_reset_at := if isFixed d then Some (toSeconds (nextFixedReset k e now)) else None } e.
Definition ComputeQuotaResetAt (now : time) (e : quotaExtra) : quotaExtra :=
  computeDim QWeekly now (computeDim QDaily now e).
Definition normalizeDim (k : quotaPeriod) (now : time) (e : quotaExtra) : quotaExtra :=
  let d := dimOf k e in
  if isFixed d && SFltb fzero (jsonFloat (q_limit d)) then
    let lastReset := lastFixedReset k e now in
    let start := default 0 (q_start d) in
    if IsZero start || Before start lastReset
    then setDim k { d with q_used := Some 0; q_start := Some (toSeconds lastReset) } e
    else e
  else e.
Definition NormalizeFixedQuotaWindows (now : time) (e : quotaExtra) : quotaExtra :=
  normalizeDim QWeekly now (normalizeDim QDaily now e).

Definition invalidQuota (msg : string) : goerror := PlainErr 1 msg.
Definition validMode (d : quotaDim) : bool :=
  match q_reset_mode d with Some mode => String.eqb mode "rolling" || String.eqb mode "fixed" | None => true end.
Definition validHour (d : quotaDim) : bool :=
  match q_reset_hour d with Some hour => (0 <=? hour) && (hour <=? 23) | None => true end.
Definition ValidateQuotaResetConfig (e : quotaExtra) : result goerror unit :=
  if match quota_reset_timezone e with
     | Some tz => negb (String.eqb tz "") && negb (bool_decide (is_Some (LoadLocation tz)))
     | None => false
     end
  then Err (invalidQuota "invalid quota_reset_timezone: must be a valid IANA timezone name")
  else if negb (validMode (quota_daily e)) then Err (invalidQuota "quota_daily_reset_mode must be 'rolling' or 'fixed'")
  else if negb (validHour (quota_daily e)) then Err (invalidQuota "quota_daily_reset_hour must be between 0 and 23")
  else if negb (validMode (quota_weekly e)) then Err (invalidQuota "quota_weekly_reset_mode must be 'rolling' or 'fixed'")
  else if match quota_weekly_reset_day e with Some day => (day <? 0) || (6 <? day) | None => false end
  then Err (invalidQuota "quota_weekly_reset_day must be between 0 (Sunday) and 6 (Saturday)")
  else if negb (validHour (quota_weekly e)) then Err (invalidQuota "quota_weekly_reset_hour must be between 0 and 23")
  else Ok tt.

(** What an edit keeps of the stored keys. *)
Definition keepUsage (stored submitted : quotaDim) : quotaDim :=
  { submitted with q_used := match q_used stored with Some u => Some u | None => q_used submitted end;
                   q_start := match q_start stored with Some s => Some s | None => q_start submitted end }.
(** An edit of the account with the submitted [extra]; [now1] and [now2] are the
    readings of the clock in the two functions. *)
Definition saveQuota (submitted : quotaExtra) (now1 now2 : time) (stored : quotaExtra) : result goerror quotaExtra :=
  let e := { submitted with quota_used := match quota_used stored with Some u => Some u | None => quota_used submitted end;
                            quota_daily := keepUsage (quota_daily stored) (quota_daily submitted);
                            quota_weekly := keepUsage (quota_weekly stored) (quota_weekly submitted) } in
  match ValidateQuotaResetConfig e with
  | Err err => Err err
  | Ok _ => Ok (NormalizeFixedQuotaWindows now2 (ComputeQuotaResetAt now1 e))
  end.
End Reader.

(** ** The writer: [repository/account_repo.go] *)

Section Writer.
(** [AT TIME ZONE name]: the zone a name denotes in the database, [None] for a
    name it refuses; and the instant at which the clocks of a zone show a
    reading. *)
Context (pgZone : string -> option (time -> duration)) (pgInstant : (time -> duration) -> Z -> time) {numbers : JsonNumbers}.

Definition UnknownZone : goerror := PlainErr 2 "pq: time zone not recognized".
Definition pgEpoch : time := unixEpoch.
Definition sqlTimezone (e : quotaExtra) : string := default "UTC" (quota_reset_timezone e).

Definition dailyExpiredExpr (e : quotaExtra) (now : time) : bool :=
  let d := quota_daily e in
  if String.eqb (default "rolling" (q_reset_mode d)) "fixed" then default pgEpoch (q_reset_at d) <=? now
  else default pgEpoch (q_start d) + 24 * Hour <=? now.
Definition weeklyExpiredExpr (e : quotaExtra) (now : time) : bool :=
  let d := quota_weekly e in
  if String.eqb (default "rolling" (q_reset_mode d)) "fixed" then default pgEpoch (q_reset_at d) <=? now
  else default pgEpoch (q_start d) + 168 * Hour <=? now.

(** Midnight of the local day of [now], as a reading of the clock. *)
Definition truncDay (zone : time -> duration) (now : time) : Z := (now + zone now) / Day * Day.
(** [None] is NULL, outside of the fixed mode. *)
Definition nextDailyResetAtExpr (e : quotaExtra) (now : time) : result goerror (option time) :=
  let d := quota_daily e in
  if String.eqb (default "rolling" (q_reset_mode d)) "fixed" then
    match pgZone (sqlTimezone e) with
    | None => Err UnknownZone
    | Some zone =>
        let today := truncDay zone now + default 0 (q_reset_hour d) * Hour in
        Ok (Some (toSeconds (if pgInstant zone today <=? now then pgInstant zone (today + Day) else pgInstant zone today)))
    end
  else Ok None.
(** [EXTRACT(DOW FROM ...)]. *)
Definition dow (zone : time -> duration) (now : time) : Z := ((now + zone now) / Day + 1) mod 7.
Definition nextWeeklyResetAtExpr (e : quotaExtra) (now : time) : result goerror (option time) :=
  let d := quota_weekly e in
  if String.eqb (default "rolling" (q_reset_mode d)) "fixed" then
    match pgZone (sqlTimezone e) with
    | None => Err UnknownZone
    | Some zone =>
        let today := truncDay zone now + default 0 (q_reset_hour d) * Hour in
        let days_forward := Z.rem (default 1 (quota_weekly_reset_day e) - dow zone now + 7) 7 in
        Ok (Some (toSeconds (
          if (days_forward =? 0) && (pgInstant zone today <=? now) then pgInstant zone (today + 7 * Day)
          else pgInstant zone (today + days_forward * Day))))
    end
  else Ok None.

Definition expiredExpr (k : quotaPeriod) : quotaExtra -> time -> bool :=
  match k with QDaily => dailyExpiredExpr | QWeekly => weeklyExpiredExpr end.
Definition nextResetAtExpr (k : quotaPeriod) : quotaExtra -> time -> result goerror (option time) :=
  match k with QDaily => nextDailyResetAtExpr | QWeekly => nextWeeklyResetAtExpr end.

(** The keys of one period in the UPDATE; the right-hand sides read the row [e]
    as it was before. *)
Definition incrementDim (k : quotaPeriod) (amount : Z) (e : quotaExtra) (now : time) : result goerror quotaDim :=
  let d := dimOf k e in
  if 0 <? q_limit d then
    let d1 := { d with q_used := Some (if expiredExpr k e now then amount else default 0 (q_used d) + amount);
                       q_start := Some (if expiredExpr k e now then now else default now (q_start d)) } in
    if expiredExpr k e now then
      match nextResetAtExpr k e now with
      | Err err => Err err
      | Ok None => Ok d1
      | Ok (Some at_) => Ok { d1 with q_reset_at := Some at_ }
      end
    else Ok d1
  else Ok d.
Definition stmt_incrementQuota (amount : Z) (now : time) (e : quotaExtra) : result goerror quotaExtra :=
  match incrementDim QDaily amount e now, incrementDim QWeekly amount e now with
  | Ok daily, Ok weekly =>
      Ok { e with quota_used := Some (default 0 (quota_used e) + amount); quota_daily := daily; quota_weekly := weekly }
  | Err err, _ | _, Err err => Err err
  end.
(** The new row, and whether the schedulers are told that the total quota has
    just been used up. *)
Definition IncrementQuotaUsed (amount : float64) (now : time) (e : quotaExtra) : result goerror (quotaExtra * bool) :=
  match stmt_incrementQuota (jsonNumber amount) now e with
  | Err err => Err err
  | Ok e' =>
      let newUsed := jsonFloat (default 0 (quota_used e')) in
      let limit := jsonFloat (quota_limit e') in
      Ok (e', SFltb fzero limit && SFleb limit newUsed && SFltb (SFsub 53 1024 newUsed amount) limit)
  end.

Definition clearDim (d : quotaDim) : quotaDim :=
  { d with q_used := Some 0; q_start := None; q_reset_at := None }.
Definition ResetQuotaUsed (e : quotaExtra) : quotaExtra :=
  { e with quota_used := Some 0; quota_daily := clearDim (quota_daily e); quota_weekly := clearDim (quota_weekly e) }.
End Writer.

(** ** Lemmas: reset points *)

(** A zone in which the clocks show each whole hour [hour] once a day, at the
    instant [time.Date] finds, and are never put by a day. *)
Definition resetPoint (zone : time -> duration) (hour d : Z) : time := dateLocal zone (d * Day + hour * Hour).
Record regular_clock (zone : time -> duration) (hour : Z) : Prop := {
  clock_hour : 0 <= hour < 24;
  clock_shows d : resetPoint zone hour d + zone (resetPoint zone hour d) = d * Day + hour * Hour;
  clock_once d u : u + zone u = d * Day + hour * Hour -> u = resetPoint zone hour d;
  clock_day t : resetPoint zone hour (localDay zone t - 1) <= t < resetPoint zone hour (localDay zone t + 1);
  clock_seconds t : zone t mod Second = 0;
  clock_offset t : - Day < zone t < Day }.

Lemma fixed_regular d hour : 0 <= hour < 24 -> d mod Second = 0 -> - Day < d < Day -> regular_clock (fun _ => d) hour.
Proof.
  intros Hh Hd Hb. assert (E : forall m, dateLocal (fun _ => d) m = m - d).
  { intros m. unfold dateLocal. destruct (d =? 0) eqn:E; bool_to_prop; lia. }
  split; [done|..]; unfold resetPoint; intros; rewrite ?E; try lia.
  unfold localDay. pose proof (Z.div_mod (t + d) Day). pose proof (Z.mod_pos_bound (t + d) Day).
  unfold Day, Hour, Minute, Second in *. lia.
Qed.

Section ResetPointFacts.
Context (zone : time -> duration) (hour : Z) (Hclock : regular_clock zone hour).
Abbreviation R := (resetPoint zone hour).

Lemma localDay_resetPoint d : localDay zone (R d) = d.
Proof.
  unfold localDay. rewrite (clock_shows _ _ Hclock). pose proof (clock_hour _ _ Hclock).
  symmetry. apply (Z.div_unique _ _ _ (hour * Hour)); unfold Day, Hour, Minute, Second in *; lia.
Qed.
Lemma resetPoint_succ d : R d < R (d + 1).
Proof. pose proof (clock_day _ _ Hclock (R d)) as H. rewrite localDay_resetPoint in H. lia. Qed.
Lemma resetPoint_lt d n : d < n -> R d < R n.
Proof.
  intros H. replace n with (d + Z.of_nat (Z.to_nat (n - d))) by lia.
  assert (Hk : (0 < Z.to_nat (n - d))%nat) by lia. induction (Z.to_nat (n - d)) as [|k IH]; [lia|].
  destruct k as [|k]; [apply resetPoint_succ|]. pose proof (resetPoint_succ (d + Z.of_nat (S k))) as Hs.
  replace (d + Z.of_nat (S (S k))) with (d + Z.of_nat (S k) + 1) by lia. specialize (IH ltac:(lia)). lia.
Qed.
Lemma resetPoint_le d n : d <= n -> R d <= R n.
Proof. intros H. destruct (decide (d = n)) as [->|]; [done|]. pose proof (resetPoint_lt d n). lia. Qed.
Lemma resetPoint_inv d n : R d < R n -> d < n.
Proof. intros H. destruct (decide (d < n)); [done|]. pose proof (resetPoint_le n d). lia. Qed.
Lemma resetPoint_seconds d : toSeconds (R d) = R d.
Proof.
  unfold toSeconds. pose proof (clock_shows _ _ Hclock d) as H. pose proof (clock_seconds _ _ Hclock (R d)) as Hs.
  apply Z.div_exact in Hs; [|done]. rewrite Z.mul_comm. symmetry. apply Z.div_exact; [done|].
  assert (E : R d = (d * 86400 + hour * 3600 - zone (R d) / Second) * Second)
    by (unfold Day, Hour, Minute in H; unfold Second in *; lia).
  rewrite E. by apply Z.mod_mul.
Qed.
Lemma atHour_eq t : atHour zone hour t = R (localDay zone t).
Proof. done. Qed.
Lemma AddDays_resetPoint d n : AddDays zone (R d) n = R (d + n).
Proof. unfold AddDays. rewrite (clock_shows _ _ Hclock). unfold resetPoint. f_equal. lia. Qed.
Lemma Weekday_resetPoint d : Weekday zone (R d) = (d + 1) mod 7.
Proof. unfold Weekday. by rewrite localDay_resetPoint. Qed.

(** The reset points of a period, by their day, and the distance of two. *)
Definition step (k : quotaPeriod) : Z := match k with QDaily => 1 | QWeekly => 7 end.
Definition isPoint (k : quotaPeriod) (day d : Z) : Prop := match k with QDaily => True | QWeekly => (d + 1) mod 7 = day end.
Definition nextFixed (k : quotaPeriod) (day : Z) (t : time) : time :=
  match k with QDaily => nextFixedDailyReset zone hour t | QWeekly => nextFixedWeeklyReset zone day hour t end.
Definition lastFixed (k : quotaPeriod) (day : Z) (t : time) : time :=
  match k with QDaily => lastFixedDailyReset zone hour t | QWeekly => lastFixedWeeklyReset zone day hour t end.

(** Go's remainder after adding 7 is the distance between two weekdays. *)
Lemma weekday_distance a b : 0 <= a < 7 -> 0 <= b < 7 ->
  0 <= Z.rem (a - b + 7) 7 < 7 /\ (b + Z.rem (a - b + 7) 7) mod 7 = a.
Proof. intros Ha Hb. rewrite Z.rem_mod_nonneg by lia. pose proof (Z.mod_pos_bound (a - b + 7) 7). split; [lia|].
  rewrite Z.add_mod_idemp_r by lia. replace (b + (a - b + 7)) with (a + 1 * 7) by lia. rewrite Z.mod_add by lia. apply Z.mod_small. lia. Qed.
Lemma isPoint_step k day d : isPoint k day d -> isPoint k day (d - step k).
Proof. destruct k; [done|]. simpl. intros <-. replace (d - 7 + 1) with (d + 1 + (-1) * 7) by lia. by apply Z.mod_add. Qed.

Lemma nextFixed_spec k day t : 0 <= day < 7 ->
  exists d, nextFixed k day t = R d /\ isPoint k day d /\ R (d - step k) <= t < R d.
Proof.
  intros Hday. pose proof (clock_day _ _ Hclock t) as Ht. set (d := localDay zone t) in *.
  destruct k; unfold nextFixed, nextFixedDailyReset, nextFixedWeeklyReset; rewrite !atHour_eq; fold d.
  - unfold Before. destruct (t <? R d) eqn:E; simpl; bool_to_prop.
    + exists d. split; [done|]. split; [done|]. simpl. lia.
    + exists (d + 1). rewrite AddDays_resetPoint. split; [done|]. split; [done|]. simpl. replace (d + 1 - 1) with d by lia. lia.
  - rewrite Weekday_resetPoint. destruct (weekday_distance day ((d + 1) mod 7)) as [Hf Hm]; [lia|apply Z.mod_pos_bound; lia|].
    set (f := Z.rem _ _) in *. rewrite Z.add_mod_idemp_l in Hm by lia.
    assert (Hle : forall n, d <= n -> R d <= R n) by (intros; by apply resetPoint_le).
    unfold Before. destruct (f =? 0) eqn:E0, (t <? R d) eqn:E; simpl; bool_to_prop; rewrite AddDays_resetPoint; eexists; (split; [done|]); simpl.
    + split; [rewrite <- Hm; f_equal; lia|]. rewrite E0, Z.add_0_r. pose proof (resetPoint_le (d - 7) (d - 1)). lia.
    + split; [rewrite <- Hm; replace (d + 7 + 1) with (d + 1 + f + 1 * 7) by lia; by apply Z.mod_add|].
      replace (d + 7 - 7) with d by lia. pose proof (resetPoint_le (d + 1) (d + 7)). lia.
    + split; [rewrite <- Hm; f_equal; lia|]. pose proof (resetPoint_le (d + f - 7) (d - 1)). pose proof (resetPoint_le (d + 1) (d + f)). lia.
    + split; [rewrite <- Hm; f_equal; lia|]. pose proof (resetPoint_le (d + f - 7) (d - 1)). pose proof (resetPoint_le (d + 1) (d + f)). lia.
Qed.
Lemma lastFixed_spec k day t : 0 <= day < 7 ->
  exists d, lastFixed k day t = R d /\ isPoint k day d /\ R d <= t < R (d + step k).
Proof.
  intros Hday. pose proof (clock_day _ _ Hclock t) as Ht. set (d := localDay zone t) in *.
  destruct k; unfold lastFixed, lastFixedDailyReset, lastFixedWeeklyReset; rewrite !atHour_eq; fold d.
  - unfold Before. destruct (t <? R d) eqn:E; simpl; bool_to_prop.
    + exists (d - 1). rewrite AddDays_resetPoint. split; [done|]. split; [done|]. simpl. replace (d - 1 + 1) with d by lia. lia.
    + exists d. split; [done|]. split; [done|]. simpl. lia.
  - rewrite Weekday_resetPoint. destruct (weekday_distance ((d + 1) mod 7) day) as [Hf Hm]; [apply Z.mod_pos_bound; lia|lia|].
    set (f := Z.rem _ _) in *.
    assert (Hp : forall n, n mod 7 = f -> (d - n + 1) mod 7 = day).
    { intros n Hn. rewrite <- (Z.mod_small day 7) by lia. replace (d - n + 1) with (d + 1 - n) by lia.
      rewrite Zminus_mod, Hn, <- Hm, <- Zminus_mod_idemp_l. rewrite Z.mod_mod by lia.
      rewrite Zminus_mod_idemp_l. f_equal. lia. }
    unfold Before. destruct (f =? 0) eqn:E0, (t <? R d) eqn:E; simpl; bool_to_prop; rewrite AddDays_resetPoint; eexists; (split; [done|]); simpl.
    + change (Z.opp 7) with (-7). split; [apply (Hp 7); by rewrite E0|]. replace (d + -7 + 7) with d by lia. pose proof (resetPoint_le (d + -7) (d - 1)). lia.
    + split; [replace (d + - f + 1) with (d - f + 1) by lia; apply Hp, Z.mod_small; lia|].
      rewrite E0, Z.opp_0, Z.add_0_r. pose proof (resetPoint_le (d + 1) (d + 7)). lia.
    + split; [replace (d + - f + 1) with (d - f + 1) by lia; apply Hp, Z.mod_small; lia|].
      pose proof (resetPoint_le (d + - f) (d - 1)). pose proof (resetPoint_le (d + 1) (d + - f + 7)). lia.
    + split; [replace (d + - f + 1) with (d - f + 1) by lia; apply Hp, Z.mod_small; lia|].
      pose proof (resetPoint_le (d + - f) (d - 1)). pose proof (resetPoint_le (d + 1) (d + - f + 7)). lia.
Qed.

Lemma isPoint_close k day d n : isPoint k day d -> isPoint k day n -> d < n + step k -> d <= n.
Proof.
  destruct k; simpl; [lia|]. intros Hd Hn Hlt. rewrite <- Hn in Hd.
  pose proof (Z.div_mod (d + 1) 7). pose proof (Z.div_mod (n + 1) 7). lia.
Qed.
(** The next reset point after [s] has come exactly when the last one is after [s]. *)
Lemma last_next k day s t : 0 <= day < 7 -> s < lastFixed k day t <-> nextFixed k day s <= t.
Proof.
  intros Hday. destruct (nextFixed_spec k day s Hday) as (d & -> & Hd & Hs).
  destruct (lastFixed_spec k day t Hday) as (n & -> & Hn & Ht). split; intros H.
  - assert (Hlt : d - step k < n) by (apply resetPoint_inv; lia).
    pose proof (isPoint_close k day d n Hd Hn). pose proof (resetPoint_le d n). lia.
  - assert (Hlt : d < n + step k) by (apply resetPoint_inv; lia).
    pose proof (isPoint_close k day d n Hd Hn Hlt). pose proof (resetPoint_le d n). lia.
Qed.
Lemma next_after k day s : 0 <= day < 7 -> s < nextFixed k day s.
Proof. intros Hday. destruct (nextFixed_spec k day s Hday) as (d & -> & _ & H). lia. Qed.
Lemma last_before k day t : 0 <= day < 7 -> lastFixed k day t <= t.
Proof. intros Hday. destruct (lastFixed_spec k day t Hday) as (d & -> & _ & H). lia. Qed.
Lemma next_mono k day s t : 0 <= day < 7 -> s <= t -> nextFixed k day s <= nextFixed k day t.
Proof.
  intros Hday Hst. pose proof (next_after k day t Hday). apply last_next; [done|].
  destruct (Z.lt_ge_cases t (lastFixed k day (nextFixed k day t))); [lia|].
  assert (t < lastFixed k day (nextFixed k day t)); [|lia]. by apply last_next.
Qed.
Lemma last_mono k day s t : 0 <= day < 7 -> s <= t -> lastFixed k day s <= lastFixed k day t.
Proof.
  intros Hday Hst. destruct (lastFixed_spec k day s Hday) as (d & -> & Hd & Hs).
  destruct (lastFixed_spec k day t Hday) as (n & -> & Hn & Ht).
  assert (d < n + step k) by (apply resetPoint_inv; lia). apply resetPoint_le. by apply (isPoint_close k day).
Qed.
Lemma last_same k day s t : 0 <= day < 7 -> s <= t -> lastFixed k day t <= s -> lastFixed k day s = lastFixed k day t.
Proof.
  intros Hday Hst H. pose proof (last_mono k day s t Hday Hst) as Hm. revert Hm H.
  destruct (lastFixed_spec k day s Hday) as (d & -> & Hd & Hs). destruct (lastFixed_spec k day t Hday) as (n & -> & Hn & Ht).
  intros Hm H. assert (n < d + step k) by (apply resetPoint_inv; lia). pose proof (isPoint_close k day n d Hn Hd).
  pose proof (resetPoint_le n d). lia.
Qed.
Lemma next_le_last k day s t : 0 <= day < 7 -> s < lastFixed k day t -> nextFixed k day s <= lastFixed k day t.
Proof.
  intros Hday Hst%last_next; [|done]. destruct (nextFixed_spec k day s Hday) as (d & E & Hd & Hs). rewrite E in *.
  destruct (lastFixed_spec k day t Hday) as (n & -> & Hn & Ht).
  assert (d < n + step k) by (apply resetPoint_inv; lia). apply resetPoint_le. by apply (isPoint_close k day).
Qed.
Lemma last_positive k day t : 0 <= day < 7 -> unixEpoch <= t -> 0 < lastFixed k day t.
Proof.
  intros Hday Ht. destruct (lastFixed_spec k day t Hday) as (d & -> & _ & _ & Hd).
  pose proof (clock_shows _ _ Hclock d). pose proof (clock_shows _ _ Hclock (d + step k)).
  pose proof (clock_offset _ _ Hclock (R d)). pose proof (clock_offset _ _ Hclock (R (d + step k))).
  pose proof (clock_hour _ _ Hclock). assert (0 < step k <= 7) by (by destruct k). assert (unixEpoch = 719162 * Day) by done.
  unfold Day, Hour, Minute, Second in *. lia.
Qed.
(** Without a reset point in between, the next one is the same. *)
Lemma next_same k day s t : 0 <= day < 7 -> s <= t -> lastFixed k day t <= s -> nextFixed k day s = nextFixed k day t.
Proof.
  intros Hday Hst H. pose proof (next_mono k day s t Hday Hst).
  destruct (nextFixed_spec k day s Hday) as (d & Ed & Hd & Hs). destruct (nextFixed_spec k day t Hday) as (n & En & Hn & Ht).
  destruct (lastFixed_spec k day t Hday) as (m & Em & Hm & Hmt). rewrite Ed, En, Em in *. f_equal.
  assert (m < d) by (apply resetPoint_inv; lia).
  assert (n - step k < m + step k) by (apply resetPoint_inv; lia). assert (m < n) by (apply resetPoint_inv; lia).
  assert (n - step k <= m) by (apply (isPoint_close k day); [by apply isPoint_step|done|lia]).
  assert (d <= n).
  { assert (R d <= R n) by lia. destruct (Z.lt_ge_cases n d) as [Hc|]; [|done]. pose proof (resetPoint_lt n d Hc). lia. }
  assert (n < d + step k) by lia. pose proof (isPoint_close k day n d Hn Hd). lia.
Qed.
Lemma fixed_seconds k day t : 0 <= day < 7 ->
  toSeconds (nextFixed k day t) = nextFixed k day t /\ toSeconds (lastFixed k day t) = lastFixed k day t.
Proof.
  intros Hday. destruct (nextFixed_spec k day t Hday) as (d & -> & _). destruct (lastFixed_spec k day t Hday) as (n & -> & _).
  split; apply resetPoint_seconds.
Qed.

(** The expressions of the database compute the same point. *)
Context (pgInstant : (time -> duration) -> Z -> time).
Context (pg_instant : forall m t, t + zone t = m -> (forall u, u + zone u = m -> u = t) -> pgInstant zone m = t).
Lemma pgInstant_resetPoint d : pgInstant zone (d * Day + hour * Hour) = R d.
Proof. apply pg_instant; [apply (clock_shows _ _ Hclock)|apply (clock_once _ _ Hclock)]. Qed.
Lemma sql_daily now :
  (if pgInstant zone (truncDay zone now + hour * Hour) <=? now then pgInstant zone (truncDay zone now + hour * Hour + Day)
   else pgInstant zone (truncDay zone now + hour * Hour)) = nextFixed QDaily 0 now.
Proof.
  unfold truncDay. fold (localDay zone now). set (d := localDay zone now).
  replace (d * Day + hour * Hour + Day) with ((d + 1) * Day + hour * Hour) by lia. rewrite !pgInstant_resetPoint.
  unfold nextFixed, nextFixedDailyReset. rewrite atHour_eq. fold d. rewrite AddDays_resetPoint. unfold Before.
  destruct (R d <=? now) eqn:E, (now <? R d) eqn:E'; simpl; bool_to_prop; done || lia.
Qed.
Lemma sql_weekly day now :
  (if (Z.rem (day - dow zone now + 7) 7 =? 0) && (pgInstant zone (truncDay zone now + hour * Hour) <=? now)
   then pgInstant zone (truncDay zone now + hour * Hour + 7 * Day)
   else pgInstant zone (truncDay zone now + hour * Hour + Z.rem (day - dow zone now + 7) 7 * Day)) = nextFixed QWeekly day now.
Proof.
  unfold truncDay, dow. fold (localDay zone now). set (d := localDay zone now). set (f := Z.rem _ _).
  replace (d * Day + hour * Hour + 7 * Day) with ((d + 7) * Day + hour * Hour) by lia.
  replace (d * Day + hour * Hour + f * Day) with ((d + f) * Day + hour * Hour) by lia. rewrite !pgInstant_resetPoint.
  unfold nextFixed, nextFixedWeeklyReset. rewrite atHour_eq. fold d. rewrite Weekday_resetPoint. fold f.
  unfold Before. destruct (f =? 0), (R d <=? now) eqn:E, (now <? R d) eqn:E'; simpl; bool_to_prop; rewrite ?AddDays_resetPoint; done || lia.
Qed.
End ResetPointFacts.

(** ** Lemmas: the states of a quota *)

Lemma dimOf_setDim k d e : dimOf k (setDim k d e) = d.
Proof. by destruct k. Qed.
Lemma dimOf_setDim_ne k k' d e : k <> k' -> dimOf k' (setDim k d e) = dimOf k' e.
Proof. by destruct k, k'. Qed.
Lemma GetMode_fixed d : String.eqb (GetQuotaResetMode d) "fixed" = isFixed d.
Proof. unfold GetQuotaResetMode. by destruct (isFixed d). Qed.
Lemma sqlMode_fixed d : String.eqb (default "rolling" (q_reset_mode d)) "fixed" = isFixed d.
Proof. unfold isFixed. by destruct (q_reset_mode d). Qed.

Section States.
Context (LoadLocation pgZone : string -> option (time -> duration)) (pgInstant : (time -> duration) -> Z -> time).
Context {numbers : JsonNumbers}.
Abbreviation location := (quotaLocation LoadLocation).

Definition IsQuotaPeriodExpired (k : quotaPeriod) : quotaExtra -> time -> bool :=
  match k with QDaily => IsDailyQuotaPeriodExpired LoadLocation | QWeekly => IsWeeklyQuotaPeriodExpired LoadLocation end.
(** What the reader takes to be used, and what the writer adds to. *)
Definition usedSeen (k : quotaPeriod) (e : quotaExtra) (now : time) : Z :=
  if IsQuotaPeriodExpired k e now then 0 else default 0 (q_used (dimOf k e)).
Definition usedKept (k : quotaPeriod) (e : quotaExtra) (now : time) : Z :=
  if expiredExpr k e now then 0 else default 0 (q_used (dimOf k e)).

(** The configuration: what an edit may change and a request may not. *)
Definition hourOf (k : quotaPeriod) (e : quotaExtra) : Z := GetQuotaResetHour (dimOf k e).
Definition nextPoint (k : quotaPeriod) (e : quotaExtra) : time -> time :=
  nextFixed (location e) (hourOf k e) k (GetQuotaWeeklyResetDay e).
Definition lastPoint (k : quotaPeriod) (e : quotaExtra) : time -> time :=
  lastFixed (location e) (hourOf k e) k (GetQuotaWeeklyResetDay e).
Definition sameConfig (e e' : quotaExtra) : Prop :=
  quota_limit e' = quota_limit e /\ quota_weekly_reset_day e' = quota_weekly_reset_day e /\
  quota_reset_timezone e' = quota_reset_timezone e /\
  forall k, q_limit (dimOf k e') = q_limit (dimOf k e) /\ q_reset_mode (dimOf k e') = q_reset_mode (dimOf k e) /\
            q_reset_hour (dimOf k e') = q_reset_hour (dimOf k e).
(** Go and the database know the zone under the name, and its clocks are
    regular at the hours in use. *)
Record config_ok (e : quotaExtra) : Prop := {
  cfg_valid : ValidateQuotaResetConfig LoadLocation e = Ok tt;
  cfg_zone : pgZone (sqlTimezone e) = Some (location e);
  cfg_clock k : isFixed (dimOf k e) = true -> regular_clock (location e) (hourOf k e) }.

Lemma sameConfig_fixed e e' k : sameConfig e e' -> isFixed (dimOf k e') = isFixed (dimOf k e).
Proof. intros (_ & _ & _ & H). unfold isFixed. by destruct (H k) as (_ & -> & _). Qed.
Lemma sameConfig_points e e' k : sameConfig e e' -> nextPoint k e' = nextPoint k e /\ lastPoint k e' = lastPoint k e.
Proof.
  intros (_ & Hd & Hz & H). destruct (H k) as (_ & _ & Hh).
  unfold nextPoint, lastPoint, hourOf, GetQuotaResetHour, GetQuotaWeeklyResetDay, quotaLocation, GetQuotaResetTimezone.
  by rewrite Hd, Hz, Hh.
Qed.
Lemma sameConfig_sym e e' : sameConfig e e' -> sameConfig e' e.
Proof. intros (H1 & H2 & H3 & H). repeat split; try done; by destruct (H k) as (? & ? & ?). Qed.
Lemma config_ok_same e e' : sameConfig e e' -> config_ok e -> config_ok e'.
Proof.
  intros Hs [H1 H2 H3]. destruct Hs as (Hl & Hd & Hz & H).
  destruct (H QDaily) as (_ & Dm & Dh), (H QWeekly) as (_ & Wm & Wh). split.
  - rewrite <- H1. unfold ValidateQuotaResetConfig, validMode, validHour. simpl in *. by rewrite Hd, Hz, Dm, Dh, Wm, Wh.
  - unfold sqlTimezone, quotaLocation, GetQuotaResetTimezone in *. by rewrite Hz.
  - intros k Hf. rewrite (sameConfig_fixed e e' k) in Hf by (by repeat split; try done; apply H).
    unfold hourOf, GetQuotaResetHour, quotaLocation, GetQuotaResetTimezone in *. destruct (H k) as (_ & _ & Hh). rewrite Hz, Hh. by apply H3.
Qed.

Lemma valid_bounds e : ValidateQuotaResetConfig LoadLocation e = Ok tt ->
  0 <= GetQuotaWeeklyResetDay e < 7 /\ forall k, 0 <= hourOf k e < 24.
Proof.
  unfold ValidateQuotaResetConfig, validHour, GetQuotaWeeklyResetDay, hourOf, GetQuotaResetHour.
  destruct (match quota_reset_timezone e with Some _ => _ | None => _ end); [done|].
  destruct (negb (validMode (quota_daily e))); [done|]. destruct (negb (match q_reset_hour (quota_daily e) with Some _ => _ | _ => _ end)) eqn:E1; [done|].
  destruct (negb (validMode (quota_weekly e))); [done|]. destruct (match quota_weekly_reset_day e with Some _ => _ | None => _ end) eqn:E2; [done|].
  destruct (negb (match q_reset_hour (quota_weekly e) with Some _ => _ | _ => _ end)) eqn:E3; [done|]. intros _. split.
  - destruct (quota_weekly_reset_day e); simpl; bool_to_prop; lia.
  - intros []; simpl; [destruct (q_reset_hour (quota_daily e))|destruct (q_reset_hour (quota_weekly e))]; simpl; bool_to_prop; lia.
Qed.
Lemma clamp_valid e : ValidateQuotaResetConfig LoadLocation e = Ok tt ->
  clampDay e = GetQuotaWeeklyResetDay e /\ forall k, clampHour (dimOf k e) = hourOf k e.
Proof.
  intros H. destruct (valid_bounds e H) as [Hd Hh]. unfold clampDay, clampHour. split.
  - destruct (_ || _) eqn:E; [|done]. apply orb_true_iff in E as [E|E]; bool_to_prop; lia.
  - intros k. fold (hourOf k e). specialize (Hh k). destruct (_ || _) eqn:E; [|done]. apply orb_true_iff in E as [E|E]; bool_to_prop; lia.
Qed.
Lemma fixed_points k e now : ValidateQuotaResetConfig LoadLocation e = Ok tt ->
  nextFixedReset LoadLocation k e now = nextPoint k e now /\ lastFixedReset LoadLocation k e now = lastPoint k e now.
Proof.
  intros H. destruct (clamp_valid e H) as [Hd Hh]. unfold nextFixedReset, lastFixedReset, nextPoint, lastPoint, nextFixed, lastFixed.
  specialize (Hh k). destruct k; simpl in Hh; by rewrite ?Hd, Hh.
Qed.

(** The reader in the fixed mode. *)
Lemma reader_fixed k e now : isFixed (dimOf k e) = true ->
  IsQuotaPeriodExpired k e now =
  IsZero (default 0 (q_start (dimOf k e))) || Before (default 0 (q_start (dimOf k e))) (lastPoint k e now).
Proof.
  intros Hf. destruct k; simpl in *; unfold IsDailyQuotaPeriodExpired, IsWeeklyQuotaPeriodExpired; rewrite GetMode_fixed, Hf;
    unfold isFixedDailyPeriodExpired, isFixedWeeklyPeriodExpired; by destruct (IsZero _).
Qed.
Lemma writer_fixed k e now : isFixed (dimOf k e) = true ->
  expiredExpr k e now = (default pgEpoch (q_reset_at (dimOf k e)) <=? now).
Proof. intros Hf. destruct k; simpl in *; unfold dailyExpiredExpr, weeklyExpiredExpr; by rewrite sqlMode_fixed, Hf. Qed.

(** Late enough for the defaults of the database: from 8 January 1970 on. *)
Definition late (now : time) : Prop := unixEpoch + 168 * Hour <= now.
Lemma rolling_agree k e now : late now -> isFixed (dimOf k e) = false -> IsQuotaPeriodExpired k e now = expiredExpr k e now.
Proof.
  intros Hl Hf. assert (E : forall s dur, 0 < dur <= 168 * Hour -> isPeriodExpired (default 0 s) dur now = (default pgEpoch s + dur <=? now)).
  { intros s dur Hdur. unfold late, isPeriodExpired, IsZero, SubT, pgEpoch, unixEpoch in *.
    assert (0 < utc 0) by done. destruct s as [s|]; simpl; [|symmetry; apply Z.leb_le; lia].
    destruct (s =? 0) eqn:E; bool_to_prop; [subst; symmetry; apply Z.leb_le; lia|].
    unfold sat64, min_int64, max_int64, Hour, Minute, Second in *.
    destruct (dur <=? _) eqn:E1, (s + dur <=? now) eqn:E2; bool_to_prop; try done; lia. }
  destruct k; simpl in *; unfold IsDailyQuotaPeriodExpired, IsWeeklyQuotaPeriodExpired, dailyExpiredExpr, weeklyExpiredExpr;
    rewrite GetMode_fixed, sqlMode_fixed, Hf; apply E; done.
Qed.

(** What holds between edits, resets and increments up to [t]. *)
Definition started (k : quotaPeriod) (e : quotaExtra) (t : time) : Prop :=
  exists s r, q_start (dimOf k e) = Some s /\ 0 < s <= t /\ q_reset_at (dimOf k e) = Some r /\
    (r = nextPoint k e s \/ default 0 (q_used (dimOf k e)) = 0 /\ r <= s).
Definition fresh (k : quotaPeriod) (e : quotaExtra) : Prop :=
  q_start (dimOf k e) = None /\ q_reset_at (dimOf k e) = None /\ default 0 (q_used (dimOf k e)) = 0.
Record quota_ok (t : time) (e : quotaExtra) : Prop := {
  ok_late : late t;
  ok_config : config_ok e;
  ok_start k s : q_start (dimOf k e) = Some s -> s <= t;
  ok_fixed k : isFixed (dimOf k e) = true -> 0 < q_limit (dimOf k e) -> fresh k e \/ started k e t }.

Lemma points_of e k : config_ok e -> isFixed (dimOf k e) = true ->
  regular_clock (location e) (hourOf k e) /\ 0 <= GetQuotaWeeklyResetDay e < 7.
Proof. intros [H1 H2 H3] Hf. split; [by apply H3|]. by apply valid_bounds. Qed.

Lemma usedSeen_usedKept t e k now : quota_ok t e -> t <= now -> 0 < q_limit (dimOf k e) -> usedSeen k e now = usedKept k e now.
Proof.
  intros [Hl Hc Hs Hf] Hn Hlim. unfold usedSeen, usedKept.
  assert (Hln : late now) by (unfold late in *; lia).
  destruct (isFixed (dimOf k e)) eqn:E; [|by rewrite rolling_agree by done].
  destruct (points_of e k Hc E) as [Hclk Hday]. rewrite reader_fixed, writer_fixed by done.
  destruct (Hf k E Hlim) as [(-> & -> & ->)|(s & r & -> & Hst & -> & Hu)]; simpl; [by destruct (_ <=? _)|].
  replace (IsZero s) with false by (symmetry; apply Z.eqb_neq; lia). simpl.
  pose proof (last_next _ _ Hclk k _ s now Hday) as Hln'. fold (lastPoint k e now) in Hln'. fold (nextPoint k e s) in Hln'.
  unfold Before. destruct Hu as [->|[-> _]]; [|by destruct (_ <? _), (_ <=? _)].
  destruct (s <? _) eqn:E1, (_ <=? now) eqn:E2; bool_to_prop; try done; exfalso; lia.
Qed.

(** *** Increments and resets *)

(** A reading that the clocks of a zone show once denotes the instant at which they show it. *)
Context (pg_instant : forall name z m t,
  pgZone name = Some z -> t + z t = m -> (forall u, u + z u = m -> u = t) -> pgInstant z m = t).

Lemma nextReset_fixed k e now : config_ok e -> isFixed (dimOf k e) = true ->
  nextResetAtExpr pgZone pgInstant k e now = Ok (Some (nextPoint k e now)).
Proof.
  intros Hc Hf. destruct (points_of e k Hc Hf) as [Hclk Hday].
  pose proof (fixed_seconds _ _ Hclk k _ now Hday) as [Hs _]. unfold nextPoint at 1. rewrite <- Hs. clear Hs.
  destruct k; simpl in Hf; unfold nextResetAtExpr, nextDailyResetAtExpr, nextWeeklyResetAtExpr; rewrite sqlMode_fixed, Hf, (cfg_zone _ Hc).
  - do 3 f_equal. apply (sql_daily _ _ Hclk pgInstant). intros m t. by apply (pg_instant _ _ _ _ (cfg_zone _ Hc)).
  - do 3 f_equal. apply (sql_weekly _ _ Hclk pgInstant). intros m t. by apply (pg_instant _ _ _ _ (cfg_zone _ Hc)).
Qed.
Lemma nextReset_rolling k e now : isFixed (dimOf k e) = false -> nextResetAtExpr pgZone pgInstant k e now = Ok None.
Proof. intros Hf. destruct k; simpl in *; unfold nextDailyResetAtExpr, nextWeeklyResetAtExpr; by rewrite sqlMode_fixed, Hf. Qed.
Lemma writer_rolling k e now : isFixed (dimOf k e) = false ->
  expiredExpr k e now = (default pgEpoch (q_start (dimOf k e)) + match k with QDaily => 24 | QWeekly => 168 end * Hour <=? now).
Proof. intros Hf. destruct k; simpl in *; unfold dailyExpiredExpr, weeklyExpiredExpr; by rewrite sqlMode_fixed, Hf. Qed.

(** One period of the increment, in a state that is in order. *)
Definition incremented (k : quotaPeriod) (amount : Z) (e : quotaExtra) (now : time) : quotaDim :=
  let d := dimOf k e in
  if 0 <? q_limit d then
    { d with q_used := Some (usedKept k e now + amount);
             q_start := Some (if expiredExpr k e now then now else default now (q_start d));
             q_reset_at := if expiredExpr k e now && isFixed d then Some (nextPoint k e now) else q_reset_at d }
  else d.
Lemma incrementDim_ok k amount e now : config_ok e -> incrementDim pgZone pgInstant k amount e now = Ok (incremented k amount e now).
Proof.
  intros Hc. unfold incrementDim, incremented, usedKept. destruct (0 <? _); [|done]. destruct (isFixed (dimOf k e)) eqn:Hf.
  - rewrite nextReset_fixed by done. by destruct (expiredExpr k e now), (dimOf k e).
  - rewrite nextReset_rolling by done. by destruct (expiredExpr k e now), (dimOf k e).
Qed.
Lemma late_pos now : late now -> 0 < now.
Proof. unfold late, unixEpoch. assert (0 < utc 0) by done. unfold Hour, Minute, Second. lia. Qed.
(** A period that is not over has been started. *)
Lemma running_started k t e now : quota_ok t e -> t <= now -> 0 < q_limit (dimOf k e) -> expiredExpr k e now = false ->
  exists s, q_start (dimOf k e) = Some s /\ s <= t /\
    (isFixed (dimOf k e) = true -> 0 < s /\ q_reset_at (dimOf k e) = Some (nextPoint k e s)).
Proof.
  intros Hok Hn Hlim He. assert (Hlate : late now) by (pose proof (ok_late _ _ Hok); unfold late in *; lia).
  destruct (isFixed (dimOf k e)) eqn:Hf.
  - rewrite writer_fixed in He by done. destruct (ok_fixed _ _ Hok k Hf Hlim) as [(_ & Hr & _)|(s & r & Hs & Hst & Hr & Hu)];
      rewrite Hr in *; simpl in He; bool_to_prop; [unfold late, pgEpoch, Hour, Minute, Second in *; lia|].
    exists s. destruct Hu as [->|[_ Hu]]; [|lia]. repeat split; [done|lia..].
  - rewrite writer_rolling in He by done. destruct (q_start (dimOf k e)) as [s|] eqn:Hs; simpl in He; bool_to_prop.
    + exists s. repeat split; [by apply (ok_start _ _ Hok k)|done|done].
    + unfold late, pgEpoch in *. destruct k; unfold Hour, Minute, Second in *; lia.
Qed.
Lemma incremented_ok k amount t e now e' : quota_ok t e -> t <= now -> sameConfig e e' -> dimOf k e' = incremented k amount e now ->
  (forall s, q_start (dimOf k e') = Some s -> s <= now) /\
  (0 < q_limit (dimOf k e) -> (isFixed (dimOf k e) = true -> started k e' now) /\
     expiredExpr k e' now = false /\ default 0 (q_used (dimOf k e')) = usedKept k e now + amount).
Proof.
  intros Hok Hn Hs Hd. pose proof (ok_config _ _ Hok) as Hc. destruct (sameConfig_points e e' k Hs) as [Hp _].
  pose proof (sameConfig_fixed e e' k Hs) as Hfx.
  assert (Hpos : 0 < now) by (apply late_pos; pose proof (ok_late _ _ Hok); unfold late in *; lia).
  rewrite Hd. unfold incremented in *. destruct (0 <? q_limit (dimOf k e)) eqn:Hl; bool_to_prop; cycle 1.
  { split; [intros s Hs'; pose proof (ok_start _ _ Hok k s Hs'); lia|lia]. }
  destruct (expiredExpr k e now) eqn:He; simpl in *.
  - split; [intros s [= <-]; lia|]. intros _. split; [|split; [|done]].
    + intros Hf. exists now, (nextPoint k e now). rewrite Hp, Hd, Hf. simpl. auto with lia.
    + destruct (isFixed (dimOf k e)) eqn:Hf.
      * destruct (points_of e k Hc Hf) as [Hclk Hday]. rewrite writer_fixed, Hd by done. simpl.
        apply Z.leb_gt. apply (next_after _ _ Hclk k _ now Hday).
      * rewrite writer_rolling, Hd by done. simpl. apply Z.leb_gt. destruct k; unfold Hour, Minute, Second; lia.
  - destruct (running_started k t e now Hok Hn Hl He) as (s & Hst & Hle & Hfix). rewrite Hst in *. simpl in *.
    split; [intros s' [= <-]; lia|]. intros _. split; [|split; [|done]].
    + intros Hf. destruct (Hfix Hf) as [H0 Hr]. exists s, (nextPoint k e s). rewrite Hp, Hd, <- Hr. simpl. auto with lia.
    + destruct (isFixed (dimOf k e)) eqn:Hf.
      * rewrite writer_fixed in * by done. by rewrite Hd.
      * rewrite writer_rolling in * by done. rewrite Hd, <- He, Hst. done.
Qed.

Lemma stmt_increment_ok amount t e now : quota_ok t e -> t <= now ->
  exists e', stmt_incrementQuota pgZone pgInstant amount now e = Ok e' /\ sameConfig e e' /\ quota_ok now e' /\
    default 0 (quota_used e') = default 0 (quota_used e) + amount /\
    forall k, 0 < q_limit (dimOf k e) ->
      default 0 (q_used (dimOf k e')) = usedSeen k e now + amount /\ usedSeen k e' now = default 0 (q_used (dimOf k e')).
Proof.
  intros Hok Hn. pose proof (ok_config _ _ Hok) as Hc. unfold stmt_incrementQuota. rewrite !incrementDim_ok by done.
  set (e' := { e with quota_used := _; quota_daily := _; quota_weekly := _ }). exists e'.
  assert (Hd : forall k, dimOf k e' = incremented k amount e now) by (by intros []).
  assert (Hs : sameConfig e e').
  { repeat split; try done; rewrite Hd; unfold incremented; by destruct (0 <? _). }
  assert (Hi := fun k => incremented_ok k amount t e now e' Hok Hn Hs (Hd k)).
  assert (Hlim : forall k, q_limit (dimOf k e') = q_limit (dimOf k e)) by (apply Hs).
  assert (Hok' : quota_ok now e').
  { split.
    - pose proof (ok_late _ _ Hok). unfold late in *. lia.
    - by eapply config_ok_same.
    - intros k. apply Hi.
    - intros k Hf Hl. right. rewrite (sameConfig_fixed e e') in Hf by done. rewrite Hlim in Hl. by apply Hi. }
  split; [done|]. split; [done|]. split; [done|]. split; [done|]. intros k Hl. rewrite (usedSeen_usedKept now e'), (usedSeen_usedKept t e) by (done || lia || by rewrite Hlim).
  destruct (Hi k) as [_ H]. destruct (H Hl) as (_ & He & Hu). unfold usedKept at 2. by rewrite He.
Qed.
Lemma reset_ok t e : quota_ok t e -> quota_ok t (ResetQuotaUsed e).
Proof.
  intros [Hl Hc Hs Hf]. split; [done| |by intros []|].
  - eapply config_ok_same; [|exact Hc]. by repeat split; destruct k.
  - intros [] _ _; left; by repeat split.
Qed.

(** *** Saving a configuration *)

(** One period after [ComputeQuotaResetAt] and [NormalizeFixedQuotaWindows]. *)
Definition savedDim (k : quotaPeriod) (now1 now2 : time) (e : quotaExtra) : quotaDim :=
  let d := dimOf k e in
  let d1 := { d with q_reset_at := if isFixed d then Some (toSeconds (nextFixedReset LoadLocation k e now1)) else None } in
  let start := default 0 (q_start d) in
  let lastReset := lastFixedReset LoadLocation k e now2 in
  if isFixed d && (0 <? q_limit d) && (IsZero start || Before start lastReset)
  then { d1 with q_used := Some 0; q_start := Some (toSeconds lastReset) } else d1.
Definition savedExtra (now1 now2 : time) (e : quotaExtra) : quotaExtra :=
  { e with quota_daily := savedDim QDaily now1 now2 e; quota_weekly := savedDim QWeekly now1 now2 e }.
Lemma saved_eq now1 now2 e :
  NormalizeFixedQuotaWindows LoadLocation now2 (ComputeQuotaResetAt LoadLocation now1 e) = savedExtra now1 now2 e.
Proof.
  destruct e as [ql qu [dl du ds dm dh dr] [wl wu ws wm wh wr] day tz].
  unfold savedExtra, savedDim, NormalizeFixedQuotaWindows, normalizeDim, ComputeQuotaResetAt, computeDim. simpl.
  rewrite !jsonFloat_positive. unfold isFixed. simpl.
  destruct (String.eqb (default "" dm) "fixed"), (0 <? dl); simpl; try destruct (_ || _); simpl;
    rewrite ?jsonFloat_positive; unfold isFixed; simpl;
    destruct (String.eqb (default "" wm) "fixed"), (0 <? wl); simpl; try destruct (_ || _); reflexivity.
Qed.
Lemma saved_sameConfig now1 now2 e : sameConfig e (savedExtra now1 now2 e).
Proof.
  split; [done|]. split; [done|]. split; [done|]. intros []; unfold savedExtra, savedDim; simpl; by destruct (_ && _).
Qed.
Lemma saved_ok now1 now2 e : config_ok e -> late now1 -> now1 <= now2 ->
  (forall k s, q_start (dimOf k e) = Some s -> s <= now1) -> quota_ok now2 (savedExtra now1 now2 e).
Proof.
  intros Hc Hl Hle Hst. pose proof (saved_sameConfig now1 now2 e) as Hs. pose proof (late_pos _ Hl) as Hpos.
  assert (Hd : forall k, dimOf k (savedExtra now1 now2 e) = savedDim k now1 now2 e) by (by intros []).
  split; [unfold late in *; lia|by eapply config_ok_same| |].
  - intros k s. rewrite Hd. unfold savedDim. destruct (isFixed _ && _ && _) eqn:E; simpl; [|intros H; specialize (Hst k s H); lia].
    intros [= <-]. bool_to_prop. destruct (points_of e k Hc ltac:(done)) as [Hclk Hday].
    destruct (fixed_points k e now2 (cfg_valid _ Hc)) as [_ ->]. destruct (fixed_seconds _ _ Hclk k _ now2 Hday) as [_ Hsec].
    fold (lastPoint k e now2) in Hsec. rewrite Hsec. apply (last_before _ _ Hclk k _ now2 Hday).
  - intros k Hf Hlim. right. rewrite (sameConfig_fixed e) in Hf by done. destruct Hs as (_ & _ & _ & Hk).
    rewrite (proj1 (Hk k)) in Hlim. destruct (points_of e k Hc Hf) as [Hclk Hday].
    destruct (sameConfig_points e _ k (saved_sameConfig now1 now2 e)) as [Hp _].
    destruct (fixed_points k e now1 (cfg_valid _ Hc)) as [Hn1 _]. destruct (fixed_points k e now2 (cfg_valid _ Hc)) as [_ Hl2].
    destruct (fixed_seconds _ _ Hclk k _ now1 Hday) as [Hsn _]. destruct (fixed_seconds _ _ Hclk k _ now2 Hday) as [_ Hsl].
    fold (nextPoint k e now1) in Hsn. fold (lastPoint k e now2) in Hsl.
    pose proof (last_before _ _ Hclk k _ now2 Hday) as Hlb. fold (lastPoint k e now2) in Hlb.
    pose proof (last_next _ _ Hclk k _ now1 now2 Hday) as Hln. fold (lastPoint k e now2) in Hln. fold (nextPoint k e now1) in Hln.
    unfold started. rewrite Hd, Hp. unfold savedDim. rewrite Hf, (proj2 (Z.ltb_lt _ _) Hlim), Hn1, Hsn, Hl2, Hsl. simpl.
    assert (Hlp : 0 < lastPoint k e now2) by (apply (last_positive _ _ Hclk); [done|unfold late, Hour, Minute, Second in *; lia]).
    destruct (IsZero _ || Before _ _) eqn:E; simpl.
    + exists (lastPoint k e now2), (nextPoint k e now1). split; [done|]. split; [lia|]. split; [done|].
      destruct (Z.lt_ge_cases now1 (lastPoint k e now2)) as [Hc1|Hc1].
      * right. split; [done|]. by apply (next_le_last _ _ Hclk).
      * left. symmetry. apply (next_same _ _ Hclk k); [done|done|]. by apply (last_mono _ _ Hclk).
    + bool_to_prop. destruct (q_start (dimOf k e)) as [s|] eqn:Es; simpl in *; [|done]. specialize (Hst k s Es).
      exists s, (nextPoint k e now1). split; [done|]. split; [lia|]. split; [done|]. left. symmetry.
      apply (next_same _ _ Hclk k); [done|done|]. etrans; [by apply (last_mono _ _ Hclk)|done].
Qed.

(** *** The states that edits, resets and requests reach *)

Definition blankDim : quotaDim := mkDim 0 None None None None None.
Definition blankQuota : quotaExtra := mkExtra 0 None blankDim blankDim None None.
(** A submitted period does not start in the future. *)
Definition startedBy (t : time) (e : quotaExtra) : Prop := forall k s, q_start (dimOf k e) = Some s -> s <= t.

(** [reachable t e]: an account may have the keys [e] after its last change, at
    [t]. *)
Inductive reachable : time -> quotaExtra -> Prop :=
| reach_create submitted now1 now2 e :
    late now1 -> now1 <= now2 -> startedBy now1 submitted ->
    saveQuota LoadLocation submitted now1 now2 blankQuota = Ok e -> config_ok e -> reachable now2 e
| reach_edit t e submitted now1 now2 e' :
    reachable t e -> t <= now1 -> now1 <= now2 -> startedBy now1 submitted ->
    saveQuota LoadLocation submitted now1 now2 e = Ok e' -> config_ok e' -> reachable now2 e'
| reach_increment t e amount now e' told :
    reachable t e -> t <= now -> IncrementQuotaUsed pgZone pgInstant amount now e = Ok (e', told) -> reachable now e'
| reach_reset t e : reachable t e -> reachable t (ResetQuotaUsed e).

Lemma save_ok submitted now1 now2 stored e : late now1 -> now1 <= now2 -> startedBy now1 submitted -> startedBy now1 stored ->
  saveQuota LoadLocation submitted now1 now2 stored = Ok e -> config_ok e -> quota_ok now2 e.
Proof.
  intros Hl Hle Hsub Hsto. unfold saveQuota. set (m := { submitted with quota_used := _; quota_daily := _; quota_weekly := _ }).
  destruct (ValidateQuotaResetConfig _ m); [|done]. rewrite saved_eq. intros [= <-] Hc.
  apply saved_ok; [by eapply config_ok_same, Hc; apply sameConfig_sym, saved_sameConfig|done|done|].
  intros k s. specialize (Hsub k s). specialize (Hsto k s). destruct k; simpl in *;
    [destruct (q_start (quota_daily stored))|destruct (q_start (quota_weekly stored))]; auto.
Qed.
Lemma increment_ok amount t e now : quota_ok t e -> t <= now ->
  exists e' told, IncrementQuotaUsed pgZone pgInstant amount now e = Ok (e', told) /\ sameConfig e e' /\ quota_ok now e' /\
    default 0 (quota_used e') = default 0 (quota_used e) + jsonNumber amount /\
    forall k, 0 < q_limit (dimOf k e) ->
      default 0 (q_used (dimOf k e')) = usedSeen k e now + jsonNumber amount /\ usedSeen k e' now = default 0 (q_used (dimOf k e')).
Proof.
  intros Hok Hn. destruct (stmt_increment_ok (jsonNumber amount) t e now Hok Hn) as (e' & Hs & H).
  unfold IncrementQuotaUsed. rewrite Hs. eauto.
Qed.
Lemma reachable_ok t e : reachable t e -> quota_ok t e.
Proof.
  induction 1 as [sub n1 n2 e Hl Hle Hs He Hc|t e sub n1 n2 e' _ IH Ht Hle Hs He Hc|t e a now e' told _ IH Ht He|t e _ IH].
  - apply (save_ok sub n1 n2 blankQuota); [done|done|done| |done|done]. intros k s. by destruct k.
  - apply (save_ok sub n1 n2 e); [pose proof (ok_late _ _ IH); unfold late in *; lia|done|done| |done|done].
    intros k s Hk. pose proof (ok_start _ _ IH k s Hk). lia.
  - destruct (increment_ok a t e now IH Ht) as (e1 & b & E & _ & Hok & _). rewrite E in He. by injection He as <- <-.
  - by apply reset_ok.
Qed.

(** A fixed period as time goes by. *)
Lemma usedSeen_later k t e now : quota_ok t e -> t <= now -> isFixed (dimOf k e) = true -> 0 < q_limit (dimOf k e) ->
  usedSeen k e now = if lastPoint k e now <=? t then usedSeen k e t else 0.
Proof.
  intros Hok Hn Hf Hl. unfold usedSeen. rewrite !reader_fixed by done.
  destruct (points_of e k (ok_config _ _ Hok) Hf) as [Hclk Hday].
  destruct (ok_fixed _ _ Hok k Hf Hl) as [(-> & _ & ->)|(s & r & -> & Hst & _)]; simpl; [by destruct (_ <=? _)|].
  replace (IsZero s) with false by (symmetry; apply Z.eqb_neq; lia). simpl.
  destruct (lastPoint k e now <=? t) eqn:E; bool_to_prop.
  - unfold lastPoint. by rewrite (last_same _ _ Hclk k _ t now).
  - unfold Before. destruct (s <? lastPoint k e now) eqn:E'; [done|]. bool_to_prop. lia.
Qed.

(** Requests charged one after the other, and the time of the last. *)
Fixpoint charges (l : list (float64 * time)) (e : quotaExtra) : result goerror quotaExtra :=
  match l with
  | [] => Ok e
  | (amount, now) :: l' =>
      match IncrementQuotaUsed pgZone pgInstant amount now e with
      | Ok (e', _) => charges l' e'
      | Err err => Err err
      end
  end.
Fixpoint chronological (t : time) (l : list (float64 * time)) : Prop :=
  match l with [] => True | (_, now) :: l' => t <= now /\ chronological now l' end.
Fixpoint lastTime (t : time) (l : list (float64 * time)) : time :=
  match l with [] => t | (_, now) :: l' => lastTime now l' end.
(** What was charged from [start] on. *)
Definition chargedSince (start : time) (l : list (float64 * time)) : Z :=
  foldr (fun p sum => if start <=? p.2 then jsonNumber p.1 + sum else sum) 0 l.
Lemma lastTime_ge t l : chronological t l -> t <= lastTime t l.
Proof. revert t. induction l as [|[a u] l IH]; intros t; simpl; [lia|]. intros [H1 H2]. specialize (IH u H2). lia. Qed.

Lemma charges_spec k l t e : quota_ok t e -> isFixed (dimOf k e) = true -> 0 < q_limit (dimOf k e) -> chronological t l ->
  exists e', charges l e = Ok e' /\ forall now, lastTime t l <= now ->
    usedSeen k e' now = (if lastPoint k e now <=? t then usedSeen k e t else 0) + chargedSince (lastPoint k e now) l.
Proof.
  revert t e. induction l as [|[a u] l IH]; intros t e Hok Hf Hl Hc; simpl.
  - exists e. split; [done|]. intros now Hn. rewrite (usedSeen_later k t) by done. lia.
  - destruct Hc as [Htu Hc]. destruct (increment_ok a t e u Hok Htu) as (e1 & told & -> & Hs & Hok1 & _ & Hu).
    destruct (IH u e1 Hok1) as (e' & He & H); [by rewrite (sameConfig_fixed e)|by destruct Hs as (_ & _ & _ & Hk), (Hk k) as [-> _]|done|].
    exists e'. split; [done|]. intros now Hn. rewrite H by done. destruct (sameConfig_points e e1 k Hs) as [_ ->].
    pose proof (lastTime_ge u l Hc). destruct (points_of e k (ok_config _ _ Hok) Hf) as [Hclk Hday].
    destruct (Hu k Hl) as [Hu1 Hu2]. rewrite Hu2, Hu1, (usedSeen_later k t e u) by done.
    destruct (lastPoint k e now <=? u) eqn:E; bool_to_prop.
    + unfold lastPoint. rewrite (last_same _ _ Hclk k _ u now) by (done || lia). fold (lastPoint k e now).
      destruct (_ <=? t); lia.
    + destruct (_ <=? t) eqn:E'; bool_to_prop; lia.
Qed.

(** ** Properties *)

(** C29: the reader of the account's quotas and the writer that charges it agree,
    for configurations the database can read ([config_ok]: a stored time zone is
    not empty and known to both, and at the reset hours in use the zone neither
    skips nor repeats an hour).  In every state that edits into such configurations
    (none submits a period that starts in the future), resets and charges can
    reach, each later than the one before, at any later instant a charge succeeds;
    under a daily or weekly limit it sets the used amount to what the reader saw
    used at that instant plus the charge, and the total grows by the charge; so a
    period is never reset by one side and continued by the other.  (A stored empty
    time zone passes the validation, and then a charge whose reset is due fails.) *)
Theorem quota_views_agree t e now amount : reachable t e -> t <= now ->
  exists e' told, IncrementQuotaUsed pgZone pgInstant amount now e = Ok (e', told) /\
    default 0 (quota_used e') = default 0 (quota_used e) + jsonNumber amount /\
    forall k, 0 < q_limit (dimOf k e) ->
      default 0 (q_used (dimOf k e')) = usedSeen k e now + jsonNumber amount /\
      usedSeen k e' now = default 0 (q_used (dimOf k e')).
Proof.
  intros Hok%reachable_ok Hn. destruct (increment_ok amount t e now Hok Hn) as (e' & told & He & _ & _ & Ht & Hu). eauto.
Qed.

(** A daily or weekly quota with fixed reset points counts the charges of
    its period and no others.  From any reachable state, charges made one after
    the other all succeed; whenever the reader looks afterwards, it sees the sum
    of those charged since the last reset point, and what was already used when
    no reset point has come since. *)
Theorem fixed_quota_counts_period k t e l now : reachable t e -> isFixed (dimOf k e) = true -> 0 < q_limit (dimOf k e) ->
  chronological t l -> lastTime t l <= now ->
  exists e', charges l e = Ok e' /\
    usedSeen k e' now = (if lastPoint k e now <=? t then usedSeen k e t else 0) + chargedSince (lastPoint k e now) l.
Proof.
  intros Hok%reachable_ok Hf Hl Hc Hn. destruct (charges_spec k l t e Hok Hf Hl Hc) as (e' & He & H). eauto.
Qed.
End States.

(** ** A scenario

    Shanghai time, a daily quota of 10 that starts afresh at 9:00 and a weekly
    quota of 50 that does so on Mondays at 0:00. *)

Definition demoLocation (name : string) : option (time -> duration) :=
  if String.eqb name "UTC" then Some utcZone
  else if String.eqb name "Asia/Shanghai" then Some (fun _ => 8 * Hour) else None.
(** Integers as floats, exact below [2 ^ 53]. *)
Definition exactFloat (z : Z) : float64 :=
  match z with Z0 => S754_zero false | Zpos p => S754_finite false p 0 | Zneg p => S754_finite true p 0 end.
Definition exactNumber (f : float64) : Z :=
  match f with S754_finite s m e => if e <? 0 then 0 else (if s then -1 else 1) * Zpos m * 2 ^ e | _ => 0 end.
Definition exactNumbers : JsonNumbers.
Proof. refine {| jsonNumber := exactNumber; jsonFloat := exactFloat |}. by intros [|p|p]. Defined.

Definition demoSubmitted : quotaExtra :=
  mkExtra 1000 None (mkDim 10 None None (Some "fixed") (Some 9) None) (mkDim 50 None None (Some "fixed") None None)
    None (Some "Asia/Shanghai").
(** 10:00 on Monday 6 January 2025 in Shanghai. *)
Definition demoSave : time := utc 1736128800.
Definition demoSaved : quotaExtra :=
  match saveQuota demoLocation (numbers := exactNumbers) demoSubmitted demoSave demoSave blankQuota with Ok e => e | Err _ => blankQuota end.
(** 4 at 12:00, 3 at 8:00 on Tuesday, 2 at 9:30 on Tuesday. *)
Definition demoCharges : list (float64 * time) :=
  [(exactFloat 4, demoSave + 2 * Hour); (exactFloat 3, demoSave + 22 * Hour); (exactFloat 2, demoSave + 23 * Hour + 30 * Minute)].

Lemma demo_instant name z m t : demoLocation name = Some z -> t + z t = m -> (forall u, u + z u = m -> u = t) -> dateLocal z m = t.
Proof.
  intros Hz Ht _. assert (E : exists d, z = fun _ => d).
  { unfold demoLocation in Hz. destruct (String.eqb name "UTC"); [injection Hz as <-; by exists 0|].
    destruct (String.eqb name "Asia/Shanghai"); [injection Hz as <-; by exists (8 * Hour)|done]. }
  destruct E as [d ->]. unfold dateLocal. destruct (d =? 0) eqn:E; bool_to_prop; lia.
Qed.
Lemma demo_reachable : reachable demoLocation demoLocation dateLocal (numbers := exactNumbers) demoSave demoSaved.
Proof.
  apply (reach_create _ _ _ demoSubmitted demoSave demoSave); [by vm_compute|done|by intros [] s| by vm_compute|].
  split; [by vm_compute|by vm_compute|].
  assert (El : quotaLocation demoLocation demoSaved = fun _ => 8 * Hour) by by vm_compute.
  intros k _. rewrite El. apply fixed_regular; by destruct k; vm_compute.
Qed.
Lemma fixed_quota_counts_period_witness :
  exists e', charges demoLocation dateLocal (numbers := exactNumbers) demoCharges demoSaved = Ok e' /\
    usedSeen demoLocation QDaily e' (demoSave + 24 * Hour) = 2 /\ usedSeen demoLocation QWeekly e' (demoSave + 24 * Hour) = 9.
Proof.
  assert (Hf : forall k, isFixed (dimOf k demoSaved) = true) by (intros []; by vm_compute).
  assert (Hlim : forall k, 0 < q_limit (dimOf k demoSaved)) by (intros []; by vm_compute).
  assert (Hc : chronological demoSave demoCharges) by (by vm_compute).
  assert (Hl : lastTime demoSave demoCharges <= demoSave + 24 * Hour) by (by vm_compute).
  assert (H := fun k => fixed_quota_counts_period demoLocation demoLocation dateLocal demo_instant k demoSave demoSaved demoCharges
    (demoSave + 24 * Hour) demo_reachable (Hf k) (Hlim k) Hc Hl).
  destruct (H QDaily) as (e' & He & HD). destruct (H QWeekly) as (e2 & He2 & HW). rewrite He in He2. injection He2 as <-.
  exists e'. split; [exact He|]. rewrite HD, HW. clear. vm_compute. auto.
Defined.
Lemma quota_views_agree_witness :
  exists e' told, IncrementQuotaUsed demoLocation dateLocal (numbers := exactNumbers) (exactFloat 7) (demoSave + Hour) demoSaved = Ok (e', told) /\
    default 0 (q_used (quota_daily e')) = 7.
Proof.
  destruct (quota_views_agree demoLocation demoLocation dateLocal demo_instant demoSave demoSaved (demoSave + Hour) (exactFloat 7)
    demo_reachable ltac:(by vm_compute)) as (e' & told & He & _ & H).
  exists e', told. split; [exact He|]. destruct (H QDaily) as [H1 _]; [vm_compute; reflexivity|]. etrans; [exact H1|]. clear. vm_compute. reflexivity.
Defined.
