(* ===== verification/Account.v ===== *)
(** * Accounts ([service/account.go])

    An upstream account as the schedulers see it: its columns, the JSON objects
    [credentials] and [extra], and the methods that decide whether it may serve a
    request: state and cool-downs, quotas ([AccountQuota]), request rates, retries
    and error codes, the endpoints and the compact mode it supports.  The models
    it maps are in [ModelMapping].  The clock is an argument.  A pointer receiver
    that may be nil is an [option] only where callers rely on it. *)

From S2P Require Import Prelude Float64 Errors Subscription AccountQuota Ordering.

(** ** Values decoded from JSON: Go's [any] *)

#[warnings="-register-all"]
Inductive any : Type :=
| AnyNil
| AnyBool (b : bool)
| AnyString (s : string)
| AnyFloat (f : float64)
| AnyInt (z : Z)
| AnyInt64 (z : Z)
| AnyNumber (s : string)
| AnyList (l : list any)
| AnyStrings (l : list string)
| AnyMap (m : gmap string any)
| AnyStringMap (m : gmap string string)
| AnyBoolMap (m : gmap string bool).

(** [int(v)] and [int64(v)] of a [float64] truncate; out of range the result is
    the one of amd64. *)
Definition intOfFloat (f : float64) : Z :=
  match f with
  | S754_zero _ => 0
  | S754_finite s m e =>
      let n := (if 0 <=? e then Zpos m * 2 ^ e else Zpos m / 2 ^ (- e)) * (if s then -1 else 1) in
      if (min_int64 <=? n) && (n <=? max_int64) then n else min_int64
  | _ => min_int64
  end.
(** [strings.ToLower] on ASCII text; bytes outside ASCII are kept. *)
Definition ToLower (s : string) : string := str_map (fun c => if is_upper c then byte (byte_of c + 32) else c) s.

(** [m[key].(string)] and [m[key].(bool)] on a map that may be nil. *)
Definition object : Type := option (gmap string any).
Definition lookupAny (m : object) (key : string) : option any := m ≫= (.!! key).
Definition lookupString (m : object) (key : string) : option string :=
  match lookupAny m key with Some (AnyString s) => Some s | _ => None end.
Definition lookupBool (m : object) (key : string) : option bool :=
  match lookupAny m key with Some (AnyBool b) => Some b | _ => None end.

(** ** Constants *)

Definition StatusActive : string := "active".
Definition PlatformAnthropic : string := "anthropic".
Definition PlatformOpenAI : string := "openai".
Definition PlatformGemini : string := "gemini".
Definition PlatformAntigravity : string := "antigravity".
Definition PlatformGrok : string := "grok".
Definition PlatformKimi : string := "kimi".
Definition PlatformZhipu : string := "zhipu".
Definition PlatformDeepseek : string := "deepseek".
Definition AccountTypeOAuth : string := "oauth".
Definition AccountTypeSetupToken : string := "setup-token".
Definition AccountTypeAPIKey : string := "apikey".
Definition AccountTypeBedrock : string := "bedrock".
Definition PrivacyModeTrainingOff : string := "training_off".
Definition AntigravityPrivacySet : string := "privacy_set".
Definition AntigravityGemini31ProAgentModel : string := "gemini-pro-agent".

(** ** Data *)

Record Account := mkAccount {
  ID : Z;
  Platform : string;
  Type_ : string;
  Credentials : object;
  Extra : object;
  Quota : quotaExtra;
  Concurrency : Z;
  Priority : Z;
  RateMultiplier : option float64;
  LoadFactor : option Z;
  Status : string;
  LastUsedAt : option time;
  ExpiresAt : option time;
  AutoPauseOnExpired : bool;
  Schedulable : bool;
  RateLimitResetAt : option time;
  OverloadUntil : option time;
  TempUnschedulableUntil : option time;
  SessionWindowEnd : option time;
  ParentAccountID : option Z;
  GroupIDs : list Z;
  AccountGroups : list Z }.

Section Methods.
Implicit Types (a : Account) (now : time).

(** ** Kinds of accounts *)

Definition isStr (s t : string) : bool := String.eqb s t.
Definition IsActive a : bool := isStr (Status a) StatusActive.
Definition IsOAuth a : bool := isStr (Type_ a) AccountTypeOAuth || isStr (Type_ a) AccountTypeSetupToken.
Definition IsGrok a : bool := isStr (Platform a) PlatformGrok.
Definition IsOpenAI a : bool := isStr (Platform a) PlatformOpenAI.
Definition IsAPIKeyOrBedrock a : bool := isStr (Type_ a) AccountTypeAPIKey || isStr (Type_ a) AccountTypeBedrock.
Definition IsOpenAIOAuth a : bool := IsOpenAI a && isStr (Type_ a) AccountTypeOAuth.
Definition IsOpenAIOAuthLike a : bool :=
  IsOpenAI a && (isStr (Type_ a) AccountTypeOAuth || isStr (Type_ a) AccountTypeSetupToken).
Definition IsOpenAIApiKey a : bool := IsOpenAI a && isStr (Type_ a) AccountTypeAPIKey.
Definition IsOpenAICompatible a : bool :=
  isStr (Platform a) PlatformOpenAI || isStr (Platform a) PlatformGrok || isStr (Platform a) PlatformKimi ||
  isStr (Platform a) PlatformZhipu || isStr (Platform a) PlatformDeepseek.
Definition IsShadow a : bool := match ParentAccountID a with Some _ => true | None => false end.

(** [GetCredential]: numbers as decimal text. *)
Definition GetCredential a (key : string) : string :=
  match lookupAny (Credentials a) key with
  | Some (AnyString s) => s
  | Some (AnyNumber s) => s
  | Some (AnyFloat f) => Itoa (intOfFloat f)
  | Some (AnyInt64 z) => Itoa z
  | Some (AnyInt z) => Itoa z
  | _ => ""
  end.
Definition IsOpenAIChatGPTSubscription a : bool :=
  if negb (IsOpenAIOAuth a) then false
  else
    let plan := ToLower (TrimSpace (GetCredential a "plan_type")) in
    negb (isStr plan "" || isStr plan "free" || isStr plan "abnormal").
Definition IsPrivacySet a : bool :=
  let privacy_mode := default "" (lookupString (Extra a) "privacy_mode") in
  if isStr (Platform a) PlatformOpenAI then isStr privacy_mode PrivacyModeTrainingOff
  else if isStr (Platform a) PlatformAntigravity then isStr privacy_mode AntigravityPrivacySet
  else true.

(** ** Availability *)

Section Availability.
Context (LoadLocation : string -> option (time -> duration)) {numbers : JsonNumbers}.

(** [t != nil && now.Before( *t )]. *)
Definition until (t : option time) now : bool := match t with Some t => Before now t | None => false end.
Definition IsSchedulable a now : bool :=
  if negb (IsActive a) || negb (Schedulable a) then false
  else if AutoPauseOnExpired a && match ExpiresAt a with Some t => negb (Before now t) | None => false end then false
  else if until (OverloadUntil a) now then false
  else if until (RateLimitResetAt a) now then false
  else if until (TempUnschedulableUntil a) now then false
  else if IsAPIKeyOrBedrock a && IsQuotaExceeded LoadLocation (Quota a) now then false
  else true.
End Availability.
Definition IsCredentialUsableForShadow a now : bool :=
  if negb (IsActive a) then false
  else if AutoPauseOnExpired a && match ExpiresAt a with Some t => negb (Before now t) | None => false end then false
  else if until (TempUnschedulableUntil a) now then false
  else true.
Definition parentHealthyForShadow a (lookup : Z -> option Account) now : bool :=
  match ParentAccountID a with
  | None => true
  | Some id =>
      match lookup id with
      | None => false
      | Some parent => IsOpenAIOAuth parent && IsCredentialUsableForShadow parent now
      end
  end.
Definition IsRateLimited a now : bool := until (RateLimitResetAt a) now.
Definition IsOverloaded a now : bool := until (OverloadUntil a) now.
Definition EffectiveLoadFactor a : Z :=
  match LoadFactor a with
  | Some f => if 0 <? f then f else if 0 <? Concurrency a then Concurrency a else 1
  | None => if 0 <? Concurrency a then Concurrency a else 1
  end.
Definition BillingRateMultiplier a : float64 :=
  match RateMultiplier a with
  | None => fone
  | Some r => if SFltb r fzero then fone else r
  end.

(** ** Request rates *)

Inductive WindowCostSchedulability := WindowCostSchedulable | WindowCostStickyOnly | WindowCostNotSchedulable.

Definition parseExtraInt (value : option any) : Z :=
  match value with
  | Some (AnyInt z) => z
  | Some (AnyInt64 z) => z
  | Some (AnyFloat f) => intOfFloat f
  | Some (AnyNumber s) => default 0 (Atoi s)
  | Some (AnyString s) => default 0 (Atoi (TrimSpace s))
  | _ => 0
  end.
Definition GetMaxSessions a : Z := parseExtraInt (lookupAny (Extra a) "max_sessions").
Definition GetBaseRPM a : Z := let val := parseExtraInt (lookupAny (Extra a) "base_rpm") in if 0 <? val then val else 0.
Definition GetRPMStrategy a : string :=
  match lookupString (Extra a) "rpm_strategy" with
  | Some s => if isStr s "sticky_exempt" then "sticky_exempt" else "tiered"
  | None => "tiered"
  end.
Definition GetRPMStickyBuffer a : Z :=
  let override := parseExtraInt (lookupAny (Extra a) "rpm_sticky_buffer") in
  if 0 <? override then override
  else
    let base := GetBaseRPM a in
    if base <=? 0 then 0
    else
      let conc := if Concurrency a <? 0 then 0 else Concurrency a in
      let sess := if GetMaxSessions a <? 0 then 0 else GetMaxSessions a in
      let buffer := wrap64 (conc + sess) in
      let floor := if Z.quot base 5 <? 1 then 1 else Z.quot base 5 in
      if buffer <? floor then floor else buffer.
Definition CheckRPMSchedulability a (currentRPM : Z) : WindowCostSchedulability :=
  let baseRPM := GetBaseRPM a in
  if baseRPM <=? 0 then WindowCostSchedulable
  else if currentRPM <? baseRPM then WindowCostSchedulable
  else if isStr (GetRPMStrategy a) "sticky_exempt" then WindowCostStickyOnly
  else if currentRPM <? wrap64 (baseRPM + GetRPMStickyBuffer a) then WindowCostStickyOnly
  else WindowCostNotSchedulable.

(** ** Retries and error codes *)

Definition defaultPoolModeRetryCount : Z := 3.
Definition maxPoolModeRetryCount : Z := 10.
Definition IsPoolMode a : bool := IsAPIKeyOrBedrock a && default false (lookupBool (Credentials a) "pool_mode").
Definition parsePoolModeRetryCount (value : any) : Z :=
  match value with
  | AnyInt z => z
  | AnyInt64 z => z
  | AnyFloat f => intOfFloat f
  | AnyNumber s => default defaultPoolModeRetryCount (Atoi s)
  | AnyString s => default defaultPoolModeRetryCount (Atoi (TrimSpace s))
  | _ => defaultPoolModeRetryCount
  end.
Definition GetPoolModeRetryCount a : Z :=
  if negb (IsPoolMode a) then defaultPoolModeRetryCount
  else match lookupAny (Credentials a) "pool_mode_retry_count" with
  | None | Some AnyNil => defaultPoolModeRetryCount
  | Some raw =>
      let count := parsePoolModeRetryCount raw in
      if count <? 0 then 0 else if maxPoolModeRetryCount <? count then maxPoolModeRetryCount else count
  end.
Definition defaultPoolModeRetryableStatusCodes : list Z := [401; 403; 429].
Definition isPoolModeRetryableStatus (statusCode : Z) : bool := bool_decide (statusCode ∈ defaultPoolModeRetryableStatusCodes).
Definition statusCodeOf (v : any) : option Z :=
  match v with
  | AnyFloat f => Some (intOfFloat f)
  | AnyInt z => Some z
  | AnyInt64 z => Some z
  | AnyNumber s => Atoi s
  | AnyString s => Atoi (TrimSpace s)
  | _ => None
  end.
(** The codes of the list that are HTTP status codes, each once, ascending. *)
Definition addCode (codes : list Z) (v : any) : list Z :=
  match statusCodeOf v with
  | None => codes
  | Some code => if (code <? 100) || (599 <? code) then codes else if bool_decide (code ∈ codes) then codes else (codes ++ [code])%list
  end.
Definition GetPoolModeRetryStatusCodes a : option (list Z) :=
  match lookupAny (Credentials a) "pool_mode_retry_status_codes" with
  | Some (AnyList arr) => Some (merge_sort Z.le (foldl addCode [] arr))
  | _ => None
  end.
Definition IsPoolModeRetryableStatus a (statusCode : Z) : bool :=
  match GetPoolModeRetryStatusCodes a with
  | None => isPoolModeRetryableStatus statusCode
  | Some codes => bool_decide (statusCode ∈ codes)
  end.
Definition IsCustomErrorCodesEnabled a : bool :=
  isStr (Type_ a) AccountTypeAPIKey && default false (lookupBool (Credentials a) "custom_error_codes_enabled").
Definition GetCustomErrorCodes a : list Z :=
  match lookupAny (Credentials a) "custom_error_codes" with
  | Some (AnyList arr) => omap (fun v => match v with AnyFloat f => Some (intOfFloat f) | _ => None end) arr
  | _ => []
  end.
Definition ShouldHandleErrorCode a (statusCode : Z) : bool :=
  if negb (IsCustomErrorCodesEnabled a) then true
  else match GetCustomErrorCodes a with
  | [] => true
  | codes => bool_decide (statusCode ∈ codes)
  end.

(** ** Passthrough, authentication modes and the compact mode *)

Definition IsOpenAIPassthroughEnabled a : bool :=
  IsOpenAI a &&
  match lookupBool (Extra a) "openai_passthrough" with
  | Some enabled => enabled
  | None => default false (lookupBool (Extra a) "openai_oauth_passthrough")
  end.
Definition isOpenAIPersonalAccessTokenAuthMode (value : string) : bool :=
  let v := ToLower (TrimSpace value) in isStr v "personalaccesstoken" || isStr v "personal_access_token".
Definition IsOpenAIPersonalAccessToken a : bool :=
  IsOpenAIOAuth a &&
  (isOpenAIPersonalAccessTokenAuthMode (GetCredential a "auth_mode") ||
   isOpenAIPersonalAccessTokenAuthMode (GetCredential a "openai_auth_mode")).
Definition IsOpenAIAgentIdentity a : bool :=
  IsOpenAIOAuth a && isStr (ToLower (TrimSpace (GetCredential a "auth_mode"))) (ToLower "agentIdentity").

Definition OpenAICompactModeAuto : string := "auto".
Definition OpenAICompactModeForceOn : string := "force_on".
Definition OpenAICompactModeForceOff : string := "force_off".
Definition normalizeOpenAICompactMode (mode : string) : string :=
  let m := ToLower (TrimSpace mode) in
  if isStr m OpenAICompactModeForceOn then OpenAICompactModeForceOn
  else if isStr m OpenAICompactModeForceOff then OpenAICompactModeForceOff
  else OpenAICompactModeAuto.
Definition GetOpenAICompactMode a : string :=
  if negb (IsOpenAI a) then OpenAICompactModeAuto
  else match Extra a with
  | None => OpenAICompactModeAuto
  | Some _ => normalizeOpenAICompactMode (default "" (lookupString (Extra a) "openai_compact_mode"))
  end.
(** The answer when it is known. *)
Definition OpenAICompactSupportKnown a : option bool :=
  if negb (IsOpenAI a) then None
  else if isStr (GetOpenAICompactMode a) OpenAICompactModeForceOn then Some true
  else if isStr (GetOpenAICompactMode a) OpenAICompactModeForceOff then Some false
  else lookupBool (Extra a) "openai_compact_supported".
Definition AllowsOpenAICompact a : bool :=
  IsOpenAI a && default true (OpenAICompactSupportKnown a).
Definition openAICompactSupportTier a : Z :=
  if IsGrok a then 2
  else if negb (IsOpenAI a) then 0
  else match OpenAICompactSupportKnown a with None => 1 | Some true => 2 | Some false => 0 end.

(** ** Endpoints *)

Inductive AccountResponsesSupport := ResponsesSupportUnknown | ResponsesSupportYes | ResponsesSupportNo.
Definition NormalizeResponsesSupportMode (mode : string) : string :=
  if isStr mode "force_responses" then "force_responses"
  else if isStr mode "force_chat_completions" then "force_chat_completions"
  else "auto".
Definition ResolveResponsesSupport (extra : object) : AccountResponsesSupport :=
  let observed :=
    match lookupBool extra "openai_responses_supported" with
    | None => ResponsesSupportUnknown
    | Some true => ResponsesSupportYes
    | Some false => ResponsesSupportNo
    end in
  match lookupString extra "openai_responses_mode" with
  | Some mode =>
      let m := NormalizeResponsesSupportMode mode in
      if isStr m "force_responses" then ResponsesSupportYes
      else if isStr m "force_chat_completions" then ResponsesSupportNo
      else observed
  | None => observed
  end.
Definition ShouldUseResponsesAPI (extra : object) : bool :=
  match ResolveResponsesSupport extra with ResponsesSupportNo => false | _ => true end.

Definition CapabilityChatCompletions : string := "chat_completions".
Definition CapabilityEmbeddings : string := "embeddings".
Definition CapabilityAlphaSearch : string := "alpha_search".
Definition CapabilityLive : string := "live".
Definition CapabilityGrokMediaGeneration : string := "grok_media_generation".
Definition CapabilityResponses : string := "responses".

(** The keys the [add] closure sets: trimmed, lower case, not empty. *)
Definition capabilityKeys (l : list string) : gset string :=
  list_to_set (filter (fun v : string => v <> "") (map (fun v => ToLower (TrimSpace v)) l)).
(** [None]: nothing configured, so nothing is restricted. *)
Definition openAIEndpointCapabilitySet a : option (gset string) :=
  match lookupAny (Credentials a) "openai_capabilities" with
  | None | Some AnyNil => None
  | Some (AnyList []) | Some (AnyStrings []) => None
  | Some (AnyList l) => Some (capabilityKeys (omap (fun v => match v with AnyString s => Some s | _ => None end) l))
  | Some (AnyStrings l) => Some (capabilityKeys l)
  | Some (AnyMap m) =>
      if bool_decide (m = ∅) then None
      else Some (capabilityKeys (omap (fun kv : string * any => match kv.2 with AnyBool true => Some kv.1 | _ => None end) (map_to_list m)))
  | Some (AnyBoolMap m) =>
      if bool_decide (m = ∅) then None
      else Some (capabilityKeys (omap (fun kv : string * bool => if kv.2 then Some kv.1 else None) (map_to_list m)))
  | Some _ => Some ∅
  end.

(** [grokMedia] is [GrokMediaGenerationEligibility]. *)
Definition configuredFor a (capability : string) : bool :=
  match openAIEndpointCapabilitySet a with
  | None => true
  | Some configured =>
      if isStr capability CapabilityAlphaSearch && bool_decide (CapabilityChatCompletions ∈ configured) then true
      else bool_decide (capability ∈ configured)
  end.
Definition SupportsOpenAIEndpointCapability (grokMedia : Account -> bool * string) a (capability : string) : bool :=
  if isStr capability "" then true
  else if negb (IsOpenAICompatible a) then false
  else if IsGrok a then
    if isStr capability CapabilityChatCompletions then true
    else if isStr capability CapabilityGrokMediaGeneration then
      let '(eligible, reason) := grokMedia a in eligible || isStr reason "billing_unobserved"
    else false
  else if isStr capability CapabilityChatCompletions then configuredFor a capability
  else if isStr capability CapabilityLive then
    isStr (Platform a) PlatformOpenAI && isStr (Type_ a) AccountTypeOAuth &&
    negb (IsOpenAIPersonalAccessToken a) && negb (IsOpenAIAgentIdentity a)
  else if isStr capability CapabilityResponses then
    if isStr (Type_ a) AccountTypeAPIKey && negb (ShouldUseResponsesAPI (Extra a)) then false
    else configuredFor a CapabilityChatCompletions
  else if isStr capability CapabilityAlphaSearch then
    if negb (isStr (Type_ a) AccountTypeOAuth) && negb (isStr (Type_ a) AccountTypeAPIKey) then false
    else configuredFor a capability
  else if isStr capability CapabilityEmbeddings then
    if negb (isStr (Type_ a) AccountTypeAPIKey) then false else configuredFor a capability
  else false.
Definition SupportsOpenAIImageCapability a (capability : string) : bool :=
  if isStr capability "" then true
  else if negb (IsOpenAI a) then false
  else if isStr capability "images-basic" || isStr capability "images-native" then
    isStr (Type_ a) AccountTypeOAuth || isStr (Type_ a) AccountTypeSetupToken || isStr (Type_ a) AccountTypeAPIKey
  else true.
End Methods.

(** An active account with nothing configured. *)
Definition blankAccount (id : Z) (platform type : string) : Account :=
  mkAccount id platform type None None blankQuota 0 0 None None StatusActive None None false true
    None None None None None [] [].
