(* ===== verification/ModelMapping.v ===== *)
(** * Model mappings ([service/account.go], [service/openai_model_mapping.go])

    Which upstream model an account uses for a requested one: the mapping stored
    with its credentials or the default table of its platform, exact names first
    and then the longest pattern ending in [*].  The cache in front of
    [resolveModelMapping] returns what that function computes and is not
    modelled.  A Go map is a [gmap]; what [range]
    visits and [sort.Slice] returns are parameters ([MapRange], [SliceSort]), and
    no result depends on them. *)

From S2P Require Import Prelude Float64 Errors Subscription AccountQuota Ordering Account.

(** [range] visits every entry once, in any order. *)
Class MapRange := {
  visit {V} : gmap string V -> list (string * V);
  visit_perm {V} (m : gmap string V) : visit m ≡ₚ map_to_list m }.
Definition mapToListRange : MapRange := {| visit _ m := map_to_list m; visit_perm _ m := reflexivity _ |}.

(** ** Default tables *)

Definition DefaultAntigravityModelMapping : gmap string string := list_to_map [
   ("claude-fable-5", "claude-fable-5"); ("claude-opus-4-8", "claude-opus-4-8");
   ("claude-opus-4-7", "claude-opus-4-7"); ("claude-opus-4-6-thinking", "claude-opus-4-6-thinking");
   ("claude-opus-4-6", "claude-opus-4-6-thinking"); ("claude-opus-4-5-thinking", "claude-opus-4-6-thinking");
   ("claude-sonnet-4-6", "claude-sonnet-4-6"); ("claude-sonnet-4-5", "claude-sonnet-4-5");
   ("claude-sonnet-4-5-thinking", "claude-sonnet-4-5-thinking"); ("claude-opus-4-5-20251101", "claude-opus-4-6-thinking");
   ("claude-sonnet-4-5-20250929", "claude-sonnet-4-5"); ("claude-haiku-4-5", "claude-sonnet-4-6");
   ("claude-haiku-4-5-20251001", "claude-sonnet-4-6"); ("gemini-2.5-flash", "gemini-2.5-flash");
   ("gemini-2.5-flash-image", "gemini-2.5-flash-image"); ("gemini-2.5-flash-image-preview", "gemini-2.5-flash-image");
   ("gemini-2.5-flash-lite", "gemini-2.5-flash-lite"); ("gemini-2.5-flash-thinking", "gemini-2.5-flash-thinking");
   ("gemini-2.5-pro", "gemini-2.5-pro"); ("gemini-3-flash", "gemini-3-flash");
   ("gemini-3-pro-high", "gemini-3-pro-high"); ("gemini-3-pro-low", "gemini-3-pro-low");
   ("gemini-3-flash-preview", "gemini-3-flash"); ("gemini-3-pro-preview", "gemini-3-pro-high");
   (AntigravityGemini31ProAgentModel, AntigravityGemini31ProAgentModel); ("gemini-3.1-pro", AntigravityGemini31ProAgentModel);
   ("gemini-3.1-pro-high", AntigravityGemini31ProAgentModel); ("gemini-3.1-pro-low", "gemini-3.1-pro-low");
   ("gemini-3.1-pro-preview", AntigravityGemini31ProAgentModel); ("gemini-3.1-flash-image", "gemini-3.1-flash-image");
   ("gemini-3.1-flash-image-preview", "gemini-3.1-flash-image"); ("gemini-3.6-flash", "gemini-3.6-flash");
   ("gemini-3.6-flash-high", "gemini-3.6-flash-high"); ("gemini-3.6-flash-low", "gemini-3.6-flash-low");
   ("gemini-3.6-flash-medium", "gemini-3.6-flash-medium"); ("gemini-3.6-flash-tiered", "gemini-3.6-flash-tiered");
   ("gemini-3-pro-image", "gemini-3.1-flash-image"); ("gemini-3-pro-image-preview", "gemini-3.1-flash-image");
   ("gpt-oss-120b-medium", "gpt-oss-120b-medium"); ("tab_flash_lite_preview", "tab_flash_lite_preview")].
Definition GoogleOneModels : list string := ["gemini-2.5-flash"; "gemini-2.5-pro"; "gemini-2.0-flash"].
Definition identityMapping (ids : list string) (m : gmap string string) : gmap string string :=
  foldl (fun m id => <[id := id]> m) m ids.
Definition GoogleOneModelMapping : gmap string string := identityMapping GoogleOneModels ∅.

Record ModelMappingOptions := mkModelMappingOptions { DefaultText : string; EnableCrossClientMap : bool }.
Definition DefaultTextModel : string := "grok-4.6".
Definition defaultText (o : ModelMappingOptions) : string :=
  let t := TrimSpace (DefaultText o) in if String.eqb t "" then DefaultTextModel else t.
Definition defaultModels : list string := [
   "grok-4.6"; "grok-4.5"; "grok-4.3"; "grok-build-0.1";
   "grok-composer-2.5-fast"; "grok-4.20-0309-reasoning"; "grok-4.20-0309-non-reasoning"; "grok-4.20-multi-agent-0309";
   "grok-imagine-image-quality"; "grok-imagine-image"; "grok-imagine-image-2.0"; "grok-imagine-video";
   "grok-imagine-video-1.5"].
Definition grokTextResponsesModelAliases : list (string * string) := [
   ("grok", "grok-4.6"); ("grok-latest", "grok-4.6");
   ("grok-4.6", "grok-4.6"); ("grok-4.6-latest", "grok-4.6");
   ("grok-4.5", "grok-4.5"); ("grok-4.5-latest", "grok-4.5");
   ("grok-4.3", "grok-4.3"); ("grok-4.3-latest", "grok-4.3");
   ("grok-3-mini", "grok-3-mini"); ("grok-3-mini-fast", "grok-3-mini-fast");
   ("grok-build", "grok-build-0.1"); ("grok-build-latest", "grok-build-0.1");
   ("grok-build-0.1", "grok-build-0.1"); ("grok-composer-2.5-fast", "grok-composer-2.5-fast");
   ("grok-composer", "grok-composer-2.5-fast"); ("composer-2.5", "grok-composer-2.5-fast");
   ("grok-4.20-reasoning", "grok-4.20-0309-reasoning"); ("grok-4.20-0309-reasoning", "grok-4.20-0309-reasoning");
   ("grok-4.20-non-reasoning", "grok-4.20-0309-non-reasoning"); ("grok-4.20-0309-non-reasoning", "grok-4.20-0309-non-reasoning");
   ("grok-4.20-multi-agent", "grok-4.20-multi-agent-0309"); ("grok-4.20-multi-agent-latest", "grok-4.20-multi-agent-0309");
   ("grok-4.20-multi-agent-0309", "grok-4.20-multi-agent-0309")].
Definition imagineAliases : list (string * string) := [
   ("grok-imagine", "grok-imagine-image-quality"); ("grok-imagine-1", "grok-imagine-image-quality");
   ("grok-imagine-edit", "grok-imagine-image-quality"); ("grok-imagine-image", "grok-imagine-image");
   ("grok-imagine-image-quality", "grok-imagine-image-quality"); ("grok-imagine-video", "grok-imagine-video");
   ("grok-imagine-video-1.5", "grok-imagine-video-1.5"); ("grok-imagine-video-1.5-preview", "grok-imagine-video-1.5");
   ("grok-video-1.5", "grok-imagine-video-1.5")].
Definition setAll (m : gmap string string) (l : list (string * string)) : gmap string string :=
  foldl (fun m kv => <[kv.1 := kv.2]> m) m l.
Fixpoint contains (sub s : string) : bool :=
  HasPrefix s sub || match s with EmptyString => false | String _ s' => contains sub s' end.
Definition isGrokNativeOrAlias (model : string) : bool :=
  let model := ToLower (TrimSpace model) in
  if String.eqb model "" || contains "*" model then false
  else HasPrefix model "grok" || HasPrefix model "imagine" || HasPrefix model "composer".

Section Mapping.
Context {range : MapRange} {sorting : SliceSort}.
Implicit Types (mapping : gmap string string) (a : Account).

Definition addGrokProviderPrefixedMappings mapping : gmap string string :=
  foldl (fun m kv =>
    if negb (isGrokNativeOrAlias kv.1) then m
    else setAll m (map (fun prefix => (prefix +:+ kv.1, kv.2)) ["xai/"; "x-ai/"; "grok/"])) mapping (visit mapping).
Definition ModelMappingWithOptions (opts : ModelMappingOptions) : gmap string string :=
  let text := defaultText opts in
  let m := identityMapping defaultModels ∅ in
  let m := setAll m (map (fun kv =>
    if (String.eqb kv.1 "grok" || String.eqb kv.1 "grok-latest") && String.eqb kv.2 DefaultTextModel
    then (kv.1, text) else kv) grokTextResponsesModelAliases) in
  let m := setAll m imagineAliases in
  let m := if EnableCrossClientMap opts
           then setAll m (map (fun p => (p, text)) ["gpt-*"; "codex-*"; "o1*"; "o3*"; "o4*"; "claude-*"]) else m in
  addGrokProviderPrefixedMappings m.

(** ** Patterns *)

Definition matchAntigravityWildcard (pattern str : string) : bool :=
  if HasSuffix pattern "*" then HasPrefix str (str_take (String.length pattern - 1) pattern)
  else String.eqb pattern str.
Definition matchWildcard (pattern str : string) : bool := matchAntigravityWildcard pattern str.
Definition mappingHasWildcardForModel mapping (model : string) : bool :=
  existsb (fun kv => matchWildcard kv.1 model) (visit mapping).
(** Longer patterns first; equal lengths in byte order. *)
Definition patternBefore (x y : string * string) : bool :=
  if negb (Nat.eqb (String.length x.1) (String.length y.1)) then Nat.ltb (String.length y.1) (String.length x.1)
  else String.ltb x.1 y.1.
Definition matchWildcardMappingResult mapping (requestedModel : string) : string * bool :=
  let matches := List.filter (fun kv => matchWildcard kv.1 requestedModel) (visit mapping) in
  match sortSlice patternBefore matches with
  | [] => (requestedModel, false)
  | kv :: _ => (kv.2, true)
  end.
Definition resolveRequestedModelInMapping mapping (requestedModel : string) : string * bool :=
  if String.eqb requestedModel "" then ("", false)
  else match mapping !! requestedModel with
  | Some mappedModel => (mappedModel, true)
  | None => matchWildcardMappingResult mapping requestedModel
  end.
Definition mappingSupportsRequestedModel mapping (requestedModel : string) : bool :=
  if String.eqb requestedModel "" then false
  else match mapping !! requestedModel with
  | Some _ => true
  | None => mappingHasWildcardForModel mapping requestedModel
  end.

(** ** The mapping of an account *)

Definition ensureAntigravityDefaultPassthrough mapping (model : string) : gmap string string :=
  if String.eqb model "" then mapping
  else match mapping !! model with
  | Some _ => mapping
  | None => if mappingHasWildcardForModel mapping model then mapping else <[model := model]> mapping
  end.
Definition ensureAntigravityDefaultPassthroughs mapping (models : list string) : gmap string string :=
  foldl ensureAntigravityDefaultPassthrough mapping models.
Definition gemini31ProAliases : list (string * list string) := [
  ("gemini-3.1-pro", ["gemini-3.1-pro"]);
  ("gemini-3.1-pro-high", ["gemini-3.1-pro-high"]);
  ("gemini-3.1-pro-preview", ["gemini-3.1-pro-preview"; "gemini-3.1-pro-high"])].
Definition applyAlias (target : string) mapping (alias : string * list string) : gmap string string :=
  match mapping !! alias.1 with
  | Some current => if bool_decide (current ∈ alias.2) then <[alias.1 := target]> mapping else mapping
  | None => if mappingHasWildcardForModel mapping alias.1 then mapping else <[alias.1 := target]> mapping
  end.
Definition applyAntigravityGemini31ProAliases mapping : gmap string string :=
  let target := TrimSpace (default "" (mapping !! AntigravityGemini31ProAgentModel)) in
  if String.eqb target "" then mapping else foldl (applyAlias target) mapping gemini31ProAliases.
Definition antigravityDefaults : list string := [
  "gemini-3-flash"; "gemini-3.1-pro-high"; "gemini-3.1-pro-low"; "gemini-3.6-flash"; "gemini-3.6-flash-high";
  "gemini-3.6-flash-low"; "gemini-3.6-flash-medium"; "gemini-3.6-flash-tiered"].

Definition GeminiOAuthType a : string :=
  if negb (String.eqb (Platform a) PlatformGemini) || negb (String.eqb (Type_ a) AccountTypeOAuth) then ""
  else
    let oauthType := TrimSpace (GetCredential a "oauth_type") in
    if String.eqb oauthType "" && negb (String.eqb (TrimSpace (GetCredential a "project_id")) "") then "code_assist"
    else oauthType.
Definition IsGeminiGoogleOne a : bool :=
  String.eqb (Platform a) PlatformGemini && String.eqb (Type_ a) AccountTypeOAuth && String.eqb (GeminiOAuthType a) "google_one".

(** The entries of a JSON object that are strings. *)
Definition stringEntries (m : gmap string any) : gmap string string :=
  omap (fun v => match v with AnyString s => Some s | _ => None end) m.
Definition stringMappingFromRaw (raw : option any) : gmap string string :=
  match raw with
  | Some (AnyMap m) => stringEntries m
  | Some (AnyStringMap m) => m
  | _ => ∅
  end.
(** [opts] are the process-wide options of [xai.DefaultModelMapping]. *)
Definition platformDefault (opts : ModelMappingOptions) a : gmap string string :=
  if String.eqb (Platform a) PlatformAntigravity then DefaultAntigravityModelMapping
  else if String.eqb (Platform a) PlatformGrok then ModelMappingWithOptions opts
  else ∅.
Definition resolveModelMapping (opts : ModelMappingOptions) a (rawMapping : gmap string any) : gmap string string :=
  match Credentials a with
  | None => platformDefault opts a
  | Some _ =>
      let result := stringEntries rawMapping in
      if bool_decide (result = ∅) then
        if IsGeminiGoogleOne a then GoogleOneModelMapping else platformDefault opts a
      else if String.eqb (Platform a) PlatformAntigravity then
        applyAntigravityGemini31ProAliases (ensureAntigravityDefaultPassthroughs result antigravityDefaults)
      else result
  end.
Definition rawModelMapping a : gmap string any :=
  match lookupAny (Credentials a) "model_mapping" with Some (AnyMap m) => m | _ => ∅ end.
Definition GetModelMapping (opts : ModelMappingOptions) a : gmap string string :=
  resolveModelMapping opts a (rawModelMapping a).

(** ** Questions asked of an account *)

Definition normalizeRequestedModelForLookup (platform requestedModel : string) : string :=
  let trimmed := TrimSpace requestedModel in
  if String.eqb trimmed "" then ""
  else if negb (String.eqb platform PlatformGemini) && negb (String.eqb platform PlatformAntigravity) then trimmed
  else if String.eqb trimmed "gemini-3.1-pro-preview-customtools" then "gemini-3.1-pro-preview"
  else trimmed.
(** What follows the last slash. *)
Fixpoint afterLastSlash (s : string) : string :=
  match s with
  | EmptyString => EmptyString
  | String c s' => if contains "/" s' then afterLastSlash s' else if Ascii.eqb c "/" then s' else s
  end.
Definition lastOpenAIModelSegment (model : string) : string := TrimSpace (afterLastSlash (TrimSpace model)).
Definition openAIOAuthForeignModelPrefixes : list string := [
  "deepseek-"; "glm-"; "kimi-"; "moonshot-"; "qwen-"; "qwen2-"; "qwen3-"; "qwen4-"; "qwq-"; "minimax-"; "gemini-";
  "gemma-"; "grok-"; "doubao-"; "hunyuan-"; "llama-"; "llama2-"; "llama3-"; "meta-llama"; "mistral-"; "mixtral-";
  "baichuan-"; "ernie-"; "step-"; "seed-"; "yi-"].
Definition isOpenAIOAuthServableModel (requestedModel : string) : bool :=
  let model := ToLower (lastOpenAIModelSegment requestedModel) in
  if String.eqb model "" then true
  else if String.eqb model "k3" || String.eqb model "k3-256k" then false
  else negb (existsb (HasPrefix model) openAIOAuthForeignModelPrefixes).

Definition IsModelSupported (opts : ModelMappingOptions) a (requestedModel : string) : bool :=
  if IsOpenAIPassthroughEnabled a then true
  else
    let mapping := GetModelMapping opts a in
    if bool_decide (mapping = ∅) then
      if IsOpenAIOAuth a then isOpenAIOAuthServableModel requestedModel else true
    else if mappingSupportsRequestedModel mapping requestedModel then true
    else
      let normalized := normalizeRequestedModelForLookup (Platform a) requestedModel in
      negb (String.eqb normalized requestedModel) && mappingSupportsRequestedModel mapping normalized.
Definition ResolveMappedModel (opts : ModelMappingOptions) a (requestedModel : string) : string * bool :=
  let mapping := GetModelMapping opts a in
  if bool_decide (mapping = ∅) then (requestedModel, false)
  else
    let '(mappedModel, matched) := resolveRequestedModelInMapping mapping requestedModel in
    if matched then (mappedModel, true)
    else
      let normalized := normalizeRequestedModelForLookup (Platform a) requestedModel in
      if negb (String.eqb normalized requestedModel) then
        let '(mappedModel, matched) := resolveRequestedModelInMapping mapping normalized in
        if matched then (mappedModel, true) else (requestedModel, false)
      else (requestedModel, false).
Definition GetMappedModel (opts : ModelMappingOptions) a (requestedModel : string) : string :=
  (ResolveMappedModel opts a requestedModel).1.
Definition resolveOpenAIForwardModel (opts : ModelMappingOptions) (account : option Account)
    (requestedModel messagesDispatchMappedModel : string) : string :=
  let messagesDispatchMappedModel := TrimSpace messagesDispatchMappedModel in
  match account with
  | None => if negb (String.eqb messagesDispatchMappedModel "") then messagesDispatchMappedModel else requestedModel
  | Some account =>
      let '(mappedModel, matched) := ResolveMappedModel opts account requestedModel in
      if negb matched && negb (String.eqb messagesDispatchMappedModel "") then messagesDispatchMappedModel
      else mappedModel
  end.

Definition GetCompactModelMapping a : gmap string string :=
  stringMappingFromRaw (lookupAny (Credentials a) "compact_model_mapping").
Definition ResolveCompactMappedModel a (requestedModel : string) : string * bool :=
  let mapping := GetCompactModelMapping a in
  if bool_decide (mapping = ∅) then (requestedModel, false)
  else
    let '(mappedModel, matched) := resolveRequestedModelInMapping mapping requestedModel in
    if matched then (mappedModel, true) else (requestedModel, false).
Definition resolveOpenAICompactForwardModel (account : option Account) (model : string) : string :=
  let trimmedModel := TrimSpace model in
  match account with
  | None => trimmedModel
  | Some account =>
      if String.eqb trimmedModel "" then trimmedModel
      else
        let '(mappedModel, matched) := ResolveCompactMappedModel account trimmedModel in
        if negb matched then trimmedModel
        else
          let trimmedMapped := TrimSpace mappedModel in
          if negb (String.eqb trimmedMapped "") then trimmedMapped else trimmedModel
  end.
End Mapping.

(** ** Reference definition: the longest prefix of the request that has a pattern *)

Fixpoint longestPrefix (mapping : gmap string string) (requestedModel : string) (n : nat) : option string :=
  match mapping !! (str_take n requestedModel +:+ "*") with
  | Some target => Some target
  | None => match n with O => None | S n' => longestPrefix mapping requestedModel n' end
  end.
Definition lookupModel (mapping : gmap string string) (requestedModel : string) : option string :=
  if String.eqb requestedModel "" then None
  else match mapping !! requestedModel with
  | Some t => Some t
  | None => longestPrefix mapping requestedModel (String.length requestedModel)
  end.

(** ** Lemmas *)

Lemma HasPrefix_iff (s p : string) : HasPrefix s p = true <-> exists r, s = p +:+ r.
Proof.
  unfold HasPrefix. split.
  - destruct (CutPrefix p s) as [r|] eqn:E; [|done]. intros _. exists r. by apply CutPrefix_Some.
  - intros [r ->]. by rewrite CutPrefix_app.
Qed.
Lemma str_take_le (n : nat) (s : string) : (String.length (str_take n s) <= n)%nat.
Proof. revert s; induction n as [|n IH]; intros [|c s]; simpl; [lia..|]. specialize (IH s). lia. Qed.
Lemma str_take_prefix (n : nat) (s : string) : exists r, s = str_take n s +:+ r.
Proof.
  revert s; induction n as [|n IH]; intros [|c s]; simpl; [by exists ""|by exists (String c s)|by exists ""|]. destruct (IH s) as [r Hr].
  exists r. by rewrite Hr at 1.
Qed.
Lemma str_take_length (n : nat) (s : string) : (n <= String.length s)%nat -> String.length (str_take n s) = n.
Proof. revert s; induction n as [|n IH]; intros [|c s]; simpl; [lia..|]. intros. rewrite IH; lia. Qed.
Lemma rev_app_acc (s t : string) : String.rev_app s t = String.rev s +:+ t.
Proof.
  unfold String.rev. revert t. induction s as [|c s IH]; intros t; [done|]. simpl. rewrite IH, (IH (String c "")).
  by rewrite str_app_assoc.
Qed.
Lemma rev_app_cat (p q t : string) : String.rev_app (p +:+ q) t = String.rev_app q (String.rev_app p t).
Proof. revert t. induction p as [|c p IH]; intros t; [done|]. exact (IH (String c t)). Qed.
Lemma HasSuffix_star (s : string) : HasSuffix s "*" = true <-> exists p, s = p +:+ "*".
Proof.
  unfold HasSuffix. rewrite HasPrefix_iff. split.
  - intros [r Hr]. exists (String.rev r). rewrite <- (str_rev_rev s), Hr. unfold String.rev at 1 3. simpl.
    apply rev_app_acc.
  - intros [p ->]. exists (String.rev p). unfold String.rev at 1. by rewrite rev_app_cat.
Qed.
Lemma str_app_star_inj (p q : string) : p +:+ "*" = q +:+ "*" -> p = q.
Proof.
  intros H. apply (f_equal String.rev) in H. unfold String.rev in H. rewrite !rev_app_cat in H. simpl in H.
  injection H as H. rewrite <- (str_rev_rev p), <- (str_rev_rev q). unfold String.rev at 2 4. by rewrite H.
Qed.
(** A pattern matches when it is the request, or a prefix of it and a star. *)
Lemma matchWildcard_iff (pattern s : string) :
  matchWildcard pattern s = true <->
  (HasSuffix pattern "*" = false /\ pattern = s) \/
  (exists n, (n <= String.length s)%nat /\ pattern = str_take n s +:+ "*").
Proof.
  unfold matchWildcard, matchAntigravityWildcard. destruct (HasSuffix pattern "*") eqn:E.
  - pose proof (proj1 (HasSuffix_star _) E) as [p ->]. rewrite HasPrefix_iff.
    replace (String.length (p +:+ "*") - 1)%nat with (String.length p) by (rewrite str_length_app; simpl; lia).
    rewrite str_take_app. split.
    + intros [r ->]. right. exists (String.length p). rewrite str_take_app, str_length_app. split; [lia|done].
    + intros [[? _]|(n & Hn & H)]; [done|]. apply str_app_star_inj in H as ->. apply str_take_prefix.
  - split; [intros H; left; split; [done|by apply String.eqb_eq]|].
    intros [[_ ->]|(n & _ & ->)]; [apply String.eqb_refl|].
    assert (HasSuffix (str_take n s +:+ "*") "*" = true) by (apply HasSuffix_star; by eexists). congruence.
Qed.

Lemma longestPrefix_Some mapping req n t : longestPrefix mapping req n = Some t ->
  exists k, (k <= n)%nat /\ mapping !! (str_take k req +:+ "*") = Some t /\
    forall j, (k < j <= n)%nat -> mapping !! (str_take j req +:+ "*") = None.
Proof.
  induction n as [|n IH]; simpl; destruct (mapping !! _) eqn:E; try done.
  - intros [= <-]. exists O. split_and!; [lia|done|lia].
  - intros [= <-]. exists (S n). split_and!; [lia|done|lia].
  - intros (k & Hk & Ht & Hj)%IH. exists k. split_and!; [lia|done|]. intros j Hjn.
    destruct (decide (j = S n)) as [->|]; [done|]. apply Hj. lia.
Qed.
Lemma longestPrefix_None mapping req n : longestPrefix mapping req n = None ->
  forall k, (k <= n)%nat -> mapping !! (str_take k req +:+ "*") = None.
Proof.
  induction n as [|n IH]; simpl; destruct (mapping !! _) eqn:E; try done; intros H k Hk.
  - by replace k with O by lia.
  - destruct (decide (k = S n)) as [->|]; [done|]. apply IH; [done|lia].
Qed.

(** [H : x ∈ [a; b; ...]] where [x] is none of them. *)
Ltac not_listed H := repeat (apply elem_of_cons in H as [H|H]; [discriminate H|]); by apply not_elem_of_nil in H.

Section Facts.
Context {range : MapRange} {sorting : SliceSort}.
Implicit Types (mapping : gmap string string) (a : Account).

Lemma elem_of_visit {V} (m : gmap string V) k v : (k, v) ∈ visit m <-> m !! k = Some v.
Proof. by rewrite visit_perm, elem_of_map_to_list. Qed.
Lemma hasWildcard_iff mapping model :
  mappingHasWildcardForModel mapping model = true <-> exists p t, mapping !! p = Some t /\ matchWildcard p model = true.
Proof.
  unfold mappingHasWildcardForModel. rewrite existsb_exists. split.
  - intros ([p t] & Hin%list_elem_of_In & Hm). exists p, t. by rewrite <- elem_of_visit.
  - intros (p & t & Hp & Hm). exists (p, t). by rewrite <- list_elem_of_In, elem_of_visit.
Qed.

(** Among the patterns that match, none of them the request itself, the length decides. *)
Definition starOf (req p : string) : Prop := exists n, (n <= String.length req)%nat /\ p = str_take n req +:+ "*".
Lemma starOf_length req n : (n <= String.length req)%nat -> String.length (str_take n req +:+ "*") = S n.
Proof. intros H. rewrite str_length_app, str_take_length by done. simpl. lia. Qed.
Lemma ltb_irrefl (s : string) : String.ltb s s = false.
Proof.
  unfold String.ltb. destruct (String.compare s s) eqn:E; [done| |done]. pose proof (String.compare_antisym s s) as H.
  by rewrite E in H.
Qed.
Lemma patternBefore_spec req x y : starOf req x.1 -> starOf req y.1 ->
  patternBefore x y = Nat.ltb (String.length y.1) (String.length x.1).
Proof.
  intros (n & Hn & Hx) (m & Hm & Hy). unfold patternBefore. destruct (Nat.eqb _ _) eqn:E; [|done]. simpl.
  apply Nat.eqb_eq in E. rewrite E, Nat.ltb_irrefl. assert (x.1 = y.1) as ->; [|apply ltb_irrefl].
  rewrite Hx, Hy, !starOf_length in E by done. injection E as ->. congruence.
Qed.
Lemma patternBefore_order req (l : list (string * string)) : Forall (fun kv => starOf req kv.1) l -> weak_order patternBefore (.∈ l).
Proof.
  rewrite Forall_forall. intros H. split.
  - intros x Hx. rewrite (patternBefore_spec req) by auto. apply Nat.ltb_irrefl.
  - intros x y z Hx Hy Hz. rewrite !(patternBefore_spec req) by auto. rewrite !Nat.ltb_lt. lia.
  - intros x y z Hx Hy Hz. rewrite !(patternBefore_spec req) by auto. rewrite !Nat.ltb_ge. lia.
Qed.
Lemma matching_star mapping req : mapping !! req = None ->
  Forall (fun kv => starOf req kv.1) (List.filter (fun kv => matchWildcard kv.1 req) (visit mapping)).
Proof.
  intros Hnone. apply Forall_forall. intros [p t] Hin. apply list_elem_of_In, filter_In in Hin as [Hin Hm].
  apply list_elem_of_In, elem_of_visit in Hin. simpl in *. apply matchWildcard_iff in Hm as [[_ ->]|Hm]; [congruence|done].
Qed.
Lemma matchWildcardMappingResult_spec mapping req : mapping !! req = None ->
  matchWildcardMappingResult mapping req =
  match longestPrefix mapping req (String.length req) with Some t => (t, true) | None => (req, false) end.
Proof.
  intros Hnone. unfold matchWildcardMappingResult. pose proof (matching_star _ _ Hnone) as Hstar.
  assert (Hmem : forall p t, (p, t) ∈ List.filter (fun kv => matchWildcard kv.1 req) (visit mapping) <->
                              mapping !! p = Some t /\ matchWildcard p req = true).
  { intros p t. by rewrite list_elem_of_In, filter_In, <- list_elem_of_In, elem_of_visit. }
  set (matches := List.filter _ _) in *. pose proof (sortSlice_perm patternBefore matches) as Hperm.
  pose proof (sortSlice_sorted patternBefore matches (patternBefore_order _ _ Hstar)) as Hsort.
  assert (Hst : forall k t, mapping !! (str_take k req +:+ "*") = Some t -> (k <= String.length req)%nat ->
                (str_take k req +:+ "*", t) ∈ sortSlice patternBefore matches).
  { intros k t Hk Hle. rewrite Hperm, Hmem. split; [done|]. apply matchWildcard_iff. right. by exists k. }
  destruct (longestPrefix _ _ _) as [t|] eqn:E.
  - apply longestPrefix_Some in E as (k & Hk & Ht & Hj). specialize (Hst _ _ Ht Hk).
    destruct (sortSlice patternBefore matches) as [|[p' t'] l] eqn:El; [by apply not_elem_of_nil in Hst|].
    f_equal. simpl. assert (Hp' : (p', t') ∈ matches) by (rewrite <- Hperm; apply list_elem_of_here).
    pose proof (proj1 (Forall_forall _ _) Hstar _ Hp') as (n & Hn & Hpn). apply Hmem in Hp' as [Hp' _]. simpl in *. subst p'.
    assert (n = k) as ->; [|congruence]. apply elem_of_cons in Hst as [[= Heq _]|Hst].
    + apply (f_equal String.length) in Heq. rewrite !starOf_length in Heq by done. lia.
    + assert (Hle : (k <= n)%nat).
      { apply sorted_strong in Hsort; cycle 1.
        { eapply patternBefore_order. rewrite Hperm. exact Hstar. }
        apply StronglySorted_inv in Hsort as [_ Hall].
        apply (proj1 (Forall_forall _ _) Hall) in Hst. unfold upto in Hst.
        rewrite (patternBefore_spec req) in Hst by (simpl; eexists; split; [|reflexivity]; done). simpl in Hst.
        rewrite !starOf_length in Hst by done. apply Nat.ltb_ge in Hst. lia. }
      destruct (decide (n = k)) as [|Hne]; [done|]. rewrite (Hj n) in Hp' by lia. done.
  - destruct (sortSlice patternBefore matches) as [|[p' t'] l] eqn:El; [done|].
    assert (Hp' : (p', t') ∈ matches) by (rewrite <- Hperm; apply list_elem_of_here).
    pose proof (proj1 (Forall_forall _ _) Hstar _ Hp') as (n & Hn & Hpn). apply Hmem in Hp' as [Hp' _]. simpl in *. subst p'.
    by rewrite (longestPrefix_None _ _ _ E) in Hp'.
Qed.
Lemma resolve_spec mapping req :
  resolveRequestedModelInMapping mapping req =
  match lookupModel mapping req with
  | Some t => (t, true)
  | None => (if String.eqb req "" then "" else req, false)
  end.
Proof.
  unfold resolveRequestedModelInMapping, lookupModel. destruct (String.eqb req ""); [done|].
  destruct (mapping !! req) eqn:E; [done|]. by apply matchWildcardMappingResult_spec.
Qed.
Lemma supports_spec mapping req : mappingSupportsRequestedModel mapping req = match lookupModel mapping req with Some _ => true | None => false end.
Proof.
  unfold mappingSupportsRequestedModel, lookupModel. destruct (String.eqb req ""); [done|].
  destruct (mapping !! req) eqn:E; [done|]. destruct (longestPrefix _ _ _) as [t|] eqn:El.
  - apply longestPrefix_Some in El as (k & Hk & Ht & _). apply hasWildcard_iff. exists (str_take k req +:+ "*"), t.
    split; [done|]. apply matchWildcard_iff. right. by exists k.
  - apply not_true_is_false. rewrite hasWildcard_iff. intros (p & t & Hp & [[_ ->]|(n & Hn & ->)]%matchWildcard_iff); [congruence|].
    by rewrite (longestPrefix_None _ _ _ El n Hn) in Hp.
Qed.

(** *** The mapping of an Antigravity account *)

Lemma supports_iff mapping req : mappingSupportsRequestedModel mapping req = true <->
  req <> "" /\ exists p, p ∈ dom mapping /\ (p = req \/ matchWildcard p req = true).
Proof.
  unfold mappingSupportsRequestedModel. destruct (String.eqb req "") eqn:E0.
  { apply String.eqb_eq in E0. split; [done|tauto]. }
  apply String.eqb_neq in E0. destruct (mapping !! req) eqn:E.
  - split; [|done]. intros _. split; [done|]. exists req. split; [|by left]. by apply elem_of_dom_2 in E.
  - rewrite hasWildcard_iff. split.
    + intros (p & t & Hp & Hm). split; [done|]. exists p. split; [by apply elem_of_dom_2 in Hp|by right].
    + intros (_ & p & [t Hp]%elem_of_dom & [->|Hm]); [congruence|by exists p, t].
Qed.
Lemma supports_mono mapping mapping' req : dom mapping ⊆ dom mapping' ->
  mappingSupportsRequestedModel mapping req = true -> mappingSupportsRequestedModel mapping' req = true.
Proof. rewrite !supports_iff. intros H (? & p & Hp & ?). split; [done|]. exists p. split; [by apply H|done]. Qed.

Lemma ensure_keeps mapping model k s : mapping !! k = Some s -> ensureAntigravityDefaultPassthrough mapping model !! k = Some s.
Proof.
  intros H. unfold ensureAntigravityDefaultPassthrough. repeat case_match; try done.
  rewrite lookup_insert_ne; [done|]. congruence.
Qed.
Lemma ensure_adds mapping model k s : ensureAntigravityDefaultPassthrough mapping model !! k = Some s ->
  mapping !! k = Some s \/ (k = model /\ s = model).
Proof.
  unfold ensureAntigravityDefaultPassthrough. repeat case_match; try tauto.
  intros [[<- <-]|[_ ?]]%lookup_insert_Some; tauto.
Qed.
Lemma ensure_supports mapping model : model <> "" ->
  mappingSupportsRequestedModel (ensureAntigravityDefaultPassthrough mapping model) model = true.
Proof.
  intros Hne. unfold ensureAntigravityDefaultPassthrough, mappingSupportsRequestedModel.
  apply String.eqb_neq in Hne as ->. destruct (mapping !! model) eqn:E; [by rewrite E|].
  destruct (mappingHasWildcardForModel mapping model) eqn:Ew; [by rewrite E, Ew|]. by rewrite lookup_insert_eq.
Qed.
Lemma ensures_keep models mapping k s : mapping !! k = Some s ->
  ensureAntigravityDefaultPassthroughs mapping models !! k = Some s.
Proof.
  unfold ensureAntigravityDefaultPassthroughs. revert mapping.
  induction models as [|d models IH]; intros mapping H; simpl; [done|]. by apply IH, ensure_keeps.
Qed.
Lemma ensures_dom models mapping : dom mapping ⊆ dom (ensureAntigravityDefaultPassthroughs mapping models).
Proof. intros k [s Hs]%elem_of_dom. eapply elem_of_dom_2, ensures_keep, Hs. Qed.
Lemma ensures_support models mapping d : d ∈ models -> d <> "" ->
  mappingSupportsRequestedModel (ensureAntigravityDefaultPassthroughs mapping models) d = true.
Proof.
  unfold ensureAntigravityDefaultPassthroughs. revert mapping.
  induction models as [|e models IH]; intros mapping Hd Hne; [by apply not_elem_of_nil in Hd|]. simpl.
  apply elem_of_cons in Hd as [<-|Hd]; [|by apply IH].
  eapply supports_mono; [apply (ensures_dom models)|]. by apply ensure_supports.
Qed.
Lemma ensures_add models mapping k s : ensureAntigravityDefaultPassthroughs mapping models !! k = Some s ->
  mapping !! k = Some s \/ (k ∈ models /\ s = k).
Proof.
  unfold ensureAntigravityDefaultPassthroughs. revert mapping.
  induction models as [|d models IH]; intros mapping; simpl; [tauto|]. intros [H|[? ->]]%IH; [|set_solver].
  apply ensure_adds in H as [?|[-> ->]]; set_solver.
Qed.

Lemma applyAlias_lookup target mapping alias k : applyAlias target mapping alias !! k = mapping !! k \/
  (k = alias.1 /\ applyAlias target mapping alias !! k = Some target /\ forall s, mapping !! k = Some s -> s ∈ alias.2).
Proof.
  unfold applyAlias. destruct (mapping !! alias.1) as [c|] eqn:E.
  - destruct (bool_decide _) eqn:Eb; [|tauto]. apply bool_decide_eq_true in Eb.
    destruct (decide (k = alias.1)) as [->|]; [|left; by rewrite lookup_insert_ne].
    right. rewrite lookup_insert_eq, E. split_and!; [done..|]. by intros s [= <-].
  - destruct (mappingHasWildcardForModel mapping alias.1); [tauto|].
    destruct (decide (k = alias.1)) as [->|]; [|left; by rewrite lookup_insert_ne].
    right. rewrite lookup_insert_eq, E. by split_and!.
Qed.
Lemma applyAlias_dom target mapping alias : dom mapping ⊆ dom (applyAlias target mapping alias).
Proof.
  intros k Hk. destruct (applyAlias_lookup target mapping alias k) as [H|(_ & H & _)].
  - apply elem_of_dom. rewrite H. by apply elem_of_dom.
  - by eapply elem_of_dom_2.
Qed.
Lemma foldl_applyAlias_dom target l mapping : dom mapping ⊆ dom (foldl (applyAlias target) mapping l).
Proof.
  revert mapping. induction l as [|al l IH]; intros mapping; simpl; [done|]. etrans; [apply applyAlias_dom|apply IH].
Qed.
Lemma foldl_applyAlias_lookup target l mapping k : NoDup l.*1 ->
  foldl (applyAlias target) mapping l !! k = mapping !! k \/
  (foldl (applyAlias target) mapping l !! k = Some target /\
   exists legacy, (k, legacy) ∈ l /\ forall s, mapping !! k = Some s -> s ∈ legacy).
Proof.
  revert mapping. induction l as [|[m leg] l IH]; intros mapping Hnd; simpl; [by left|].
  apply NoDup_cons in Hnd as [Hnin Hnd]. simpl in Hnin.
  destruct (applyAlias_lookup target mapping (m, leg) k) as [H1|(-> & H1 & H1')];
    destruct (IH (applyAlias target mapping (m, leg)) Hnd) as [H2|(H2 & leg' & Hin & H2')]; rewrite H2.
  - by left.
  - right. split; [done|]. exists leg'. split; [by right|]. rewrite <- H1. exact H2'.
  - right. split; [done|]. exists leg. split; [by left|]. exact H1'.
  - exfalso. apply Hnin, list_elem_of_fmap. by exists (m, leg').
Qed.
Definition antigravityTarget mapping : string := TrimSpace (default "" (mapping !! AntigravityGemini31ProAgentModel)).
Lemma applyAliases_lookup mapping k :
  applyAntigravityGemini31ProAliases mapping !! k = mapping !! k \/
  (applyAntigravityGemini31ProAliases mapping !! k = Some (antigravityTarget mapping) /\
   exists legacy, (k, legacy) ∈ gemini31ProAliases /\ forall s, mapping !! k = Some s -> s ∈ legacy).
Proof.
  unfold applyAntigravityGemini31ProAliases. destruct (String.eqb _ _); [by left|].
  apply foldl_applyAlias_lookup. simpl. repeat constructor; intros Hin; by not_listed Hin.
Qed.
Lemma applyAliases_dom mapping : dom mapping ⊆ dom (applyAntigravityGemini31ProAliases mapping).
Proof. unfold applyAntigravityGemini31ProAliases. destruct (String.eqb _ _); [done|]. apply foldl_applyAlias_dom. Qed.
Lemma agent_model_kept mapping :
  default "" (ensureAntigravityDefaultPassthroughs mapping antigravityDefaults !! AntigravityGemini31ProAgentModel) =
  default "" (mapping !! AntigravityGemini31ProAgentModel).
Proof.
  destruct (mapping !! AntigravityGemini31ProAgentModel) as [t|] eqn:E; [by rewrite (ensures_keep _ _ _ _ E)|].
  destruct (_ !! _) as [t|] eqn:E' at 1; [|done]. apply ensures_add in E' as [?|[Hin _]]; [congruence|].
  by not_listed Hin.
Qed.
End Facts.

(** ** Theorems *)

(** The upstream model of [requestedModel], if the account maps it: the name as it
    was sent first, then the normalised one. *)
Definition accountModel (platform : string) (mapping : gmap string string) (requestedModel : string) : option string :=
  match lookupModel mapping requestedModel with
  | Some t => Some t
  | None => lookupModel mapping (normalizeRequestedModelForLookup platform requestedModel)
  end.

(** C35: The model a request is forwarded with is, for an account with a mapping, the
    entry of its own name or of the longest prefix with a star, for the name as sent
    and then for the normalised name, in whatever order Go visits and sorts the
    patterns; without such an entry, or without a mapping, the name as sent.  The
    scheduler admits an account in OpenAI passthrough for every model; any other
    account with a mapping exactly when that lookup succeeds, so that it never
    forwards an unmapped name; and any other account without a mapping for every
    model, unless it is an OpenAI OAuth account, which must be able to serve it. *)
Theorem model_resolution {range : MapRange} {sorting : SliceSort} opts a (requestedModel : string) :
  let mapping := GetModelMapping opts a in
  let target := accountModel (Platform a) mapping requestedModel in
  ResolveMappedModel opts a requestedModel =
    (if bool_decide (mapping = ∅) then (requestedModel, false)
     else (default requestedModel target, bool_decide (is_Some target))) /\
  IsModelSupported opts a requestedModel =
    (IsOpenAIPassthroughEnabled a ||
     if bool_decide (mapping = ∅) then negb (IsOpenAIOAuth a) || isOpenAIOAuthServableModel requestedModel
     else bool_decide (is_Some target)).
Proof.
  intros mapping target. unfold ResolveMappedModel, IsModelSupported. fold mapping.
  subst target. unfold accountModel. destruct (bool_decide (mapping = ∅)) eqn:Ee.
  { split; [done|]. by destruct (IsOpenAIPassthroughEnabled a), (IsOpenAIOAuth a). }
  rewrite resolve_spec, !supports_spec. set (n := normalizeRequestedModelForLookup _ _).
  destruct (lookupModel mapping requestedModel) as [t|] eqn:E; [by destruct (IsOpenAIPassthroughEnabled a)|].
  rewrite resolve_spec. destruct (String.eqb n requestedModel) eqn:En; simpl.
  - apply String.eqb_eq in En as ->. rewrite E. by destruct (IsOpenAIPassthroughEnabled a).
  - by destruct (lookupModel mapping n), (IsOpenAIPassthroughEnabled a).
Qed.

(** The mapping of an Antigravity account with entries of its own keeps each of
    them, except that a [gemini-3.1-pro] alias that still has an outdated target is
    sent to the account's [gemini-pro-agent] target; every model of the default list
    is supported; and no other entry is added. *)
Theorem antigravity_mapping {range : MapRange} {sorting : SliceSort} opts a own :
  Platform a = PlatformAntigravity -> own = stringEntries (rawModelMapping a) -> own <> ∅ ->
  let mapping := GetModelMapping opts a in
  (forall d, d ∈ antigravityDefaults -> mappingSupportsRequestedModel mapping d = true) /\
  forall k,
    (exists legacy, (k, legacy) ∈ gemini31ProAliases /\ mapping !! k = Some (antigravityTarget own) /\
       forall s, own !! k = Some s -> s ∈ legacy) \/
    (k ∈ antigravityDefaults /\ own !! k = None /\ mapping !! k ∈ [None; Some k]) \/
    mapping !! k = own !! k.
Proof.
  intros Hp Hown Hne mapping.
  assert (mapping = applyAntigravityGemini31ProAliases (ensureAntigravityDefaultPassthroughs own antigravityDefaults)) as ->.
  { subst mapping. unfold GetModelMapping, resolveModelMapping. rewrite <- Hown, bool_decide_false, Hp by done. simpl.
    destruct (Credentials a) eqn:Ec; [done|]. exfalso. apply Hne. rewrite Hown. unfold rawModelMapping, lookupAny. by rewrite Ec. }
  split.
  - intros d Hd. eapply supports_mono; [apply applyAliases_dom|]. apply ensures_support; [done|].
    intros ->. by not_listed Hd.
  - intros k. destruct (applyAliases_lookup (ensureAntigravityDefaultPassthroughs own antigravityDefaults) k) as [->|(-> & leg & Hl & H)].
    + right. destruct (own !! k) as [s|] eqn:E; [right; by apply ensures_keep|].
      destruct (ensureAntigravityDefaultPassthroughs own antigravityDefaults !! k) as [s|] eqn:E'; [|by right]. left. apply ensures_add in E' as [|[? ->]]; [congruence|].
      split_and!; [done|done|]. apply list_elem_of_further, list_elem_of_here.
    + left. exists leg. unfold antigravityTarget at 1. rewrite agent_model_kept. split_and!; [done..|].
      intros s Hs. apply H, ensures_keep, Hs.
Qed.

Definition demoMapping : gmap string any :=
  list_to_map [("claude-*", AnyString "claude-sonnet-4-6"); ("gemini-pro-agent", AnyString "agent");
               ("gemini-3.1-pro", AnyString "gemini-3.1-pro"); ("weight", AnyInt 3)].
Definition demoAntigravity : Account :=
  { blankAccount 1 PlatformAntigravity AccountTypeOAuth with
    Credentials := Some (list_to_map [("model_mapping", AnyMap demoMapping)]) }.
Definition noOptions : ModelMappingOptions := mkModelMappingOptions "" false.

Lemma antigravity_mapping_witness :
  let mapping := GetModelMapping (range := mapToListRange) noOptions demoAntigravity in
  mapping !! "gemini-3.1-pro" = Some "agent" /\ mapping !! "gemini-3.6-flash" = Some "gemini-3.6-flash" /\
  mapping !! "claude-*" = Some "claude-sonnet-4-6" /\
  mappingSupportsRequestedModel (range := mapToListRange) mapping "gemini-3.6-flash-low" = true.
Proof.
  split_and!; [vm_compute; reflexivity..|].
  apply (antigravity_mapping (range := mapToListRange) (sorting := stableSliceSort) noOptions demoAntigravity _ eq_refl eq_refl).
  - intros H. apply (f_equal (.!! "claude-*")) in H. revert H. vm_compute. discriminate.
  - vm_compute. apply list_elem_of_further, list_elem_of_further, list_elem_of_further, list_elem_of_further, list_elem_of_further, list_elem_of_here.
Defined.
