(* ===== verification/UsageBilling.v ===== *)
(** * Charging for usage

    [service/usage_billing.go] and [repository/usage_billing_repo.go]: a request
    that is to be paid is a command with an id and a fingerprint; one transaction
    claims the id in a table of claims and charges the balance or subscription of
    the user, the quota and the rate windows of the API key and the quota of the
    account.  Batches of images hold an amount of the balance first and capture
    or release it later, through the same claims.  Old claims are moved to an
    archive by [CleanupUsageBillingDedup] of dashboard_aggregation_repo.go.

    A transaction is atomic; each of its statements can fail, and its COMMIT can
    fail with or without effect.  Rows that are soft-deleted are not in the
    tables.  [users] and [api_keys] hold [numeric(20,8)] columns, integers that
    count [10^-8] USD; what PostgreSQL makes of a [float64] parameter is the
    class [Money], and so is the rounding of the decimal library. *)

From S2P Require Import Prelude Float64 Errors Sha256 Subscription SubscriptionRepo AccountQuota Account.

(** ** Decimals *)

(** [n/d] rounded to the nearest integer, away from zero in the middle. *)
Definition roundHalfAway (n d : Z) : Z := Z.sgn n * ((2 * Z.abs n + d) / (2 * d)).

(** [toDecimal] counts in fractions of [10^-8] that are fine enough for every
    parameter, [perQuantum] of them to [10^-8]; infinity and NaN, which PostgreSQL
    takes for the largest number, exceed every column.  [decimalRound8] is
    [decimal.NewFromFloat(v).Round(8).Float64()]. *)
Class Money := {
  toDecimal : float64 -> Z;
  perQuantum : Z;
  fromDecimal : Z -> float64;
  decimalRound8 : float64 -> float64;
  perQuantum_pos : 0 < perQuantum;
  fromDecimal_zero : fromDecimal 0 = fzero;
  toDecimal_zero s : toDecimal (S754_zero s) = 0;
  toDecimal_infinity : 10 ^ 21 * perQuantum <= toDecimal (S754_infinity false) /\ toDecimal (S754_infinity false) mod perQuantum = 0;
  toDecimal_nan : 10 ^ 21 * perQuantum <= toDecimal S754_nan;
  toDecimal_nonneg f : SFltb fzero f = true -> 0 <= toDecimal f;
  decimalRound8_quanta f : isZero f = false -> IsNaN f = false -> IsInf f = false ->
    toDecimal (decimalRound8 f) mod perQuantum = 0 }.

(** What a [numeric(20,8)] column makes of an exact result. *)
Definition store {money : Money} (x : Z) : Z := roundHalfAway x perQuantum.
Definition QuantizeUsageBillingAmount {money : Money} (v : float64) : float64 :=
  if isZero v || IsNaN v || IsInf v then v else decimalRound8 v.

(** ** Commands *)

Record UsageBillingCommand := mkCommand {
  RequestID : string;
  cmd_APIKeyID : Z;
  RequestFingerprint : string;
  RequestPayloadHash : string;
  cmd_UserID : Z;
  cmd_AccountID : Z;
  cmd_SubscriptionID : option Z;
  cmd_AccountType : string;
  cmd_Model : string;
  cmd_ServiceTier : string;
  cmd_ReasoningEffort : string;
  cmd_BillingType : Z;
  cmd_InputTokens : Z;
  cmd_OutputTokens : Z;
  cmd_CacheCreationTokens : Z;
  cmd_CacheReadTokens : Z;
  cmd_ImageCount : Z;
  cmd_MediaType : string;
  BalanceCost : float64;
  SubscriptionCost : float64;
  APIKeyQuotaCost : float64;
  APIKeyRateLimitCost : float64;
  AccountQuotaCost : float64 }.

Definition joinBars (l : list string) : string :=
  match l with
  | [] => ""
  | s :: l' => foldl (fun acc x => acc +:+ "|" +:+ x) s l'
  end.
Definition withPayloadHash (raw payloadHash : string) : string :=
  let payloadHash := TrimSpace payloadHash in
  if String.eqb payloadHash "" then raw else raw +:+ "|" +:+ payloadHash.
Definition buildUsageBillingFingerprint (c : UsageBillingCommand) : string :=
  let raw := joinBars [
    Itoa (cmd_UserID c); Itoa (cmd_AccountID c); Itoa (cmd_APIKeyID c);
    TrimSpace (cmd_AccountType c); TrimSpace (cmd_Model c); TrimSpace (cmd_ServiceTier c); TrimSpace (cmd_ReasoningEffort c);
    Itoa (cmd_BillingType c); Itoa (cmd_InputTokens c); Itoa (cmd_OutputTokens c); Itoa (cmd_CacheCreationTokens c);
    Itoa (cmd_CacheReadTokens c); Itoa (cmd_ImageCount c); TrimSpace (cmd_MediaType c); Itoa (default 0 (cmd_SubscriptionID c));
    formatFixed10 (BalanceCost c); formatFixed10 (SubscriptionCost c); formatFixed10 (APIKeyQuotaCost c);
    formatFixed10 (APIKeyRateLimitCost c); formatFixed10 (AccountQuotaCost c)] in
  sha256_hex (withPayloadHash raw (RequestPayloadHash c)).

Record BatchImageBalanceHoldCommand := mkHold {
  h_RequestID : string;
  h_APIKeyID : Z;
  h_RequestFingerprint : string;
  h_RequestPayloadHash : string;
  h_UserID : Z;
  h_BatchID : string;
  HoldAmount : float64;
  ActualAmount : float64 }.

Definition buildBatchImageBalanceHoldFingerprint (c : BatchImageBalanceHoldCommand) : string :=
  let raw := joinBars [Itoa (h_UserID c); Itoa (h_APIKeyID c); TrimSpace (h_BatchID c);
                       formatFixed10 (HoldAmount c); formatFixed10 (ActualAmount c)] in
  sha256_hex (withPayloadHash raw (h_RequestPayloadHash c)).
Definition NormalizeHold (c : BatchImageBalanceHoldCommand) : BatchImageBalanceHoldCommand :=
  let c := { { c with h_RequestID := TrimSpace (h_RequestID c) } with h_BatchID := TrimSpace (h_BatchID c) } in
  if String.eqb (TrimSpace (h_RequestFingerprint c)) ""
  then { c with h_RequestFingerprint := buildBatchImageBalanceHoldFingerprint c } else c.

Definition batchImageHoldRequestPrefix : string := "batch_image_hold:".
Definition batchImageCaptureRequestPrefix : string := "batch_image_capture:".
Definition batchImageReleaseRequestPrefix : string := "batch_image_release:".
Definition BatchImageHoldRequestID (batchID : string) : string := batchImageHoldRequestPrefix +:+ TrimSpace batchID.
Definition BatchImageCaptureRequestID (batchID : string) : string := batchImageCaptureRequestPrefix +:+ TrimSpace batchID.
Definition BatchImageReleaseRequestID (batchID : string) : string := batchImageReleaseRequestPrefix +:+ TrimSpace batchID.

(** ** The database *)

Record userRow := mkUser { balance : Z; frozen_balance : Z }.
Record rateWindow := mkWindow { w_usage : Z; w_start : option time }.
Record keyRow := mkKey {
  key_quota : Z;
  key_quota_used : Z;
  key_status : string;
  window_5h : rateWindow;
  window_1d : rateWindow;
  window_7d : rateWindow }.
(** A claim on a request of an API key. *)
Record claimRow := mkClaim { request_fingerprint : string; created_at : time }.
Definition claimKey : Type := string * Z.

(** [now_] is [NOW()] of the running transaction; [outbox] the accounts with a
    pending event for the schedulers. *)
Record db := mkDB {
  users : gmap Z userRow;
  api_keys : gmap Z keyRow;
  accounts : gmap Z quotaExtra;
  subscriptions : SubscriptionRepo.table;
  usage_billing_dedup : gmap claimKey claimRow;
  usage_billing_dedup_archive : gmap claimKey claimRow;
  outbox : gset Z;
  now_ : time }.

Definition StatusAPIKeyActive : string := "active".
Definition StatusAPIKeyQuotaExhausted : string := "quota_exhausted".
Definition RateLimitWindow5h : duration := 5 * Hour.
Definition RateLimitWindow1d : duration := 24 * Hour.
Definition RateLimitWindow7d : duration := 7 * 24 * Hour.

Definition ErrUsageBillingRequestIDRequired : goerror := PlainErr 14 "usage billing request_id is required".
Definition ErrUsageBillingRequestConflict : goerror := PlainErr 15 "usage billing request fingerprint conflict".
Definition ErrUserNotFound := NotFound "USER_NOT_FOUND" "user not found".
Definition ErrAPIKeyNotFound := NotFound "API_KEY_NOT_FOUND" "api key not found".
Definition ErrAccountNotFound := NotFound "ACCOUNT_NOT_FOUND" "account not found".
Definition ErrBatchImageInsufficientBalance :=
  New 402 "BATCH_IMAGE_INSUFFICIENT_BALANCE" "insufficient balance for batch image hold".
Definition ErrBatchImageSettlementCostExceedsHold :=
  Conflict "BATCH_IMAGE_SETTLEMENT_COST_EXCEEDS_HOLD" "batch image settlement cost exceeds held balance".
Definition frozenInsufficient : goerror := PlainErr 331 "batch image frozen balance is insufficient".

(** How Go reads a key; [now] is [time.Now()]. *)
Definition IsWindowExpired (now : time) (windowStart : option time) (dur : duration) : bool :=
  match windowStart with None => true | Some start => dur <=? now - start end.
Definition effectiveUsage {money : Money} (now : time) (dur : duration) (w : rateWindow) : float64 :=
  if IsWindowExpired now (w_start w) dur then fzero else fromDecimal (w_usage w).
Definition EffectiveUsage5h {money : Money} (now : time) (k : keyRow) : float64 := effectiveUsage now RateLimitWindow5h (window_5h k).
Definition EffectiveUsage1d {money : Money} (now : time) (k : keyRow) : float64 := effectiveUsage now RateLimitWindow1d (window_1d k).
Definition EffectiveUsage7d {money : Money} (now : time) (k : keyRow) : float64 := effectiveUsage now RateLimitWindow7d (window_7d k).
Definition IsQuotaExhausted {money : Money} (k : keyRow) : bool :=
  if SFleb (fromDecimal (key_quota k)) fzero then false else SFleb (fromDecimal (key_quota k)) (fromDecimal (key_quota_used k)).

(** [date_trunc('day', NOW())] in the zone of the session. *)
Class SessionZone := {
  date_trunc_day : time -> time;
  date_trunc_day_le t : date_trunc_day t <= t;
  date_trunc_day_near t : t < date_trunc_day t + 48 * Hour }.

Section Repository.
Context {money : Money} {num : Numeric} {numbers : JsonNumbers} {session : SessionZone}
  (pgZone : string -> option (time -> duration)) (pgInstant : (time -> duration) -> Z -> time).

(** *** Statements *)

(** [UPDATE users SET ... WHERE id = ... AND cond RETURNING ...]; [None]: no row. *)
Definition stmt_updateUser (id : Z) (cond : userRow -> bool) (f : userRow -> userRow) : ST db (result goerror (option userRow)) := fun d =>
  match users d !! id with
  | Some u =>
      if negb (cond u) then (Ok None, d)
      else
        let u' := f u in
        if negb (fits (balance u') && fits (frozen_balance u')) then (Err NumericOverflow, d)
        else (Ok (Some u'), { d with users := <[id := u']> (users d) })
  | None => (Ok None, d)
  end.
Definition covers (column : Z) (amount : float64) : bool := toDecimal amount <=? column * perQuantum.
Definition stmt_userExists (id : Z) : ST db (result goerror bool) := fun d => (Ok (bool_decide (is_Some (users d !! id))), d).

(** [INSERT ... ON CONFLICT DO NOTHING RETURNING id], and the two reads. *)
Definition stmt_insertClaim (key : claimKey) (fingerprint : string) : ST db (result goerror bool) := fun d =>
  match usage_billing_dedup d !! key with
  | Some _ => (Ok false, d)
  | None => (Ok true, { d with usage_billing_dedup := <[key := mkClaim fingerprint (now_ d)]> (usage_billing_dedup d) })
  end.
Definition stmt_selectClaim (key : claimKey) : ST db (result goerror (option string)) := fun d =>
  (Ok (request_fingerprint <$> usage_billing_dedup d !! key), d).
Definition stmt_selectArchived (key : claimKey) : ST db (result goerror (option string)) := fun d =>
  (Ok (request_fingerprint <$> usage_billing_dedup_archive d !! key), d).

Definition stmt_incrementSubscription (costUSD : float64) (id : Z) : ST db (result goerror Z) := fun d =>
  let '(r, t) := stmt_increment costUSD id { subscriptions d with clock := now_ d } in
  (r, { d with subscriptions := t }).

Definition stmt_updateKey {A} (id : Z) (f : keyRow -> keyRow) (returning : keyRow -> A) : ST db (result goerror (option A)) := fun d =>
  match api_keys d !! id with
  | Some k =>
      let k' := f k in
      if negb (forallb fits [key_quota_used k'; w_usage (window_5h k'); w_usage (window_1d k'); w_usage (window_7d k')])
      then (Err NumericOverflow, d)
      else (Ok (Some (returning k')), { d with api_keys := <[id := k']> (api_keys d) })
  | None => (Ok None, d)
  end.
Definition chargeQuota (amount : float64) (k : keyRow) : keyRow :=
  { k with key_quota_used := store (key_quota_used k * perQuantum + toDecimal amount);
           key_status :=
             if (0 <? key_quota k) && String.eqb (key_status k) StatusAPIKeyActive && (key_quota_used k <? key_quota k) &&
                (key_quota k * perQuantum <=? key_quota_used k * perQuantum + toDecimal amount)
             then StatusAPIKeyQuotaExhausted else key_status k }.
Definition justExhausted (amount : float64) (k : keyRow) : bool :=
  (0 <? key_quota k) && (key_quota k <=? key_quota_used k) &&
  (key_quota_used k * perQuantum - toDecimal amount <? key_quota k * perQuantum).

Definition windowOver (dur : duration) (now : time) (w : rateWindow) : bool :=
  match w_start w with Some start => start + dur <=? now | None => false end.
(** [fresh] is where a new window starts. *)
Definition chargeWindow (dur : duration) (cost : float64) (fresh now : time) (w : rateWindow) : rateWindow :=
  mkWindow (store (if windowOver dur now w then toDecimal cost else w_usage w * perQuantum + toDecimal cost))
    (match w_start w with
     | None => Some fresh
     | Some start => if start + dur <=? now then Some fresh else Some start
     end).
Definition chargeRateLimit (cost : float64) (now : time) (k : keyRow) : keyRow :=
  { k with window_5h := chargeWindow RateLimitWindow5h cost now now (window_5h k);
           window_1d := chargeWindow RateLimitWindow1d cost (date_trunc_day now) now (window_1d k);
           window_7d := chargeWindow RateLimitWindow7d cost (date_trunc_day now) now (window_7d k) }.
Definition stmt_chargeRateLimit (id : Z) (cost : float64) : ST db (result goerror (option unit)) := fun d =>
  stmt_updateKey id (chargeRateLimit cost (now_ d)) (fun _ => tt) d.

Definition stmt_chargeAccount (id : Z) (amount : float64) : ST db (result goerror (option quotaExtra)) := fun d =>
  match accounts d !! id with
  | Some e =>
      match stmt_incrementQuota pgZone pgInstant (jsonNumber amount) (now_ d) e with
      | Err err => (Err err, d)
      | Ok e' => (Ok (Some e'), { d with accounts := <[id := e']> (accounts d) })
      end
  | None => (Ok None, d)
  end.
(** A pending event of the account is not repeated. *)
Definition stmt_enqueueAccountChanged (id : Z) : ST db (result goerror unit) := fun d =>
  (Ok tt, { d with outbox := {[id]} ∪ outbox d }).

(** *** Transactions *)

Local Abbreviation world := (db * list fault)%type.
Local Abbreviation method A := (ST world (result goerror A)).

(** A statement over the connection: its answer, its error, or that of the connection. *)
Definition exec {A} (s : ST db (result goerror A)) : method A :=
  r ← remote s; mret (match r with Ok a => a | Err e => Err e end).
(** BEGIN, the body, and COMMIT when it yields a value; else ROLLBACK. *)
Definition withTx {A} (body : method (option A)) : method (option A) := fun w =>
  let '(b, w1) := remote (fun d => (tt, d)) w in
  match b with
  | Err e => (Err e, w1)
  | Ok _ =>
      let '(r, (d2, fs2)) := body w1 in
      match r with
      | Err e => (Err e, (w1.1, fs2))
      | Ok None => (Ok None, (w1.1, fs2))
      | Ok (Some a) => remote (fun _ => (Some a, d2)) (w1.1, fs2)
      end
  end.

Definition claimUsageBillingRequest (requestID : string) (apiKeyID : Z) (requestFingerprint : string) : method bool :=
  let key := (requestID, apiKeyID) in
  let same (fingerprint : string) := String.eqb (TrimSpace fingerprint) (TrimSpace requestFingerprint) in
  inserted ←? exec (stmt_insertClaim key requestFingerprint);
  if negb inserted then
    existing ←? exec (stmt_selectClaim key);
    mret (match existing with
          | None => Err ErrNoRows
          | Some existingFingerprint => if negb (same existingFingerprint) then Err ErrUsageBillingRequestConflict else Ok false
          end)
  else
    archived ←? exec (stmt_selectArchived key);
    mret (match archived with
          | Some archivedFingerprint => if negb (same archivedFingerprint) then Err ErrUsageBillingRequestConflict else Ok false
          | None => Ok true
          end).
(** Claim the request, then do [effects]; [None]: it was done before. *)
Definition claimed {A} (requestID : string) (apiKeyID : Z) (requestFingerprint : string) (effects : method A) : method (option A) :=
  withTx (applied ←? claimUsageBillingRequest requestID apiKeyID requestFingerprint;
          if negb applied then mret (Ok None) else (a ←? effects; mret (Ok (Some a)))).

(** *** The effects of a request *)

Definition incrementUsageBillingSubscription (subscriptionID : Z) (costUSD : float64) : method unit :=
  affected ←? exec (stmt_incrementSubscription costUSD subscriptionID);
  mret (if 0 <? affected then Ok tt else Err (AppErr ErrSubscriptionNotFound)).

Definition deductUsageBillingBalance (userID : Z) (amount : float64) : method (float64 * bool) :=
  let deduct u := { u with balance := store (balance u * perQuantum - toDecimal amount) } in
  first ←? exec (stmt_updateUser userID (fun u => covers (balance u) amount) deduct);
  match first with
  | Some u => mret (Ok (fromDecimal (balance u), true))
  | None =>
      second ←? exec (stmt_updateUser userID (fun _ => true) deduct);
      mret (match second with
            | None => Err (AppErr ErrUserNotFound)
            | Some u => Ok (fromDecimal (balance u), false)
            end)
  end.

Definition incrementUsageBillingAPIKeyQuota (apiKeyID : Z) (amount : float64) : method bool :=
  row ←? exec (stmt_updateKey apiKeyID (chargeQuota amount) (justExhausted amount));
  mret (match row with None => Err (AppErr ErrAPIKeyNotFound) | Some exhausted => Ok exhausted end).

Definition incrementUsageBillingAPIKeyRateLimit (apiKeyID : Z) (cost : float64) : method unit :=
  row ←? exec (stmt_chargeRateLimit apiKeyID cost);
  mret (match row with None => Err (AppErr ErrAPIKeyNotFound) | Some _ => Ok tt end).

Record AccountQuotaState := mkQuotaState {
  TotalUsed : float64; TotalLimit : float64; DailyUsed : float64; DailyLimit : float64; WeeklyUsed : float64; WeeklyLimit : float64 }.
Definition quotaStateOf (e : quotaExtra) : AccountQuotaState :=
  let used o := jsonFloat (default 0 o) in
  mkQuotaState (used (AccountQuota.quota_used e)) (jsonFloat (quota_limit e))
    (used (q_used (quota_daily e))) (jsonFloat (q_limit (quota_daily e)))
    (used (q_used (quota_weekly e))) (jsonFloat (q_limit (quota_weekly e))).
Definition crossed (limit used amount : float64) : bool :=
  SFltb fzero limit && SFleb limit used && SFltb (fsub used amount) limit.
Definition incrementUsageBillingAccountQuota (accountID : Z) (amount : float64) : method AccountQuotaState :=
  row ←? exec (stmt_chargeAccount accountID amount);
  match row with
  | None => mret (Err (AppErr ErrAccountNotFound))
  | Some e =>
      let state := quotaStateOf e in
      if crossed (TotalLimit state) (TotalUsed state) amount || crossed (DailyLimit state) (DailyUsed state) amount ||
         crossed (WeeklyLimit state) (WeeklyUsed state) amount
      then _ ←? exec (stmt_enqueueAccountChanged accountID); mret (Ok state)
      else mret (Ok state)
  end.

Record UsageBillingApplyResult := mkApplyResult {
  Applied : bool;
  APIKeyQuotaExhausted : bool;
  NewBalance : option float64;
  BalanceOverdrafted : bool;
  QuotaState : option AccountQuotaState }.
Definition notApplied : UsageBillingApplyResult := mkApplyResult false false None false None.

(** [strings.EqualFold] on ASCII text. *)
Definition EqualFold (s t : string) : bool := String.eqb (ToLower s) (ToLower t).
Definition positive (f : float64) : bool := SFltb fzero f.
Definition nonpositive (f : float64) : bool := SFleb f fzero.
(** [if cond { ... }], or the value without it. *)
Definition when {A} (cond : bool) (a : A) (m : method A) : method A := if cond then m else mret (Ok a).
Definition applyUsageBillingEffects (cmd : UsageBillingCommand) : method UsageBillingApplyResult :=
  _ ←? (match cmd_SubscriptionID cmd with
        | Some id => when (positive (SubscriptionCost cmd)) tt (incrementUsageBillingSubscription id (SubscriptionCost cmd))
        | None => mret (Ok tt)
        end);
  deducted ←? when (positive (BalanceCost cmd)) (None, false)
    (r ←? deductUsageBillingBalance (cmd_UserID cmd) (BalanceCost cmd); mret (Ok (Some r.1, negb r.2)));
  exhausted ←? when (positive (APIKeyQuotaCost cmd)) false
    (incrementUsageBillingAPIKeyQuota (cmd_APIKeyID cmd) (APIKeyQuotaCost cmd));
  _ ←? when (positive (APIKeyRateLimitCost cmd)) tt
    (incrementUsageBillingAPIKeyRateLimit (cmd_APIKeyID cmd) (APIKeyRateLimitCost cmd));
  quotaState ←? when (positive (AccountQuotaCost cmd) &&
      (EqualFold (cmd_AccountType cmd) AccountTypeAPIKey || EqualFold (cmd_AccountType cmd) AccountTypeBedrock)) None
    (state ←? incrementUsageBillingAccountQuota (cmd_AccountID cmd) (AccountQuotaCost cmd); mret (Ok (Some state)));
  mret (Ok (mkApplyResult true exhausted deducted.1 deducted.2 quotaState)).

Definition quantizeMonetaryFields (c : UsageBillingCommand) : UsageBillingCommand :=
  { { { { { c with BalanceCost := QuantizeUsageBillingAmount (BalanceCost c) }
            with SubscriptionCost := QuantizeUsageBillingAmount (SubscriptionCost c) }
          with APIKeyQuotaCost := QuantizeUsageBillingAmount (APIKeyQuotaCost c) }
        with APIKeyRateLimitCost := QuantizeUsageBillingAmount (APIKeyRateLimitCost c) }
      with AccountQuotaCost := QuantizeUsageBillingAmount (AccountQuotaCost c) }.
Definition Normalize (c : UsageBillingCommand) : UsageBillingCommand :=
  let c := { c with RequestID := TrimSpace (RequestID c) } in
  let c := if String.eqb (TrimSpace (RequestFingerprint c)) ""
           then { c with RequestFingerprint := buildUsageBillingFingerprint c } else c in
  quantizeMonetaryFields c.

Definition Apply (cmd : UsageBillingCommand) : method UsageBillingApplyResult :=
  let cmd := Normalize cmd in
  if String.eqb (RequestID cmd) "" then mret (Err ErrUsageBillingRequestIDRequired)
  else
    result ←? claimed (RequestID cmd) (cmd_APIKeyID cmd) (RequestFingerprint cmd) (applyUsageBillingEffects cmd);
    mret (Ok (default notApplied result)).

(** *** Holds of the balance *)

Record BatchImageBalanceHoldResult := mkHoldResult {
  hr_Applied : bool; hr_NewBalance : option float64; hr_FrozenBalance : option float64 }.
Definition noHold : BatchImageBalanceHoldResult := mkHoldResult false None None.

Definition holdResult (u : userRow) : BatchImageBalanceHoldResult :=
  mkHoldResult false (Some (fromDecimal (balance u))) (Some (fromDecimal (frozen_balance u))).
(** The update of the row of the user; when it changes none, why. *)
Definition moveFunds (userID : Z) (cond : userRow -> bool) (f : userRow -> userRow) (refused : goerror) : method BatchImageBalanceHoldResult :=
  row ←? exec (stmt_updateUser userID cond f);
  match row with
  | Some u => mret (Ok (holdResult u))
  | None =>
      found ←? exec (stmt_userExists userID);
      mret (Err (if negb found then AppErr ErrUserNotFound else refused))
  end.

Definition reserveUsageBillingBatchImageBalance (cmd : BatchImageBalanceHoldCommand) : method BatchImageBalanceHoldResult :=
  let hold := toDecimal (HoldAmount cmd) in
  if nonpositive (HoldAmount cmd) then mret (Ok noHold)
  else moveFunds (h_UserID cmd) (fun u => covers (balance u) (HoldAmount cmd))
    (fun u => mkUser (store (balance u * perQuantum - hold)) (store (frozen_balance u * perQuantum + hold)))
    (AppErr ErrBatchImageInsufficientBalance).

Definition captureTolerance : float64 := fdiv fone (float_of_Z (10 ^ 8)).
Definition captureUsageBillingBatchImageBalance (cmd : BatchImageBalanceHoldCommand) : method BatchImageBalanceHoldResult :=
  let hold := toDecimal (HoldAmount cmd) in
  let actual := toDecimal (ActualAmount cmd) in
  if nonpositive (HoldAmount cmd) && nonpositive (ActualAmount cmd) then mret (Ok noHold)
  else if SFltb captureTolerance (fsub (ActualAmount cmd) (HoldAmount cmd))
  then mret (Err (AppErr ErrBatchImageSettlementCostExceedsHold))
  else moveFunds (h_UserID cmd) (fun u => covers (frozen_balance u) (HoldAmount cmd))
    (fun u => mkUser (store (balance u * perQuantum + (if actual <? hold then hold - actual else 0)
                                                   - (if hold <? actual then actual - hold else 0)))
                     (store (frozen_balance u * perQuantum - hold)))
    frozenInsufficient.

Definition batchImageHoldClaimExists (holdRequestID : string) (apiKeyID : Z) : method bool :=
  current ←? exec (stmt_selectClaim (holdRequestID, apiKeyID));
  match current with
  | Some _ => mret (Ok true)
  | None =>
      archived ←? exec (stmt_selectArchived (holdRequestID, apiKeyID));
      mret (Ok (match archived with Some _ => true | None => false end))
  end.
Definition releaseUsageBillingBatchImageBalance (cmd : BatchImageBalanceHoldCommand) : method BatchImageBalanceHoldResult :=
  let hold := toDecimal (HoldAmount cmd) in
  if nonpositive (HoldAmount cmd) then mret (Ok noHold)
  else
    held ←? batchImageHoldClaimExists (BatchImageHoldRequestID (h_BatchID cmd)) (h_APIKeyID cmd);
    if negb held then mret (Ok noHold)
    else moveFunds (h_UserID cmd) (fun u => covers (frozen_balance u) (HoldAmount cmd))
      (fun u => mkUser (store (balance u * perQuantum + hold)) (store (frozen_balance u * perQuantum - hold)))
      frozenInsufficient.

Inductive holdKind := Reserve | Capture | Release.
Definition holdEffects (kind : holdKind) : BatchImageBalanceHoldCommand -> method BatchImageBalanceHoldResult :=
  match kind with
  | Reserve => reserveUsageBillingBatchImageBalance
  | Capture => captureUsageBillingBatchImageBalance
  | Release => releaseUsageBillingBatchImageBalance
  end.
Definition applyBatchImageBalanceHold (kind : holdKind) (cmd : BatchImageBalanceHoldCommand) : method BatchImageBalanceHoldResult :=
  let cmd := NormalizeHold cmd in
  if String.eqb (h_RequestID cmd) "" then mret (Err ErrUsageBillingRequestIDRequired)
  else
    result ←? claimed (h_RequestID cmd) (h_APIKeyID cmd) (h_RequestFingerprint cmd) (holdEffects kind cmd);
    mret (Ok (match result with Some r => { r with hr_Applied := true } | None => noHold end)).
Definition ReserveBatchImageBalance := applyBatchImageBalanceHold Reserve.
Definition CaptureBatchImageBalance := applyBatchImageBalanceHold Capture.
Definition ReleaseBatchImageBalance := applyBatchImageBalanceHold Release.

(** *** The archive of claims *)

Definition usageBillingDedupCleanupBatchSize : nat := Z.to_nat 10000.
(** The rows in the order the scan of [LIMIT] finds them. *)
Context (scan : gmap claimKey claimRow -> list (claimKey * claimRow)).
Definition victimsBefore (cutoff : time) (d : db) : list (claimKey * claimRow) :=
  take usageBillingDedupCleanupBatchSize (List.filter (fun kr => Before (created_at kr.2) cutoff) (scan (usage_billing_dedup d))).
Definition stmt_archiveClaims (cutoff : time) : ST db Z := fun d =>
  let victims := victimsBefore cutoff d in
  (Z.of_nat (length victims),
   { { d with usage_billing_dedup := foldl (fun m kr => delete kr.1 m) (usage_billing_dedup d) victims }
     with usage_billing_dedup_archive := usage_billing_dedup_archive d ∪ list_to_map victims }).
Fixpoint cleanupLoop (fuel : nat) (cutoff : time) : method unit :=
  match fuel with
  | O => mret (Ok tt)
  | S fuel' =>
      r ← remote (stmt_archiveClaims cutoff);
      match r with
      | Err e => mret (Err e)
      | Ok affected => if affected <? Z.of_nat usageBillingDedupCleanupBatchSize then mret (Ok tt) else cleanupLoop fuel' cutoff
      end
  end.
(** The loop has no bound of its own; a round takes at least one row. *)
Definition CleanupUsageBillingDedup (cutoff : time) : method unit := fun w =>
  cleanupLoop (S (size (usage_billing_dedup w.1))) cutoff w.
End Repository.
