(* ===== verification/UsageLedger.v ===== *)
(** * What the charges amount to

    Theorems on [UsageBilling]: a request is charged once, as a whole, whatever
    fails; the funds of a user change by exactly what was charged; the windows of
    an API key are read as they are written. *)

From S2P Require Import Prelude Float64 Errors Sha256 Subscription SubscriptionRepo AccountQuota Account UsageBilling.

(** ** Rounding *)

Lemma roundHalfAway_exact n d : 0 < d -> n mod d = 0 -> roundHalfAway n d * d = n.
Proof.
  intros Hd Hn. unfold roundHalfAway. apply Z.mod_divide in Hn as [q ->]; [|lia].
  rewrite Z.abs_mul, (Z.abs_eq d) by lia. replace ((2 * (Z.abs q * d) + d) / (2 * d)) with (Z.abs q).
  2: { apply (Z.div_unique _ _ _ d); [left; lia|ring]. }
  rewrite Z.sgn_mul, (Z.sgn_pos d) by lia. pose proof (Z.sgn_abs q). nia.
Qed.
Lemma roundHalfAway_nonneg n d : 0 < d -> 0 <= n -> 0 <= roundHalfAway n d.
Proof.
  intros Hd Hn. unfold roundHalfAway. apply Z.mul_nonneg_nonneg; [lia|]. apply Z.div_pos; lia.
Qed.
(** The column is at most half a unit off. *)
Lemma roundHalfAway_near n d : 0 < d -> 2 * Z.abs (roundHalfAway n d * d - n) <= d.
Proof.
  intros Hd. unfold roundHalfAway. pose proof (Z.div_mod (2 * Z.abs n + d) (2 * d)).
  pose proof (Z.mod_pos_bound (2 * Z.abs n + d) (2 * d)). destruct (Z.sgn_spec n) as [[? ->]|[[? ->]|[? ->]]]; nia.
Qed.

Section Ledger.
Context {money : Money} {num : Numeric} {numbers : JsonNumbers} {session : SessionZone}
  (pgZone : string -> option (time -> duration)) (pgInstant : (time -> duration) -> Z -> time).

Lemma store_quanta b x : x mod perQuantum = 0 -> store (b * perQuantum + x) = b + x / perQuantum.
Proof.
  intros Hx. pose proof perQuantum_pos. unfold store. apply (Z.mul_reg_r _ _ perQuantum); [lia|].
  rewrite roundHalfAway_exact; [|done|].
  - rewrite Z.mul_add_distr_r. f_equal. rewrite Z.mul_comm. apply Z.div_exact; [lia|done].
  - rewrite Z.add_comm, Z.mod_add by lia. done.
Qed.
Lemma store_quanta_sub b x : x mod perQuantum = 0 -> store (b * perQuantum - x) = b - x / perQuantum.
Proof.
  intros Hx. pose proof perQuantum_pos. replace (b * perQuantum - x) with (b * perQuantum + - x) by ring.
  rewrite store_quanta by (rewrite Z.mod_opp_l_z; lia). rewrite Z.div_opp_l_z; lia.
Qed.

(** ** Transactions *)

Local Abbreviation world := (db * list fault)%type.
Local Abbreviation method A := (ST world (result goerror A)).

Lemma faithful_exec {A} (s : ST db (result goerror A)) : faithful (exec s).
Proof.
  intros d fs a d' fs'. unfold exec. rewrite !bind_run. simpl. unfold remote.
  destruct (s d) as [[b|e] d1], fs as [|[] fs1]; simpl; intros [= <- <- <-]; done.
Qed.
Lemma faithful_when {A} c (a : A) (m : method A) : faithful m -> faithful (when c a m).
Proof. intros H. unfold when. destruct c; [done|apply faithful_ret]. Qed.

(** Whatever fails, the database only changes in ways of [R]. *)
Definition within {A} (R : db -> db -> Prop) (m : method A) : Prop := forall d fs, R d (m (d, fs)).2.1.
Section Within.
Context (R : db -> db -> Prop) `{!PreOrder R}.
Lemma within_ret {A} (r : result goerror A) : within R (mret r).
Proof. by intros d fs. Qed.
Lemma within_exec {A} (s : ST db (result goerror A)) : (forall d, R d (s d).2) -> within R (exec s).
Proof.
  intros H d fs. unfold exec. rewrite !bind_run. unfold remote. specialize (H d).
  destruct (s d) as [b d1], fs as [|[] fs1]; simpl in *; try done; reflexivity.
Qed.
Lemma within_bind {A B} (m : method A) (f : A -> method B) :
  within R m -> (forall a, within R (f a)) -> within R (x ←? m; f x).
Proof.
  intros Hm Hf d fs. unfold bind_ok. rewrite !bind_run. specialize (Hm d fs).
  destruct (m (d, fs)) as [[a|e] [d1 fs1]]; simpl in *; [|done].
  transitivity d1; [done|apply Hf].
Qed.
Lemma within_when {A} c (a : A) (m : method A) : within R m -> within R (when c a m).
Proof. intros H. unfold when. destruct c; [done|apply within_ret]. Qed.
End Within.

(** A transaction fails, or decides to change nothing, or commits what its body
    does without faults; a failed COMMIT may have taken effect. *)
Lemma withTx_cases {A} (body : method (option A)) d fs r d' fs' : faithful body ->
  withTx body (d, fs) = (r, (d', fs')) ->
  (exists e, r = Err e /\ d' = d) \/
  (r = Ok None /\ d' = d /\ exists d2, body (d, []) = (Ok None, (d2, []))) \/
  exists a, body (d, []) = (Ok (Some a), (d', [])) /\ (r = Ok (Some a) \/ exists e, r = Err e).
Proof.
  intros Hb. unfold withTx. remember (remote (fun d : db => (tt, d)) (d, fs)) as begun eqn:Eb.
  assert (Hd : begun.2.1 = d) by (subst; by destruct fs as [|[] fs1]).
  destruct begun as [[u|e] [d1 fs1]]; simpl in Hd; subst d1; [|intros [= <- <- <-]; eauto].
  destruct (body (d, fs1)) as [[[a|]|e] [d2 fs2]] eqn:E; simpl; [| |intros [= <- <- <-]; eauto].
  - apply Hb in E. unfold remote. destruct fs2 as [|[] fs3]; intros [= <- <- <-]; eauto 7.
  - apply Hb in E. intros [= <- <- <-]. eauto 7.
Qed.

(** ** Claims *)

Definition claims (d : db) : gmap claimKey string :=
  request_fingerprint <$> (usage_billing_dedup d ∪ usage_billing_dedup_archive d).
Definition sameClaims (d d' : db) : Prop :=
  usage_billing_dedup d' = usage_billing_dedup d /\ usage_billing_dedup_archive d' = usage_billing_dedup_archive d /\ now_ d' = now_ d.
#[local] Instance sameClaims_preorder : PreOrder sameClaims.
Proof. split; [by intros d|]. intros a b c (?&?&?) (?&?&?). split_and!; congruence. Qed.
Lemma sameClaims_claims d d' : sameClaims d d' -> claims d' = claims d.
Proof. intros (E1 & E2 & _). unfold claims. by rewrite E1, E2. Qed.

Ltac faithful_steps := cbn zeta; repeat lazymatch goal with
  | |- faithful (mret _) => apply faithful_ret
  | |- faithful (exec _) => apply faithful_exec
  | |- faithful (when _ _ _) => apply faithful_when
  | |- faithful (bind_ok _ _) => apply faithful_bind_ok; [|intros ?]
  | |- faithful (match ?x with _ => _ end) => destruct x
  end.
Ltac within_steps := cbn zeta; repeat lazymatch goal with
  | |- within _ (mret _) => apply within_ret; apply _
  | |- within _ (exec _) => apply within_exec; [apply _|]
  | |- within _ (when _ _ _) => apply within_when; [apply _|]
  | |- within _ (bind_ok _ _) => apply within_bind; [apply _| |intros ?]
  | |- within _ (match ?x with _ => _ end) => destruct x
  end.
Create HintDb ledger.

Lemma same_updateUser id c f d : sameClaims d (stmt_updateUser id c f d).2.
Proof. unfold stmt_updateUser. by repeat case_match. Qed.
Lemma same_updateKey {A} id f (g : keyRow -> A) d : sameClaims d (stmt_updateKey id f g d).2.
Proof. unfold stmt_updateKey. by repeat case_match. Qed.
Lemma same_chargeAccount id a d : sameClaims d (stmt_chargeAccount pgZone pgInstant id a d).2.
Proof. unfold stmt_chargeAccount. by repeat case_match. Qed.
Lemma same_incrementSubscription c id d : sameClaims d (stmt_incrementSubscription c id d).2.
Proof. unfold stmt_incrementSubscription. by case_match. Qed.
Hint Resolve same_updateUser same_updateKey same_chargeAccount same_incrementSubscription : ledger.

Lemma usageEffects_faithful cmd : faithful (applyUsageBillingEffects pgZone pgInstant cmd).
Proof.
  unfold applyUsageBillingEffects, incrementUsageBillingSubscription, deductUsageBillingBalance,
    incrementUsageBillingAPIKeyQuota, incrementUsageBillingAPIKeyRateLimit, incrementUsageBillingAccountQuota.
  faithful_steps.
Qed.
Lemma holdEffects_faithful kind cmd : faithful (holdEffects kind cmd).
Proof.
  destruct kind; simpl; unfold reserveUsageBillingBatchImageBalance, captureUsageBillingBatchImageBalance,
    releaseUsageBillingBatchImageBalance, batchImageHoldClaimExists, moveFunds; faithful_steps.
Qed.
Lemma claim_faithful rid key fp : faithful (claimUsageBillingRequest rid key fp).
Proof. unfold claimUsageBillingRequest. faithful_steps. Qed.

Lemma usageEffects_same cmd : within sameClaims (applyUsageBillingEffects pgZone pgInstant cmd).
Proof.
  unfold applyUsageBillingEffects, incrementUsageBillingSubscription, deductUsageBillingBalance,
    incrementUsageBillingAPIKeyQuota, incrementUsageBillingAPIKeyRateLimit, incrementUsageBillingAccountQuota.
  within_steps; auto with ledger. all: intros d; try done; unfold stmt_chargeRateLimit; auto with ledger.
Qed.
Lemma holdEffects_same kind cmd : within sameClaims (holdEffects kind cmd).
Proof.
  destruct kind; simpl; unfold reserveUsageBillingBatchImageBalance, captureUsageBillingBatchImageBalance,
    releaseUsageBillingBatchImageBalance, batchImageHoldClaimExists, moveFunds; within_steps; auto with ledger; done.
Qed.

Definition addClaim (k : claimKey) (fingerprint : string) (d : db) : db :=
  { d with usage_billing_dedup := <[k := mkClaim fingerprint (now_ d)]> (usage_billing_dedup d) }.
Lemma claims_lookup d k :
  claims d !! k = request_fingerprint <$> (match usage_billing_dedup d !! k with Some c => Some c | None => usage_billing_dedup_archive d !! k end).
Proof.
  unfold claims. rewrite lookup_fmap, lookup_union. by destruct (usage_billing_dedup d !! k), (usage_billing_dedup_archive d !! k).
Qed.
Lemma claims_add k fp d : claims (addClaim k fp d) = <[k := fp]> (claims d).
Proof. unfold claims, addClaim. simpl. by rewrite <- insert_union_l, fmap_insert. Qed.

(** The claim without faults. *)
Definition alike (fp fp' : string) : Prop := TrimSpace fp = TrimSpace fp'.
Lemma claim_run rid key fp d : let k : claimKey := (rid, key) in
  claimUsageBillingRequest rid key fp (d, []) =
  match claims d !! k with
  | Some old => (if String.eqb (TrimSpace old) (TrimSpace fp) then Ok false else Err ErrUsageBillingRequestConflict,
                 (match usage_billing_dedup d !! k with Some _ => d | None => addClaim k fp d end, []))
  | None => (Ok true, (addClaim k fp d, []))
  end.
Proof.
  intros k. rewrite claims_lookup. unfold claimUsageBillingRequest, bind_ok, exec, remote, stmt_insertClaim. rewrite !bind_run. fold k. simpl.
  destruct (usage_billing_dedup d !! k) as [c|] eqn:E; simpl.
  - rewrite !bind_run. simpl. rewrite ?E. simpl. by destruct (String.eqb _ _).
  - rewrite !bind_run. destruct d as [? ? ? ? du ar ? ?]; simpl in *. destruct (ar !! k) as [c|]; simpl; [by destruct (String.eqb _ _)|done].
Qed.

Lemma claimed_cases {A} rid key fp (eff : method A) d fs r d' fs' : faithful eff ->
  claimed rid key fp eff (d, fs) = (r, (d', fs')) ->
  let k : claimKey := (rid, key) in
  (d' = d /\ match r with
             | Ok None => exists old, claims d !! k = Some old /\ alike old fp
             | Ok (Some _) => False
             | Err _ => True
             end) \/
  exists a, claims d !! k = None /\ eff (addClaim k fp d, []) = (Ok a, (d', [])) /\ (r = Ok (Some a) \/ exists e, r = Err e).
Proof.
  intros He H k. apply withTx_cases in H.
  2: { apply faithful_bind_ok; [apply claim_faithful|]. intros []; simpl; [|apply faithful_ret].
       apply faithful_bind_ok; [done|]. intros a. apply faithful_ret. }
  destruct H as [(e & -> & ->)|[(-> & -> & d2 & H)|(a & H & Hr)]]; [by left| |].
  - left. split; [done|]. revert H. unfold bind_ok at 1. rewrite bind_run, claim_run. fold k.
    destruct (claims d !! k) as [old|] eqn:E; simpl.
    + destruct (String.eqb _ _) eqn:Eq; simpl; [|done]. apply String.eqb_eq in Eq. intros _. by exists old.
    + unfold bind_ok. rewrite bind_run. by destruct (eff _) as [[]].
  - right. revert H. unfold bind_ok at 1. rewrite bind_run, claim_run. fold k.
    destruct (claims d !! k) as [old|] eqn:E; simpl; [by destruct (String.eqb _ _)|].
    unfold bind_ok. rewrite bind_run. destruct (eff (addClaim k fp d, [])) as [[b|e] [d2 fs2]] eqn:Ef; simpl; [|done].
    intros [= -> -> ->]. exists a. rewrite ?Ef. done.
Qed.

(** ** Requests *)

Inductive billing :=
| BUsage (cmd : UsageBillingCommand)
| BHold (kind : holdKind) (cmd : BatchImageBalanceHoldCommand).

(** Whether the call applied the request. *)
Definition perform (b : billing) : method bool :=
  match b with
  | BUsage cmd => r ←? Apply pgZone pgInstant cmd; mret (Ok (Applied r))
  | BHold kind cmd => r ←? applyBatchImageBalanceHold kind cmd; mret (Ok (hr_Applied r))
  end.
Definition billKey (b : billing) : claimKey :=
  match b with
  | BUsage cmd => (TrimSpace (RequestID cmd), cmd_APIKeyID cmd)
  | BHold _ cmd => (TrimSpace (h_RequestID cmd), h_APIKeyID cmd)
  end.
Definition billFingerprint (b : billing) : string :=
  match b with
  | BUsage cmd => RequestFingerprint (Normalize cmd)
  | BHold _ cmd => h_RequestFingerprint (NormalizeHold cmd)
  end.
Definition effects (b : billing) : method unit :=
  match b with
  | BUsage cmd => _ ←? applyUsageBillingEffects pgZone pgInstant (Normalize cmd); mret (Ok tt)
  | BHold kind cmd => _ ←? holdEffects kind (NormalizeHold cmd); mret (Ok tt)
  end.
(** What the request does when nothing fails, or nothing when it cannot be done. *)
Definition charge (b : billing) (d : db) : option db :=
  match effects b (addClaim (billKey b) (billFingerprint b) d, []) with
  | (Ok _, (d', _)) => Some d'
  | (Err _, _) => None
  end.

Lemma Normalize_fields cmd :
  (RequestID (Normalize cmd), cmd_APIKeyID (Normalize cmd)) = (TrimSpace (RequestID cmd), cmd_APIKeyID cmd).
Proof. unfold Normalize. by case_match. Qed.
Lemma NormalizeHold_fields cmd :
  (h_RequestID (NormalizeHold cmd), h_APIKeyID (NormalizeHold cmd)) = (TrimSpace (h_RequestID cmd), h_APIKeyID cmd).
Proof. unfold NormalizeHold. by case_match. Qed.
Lemma bind_ok_split {A B} (m : method A) (f : A -> method B) w b w' :
  (x ←? m; f x) w = (Ok b, w') -> exists a w1, m w = (Ok a, w1) /\ f a w1 = (Ok b, w').
Proof. rewrite bind_ok_eq. destruct (m w) as [[a|e] w1]; [eauto|done]. Qed.
Lemma usageEffects_applied cmd w a w' : applyUsageBillingEffects pgZone pgInstant cmd w = (Ok a, w') -> Applied a = true.
Proof.
  unfold applyUsageBillingEffects. intros H. do 5 apply bind_ok_split in H as (? & ? & _ & H). by injection H as <-.
Qed.

(** A call leaves the database as it is, or makes the whole charge of a request
    that was not charged before, and then does not deny it. *)
Lemma perform_cases b d fs r d' fs' : perform b (d, fs) = (r, (d', fs')) ->
  (d' = d /\ match r with
             | Ok true => False
             | Ok false => exists old, claims d !! billKey b = Some old /\ alike old (billFingerprint b)
             | Err _ => True
             end) \/
  (claims d !! billKey b = None /\ charge b d = Some d' /\ (r = Ok true \/ exists e, r = Err e)).
Proof.
  destruct b as [cmd|kind cmd]; cbn [perform]; rewrite bind_ok_eq.
  - unfold Apply. cbv zeta. pose proof (Normalize_fields cmd) as Ek. destruct (String.eqb _ ""); [intros [= <- <- _]; by left|].
    rewrite bind_ok_eq. destruct (claimed _ _ _ _ _) as [c [d1 fs1]] eqn:E.
    apply claimed_cases in E; [|apply usageEffects_faithful]. rewrite Ek in E.
    destruct E as [[-> H]|(a & Hk & Ha & Hr)].
    + destruct c as [[a|]|e]; [done| |]; intros [= <- <- _]; by left.
    + assert (Hap := usageEffects_applied _ _ _ _ Ha). intros Hc. right. split; [done|]. unfold charge. cbn [effects billKey billFingerprint].
      rewrite bind_ok_eq, Ha. destruct Hr as [->|[e ->]]; injection Hc as <- <- _; simpl; rewrite ?Hap; eauto.
  - unfold applyBatchImageBalanceHold. cbv zeta. pose proof (NormalizeHold_fields cmd) as Ek. destruct (String.eqb _ ""); [intros [= <- <- _]; by left|].
    rewrite bind_ok_eq. destruct (claimed _ _ _ _ _) as [c [d1 fs1]] eqn:E.
    apply claimed_cases in E; [|apply holdEffects_faithful]. rewrite Ek in E.
    destruct E as [[-> H]|(a & Hk & Ha & Hr)].
    + destruct c as [[a|]|e]; [done| |]; intros [= <- <- _]; by left.
    + intros Hc. right. split; [done|]. unfold charge. cbn [effects billKey billFingerprint].
      rewrite bind_ok_eq, Ha. destruct Hr as [->|[e ->]]; injection Hc as <- <- _; eauto.
Qed.
Lemma charge_claims b d d' : charge b d = Some d' -> claims d' = <[billKey b := billFingerprint b]> (claims d).
Proof.
  unfold charge. rewrite <- claims_add. set (d1 := addClaim _ _ d).
  assert (H : sameClaims d1 (effects b (d1, [])).2.1).
  { destruct b; cbn [effects]; apply within_bind; try apply _; [apply usageEffects_same|intros ?; apply within_ret; apply _
      |apply holdEffects_same|intros ?; apply within_ret; apply _]. }
  destruct (effects b (d1, [])) as [[?|?] [d2 ?]]; [|done]. intros [= <-]. by apply sameClaims_claims.
Qed.

(** ** The archive *)

Context (scan : gmap claimKey claimRow -> list (claimKey * claimRow)) (scan_all : forall m, scan m ≡ₚ map_to_list m).

(** No claim is both current and archived. *)
Definition sound (d : db) : Prop := usage_billing_dedup d ##ₘ usage_billing_dedup_archive d.
(** What a round of the clean-up changes: rows move to the archive. *)
Definition archives (d d' : db) : Prop :=
  usage_billing_dedup d' ∪ usage_billing_dedup_archive d' = usage_billing_dedup d ∪ usage_billing_dedup_archive d /\ sound d' /\
  usage_billing_dedup d' ⊆ usage_billing_dedup d /\
  users d' = users d /\ api_keys d' = api_keys d /\ accounts d' = accounts d /\ subscriptions d' = subscriptions d /\
  outbox d' = outbox d /\ now_ d' = now_ d.

Lemma deletes_lookup (l : list (claimKey * claimRow)) (m : gmap claimKey claimRow) k :
  foldl (fun m kr => delete kr.1 m) m l !! k = if decide (k ∈ l.*1) then None else m !! k.
Proof.
  revert m. induction l as [|[k0 c] l IH]; intros m; csimpl; [done|]. rewrite IH.
  destruct (decide (k ∈ l.*1)), (decide (k ∈ k0 :: l.*1)) as [H|H]; rewrite elem_of_cons in *; try tauto.
  - destruct H as [->|?]; [|done]. apply lookup_delete_eq.
  - apply lookup_delete_ne. naive_solver.
Qed.
Lemma victims_spec cutoff d :
  let victims := victimsBefore scan cutoff d in
  NoDup victims.*1 /\ (forall k c, (k, c) ∈ victims -> usage_billing_dedup d !! k = Some c /\ Before (created_at c) cutoff = true).
Proof.
  intros victims. subst victims. unfold victimsBefore. set (dead := fun kr : claimKey * claimRow => Before (created_at kr.2) cutoff).
  split.
  - assert (H : NoDup (List.filter dead (scan (usage_billing_dedup d))).*1).
    { assert (H := NoDup_fst_map_to_list (usage_billing_dedup d)). rewrite <- (scan_all (usage_billing_dedup d)) in H. revert H.
      generalize (scan (usage_billing_dedup d)). induction l as [|x l IH]; simpl; [done|]. rewrite NoDup_cons. intros [Hx Hl].
      destruct (dead x); simpl; [|by apply IH]. rewrite NoDup_cons. split; [|by apply IH].
      intros Hin. apply Hx. apply list_elem_of_fmap in Hin as (y & -> & Hy). apply list_elem_of_fmap. exists y. split; [done|].
      apply list_elem_of_In, filter_In in Hy as [Hy _]. by apply list_elem_of_In. }
    rewrite <- (take_drop usageBillingDedupCleanupBatchSize (List.filter dead _)), fmap_app in H. by apply NoDup_app in H as [H _].
  - intros k c Hin. apply elem_of_take in Hin as (i & Hi & _). apply list_elem_of_lookup_2 in Hi.
    apply list_elem_of_In, filter_In in Hi as [Hi Hd]. split; [|done].
    apply list_elem_of_In in Hi. rewrite scan_all in Hi. by apply elem_of_map_to_list.
Qed.
Lemma archive_archives cutoff d : sound d -> archives d (stmt_archiveClaims scan cutoff d).2.
Proof.
  intros Hs. destruct (victims_spec cutoff d) as [Hn Hv]. unfold stmt_archiveClaims. cbv zeta. set (l := victimsBefore scan cutoff d) in *.
  assert (Hl : forall k, k ∈ l.*1 -> exists c, list_to_map (M := gmap claimKey claimRow) l !! k = Some c /\ usage_billing_dedup d !! k = Some c /\
                                           usage_billing_dedup_archive d !! k = None).
  { intros k Hk. apply list_elem_of_fmap in Hk as ([k' c] & -> & Hk). exists c. destruct (Hv _ _ Hk) as [E _].
    split_and!; [by apply elem_of_list_to_map|done|]. by eapply map_disjoint_Some_l. }
  clearbody l. destruct d as [us ks acc sb dd ar ob nw]. unfold archives, sound in *. simpl in *.
  split; [|split; [|split]]; [| | |done].
  - apply map_eq. intros k. rewrite !lookup_union, deletes_lookup. destruct (decide (k ∈ l.*1)) as [Hk|Hk].
    + destruct (Hl _ Hk) as (c & -> & -> & ->). done.
    + apply not_elem_of_list_to_map in Hk. rewrite Hk. by destruct (dd !! k), (ar !! k).
  - apply map_disjoint_spec. intros k x y. rewrite deletes_lookup, lookup_union. destruct (decide (k ∈ l.*1)) as [Hk|Hk]; [done|].
    apply not_elem_of_list_to_map in Hk. rewrite Hk. intros E. rewrite (map_disjoint_Some_l _ _ _ _ Hs E). done.
  - apply map_subseteq_spec. intros k x. rewrite deletes_lookup. by case_decide.
Qed.

Lemma archives_trans d1 d2 d3 : archives d1 d2 -> archives d2 d3 -> archives d1 d3.
Proof.
  clear pgZone pgInstant.
  intros (E & _ & S1 & H1) (E' & Hs & S2 & H2). split; [congruence|]. split; [done|]. split; [by transitivity (usage_billing_dedup d2)|].
  intuition congruence.
Qed.
Lemma archives_refl d : sound d -> archives d d.
Proof. intros. by split_and!. Qed.
Lemma cleanup_archives fuel cutoff d fs : sound d -> archives d (cleanupLoop scan fuel cutoff (d, fs)).2.1.
Proof.
  revert d fs. induction fuel as [|fuel IH]; intros d fs Hs; simpl; [by apply archives_refl|].
  rewrite bind_run. pose proof (archive_archives cutoff d Hs) as Ha. pose proof Ha as (_ & Hs1 & _). unfold remote.
  destruct (stmt_archiveClaims scan cutoff d) as [n d1], fs as [|[] fs1]; simpl in *;
    repeat case_match; by eauto using archives_trans, archives_refl.
Qed.

Definition keepSince (cutoff : time) (m : gmap claimKey claimRow) : gmap claimKey claimRow :=
  filter (fun kr => Before (created_at kr.2) cutoff = false) m.
Lemma stmt_archive_dedup cutoff d k : usage_billing_dedup (stmt_archiveClaims scan cutoff d).2 !! k =
  if decide (k ∈ (victimsBefore scan cutoff d).*1) then None else usage_billing_dedup d !! k.
Proof. unfold stmt_archiveClaims. apply deletes_lookup. Qed.
Lemma archive_keeps cutoff d : keepSince cutoff (usage_billing_dedup (stmt_archiveClaims scan cutoff d).2) = keepSince cutoff (usage_billing_dedup d).
Proof.
  apply map_eq. intros k. unfold keepSince. apply option_eq. intros c. rewrite !map_lookup_filter_Some, stmt_archive_dedup.
  destruct (decide _) as [Hk|Hk]; [|done]. split; [by intros []|]. intros [E Hc]. simpl in Hc.
  apply list_elem_of_fmap in Hk as ([k' c'] & -> & Hk). apply (victims_spec cutoff d) in Hk as [E' Hc']. simpl in *. congruence.
Qed.
(** A round that is not full takes all old claims. *)
Lemma archive_last cutoff d : (length (victimsBefore scan cutoff d) < usageBillingDedupCleanupBatchSize)%nat ->
  usage_billing_dedup (stmt_archiveClaims scan cutoff d).2 = keepSince cutoff (usage_billing_dedup d).
Proof.
  intros Hlen. apply map_eq. intros k. apply option_eq. intros c. unfold keepSince.
  rewrite map_lookup_filter_Some, stmt_archive_dedup. revert Hlen. unfold victimsBefore. rewrite length_take. intros Hlen.
  rewrite take_ge by lia. simpl. set (dead := fun kr : claimKey * claimRow => Before (created_at kr.2) cutoff) in *.
  assert (Hin : forall c, usage_billing_dedup d !! k = Some c -> Before (created_at c) cutoff = true <-> k ∈ (List.filter dead (scan (usage_billing_dedup d))).*1).
  { intros c' E. rewrite list_elem_of_fmap. split.
    - intros H. exists (k, c'). split; [done|]. apply list_elem_of_In, filter_In. split; [|done].
      apply list_elem_of_In. rewrite scan_all. by apply elem_of_map_to_list.
    - intros ([k' c2] & -> & H). apply list_elem_of_In, filter_In in H as [H Hd]. apply list_elem_of_In in H.
      rewrite scan_all in H. apply elem_of_map_to_list in H. simpl in *. unfold dead in Hd. simpl in Hd. congruence. }
  destruct (decide _) as [Hk|Hk].
  - split; [done|]. intros [E Hc]. apply (Hin _ E) in Hk. congruence.
  - split; [|by intros []]. intros E. split; [done|]. destruct (Before (created_at c) cutoff) eqn:Hc; [|done]. by apply (Hin _ E) in Hc.
Qed.
Lemma archive_shrinks cutoff d : (0 < length (victimsBefore scan cutoff d))%nat ->
  (size (usage_billing_dedup (stmt_archiveClaims scan cutoff d).2) < size (usage_billing_dedup d))%nat.
Proof.
  intros Hlen. apply map_subset_size. destruct (victims_spec cutoff d) as [_ Hv]. split.
  - apply map_subseteq_spec. intros k c. rewrite stmt_archive_dedup. by case_decide.
  - intros Hs. destruct (victimsBefore scan cutoff d) as [|[k c] l] eqn:El; [simpl in *; lia|].
    destruct (Hv k c) as [E _]; [left|]. eapply lookup_weaken in E; [|exact Hs]. rewrite stmt_archive_dedup, El in E.
    rewrite decide_True in E; [done|left].
Qed.

(** C38: The clean-up of claims ends, after which no claim older than the cutoff is current; younger
    claims are where they were, every claim is still known, and nothing else changed. *)
Theorem cleanup_ends cutoff d : sound d ->
  exists d', CleanupUsageBillingDedup scan cutoff (d, []) = (Ok tt, (d', [])) /\ archives d d' /\
    usage_billing_dedup d' = keepSince cutoff (usage_billing_dedup d).
Proof.
  clear pgZone pgInstant.
  intros Hs. unfold CleanupUsageBillingDedup. simpl fst. set (fuel := S (size (usage_billing_dedup d))).
  assert (Hf : (size (usage_billing_dedup d) < fuel)%nat) by lia. clearbody fuel.
  revert d Hs Hf. induction fuel as [|fuel IH]; intros d Hs Hf; [lia|]. cbn [cleanupLoop]. rewrite bind_run, remote_run.
  pose proof (archive_archives cutoff d Hs) as Ha. pose proof Ha as (_ & Hs1 & _).
  pose proof (archive_keeps cutoff d) as Hkeep. pose proof (archive_last cutoff d) as Hlast. pose proof (archive_shrinks cutoff d) as Hsz.
  assert (En : (stmt_archiveClaims scan cutoff d).1 = Z.of_nat (length (victimsBefore scan cutoff d))) by done.
  destruct (stmt_archiveClaims scan cutoff d) as [n d1]. cbn [fst snd] in *. subst n.
  assert (0 < usageBillingDedupCleanupBatchSize)%nat by (unfold usageBillingDedupCleanupBatchSize; lia).
  destruct (Z.ltb_spec (Z.of_nat (length (victimsBefore scan cutoff d))) (Z.of_nat usageBillingDedupCleanupBatchSize)).
  - exists d1. split_and!; [done|done|apply Hlast; lia].
  - destruct (IH d1) as (d' & E & Ha' & Hk); [done|specialize (Hsz ltac:(lia)); lia|].
    exists d'. split; [done|]. split; [by eapply archives_trans|congruence].
Qed.

(** ** Histories *)

(** Requests with the faults their transactions meet, clean-ups, payments to or
    from a user, and the passing of time. *)
Inductive event :=
| EvBill (b : billing) (faults : list fault)
| EvCleanup (cutoff : time) (faults : list fault)
| EvPayment (user : Z) (amount : Z)
| EvClock (now : time).
Definition happen (d : db) (ev : event) : db :=
  match ev with
  | EvBill b fs => (perform b (d, fs)).2.1
  | EvCleanup cutoff fs => (CleanupUsageBillingDedup scan cutoff (d, fs)).2.1
  | EvPayment user amount => { d with users := alter (fun u => mkUser (balance u + amount) (frozen_balance u)) user (users d) }
  | EvClock now => { d with now_ := now }
  end.
Definition run (d : db) (evs : list event) : db := foldl happen d evs.
(** The requests that took effect: those whose claim is new. *)
Definition chargedBy (d : db) (ev : event) : list billing :=
  match ev with
  | EvBill b _ => if decide (claims d !! billKey b = None /\ is_Some (claims (happen d ev) !! billKey b)) then [b] else []
  | _ => []
  end.
Fixpoint charged (d : db) (evs : list event) : list billing :=
  match evs with
  | [] => []
  | ev :: evs => chargedBy d ev ++ charged (happen d ev) evs
  end.

Lemma charge_sound b d d' : sound d -> claims d !! billKey b = None -> charge b d = Some d' -> sound d'.
Proof.
  intros Hs Hk. unfold charge. set (d1 := addClaim _ _ d).
  assert (H : sameClaims d1 (effects b (d1, [])).2.1).
  { destruct b; cbn [effects]; apply within_bind; try apply _; [apply usageEffects_same|intros ?; apply within_ret; apply _
      |apply holdEffects_same|intros ?; apply within_ret; apply _]. }
  destruct (effects b (d1, [])) as [[?|?] [d2 ?]]; [|done]. intros [= <-]. destruct H as (E1 & E2 & _). unfold sound.
  simpl in E1, E2. rewrite E1, E2. subst d1. rewrite claims_lookup in Hk.
  apply map_disjoint_insert_l_2; [|done].
  apply fmap_None in Hk. by destruct (usage_billing_dedup d !! billKey b).
Qed.
Lemma archives_claims d d' : archives d d' -> claims d' = claims d.
Proof. intros [E _]. unfold claims. by rewrite E. Qed.
(** What one event does. *)
Lemma happen_cases d ev : sound d ->
  sound (happen d ev) /\
  match chargedBy d ev with
  | [] => claims (happen d ev) = claims d /\ match ev with EvBill _ _ => happen d ev = d | _ => True end
  | b :: l => l = [] /\ claims d !! billKey b = None /\ (exists fs, ev = EvBill b fs) /\ charge b d = Some (happen d ev) /\
              claims (happen d ev) = <[billKey b := billFingerprint b]> (claims d)
  end.
Proof.
  intros Hs. destruct ev as [b fs|cutoff fs|user amount|t]; cbn [chargedBy]; [|split|done|done].
  - cbn [happen]. destruct (perform b (d, fs)) as [r [d' fs']] eqn:E. simpl. apply perform_cases in E as [[-> _]|(Hk & Hc & _)].
    + rewrite decide_False; [by split_and!|]. intros [H1 [? H2]]. congruence.
    + pose proof (charge_claims _ _ _ Hc) as Ec. rewrite decide_True.
      * split; [by eapply charge_sound|]. split_and!; try done. by exists fs.
      * split; [done|]. rewrite Ec, lookup_insert_eq. by eexists.
  - cbn [happen]. by apply cleanup_archives.
  - split; [|done]. apply archives_claims. by apply cleanup_archives.
Qed.

Lemma run_sound d evs : sound d -> sound (run d evs).
Proof. revert d. induction evs as [|ev evs IH]; intros d Hs; [done|]. apply (IH (happen d ev)). by apply happen_cases. Qed.
Lemma charged_claims d evs : sound d ->
  NoDup (billKey <$> charged d evs) /\
  (forall b, b ∈ charged d evs -> claims d !! billKey b = None /\ claims (run d evs) !! billKey b = Some (billFingerprint b)) /\
  (forall k fp, claims (run d evs) !! k = Some fp <->
     claims d !! k = Some fp \/ exists b, b ∈ charged d evs /\ k = billKey b /\ fp = billFingerprint b).
Proof.
  revert d. induction evs as [|ev evs IH]; intros d Hs.
  { cbn [charged run foldl]. split_and!; [constructor|by intros ? ?%not_elem_of_nil|].
    intros k fp. split; [by left|]. intros [?|(b & ?%not_elem_of_nil & _)]; done. }
  cbn [charged]. change (run d (ev :: evs)) with (run (happen d ev) evs).
  destruct (happen_cases d ev Hs) as [Hs1 H]. destruct (IH _ Hs1) as (Hn & Hnew & Hall).
  destruct (chargedBy d ev) as [|b l]; [destruct H as [<- _]; done|].
  destruct H as (-> & Hk & _ & _ & Ec). rewrite Ec in Hall, Hnew. simpl. split_and!.
  - apply NoDup_cons. split; [|done]. intros (b' & E & Hb')%list_elem_of_fmap. destruct (Hnew _ Hb') as [H _].
    by rewrite <- E, lookup_insert_eq in H.
  - intros b' [->|Hb']%elem_of_cons.
    + split; [done|]. apply Hall. left. apply lookup_insert_eq.
    + destruct (Hnew _ Hb') as [H1 H2]. split; [|done]. by apply lookup_insert_None in H1 as [? _].
  - intros k fp. rewrite Hall, lookup_insert_Some. setoid_rewrite elem_of_cons. split.
    + intros [[[<- <-]|[? ?]]|(b' & ? & ? & ?)]; eauto 7.
    + intros [?|(b' & [->|?] & -> & ->)]; [|by auto|by eauto 7].
      left. right. split; [|done]. intros <-. congruence.
Qed.

Lemma charged_app d evs evs' : charged d (evs ++ evs') = charged d evs ++ charged (run d evs) evs'.
Proof. revert d. induction evs as [|ev evs IH]; intros d; [done|]. cbn [app charged]. by rewrite IH, app_assoc. Qed.

(** C4: Whatever requests, retries of them, faults (also a COMMIT that fails after it took effect),
    clean-ups and payments happen: the requests that take effect have different keys, none charged
    before; a call leaves the database alone or makes the whole charge of its request; and when it
    answers without an error, its key is charged by then, for a request with the same fingerprint. *)
Theorem billed_exactly_once d0 evs1 b fs evs2 r d' fs' : sound d0 ->
  perform b (run d0 evs1, fs) = (r, (d', fs')) ->
  let all := charged d0 (evs1 ++ EvBill b fs :: evs2) in
  NoDup (billKey <$> all) /\
  (forall b', b' ∈ all -> claims d0 !! billKey b' = None) /\
  (d' = run d0 evs1 \/ (charge b (run d0 evs1) = Some d' /\ b ∈ all)) /\
  match r with
  | Ok true => claims (run d0 evs1) !! billKey b = None /\ charge b (run d0 evs1) = Some d' /\ b ∈ all
  | Ok false => exists fp, alike fp (billFingerprint b) /\
      (claims d0 !! billKey b = Some fp \/ exists b', b' ∈ charged d0 evs1 /\ billKey b' = billKey b /\ billFingerprint b' = fp)
  | Err _ => True
  end.
Proof.
  intros Hs H all. destruct (charged_claims d0 (evs1 ++ EvBill b fs :: evs2) Hs) as (Hn & Hnew & _).
  destruct (charged_claims d0 evs1 Hs) as (_ & _ & Hall).
  assert (Hin : claims (run d0 evs1) !! billKey b = None -> charge b (run d0 evs1) = Some d' -> b ∈ all).
  { intros Hk Hc. subst all. rewrite charged_app. cbn [charged chargedBy happen]. rewrite H. simpl. rewrite decide_True; [rewrite elem_of_app; right; left|].
    split; [done|]. rewrite (charge_claims _ _ _ Hc), lookup_insert_eq. by eexists. }
  split; [done|]. split; [intros b' Hb'; by apply Hnew|].
  apply perform_cases in H as [[-> Hr]|(Hk & Hc & Hr)].
  - split; [by left|]. destruct r as [[]|]; [done| |done]. destruct Hr as (old & Ho & Ha). exists old. split; [done|].
    apply Hall in Ho as [?|(b' & ? & ? & ?)]; eauto.
  - split; [by auto|]. destruct Hr as [->|[e ->]]; auto.
Qed.

(** ** Funds *)

Definition quanta (f : float64) : Z := toDecimal f / perQuantum.
Lemma quantized_mod f : positive (QuantizeUsageBillingAmount f) = true -> toDecimal (QuantizeUsageBillingAmount f) mod perQuantum = 0.
Proof.
  unfold QuantizeUsageBillingAmount. destruct (isZero f) eqn:E0; simpl; [by destruct f|]. destruct (IsNaN f) eqn:E1; simpl; [by destruct f|].
  destruct (IsInf f) eqn:E2; [|intros _; by apply decimalRound8_quanta]. destruct f as [| [] | |]; try done. intros _. apply toDecimal_infinity.
Qed.
Lemma not_nonpositive f : nonpositive f = false -> 0 <= toDecimal f.
Proof.
  intros H. destruct (positive f) eqn:E; [by apply toDecimal_nonneg|]. assert (f = S754_nan) as ->.
  { unfold nonpositive, positive, SFleb, SFltb in *. destruct f as [[]|[]| |[] m e]; by simpl in *. }
  pose proof toDecimal_nan. pose proof perQuantum_pos. lia.
Qed.
Lemma quanta_nonneg f : 0 <= toDecimal f -> 0 <= quanta f.
Proof. intros. apply Z.div_pos; [done|apply perQuantum_pos]. Qed.
Lemma store_nonneg x : 0 <= x -> 0 <= store x.
Proof. apply roundHalfAway_nonneg, perQuantum_pos. Qed.

Lemma exec_run {A} (s : ST db (result goerror A)) d : exec s (d, []) = ((s d).1, ((s d).2, [])).
Proof. unfold exec. rewrite bind_run, remote_run. by destruct (s d) as [[]]. Qed.
Lemma updateUser_spec id c f d : match stmt_updateUser id c f d with
  | (Ok (Some u'), d') => exists u, users d !! id = Some u /\ c u = true /\ u' = f u /\ users d' = alter f id (users d) /\ api_keys d' = api_keys d
  | (_, d') => d' = d
  end.
Proof.
  unfold stmt_updateUser. destruct (users d !! id) as [u|] eqn:E; [|done]. destruct (c u) eqn:Ec; simpl; [|done].
  destruct (_ && _); simpl; [|done]. exists u. split_and!; try done. simpl. apply map_eq. intros i.
  destruct (decide (i = id)) as [->|]; [by rewrite lookup_insert_eq, lookup_alter_eq, E|by rewrite lookup_insert_ne, lookup_alter_ne].
Qed.
Lemma updateKey_spec {A} id f (g : keyRow -> A) d : match stmt_updateKey id f g d with
  | (Ok (Some a), d') => exists k, api_keys d !! id = Some k /\ a = g (f k) /\ api_keys d' = alter f id (api_keys d) /\ users d' = users d
  | (_, d') => d' = d
  end.
Proof.
  unfold stmt_updateKey. destruct (api_keys d !! id) as [k|] eqn:E; [|done].
  destruct (forallb _ _); cbn [negb]; [|done]. exists k. split_and!; try done. simpl. apply map_eq. intros i.
  destruct (decide (i = id)) as [->|]; [by rewrite lookup_insert_eq, lookup_alter_eq, E|by rewrite lookup_insert_ne, lookup_alter_ne].
Qed.

(** The effects on users and keys of each step that succeeds. *)
Definition rows (d : db) : gmap Z userRow * gmap Z keyRow := (users d, api_keys d).
Definition deduct (amount : float64) (u : userRow) : userRow := { u with balance := store (balance u * perQuantum - toDecimal amount) }.
Lemma deduct_rows id amount d r d' fs' : deductUsageBillingBalance id amount (d, []) = (Ok r, (d', fs')) ->
  is_Some (users d !! id) /\ rows d' = (alter (deduct amount) id (users d), api_keys d).
Proof.
  unfold deductUsageBillingBalance. cbv zeta. rewrite bind_ok_eq, exec_run.
  pose proof (updateUser_spec id (fun u => covers (balance u) amount) (deduct amount) d) as H1. fold (deduct amount).
  destruct (stmt_updateUser _ _ _ d) as [[[u|]|e] d1]; simpl; [|subst d1|done].
  - intros [= _ <- _]. destruct H1 as (u0 & -> & _ & _ & E1 & E2). split; [by eexists|]. unfold rows. by rewrite E1, E2.
  - rewrite bind_ok_eq, exec_run. pose proof (updateUser_spec id (fun _ => true) (deduct amount) d) as H2.
    destruct (stmt_updateUser _ _ _ d) as [[[u|]|e] d2]; simpl; [|done|done].
    intros [= _ <- _]. destruct H2 as (u0 & -> & _ & _ & E1 & E2). split; [by eexists|]. unfold rows. by rewrite E1, E2.
Qed.
Lemma keyQuota_rows id amount d r d' fs' : incrementUsageBillingAPIKeyQuota id amount (d, []) = (Ok r, (d', fs')) ->
  rows d' = (users d, alter (chargeQuota amount) id (api_keys d)).
Proof.
  unfold incrementUsageBillingAPIKeyQuota. rewrite bind_ok_eq, exec_run. pose proof (updateKey_spec id (chargeQuota amount) (justExhausted amount) d) as H.
  destruct (stmt_updateKey _ _ _ d) as [[[u|]|e] d1]; simpl; [|done|done].
  intros [= _ <- _]. destruct H as (k & _ & _ & E1 & E2). unfold rows. by rewrite E1, E2.
Qed.
Lemma rateLimit_rows id cost d r d' fs' : incrementUsageBillingAPIKeyRateLimit id cost (d, []) = (Ok r, (d', fs')) ->
  rows d' = (users d, alter (chargeRateLimit cost (now_ d)) id (api_keys d)).
Proof.
  unfold incrementUsageBillingAPIKeyRateLimit, stmt_chargeRateLimit. rewrite bind_ok_eq, exec_run.
  pose proof (updateKey_spec id (chargeRateLimit cost (now_ d)) (fun _ => tt) d) as H.
  destruct (stmt_updateKey _ _ _ d) as [[[u|]|e] d1]; simpl; [|done|done].
  intros [= _ <- _]. destruct H as (k & _ & _ & E1 & E2). unfold rows. by rewrite E1, E2.
Qed.
Definition sameRows (d d' : db) : Prop := rows d' = rows d.
#[local] Instance sameRows_preorder : PreOrder sameRows.
Proof. split; [by intros d|]. intros a b c. unfold sameRows. congruence. Qed.
Lemma subscription_rows id cost : within sameRows (incrementUsageBillingSubscription id cost).
Proof. unfold incrementUsageBillingSubscription. within_steps. intros d. unfold stmt_incrementSubscription. by case_match. Qed.
Lemma account_rows id amount : within sameRows (incrementUsageBillingAccountQuota pgZone pgInstant id amount).
Proof.
  unfold incrementUsageBillingAccountQuota. within_steps; intros d; [|done].
  unfold stmt_chargeAccount. by repeat case_match.
Qed.

(** A computation that, when it succeeds without faults, changes users by [fu] and keys by [fk]. *)
Definition moves {A} (fu : gmap Z userRow -> gmap Z userRow) (fk : time -> gmap Z keyRow -> gmap Z keyRow) (m : method A) : Prop :=
  forall d a d' fs', m (d, []) = (Ok a, (d', fs')) -> now_ d' = now_ d /\ rows d' = (fu (users d), fk (now_ d) (api_keys d)).
Lemma moves_bind {A B} fu fk gu gk (m : method A) (f : A -> method B) :
  faithful m -> moves fu fk m -> (forall a, moves gu gk (f a)) ->
  moves (fun u => gu (fu u)) (fun t k => gk t (fk t k)) (x ←? m; f x).
Proof.
  intros Hf Hm Hg d b d' fs'. rewrite bind_ok_eq. destruct (m (d, [])) as [[a|e] [d1 fs1]] eqn:E; [|done].
  pose proof (Hf _ _ _ _ _ E) as E'. rewrite E in E'. injection E' as ->.
  destruct (Hm _ _ _ _ E) as [Et Er]. intros H. destruct (Hg _ _ _ _ _ H) as [Et' Er']. unfold rows in *.
  injection Er as E1 E2. rewrite E1, E2, Et in Er'. split; [congruence|done].
Qed.
Lemma moves_ret {A} (r : result goerror A) : moves (fun u => u) (fun _ k => k) (mret r).
Proof. by intros d a d' fs' [= -> <- _]. Qed.
Lemma moves_then {A B} fu fk (m : method A) (f : A -> result goerror B) :
  faithful m -> moves fu fk m -> moves fu fk (x ←? m; mret (f x)).
Proof. intros Hf Hm. apply (moves_bind fu fk (fun u => u) (fun _ k => k)); [done|done|]. intros a. apply moves_ret. Qed.
Lemma moves_when {A} (c : bool) (a : A) fu fk (m : method A) : moves fu fk m ->
  moves (fun u => if c then fu u else u) (fun t k => if c then fk t k else k) (when c a m).
Proof. intros H. unfold when. destruct c; [done|apply moves_ret]. Qed.
Lemma moves_same {A} (m : method A) : within sameClaims m -> within sameRows m -> moves (fun u => u) (fun _ k => k) m.
Proof.
  intros Hc Hr d a d' fs' H. specialize (Hc d []). specialize (Hr d []). rewrite H in Hc, Hr. split; [apply Hc|apply Hr].
Qed.

Lemma subscription_moves id cost : moves (fun u => u) (fun _ k => k) (incrementUsageBillingSubscription id cost).
Proof. apply moves_same; [unfold incrementUsageBillingSubscription; within_steps; auto with ledger|apply subscription_rows]. Qed.
Lemma account_moves id amount : moves (fun u => u) (fun _ k => k) (incrementUsageBillingAccountQuota pgZone pgInstant id amount).
Proof. apply moves_same; [unfold incrementUsageBillingAccountQuota; within_steps; auto with ledger; done|apply account_rows]. Qed.
Lemma deduct_moves id amount : moves (alter (deduct amount) id) (fun _ k => k) (deductUsageBillingBalance id amount).
Proof.
  intros d a d' fs' H. split; [|by apply deduct_rows in H as [_ H]].
  assert (W : within sameClaims (deductUsageBillingBalance id amount)).
  { unfold deductUsageBillingBalance. within_steps; auto with ledger. }
  specialize (W d []). rewrite H in W. apply W.
Qed.
Lemma keyQuota_moves id amount : moves (fun u => u) (fun _ => alter (chargeQuota amount) id) (incrementUsageBillingAPIKeyQuota id amount).
Proof.
  intros d a d' fs' H. split; [|by eapply keyQuota_rows].
  assert (W : within sameClaims (incrementUsageBillingAPIKeyQuota id amount)).
  { unfold incrementUsageBillingAPIKeyQuota. within_steps; auto with ledger. }
  specialize (W d []). rewrite H in W. apply W.
Qed.
Lemma rateLimit_moves id cost : moves (fun u => u) (fun now => alter (chargeRateLimit cost now) id) (incrementUsageBillingAPIKeyRateLimit id cost).
Proof.
  intros d a d' fs' H. split; [|by eapply rateLimit_rows].
  assert (W : within sameClaims (incrementUsageBillingAPIKeyRateLimit id cost)).
  { unfold incrementUsageBillingAPIKeyRateLimit, stmt_chargeRateLimit. within_steps. intros ?. apply same_updateKey. }
  specialize (W d []). rewrite H in W. apply W.
Qed.

(** What a request is to take from its user and add to its key. *)
Definition userCharge (c : UsageBillingCommand) (u : gmap Z userRow) : gmap Z userRow :=
  if positive (BalanceCost c) then alter (deduct (BalanceCost c)) (cmd_UserID c) u else u.
Definition keyCharge (c : UsageBillingCommand) (now : time) (k : gmap Z keyRow) : gmap Z keyRow :=
  let k := if positive (APIKeyQuotaCost c) then alter (chargeQuota (APIKeyQuotaCost c)) (cmd_APIKeyID c) k else k in
  if positive (APIKeyRateLimitCost c) then alter (chargeRateLimit (APIKeyRateLimitCost c) now) (cmd_APIKeyID c) k else k.
Lemma moves_ext {A} fu fk gu gk (m : method A) : moves fu fk m -> (forall u, fu u = gu u) -> (forall t k, fk t k = gk t k) -> moves gu gk m.
Proof. intros H Eu Ek d a d' fs' E. destruct (H _ _ _ _ E) as [? ->]. by rewrite Eu, Ek. Qed.
Ltac faithful_effects := unfold incrementUsageBillingSubscription, deductUsageBillingBalance,
  incrementUsageBillingAPIKeyQuota, incrementUsageBillingAPIKeyRateLimit, incrementUsageBillingAccountQuota; faithful_steps.
Ltac moves_step m := eapply moves_ext; [apply moves_when, m| |]; intros; cbv beta; unfold userCharge; try done; by case_match.
Lemma usage_moves c : moves (userCharge c) (keyCharge c) (applyUsageBillingEffects pgZone pgInstant c).
Proof.
  set (quota := fun (_ : time) (k : gmap Z keyRow) => if positive (APIKeyQuotaCost c) then alter (chargeQuota (APIKeyQuotaCost c)) (cmd_APIKeyID c) k else k).
  set (limit := fun now (k : gmap Z keyRow) => if positive (APIKeyRateLimitCost c) then alter (chargeRateLimit (APIKeyRateLimitCost c) now) (cmd_APIKeyID c) k else k).
  unfold applyUsageBillingEffects.
  apply (moves_bind (fun u => u) (fun _ k => k) (userCharge c) (keyCharge c)); [faithful_effects| |intros _].
  { destruct (cmd_SubscriptionID c); [moves_step subscription_moves|apply moves_ret]. }
  apply (moves_bind (userCharge c) (fun _ k => k) (fun u => u) (keyCharge c)); [faithful_effects| |intros [newBalance overdrafted]].
  { assert (H := deduct_moves (cmd_UserID c) (BalanceCost c)). eapply moves_ext; [apply moves_when, moves_then; [faithful_effects|exact H]| |];
      intros; cbv beta; unfold userCharge; try done; by case_match. }
  apply (moves_bind (fun u => u) quota (fun u => u) limit); [faithful_effects|moves_step keyQuota_moves|intros exhausted].
  apply (moves_bind (fun u => u) limit (fun u => u) (fun _ k => k)); [faithful_effects|moves_step rateLimit_moves|intros _].
  apply moves_then; [faithful_effects|]. unfold when. destruct (_ && _); [|apply moves_ret].
  apply moves_then; [faithful_effects|apply account_moves].
Qed.

Lemma Normalize_costs cmd :
  let c := Normalize cmd in
  BalanceCost c = QuantizeUsageBillingAmount (BalanceCost cmd) /\ APIKeyQuotaCost c = QuantizeUsageBillingAmount (APIKeyQuotaCost cmd) /\
  cmd_UserID c = cmd_UserID cmd /\ cmd_APIKeyID c = cmd_APIKeyID cmd.
Proof. unfold Normalize. by case_match. Qed.
Lemma NormalizeHold_amounts cmd :
  let c := NormalizeHold cmd in
  HoldAmount c = HoldAmount cmd /\ ActualAmount c = ActualAmount cmd /\ h_UserID c = h_UserID cmd.
Proof. unfold NormalizeHold. by case_match. Qed.

(** What a request costs its user, in [10^-8] USD. *)
Definition billUser (b : billing) : Z :=
  match b with BUsage cmd => cmd_UserID cmd | BHold _ cmd => h_UserID cmd end.
Definition cost (b : billing) : Z :=
  match b with
  | BUsage cmd =>
      let amount := QuantizeUsageBillingAmount (BalanceCost cmd) in if positive amount then quanta amount else 0
  | BHold Capture cmd => if nonpositive (HoldAmount cmd) && nonpositive (ActualAmount cmd) then 0 else quanta (ActualAmount cmd)
  | BHold _ _ => 0
  end.
(** Usage is rounded to [10^-8] by the code before it is charged.  The amounts of a
    hold are not, so that one that is no multiple is rounded twice, once in the
    balance and once in the held amount. *)
Definition roundings (b : billing) : Z :=
  match b with
  | BUsage _ => 0
  | BHold _ cmd => if (toDecimal (HoldAmount cmd) mod perQuantum =? 0) && (toDecimal (ActualAmount cmd) mod perQuantum =? 0) then 0 else 1
  end.
Lemma roundings_nonneg b : 0 <= roundings b.
Proof. destruct b; simpl; [done|]. by case_match. Qed.

Lemma moveFunds_rows id c f e d r d' fs' : moveFunds id c f e (d, []) = (Ok r, (d', fs')) ->
  exists u, users d !! id = Some u /\ c u = true /\ users d' = alter f id (users d).
Proof.
  unfold moveFunds. rewrite bind_ok_eq, exec_run. pose proof (updateUser_spec id c f d) as H.
  destruct (stmt_updateUser _ _ _ d) as [[[u|]|e'] d1]; simpl; [| |done].
  - intros [= _ <- _]. destruct H as (u0 & E & Ec & _ & E1 & _). by exists u0.
  - rewrite bind_ok_eq, exec_run. simpl. by case_bool_decide.
Qed.
(** Funds of a user after [x] left the balance and [y] became frozen. *)
Definition shift (x y : Z) (u : userRow) : userRow := mkUser (balance u - x) (frozen_balance u + y).
(** The funds of a user after a hold of [hold] was captured for [actual], both in [10^-8] USD. *)
Definition afterCapture (hold actual : float64) (u : userRow) : userRow := shift (quanta actual - quanta hold) (- quanta hold) u.
Lemma captured_row hold actual u : toDecimal hold mod perQuantum = 0 -> toDecimal actual mod perQuantum = 0 ->
  mkUser (store (balance u * perQuantum + (if toDecimal actual <? toDecimal hold then toDecimal hold - toDecimal actual else 0)
                                        - (if toDecimal hold <? toDecimal actual then toDecimal actual - toDecimal hold else 0)))
         (store (frozen_balance u * perQuantum - toDecimal hold)) = afterCapture hold actual u.
Proof.
  intros Hh Ha. unfold afterCapture, shift, quanta. rewrite (store_quanta_sub (frozen_balance u)) by done. f_equal.
  pose proof perQuantum_pos. replace (_ + _ - _) with (balance u * perQuantum - (toDecimal actual - toDecimal hold))
    by (destruct (Z.ltb_spec (toDecimal actual) (toDecimal hold)), (Z.ltb_spec (toDecimal hold) (toDecimal actual)); lia).
  apply Z.div_exact in Hh; [|lia]. apply Z.div_exact in Ha; [|lia].
  assert (E : toDecimal actual - toDecimal hold = (toDecimal actual / perQuantum - toDecimal hold / perQuantum) * perQuantum) by lia.
  rewrite store_quanta_sub; [rewrite E, Z.div_mul; lia|rewrite E; apply Z.mod_mul; lia].
Qed.
Lemma covers_frozen z f : covers z f = true -> toDecimal f mod perQuantum = 0 -> quanta f <= z.
Proof.
  unfold covers, quanta. intros H%Z.leb_le Hm. pose proof perQuantum_pos. apply (Z.mul_le_mono_pos_r _ _ perQuantum); [done|].
  apply Z.div_exact in Hm; lia.
Qed.

Lemma holdClaimExists_run id key d :
  batchImageHoldClaimExists id key (d, []) = (Ok (bool_decide (is_Some (claims d !! ((id, key) : claimKey)))), (d, [])).
Proof.
  unfold batchImageHoldClaimExists. rewrite claims_lookup, bind_ok_eq, exec_run. unfold stmt_selectClaim. cbn [fst snd].
  destruct (usage_billing_dedup d !! ((id, key) : claimKey)); [done|]. cbn [fmap option_fmap option_map].
  rewrite bind_ok_eq, exec_run. unfold stmt_selectArchived. cbn [fst snd]. by destruct (usage_billing_dedup_archive d !! ((id, key) : claimKey)).
Qed.

Definition funds (u : userRow) : Z := balance u + frozen_balance u.
(** What a change does to the funds of a user, at most [slack] beside the cost. *)
Definition pays (price slack : Z) (c : userRow -> bool) (f : userRow -> userRow) : Prop := forall u, c u = true -> 0 <= frozen_balance u ->
  0 <= frozen_balance (f u) /\ Z.abs (funds (f u) - (funds u - price)) <= slack.
Lemma store_near x : 2 * Z.abs (store x * perQuantum - x) <= perQuantum.
Proof. apply roundHalfAway_near, perQuantum_pos. Qed.
(** Two roundings of amounts that add up to [price] less, itself cut to the scale, miss
    it by at most one, and not at all on the scale. *)
Definition scaled (slack : Z) (amounts : list Z) : Prop := slack = 0 /\ Forall (Z.divide perQuantum) amounts \/ slack = 1.
Lemma store_pair b f x y price slack : x + y = b * perQuantum + f * perQuantum - price -> scaled slack [x; y] ->
  Z.abs (store x + store y - (b + f - price / perQuantum)) <= slack.
Proof.
  intros E Hs. pose proof perQuantum_pos as HP. pose proof (store_near x) as Hx. pose proof (store_near y) as Hy.
  pose proof (Z.div_mod price perQuantum (Z.neq_sym _ _ (Z.lt_neq _ _ HP))) as Hd. pose proof (Z.mod_pos_bound price perQuantum HP) as Hm.
  set (e := store x + store y - (b + f - price / perQuantum)).
  assert (Ee : e * perQuantum = (store x * perQuantum - x) + (store y * perQuantum - y) - price mod perQuantum) by (subst e; nia).
  clearbody e.
  destruct Hs as [[-> H]| ->].
  - apply Forall_cons in H as [Dx%Z.mod_divide H]; [|lia]. apply Forall_cons in H as [Dy%Z.mod_divide _]; [|lia].
    assert (Ex : store x * perQuantum = x) by (by apply roundHalfAway_exact). assert (Ey : store y * perQuantum = y) by (by apply roundHalfAway_exact).
    assert (Hlt : - perQuantum < e * perQuantum <= 0) by lia. assert (e = 0) by nia. lia.
  - assert (Hlt : - (2 * perQuantum) < e * perQuantum < 2 * perQuantum) by lia. nia.
Qed.
Lemma roundings_scaled kind cmd : scaled (roundings (BHold kind cmd)) [toDecimal (HoldAmount cmd); toDecimal (ActualAmount cmd)].
Proof.
  pose proof perQuantum_pos. unfold scaled. simpl. destruct (_ && _) eqn:E; [left|by right].
  apply andb_prop in E as [E1%Z.eqb_eq E2%Z.eqb_eq]. split; [done|]. apply Forall_cons. split; [by apply Z.mod_divide; [lia|]|]. apply Forall_singleton, Z.mod_divide; [lia|done].
Qed.
(** A change of a user's row by two amounts of which [price] is paid. *)
Lemma moved_pays kind cmd x y price c : x + y = - price ->
  ((perQuantum | toDecimal (HoldAmount cmd)) -> (perQuantum | toDecimal (ActualAmount cmd)) -> (perQuantum | x) /\ (perQuantum | y)) ->
  (forall u, c u = true -> 0 <= frozen_balance u -> 0 <= frozen_balance u * perQuantum + y) ->
  pays (price / perQuantum) (roundings (BHold kind cmd)) c
    (fun u => mkUser (store (balance u * perQuantum + x)) (store (frozen_balance u * perQuantum + y))).
Proof.
  intros E Hd Hn u Hc Hf. cbn [frozen_balance]. split; [by apply store_nonneg, Hn|]. unfold funds. cbn [balance frozen_balance].
  apply store_pair; [lia|]. destruct (roundings_scaled kind cmd) as [[E0 H]|E1]; [left|by right]. split; [exact E0|].
  apply Forall_cons in H as [D1 H]. apply Forall_cons in H as [D2 _]. destruct (Hd D1 D2) as [Dx Dy].
  apply Forall_cons. split; [|apply Forall_singleton]; (apply Z.divide_add_r; [by apply Z.divide_factor_r|done]).
Qed.
Lemma hold_funds kind cmd d r d' fs' : holdEffects kind cmd (d, []) = (Ok r, (d', fs')) ->
  exists c f, users d' = alter f (h_UserID cmd) (users d) /\ (forall u, users d !! h_UserID cmd = Some u -> c u = true) /\
    pays (cost (BHold kind cmd)) (roundings (BHold kind cmd)) c f.
Proof.
  intros H. set (h := toDecimal (HoldAmount cmd)). set (a := toDecimal (ActualAmount cmd)).
  assert (Hnop : users d' = users d -> cost (BHold kind cmd) = 0 -> exists c f, users d' = alter f (h_UserID cmd) (users d) /\
    (forall u, users d !! h_UserID cmd = Some u -> c u = true) /\ pays (cost (BHold kind cmd)) (roundings (BHold kind cmd)) c f).
  { intros -> ->. exists (fun _ => true), id. split_and!; [by rewrite alter_id|done|]. intros u _ Hf. pose proof (roundings_nonneg (BHold kind cmd)).
    split; [done|]. unfold id. lia. }
  assert (Hmove : forall c x y price, x + y = - price -> cost (BHold kind cmd) = price / perQuantum ->
    ((perQuantum | h) -> (perQuantum | a) -> (perQuantum | x) /\ (perQuantum | y)) ->
    (forall u, c u = true -> 0 <= frozen_balance u -> 0 <= frozen_balance u * perQuantum + y) ->
    (exists u, users d !! h_UserID cmd = Some u /\ c u = true /\
       users d' = alter (fun u => mkUser (store (balance u * perQuantum + x)) (store (frozen_balance u * perQuantum + y))) (h_UserID cmd) (users d)) ->
    exists c f, users d' = alter f (h_UserID cmd) (users d) /\ (forall u, users d !! h_UserID cmd = Some u -> c u = true) /\
      pays (cost (BHold kind cmd)) (roundings (BHold kind cmd)) c f).
  { intros c x y price E -> Hd Hc (u & Eu & Ec & ->). eexists c, _. split_and!; [done|by intros v [= <-]%(eq_trans (eq_sym Eu))|by apply moved_pays]. }
  assert (Hcov : forall u, covers (frozen_balance u) (HoldAmount cmd) = true -> h <= frozen_balance u * perQuantum) by (unfold covers; intros u; lia).
  destruct kind; cbn [holdEffects] in H.
  - unfold reserveUsageBillingBatchImageBalance in H. cbv zeta in H. destruct (nonpositive _) eqn:En; [injection H as _ <- _; by apply Hnop|].
    apply moveFunds_rows in H. pose proof (not_nonpositive _ En) as Hh.
    eapply (Hmove _ (- h) h 0); [lia|done|by split; [apply Z.divide_opp_r|]|intros v _ Hv; pose proof perQuantum_pos; fold h in Hh; nia|exact H].
  - unfold captureUsageBillingBatchImageBalance in H. cbv zeta in H. cbn [cost] in Hnop, Hmove. cbn [cost].
    destruct (_ && _) eqn:En; [injection H as _ <- _; by apply Hnop|]. destruct (SFltb captureTolerance _); [done|].
    apply moveFunds_rows in H as (u & Eu & Ec & Hu). eapply (Hmove _ (h - a) (- h) a); [lia|done| | |].
    + intros. split; [by apply Z.divide_sub_r|by apply Z.divide_opp_r].
    + intros v Hv _. specialize (Hcov v Hv). lia.
    + exists u. split_and!; [done|exact Ec|]. rewrite Hu. apply alter_ext. intros v _. f_equal; f_equal; fold h a.
      destruct (Z.ltb_spec a h), (Z.ltb_spec h a); lia.
  - unfold releaseUsageBillingBatchImageBalance in H. cbv zeta in H. destruct (nonpositive _) eqn:En; [injection H as _ <- _; by apply Hnop|].
    rewrite bind_ok_eq, holdClaimExists_run in H. destruct (bool_decide _); cbn [negb] in H; [|injection H as _ <- _; by apply Hnop].
    apply moveFunds_rows in H. eapply (Hmove _ h (- h) 0); [lia|done|by split; [|apply Z.divide_opp_r]| |exact H].
    intros v Hv _. specialize (Hcov v Hv). lia.
Qed.

Lemma charge_funds b d d' : charge b d = Some d' ->
  exists c f, users d' = alter f (billUser b) (users d) /\ (forall u, users d !! billUser b = Some u -> c u = true) /\
    pays (cost b) (roundings b) c f.
Proof.
  unfold charge. destruct b as [cmd|kind cmd]; cbn [effects]; rewrite bind_ok_eq.
  - destruct (applyUsageBillingEffects _ _ _ _) as [[a|e] [d1 fs1]] eqn:E; [|done]. intros [= <-].
    apply usage_moves in E as [_ E]. injection E as E _. simpl in E. rewrite E. unfold userCharge.
    destruct (Normalize_costs cmd) as (-> & _ & -> & _). cbn [cost billUser roundings]. exists (fun _ => true). destruct (positive _) eqn:Ep.
    + eexists. split; [reflexivity|]. split; [done|]. intros u _ Hf. unfold deduct, quanta, funds. simpl.
      rewrite store_quanta_sub by (by apply quantized_mod). split; [by destruct u|]. destruct u. simpl. generalize (toDecimal (QuantizeUsageBillingAmount (BalanceCost cmd)) / perQuantum). lia.
    + exists id. split_and!; [by rewrite alter_id|done|]. intros u _ Hf. unfold id, funds. split; [done|]. lia.
  - destruct (holdEffects _ _ _) as [[a|e] [d1 fs1]] eqn:E; [|done]. intros [= <-].
    destruct (NormalizeHold_amounts cmd) as (E1 & E2 & E3). apply hold_funds in E.
    simpl in E. rewrite E3 in E. revert E. unfold roundings. rewrite E1, E2. destruct kind; simpl; rewrite ?E1, ?E2; done.
Qed.

(** Sums over a history. *)
Definition total {A} (f : A -> Z) (l : list A) : Z := foldr (fun a acc => f a + acc) 0 l.
Definition paidTo (user : Z) (ev : event) : Z :=
  match ev with EvPayment user' amount => if user =? user' then amount else 0 | _ => 0 end.
Definition costTo (user : Z) (b : billing) : Z := if user =? billUser b then cost b else 0.
Definition roundingsTo (user : Z) (b : billing) : Z := if user =? billUser b then roundings b else 0.
Lemma total_app {A} (f : A -> Z) l l' : total f (l ++ l') = total f l + total f l'.
Proof. induction l; simpl; lia. Qed.

Lemma happen_funds user d ev u : sound d -> users d !! user = Some u -> 0 <= frozen_balance u ->
  exists u', users (happen d ev) !! user = Some u' /\ 0 <= frozen_balance u' /\
    Z.abs (funds u' - (funds u + paidTo user ev - total (costTo user) (chargedBy d ev))) <= total (roundingsTo user) (chargedBy d ev).
Proof.
  intros Hs Hu Hf. destruct ev as [b fs|cutoff fs|user' amount|t].
  - destruct (happen_cases d (EvBill b fs) Hs) as [_ H]. destruct (chargedBy d (EvBill b fs)) as [|b' l].
    { destruct H as [_ ->]. exists u. simpl. split_and!; [done|done|lia]. }
    destruct H as (-> & _ & (fs' & [= <- _]) & Hc & _). apply charge_funds in Hc as (c & f & -> & Ec & Hp).
    simpl. unfold costTo, roundingsTo. destruct (Z.eqb_spec user (billUser b)) as [->|Hne].
    + rewrite lookup_alter_eq, Hu. eexists. split; [done|]. destruct (Hp u (Ec u Hu) Hf). split; [done|lia].
    + rewrite lookup_alter_ne by done. exists u. split_and!; [done|done|lia].
  - exists u. simpl. assert (Ha : archives d (happen d (EvCleanup cutoff fs))) by (by apply cleanup_archives).
    destruct Ha as (_ & _ & _ & E & _). simpl in E. rewrite E. split_and!; [done|done|lia].
  - simpl. destruct (Z.eqb_spec user user') as [->|Hne].
    + rewrite lookup_alter_eq, Hu. eexists. split; [done|]. unfold funds. simpl. split; [done|lia].
    + rewrite lookup_alter_ne by done. exists u. split_and!; [done|done|lia].
  - exists u. simpl. split_and!; [done|done|lia].
Qed.

(** C5: No money is lost or made: after any history of requests, holds, faults, clean-ups and payments
    the balance of a user and the amount held of it differ from those at the start by the payments and
    the costs of the requests that took effect, each counted once.  The difference is exact when the
    amounts of his holds are multiples of [10^-8] USD; every one that took effect and is not, can shift
    it by at most [10^-8] USD, because balance and held amount are rounded apart.  The held amount is
    never negative. *)
Theorem funds_conserved d0 evs user u : sound d0 -> users d0 !! user = Some u -> 0 <= frozen_balance u ->
  exists u', users (run d0 evs) !! user = Some u' /\ 0 <= frozen_balance u' /\
    Z.abs (funds u' - (funds u + total (paidTo user) evs - total (costTo user) (charged d0 evs))) <=
      total (roundingsTo user) (charged d0 evs).
Proof.
  intros Hs. revert d0 u Hs. induction evs as [|ev evs IH]; intros d0 u Hs Hu Hf.
  - exists u. simpl. split_and!; [done|done|lia].
  - destruct (happen_funds user d0 ev u Hs Hu Hf) as (u1 & Hu1 & Hf1 & E1).
    destruct (happen_cases d0 ev Hs) as [Hs1 _]. destruct (IH _ _ Hs1 Hu1 Hf1) as (u2 & Hu2 & Hf2 & E2).
    exists u2. split; [done|]. split; [done|]. change (charged d0 (ev :: evs)) with (chargedBy d0 ev ++ charged (happen d0 ev) evs).
    change (total (paidTo user) (ev :: evs)) with (paidTo user ev + total (paidTo user) evs). rewrite !total_app. lia.
Qed.

(** ** Keys *)

Definition billAPIKey (b : billing) : Z := (billKey b).2.
Definition quotaCost (b : billing) : Z :=
  match b with
  | BUsage cmd => let amount := QuantizeUsageBillingAmount (APIKeyQuotaCost cmd) in if positive amount then quanta amount else 0
  | BHold _ _ => 0
  end.
Definition quotaCostTo (key : Z) (b : billing) : Z := if key =? billAPIKey b then quotaCost b else 0.
(** The status once [used0] grew to [used]. *)
Definition statusAt (k0 : keyRow) (used : Z) : string :=
  if (0 <? key_quota k0) && String.eqb (key_status k0) StatusAPIKeyActive && (key_quota_used k0 <? key_quota k0) && (key_quota k0 <=? used)
  then StatusAPIKeyQuotaExhausted else key_status k0.
Definition grown (k0 k : keyRow) (x : Z) : Prop :=
  0 <= x /\ key_quota k = key_quota k0 /\ key_quota_used k = key_quota_used k0 + x /\ key_status k = statusAt k0 (key_quota_used k).

Lemma grown_refl k : grown k k 0.
Proof.
  unfold grown, statusAt. split_and!; [lia|done|lia|]. destruct (0 <? _), (String.eqb _ _); try done. simpl.
  destruct (Z.ltb_spec (key_quota_used k) (key_quota k)), (Z.leb_spec (key_quota k) (key_quota_used k)); try done. lia.
Qed.
Lemma grown_trans k0 k1 k2 x y : grown k0 k1 x -> grown k1 k2 y -> grown k0 k2 (x + y).
Proof.
  intros (Hx & Q1 & U1 & S1) (Hy & Q2 & U2 & S2). unfold grown, statusAt in *. rewrite Q2, U2, U1, Q1 in *. split_and!; [lia|done|lia|].
  rewrite S2, S1. destruct (0 <? key_quota k0); [|done]. destruct (String.eqb (key_status k0) StatusAPIKeyActive) eqn:Es; simpl; [|by rewrite Es].
  apply String.eqb_eq in Es. simpl. set (u := key_quota_used k0) in *. set (q := key_quota k0) in *.
  destruct (Z.ltb_spec u q), (Z.leb_spec q (u + x)), (Z.ltb_spec (u + x) q), (Z.leb_spec q (u + x + y)), (Z.leb_spec q (u + (x + y)));
    simpl; rewrite ?Es; simpl; try lia; done.
Qed.
Lemma chargeQuota_grown k f : 0 <= toDecimal f -> toDecimal f mod perQuantum = 0 -> grown k (chargeQuota f k) (quanta f).
Proof.
  intros Hf Hm. assert (E : toDecimal f = quanta f * perQuantum).
  { unfold quanta. pose proof perQuantum_pos. apply Z.div_exact in Hm; lia. }
  assert (Ec : (key_quota k * perQuantum <=? key_quota_used k * perQuantum + toDecimal f) = (key_quota k <=? key_quota_used k + quanta f)).
  { rewrite E, <- Z.mul_add_distr_r. pose proof perQuantum_pos. generalize (key_quota_used k + quanta f). intros z.
    apply eq_true_iff_eq. rewrite !Z.leb_le. nia. }
  assert (Eu : key_quota_used (chargeQuota f k) = key_quota_used k + quanta f) by (unfold chargeQuota; simpl; by rewrite store_quanta).
  unfold grown, statusAt. split_and!; [by apply quanta_nonneg|done|done|]. rewrite Eu. unfold chargeQuota. simpl. by rewrite Ec.
Qed.

Lemma chargeRateLimit_grown k f now : grown k (chargeRateLimit f now k) 0.
Proof. pose proof (grown_refl k) as H. destruct k. exact H. Qed.
Lemma grown_alter (keys : gmap Z keyRow) key key' f x : (forall k, grown k (f k) x) -> forall k, keys !! key = Some k ->
  exists k', alter f key' keys !! key = Some k' /\ grown k k' (if key =? key' then x else 0).
Proof.
  intros Hf k Hk. destruct (Z.eqb_spec key key') as [->|]; [rewrite lookup_alter_eq, Hk|rewrite lookup_alter_ne by done]; eauto using grown_refl.
Qed.
Lemma within_ok {A} R (m : method A) d fs a d' fs' : within R m -> m (d, fs) = (Ok a, (d', fs')) -> R d d'.
Proof. intros H E. specialize (H d fs). by rewrite E in H. Qed.
Definition sameKeys (d d' : db) : Prop := api_keys d' = api_keys d.
#[local] Instance sameKeys_preorder : PreOrder sameKeys.
Proof. split; [by intros d|]. intros a b c. unfold sameKeys. congruence. Qed.
Lemma holdEffects_keys kind cmd : within sameKeys (holdEffects kind cmd).
Proof.
  destruct kind; simpl; unfold reserveUsageBillingBatchImageBalance, captureUsageBillingBatchImageBalance,
    releaseUsageBillingBatchImageBalance, batchImageHoldClaimExists, moveFunds; within_steps;
    intros d; try done; unfold stmt_updateUser; by repeat case_match.
Qed.
Lemma charge_key b d d' key k : charge b d = Some d' -> api_keys d !! key = Some k ->
  exists k', api_keys d' !! key = Some k' /\ grown k k' (quotaCostTo key b).
Proof.
  unfold charge. destruct b as [cmd|kind cmd]; cbn [effects]; rewrite bind_ok_eq.
  - destruct (applyUsageBillingEffects _ _ _ _) as [[a|e] [d1 fs1]] eqn:E; [|done]. intros [= <-] Hk.
    apply usage_moves in E as [_ E]. apply (f_equal snd) in E. cbn [snd] in E. unfold rows in E. cbn [snd] in E. change (api_keys (addClaim _ _ d)) with (api_keys d) in E.
    change (now_ (addClaim _ _ d)) with (now_ d) in E. rewrite E. unfold keyCharge.
    destruct (Normalize_costs cmd) as (_ & -> & _ & ->). unfold quotaCostTo, billAPIKey, quotaCost. cbn [billKey snd].
    set (amount := QuantizeUsageBillingAmount (APIKeyQuotaCost cmd)). set (id := cmd_APIKeyID cmd).
    assert (H : exists k', (if positive amount then alter (chargeQuota amount) id (api_keys d) else api_keys d) !! key = Some k' /\
                       grown k k' (if key =? id then if positive amount then quanta amount else 0 else 0)).
    { destruct (positive amount) eqn:Ep.
      - apply grown_alter; [|done]. intros k0. apply chargeQuota_grown; [by apply toDecimal_nonneg|by apply quantized_mod].
      - exists k. split; [done|]. case_match; apply grown_refl. }
    destruct H as (k1 & Hk1 & G1). destruct (positive (APIKeyRateLimitCost _)); [|by exists k1].
    edestruct (grown_alter _ key id (chargeRateLimit (APIKeyRateLimitCost (Normalize cmd)) (now_ d)) 0 (fun k0 => chargeRateLimit_grown k0 _ _) _ Hk1) as (k2 & Hk2 & G2).
    exists k2. split; [done|]. replace (if key =? id then 0 else 0) with 0 in G2 by (by case_match).
    pose proof (grown_trans _ _ _ _ _ G1 G2) as G. by rewrite Z.add_0_r in G.
  - destruct (holdEffects _ _ _) as [[a|e] [d1 fs1]] eqn:E; [|done]. intros [= <-] Hk.
    pose proof (within_ok _ _ _ _ _ _ _ (holdEffects_keys kind _) E) as W. unfold sameKeys in W. change (api_keys (addClaim _ _ d)) with (api_keys d) in W. rewrite W.
    exists k. split; [done|]. unfold quotaCostTo, quotaCost. case_match; apply grown_refl.
Qed.

(** After any history of requests, retries, faults, clean-ups and payments the amount used of an
    API key is that at the start plus the quota costs of the requests that took effect, and its status
    is "quota_exhausted" exactly from the request on that reached the quota of an active key. *)
Theorem key_quota_counts d0 evs key k : sound d0 -> api_keys d0 !! key = Some k ->
  exists k', api_keys (run d0 evs) !! key = Some k' /\ grown k k' (total (quotaCostTo key) (charged d0 evs)).
Proof.
  revert d0 k. induction evs as [|ev evs IH]; intros d0 k Hs Hk; [exists k; by auto using grown_refl|].
  assert (H : exists k1, api_keys (happen d0 ev) !! key = Some k1 /\ grown k k1 (total (quotaCostTo key) (chargedBy d0 ev))).
  { destruct (happen_cases d0 ev Hs) as [_ H]. destruct ev as [b fs|cutoff fs|user amount|t].
    - destruct (chargedBy d0 (EvBill b fs)) as [|b' l]; [destruct H as [_ ->]; exists k; by auto using grown_refl|].
      destruct H as (-> & _ & (fs' & [= <- _]) & Hc & _). destruct (charge_key _ _ _ _ _ Hc Hk) as (k1 & ? & ?).
      exists k1. simpl. by rewrite Z.add_0_r.
    - exists k. assert (Ha : archives d0 (happen d0 (EvCleanup cutoff fs))) by (by apply cleanup_archives).
      destruct Ha as (_ & _ & _ & _ & E & _). rewrite E. by auto using grown_refl.
    - exists k. by auto using grown_refl.
    - exists k. by auto using grown_refl. }
  destruct H as (k1 & Hk1 & G1). destruct (IH (happen d0 ev) k1) as (k2 & Hk2 & G2); [by apply happen_cases|done|].
  exists k2. split; [done|]. change (charged d0 (ev :: evs)) with (chargedBy d0 ev ++ charged (happen d0 ev) evs).
  rewrite total_app. by eapply grown_trans.
Qed.

(** ** Rate windows *)

(** What Go reads of a window, in [10^-8] USD. *)
Definition counted (now : time) (dur : duration) (w : rateWindow) : Z := if IsWindowExpired now (w_start w) dur then 0 else w_usage w.
Lemma effectiveUsage_counted now dur w : effectiveUsage now dur w = fromDecimal (counted now dur w).
Proof. unfold effectiveUsage, counted. destruct (IsWindowExpired _ _ _); [|done]. by rewrite fromDecimal_zero. Qed.
(** A window that was never opened counts nothing. *)
Definition windowOk (w : rateWindow) : Prop := w_start w = None -> w_usage w = 0.
Definition windowsOk (k : keyRow) : Prop := windowOk (window_5h k) /\ windowOk (window_1d k) /\ windowOk (window_7d k).
Lemma chargeWindow_counted dur cost fresh now w : windowOk w -> toDecimal cost mod perQuantum = 0 ->
  counted now dur (chargeWindow dur cost fresh now w) =
  if IsWindowExpired now (w_start w) dur && (fresh + dur <=? now) then 0 else counted now dur w + quanta cost.
Proof.
  intros Hw Hm. unfold counted, chargeWindow, windowOver. destruct w as [usage [start|]]; cbn [w_start w_usage IsWindowExpired].
  - destruct (Z.leb_spec (start + dur) now), (Z.leb_spec dur (now - start)); cbn [IsWindowExpired andb]; try lia.
    + replace (dur <=? now - fresh) with (fresh + dur <=? now) by (apply eq_true_iff_eq; rewrite !Z.leb_le; lia).
      destruct (fresh + dur <=? now); [done|]. apply (store_quanta 0) in Hm. rewrite Z.mul_0_l in Hm. done.
    + rewrite (proj2 (Z.leb_gt dur (now - start))) by lia. by rewrite store_quanta.
  - cbn [andb]. replace (dur <=? now - fresh) with (fresh + dur <=? now) by (apply eq_true_iff_eq; rewrite !Z.leb_le; lia).
    destruct (fresh + dur <=? now); [done|]. rewrite store_quanta by done. specialize (Hw eq_refl). simpl in Hw. by subst usage.
Qed.
Lemma chargeWindow_ok dur cost fresh now w : windowOk (chargeWindow dur cost fresh now w).
Proof. unfold windowOk, chargeWindow. simpl. destruct (w_start w); [by case_match|done]. Qed.

Lemma chargeRateLimit_windows cost now k :
  window_5h (chargeRateLimit cost now k) = chargeWindow RateLimitWindow5h cost now now (window_5h k) /\
  window_1d (chargeRateLimit cost now k) = chargeWindow RateLimitWindow1d cost (date_trunc_day now) now (window_1d k) /\
  window_7d (chargeRateLimit cost now k) = chargeWindow RateLimitWindow7d cost (date_trunc_day now) now (window_7d k).
Proof. by destruct k. Qed.

(** A request charged to the rate windows of an API key adds its cost to what the limiter then
    reads of each window, expired windows counting as empty before and starting anew, with one
    exception: a daily window that starts in the 25th hour of a local day is over when it starts and
    counts nothing, as long as that hour lasts. *)
Theorem rate_usage_charged cmd d d' k :
  let cost := QuantizeUsageBillingAmount (APIKeyRateLimitCost cmd) in
  let now := now_ d in
  charge (BUsage cmd) d = Some d' -> positive cost = true -> api_keys d !! cmd_APIKeyID cmd = Some k -> windowsOk k ->
  exists k', api_keys d' !! cmd_APIKeyID cmd = Some k' /\ windowsOk k' /\
    EffectiveUsage5h now k' = fromDecimal (counted now RateLimitWindow5h (window_5h k) + quanta cost) /\
    EffectiveUsage1d now k' = fromDecimal
      (if IsWindowExpired now (w_start (window_1d k)) RateLimitWindow1d && (date_trunc_day now + 24 * Hour <=? now)
       then 0 else counted now RateLimitWindow1d (window_1d k) + quanta cost) /\
    EffectiveUsage7d now k' = fromDecimal (counted now RateLimitWindow7d (window_7d k) + quanta cost).
Proof.
  intros cost now Hc Hp Hk (H5 & H1 & H7). unfold charge in Hc. cbn [effects] in Hc. rewrite bind_ok_eq in Hc.
  destruct (applyUsageBillingEffects _ _ _ _) as [[a|e] [d1 fs1]] eqn:E; [|done]. injection Hc as <-.
  apply usage_moves in E as [_ E]. apply (f_equal snd) in E. unfold rows in E. cbn [snd] in E.
  change (api_keys (addClaim _ _ d)) with (api_keys d) in E. change (now_ (addClaim _ _ d)) with now in E. rewrite E. clear E.
  assert (En : APIKeyRateLimitCost (Normalize cmd) = cost) by (unfold Normalize; by case_match).
  unfold keyCharge. rewrite En, Hp. destruct (Normalize_costs cmd) as (_ & _ & _ & ->).
  assert (Hm : toDecimal cost mod perQuantum = 0) by (by apply quantized_mod).
  set (k1 := if positive (APIKeyQuotaCost (Normalize cmd)) then chargeQuota (APIKeyQuotaCost (Normalize cmd)) k else k).
  exists (chargeRateLimit cost now k1). split.
  { rewrite lookup_alter_eq. subst k1. destruct (positive (APIKeyQuotaCost _)); [by rewrite lookup_alter_eq, Hk|by rewrite Hk]. }
  assert (Ew : window_5h k1 = window_5h k /\ window_1d k1 = window_1d k /\ window_7d k1 = window_7d k) by (subst k1; by case_match).
  destruct Ew as (E5 & E1 & E7). clearbody k1. pose proof (date_trunc_day_near now) as Hnear.
  unfold EffectiveUsage5h, EffectiveUsage1d, EffectiveUsage7d. rewrite !effectiveUsage_counted. 
  destruct (chargeRateLimit_windows cost now k1) as (W5 & W1 & W7). unfold windowsOk. rewrite W5, W1, W7.
  split; [split_and!; apply chargeWindow_ok|]. rewrite E5, E1, E7.
  split_and!; apply f_equal; rewrite chargeWindow_counted by done.
  - rewrite (proj2 (Z.leb_gt (now + RateLimitWindow5h) now)), andb_false_r; [done|]. unfold RateLimitWindow5h, Hour, Minute, Second. lia.
  - done.
  - rewrite (proj2 (Z.leb_gt (date_trunc_day now + RateLimitWindow7d) now)), andb_false_r; [done|]. unfold RateLimitWindow7d, Hour, Minute, Second in *. lia.
Qed.
End Ledger.

(** ** A scenario *)

(** Decimals in units of [10^-9] USD, exact for multiples of [2^-9]; amounts are
    rounded down to multiples of [2^-8]. *)
Definition dyadicUnits (f : float64) : Z :=
  match f with
  | S754_zero _ => 0
  | S754_infinity false | S754_nan => 10 ^ 23
  | S754_infinity true => - 10 ^ 23
  | S754_finite s m e => Z.shiftl ((if s then Zneg m else Zpos m) * 5 ^ 9) (e + 9)
  end.
Definition dyadicRound (f : float64) : float64 :=
  match f with
  | S754_finite s m e => match Z.shiftl (Zpos m) (e + 8) with Zpos q => S754_finite s q (-8) | _ => S754_zero s end
  | _ => f
  end.
Definition dyadicMoney : Money.
Proof.
  refine {| toDecimal := dyadicUnits; perQuantum := 10; fromDecimal := fun z => fdiv (float_of_Z z) (float_of_Z (10 ^ 8)); decimalRound8 := dyadicRound |}.
  - done.
  - by vm_compute.
  - done.
  - by vm_compute.
  - by vm_compute.
  - intros [[]|[]| |[] m e]; simpl; try done. intros _. by apply Z.shiftl_nonneg.
  - intros [| | |s m e]; try done. intros _ _ _. simpl. destruct (Z.shiftl (Zpos m) (e + 8)) as [|q|q]; try done.
    unfold dyadicUnits. change (-8 + 9) with 1. rewrite Z.shiftl_mul_pow2 by lia. change (2 ^ 1) with 2.
    destruct s; apply Z.mod_divide; try done; [exists (Zneg q * 390625)|exists (Zpos q * 390625)]; lia.
Defined.
Definition utcSession : SessionZone.
Proof.
  refine {| date_trunc_day := fun t => t - t mod (24 * Hour) |}; intros t; pose proof (Z.mod_pos_bound t (24 * Hour) eq_refl);
    unfold Hour, Minute, Second in *; lia.
Defined.

Definition demoUsage : UsageBillingCommand :=
  mkCommand "req-1" 7 "" "" 1 3 None "oauth" "m" "" "" 0 10 20 0 0 0 "" fhalf fzero fone fhalf fzero.
Definition demoHold : BatchImageBalanceHoldCommand :=
  mkHold (BatchImageHoldRequestID "b1") 7 "" "" 1 "b1" (float_of_Z 2) fzero.
Definition demoCapture : BatchImageBalanceHoldCommand :=
  mkHold (BatchImageCaptureRequestID "b1") 7 "" "" 1 "b1" (float_of_Z 2) fone.
Definition demoDB : db :=
  mkDB {[1 := mkUser (5 * 10 ^ 8) 0]} {[7 := mkKey (10 ^ 8) 0 StatusAPIKeyActive (mkWindow 0 None) (mkWindow 0 None) (mkWindow 0 None)]}
    ∅ (SubscriptionRepo.mkTable ∅ 1 ∅ 0) ∅ ∅ ∅ (1000 * Hour).
(** A charge whose COMMIT fails after it took effect, its retry, a hold and its
    capture, and a clean-up of all claims. *)
Definition demoHistory : list event :=
  [EvBill (BUsage demoUsage) [NoFault; NoFault; NoFault; NoFault; NoFault; NoFault; FailAfter (PlainErr 1 "connection reset")];
   EvPayment 1 (10 ^ 8); EvBill (BUsage demoUsage) []; EvBill (BHold Reserve demoHold) [];
   EvClock (2000 * Hour); EvCleanup (2000 * Hour) []; EvBill (BUsage demoUsage) []; EvBill (BHold Capture demoCapture) []].

#[local] Existing Instances dyadicMoney utcSession SubscriptionRepo.decimalDriver exactNumbers.
Definition noZone (zone : string) : option (time -> duration) := None.
Definition noInstant (offset : time -> duration) (local : Z) : time := local.
Definition demoRun (evs : list event) : db := run noZone noInstant map_to_list demoDB evs.
Definition demoCharged : list billing := charged noZone noInstant map_to_list demoDB demoHistory.

Lemma demo_sound : sound demoDB.
Proof. apply map_disjoint_empty_l. Qed.
Lemma demo_scan : forall m : gmap claimKey claimRow, map_to_list m ≡ₚ map_to_list m.
Proof. done. Qed.
Lemma billed_exactly_once_witness :
  let evs1 := take 2 demoHistory in
  (perform noZone noInstant (BUsage demoUsage) (demoRun evs1, [])).1 = Ok false /\ NoDup (billKey <$> demoCharged).
Proof.
  assert (Eh : demoHistory = take 2 demoHistory ++ EvBill (BUsage demoUsage) [] :: drop 3 demoHistory) by reflexivity.
  intros evs1. split; [vm_compute; reflexivity|]. unfold demoCharged. rewrite Eh.
  destruct (perform noZone noInstant (BUsage demoUsage) (run noZone noInstant map_to_list demoDB evs1, [])) as [r [d' fs']] eqn:E.
  exact (proj1 (billed_exactly_once noZone noInstant map_to_list demo_scan demoDB evs1 (BUsage demoUsage) [] (drop 3 demoHistory) r d' fs'
    demo_sound E)).
Defined.
Lemma funds_conserved_witness :
  exists u, users (demoRun demoHistory) !! 1 = Some u /\ 0 <= frozen_balance u /\
    funds u = 5 * 10 ^ 8 + 10 ^ 8 - total (costTo 1) demoCharged.
Proof.
  destruct (funds_conserved noZone noInstant map_to_list demo_scan demoDB demoHistory 1 (mkUser (5 * 10 ^ 8) 0) demo_sound) as (u & Hu & Hf & E);
    [reflexivity|simpl; lia|]. exists u. split; [exact Hu|]. split; [exact Hf|].
  assert (E0 : total (roundingsTo 1) demoCharged = 0) by (vm_compute; reflexivity).
  change (charged noZone noInstant map_to_list demoDB demoHistory) with demoCharged in E. rewrite E0 in E.
  change (total (paidTo 1) demoHistory) with (10 ^ 8) in E. change (funds (mkUser (5 * 10 ^ 8) 0)) with (5 * 10 ^ 8) in E. lia.
Defined.
Lemma key_quota_counts_witness :
  exists k, api_keys (demoRun demoHistory) !! 7 = Some k /\ key_status k = StatusAPIKeyQuotaExhausted /\
    key_quota_used k = total (quotaCostTo 7) demoCharged.
Proof.
  destruct (key_quota_counts noZone noInstant map_to_list demo_scan demoDB demoHistory 7 _ demo_sound eq_refl) as (k & Hk & _ & _ & Hu & Hst).
  exists k. split; [exact Hk|]. split; [|exact Hu]. revert Hst. rewrite Hu. clear. intros ->. vm_compute. reflexivity.
Defined.
Definition demoCharge : option db := charge noZone noInstant (BUsage demoUsage) demoDB.
Lemma rate_usage_charged_witness :
  exists d' k', demoCharge = Some d' /\ api_keys d' !! 7 = Some k' /\ EffectiveUsage1d (1000 * Hour) k' = fhalf.
Proof.
  destruct demoCharge as [d'|] eqn:E; [|exfalso; vm_compute in E; discriminate].
  destruct (rate_usage_charged noZone noInstant demoUsage demoDB d' (mkKey (10 ^ 8) 0 StatusAPIKeyActive (mkWindow 0 None) (mkWindow 0 None) (mkWindow 0 None))
    E eq_refl eq_refl) as (k' & Hk & _ & _ & H1 & _).
  - split_and!; intros _; reflexivity.
  - exists d', k'. split; [reflexivity|]. split; [exact Hk|]. change (now_ demoDB) with (1000 * Hour) in H1. rewrite H1. clear. vm_compute. reflexivity.
Defined.
Lemma cleanup_ends_witness :
  exists d', CleanupUsageBillingDedup map_to_list (2000 * Hour) (demoRun (take 5 demoHistory), []) = (Ok tt, (d', [])) /\
    usage_billing_dedup (demoRun (take 5 demoHistory)) <> ∅ /\ usage_billing_dedup d' = ∅.
Proof.
  destruct (cleanup_ends map_to_list demo_scan (2000 * Hour) (demoRun (take 5 demoHistory))) as (d' & E & _ & Hd).
  - apply (run_sound noZone noInstant map_to_list demo_scan), demo_sound.
  - exists d'. split; [exact E|]. split.
    + clear. intros H. apply (f_equal size) in H. vm_compute in H. discriminate.
    + rewrite Hd. clear. vm_compute. reflexivity.
Defined.
