(* ===== verification/JsonText.v ===== *)
(** * The grammar of JSON texts, and printing

    [val d s c r]: at nesting depth [d], a value is scanned from the text [s] with
    the rest [r]; [c] is its compact form ([json.Compact] with HTML characters
    escaped).  The scanner of [Json] decides this grammar, [compact] computes the
    compact form, and a compact form is a text with the same rest.  Trees of
    values print as [json.Marshal] prints them. *)

From S2P Require Import Prelude Json.

(** ** Texts *)

Lemma app_cons a s t : String a s +:+ t = String a (s +:+ t).
Proof. done. Qed.
Lemma app_empty s : "" +:+ s = s.
Proof. done. Qed.
Create Rewrite HintDb text.
#[export] Hint Rewrite app_cons app_empty str_app_assoc str_app_nil : text.
Ltac norm := autorewrite with text in *.

Lemma app_eq_r s t r : s +:+ r = t +:+ r -> s = t.
Proof.
  intros H. assert (Hl : String.length s = String.length t).
  { apply (f_equal String.length) in H. rewrite !str_length_app in H. lia. }
  rewrite <- (str_take_app s r), H, Hl. apply str_take_app.
Qed.

Definition simple_escape (e : ascii) : bool :=
  existsb (Ascii.eqb e) [dq; backslash; "/"%char; "b"%char; "f"%char; "n"%char; "r"%char; "t"%char].

(** What may follow a number: the end of the text, white space or a separator. *)
Definition sepc (c : ascii) : bool := is_ws c || existsb (Ascii.eqb c) [","%char; "}"%char; "]"%char].
Definition sep (r : string) : Prop := match r with String c _ => sepc c = true | EmptyString => True end.

(** A string after its opening quote. *)
Inductive strc : string -> string -> string -> Prop :=
| strc_end r : strc (String dq r) (String dq "") r
| strc_u h1 h2 h3 h4 s c r :
    is_hex h1 && is_hex h2 && is_hex h3 && is_hex h4 = true -> strc s c r ->
    strc (String backslash (String "u" (String h1 (String h2 (String h3 (String h4 s))))))
         (String backslash (String "u" (String h1 (String h2 (String h3 (String h4 c)))))) r
| strc_esc e s c r :
    simple_escape e = true -> strc s c r -> strc (String backslash (String e s)) (String backslash (String e c)) r
| strc_html x s c r : html_special x = true -> strc s c r -> strc (String x s) (u_escape x +:+ c) r
| strc_2028 x y z h s c r : u2028 (String x (String y (String z s))) = Some (h, s) -> strc s c r ->
    strc (String x (String y (String z s))) (String backslash ("u202" +:+ String h c)) r
| strc_char x s c r :
    x <> dq -> x <> backslash -> (byte_of x <? 32) = false -> html_special x = false ->
    u2028 (String x s) = None -> strc s c r -> strc (String x s) (String x c) r.

Inductive val : Z -> string -> string -> string -> Prop :=
| val_ws d x s c r : is_ws x = true -> val d s c r -> val d (String x s) c r
| val_lit d l r : l = "true" \/ l = "false" \/ l = "null" -> val d (l +:+ r) l r
| val_num d n r : (forall r', sep r' -> scan_number (n +:+ r') = Some r') ->
    scan_number (n +:+ r) = Some r -> val d (n +:+ r) n r
| val_str d s c r : strc s c r -> val d (String dq s) (String dq c) r
| val_obj0 d s r : (maxNestingDepth <=? d) = false -> skip_ws s = String "}" r -> val d (String "{" s) "{}" r
| val_obj d s c r : (maxNestingDepth <=? d) = false -> mems (d + 1) s c r -> val d (String "{" s) (String "{" c) r
| val_arr0 d s r : (maxNestingDepth <=? d) = false -> skip_ws s = String "]" r -> val d (String "[" s) "[]" r
| val_arr d s c r : (maxNestingDepth <=? d) = false -> elems (d + 1) s c r -> val d (String "[" s) (String "[" c) r
with mems : Z -> string -> string -> string -> Prop :=
| mems_last d s s1 ck s2 s3 cv s4 r :
    skip_ws s = String dq s1 -> strc s1 ck s2 -> skip_ws s2 = String ":" s3 -> val d s3 cv s4 ->
    skip_ws s4 = String "}" r -> mems d s (String dq (ck +:+ String ":" (cv +:+ "}"))) r
| mems_more d s s1 ck s2 s3 cv s4 s5 c r :
    skip_ws s = String dq s1 -> strc s1 ck s2 -> skip_ws s2 = String ":" s3 -> val d s3 cv s4 ->
    skip_ws s4 = String "," s5 -> mems d s5 c r ->
    mems d s (String dq (ck +:+ String ":" (cv +:+ String "," c))) r
with elems : Z -> string -> string -> string -> Prop :=
| elems_last d s cv s1 r : val d s cv s1 -> skip_ws s1 = String "]" r -> elems d s (cv +:+ "]") r
| elems_more d s cv s1 s2 c r :
    val d s cv s1 -> skip_ws s1 = String "," s2 -> elems d s2 c r -> elems d s (cv +:+ String "," c) r.

Scheme val_mind := Induction for val Sort Prop
  with mems_mind := Induction for mems Sort Prop
  with elems_mind := Induction for elems Sort Prop.
Combined Scheme text_ind from val_mind, mems_mind, elems_mind.

(** ** The scanner decides the grammar *)

Lemma skip_ws_length s : (String.length (skip_ws s) <= String.length s)%nat.
Proof. induction s as [|a s IH]; simpl; [done|]. destruct (is_ws a); simpl; lia. Qed.

Lemma scan_string_sound n s r : (String.length s <= n)%nat -> scan_string s = Some r -> exists c, strc s c r.
Proof.
  revert s r. induction n as [|n IH]; intros s r Hn H; [by destruct s; simpl in *; [|lia]|].
  destruct s as [|x s]; [done|]. simpl in Hn. cbn [scan_string] in H.
  destruct (Ascii.eqb_spec x dq) as [->|Hq]; [simplify_eq; eauto using strc|].
  destruct (Ascii.eqb_spec x backslash) as [->|Hb].
  - destruct s as [|e s]; [done|]. destruct (Ascii.eqb_spec e "u") as [->|He].
    + destruct s as [|h1 [|h2 [|h3 [|h4 s]]]]; try done. simpl in Hn.
      destruct (is_hex h1 && is_hex h2 && is_hex h3 && is_hex h4) eqn:Eh; [|done].
      destruct (IH s r) as [c Hc]; [lia|done|]. eauto using strc.
    + destruct (existsb _ _) eqn:Ee; [|done]. simpl in Hn. destruct (IH s r) as [c Hc]; [lia|done|].
      exists (String backslash (String e c)). by apply strc_esc.
  - destruct (byte_of x <? 32) eqn:E32; [done|]. destruct (html_special x) eqn:Eh.
    { destruct (IH s r) as [c Hc]; [lia|done|]. eauto using strc. }
    destruct (u2028 (String x s)) as [[h t]|] eqn:Eu.
    + destruct s as [|y [|z s]]; try done. pose proof Eu as Eu2. cbn [u2028] in Eu2.
      destruct ((byte_of x =? 226) && (byte_of y =? 128) && ((byte_of z =? 168) || (byte_of z =? 169))) eqn:Eb; [|done].
      injection Eu2 as <- <-.
      assert (Hplain : scan_string (String y (String z s)) = scan_string s).
      { assert (Hy : byte_of y = 128) by lia. assert (Hz : byte_of z = 168 \/ byte_of z = 169) by lia.
        clear -Hy Hz. unfold byte_of in *.
        destruct y as [[] [] [] [] [] [] [] []]; vm_compute in Hy; try discriminate Hy.
        destruct Hz as [Hz|Hz]; destruct z as [[] [] [] [] [] [] [] []]; vm_compute in Hz; try discriminate Hz; reflexivity. }
      destruct (IH s r) as [c Hc]; [simpl in Hn; lia|by rewrite <- Hplain|]. eauto using strc.
    + destruct (IH s r) as [c Hc]; [lia|done|]. eauto using strc.
Qed.

Lemma strc_scan s c r : strc s c r -> scan_string s = Some r.
Proof.
  induction 1; cbn [scan_string].
  - done.
  - by rewrite H.
  - unfold simple_escape in H. change (Ascii.eqb backslash dq) with false. change (Ascii.eqb backslash backslash) with true.
    cbv iota. rewrite H. by destruct (Ascii.eqb_spec e "u") as [->|].
  - destruct (Ascii.eqb_spec x dq) as [->|]; [done|]. destruct (Ascii.eqb_spec x backslash) as [->|]; [done|].
    destruct (byte_of x <? 32) eqn:E; [|done]. exfalso.
    destruct x as [[] [] [] [] [] [] [] []]; vm_compute in H, E; congruence.
  - cbn [u2028] in H. destruct (_ && _ && _) eqn:Eb in H; [|done].
    assert (Hx : forall a, (128 <= byte_of a) -> Ascii.eqb a dq = false /\ Ascii.eqb a backslash = false /\ (byte_of a <? 32) = false).
    { intros a Ha. split_and!; [| |lia]; apply Ascii.eqb_neq; intros ->; vm_compute in Ha; by apply Ha. }
    destruct (Hx x) as (-> & -> & ->); [lia|]. destruct (Hx y) as (-> & -> & ->); [lia|].
    by destruct (Hx z) as (-> & -> & ->); [lia|].
  - rewrite (proj2 (Ascii.eqb_neq _ _)) by done. rewrite (proj2 (Ascii.eqb_neq x backslash)) by done. by rewrite H1.
Qed.

Definition numchar (c : ascii) : bool :=
  is_digit c || Ascii.eqb c "-" || Ascii.eqb c "+" || Ascii.eqb c "." || Ascii.eqb c "e" || Ascii.eqb c "E".
Definition nodigit (s : string) : Prop := match s with String c _ => is_digit c = false | EmptyString => True end.
(** The part of [s] that the parser [p] takes is made of [numchar]s, and is taken
    before any other rest that satisfies [F] as well. *)
Definition takes (F : string -> Prop) (p : string -> option string) (s : string) : Prop :=
  forall r, p s = Some r ->
  exists n, s = n +:+ r /\ str_forallb numchar n = true /\ forall r', F r' -> p (n +:+ r') = Some r'.

(** A fact about every separator, by cases. *)
Ltac each_sep H := match type of H with sepc ?c = true => destruct c as [[] [] [] [] [] [] [] []]; try discriminate H end.
Lemma sep_nodigit r : sep r -> nodigit r.
Proof. destruct r as [|c r]; simpl; [done|]. intros H. by each_sep H. Qed.
Lemma nodigit_app n r r' : nodigit (n +:+ r) -> nodigit r' -> nodigit (n +:+ r').
Proof. by destruct n. Qed.
Lemma numchar_app n m : str_forallb numchar (n +:+ m) = str_forallb numchar n && str_forallb numchar m.
Proof. induction n as [|c n IH]; [done|]. norm. simpl. rewrite IH. by rewrite andb_assoc. Qed.
Lemma numchar_digit c : is_digit c = true -> numchar c = true.
Proof. unfold numchar. by intros ->. Qed.

Lemma skip_digits_takes s : exists n, s = n +:+ skip_digits s /\ str_forallb numchar n = true /\
  nodigit (skip_digits s) /\ forall t, nodigit t -> skip_digits (n +:+ t) = t.
Proof.
  assert (Hn : forall t, nodigit t -> skip_digits t = t) by (intros [|c t] H; simpl in *; [done|by rewrite H]).
  induction s as [|c s (n & E & Hc & Hd & Ht)]; [by exists ""|].
  simpl. destruct (is_digit c) eqn:Ec; [|by exists ""].
  exists (String c n). norm. split_and!; [by rewrite <- E|simpl; by rewrite numchar_digit|done|].
  intros t Hd'. norm. simpl. rewrite Ec. by apply Ht.
Qed.
Lemma digits1_takes s r : digits1 s = Some r -> exists n, s = n +:+ r /\ str_forallb numchar n = true /\
  nodigit r /\ (forall r', nodigit r' -> digits1 (n +:+ r') = Some r') /\ exists c n', n = String c n' /\ is_digit c = true.
Proof.
  destruct s as [|c s]; [done|]. simpl. destruct (is_digit c) eqn:Ec; [|done]. intros [= <-].
  destruct (skip_digits_takes s) as (n & E & Hn & Hd & Ht). exists (String c n). norm. split_and!; try done; eauto.
  - by rewrite <- E.
  - simpl. by rewrite numchar_digit.
  - intros r' Hr. norm. simpl. by rewrite Ec, Ht.
Qed.
Lemma scan_exp_takes s : takes sep scan_exp s.
Proof.
  assert (Hstop : forall r', sep r' -> scan_exp r' = Some r').
  { intros [|c r'] H; [done|]. simpl in H. by each_sep H. }
  intros r H. destruct s as [|c s]; [simpl in H; simplify_eq; by exists ""|]. simpl in H.
  destruct (Ascii.eqb c "e" || Ascii.eqb c "E") eqn:Ec; [|simplify_eq; by exists ""].
  assert (Hc : numchar c = true) by (unfold numchar; by rewrite <- orb_assoc, Ec, orb_true_r).
  destruct s as [|d s]; [done|]. destruct (Ascii.eqb d "+" || Ascii.eqb d "-") eqn:Ed.
  - destruct (digits1_takes _ _ H) as (n & -> & Hn & _ & Ht & _). exists (String c (String d n)). norm. split_and!; [done| |].
    + simpl. rewrite Hc, Hn. unfold numchar. destruct (Ascii.eqb d "+"), (Ascii.eqb d "-"); by rewrite ?orb_true_r.
    + intros r' Hr. norm. simpl. rewrite Ec, Ed. by apply Ht, sep_nodigit.
  - destruct (digits1_takes _ _ H) as (n & E & Hn & _ & Ht & d' & n' & -> & _). norm. injection E as <- ->.
    exists (String c (String d n')). norm. split_and!; [done|simpl in *; by rewrite Hc, Hn|].
    intros r' Hr. norm. simpl. rewrite Ec, Ed. by apply Ht, sep_nodigit.
Qed.
Lemma scan_frac_takes s : takes sep scan_frac s.
Proof.
  intros r H. assert (Hdot : (exists s', s = String "." s') \/ (forall t, scan_exp s = Some r -> s = "" \/ exists c s', s = String c s' /\ scan_frac (String c t) = scan_exp (String c t)) /\ scan_frac s = scan_exp s).
  { destruct s as [|[[] [] [] [] [] [] [] []] s]; eauto 9. }
  destruct Hdot as [[s' ->]|[Hs E]].
  - simpl in H. destruct (digits1 s') as [r1|] eqn:E1; [|done].
    destruct (digits1_takes _ _ E1) as (n & -> & Hn & Hd & Ht & _), (scan_exp_takes _ _ H) as (n2 & -> & Hn2 & Ht2).
    exists (String "." (n +:+ n2)). norm. split_and!; [done|simpl; by rewrite numchar_app, Hn, Hn2|].
    intros r' Hr. norm. simpl. rewrite Ht; [by apply Ht2|]. by eapply nodigit_app, sep_nodigit.
  - rewrite E in H. destruct (scan_exp_takes _ _ H) as (n & -> & Hn & Ht). exists n. split_and!; try done.
    intros r' Hr. destruct n as [|c n].
    + norm. destruct r' as [|c r']; [done|]. simpl in Hr. by each_sep Hr.
    + norm. destruct (Hs (n +:+ r') H) as [|(c' & s' & Heq & Hf)]; [done|]. injection Heq as <- <-.
      rewrite Hf. by apply (Ht r').
Qed.
Lemma scan_number_takes s r : scan_number s = Some r -> exists n, s = n +:+ r /\ str_forallb numchar n = true /\
  (forall r', sep r' -> scan_number (n +:+ r') = Some r') /\ exists c n', n = String c n' /\ (is_digit c || Ascii.eqb c "-") = true.
Proof.
  set (body := fun s1 : string => match s1 with
    | String c s' => if Ascii.eqb c "0" then scan_frac s' else if in_range 49 57 c then scan_frac (skip_digits s') else None
    | EmptyString => None end).
  assert (Hbody : forall s r, body s = Some r -> exists n, s = n +:+ r /\ str_forallb numchar n = true /\
    (forall r', sep r' -> body (n +:+ r') = Some r') /\ exists c n', n = String c n' /\ is_digit c = true).
  { clear s r. intros [|c s] r H; [done|]. simpl in H. destruct (Ascii.eqb_spec c "0") as [->|E0].
    - destruct (scan_frac_takes _ _ H) as (n & -> & Hn & Ht). exists (String "0" n). norm. split_and!; eauto.
    - destruct (in_range 49 57 c) eqn:E1; [|done]. destruct (skip_digits_takes s) as (n & E & Hn & Hd & Ht).
      destruct (scan_frac_takes _ _ H) as (n2 & E2 & Hn2 & Ht2). rewrite E2 in E, Hd. subst s.
      assert (Hc : is_digit c = true) by (unfold is_digit, in_range in *; lia).
      exists (String c (n +:+ n2)). norm. split_and!; [done| | |eauto].
      + simpl. rewrite numchar_app, Hn, Hn2. by rewrite numchar_digit.
      + intros r' Hr. norm. simpl. rewrite (proj2 (Ascii.eqb_neq _ _) E0), E1, Ht; [by apply Ht2|].
        by eapply nodigit_app, sep_nodigit. }
  intros H. assert (Hm : (exists s', s = String "-" s') \/ (forall t, match s with String c _ => scan_number (String c t) = body (String c t) | EmptyString => True end) /\ scan_number s = body s).
  { destruct s as [|[[] [] [] [] [] [] [] []] s]; first [left; exact (ex_intro _ s eq_refl)|right; split; [done|done]]. }
  destruct Hm as [[s' ->]|[Hs E]].
  - destruct (Hbody s' r H) as (n & -> & Hn & Ht & _). exists (String "-" n). norm. split_and!; eauto.
  - rewrite E in H. destruct (Hbody s r H) as (n & -> & Hn & Ht & c & n' & -> & Hc). norm.
    exists (String c n'). split_and!; [done|done| |exists c, n'; split; [done|by rewrite Hc]].
    intros r' Hr. norm. rewrite (Hs (n' +:+ r')). by apply Ht.
Qed.

Lemma val_skip d s c r : val d (skip_ws s) c r -> val d s c r.
Proof. induction s as [|x s IH]; simpl; [done|]. destruct (is_ws x) eqn:E; [|done]. eauto using val_ws. Qed.
Lemma skip_nonws s x t : skip_ws s = String x t -> is_ws x = false.
Proof. induction s as [|y s IH]; simpl; [done|]. destruct (is_ws y) eqn:E; [done|]. by intros [= -> ->]. Qed.
Lemma skip_ws_idem s : skip_ws (skip_ws s) = skip_ws s.
Proof. destruct (skip_ws s) as [|x t] eqn:E; [done|]. simpl. by rewrite (skip_nonws _ _ _ E). Qed.

(** Whether a text starts with [c]. *)
Lemma at_char c s : (exists r, s = String c r) \/ (forall r, s <> String c r).
Proof. destruct s as [|x s]; [by right|]. destruct (Ascii.eqb_spec x c) as [->|]; [eauto|]. right. congruence. Qed.
Lemma scan_sound n : (forall d s r, scan_value n d s = Some r -> exists c, val d s c r) /\
  (forall d s r, scan_members n d s = Some r -> exists c, mems d s c r) /\
  (forall d s r, scan_elements n d s = Some r -> exists c, elems d s c r).
Proof.
  induction n as [|n (IHv & IHm & IHe)]; [done|]. split_and!; intros d s r H; cbn [scan_value scan_members scan_elements] in H.
  - destruct (skip_ws s) as [|x t] eqn:Es; [done|]. enough (exists c, val d (String x t) c r) as [c Hc].
    { exists c. apply val_skip. by rewrite Es. }
    destruct (Ascii.eqb_spec x "{") as [->|]; [|destruct (Ascii.eqb_spec x "[") as [->|]; [|destruct (Ascii.eqb_spec x dq) as [->|];
      [|destruct (Ascii.eqb_spec x "t") as [->|]; [|destruct (Ascii.eqb_spec x "f") as [->|]; [|destruct (Ascii.eqb_spec x "n") as [->|]]]]]].
    + destruct (maxNestingDepth <=? d) eqn:Ed; [done|].
      destruct (at_char "}" (skip_ws t)) as [[r0 E0]|E0]; [|].
      * rewrite E0 in H. simplify_eq. eauto using val.
      * assert (Hm : scan_members n (d + 1) t = Some r) by (destruct (skip_ws t) as [|[[] [] [] [] [] [] [] []] u]; first [exact H|by destruct (E0 u)]).
        destruct (IHm _ _ _ Hm). eauto using val.
    + destruct (maxNestingDepth <=? d) eqn:Ed; [done|].
      destruct (at_char "]" (skip_ws t)) as [[r0 E0]|E0]; [|].
      * rewrite E0 in H. simplify_eq. eauto using val.
      * assert (Hm : scan_elements n (d + 1) t = Some r) by (destruct (skip_ws t) as [|[[] [] [] [] [] [] [] []] u]; first [exact H|by destruct (E0 u)]).
        destruct (IHe _ _ _ Hm). eauto using val.
    + destruct (scan_string_sound _ _ _ (le_n _) H). eauto using val.
    + apply CutPrefix_Some in H as ->. exists "true". apply (val_lit d "true"). auto.
    + apply CutPrefix_Some in H as ->. exists "false". apply (val_lit d "false"). auto.
    + apply CutPrefix_Some in H as ->. exists "null". apply (val_lit d "null"). auto.
    + destruct (scan_number_takes _ _ H) as (m & E & _ & Ht & _). rewrite E in H |- *. eauto using val.
  - destruct (skip_ws s) as [|x s1] eqn:E1; [done|]. destruct (Ascii.eqb_spec x dq) as [->|]; [|done]. simpl in H.
    destruct (scan_string s1) as [s2|] eqn:E2; [|done]. destruct (scan_string_sound _ _ _ (le_n _) E2) as [ck Hk].
    destruct (at_char ":" (skip_ws s2)) as [[s3 E3]|Hn].
    2: { destruct (skip_ws s2) as [|[[] [] [] [] [] [] [] []] u]; try done; by destruct (Hn u). }
    rewrite E3 in H. destruct (scan_value n d s3) as [s4|] eqn:E4; [|done]. destruct (IHv _ _ _ E4) as [cv Hv].
    destruct (at_char "," (skip_ws s4)) as [[s5 E5]|Hn].
    + rewrite E5 in H. destruct (IHm _ _ _ H). eauto using mems.
    + assert (Hr : skip_ws s4 = String "}" r).
      { destruct (skip_ws s4) as [|[[] [] [] [] [] [] [] []] u]; try done; first [by simplify_eq|by destruct (Hn u)]. }
      eauto using mems.
  - destruct (scan_value n d s) as [s1|] eqn:E1; [|done]. destruct (IHv _ _ _ E1) as [cv Hv].
    destruct (at_char "," (skip_ws s1)) as [[s5 E5]|Hn].
    + rewrite E5 in H. destruct (IHe _ _ _ H). eauto using elems.
    + assert (Hr : skip_ws s1 = String "]" r).
      { destruct (skip_ws s1) as [|[[] [] [] [] [] [] [] []] u]; try done; first [by simplify_eq|by destruct (Hn u)]. }
      eauto using elems.
Qed.

Lemma strc_length s c r : strc s c r -> (String.length r < String.length s)%nat.
Proof. induction 1; simpl in *; lia. Qed.
Lemma skip_length s x t : skip_ws s = String x t -> (String.length t < String.length s)%nat.
Proof. intros E. pose proof (skip_ws_length s) as H. rewrite E in H. simpl in H. lia. Qed.
Lemma num_head n r : scan_number (n +:+ r) = Some r -> exists c n', n = String c n' /\ (is_digit c || Ascii.eqb c "-") = true.
Proof. intros H. destruct (scan_number_takes _ _ H) as (m & E & _ & _ & Hm). by apply app_eq_r in E as ->. Qed.

Lemma text_length : (forall d s c r, val d s c r -> (String.length r < String.length s)%nat) /\
  (forall d s c r, mems d s c r -> (String.length r < String.length s)%nat) /\
  (forall d s c r, elems d s c r -> (String.length r < String.length s)%nat).
Proof.
  apply text_ind; intros; simpl; rewrite ?str_length_app;
    repeat match goal with
    | H : skip_ws _ = String _ _ |- _ => apply skip_length in H
    | H : strc _ _ _ |- _ => apply strc_length in H
    | H : scan_number _ = _ |- _ => apply num_head in H as (? & ? & -> & _)
    | H : _ \/ _ |- _ => destruct H as [->|H]
    | H : _ = "null" |- _ => subst
    end; simpl; lia.
Qed.

Lemma eqb_away c x : c <> x -> Ascii.eqb c x = false.
Proof. apply Ascii.eqb_neq. Qed.
(** The characters a value starts with. *)
Definition vstart (x : ascii) : bool :=
  is_digit x || existsb (Ascii.eqb x) ["-"%char; "{"%char; "["%char; dq; "t"%char; "f"%char; "n"%char].
Lemma vstart_not x y : vstart x = true -> vstart y = false -> x <> y.
Proof. congruence. Qed.
Lemma vstart_nonws x : vstart x = true -> is_ws x = false.
Proof.
  intros H. destruct (is_ws x) eqn:E; [|done]. exfalso. revert H E. unfold vstart, is_digit, in_range, is_ws.
  destruct x as [[] [] [] [] [] [] [] []]; vm_compute; congruence.
Qed.
Lemma num_vstart x : (is_digit x || Ascii.eqb x "-") = true -> vstart x = true.
Proof. unfold vstart. cbn [existsb]. destruct (is_digit x); [done|]. cbn [orb]. by intros ->. Qed.
Lemma val_head d s c r : val d s c r -> exists x t c', skip_ws s = String x t /\ c = String x c' /\ vstart x = true.
Proof.
  induction 1; try (do 3 eexists; split_and!; reflexivity).
  - cbn [skip_ws]. by rewrite H.
  - destruct H as [-> |[-> | ->]]; do 3 eexists; split_and!; reflexivity.
  - destruct (num_head _ _ H0) as (x & n' & -> & Hx). apply num_vstart in Hx. norm. cbn [skip_ws].
    rewrite vstart_nonws by done. by do 3 eexists.
Qed.
Lemma mems_head d s c r : mems d s c r -> exists t c', skip_ws s = String dq t /\ c = String dq c'.
Proof. destruct 1; eauto. Qed.
Lemma elems_head d s c r : elems d s c r -> exists x t c', skip_ws s = String x t /\ c = String x c' /\ vstart x = true.
Proof. destruct 1 as [? ? ? ? ? H|? ? ? ? ? ? ? H]; destruct (val_head _ _ _ _ H) as (x & t & c' & E & -> & Hx); norm; eauto 6. Qed.

(** Enough fuel: two units for each byte. *)
Lemma scan_complete :
  (forall d s c r, val d s c r -> forall n, (2 * String.length s + 1 <= n)%nat -> scan_value n d s = Some r) /\
  (forall d s c r, mems d s c r -> forall n, (2 * String.length s + 1 <= n)%nat -> scan_members n d s = Some r) /\
  (forall d s c r, elems d s c r -> forall n, (2 * String.length s + 2 <= n)%nat -> scan_elements n d s = Some r).
Proof.
  destruct text_length as (Hlv & Hlm & Hle).
  apply text_ind; intros; match goal with H : (_ <= ?k)%nat |- _ => is_var k; destruct k as [|k]; [lia|] end; simpl String.length in *;
    cbn [scan_value scan_members scan_elements].
  - change (skip_ws (String x s)) with (if is_ws x then skip_ws s else String x s). rewrite e. exact (H (S n) ltac:(lia)).
  - destruct o as [-> |[-> | ->]]; apply (CutPrefix_app _ r).
  - destruct (num_head _ _ e0) as (x & n' & -> & Hx). norm. cbn [skip_ws]. rewrite vstart_nonws by by apply num_vstart.
    assert (Hd : forall a, (is_digit a || Ascii.eqb a "-") = false -> x <> a) by congruence.
    by rewrite !eqb_away by (apply Hd; reflexivity).
  - by apply (strc_scan _ c).
  - transitivity (if maxNestingDepth <=? d then None else match skip_ws s with String "}" r => Some r | _ => scan_members n (d + 1) s end);
      [reflexivity|by rewrite e, e0].
  - transitivity (if maxNestingDepth <=? d then None else match skip_ws s with String "}" r => Some r | _ => scan_members n (d + 1) s end);
      [reflexivity|rewrite e]. destruct (mems_head _ _ _ _ m) as (t & c' & -> & _). apply H. lia.
  - transitivity (if maxNestingDepth <=? d then None else match skip_ws s with String "]" r => Some r | _ => scan_elements n (d + 1) s end);
      [reflexivity|by rewrite e, e0].
  - transitivity (if maxNestingDepth <=? d then None else match skip_ws s with String "]" r => Some r | _ => scan_elements n (d + 1) s end);
      [reflexivity|rewrite e]. destruct (elems_head _ _ _ _ e0) as (x & t & c' & -> & _ & Hx).
    specialize (H n ltac:(lia)). destruct x as [[] [] [] [] [] [] [] []]; try exact H; discriminate Hx.
  - rewrite e. simpl. rewrite (strc_scan _ _ _ s0), e0, H; [by rewrite e1|].
    apply skip_length in e, e0. apply strc_length in s0. lia.
  - rewrite e. simpl. rewrite (strc_scan _ _ _ s0), e0. pose proof (Hlv _ _ _ _ v).
    apply skip_length in e, e0, e1 as ?. apply strc_length in s0. rewrite H by lia. rewrite e1. apply H0. lia.
  - rewrite H by lia. by rewrite e.
  - rewrite H by lia. rewrite e. apply H0. pose proof (Hlv _ _ _ _ v). apply skip_length in e. lia.
Qed.

(** ** A compact form is a text of its own *)

(** The second and third byte of U+2028 and U+2029. *)
Definition tail28 (s : string) : bool :=
  match s with
  | String y (String z _) => (byte_of y =? 128) && ((byte_of z =? 168) || (byte_of z =? 169))
  | _ => false
  end.
Lemma u2028_None x s : u2028 (String x s) = None <-> (byte_of x =? 226) && tail28 s = false.
Proof.
  destruct s as [|y [|z s]]; simpl; [by rewrite andb_false_r|by rewrite andb_false_r|].
  rewrite andb_assoc. by destruct (_ && _ && _).
Qed.

Lemma strc_high s x c r : strc s (String x c) r -> 128 <= byte_of x -> exists s', s = String x s' /\ strc s' c r.
Proof.
  intros H Hx. inversion H; subst; try (exfalso; by vm_compute in Hx; apply Hx). eauto.
Qed.
Lemma strc_nonempty s c r : strc s c r -> exists x c', c = String x c'.
Proof. destruct 1; eauto. Qed.
Lemma strc_tail28 s c r r' : strc s c r -> tail28 (c +:+ r') = true -> tail28 s = true.
Proof.
  intros H Ht. destruct (strc_nonempty _ _ _ H) as (x & c1 & ->). norm.
  destruct (c1 +:+ r') as [|z t] eqn:E; [done|]. simpl in Ht.
  destruct (strc_high _ _ _ _ H) as (s1 & -> & H1); [lia|].
  destruct (strc_nonempty _ _ _ H1) as (x2 & c2 & ->). norm. injection E as -> _.
  destruct (strc_high _ _ _ _ H1) as (s2 & -> & _); [lia|done].
Qed.

Lemma strc_compact s c r : strc s c r -> forall r', strc (c +:+ r') c r'.
Proof.
  induction 1; intros r'; norm; eauto using strc.
  - unfold u_escape. norm. apply strc_u; [|apply IHstrc].
    clear -H. destruct x as [[] [] [] [] [] [] [] []]; try discriminate H; reflexivity.
  - assert (Hh : is_hex h = true).
    { clear -H. simpl in H. destruct (_ && _ && _) eqn:E; [|done]. injection H as <-.
      assert (Hz : byte_of z = 168 \/ byte_of z = 169) by lia. clear -Hz. by destruct Hz as [-> | ->]. }
    apply strc_u; [by rewrite Hh|apply IHstrc].
  - apply strc_char; [done..| |apply IHstrc]. apply u2028_None. apply u2028_None in H3.
    destruct (byte_of x =? 226); [|done]. simpl in *.
    destruct (tail28 (c +:+ r')) eqn:E; [|done]. by rewrite (strc_tail28 _ _ _ _ H4 E) in H3.
Qed.

Lemma strc_split s c r : strc s c r -> exists w, s = w +:+ r /\ w <> "" /\ forall r', strc (w +:+ r') c r'.
Proof.
  induction 1.
  - exists (String dq ""). split_and!; [done|done|]. intros r'. apply strc_end.
  - destruct IHstrc as (w & -> & _ & Hw). eexists (String _ (String _ (String _ (String _ (String _ (String _ w)))))). norm.
    split_and!; [done|done|]. intros r'. norm. by apply strc_u.
  - destruct IHstrc as (w & -> & _ & Hw). exists (String backslash (String e w)). norm.
    split_and!; [done|done|]. intros r'. norm. by apply strc_esc.
  - destruct IHstrc as (w & -> & _ & Hw). exists (String x w). norm. split_and!; [done|done|]. intros r'. norm. by apply strc_html.
  - destruct IHstrc as (w & -> & _ & Hw). exists (String x (String y (String z w))). norm. split_and!; [done|done|]. intros r'. norm.
    apply strc_2028; [|done]. cbn [u2028] in *. destruct (_ && _ && _); [|done]. by injection H as <-.
  - destruct IHstrc as (w & -> & Hn & Hw). exists (String x w). norm. split_and!; [done|done|]. intros r'. norm.
    apply strc_char; try done. apply u2028_None. apply u2028_None in H3. destruct (byte_of x =? 226); [|done]. simpl in *.
    destruct w as [|y [|z w]]; [done| |done]. norm. rewrite <- H3. specialize (Hw r). norm.
    inversion Hw; subst; try (match goal with E : strc _ _ _ |- _ => apply strc_length in E; simpl in E; lia end).
    by destruct r, r'.
Qed.

Lemma skip_split s x t : skip_ws s = String x t ->
  exists p, s = p +:+ String x t /\ (forall t', skip_ws (p +:+ String x t') = String x t') /\ (sepc x = true -> forall t', sep (p +:+ String x t')).
Proof.
  induction s as [|y s IH]; simpl; [done|]. destruct (is_ws y) eqn:E.
  - intros H. destruct (IH H) as (p & -> & Hp & _). exists (String y p). norm. split_and!; [done| |].
    + intros t'. norm. simpl. by rewrite E.
    + intros _ t'. norm. simpl. unfold sepc. by rewrite E.
  - intros [= -> ->]. exists "". split_and!; [done| |done]. intros t'. norm. simpl. by rewrite E.
Qed.

(** A text with any other rest, after white space, has the same values. *)
Lemma text_split :
  (forall d s c r, val d s c r -> exists w, s = w +:+ r /\ forall r', sep r' -> val d (w +:+ r') c r') /\
  (forall d s c r, mems d s c r -> exists w, s = w +:+ r /\ forall r', mems d (w +:+ r') c r') /\
  (forall d s c r, elems d s c r -> exists w, s = w +:+ r /\ forall r', elems d (w +:+ r') c r').
Proof.
  apply text_ind; intros.
  - destruct H as (w & -> & Hw). exists (String x w). split; [done|]. intros r' Hr. norm. apply val_ws; auto.
  - exists l. split; [done|]. intros r' _. by apply val_lit.
  - exists n. split; [done|]. intros r' Hr. apply val_num; auto.
  - destruct (strc_split _ _ _ s0) as (w & -> & _ & Hw). exists (String dq w). split; [done|]. intros r' _. norm. by apply val_str.
  - destruct (skip_split _ _ _ e0) as (p & -> & Hp & _). exists (String "{" (p +:+ "}")). norm. split; [done|].
    intros r' _. norm. by apply val_obj0.
  - destruct H as (w & -> & Hw). exists (String "{" w). split; [done|]. intros r' Hr. norm. apply val_obj; auto.
  - destruct (skip_split _ _ _ e0) as (p & -> & Hp & _). exists (String "[" (p +:+ "]")). norm. split; [done|].
    intros r' _. norm. by apply val_arr0.
  - destruct H as (w & -> & Hw). exists (String "[" w). split; [done|]. intros r' Hr. norm. apply val_arr; auto.
  - destruct (skip_split _ _ _ e) as (p & -> & Hp & _), (strc_split _ _ _ s0) as (ws & -> & _ & Hws),
      (skip_split _ _ _ e0) as (p2 & -> & Hp2 & _), H as (wv & -> & Hwv), (skip_split _ _ _ e1) as (p3 & -> & Hp3 & Hs3).
    exists (p +:+ String dq (ws +:+ p2 +:+ String ":" (wv +:+ p3 +:+ "}"))). norm. split; [done|].
    intros r'. norm. eapply mems_last; [apply Hp|apply Hws|apply Hp2|apply Hwv; by apply Hs3|apply Hp3].
  - destruct (skip_split _ _ _ e) as (p & -> & Hp & _), (strc_split _ _ _ s0) as (ws & -> & _ & Hws),
      (skip_split _ _ _ e0) as (p2 & -> & Hp2 & _), H as (wv & -> & Hwv), (skip_split _ _ _ e1) as (p3 & -> & Hp3 & Hs3), H0 as (wm & -> & Hwm).
    exists (p +:+ String dq (ws +:+ p2 +:+ String ":" (wv +:+ p3 +:+ String "," wm))). norm. split; [done|].
    intros r'. norm. eapply mems_more; [apply Hp|apply Hws|apply Hp2|apply Hwv; by apply Hs3|apply Hp3|apply Hwm].
  - destruct H as (wv & -> & Hwv), (skip_split _ _ _ e) as (p3 & -> & Hp3 & Hs3).
    exists (wv +:+ p3 +:+ "]"). norm. split; [done|]. intros r'. norm. eapply elems_last; [apply Hwv; by apply Hs3|apply Hp3].
  - destruct H as (wv & -> & Hwv), (skip_split _ _ _ e) as (p3 & -> & Hp3 & Hs3), H0 as (wm & -> & Hwm).
    exists (wv +:+ p3 +:+ String "," wm). norm. split; [done|]. intros r'. norm.
    eapply elems_more; [apply Hwv; by apply Hs3|apply Hp3|apply Hwm].
Qed.

(** The compact form is a text with the same compact form. *)
Lemma text_compact :
  (forall d s c r, val d s c r -> forall r', sep r' -> val d (c +:+ r') c r') /\
  (forall d s c r, mems d s c r -> forall r', mems d (c +:+ r') c r') /\
  (forall d s c r, elems d s c r -> forall r', elems d (c +:+ r') c r').
Proof.
  apply text_ind; intros; norm; eauto using val.
  - apply val_str. by eapply strc_compact.
  - eapply mems_last; [done|by eapply strc_compact|done|by apply H|done].
  - eapply mems_more; [done|by eapply strc_compact|done|by apply H|done|apply H0].
  - eapply elems_last; [by apply H|done].
  - eapply elems_more; [by apply H|done|apply H0].
Qed.

(** ** [compact] computes the compact form *)

Lemma u2028_length x s h r : u2028 (String x s) = Some (h, r) -> (String.length r < String.length s)%nat.
Proof. destruct s as [|y [|z s]]; simpl; try done. destruct (_ && _ && _); [|done]. intros [= _ <-]. lia. Qed.
Lemma compact_fuel n m b e s : (String.length s <= n)%nat -> (String.length s <= m)%nat -> compact n b e s = compact m b e s.
Proof.
  revert m b e s. induction n as [|n IH]; intros m b e s Hn Hm.
  - destruct s; [|simpl in Hn; lia]. by destruct m.
  - destruct m as [|m]; [destruct s; [done|simpl in Hm; lia]|]. destruct s as [|x s]; [done|]. simpl in Hn, Hm.
    cbn [compact]. destruct (html_special x); [f_equal; apply IH; lia|].
    destruct (u2028 (String x s)) as [[h r]|] eqn:Eu.
    + apply u2028_length in Eu. do 3 f_equal. apply IH; lia.
    + destruct b, e, (is_ws x), (Ascii.eqb x backslash); try (f_equal; apply IH; lia); apply IH; lia.
Qed.
(** The compact form of a whole text. *)
Definition squeeze (s : string) : string := compact (String.length s) false false s.
Lemma compact_out n s : (String.length s <= n)%nat -> compact n false false s = squeeze s.
Proof. intros H. by apply compact_fuel. Qed.

(** A byte that is neither an HTML character nor the first one of U+2028. *)
Definition plain (x : ascii) : bool := negb (html_special x) && negb (byte_of x =? 226).
Lemma compact_plain n b e x s : plain x = true ->
  compact (S n) b e (String x s) =
  if b then String x (if e then compact n true false s else if Ascii.eqb x backslash then compact n true true s
                      else compact n (negb (Ascii.eqb x dq)) false s)
  else if is_ws x then compact n false false s else String x (compact n (Ascii.eqb x dq) false s).
Proof.
  unfold plain. intros H. apply andb_true_iff in H as [H1 H2]. apply negb_true_iff in H1, H2. cbn [compact]. rewrite H1.
  rewrite (proj2 (u2028_None x s)) by by rewrite H2. done.
Qed.
Lemma hex_plain x : is_hex x = true -> plain x = true /\ Ascii.eqb x backslash = false /\ Ascii.eqb x dq = false.
Proof. destruct x as [[] [] [] [] [] [] [] []]; intros H; try discriminate H; done. Qed.
Lemma simple_plain x : simple_escape x = true -> plain x = true.
Proof. destruct x as [[] [] [] [] [] [] [] []]; intros H; try discriminate H; done. Qed.
Lemma numchar_plain x : numchar x = true -> plain x = true /\ is_ws x = false /\ Ascii.eqb x dq = false.
Proof. destruct x as [[] [] [] [] [] [] [] []]; intros H; try discriminate H; done. Qed.

Lemma compact_string s c r n : strc s c r -> (String.length s <= n)%nat -> compact n true false s = c +:+ squeeze r.
Proof.
  intros H. revert n. induction H; intros n Hn; simpl in Hn; (destruct n as [|n]; [lia|]).
  - rewrite compact_plain by done. change (Ascii.eqb dq backslash) with false. cbv iota. norm. f_equal. by apply compact_out; lia.
  - destruct n as [|[|[|[|[|n]]]]]; try lia. rewrite compact_plain by done. change (Ascii.eqb backslash backslash) with true. cbv iota.
    rewrite compact_plain by done. cbv iota.
    repeat match type of H with _ && _ = true => apply andb_true_iff in H as [H ?] end.
    do 4 (rewrite compact_plain by (by apply hex_plain); cbv iota;
          match goal with |- context [Ascii.eqb ?x backslash] => destruct (hex_plain x) as (_ & -> & ->); [assumption|] end; cbv iota).
    norm. do 6 f_equal. apply IHstrc. lia.
  - destruct n as [|n]; [lia|]. rewrite compact_plain by done. change (Ascii.eqb backslash backslash) with true. cbv iota.
    rewrite compact_plain by by apply simple_plain. norm. do 2 f_equal. apply IHstrc. lia.
  - cbn [compact]. rewrite H. norm. f_equal. apply IHstrc. lia.
  - cbn [compact]. assert (Hx : html_special x = false).
    { clear -H. simpl in H. destruct (_ && _ && _) eqn:E; [|done]. unfold html_special. rewrite !eqb_away; [done|..]; intros ->; done. }
    rewrite Hx, H. norm. rewrite IHstrc by lia. done.
  - cbn [compact]. rewrite H2, H3. rewrite (proj2 (Ascii.eqb_neq _ _) H), (proj2 (Ascii.eqb_neq _ _) H0). norm.
    f_equal. apply IHstrc. lia.
Qed.

Lemma squeeze_skip s : squeeze (skip_ws s) = squeeze s.
Proof.
  induction s as [|x s IH]; [done|]. simpl. destruct (is_ws x) eqn:E; [|done]. rewrite IH. unfold squeeze at 2. simpl String.length.
  rewrite compact_plain, E by (destruct x as [[] [] [] [] [] [] [] []]; try discriminate E; done). done.
Qed.
Lemma squeeze_skipped s x t : skip_ws s = String x t -> plain x = true -> Ascii.eqb x dq = false -> squeeze s = String x (squeeze t).
Proof.
  intros E Hx Hq. rewrite <- squeeze_skip, E. unfold squeeze at 1. simpl String.length.
  by rewrite compact_plain, (skip_nonws _ _ _ E), Hq.
Qed.
Lemma squeeze_string s t c r : skip_ws s = String dq t -> strc t c r -> squeeze s = String dq (c +:+ squeeze r).
Proof.
  intros E H. rewrite <- squeeze_skip, E. unfold squeeze at 1. simpl String.length. rewrite compact_plain by done.
  change (is_ws dq) with false. change (Ascii.eqb dq dq) with true. cbv iota. f_equal. by apply compact_string.
Qed.
Lemma squeeze_plain n r : str_forallb (fun x => plain x && negb (is_ws x) && negb (Ascii.eqb x dq)) n = true ->
  squeeze (n +:+ r) = n +:+ squeeze r.
Proof.
  induction n as [|x n IH]; [done|]. norm. simpl. intros H. apply andb_true_iff in H as [H Hn]. apply andb_true_iff in H as [H Hq].
  apply andb_true_iff in H as [Hx Hw]. apply negb_true_iff in Hq, Hw. unfold squeeze at 1. simpl String.length.
  rewrite compact_plain, Hw, Hq by done. f_equal. by apply IH.
Qed.

Lemma text_squeeze :
  (forall d s c r, val d s c r -> squeeze s = c +:+ squeeze r) /\
  (forall d s c r, mems d s c r -> squeeze s = c +:+ squeeze r) /\
  (forall d s c r, elems d s c r -> squeeze s = c +:+ squeeze r).
Proof.
  apply text_ind; intros; norm.
  - rewrite <- squeeze_skip. cbn [skip_ws]. by rewrite e, squeeze_skip.
  - apply squeeze_plain. by destruct o as [-> |[-> | ->]].
  - apply squeeze_plain. destruct (scan_number_takes _ _ e0) as (m & E & Hm & _). apply app_eq_r in E as <-.
    clear -Hm. induction n as [|x n IH]; [done|]. simpl in *. apply andb_true_iff in Hm as [Hx Hm]. rewrite (IH Hm).
    by destruct (numchar_plain _ Hx) as (-> & -> & ->).
  - by eapply squeeze_string.
  - erewrite squeeze_skipped by done. f_equal. by erewrite squeeze_skipped.
  - erewrite squeeze_skipped by done. by rewrite H.
  - erewrite squeeze_skipped by done. f_equal. by erewrite squeeze_skipped.
  - erewrite squeeze_skipped by done. by rewrite H.
  - rewrite (squeeze_string _ _ _ _ e s0). erewrite (squeeze_skipped s2) by done. rewrite H. by erewrite (squeeze_skipped s4).
  - rewrite (squeeze_string _ _ _ _ e s0). erewrite (squeeze_skipped s2) by done. rewrite H. erewrite (squeeze_skipped s4) by done. by rewrite H0.
  - rewrite H. by erewrite squeeze_skipped.
  - rewrite H. erewrite squeeze_skipped by done. by rewrite H0.
Qed.

(** ** Valid texts *)

(** [s] is one value at nesting depth [d], with compact form [c]. *)
Definition ValidAt (d : Z) (s : string) : bool :=
  match scan_value (json_fuel s) d s with Some r => String.eqb (skip_ws r) "" | None => false end.
Lemma Valid_ValidAt s : Valid s = ValidAt 0 s.
Proof. done. Qed.
Lemma squeeze_blank r : skip_ws r = "" -> squeeze r = "".
Proof. intros E. by rewrite <- squeeze_skip, E. Qed.
Lemma ValidAt_val d s : ValidAt d s = true <-> exists c r, val d s c r /\ skip_ws r = "".
Proof.
  unfold ValidAt, json_fuel. split.
  - destruct (scan_value _ d s) as [r|] eqn:E; [|done]. intros Hr. apply String.eqb_eq in Hr.
    destruct (proj1 (scan_sound _) _ _ _ E) as [c Hc]. eauto.
  - intros (c & r & Hv & Hr). rewrite (proj1 scan_complete _ _ _ _ Hv) by lia. by rewrite Hr.
Qed.
(** The compact form of a valid text is a value before any separator. *)
Lemma ValidAt_squeeze d s r' : ValidAt d s = true -> sep r' -> val d (squeeze s +:+ r') (squeeze s) r'.
Proof.
  intros H Hr. apply ValidAt_val in H as (c & r & Hv & E).
  rewrite (proj1 text_squeeze _ _ _ _ Hv), (squeeze_blank _ E), str_app_nil. by eapply (proj1 text_compact).
Qed.
Lemma sep_empty : sep "".
Proof. done. Qed.
Lemma squeeze_idem d s : ValidAt d s = true -> ValidAt d (squeeze s) = true /\ squeeze (squeeze s) = squeeze s.
Proof.
  intros H. pose proof (ValidAt_squeeze d s "" H sep_empty) as Hv. rewrite str_app_nil in Hv.
  split; [apply ValidAt_val; by do 2 eexists|]. pose proof (proj1 text_squeeze _ _ _ _ Hv) as H1. by rewrite str_app_nil in H1.
Qed.

Lemma text_depth :
  (forall d s c r, val d s c r -> forall e, e <= d -> val e s c r) /\
  (forall d s c r, mems d s c r -> forall e, e <= d -> mems e s c r) /\
  (forall d s c r, elems d s c r -> forall e, e <= d -> elems e s c r).
Proof.
  apply text_ind; intros; eauto using val, mems, elems.
  - apply val_obj0; [lia|done].
  - apply val_obj; [lia|]. apply H. lia.
  - apply val_arr0; [lia|done].
  - apply val_arr; [lia|]. apply H. lia.
Qed.
Lemma ValidAt_depth d e s : ValidAt d s = true -> e <= d -> ValidAt e s = true.
Proof. rewrite !ValidAt_val. intros (c & r & Hv & Hr) He. exists c, r. split; [by eapply (proj1 text_depth)|done]. Qed.

(** ** Runes *)

Definition rune_len (a : ascii) : nat :=
  if byte_of a <? 128 then 1%nat else if in_range 194 223 a then 2%nat else if in_range 224 239 a then 3%nat else 4%nat.
(** [w] is the encoding of one rune. *)
Definition rune (w : string) : Prop :=
  utf8_valid w = true /\ exists a t, w = String a t /\ String.length w = rune_len a.

Lemma byte_range x : 0 <= byte_of x < 256.
Proof. pose proof (nat_ascii_bounded x). unfold byte_of. lia. Qed.

Ltac bytes := unfold cont, in_range in *; bool_to_prop.
Lemma valid_runes s : utf8_valid s = true -> s = "" \/ exists w r, s = w +:+ r /\ rune w /\ utf8_valid r = true.
Proof.
  intros H. destruct s as [|a s]; [by left|]. right. simpl in H. unfold rune.
  destruct (byte_of a <? 128) eqn:E1.
  { exists (String a ""), s. split_and!; [done|simpl; by rewrite E1| |done]. exists a, "". unfold rune_len. by rewrite E1. }
  destruct s as [|b s]; [done|]. destruct (in_range 194 223 a) eqn:E2.
  { apply andb_true_iff in H as [Hb H]. exists (String a (String b "")), s. split_and!; [done| | |done].
    - simpl. by rewrite E1, E2, Hb.
    - exists a, (String b ""). unfold rune_len. by rewrite E1, E2. }
  destruct s as [|c s]; [done|]. destruct (in_range 224 239 a) eqn:E3.
  { apply andb_true_iff in H as [Hc H]. exists (String a (String b (String c ""))), s. split_and!; [done| | |done].
    - simpl. rewrite E1, E2, E3. by rewrite Hc.
    - exists a, (String b (String c "")). unfold rune_len. by rewrite E1, E2, E3. }
  destruct s as [|d s]; [done|]. apply andb_true_iff in H as [Hd H].
  exists (String a (String b (String c (String d "")))), s. split_and!; [done| | |done].
  - simpl. rewrite E1, E2, E3. by rewrite Hd.
  - exists a, (String b (String c (String d ""))). unfold rune_len. by rewrite E1, E2, E3.
Qed.

(** The four shapes of a rune. *)
Lemma rune_shape w : rune w -> exists a, (w = String a "" /\ byte_of a < 128) \/
  (128 <= byte_of a /\
   ((exists b, w = String a (String b "") /\ in_range 194 223 a = true) \/
    (exists b c, w = String a (String b (String c "")) /\ in_range 194 223 a = false /\ in_range 224 239 a = true) \/
    (exists b c d, w = String a (String b (String c (String d ""))) /\ in_range 194 223 a = false /\ in_range 224 239 a = false))).
Proof.
  intros (Hv & a & t & -> & Hl). exists a. unfold rune_len in Hl. simpl in Hl.
  destruct (byte_of a <? 128) eqn:E1; [left; split; [by destruct t|lia]|].
  right. split; [lia|]. destruct (in_range 194 223 a) eqn:E2; [|destruct (in_range 224 239 a) eqn:E3].
  - left. destruct t as [|b [|]]; try done. eauto.
  - right; left. destruct t as [|b [|c [|]]]; try done. eauto.
  - right; right. destruct t as [|b [|c [|d [|]]]]; try done. eauto 6.
Qed.
Lemma rune_app w s : rune w -> utf8_valid (w +:+ s) = utf8_valid s.
Proof.
  intros H. destruct (rune_shape _ H) as (a & [[-> Ha]|(Ha & [(b & -> & E2)|[(b & c & -> & E2 & E3)|(b & c & d & -> & E2 & E3)]])]);
    destruct H as [Hv _]; norm; cbn [utf8_valid] in *.
  - by rewrite (proj2 (Z.ltb_lt _ _)) by done.
  - rewrite (proj2 (Z.ltb_ge _ _)), E2 in * by done. apply andb_true_iff in Hv as [-> _]. done.
  - rewrite (proj2 (Z.ltb_ge _ _)), E2, E3 in * by done. apply andb_true_iff in Hv as [-> _]. done.
  - rewrite (proj2 (Z.ltb_ge _ _)), E2, E3 in * by done. apply andb_true_iff in Hv as [-> _]. done.
Qed.
Lemma next_rune_app w s : rune w -> next_rune (w +:+ s) = (Some w, s).
Proof.
  intros H. destruct (rune_shape _ H) as (a & [[-> Ha]|(Ha & [(b & -> & E2)|[(b & c & -> & E2 & E3)|(b & c & d & -> & E2 & E3)]])]);
    destruct H as [Hv _]; norm; unfold next_rune.
  - by rewrite (proj2 (Z.ltb_lt _ _)) by done.
  - rewrite (proj2 (Z.ltb_ge _ _)) by done. cbn [str_take]. by rewrite Hv.
  - rewrite (proj2 (Z.ltb_ge _ _)) by done. cbn [str_take]. rewrite Hv.
    replace (utf8_valid (String a (String b ""))) with false; [done|].
    cbn [utf8_valid]. by rewrite (proj2 (Z.ltb_ge _ _)), E2 by done.
  - rewrite (proj2 (Z.ltb_ge _ _)) by done. cbn [str_take]. rewrite Hv.
    replace (utf8_valid (String a (String b ""))) with false by (cbn [utf8_valid]; by rewrite (proj2 (Z.ltb_ge _ _)), E2 by done).
    replace (utf8_valid (String a (String b (String c "")))) with false; [done|].
    cbn [utf8_valid]. by rewrite (proj2 (Z.ltb_ge _ _)), E2, E3 by done.
Qed.
Lemma str_take_short k s w r : str_take k s = w +:+ r -> str_take (String.length w) s = w.
Proof.
  revert k s. induction w as [|x w IH]; intros k s H; [by destruct s|]. destruct k as [|k], s as [|y s]; try done. norm.
  simpl in H |- *. injection H as -> H. by rewrite (IH _ _ H).
Qed.
Lemma take_rune k s : (1 <= k)%nat -> s <> "" -> utf8_valid (str_take k s) = true ->
  (forall j, (1 <= j < k)%nat -> utf8_valid (str_take j s) = false) -> rune (str_take k s).
Proof.
  intros Hk Hs Hv Hj. destruct (valid_runes _ Hv) as [E|(w & r & E & Hw & _)].
  - destruct k as [|k], s; done || lia.
  - pose proof (str_take_short _ _ _ _ E) as Ew. assert (Hr : r = "" \/ (String.length w < k)%nat).
    { clear -E. revert k s E. induction w as [|x w IH]; intros k s E.
      - destruct k as [|k]; simpl; [left; by norm|right; lia].
      - destruct k as [|k], s as [|y s]; try done. norm. simpl in E |- *. injection E as _ E. destruct (IH _ _ E); [by left|right; lia]. }
    destruct Hr as [-> |Hr]; [by rewrite E, str_app_nil|]. exfalso. destruct Hw as (Hw & a & t & Ea & _).
    specialize (Hj (String.length w)). rewrite Ew, Hw in Hj. discriminate Hj. rewrite Ea in *. simpl in *. lia.
Qed.
Lemma str_take_shorter k s : (String.length (str_take k s) <= String.length s)%nat.
Proof. revert s. induction k as [|k IH]; intros [|x s]; simpl; try lia. specialize (IH s). lia. Qed.
(** The first rune of a text; without one, a byte is skipped. *)
Lemma next_rune_spec x s : (exists w r, next_rune (String x s) = (Some w, r) /\ String x s = w +:+ r /\ rune w) \/
  next_rune (String x s) = (None, s).
Proof.
  unfold next_rune. destruct (byte_of x <? 128) eqn:E1.
  { left. exists (String x ""), s. split_and!; [done|done|]. split; [simpl; by rewrite E1|]. exists x, "". unfold rune_len. by rewrite E1. }
  assert (H1 : utf8_valid (str_take 1 (String x s)) = false) by (destruct s; simpl; by rewrite E1).
  destruct (utf8_valid (str_take 2 (String x s))) eqn:V2; [|destruct (utf8_valid (str_take 3 (String x s))) eqn:V3;
    [|destruct (utf8_valid (str_take 4 (String x s))) eqn:V4; [|by right]]]; left; do 2 eexists; (split; [reflexivity|]).
  - destruct s as [|b s]; [by simpl in V2; rewrite E1 in V2|]. split; [done|]. apply take_rune; [lia|done|done|].
    intros j Hj. by replace j with 1%nat by lia.
  - destruct s as [|b [|c s]]; [by simpl in V3; rewrite E1 in V3|by simpl in V2, V3; rewrite V3 in V2|]. split; [done|].
    apply take_rune; [lia|done|done|]. intros j Hj. assert (j = 1 \/ j = 2)%nat as [-> | ->] by lia; done.
  - destruct s as [|b [|c [|d s]]]; [by simpl in V4; rewrite E1 in V4|by simpl in V2, V4; rewrite V4 in V2|by simpl in V3, V4; rewrite V4 in V3|].
    split; [done|]. apply take_rune; [lia|done|done|]. intros j Hj. assert (j = 1 \/ j = 2 \/ j = 3)%nat as [-> |[-> | ->]] by lia; done.
Qed.

(** ** Quoting *)

Lemma rune_strc w s c r : rune w -> (forall x, w = String x "" -> x <> dq /\ x <> backslash /\ (byte_of x <? 32) = false /\ html_special x = false) ->
  (byte_of (match w with String x _ => x | EmptyString => dq end) = 226 -> tail28 (match w with String _ t => t | EmptyString => "" end) = false) ->
  strc s c r -> strc (w +:+ s) (w +:+ c) r.
Proof.
  intros H Hx H28 Hs.
  assert (Hhigh : forall x s c, 128 <= byte_of x -> (byte_of x = 226 -> tail28 s = false) -> strc s c r -> strc (String x s) (String x c) r).
  { intros x s' c' Hb Ht Hs'. apply strc_char; [intros ->; by apply Hb|intros ->; by apply Hb|lia| | |done].
    - destruct x as [[] [] [] [] [] [] [] []]; try done; exfalso; by apply Hb.
    - apply u2028_None. destruct (Z.eqb_spec (byte_of x) 226); [by rewrite Ht|done]. }
  destruct (rune_shape _ H) as (a & [[-> Ha]|(Ha & [(b & -> & E2)|[(b & c' & -> & E2 & E3)|(b & c' & d & -> & E2 & E3)]])]);
    destruct H as [Hv _]; cbn [utf8_valid] in Hv; norm.
  - destruct (Hx a eq_refl) as (? & ? & ? & ?). apply strc_char; try done. apply u2028_None.
    destruct (Z.eqb_spec (byte_of a) 226); [lia|done].
  - rewrite (proj2 (Z.ltb_ge _ _)), E2 in Hv by done. bytes. apply Hhigh; [lia|intros ?; exfalso; lia|]. apply Hhigh; [lia|intros ?; exfalso; lia|done].
  - rewrite (proj2 (Z.ltb_ge _ _)), E2, E3 in Hv by done. apply andb_true_iff in Hv as [Hv _]. apply andb_true_iff in Hv as [Hb Hc].
    assert (128 <= byte_of b < 192) by (bytes; destruct (byte_of a =? 224), (byte_of a =? 237); lia). bytes.
    apply Hhigh; [lia| |].
    + intros E. specialize (H28 E). simpl in *. done.
    + apply Hhigh; [lia|intros ?; exfalso; lia|]. apply Hhigh; [lia|intros ?; exfalso; lia|done].
  - rewrite (proj2 (Z.ltb_ge _ _)), E2, E3 in Hv by done. apply andb_true_iff in Hv as [Hv _]. repeat (apply andb_true_iff in Hv as [Hv ?]).
    assert (128 <= byte_of b < 192) by (bytes; destruct (byte_of a =? 240), (byte_of a =? 244); lia). bytes.
    apply Hhigh; [lia|intros ?; exfalso; lia|]. do 2 (apply Hhigh; [lia|intros ?; exfalso; lia|]). apply Hhigh; [lia|intros ?; exfalso; lia|done].
Qed.

Lemma u_escape_hex x : exists h1 h2 h3 h4, u_escape x = String backslash (String "u" (String h1 (String h2 (String h3 (String h4 ""))))) /\
  is_hex h1 && is_hex h2 && is_hex h3 && is_hex h4 = true /\ getu4 (String h1 (String h2 (String h3 (String h4 "")))) = Some (byte_of x, "").
Proof. do 4 eexists. split; [reflexivity|]. destruct x as [[] [] [] [] [] [] [] []]; done. Qed.
Lemma u2028_spec x s h r : u2028 (String x s) = Some (h, r) -> exists y z, s = String y (String z r) /\
  String x (String y (String z "")) = utf8_encode (8224 + default 0 (hex_val h)) /\ (h = "8"%char \/ h = "9"%char).
Proof.
  destruct s as [|y [|z s]]; try done. cbn [u2028]. destruct (_ && _ && _) eqn:E; [|done]. intros [= <- <-]. exists y, z.
  assert (Hx : byte_of x = 226) by lia. assert (Hy : byte_of y = 128) by lia. assert (Hz : byte_of z = 168 \/ byte_of z = 169) by lia.
  assert (Hb : forall a b, byte_of a = b -> a = byte b).
  { intros a b <-. unfold byte, byte_of. by rewrite Nat2Z.id, ascii_nat_embedding. }
  apply Hb in Hx, Hy. destruct Hz as [Hz|Hz]; apply Hb in Hz; subst; split_and!; [done|vm_compute; reflexivity|vm_compute; auto|done|vm_compute; reflexivity|vm_compute; auto].
Qed.

(** What [quote_body] does with the first byte: an escape, or a rune. *)
Lemma quote_step n x s : exists p r, quote_body (S n) (String x s) = p +:+ quote_body n r /\
  p <> "" /\ (String.length r <= String.length s)%nat /\
  (forall t c q, strc t c q -> strc (p +:+ t) (p +:+ c) q) /\
  (utf8_valid (String x s) = true -> utf8_valid r = true /\ exists w, String x s = w +:+ r /\ forall m t, unquote (S m) (p +:+ t) = w +:+ unquote m t).
Proof.
  assert (Hesc : forall e y, simple_escape e = true -> Ascii.eqb e "u" = false -> byte_of x < 128 ->
    (if Ascii.eqb e "b" then byte 8 else if Ascii.eqb e "f" then byte 12 else if Ascii.eqb e "n" then byte 10
     else if Ascii.eqb e "r" then byte 13 else if Ascii.eqb e "t" then byte 9 else e) = x ->
    y = String backslash (String e (quote_body n s)) ->
    exists p r, y = p +:+ quote_body n r /\ p <> "" /\ (String.length r <= String.length s)%nat /\ (forall t c q, strc t c q -> strc (p +:+ t) (p +:+ c) q) /\
    (utf8_valid (String x s) = true -> utf8_valid r = true /\ exists w, String x s = w +:+ r /\ forall m t, unquote (S m) (p +:+ t) = w +:+ unquote m t)).
  { intros e y He Hu Hx Ee ->. exists (String backslash (String e "")), s. split_and!; [done|done|done| |].
    - intros. norm. by apply strc_esc.
    - intros Hv. split; [cbn [utf8_valid] in Hv; by rewrite (proj2 (Z.ltb_lt _ _)) in Hv|]. exists (String x ""). split; [done|].
      intros m t. norm. rewrite <- Ee. clear -Hu. destruct e as [[] [] [] [] [] [] [] []]; try discriminate Hu; reflexivity. }
  cbn [quote_body].
  destruct (Ascii.eqb_spec x dq) as [->|Nq]; [by apply (Hesc dq)|].
  destruct (Ascii.eqb_spec x backslash) as [->|Nb]; [by apply (Hesc backslash)|]. cbn [orb].
  assert (Hb : forall b, byte_of x = b -> x = byte b) by (intros b <-; unfold byte, byte_of; by rewrite Nat2Z.id, ascii_nat_embedding).
  destruct (Z.eqb_spec (byte_of x) 8) as [E|N8]; [apply Hb in E as ->; by eapply (Hesc "b"%char)|].
  destruct (Z.eqb_spec (byte_of x) 12) as [E|N12]; [apply Hb in E as ->; by eapply (Hesc "f"%char)|].
  destruct (Z.eqb_spec (byte_of x) 10) as [E|N10]; [apply Hb in E as ->; by eapply (Hesc "n"%char)|].
  destruct (Z.eqb_spec (byte_of x) 13) as [E|N13]; [apply Hb in E as ->; by eapply (Hesc "r"%char)|].
  destruct (Z.eqb_spec (byte_of x) 9) as [E|N9]; [apply Hb in E as ->; by eapply (Hesc "t"%char)|]. clear Hesc.
  destruct ((byte_of x <? 32) || html_special x) eqn:Ectl.
  - assert (Hlow : byte_of x < 128) by (apply orb_true_iff in Ectl as [E|E]; [lia|destruct x as [[] [] [] [] [] [] [] []]; vm_compute in E; try discriminate E; vm_compute; reflexivity]).
    destruct (u_escape_hex x) as (h1 & h2 & h3 & h4 & -> & Hh & Hg). eexists _, s. split_and!; [reflexivity|done|done| |].
    + intros. norm. by apply strc_u.
    + intros Hv. split; [cbn [utf8_valid] in Hv; by rewrite (proj2 (Z.ltb_lt _ _)) in Hv|]. exists (String x ""). split; [done|].
      intros m t. norm. cbn [unquote]. change (Ascii.eqb backslash dq) with false. change (Ascii.eqb backslash backslash) with true. cbv iota.
      assert (Hgt : getu4 (String h1 (String h2 (String h3 (String h4 t)))) = Some (byte_of x, t)).
      { clear -Hg. unfold getu4 in *. destruct (hex_val h1), (hex_val h2), (hex_val h3), (hex_val h4); try done. by injection Hg as ->. }
      rewrite Hgt. replace (is_surrogate (byte_of x)) with false by (unfold is_surrogate; lia).
      unfold utf8_encode. rewrite (proj2 (Z.ltb_lt _ _)) by done. cbn [of_bytes foldr]. norm. by rewrite <- (Hb _ eq_refl).
  - apply orb_false_iff in Ectl as [Ectl Ehtml]. destruct (u2028 (String x s)) as [[h r]|] eqn:Eu.
    + destruct (u2028_spec _ _ _ _ Eu) as (y & z & -> & E & Hh).
      exists (String backslash ("u202" +:+ String h "")), r. split_and!; [by norm|done|simpl; lia| |].
      * intros. norm. apply strc_u; [by destruct Hh as [-> | ->]|done].
      * assert (Ex : String x (String y (String z r)) = utf8_encode (8224 + default 0 (hex_val h)) +:+ r) by by rewrite <- E.
        rewrite Ex. intros Hv. split; [by destruct Hh as [-> | ->]|]. eexists. split; [done|]. intros m t. by destruct Hh as [-> | ->].
    + destruct (next_rune_spec x s) as [(w & r & -> & E & Hw)|En]; [|rewrite En].
      * assert (Hl : exists a w', w = String a w') by (destruct Hw as (_ & a & w' & -> & _); eauto). destruct Hl as (a & w' & ->).
        norm. pose proof E as [= -> ->]. eexists (String a w'), r. split_and!; [done|done|rewrite str_length_app; lia| |].
        -- intros t c q Ht. apply rune_strc; [done|by intros ? [= -> ->]| |done].
           intros E226. apply u2028_None in Eu. rewrite E226 in Eu. simpl in Eu. clear -Eu Hw E226.
           destruct w' as [|b [|c w']]; [done|done|]. done.
        -- intros Hv. rewrite <- app_cons, rune_app in Hv by done. split; [done|]. exists (String a w'). split; [done|]. intros m t.
           norm. cbn [unquote]. rewrite (proj2 (Ascii.eqb_neq _ _) Nq), (proj2 (Ascii.eqb_neq _ _) Nb).
           change (String a (w' +:+ t)) with (String a w' +:+ t). by rewrite next_rune_app.
      * exists (String backslash "ufffd"), s. split_and!; [done|done|done| |].
        -- intros. norm. by apply strc_u.
        -- intros Hv. exfalso. destruct (valid_runes _ Hv) as [|(w & r & E & Hw & _)]; [done|]. by rewrite E, next_rune_app in En.
Qed.

Lemma quote_strc n s t : strc (quote_body n s +:+ String dq t) (quote_body n s +:+ String dq "") t.
Proof.
  revert s. induction n as [|n IH]; intros s; [apply strc_end|]. destruct s as [|x s]; [apply strc_end|].
  destruct (quote_step n x s) as (p & r & -> & _ & _ & Hp & _). norm. by apply Hp.
Qed.
Lemma unquote_quote n s t : utf8_valid s = true -> (String.length s <= n)%nat ->
  forall m, (String.length (quote_body n s) < m)%nat -> unquote m (quote_body n s +:+ String dq t) = s.
Proof.
  revert s. induction n as [|n IH]; intros s Hv Hn m Hm.
  - destruct s; [|simpl in Hn; lia]. destruct m; [lia|done].
  - destruct m as [|m]; [lia|]. destruct s as [|x s]; [done|]. simpl in Hn.
    destruct (quote_step n x s) as (p & r & E & Hp & Hl & _ & Hu). rewrite E in Hm |- *. rewrite str_length_app in Hm.
    destruct (Hu Hv) as (Hr & w & -> & Hw). norm. rewrite Hw, IH; [done|done|lia|]. destruct p; [done|simpl in Hm; lia].
Qed.
