(* ===== verification/JsonCodec.v ===== *)
(** * Encoding and decoding structs as JSON

    [json.Marshal] as the printing of a tree of values, and [json.Unmarshal] into
    structs, slices of structs and strings: field names are matched exactly, else
    by case folding; [null] leaves a field as it is; a value of another type is an
    error; a [json.RawMessage] keeps the text of its value.  Every text that
    [json.Marshal] prints is read back as what was printed. *)

From S2P Require Import Prelude Json JsonText.

(** ** Encoding *)

Inductive jtree : Type :=
| JBool (b : bool)
| JStr (s : string)
| JRaw (s : string)
| JArr (l : list jtree)
| JObj (l : list (string * jtree)).

Section jtree_ind.
Variable P : jtree -> Prop.
Hypotheses (Hbool : forall b, P (JBool b)) (Hstr : forall s, P (JStr s)) (Hraw : forall s, P (JRaw s))
  (Harr : forall l, Forall P l -> P (JArr l)) (Hobj : forall l, Forall (fun p => P p.2) l -> P (JObj l)).
Fixpoint jtree_nested (t : jtree) : P t :=
  match t with
  | JBool b => Hbool b
  | JStr s => Hstr s
  | JRaw s => Hraw s
  | JArr l => Harr l ((fix go l := match l return Forall P l with
                                   | [] => Forall_nil_2 P | x :: l => Forall_cons_2 P x l (jtree_nested x) (go l) end) l)
  | JObj l => Hobj l ((fix go l := match l return Forall (fun p => P p.2) l with
                                   | [] => Forall_nil_2 _ | p :: l => Forall_cons_2 _ p l (jtree_nested p.2) (go l) end) l)
  end.
End jtree_ind.

(** A [json.RawMessage] is printed compact. *)
Fixpoint print (t : jtree) : string :=
  match t with
  | JBool b => if b then "true" else "false"
  | JStr s => json_quote s
  | JRaw s => squeeze s
  | JArr l => String "[" (join_comma (map print l) +:+ "]")
  | JObj l => String "{" (join_comma (map (fun p => json_quote p.1 +:+ String ":" (print p.2)) l) +:+ "}")
  end.
(** Every [json.RawMessage] in the tree is a valid text at its depth, [d] being
    the depth of the tree. *)
Fixpoint fits (d : Z) (t : jtree) : bool :=
  match t with
  | JBool _ | JStr _ => true
  | JRaw s => ValidAt d s
  | JArr l => (d <? maxNestingDepth) && forallb (fits (d + 1)) l
  | JObj l => (d <? maxNestingDepth) && forallb (fun p => fits (d + 1) p.2) l
  end.
Fixpoint rawsValid (t : jtree) : bool :=
  match t with
  | JBool _ | JStr _ => true
  | JRaw s => Valid s
  | JArr l => forallb rawsValid l
  | JObj l => forallb (fun p => rawsValid p.2) l
  end.
(** [json.Marshal]: an error when a [json.RawMessage] is not valid. *)
Definition Marshal (t : jtree) : option string := if rawsValid t then Some (print t) else None.

(** Fields of a struct: always there, or left out when empty. *)
Definition fStr (name v : string) : list (string * jtree) := [(name, JStr v)].
Definition fStrOmit (name v : string) : list (string * jtree) := if String.eqb v "" then [] else [(name, JStr v)].
Definition fRawOmit (name v : string) : list (string * jtree) := if String.eqb v "" then [] else [(name, JRaw v)].
Definition fBoolOmit (name : string) (v : bool) : list (string * jtree) := if v then [(name, JBool true)] else [].
Definition fPtrOmit {A} (name : string) (enc : A -> jtree) (v : option A) : list (string * jtree) :=
  match v with None => [] | Some a => [(name, enc a)] end.
(** A slice: [null] when nil. *)
Definition gslice (A : Type) : Type := option (list A).
Definition elems_of {A} (l : gslice A) : list A := default [] l.
Definition tSlice {A} (enc : A -> jtree) (l : gslice A) : jtree :=
  match l with None => JRaw "null" | Some l => JArr (map enc l) end.
(** [append(a, b...)] *)
Definition gappend {A} (a b : gslice A) : gslice A :=
  match a with
  | Some l => Some (l ++ elems_of b)
  | None => match elems_of b with [] => None | l => Some l end
  end.

(** ** Decoding *)

Definition isNull (s : string) : bool := match skip_ws s with String "n" _ => true | _ => false end.

(** The raw elements of a valid array after its bracket. *)
Fixpoint raw_elements (fuel : nat) (s : string) : list string :=
  match fuel with
  | O => []
  | S fuel =>
      let v := skip_ws s in
      match scan_value (json_fuel s) 1 s with
      | None => []
      | Some s1 =>
          str_take (String.length v - String.length s1) v ::
          match skip_ws s1 with
          | String "," s2 => raw_elements fuel s2
          | _ => []
          end
      end
  end.
(** The members of a valid text that is an object, the elements of an array, the
    content of a string. *)
Definition members (s : string) : option (list (string * string)) :=
  match skip_ws s with
  | String "{" s' => match skip_ws s' with String "}" _ => Some [] | _ => Some (raw_members (String.length s) s') end
  | _ => None
  end.
Definition elements (s : string) : option (list string) :=
  match skip_ws s with
  | String "[" s' => match skip_ws s' with String "]" _ => Some [] | _ => Some (raw_elements (String.length s) s') end
  | _ => None
  end.
Definition stringOf (s : string) : option string :=
  match skip_ws s with
  | String c s' => if Ascii.eqb c dq then Some (unquote (String.length s') s') else None
  | EmptyString => None
  end.
Definition boolOf (s : string) : option bool :=
  match skip_ws s with String "t" _ => Some true | String "f" _ => Some false | _ => None end.

(** [foldName]: the runes that fold to an ASCII letter are the letters of both
    cases, U+017F (long s) and U+212A (Kelvin sign). *)
Fixpoint foldName (s : string) : string :=
  match s with
  | EmptyString => ""
  | String a s1 =>
      match s1 with
      | String b s2 =>
          if (byte_of a =? 197) && (byte_of b =? 191) then String "S" (foldName s2)
          else match s2 with
               | String c s3 =>
                   if (byte_of a =? 226) && (byte_of b =? 132) && (byte_of c =? 170) then String "K" (foldName s3)
                   else String (if is_lower a then byte (byte_of a - 32) else a) (foldName s1)
               | EmptyString => String (if is_lower a then byte (byte_of a - 32) else a) (foldName s1)
               end
      | EmptyString => String (if is_lower a then byte (byte_of a - 32) else a) ""
      end
  end.

(** A decoder changes the value it decodes into; [None] is an error. *)
Definition decoder (A : Type) : Type := A -> string -> option A.
(** The fields of a struct, by name. *)
Definition fields (A : Type) : Type := list (string * decoder A).
Definition findField {A} (fs : fields A) (key : string) : option (decoder A) :=
  match List.find (fun f => String.eqb f.1 key) fs with
  | Some f => Some f.2
  | None => snd <$> List.find (fun f => String.eqb (foldName f.1) (foldName key)) fs
  end.
Definition decodeMember {A} (fs : fields A) (a : A) (m : string * string) : option A :=
  match findField fs m.1 with Some dec => dec a m.2 | None => Some a end.
Fixpoint decodeAll {A} (fs : fields A) (a : A) (l : list (string * string)) : option A :=
  match l with
  | [] => Some a
  | m :: l => match decodeMember fs a m with Some a => decodeAll fs a l | None => None end
  end.
Definition decodeStruct {A} (fs : fields A) : decoder A := fun a s =>
  if isNull s then Some a else match members s with Some l => decodeAll fs a l | None => None end.

Definition dStr {A} (set : A -> string -> A) : decoder A := fun a s =>
  if isNull s then Some a else set a <$> stringOf s.
Definition dBool {A} (set : A -> bool -> A) : decoder A := fun a s =>
  if isNull s then Some a else set a <$> boolOf s.
Definition dRaw {A} (set : A -> string -> A) : decoder A := fun a s => Some (set a s).
(** A pointer to a struct: [null] makes it nil, anything else is decoded into what
    it points to, or into a new zero value. *)
Definition dPtr {A B} (get : A -> option B) (set : A -> option B -> A) (zero : B) (dec : decoder B) : decoder A := fun a s =>
  if isNull s then Some (set a None) else (fun b => set a (Some b)) <$> dec (default zero (get a)) s.
(** A struct inside a struct. *)
Definition dIn {A B} (get : A -> B) (set : A -> B -> A) (dec : decoder B) : decoder A := fun a s => set a <$> dec (get a) s.

(** [json.Unmarshal] into a string, a struct, a nil slice of structs. *)
Definition UnmarshalString (s : string) : option string :=
  if Valid s then dStr (fun _ v => v) "" s else None.
Definition Unmarshal {A} (dec : decoder A) (zero : A) (s : string) : option A :=
  if Valid s then dec zero s else None.
Definition UnmarshalSlice {A} (dec : decoder A) (zero : A) (s : string) : option (gslice A) :=
  if Valid s then
    if isNull s then Some None
    else match elements s with Some l => Some <$> mapM (dec zero) l | None => None end
  else None.

(** ** What a text holds *)

Lemma val_skipped d s c r : val d s c r -> val d (skip_ws s) c r.
Proof.
  intros H. destruct (val_head _ _ _ _ H) as (x & t & _ & E & _ & Hx).
  induction H; try (by simpl; eauto using val).
  - cbn [skip_ws] in *. rewrite H in *. by apply IHval.
  - destruct H as [-> |[-> | ->]]; [apply (val_lit d "true")|apply (val_lit d "false")|apply (val_lit d "null")]; auto.
  - destruct (num_head _ _ H0) as (y & n' & -> & Hy). norm. cbn [skip_ws]. rewrite vstart_nonws by by apply num_vstart.
    by apply (val_num d (String y n')).
Qed.

(** The raw text of a value. *)
Lemma val_raw d s c r : val d s c r -> exists w, skip_ws s = w +:+ r /\
  str_take (String.length (skip_ws s) - String.length r) (skip_ws s) = w /\ ValidAt d w = true /\ squeeze w = c.
Proof.
  intros H. apply val_skipped in H. destruct (proj1 text_split _ _ _ _ H) as (w & E & Hw). exists w.
  specialize (Hw "" sep_empty). rewrite str_app_nil in Hw. split_and!; [done| | |].
  - rewrite E, str_length_app, Nat.add_sub. apply str_take_app.
  - apply ValidAt_val. by exists c, "".
  - rewrite (proj1 text_squeeze _ _ _ _ Hw). apply str_app_nil.
Qed.
Lemma val_scan1 d s c r : 1 <= d -> val d s c r -> scan_value (json_fuel s) 1 s = Some r.
Proof.
  intros Hd H. apply (proj1 scan_complete _ _ c); [by eapply (proj1 text_depth)|]. unfold json_fuel. lia.
Qed.

(** One member at a time. *)
Lemma raw_members_step d n s s1 ck s2 s3 cv s4 :
  1 <= d -> skip_ws s = String dq s1 -> strc s1 ck s2 -> skip_ws s2 = String ":" s3 -> val d s3 cv s4 ->
  exists w, ValidAt d w = true /\ squeeze w = cv /\ skip_ws s3 = w +:+ s4 /\
  raw_members (S n) s = (unquote (String.length s1) s1, w) :: match skip_ws s4 with String "," s5 => raw_members n s5 | _ => [] end.
Proof.
  intros Hd E Hk E2 Hv. destruct (val_raw _ _ _ _ Hv) as (w & Ew & Et & Hw & Hs). exists w. split_and!; try done.
  cbn [raw_members]. rewrite E, (strc_scan _ _ _ Hk), E2, (val_scan1 _ _ _ _ Hd Hv), Et. done.
Qed.
Lemma raw_elements_step d n s cv s1 : 1 <= d -> val d s cv s1 ->
  exists w, ValidAt d w = true /\ squeeze w = cv /\ skip_ws s = w +:+ s1 /\
  raw_elements (S n) s = w :: match skip_ws s1 with String "," s2 => raw_elements n s2 | _ => [] end.
Proof.
  intros Hd Hv. destruct (val_raw _ _ _ _ Hv) as (w & Ew & Et & Hw & Hs). exists w. split_and!; try done.
  cbn [raw_elements]. by rewrite (val_scan1 _ _ _ _ Hd Hv), Et.
Qed.

(** Every raw value in an object or array is valid one level deeper. *)
Lemma raw_members_valid d s c r n : 1 <= d -> mems d s c r -> Forall (fun m => ValidAt d m.2 = true) (raw_members n s).
Proof.
  intros Hd H. revert n. induction H; intros [|n]; try constructor.
  - destruct (raw_members_step d n s s1 ck s2 s3 cv s4) as (w & Hw & _ & _ & ->); try done. rewrite H3. by constructor.
  - destruct (raw_members_step d n s s1 ck s2 s3 cv s4) as (w & Hw & _ & _ & ->); try done. rewrite H3. by constructor; [|apply IHmems].
Qed.
Lemma raw_elements_valid d s c r n : 1 <= d -> elems d s c r -> Forall (fun w => ValidAt d w = true) (raw_elements n s).
Proof.
  intros Hd H. revert n. induction H; intros [|n]; try constructor.
  - destruct (raw_elements_step d n s cv s1) as (w & Hw & _ & _ & ->); try done. rewrite H0. by constructor.
  - destruct (raw_elements_step d n s cv s1) as (w & Hw & _ & _ & ->); try done. rewrite H0. by constructor; [|apply IHelems].
Qed.

Lemma ValidAt_skip d s : ValidAt d s = true -> exists c r, val d (skip_ws s) c r /\ skip_ws r = "".
Proof. intros H. apply ValidAt_val in H as (c & r & Hv & Hr). exists c, r. split; [by apply val_skipped|done]. Qed.
Ltac other_value :=
  match goal with
  | H : _ \/ _ \/ _, E : _ +:+ _ = String _ _ |- _ => exfalso; destruct H as [-> |[-> | ->]]; discriminate E
  | H : scan_number (_ +:+ _) = _, E : _ +:+ _ = String _ _ |- _ =>
      exfalso; let y := fresh in let n := fresh in let Hy := fresh in
      destruct (num_head _ _ H) as (y & n & -> & Hy); norm; injection E as -> _; discriminate Hy
  | H : is_ws _ = true |- _ => discriminate H
  end.
Lemma val_object d s c r : val d (String "{" s) c r ->
  (skip_ws s = String "}" r /\ c = "{}") \/ exists c', mems (d + 1) s c' r /\ c = String "{" c'.
Proof. intros H. inversion H; subst; eauto; other_value. Qed.
Lemma val_array d s c r : val d (String "[" s) c r ->
  (skip_ws s = String "]" r /\ c = "[]") \/ exists c', elems (d + 1) s c' r /\ c = String "[" c'.
Proof. intros H. inversion H; subst; eauto; other_value. Qed.
Lemma val_string d s c r : val d (String dq s) c r -> exists c', strc s c' r /\ c = String dq c'.
Proof. intros H. inversion H; subst; eauto; other_value. Qed.

Lemma members_valid d s l : 0 <= d -> ValidAt d s = true -> members s = Some l -> Forall (fun m => ValidAt (d + 1) m.2 = true) l.
Proof.
  intros Hd H Hm. destruct (ValidAt_skip _ _ H) as (c & r & Hv & _). unfold members in Hm.
  destruct (at_char "{" (skip_ws s)) as [[s' E]|Hn]; [|destruct (skip_ws s) as [|[[] [] [] [] [] [] [] []] t]; try done; by destruct (Hn t)].
  rewrite E in *. destruct (val_object _ _ _ _ Hv) as [[E2 _]|(c' & H2 & _)].
  - rewrite E2 in Hm. injection Hm as <-. constructor.
  - destruct (mems_head _ _ _ _ H2) as (t & _ & Et & _). rewrite Et in Hm. injection Hm as <-. eapply raw_members_valid; [|done]. lia.
Qed.
Lemma elements_valid d s l : 0 <= d -> ValidAt d s = true -> elements s = Some l -> Forall (fun w => ValidAt (d + 1) w = true) l.
Proof.
  intros Hd H Hm. destruct (ValidAt_skip _ _ H) as (c & r & Hv & _). unfold elements in Hm.
  destruct (at_char "[" (skip_ws s)) as [[s' E]|Hn]; [|destruct (skip_ws s) as [|[[] [] [] [] [] [] [] []] t]; try done; by destruct (Hn t)].
  rewrite E in *. destruct (val_array _ _ _ _ Hv) as [[E2 _]|(c' & H2 & _)].
  - rewrite E2 in Hm. injection Hm as <-. constructor.
  - assert (Hl : l = raw_elements (String.length s) s').
    { destruct (elems_head _ _ _ _ H2) as (x & t & _ & Et & _ & Hx). rewrite Et in Hm. clear -Hm Hx.
      destruct x as [[] [] [] [] [] [] [] []]; try discriminate Hx; by injection Hm as <-. }
    rewrite Hl. eapply raw_elements_valid; [|done]. lia.
Qed.

(** ** What is printed is read back *)

Lemma join_comma_cons x y l : join_comma (x :: y :: l) = x +:+ String "," (join_comma (y :: l)).
Proof. done. Qed.
Lemma fits_valid t d : 0 <= d -> fits d t = true -> rawsValid t = true.
Proof.
  revert d. induction t as [b|s|s|l IH|l IH] using jtree_nested; intros d Hd H; simpl in *; try done.
  - rewrite Valid_ValidAt. by eapply ValidAt_depth.
  - apply andb_true_iff in H as [_ H]. rewrite forallb_forall in H |- *. intros x Hx.
    rewrite Forall_forall in IH. apply (IH x ltac:(by apply list_elem_of_In) (d + 1)); [lia|by apply H].
  - apply andb_true_iff in H as [_ H]. rewrite forallb_forall in H |- *. intros x Hx.
    rewrite Forall_forall in IH. apply (IH x ltac:(by apply list_elem_of_In) (d + 1)); [lia|by apply H].
Qed.

Lemma print_member d k t r1 r : (forall r, sep r -> val d (print t +:+ r) (print t) r) -> sep r1 ->
  skip_ws r1 = String "}" r ->
  mems d ((json_quote k +:+ String ":" (print t)) +:+ r1) ((json_quote k +:+ String ":" (print t)) +:+ "}") r.
Proof.
  intros Ht Hs Hr. unfold json_quote. norm.
  pose proof (mems_last d (String dq (quote_body (String.length k) k +:+ String dq (String ":" (print t +:+ r1))))
    _ (quote_body (String.length k) k +:+ String dq "") _ _ (print t) r1 r eq_refl (quote_strc _ _ _) eq_refl (Ht _ Hs) Hr) as H.
  by norm.
Qed.
Lemma print_member_more d k t c s r : (forall r, sep r -> val d (print t +:+ r) (print t) r) -> mems d s c r ->
  mems d ((json_quote k +:+ String ":" (print t)) +:+ String "," s) ((json_quote k +:+ String ":" (print t)) +:+ String "," c) r.
Proof.
  intros Ht Hs. unfold json_quote. norm.
  pose proof (mems_more d (String dq (quote_body (String.length k) k +:+ String dq (String ":" (print t +:+ String "," s))))
    _ (quote_body (String.length k) k +:+ String dq "") _ _ (print t) (String "," s) s c r eq_refl (quote_strc _ _ _) eq_refl (Ht (String "," s) eq_refl) eq_refl Hs) as H.
  by norm.
Qed.
Definition printMembers (l : list (string * jtree)) : string := join_comma (map (fun p => json_quote p.1 +:+ String ":" (print p.2)) l).
Lemma print_mems d l r : l <> [] -> Forall (fun p => forall r, sep r -> val d (print p.2 +:+ r) (print p.2) r) l ->
  mems d (printMembers l +:+ String "}" r) (printMembers l +:+ "}") r.
Proof.
  intros Hn H. induction H as [|[k t] l Ht Hl IH]; [done|]. unfold printMembers. destruct l as [|[k2 t2] l].
  - by apply print_member.
  - cbn [map] in *. rewrite join_comma_cons. norm. pose proof (print_member_more d k t _ _ _ Ht (IH ltac:(done))) as H. by norm.
Qed.
Lemma print_elems d l r : l <> [] -> Forall (fun t => forall r, sep r -> val d (print t +:+ r) (print t) r) l ->
  elems d (join_comma (map print l) +:+ String "]" r) (join_comma (map print l) +:+ "]") r.
Proof.
  intros Hn H. induction H as [|t l Ht Hl IH]; [done|]. destruct l as [|t2 l].
  - simpl. eapply elems_last; [by apply Ht|done].
  - cbn [map] in *. rewrite join_comma_cons. norm. eapply elems_more; [by apply Ht|done|by apply IH].
Qed.

Lemma print_val t d : fits d t = true -> forall r, sep r -> val d (print t +:+ r) (print t) r.
Proof.
  revert d. induction t as [b|s|s|l IH|l IH] using jtree_nested; intros d H r Hr; cbn [fits] in H; try (apply andb_true_iff in H as [Hd H]; apply Z.ltb_lt in Hd).
  - destruct b; [apply (val_lit d "true")|apply (val_lit d "false")]; auto.
  - cbn [print]. unfold json_quote. norm. apply val_str. apply quote_strc.
  - by apply ValidAt_squeeze.
  - cbn [print]. norm. destruct l as [|t l]; [apply val_arr0; [lia|done]|]. apply val_arr; [lia|]. apply print_elems; [done|].
    apply Forall_forall. intros t' Ht' r' Hr'. rewrite Forall_forall in IH. apply IH; [done| |done].
    rewrite forallb_forall in H. apply H. by apply list_elem_of_In.
  - cbn [print]. norm. destruct l as [|p l]; [apply val_obj0; [lia|done]|]. apply val_obj; [lia|]. apply print_mems; [done|].
    apply Forall_forall. intros t' Ht' r' Hr'. rewrite Forall_forall in IH. apply (IH t'); [done| |done].
    rewrite forallb_forall in H. apply H. by apply list_elem_of_In.
Qed.
Lemma print_ValidAt t d : fits d t = true -> ValidAt d (print t) = true.
Proof.
  intros H. apply ValidAt_val. exists (print t), "". split; [|done].
  rewrite <- (str_app_nil (print t)) at 1. by apply print_val.
Qed.
Lemma squeeze_print t d : fits d t = true -> squeeze (print t) = print t.
Proof.
  intros H. pose proof (print_val t d H "" sep_empty) as Hv. apply (proj1 text_squeeze) in Hv. by rewrite !str_app_nil in Hv.
Qed.
Lemma print_nonws t d r : fits d t = true -> skip_ws (print t +:+ r) = print t +:+ r.
Proof.
  intros H. pose proof (print_val t d H "" sep_empty) as Hv. destruct (val_head _ _ _ _ Hv) as (x & t' & c & _ & -> & Hx).
  norm. simpl. by rewrite vstart_nonws.
Qed.

Lemma raw_member_print d k t r1 n : 1 <= d -> utf8_valid k = true -> fits d t = true -> sep r1 ->
  raw_members (S n) ((json_quote k +:+ String ":" (print t)) +:+ r1) =
  (k, print t) :: match skip_ws r1 with String "," s5 => raw_members n s5 | _ => [] end.
Proof.
  intros Hd Hk Ht Hr. unfold json_quote. norm. set (q := quote_body (String.length k) k).
  destruct (raw_members_step d n (String dq (q +:+ String dq (String ":" (print t +:+ r1)))) _
    (q +:+ String dq "") _ _ (print t) r1 Hd eq_refl (quote_strc _ _ _) eq_refl (print_val _ _ Ht _ Hr)) as (w & _ & _ & Ew & ->).
  rewrite (print_nonws _ _ _ Ht) in Ew. apply app_eq_r in Ew as <-. do 2 f_equal.
  apply unquote_quote; [done|done|]. subst q. rewrite str_length_app. simpl. lia.
Qed.
Lemma printMembers_length l : (length l <= String.length (printMembers l))%nat.
Proof.
  induction l as [|p l IH]; [simpl; lia|]. unfold printMembers in *. destruct l as [|p2 l]; [simpl; lia|].
  cbn [map] in *. rewrite join_comma_cons, str_length_app. simpl in *. lia.
Qed.
Lemma raw_members_print d l r n : 1 <= d -> Forall (fun p => utf8_valid p.1 = true /\ fits d p.2 = true) l -> (length l <= n)%nat ->
  l <> [] -> raw_members n (printMembers l +:+ String "}" r) = map (fun p => (p.1, print p.2)) l.
Proof.
  intros Hd H. revert n. induction H as [|[k t] l [Hk Ht] Hl IH]; intros n Hn Hne; [done|]. destruct n as [|n]; [simpl in Hn; lia|].
  unfold printMembers. destruct l as [|p2 l].
  - cbn [map join_comma]. by rewrite (raw_member_print d).
  - cbn [map]. rewrite join_comma_cons, str_app_assoc, app_cons, (raw_member_print d) by done. f_equal. apply IH; [simpl in *; lia|done].
Qed.
Lemma raw_elements_print d l r n : 1 <= d -> Forall (fun t => fits d t = true) l -> (length l <= n)%nat ->
  l <> [] -> raw_elements n (join_comma (map print l) +:+ String "]" r) = map print l.
Proof.
  intros Hd H. revert n. induction H as [|t l Ht Hl IH]; intros n Hn Hne; [done|]. destruct n as [|n]; [simpl in Hn; lia|].
  assert (Hs : forall r1, sep r1 -> raw_elements (S n) (print t +:+ r1) = print t :: match skip_ws r1 with String "," s2 => raw_elements n s2 | _ => [] end).
  { intros r1 Hr. destruct (raw_elements_step d n _ _ _ Hd (print_val _ _ Ht _ Hr)) as (w & _ & _ & Ew & ->).
    rewrite (print_nonws _ _ _ Ht) in Ew. by apply app_eq_r in Ew as <-. }
  destruct l as [|t2 l].
  - cbn [map join_comma]. by rewrite Hs.
  - cbn [map]. rewrite join_comma_cons, str_app_assoc, app_cons, Hs by done. f_equal. apply IH; [simpl in *; lia|done].
Qed.
Lemma elements_length d l : Forall (fun t => fits d t = true) l -> (length l <= String.length (join_comma (map print l)))%nat.
Proof.
  induction 1 as [|t l Ht Hl IH]; [simpl; lia|].
  assert (Hp : (1 <= String.length (print t))%nat).
  { pose proof (print_val _ _ Ht "" sep_empty) as Hv. destruct (val_head _ _ _ _ Hv) as (x & ? & ? & _ & -> & _). simpl. lia. }
  destruct l as [|t2 l]; [simpl; lia|]. cbn [map] in *. rewrite join_comma_cons, str_length_app. simpl in *. lia.
Qed.

Lemma fits_all {A} (f : A -> jtree) d l : forallb (fun x => fits d (f x)) l = true -> Forall (fun x => fits d (f x) = true) l.
Proof. rewrite forallb_forall. intros H. apply Forall_forall. intros x Hx. apply H. by apply list_elem_of_In. Qed.
Lemma members_print d l : 0 <= d -> fits d (JObj l) = true -> Forall (fun p => utf8_valid p.1 = true) l ->
  members (print (JObj l)) = Some (map (fun p => (p.1, print p.2)) l).
Proof.
  intros Hd H Hk. cbn [fits] in H. apply andb_true_iff in H as [_ H]. apply (fits_all snd) in H.
  destruct l as [|p l]; [done|]. set (m := p :: l) in *. unfold members. cbn [print skip_ws]. change (is_ws "{") with false. cbv iota.
  change (join_comma _) with (printMembers m). assert (Hh : exists t, skip_ws (printMembers m +:+ "}") = String dq t) by (unfold printMembers; subst m; destruct l; by eexists).
  destruct Hh as [t ->]. f_equal. apply (raw_members_print (d + 1)); [lia|by apply Forall_and| |done].
  pose proof (printMembers_length m). cbn [String.length]. rewrite str_length_app. lia.
Qed.
Lemma elements_print d l : 0 <= d -> fits d (JArr l) = true -> elements (print (JArr l)) = Some (map print l).
Proof.
  intros Hd H. cbn [fits] in H. apply andb_true_iff in H as [_ H]. apply (fits_all id) in H.
  destruct l as [|t l]; [done|]. set (m := t :: l) in *. unfold elements. cbn [print skip_ws]. change (is_ws "[") with false. cbv iota.
  assert (Hv : elems (d + 1) (join_comma (map print m) +:+ "]") (join_comma (map print m) +:+ "]") "").
  { apply print_elems; [done|]. eapply Forall_impl; [exact H|]. intros x Hx. by apply print_val. }
  destruct (elems_head _ _ _ _ Hv) as (x & t' & _ & -> & _ & Hx).
  transitivity (Some (raw_elements (String.length (String "[" (join_comma (map print m) +:+ "]"))) (join_comma (map print m) +:+ "]"))).
  { destruct x as [[] [] [] [] [] [] [] []]; try discriminate Hx; reflexivity. }
  f_equal. apply (raw_elements_print (d + 1)); [lia|done| |done]. pose proof (elements_length _ _ H : (length m <= _)%nat). cbn [String.length]. rewrite str_length_app. lia.
Qed.
Lemma stringOf_quote s : utf8_valid s = true -> stringOf (json_quote s) = Some s.
Proof.
  intros H. unfold stringOf, json_quote. cbn [skip_ws]. change (is_ws dq) with false. cbv iota. change (Ascii.eqb dq dq) with true. cbv iota.
  f_equal. apply unquote_quote; [done|done|]. rewrite str_length_app. simpl. lia.
Qed.
Lemma UnmarshalString_quote s : utf8_valid s = true -> UnmarshalString (json_quote s) = Some s.
Proof.
  intros H. unfold UnmarshalString. rewrite Valid_ValidAt. rewrite (print_ValidAt (JStr s) 0 eq_refl : ValidAt 0 (json_quote s) = true).
  unfold dStr. change (isNull (json_quote s)) with false. cbv iota. by rewrite stringOf_quote.
Qed.

(** ** Decoded strings are valid UTF-8 *)

Lemma byte_of_byte z : 0 <= z < 256 -> byte_of (byte z) = z.
Proof. intros H. unfold byte_of, byte. rewrite nat_ascii_embedding; lia. Qed.
Lemma low6 z : Z.land z 63 = z mod 64.
Proof. apply (Z.land_ones z 6). lia. Qed.
Lemma utf8_encode_rune r : 0 <= r < 1114112 -> is_surrogate r = false -> rune (utf8_encode r).
Proof.
  intros Hr Hs. assert (Hs' : r < 55296 \/ 57344 <= r) by (unfold is_surrogate in Hs; lia). unfold utf8_encode, rune, rune_len.
  rewrite !low6, !Z.shiftr_div_pow2 by lia.
  change (2 ^ 6) with 64. change (2 ^ 12) with 4096. change (2 ^ 18) with 262144.
  pose proof (Z.mod_pos_bound r 64). pose proof (Z.mod_pos_bound (r / 64) 64). pose proof (Z.mod_pos_bound (r / 4096) 64).
  assert (r = 64 * (r / 64) + r mod 64) by (apply Z.div_mod; lia).
  assert (r / 64 = 64 * (r / 4096) + (r / 64) mod 64) by (rewrite <- (Z.div_div r 64 64) at 1 by lia; apply Z.div_mod; lia).
  assert (r / 4096 = 64 * (r / 262144) + (r / 4096) mod 64) by (rewrite <- (Z.div_div r 4096 64) at 1 by lia; apply Z.div_mod; lia).
  destruct (r <? 128) eqn:E1; [|destruct (r <? 2048) eqn:E2; [|destruct (r <? 65536) eqn:E3]]; bool_to_prop; cbn [of_bytes foldr utf8_valid];
    (split; [|do 2 eexists; split; [reflexivity|]; cbn [String.length]]); unfold cont, in_range; rewrite !byte_of_byte by lia;
    repeat match goal with |- context [?a <? ?b] => first [rewrite (proj2 (Z.ltb_lt a b)) by lia|rewrite (proj2 (Z.ltb_ge a b)) by lia] end; try done.
  - rewrite !(proj2 (Z.leb_le _ _)) by lia. done.
  - rewrite !(proj2 (Z.leb_le _ _)) by lia. done.
  - replace (224 + r / 4096 <=? 223) with false by lia. rewrite andb_false_r.
    rewrite !(proj2 (Z.leb_le _ _)) by lia. cbn [andb].
    destruct (Z.eqb_spec (224 + r / 4096) 224); [rewrite !(proj2 (Z.leb_le _ _)) by lia; done|].
    destruct (Z.eqb_spec (224 + r / 4096) 237); rewrite !(proj2 (Z.leb_le _ _)) by lia; done.
  - replace (224 + r / 4096 <=? 223) with false by lia. rewrite andb_false_r. by rewrite !(proj2 (Z.leb_le _ _)) by lia.
  - replace (240 + r / 262144 <=? 223) with false by lia. replace (240 + r / 262144 <=? 239) with false by lia. rewrite !andb_false_r.
    rewrite (proj2 (Z.leb_le 240 (240 + r / 262144))), (proj2 (Z.leb_le (240 + r / 262144) 244)) by lia.
    destruct (Z.eqb_spec (240 + r / 262144) 240); [rewrite !(proj2 (Z.leb_le _ _)) by lia; done|].
    destruct (Z.eqb_spec (240 + r / 262144) 244); rewrite !(proj2 (Z.leb_le _ _)) by lia; done.
  - replace (240 + r / 262144 <=? 223) with false by lia. replace (240 + r / 262144 <=? 239) with false by lia. by rewrite !andb_false_r.
Qed.

Lemma hex_val_range c v : hex_val c = Some v -> 0 <= v < 16.
Proof. unfold hex_val, in_range. intros H. repeat split_if_in H; simplify_eq; lia. Qed.
Lemma getu4_range s v r : getu4 s = Some (v, r) -> 0 <= v < 65536.
Proof.
  unfold getu4. destruct s as [|h1 [|h2 [|h3 [|h4 s]]]]; try done.
  destruct (hex_val h1) eqn:E1, (hex_val h2) eqn:E2, (hex_val h3) eqn:E3, (hex_val h4) eqn:E4; try done. intros [= <- _].
  apply hex_val_range in E1, E2, E3, E4. lia.
Qed.
(** A text that scans as the rest of a string still does after a rune, and after
    an escape of four hexadecimal digits. *)
Lemma scan_high x s r : 128 <= byte_of x -> scan_string (String x s) = Some r -> scan_string s = Some r.
Proof.
  intros Hx. cbn [scan_string]. rewrite !eqb_away by (intros ->; by apply Hx). by rewrite (proj2 (Z.ltb_ge _ _)) by lia.
Qed.
Lemma scan_rune w s r : rune w -> (forall x, w = String x "" -> x <> dq /\ x <> backslash) ->
  scan_string (w +:+ s) = Some r -> scan_string s = Some r.
Proof.
  intros H Hx. destruct (rune_shape _ H) as (a & [[-> Ha]|(Ha & [(b & -> & E2)|[(b & c & -> & E2 & E3)|(b & c & d & -> & E2 & E3)]])]);
    destruct H as [Hv _]; cbn [utf8_valid] in Hv; norm.
  - destruct (Hx a eq_refl) as [H1 H2]. cbn [scan_string]. rewrite !eqb_away by done. by destruct (byte_of a <? 32).
  - rewrite (proj2 (Z.ltb_ge _ _)), E2 in Hv by done. bytes. intros Hs. apply scan_high in Hs; [|lia]. apply scan_high in Hs; [done|lia].
  - rewrite (proj2 (Z.ltb_ge _ _)), E2, E3 in Hv by done. apply andb_true_iff in Hv as [Hv _]. apply andb_true_iff in Hv as [Hb Hc].
    assert (128 <= byte_of b < 192) by (bytes; destruct (byte_of a =? 224), (byte_of a =? 237); lia). bytes.
    intros Hs. do 3 (apply scan_high in Hs; [|lia]). done.
  - rewrite (proj2 (Z.ltb_ge _ _)), E2, E3 in Hv by done. apply andb_true_iff in Hv as [Hv _]. repeat (apply andb_true_iff in Hv as [Hv ?]).
    assert (128 <= byte_of b < 192) by (bytes; destruct (byte_of a =? 240), (byte_of a =? 244); lia). bytes.
    intros Hs. do 4 (apply scan_high in Hs; [|lia]). done.
Qed.
Lemma scan_u s r : scan_string (String backslash (String "u" s)) = Some r ->
  exists v s', getu4 s = Some (v, s') /\ scan_string s' = Some r.
Proof.
  cbn [scan_string]. change (Ascii.eqb backslash dq) with false. change (Ascii.eqb backslash backslash) with true. cbv iota.
  change (Ascii.eqb "u" "u") with true. cbv iota. destruct s as [|h1 [|h2 [|h3 [|h4 s]]]]; try done. unfold is_hex, getu4.
  destruct (hex_val h1), (hex_val h2), (hex_val h3), (hex_val h4); try done. simpl. eauto.
Qed.

Lemma unquote_valid n s r : scan_string s = Some r -> utf8_valid (unquote n s) = true.
Proof.
  assert (Herr : forall t, utf8_valid (utf8_encode RuneError +:+ t) = utf8_valid t) by (intros t; apply rune_app; by apply utf8_encode_rune).
  revert s. induction n as [|n IH]; intros s Hs; [done|]. destruct s as [|x s]; [done|]. cbn [unquote].
  destruct (Ascii.eqb_spec x dq) as [->|Nq]; [done|]. destruct (Ascii.eqb_spec x backslash) as [->|Nb].
  - destruct s as [|e s]; [done|]. destruct (Ascii.eqb_spec e "u") as [->|Ne].
    + destruct (scan_u _ _ Hs) as (v & s3 & Hg & Hs3). rewrite Hg. destruct (is_surrogate v) eqn:Es.
      2: { rewrite rune_app; [by apply IH|]. apply utf8_encode_rune; [|done]. apply getu4_range in Hg. lia. }
      assert (Hdef : utf8_valid (utf8_encode RuneError +:+ unquote n s3) = true) by (rewrite Herr; by apply IH).
      destruct s3 as [|c1 [|c2 s4]]; try exact Hdef. destruct (Ascii.eqb_spec c2 "u") as [->|N2].
      2: { destruct c2 as [[] [] [] [] [] [] [] []]; try exact Hdef. done. }
      destruct (Ascii.eqb_spec c1 backslash) as [->|]; [|exact Hdef]. destruct (scan_u _ _ Hs3) as (v1 & s5 & Hg1 & Hs5). rewrite Hg1.
      destruct (_ && _ && _) eqn:Eb; [|exact Hdef]. rewrite rune_app; [by apply IH|]. apply getu4_range in Hg, Hg1.
      unfold is_surrogate in Es. apply utf8_encode_rune; [lia|unfold is_surrogate; lia].
    + cbn [scan_string] in Hs. change (Ascii.eqb backslash dq) with false in Hs. change (Ascii.eqb backslash backslash) with true in Hs. cbv iota in Hs.
      rewrite (proj2 (Ascii.eqb_neq _ _) Ne) in Hs. change (existsb _ _) with (simple_escape e) in Hs. destruct (simple_escape e) eqn:Ee; [|done].
      specialize (IH _ Hs). revert Ee IH Ne. clear. intros Ee IH Ne.
      destruct e as [[] [] [] [] [] [] [] []]; try discriminate Ee; cbn; exact IH.
  - destruct (next_rune_spec x s) as [(w & t & En & E & Hw)|En]; rewrite En; cbn [default].
    + rewrite rune_app by done. rewrite E in Hs. eapply IH, (scan_rune w); [done| |done]. intros y ->. norm. by injection E as -> ->.
    + rewrite Herr. apply IH.
      assert (Hx : 128 <= byte_of x).
      { unfold next_rune in En. destruct (byte_of x <? 128) eqn:E1; [done|lia]. }
      by eapply scan_high.
Qed.

Lemma stringOf_valid s t : Valid s = true -> stringOf s = Some t -> utf8_valid t = true.
Proof.
  rewrite Valid_ValidAt. intros H Ht. destruct (ValidAt_skip _ _ H) as (c & r & Hv & _). unfold stringOf in Ht.
  destruct (skip_ws s) as [|x s']; [done|]. destruct (Ascii.eqb_spec x dq) as [->|]; [|done]. injection Ht as <-.
  destruct (val_string _ _ _ _ Hv) as (c' & Hc & _). eapply unquote_valid, strc_scan, Hc.
Qed.

(** ** Decoding what the encoder printed *)

(** The members as they are read back. *)
Definition printed (l : list (string * jtree)) : list (string * string) := map (fun p => (p.1, print p.2)) l.
Lemma decodeAll_app {A} (fs : fields A) a l m :
  decodeAll fs a (l ++ m) = match decodeAll fs a l with Some a => decodeAll fs a m | None => None end.
Proof. revert a. induction l as [|x l IH]; intros a; [done|]. simpl. by destruct (decodeMember fs a x). Qed.
Lemma decodeAll_printed_app {A} (fs : fields A) a b l m :
  decodeAll fs a (printed l) = Some b -> decodeAll fs a (printed (l ++ m)) = decodeAll fs b (printed m).
Proof. intros H. unfold printed in *. by rewrite map_app, decodeAll_app, H. Qed.
Lemma isNull_quote s : isNull (json_quote s) = false.
Proof. done. Qed.
Lemma isNull_obj l : isNull (print (JObj l)) = false.
Proof. done. Qed.
Lemma isNull_arr l : isNull (print (JArr l)) = false.
Proof. done. Qed.
Lemma squeeze_empty : squeeze "" = "".
Proof. done. Qed.

Section decode_fields.
Context {A : Type} (fs : fields A) (a : A) (name : string).
Lemma dec_fStr set v : findField fs name = Some (dStr set) -> utf8_valid v = true ->
  decodeAll fs a (printed (fStr name v)) = Some (set a v).
Proof.
  intros Hf Hv. unfold printed, fStr. cbn [map decodeAll]. unfold decodeMember. cbn [fst snd print]. rewrite Hf.
  unfold dStr. by rewrite isNull_quote, stringOf_quote.
Qed.
Lemma dec_fStrOmit set v : findField fs name = Some (dStr set) -> utf8_valid v = true -> set a "" = a ->
  decodeAll fs a (printed (fStrOmit name v)) = Some (set a v).
Proof.
  intros Hf Hv Ha. unfold fStrOmit. destruct (String.eqb_spec v "") as [->|]; [by rewrite Ha|]. by apply dec_fStr.
Qed.
Lemma dec_fRawOmit set v : findField fs name = Some (dRaw set) -> set a "" = a ->
  decodeAll fs a (printed (fRawOmit name v)) = Some (set a (squeeze v)).
Proof.
  intros Hf Ha. unfold fRawOmit. destruct (String.eqb_spec v "") as [->|]; [by rewrite squeeze_empty, Ha|].
  unfold printed. cbn [map decodeAll]. unfold decodeMember. cbn [fst snd print]. by rewrite Hf.
Qed.
Lemma dec_fBoolOmit set v : findField fs name = Some (dBool set) -> set a false = a ->
  decodeAll fs a (printed (fBoolOmit name v)) = Some (set a v).
Proof.
  intros Hf Ha. destruct v; [|by rewrite Ha]. unfold printed, fBoolOmit. cbn [map decodeAll]. unfold decodeMember. cbn [fst snd print].
  by rewrite Hf.
Qed.
Lemma dec_fPtrOmit {B} get set zero dec (enc : B -> jtree) v : findField fs name = Some (dPtr get set zero dec) ->
  set a None = a -> get a = None -> (forall x, v = Some x -> isNull (print (enc x)) = false /\ dec zero (print (enc x)) = Some x) ->
  decodeAll fs a (printed (fPtrOmit name enc v)) = Some (set a v).
Proof.
  intros Hf Ha Hg Hd. destruct v as [x|]; [|by rewrite Ha]. destruct (Hd x eq_refl) as [Hn Hx].
  unfold printed, fPtrOmit. cbn [map decodeAll]. unfold decodeMember. cbn [fst snd]. rewrite Hf. unfold dPtr. rewrite Hn, Hg.
  cbn [default from_option id]. change (default zero None) with zero. by rewrite Hx.
Qed.
End decode_fields.

Lemma decodeStruct_printed {A} (fs : fields A) a d l : 0 <= d -> fits d (JObj l) = true -> Forall (fun p => utf8_valid p.1 = true) l ->
  decodeStruct fs a (print (JObj l)) = decodeAll fs a (printed l).
Proof. intros Hd Hf Hk. unfold decodeStruct. by rewrite isNull_obj, (members_print d). Qed.

(** A slice is read back element by element. *)
Lemma UnmarshalSlice_printed {A B} (dec : decoder B) zero (enc : A -> jtree) (f : A -> B) l :
  fits 0 (JArr (map enc l)) = true -> Forall (fun x => dec zero (print (enc x)) = Some (f x)) l ->
  UnmarshalSlice dec zero (print (JArr (map enc l))) = Some (Some (map f l)).
Proof.
  intros Hf H. unfold UnmarshalSlice. rewrite Valid_ValidAt, (print_ValidAt _ _ Hf), isNull_arr, (elements_print 0) by done.
  enough (E : mapM (dec zero) (map print (map enc l)) = Some (map f l)) by by rewrite E.
  clear Hf. induction H as [|x l Hx Hl IH]; [done|]. cbn [map]. cbn [mapM]. rewrite Hx. cbn. by rewrite IH.
Qed.

(** ** What is decoded is well formed *)

Lemma decodeAll_inv {A} (Inv : A -> Prop) d (fs : fields A) a a' l :
  Forall (fun f => forall a a' raw, ValidAt d raw = true -> Inv a -> f.2 a raw = Some a' -> Inv a') fs ->
  Forall (fun m => ValidAt d m.2 = true) l -> Inv a -> decodeAll fs a l = Some a' -> Inv a'.
Proof.
  intros Hfs Hl. revert a. induction Hl as [|m l Hm Hl IH]; intros a Ha H; [by injection H as <-|]. simpl in H.
  destruct (decodeMember fs a m) as [b|] eqn:E; [|done]. apply (IH b); [|done]. unfold decodeMember, findField in E.
  rewrite Forall_forall in Hfs.
  destruct (List.find (fun f => String.eqb f.1 m.1) fs) as [f|] eqn:Ef.
  - apply List.find_some in Ef as [Ef _]. by eapply (Hfs f); [apply list_elem_of_In|..].
  - destruct (List.find _ fs) as [f|] eqn:Eg in E; cbn in E; [|by injection E as <-].
    apply List.find_some in Eg as [Eg _]. by eapply (Hfs f); [apply list_elem_of_In|..].
Qed.
Lemma decodeStruct_inv {A} (Inv : A -> Prop) d (fs : fields A) a a' s : 0 <= d ->
  Forall (fun f => forall a a' raw, ValidAt (d + 1) raw = true -> Inv a -> f.2 a raw = Some a' -> Inv a') fs ->
  ValidAt d s = true -> Inv a -> decodeStruct fs a s = Some a' -> Inv a'.
Proof.
  intros Hd Hfs Hs Ha H. unfold decodeStruct in H. destruct (isNull s); [by injection H as <-|].
  destruct (members s) as [l|] eqn:E; [|done]. by eapply decodeAll_inv; [..|eapply members_valid|exact Ha|exact H].
Qed.
Lemma dStr_inv {A} (Inv : A -> Prop) d set (a a' : A) raw : 0 <= d ->
  (forall v, utf8_valid v = true -> Inv (set a v)) -> ValidAt d raw = true -> Inv a -> dStr set a raw = Some a' -> Inv a'.
Proof.
  intros Hd Hset Hv Ha H. unfold dStr in H. destruct (isNull raw); [by injection H as <-|].
  destruct (stringOf raw) as [v|] eqn:E; [|done]. injection H as <-. apply Hset. eapply stringOf_valid; [|done].
  rewrite Valid_ValidAt. by eapply ValidAt_depth.
Qed.
Lemma UnmarshalSlice_inv {A} (Inv : A -> Prop) (dec : decoder A) zero s l :
  (forall raw a, ValidAt 1 raw = true -> dec zero raw = Some a -> Inv a) ->
  UnmarshalSlice dec zero s = Some l -> Forall Inv (elems_of l).
Proof.
  intros Hdec H. unfold UnmarshalSlice in H. rewrite Valid_ValidAt in H. destruct (ValidAt 0 s) eqn:Hv; [|done].
  destruct (isNull s); [injection H as <-; constructor|]. destruct (elements s) as [raws|] eqn:E; [|done].
  destruct (mapM (dec zero) raws) as [k|] eqn:Ek; [|done]. injection H as <-. simpl.
  apply elements_valid with (d := 0) in E; [|done|done]. apply mapM_Some_1 in Ek.
  clear -E Ek Hdec. induction Ek as [|r a raws k Hr Hk IH]; [constructor|]. inversion E; subst. constructor; [|by apply IH]. by eapply Hdec.
Qed.
Lemma UnmarshalString_valid s v : UnmarshalString s = Some v -> utf8_valid v = true.
Proof.
  unfold UnmarshalString, dStr. destruct (Valid s) eqn:Hv; [|done]. destruct (isNull s); [by intros [= <-]|].
  destruct (stringOf s) as [w|] eqn:E; [|done]. intros [= <-]. by eapply stringOf_valid.
Qed.
