(* ===== verification/ApiRequests.v ===== *)
(** * Requests of the API bridge and their wire form ([pkg/apicompat/types.go])

    The request structs of the Anthropic Messages and the OpenAI Responses API,
    how the structs inside a [json.RawMessage] are encoded and decoded
    ([MarshalJSON] of a content block, [UnmarshalJSON] of an input item), and that
    decoding what was encoded gives it back. *)

From S2P Require Import Prelude Json JsonText JsonCodec Float64 ApiTypes.

(** ** Anthropic Messages *)

Record AnthropicMessage := mkMessage { am_Role : string; am_Content : string }.
Record AnthropicTool := mkAnthropicTool {
  at_Type : string;
  at_Name : string;
  at_Description : string;
  at_InputSchema : string;
  at_CacheControl : option AnthropicCacheControl }.
Record AnthropicOutputConfig := mkOutputConfig { oc_Effort : string }.
Record AnthropicThinking := mkThinking { th_Type : string; th_BudgetTokens : Z }.
Record AnthropicRequest := mkAnthropicRequest {
  aq_Model : string;
  aq_MaxTokens : Z;
  aq_System : string;
  aq_Messages : list AnthropicMessage;
  aq_Tools : list AnthropicTool;
  aq_Stream : bool;
  aq_Temperature : option float64;
  aq_TopP : option float64;
  aq_StopSeqs : list string;
  aq_Thinking : option AnthropicThinking;
  aq_ToolChoice : string;
  aq_Metadata : string;
  aq_OutputConfig : option AnthropicOutputConfig }.

Definition cacheControlTree (c : AnthropicCacheControl) : jtree := JObj (fStr "type" (cc_Type c) ++ fStrOmit "ttl" (cc_TTL c)).
Definition imageSourceTree (s : AnthropicImageSource) : jtree :=
  JObj (fStr "type" (is_Type s) ++ fStr "media_type" (is_MediaType s) ++ fStr "data" (is_Data s)).
(** [AnthropicContentBlock.MarshalJSON]: the text of a text block and of a
    thinking block comes first, and is there when empty. *)
Definition blockTree (b : AnthropicContentBlock) : jtree :=
  let isText := String.eqb (cb_Type b) "text" in
  let isThinking := String.eqb (cb_Type b) "thinking" in
  JObj ((if isText then fStr "text" (cb_Text b) else []) ++
        (if isThinking then fStr "thinking" (cb_Thinking b) else []) ++
        fStr "type" (cb_Type b) ++
        fPtrOmit "cache_control" cacheControlTree (cb_CacheControl b) ++
        (if isText then [] else fStrOmit "text" (cb_Text b)) ++
        (if isThinking then [] else fStrOmit "thinking" (cb_Thinking b)) ++
        fStrOmit "signature" (cb_Signature b) ++
        fPtrOmit "source" imageSourceTree (cb_Source b) ++
        fStrOmit "id" (cb_ID b) ++
        fStrOmit "name" (cb_Name b) ++
        fRawOmit "input" (cb_Input b) ++
        fStrOmit "tool_use_id" (cb_ToolUseID b) ++
        fRawOmit "content" (cb_Content b) ++
        fBoolOmit "is_error" (cb_IsError b)).

Definition cacheControlFields : fields AnthropicCacheControl :=
  [("type", dStr (fun c v => mkCacheControl v (cc_TTL c)));
   ("ttl", dStr (fun c v => mkCacheControl (cc_Type c) v))].
Definition imageSourceFields : fields AnthropicImageSource :=
  [("type", dStr (fun s v => mkImageSource v (is_MediaType s) (is_Data s)));
   ("media_type", dStr (fun s v => mkImageSource (is_Type s) v (is_Data s)));
   ("data", dStr (fun s v => mkImageSource (is_Type s) (is_MediaType s) v))].
Definition blockFields : fields AnthropicContentBlock :=
  [("type", dStr (fun b v => { b with cb_Type := v }));
   ("cache_control", dPtr cb_CacheControl (fun b v => { b with cb_CacheControl := v }) (mkCacheControl "" "") (decodeStruct cacheControlFields));
   ("text", dStr (fun b v => { b with cb_Text := v }));
   ("thinking", dStr (fun b v => { b with cb_Thinking := v }));
   ("signature", dStr (fun b v => { b with cb_Signature := v }));
   ("source", dPtr cb_Source (fun b v => { b with cb_Source := v }) (mkImageSource "" "" "") (decodeStruct imageSourceFields));
   ("id", dStr (fun b v => { b with cb_ID := v }));
   ("name", dStr (fun b v => { b with cb_Name := v }));
   ("input", dRaw (fun b v => { b with cb_Input := v }));
   ("tool_use_id", dStr (fun b v => { b with cb_ToolUseID := v }));
   ("content", dRaw (fun b v => { b with cb_Content := v }));
   ("is_error", dBool (fun b v => { b with cb_IsError := v }))].
Definition blockDecoder : decoder AnthropicContentBlock := decodeStruct blockFields.
(** [json.Marshal(blocks)] and [json.Unmarshal(raw, &blocks)]. *)
Definition MarshalBlocks (l : gslice AnthropicContentBlock) : option string := Marshal (tSlice blockTree l).
Definition UnmarshalBlocks (raw : string) : option (gslice AnthropicContentBlock) := UnmarshalSlice blockDecoder no_block raw.

(** ** OpenAI Responses *)

Record ResponsesInputItem := mkItem {
  ri_Type : string;
  ri_Role : string;
  ri_Content : string;
  ri_EncryptedContent : string;
  ri_CallID : string;
  ri_Name : string;
  ri_Arguments : string;
  ri_ID : string;
  ri_Output : string;
  ri_outputRaw : string }.
Definition no_item : ResponsesInputItem := mkItem "" "" "" "" "" "" "" "" "" "".
Record ResponsesReasoning := mkReasoning { rg_Effort : string; rg_Summary : string }.
Record ResponsesText := mkText { rt_Format : string; rt_Verbosity : string }.
Inductive ResponsesTool : Type := mkTool {
  to_Type : string;
  to_Name : string;
  to_Description : string;
  to_Parameters : string;
  to_Strict : option bool;
  to_Tools : list ResponsesTool;
  to_Children : list ResponsesTool;
  to_AllowedXHandles : list string;
  to_ExcludedXHandles : list string;
  to_FromDate : string;
  to_ToDate : string;
  to_EnableImageUnderstanding : option bool;
  to_EnableVideoUnderstanding : option bool }.
Definition no_tool : ResponsesTool := mkTool "" "" "" "" None [] [] [] [] "" "" None None.
Record ResponsesRequest := mkResponsesRequest {
  rq_Model : string;
  rq_Instructions : string;
  rq_Input : string;
  rq_MaxOutputTokens : option Z;
  rq_Temperature : option float64;
  rq_TopP : option float64;
  rq_Stream : bool;
  rq_Tools : list ResponsesTool;
  rq_Include : list string;
  rq_Store : option bool;
  rq_ParallelToolCalls : option bool;
  rq_Reasoning : option ResponsesReasoning;
  rq_Text : option ResponsesText;
  rq_ToolChoice : string;
  rq_ServiceTier : string;
  rq_PromptCacheKey : string;
  rq_PreviousResponseID : string }.
Definition no_responses_request : ResponsesRequest :=
  mkResponsesRequest "" "" "" None None None false [] [] None None None None "" "" "" "".
Definition minMaxOutputTokens : Z := 128.

Definition partTree (p : ResponsesContentPart) : jtree :=
  JObj (fStr "type" (cp_Type p) ++ fStrOmit "text" (cp_Text p) ++ fStrOmit "image_url" (cp_ImageURL p) ++
        fStrOmit "filename" (cp_Filename p) ++ fStrOmit "file_data" (cp_FileData p) ++ fStrOmit "file_id" (cp_FileID p)).
Definition no_part : ResponsesContentPart := mkPart "" "" "" "" "" "".
Definition partFields : fields ResponsesContentPart :=
  [("type", dStr (fun p v => { p with cp_Type := v }));
   ("text", dStr (fun p v => { p with cp_Text := v }));
   ("image_url", dStr (fun p v => { p with cp_ImageURL := v }));
   ("filename", dStr (fun p v => { p with cp_Filename := v }));
   ("file_data", dStr (fun p v => { p with cp_FileData := v }));
   ("file_id", dStr (fun p v => { p with cp_FileID := v }))].
Definition partDecoder : decoder ResponsesContentPart := decodeStruct partFields.
Definition MarshalParts (l : gslice ResponsesContentPart) : option string := Marshal (tSlice partTree l).
Definition UnmarshalParts (raw : string) : option (gslice ResponsesContentPart) := UnmarshalSlice partDecoder no_part raw.

Definition itemTree (i : ResponsesInputItem) : jtree :=
  JObj (fStrOmit "type" (ri_Type i) ++ fStrOmit "role" (ri_Role i) ++ fRawOmit "content" (ri_Content i) ++
        fStrOmit "encrypted_content" (ri_EncryptedContent i) ++ fStrOmit "call_id" (ri_CallID i) ++ fStrOmit "name" (ri_Name i) ++
        fStrOmit "arguments" (ri_Arguments i) ++ fStrOmit "id" (ri_ID i) ++ fStrOmit "output" (ri_Output i)).
(** The [wire] struct of [ResponsesInputItem.UnmarshalJSON]: the fields of the item
    through the embedded alias, and [output] as a raw text that hides its field. *)
Definition wireFields : fields (ResponsesInputItem * string) :=
  let d set := dStr (fun (w : ResponsesInputItem * string) v => (set w.1 v, w.2)) in
  [("output", dRaw (fun w v => (w.1, v)));
   ("type", d (fun i v => { i with ri_Type := v }));
   ("role", d (fun i v => { i with ri_Role := v }));
   ("content", dRaw (fun w v => ({ (w.1) with ri_Content := v }, w.2)));
   ("encrypted_content", d (fun i v => { i with ri_EncryptedContent := v }));
   ("call_id", d (fun i v => { i with ri_CallID := v }));
   ("name", d (fun i v => { i with ri_Name := v }));
   ("arguments", d (fun i v => { i with ri_Arguments := v }));
   ("id", d (fun i v => { i with ri_ID := v }))].
Definition itemDecoder : decoder ResponsesInputItem := fun _ data =>
  match decodeStruct wireFields (no_item, "") data with
  | None => None
  | Some (i, rawOutput) =>
      let output := TrimSpace rawOutput in
      if String.eqb output "" || String.eqb output "null" then Some i
      else match UnmarshalString output with
           | Some v => Some { i with ri_Output := v }
           | None => Some { i with ri_outputRaw := output; ri_Output := output }
           end
  end.
Definition MarshalItems (l : gslice ResponsesInputItem) : option string := Marshal (tSlice itemTree l).
Definition UnmarshalItems (raw : string) : option (gslice ResponsesInputItem) := UnmarshalSlice itemDecoder no_item raw.

(** ** On concrete texts *)

Example block_text : MarshalBlocks (Some [{ no_block with cb_Type := "text" }; { no_block with cb_Type := "tool_use"; cb_ID := "a<"; cb_Input := " { } " }]) =
  Some (qs ["[{"; "text"; ":"; ""; ","; "type"; ":"; "text"; "},{"; "type"; ":"; "tool_use"; ","; "id"; ":"; "a\u003c"; ","; "input"; ":{}}]"]).
Proof. vm_compute. reflexivity. Qed.
Example item_output : UnmarshalItems (qs ["[{"; "TYPE"; ":"; "x"; ","; "output"; ": [1, 2]},{"; "output"; ":"; "y"; "},null]"]) =
  Some (Some [{ no_item with ri_Type := "x"; ri_Output := "[1, 2]"; ri_outputRaw := "[1, 2]" }; { no_item with ri_Output := "y" }; no_item]).
Proof. vm_compute. reflexivity. Qed.
Example type_errors : UnmarshalBlocks (qs ["[{"; "text"; ":1}]"]) = None /\ UnmarshalBlocks "{}" = None /\ UnmarshalBlocks "null" = Some None.
Proof. vm_compute. done. Qed.

(** ** Round trips *)

(** A value that is encoded at depth 1: its strings are valid UTF-8, its raw texts
    valid where they are put. *)
Definition rawOk (s : string) : Prop := s = "" \/ ValidAt 2 s = true.
Definition cacheControlOk (c : AnthropicCacheControl) : Prop := utf8_valid (cc_Type c) = true /\ utf8_valid (cc_TTL c) = true.
Definition imageSourceOk (s : AnthropicImageSource) : Prop :=
  utf8_valid (is_Type s) = true /\ utf8_valid (is_MediaType s) = true /\ utf8_valid (is_Data s) = true.
Record blockOk (b : AnthropicContentBlock) : Prop := {
  bo_type : utf8_valid (cb_Type b) = true;
  bo_cache : forall c, cb_CacheControl b = Some c -> cacheControlOk c;
  bo_text : utf8_valid (cb_Text b) = true;
  bo_thinking : utf8_valid (cb_Thinking b) = true;
  bo_signature : utf8_valid (cb_Signature b) = true;
  bo_source : forall s, cb_Source b = Some s -> imageSourceOk s;
  bo_id : utf8_valid (cb_ID b) = true;
  bo_name : utf8_valid (cb_Name b) = true;
  bo_input : rawOk (cb_Input b);
  bo_tool : utf8_valid (cb_ToolUseID b) = true;
  bo_content : rawOk (cb_Content b) }.
(** The block with its raw texts in compact form. *)
Definition compactBlock (b : AnthropicContentBlock) : AnthropicContentBlock :=
  { b with cb_Input := squeeze (cb_Input b); cb_Content := squeeze (cb_Content b) }.
Record partOk (p : ResponsesContentPart) : Prop := {
  po_type : utf8_valid (cp_Type p) = true;
  po_text : utf8_valid (cp_Text p) = true;
  po_image : utf8_valid (cp_ImageURL p) = true;
  po_name : utf8_valid (cp_Filename p) = true;
  po_data : utf8_valid (cp_FileData p) = true;
  po_id : utf8_valid (cp_FileID p) = true }.

(** All keys are constants. *)
Ltac const_keys := repeat first [apply Forall_app_2|case_match|progress unfold fStr, fStrOmit, fRawOmit, fBoolOmit, fPtrOmit|by repeat constructor].
Section fits_fields.
Context (d : Z) (name : string).
Definition fitsAll (l : list (string * jtree)) : bool := forallb (fun p => fits d p.2) l.
Lemma fits_fStr v : fitsAll (fStr name v) = true.
Proof. done. Qed.
Lemma fits_fStrOmit v : fitsAll (fStrOmit name v) = true.
Proof. unfold fStrOmit. by case_match. Qed.
Lemma fits_fBoolOmit v : fitsAll (fBoolOmit name v) = true.
Proof. by destruct v. Qed.
Lemma fits_fRawOmit v : v = "" \/ ValidAt d v = true -> fitsAll (fRawOmit name v) = true.
Proof. intros [-> |H]; [done|]. unfold fRawOmit. case_match; [done|]. unfold fitsAll. simpl. by rewrite H. Qed.
Lemma fits_fPtrOmit {A} (enc : A -> jtree) v : (forall x, fits d (enc x) = true) -> fitsAll (fPtrOmit name enc v) = true.
Proof. intros H. destruct v; [|done]. unfold fitsAll. simpl. by rewrite H. Qed.
Lemma fitsAll_app l k : fitsAll (l ++ k) = fitsAll l && fitsAll k.
Proof. apply forallb_app. Qed.
Lemma fitsAll_if (c : bool) l k : fitsAll l = true -> fitsAll k = true -> fitsAll (if c then l else k) = true.
Proof. by destruct c. Qed.
End fits_fields.
Lemma fits_JObj d l : d < maxNestingDepth -> fitsAll (d + 1) l = true -> fits d (JObj l) = true.
Proof. intros Hd H. cbn [fits]. rewrite (proj2 (Z.ltb_lt _ _)) by done. exact H. Qed.
Create HintDb fits.
Ltac fits_field :=
  first [apply fits_fStr|apply fits_fStrOmit|apply fits_fBoolOmit|apply fits_fRawOmit; assumption|apply fits_fPtrOmit; solve [auto with fits]
        |apply fitsAll_if; [first [reflexivity|fits_field]|first [reflexivity|fits_field]]].
Ltac fits_fields := apply fits_JObj; [reflexivity|]; cbv zeta; match goal with |- fitsAll (?d + 1) _ = _ => let d' := eval cbv in (d + 1) in change (d + 1) with d' end; rewrite !fitsAll_app; repeat match goal with |- _ && _ = true => apply andb_true_iff; split end; fits_field.
Lemma cacheControl_fits c : fits 2 (cacheControlTree c) = true.
Proof. unfold cacheControlTree. fits_fields. Qed.
Lemma imageSource_fits s : fits 2 (imageSourceTree s) = true.
Proof. unfold imageSourceTree. fits_fields. Qed.
#[export] Hint Resolve cacheControl_fits imageSource_fits : fits.

Lemma cacheControl_back c a : cacheControlOk c -> isNull (print (cacheControlTree c)) = false /\
  decodeStruct cacheControlFields a (print (cacheControlTree c)) = Some (mkCacheControl (cc_Type c) (if String.eqb (cc_TTL c) "" then cc_TTL a else cc_TTL c)).
Proof.
  intros [H1 H2]. split; [done|]. unfold cacheControlTree. rewrite (decodeStruct_printed _ _ 2); [|done|by apply cacheControl_fits|const_keys].
  erewrite decodeAll_printed_app by (by apply dec_fStr). destruct c as [t l], a as [t2 l2]. unfold fStrOmit. cbn [cc_Type cc_TTL] in *.
  destruct (String.eqb l ""); [done|].
  change [("ttl", JStr l)] with (fStr "ttl" l). by rewrite (dec_fStr _ _ _ (fun c v => mkCacheControl (cc_Type c) v)).
Qed.
Lemma cacheControl_zero c : cacheControlOk c -> isNull (print (cacheControlTree c)) = false /\
  decodeStruct cacheControlFields (mkCacheControl "" "") (print (cacheControlTree c)) = Some c.
Proof.
  intros H. destruct (cacheControl_back c (mkCacheControl "" "") H) as [Hn ->]. split; [done|]. destruct c as [t l]. simpl.
  by destruct (String.eqb_spec l "") as [->|].
Qed.
Lemma imageSource_back s a : imageSourceOk s -> isNull (print (imageSourceTree s)) = false /\
  decodeStruct imageSourceFields a (print (imageSourceTree s)) = Some s.
Proof.
  intros (H1 & H2 & H3). split; [done|]. unfold imageSourceTree. rewrite (decodeStruct_printed _ _ 2); [|done|by apply imageSource_fits|const_keys].
  erewrite decodeAll_printed_app by (by apply dec_fStr). erewrite decodeAll_printed_app by (by apply dec_fStr).
  erewrite dec_fStr by done. by destruct s.
Qed.

Lemma blockTree_fits b : blockOk b -> fits 1 (blockTree b) = true.
Proof. intros []. unfold blockTree. fits_fields. Qed.
Lemma block_back b : blockOk b -> blockDecoder no_block (print (blockTree b)) = Some (compactBlock b).
Proof.
  intros H. pose proof (blockTree_fits _ H) as Hf. destruct H. unfold blockDecoder, blockTree in *.
  rewrite (decodeStruct_printed _ _ 1); [|done|exact Hf|const_keys]. clear Hf.
  destruct (String.eqb (cb_Type b) "text"), (String.eqb (cb_Type b) "thinking"); cbv iota; rewrite ?app_nil_l;
    repeat (erewrite decodeAll_printed_app by
      first [by apply dec_fStr|by apply dec_fStrOmit|by apply dec_fRawOmit
            |eapply dec_fPtrOmit; [done..|intros c Hc; first [by apply imageSource_back, bo_source0|by apply cacheControl_zero, bo_cache0]]]);
    erewrite dec_fBoolOmit by done; by destruct b.
Qed.

Lemma blocks_fit l : Forall blockOk l -> fits 0 (JArr (map blockTree l)) = true.
Proof.
  intros H. cbn [fits]. apply andb_true_iff. split; [done|]. apply forallb_forall. intros t Ht. apply in_map_iff in Ht as (b & <- & Hb).
  rewrite Forall_forall in H. apply blockTree_fits, H. by apply list_elem_of_In.
Qed.
(** Blocks that were encoded are decoded as they were, raw texts compact. *)
Lemma blocks_back l : Forall blockOk l -> exists raw, MarshalBlocks (Some l) = Some raw /\
  raw = print (JArr (map blockTree l)) /\ UnmarshalBlocks raw = Some (Some (map compactBlock l)).
Proof.
  intros H. pose proof (blocks_fit _ H) as Hf. eexists. unfold MarshalBlocks, Marshal, tSlice. rewrite (fits_valid _ 0) by done.
  split_and!; [done|done|]. apply UnmarshalSlice_printed; [done|]. eapply Forall_impl; [exact H|]. intros b. apply block_back.
Qed.

Lemma partTree_fits p : fits 1 (partTree p) = true.
Proof. unfold partTree. fits_fields. Qed.
Lemma part_back p : partOk p -> partDecoder no_part (print (partTree p)) = Some p.
Proof.
  intros []. unfold partDecoder, partTree. rewrite (decodeStruct_printed _ _ 1); [|done|apply partTree_fits|const_keys].
  repeat (erewrite decodeAll_printed_app by first [by apply dec_fStr|by apply dec_fStrOmit]).
  erewrite dec_fStrOmit by done. by destruct p.
Qed.
Lemma parts_back l : Forall partOk l -> exists raw, MarshalParts (Some l) = Some raw /\
  raw = print (JArr (map partTree l)) /\ UnmarshalParts raw = Some (Some l).
Proof.
  intros H. assert (Hf : fits 0 (JArr (map partTree l)) = true).
  { cbn [fits]. apply andb_true_iff. split; [done|]. apply forallb_forall. intros t Ht. apply in_map_iff in Ht as (b & <- & _). apply partTree_fits. }
  eexists. unfold MarshalParts, Marshal, tSlice. rewrite (fits_valid _ 0) by done. split_and!; [done|done|].
  unfold UnmarshalParts. erewrite UnmarshalSlice_printed; [by rewrite map_id|done|]. eapply Forall_impl; [exact H|]. intros p. apply part_back.
Qed.

(** What is decoded from a text can be encoded again. *)
Lemma ValidAt_rawOk d s : 2 <= d -> ValidAt d s = true -> rawOk s.
Proof. intros Hd H. right. by eapply ValidAt_depth. Qed.
(** One goal for each field of a struct. *)
Ltac each_field := repeat first [apply Forall_nil_2|apply Forall_cons_2]; cbn [snd].
Lemma cacheControl_decoded d a c s : 0 <= d -> cacheControlOk a -> ValidAt d s = true ->
  decodeStruct cacheControlFields a s = Some c -> cacheControlOk c.
Proof.
  intros Hd Ha Hs. eapply (decodeStruct_inv cacheControlOk d); [done| |done|done]. unfold cacheControlFields.
  each_field; intros b c' raw Hv [H1 H2]; eapply (dStr_inv _ (d + 1)); try done; try lia; by intros v Hv'; split.
Qed.
Lemma imageSource_decoded d a c s : 0 <= d -> imageSourceOk a -> ValidAt d s = true ->
  decodeStruct imageSourceFields a s = Some c -> imageSourceOk c.
Proof.
  intros Hd Ha Hs. eapply (decodeStruct_inv imageSourceOk d); [done| |done|done]. unfold imageSourceFields.
  each_field; intros b c' raw Hv (H1 & H2 & H3); eapply (dStr_inv _ (d + 1)); try done; try lia; by intros v Hv'; split_and!.
Qed.
Lemma no_block_ok : blockOk no_block.
Proof. constructor; try done; by left. Qed.
Lemma block_decoded b raw : ValidAt 1 raw = true -> blockDecoder no_block raw = Some b -> blockOk b.
Proof.
  intros Hr. unfold blockDecoder. eapply (decodeStruct_inv blockOk 1); [done| |done|apply no_block_ok].
  unfold blockFields. each_field; intros a a' s Hs Ha; pose proof Ha as [];
    try (apply (dStr_inv _ 2); [done|intros v Hv; by constructor|done|done]).
  - unfold dPtr. destruct (isNull s); [intros [= <-]; by constructor|].
    destruct (decodeStruct cacheControlFields _ s) as [c|] eqn:E; [|done]. intros [= <-]. constructor; try done. cbn.
    intros c' [= <-]. apply (cacheControl_decoded 2) in E; try done. by destruct (cb_CacheControl a) as [c0|] eqn:Ec; [apply bo_cache0|split].
  - unfold dPtr. destruct (isNull s); [intros [= <-]; by constructor|].
    destruct (decodeStruct imageSourceFields _ s) as [c|] eqn:E; [|done]. intros [= <-]. constructor; try done. cbn.
    intros c' [= <-]. apply (imageSource_decoded 2) in E; try done. by destruct (cb_Source a) as [c0|] eqn:Ec; [apply bo_source0|split_and!].
  - intros [= <-]. constructor; try done. by eapply ValidAt_rawOk.
  - intros [= <-]. constructor; try done. by eapply ValidAt_rawOk.
  - unfold dBool. destruct (isNull s); [by intros [= <-]|]. destruct (boolOf s); [|done]. intros [= <-]. by constructor.
Qed.
Lemma blocks_decoded raw l : UnmarshalBlocks raw = Some l -> Forall blockOk (elems_of l).
Proof. apply UnmarshalSlice_inv. intros r b. apply block_decoded. Qed.

Lemma parts_decoded raw l : UnmarshalParts raw = Some l -> Forall partOk (elems_of l).
Proof.
  apply UnmarshalSlice_inv. intros r p Hr. apply (decodeStruct_inv partOk 1); [done| |done|by constructor].
  unfold partFields. each_field; intros a a' s Hs Ha; pose proof Ha as []; apply (dStr_inv _ 2); [done|intros v Hv; by constructor|done|done..].
Qed.

(** Items: every string is valid, the content a raw text. *)
Record itemOk (i : ResponsesInputItem) : Prop := {
  io_type : utf8_valid (ri_Type i) = true;
  io_role : utf8_valid (ri_Role i) = true;
  io_content : rawOk (ri_Content i);
  io_encrypted : utf8_valid (ri_EncryptedContent i) = true;
  io_call : utf8_valid (ri_CallID i) = true;
  io_name : utf8_valid (ri_Name i) = true;
  io_arguments : utf8_valid (ri_Arguments i) = true;
  io_id : utf8_valid (ri_ID i) = true }.
Lemma items_decoded raw l : UnmarshalItems raw = Some l -> Forall itemOk (elems_of l).
Proof.
  apply UnmarshalSlice_inv. intros r i Hr. unfold itemDecoder.
  destruct (decodeStruct wireFields (no_item, "") r) as [[w out]|] eqn:E; [|done].
  assert (Hw : itemOk (w, out).1).
  { revert E. apply (decodeStruct_inv (fun w => itemOk w.1) 1); [done| |done|by constructor; try done; left].
    unfold wireFields. each_field; intros a a' s Hs Ha; pose proof Ha as [].
    all: try (apply (dStr_inv (fun w => itemOk w.1) 2); [done|intros v Hv; by constructor|done|done]).
    - by intros [= <-].
    - intros [= <-]. constructor; try done. by eapply ValidAt_rawOk. }
  cbn [fst] in Hw. destruct Hw. case_match; [intros [= <-]; by constructor|].
  destruct (UnmarshalString _); intros [= <-]; by constructor.
Qed.

(** An item without a structured output is decoded as it was encoded. *)
Lemma rev_snoc s c : String.rev (s +:+ String c "") = String c (String.rev s).
Proof.
  unfold String.rev. generalize "" at 2 3. induction s as [|x s IH]; intros t; [done|]. norm. simpl. by rewrite IH.
Qed.
Lemma TrimSpace_between x b y : graphic x = true -> graphic y = true -> TrimSpace (String x (b +:+ String y "")) = String x (b +:+ String y "").
Proof.
  assert (Hid : forall n x t, graphic x = true -> trim_with go_spaces n (String x t) = String x t /\ trim_with (String.rev <$> go_spaces) n (String x t) = String x t).
  { intros [|n] z t Hz; [done|]. destruct z as [[] [] [] [] [] [] [] []]; try discriminate Hz; done. }
  intros Hx Hy. unfold TrimSpace, TrimRightSpace, TrimLeftSpace. rewrite (proj1 (Hid _ _ _ Hx)).
  change (String x (b +:+ String y "")) with (String x b +:+ String y ""). rewrite rev_snoc, (proj2 (Hid _ _ _ Hy)), <- rev_snoc.
  apply str_rev_rev.
Qed.
Lemma TrimSpace_quote s : TrimSpace (json_quote s) = json_quote s.
Proof. by apply TrimSpace_between. Qed.
Definition compactItem (i : ResponsesInputItem) : ResponsesInputItem := { i with ri_Content := squeeze (ri_Content i) }.
Lemma itemTree_fits i : rawOk (ri_Content i) -> fits 1 (itemTree i) = true.
Proof. intros H. unfold itemTree. unfold rawOk in H. fits_fields. Qed.
Lemma item_back i : itemOk i -> utf8_valid (ri_Output i) = true -> ri_outputRaw i = "" ->
  itemDecoder no_item (print (itemTree i)) = Some (compactItem i).
Proof.
  intros Hi Ho Hr. pose proof (itemTree_fits i (io_content _ Hi)) as Hf. destruct Hi.
  unfold itemDecoder, itemTree in *. rewrite (decodeStruct_printed _ _ 1); [|done|exact Hf|const_keys]. clear Hf.
  repeat (erewrite decodeAll_printed_app by first [by apply dec_fStr|by apply dec_fStrOmit|by apply dec_fRawOmit]).
  unfold fStrOmit. destruct (String.eqb_spec (ri_Output i) "") as [E|E].
  - cbn. destruct i. simpl in *. by subst.
  - unfold printed. cbn [map decodeAll]. unfold decodeMember. cbn -[json_quote TrimSpace UnmarshalString squeeze].
    rewrite TrimSpace_quote, UnmarshalString_quote by done.
    change (String.eqb (json_quote (ri_Output i)) "") with false. change (String.eqb (json_quote (ri_Output i)) "null") with false.
    destruct i. simpl in *. by subst.
Qed.
Lemma items_back l : Forall (fun i => itemOk i /\ utf8_valid (ri_Output i) = true /\ ri_outputRaw i = "") l ->
  exists raw, MarshalItems (Some l) = Some raw /\ raw = print (JArr (map itemTree l)) /\ UnmarshalItems raw = Some (Some (map compactItem l)).
Proof.
  intros H. assert (Hf : fits 0 (JArr (map itemTree l)) = true).
  { cbn [fits]. apply andb_true_iff. split; [done|]. apply forallb_forall. intros t Ht. apply in_map_iff in Ht as (i & <- & Hi).
    rewrite Forall_forall in H. apply list_elem_of_In in Hi. by apply itemTree_fits, H. }
  eexists. unfold MarshalItems, Marshal, tSlice. rewrite (fits_valid _ 0) by done. split_and!; [done|done|].
  apply UnmarshalSlice_printed; [done|]. eapply Forall_impl; [exact H|]. intros i (Hi & Ho & Hr). by apply item_back.
Qed.
