(* ===== verification/RequestToResponses.v ===== *)
(** * Anthropic requests as Responses requests ([pkg/apicompat/anthropic_to_responses.go])

    The conversion of a Messages request: its system prompt and messages become the
    items of the input, its tools, tool choice, effort and token limit their
    counterparts. *)

From S2P Require Import Prelude Json JsonText JsonCodec Float64 ApiTypes ApiRequests.

(** The errors the converters return; the texts of the library's errors are left out. *)
Inductive convertError := JSONError | ParseInputError | ToolChoiceError.
Definition orJSONError {A} (o : option A) : result convertError A := match o with Some a => Ok a | None => Err JSONError end.
(** A slice that was only appended to: nil while it is empty. *)
Definition sliceOf {A} (l : list A) : gslice A := match l with [] => None | _ => Some l end.
Definition joinBlank (l : list string) : string := String.concat (String (byte 10) (String (byte 10) "")) l.

(** ** The parts *)

Definition input_text (s : string) : ResponsesContentPart := { no_part with cp_Type := "input_text"; cp_Text := s }.
Definition input_image (uri : string) : ResponsesContentPart := { no_part with cp_Type := "input_image"; cp_ImageURL := uri }.
Definition message_item (role content : string) : ResponsesInputItem :=
  { no_item with ri_Type := "message"; ri_Role := role; ri_Content := content }.

Definition isAnthropicBillingHeaderText (text : string) : bool := HasPrefix text "x-anthropic-billing-header: ".

Definition systemPart (b : AnthropicContentBlock) : list ResponsesContentPart :=
  if String.eqb (cb_Type b) "text" && negb (String.eqb (cb_Text b) "") && negb (isAnthropicBillingHeaderText (cb_Text b))
  then [input_text (cb_Text b)] else [].
Definition parseAnthropicSystemContentParts (raw : string) : result convertError (list ResponsesContentPart) :=
  match UnmarshalString raw with
  | Some s => if isAnthropicBillingHeaderText s || String.eqb s "" then Ok [] else Ok [input_text s]
  | None =>
      match UnmarshalBlocks raw with
      | None => Err JSONError
      | Some blocks => Ok (flat_map systemPart (elems_of blocks))
      end
  end.

Definition toResponsesCallID (id : string) : string := id.

Definition anthropicImageToDataURI (src : option AnthropicImageSource) : string :=
  match src with
  | None => ""
  | Some src =>
      if String.eqb (is_Data src) "" then ""
      else
        let mediaType := if String.eqb (is_MediaType src) "" then "image/png" else is_MediaType src in
        "data:" +:+ mediaType +:+ ";base64," +:+ is_Data src
  end.

Definition imagePart (b : AnthropicContentBlock) : list ResponsesContentPart :=
  let uri := anthropicImageToDataURI (cb_Source b) in
  if String.eqb uri "" then [] else [input_image uri].
Definition nonEmptyText (b : AnthropicContentBlock) : list string :=
  if String.eqb (cb_Type b) "text" && negb (String.eqb (cb_Text b) "") then [cb_Text b] else [].

Definition convertToolResultOutput (b : AnthropicContentBlock) : string * list ResponsesContentPart :=
  if String.eqb (cb_Content b) "" then ("(empty)", [])
  else match UnmarshalString (cb_Content b) with
       | Some s => ((if String.eqb s "" then "(empty)" else s), [])
       | None =>
           match UnmarshalBlocks (cb_Content b) with
           | None => ("(empty)", [])
           | Some inner =>
               let text := joinBlank (flat_map nonEmptyText (elems_of inner)) in
               ((if String.eqb text "" then "(empty)" else text),
                flat_map (fun ib => if String.eqb (cb_Type ib) "image" then imagePart ib else []) (elems_of inner))
           end
       end.

Definition isType (t : string) (b : AnthropicContentBlock) : bool := String.eqb (cb_Type b) t.
Definition outputItem (b : AnthropicContentBlock) : ResponsesInputItem :=
  { no_item with ri_Type := "function_call_output"; ri_CallID := toResponsesCallID (cb_ToolUseID b);
                 ri_Output := (convertToolResultOutput b).1 }.
Definition userPart (b : AnthropicContentBlock) : list ResponsesContentPart :=
  if String.eqb (cb_Type b) "text" then (if String.eqb (cb_Text b) "" then [] else [input_text (cb_Text b)])
  else if String.eqb (cb_Type b) "image" then imagePart b
  else [].

Definition anthropicUserToResponses (raw : string) : result convertError (list ResponsesInputItem) :=
  match UnmarshalString raw with
  | Some s =>
      match MarshalParts (Some [input_text s]) with
      | None => Err JSONError
      | Some partsJSON => Ok [message_item "user" partsJSON]
      end
  | None =>
      match UnmarshalBlocks raw with
      | None => Err JSONError
      | Some blocks =>
          let results := List.filter (isType "tool_result") (elems_of blocks) in
          let out := map outputItem results in
          let toolResultImageParts := flat_map (fun b => (convertToolResultOutput b).2) results in
          let parts := flat_map userPart (elems_of blocks) ++ toolResultImageParts in
          match parts with
          | [] => Ok out
          | _ =>
              match MarshalParts (Some parts) with
              | None => Err JSONError
              | Some content => Ok (out ++ [message_item "user" content])
              end
          end
      end
  end.

Definition extractAnthropicTextFromBlocks (blocks : list AnthropicContentBlock) : string :=
  joinBlank (flat_map nonEmptyText blocks).

Definition reasoningItem (b : AnthropicContentBlock) : list ResponsesInputItem :=
  if String.eqb (cb_Type b) "thinking" then
    let sig := TrimSpace (cb_Signature b) in
    if String.eqb sig "" || HasPrefix sig "gAAAA" then []
    else [{ no_item with ri_Type := "reasoning"; ri_EncryptedContent := sig }]
  else [].
Definition callItem (b : AnthropicContentBlock) : ResponsesInputItem :=
  let args := if String.eqb (cb_Input b) "" then "{}" else cb_Input b in
  { no_item with ri_Type := "function_call"; ri_CallID := toResponsesCallID (cb_ID b); ri_Name := cb_Name b; ri_Arguments := args }.

Definition anthropicAssistantToResponses (raw : string) : result convertError (list ResponsesInputItem) :=
  match UnmarshalString raw with
  | Some s =>
      match MarshalParts (Some [output_text s]) with
      | None => Err JSONError
      | Some partsJSON => Ok [message_item "assistant" partsJSON]
      end
  | None =>
      match UnmarshalBlocks raw with
      | None => Err JSONError
      | Some blocks =>
          let reasoning := flat_map reasoningItem (elems_of blocks) in
          let text := extractAnthropicTextFromBlocks (elems_of blocks) in
          let calls := map callItem (List.filter (isType "tool_use") (elems_of blocks)) in
          if String.eqb text "" then Ok (reasoning ++ calls)
          else match MarshalParts (Some [output_text text]) with
               | None => Err JSONError
               | Some partsJSON => Ok (reasoning ++ [message_item "assistant" partsJSON] ++ calls)
               end
      end
  end.

Definition anthropicMsgToResponsesItems (m : AnthropicMessage) : result convertError (list ResponsesInputItem) :=
  if String.eqb (am_Role m) "user" then anthropicUserToResponses (am_Content m)
  else if String.eqb (am_Role m) "assistant" then anthropicAssistantToResponses (am_Content m)
  else anthropicUserToResponses (am_Content m).

Fixpoint convertMessages (msgs : list AnthropicMessage) : result convertError (list ResponsesInputItem) :=
  match msgs with
  | [] => Ok []
  | m :: msgs =>
      match anthropicMsgToResponsesItems m with
      | Err e => Err e
      | Ok items => match convertMessages msgs with Err e => Err e | Ok rest => Ok (items ++ rest) end
      end
  end.
Definition convertAnthropicToResponsesInput (system : string) (msgs : list AnthropicMessage) : result convertError (list ResponsesInputItem) :=
  let sys := if String.eqb system "" then Ok []
             else match parseAnthropicSystemContentParts system with
                  | Err e => Err e
                  | Ok [] => Ok []
                  | Ok sysParts => Ok [message_item "developer" (default "" (MarshalParts (Some sysParts)))]
                  end in
  match sys with
  | Err e => Err e
  | Ok out => match convertMessages msgs with Err e => Err e | Ok items => Ok (out ++ items) end
  end.

(** ** The rest of the request *)

Record toolChoice := mkToolChoice { tc_Type : string; tc_Name : string }.
Definition toolChoiceFields : fields toolChoice :=
  [("type", dStr (fun c v => mkToolChoice v (tc_Name c))); ("name", dStr (fun c v => mkToolChoice (tc_Type c) v))].
(** The marshalled map has its keys in order. *)
Definition convertAnthropicToolChoiceToResponses (raw : string) : result convertError string :=
  match Unmarshal (decodeStruct toolChoiceFields) (mkToolChoice "" "") raw with
  | None => Err JSONError
  | Some tc =>
      let t := tc_Type tc in
      if String.eqb t "auto" then Ok (json_quote "auto")
      else if String.eqb t "any" then Ok (json_quote "required")
      else if String.eqb t "none" then Ok (json_quote "none")
      else if String.eqb t "tool" then orJSONError (Marshal (JObj [("name", JStr (tc_Name tc)); ("type", JStr "function")]))
      else Ok raw
  end.

Definition mapAnthropicEffortToResponses (effort : string) : string := if String.eqb effort "max" then "xhigh" else effort.
Definition boolPtr (v : bool) : option bool := Some v.
Definition isReasoningModel (model : string) : bool := HasPrefix model "gpt-5".

Definition emptyObjectSchema : string := qs ["{"; "type"; ":"; "object"; ","; "properties"; ":{}}"].
Definition normalizeToolParameters (schema : string) : string :=
  if String.eqb schema "" || String.eqb schema "null" then emptyObjectSchema
  else match UnmarshalRawMap schema with
       | None => schema
       | Some m =>
           if negb (String.eqb (default "" (m !! "type")) (json_quote "object")) then schema
           else match m !! "properties" with
                | Some _ => schema
                | None => MarshalRawMap (<["properties" := "{}"]> m)
                end
       end.

Definition convertAnthropicToolsToResponses (tools : list AnthropicTool) : list ResponsesTool :=
  map (fun t =>
    if HasPrefix (at_Type t) "web_search" then mkTool "web_search" "" "" "" None [] [] [] [] "" "" None None
    else mkTool "function" (at_Name t) (at_Description t) (normalizeToolParameters (at_InputSchema t)) (boolPtr false)
           [] [] [] [] "" "" None None) tools.

Definition AnthropicToResponses (req : AnthropicRequest) : result convertError ResponsesRequest :=
  match convertAnthropicToResponsesInput (aq_System req) (aq_Messages req) with
  | Err e => Err e
  | Ok input =>
      match MarshalItems (sliceOf input) with
      | None => Err JSONError
      | Some inputJSON =>
          let reasoning := isReasoningModel (aq_Model req) in
          let effort := match aq_OutputConfig req with
                        | Some c => if String.eqb (oc_Effort c) "" then "medium" else oc_Effort c
                        | None => "medium"
                        end in
          let out :=
            { no_responses_request with
                rq_Model := aq_Model req; rq_Input := inputJSON; rq_Stream := aq_Stream req;
                rq_Include := ["reasoning.encrypted_content"];
                rq_Temperature := (if reasoning then None else aq_Temperature req);
                rq_TopP := (if reasoning then None else aq_TopP req);
                rq_Store := Some false; rq_ParallelToolCalls := Some true;
                rq_Text := Some (mkText "" "medium");
                rq_MaxOutputTokens := (if 0 <? aq_MaxTokens req then Some (if aq_MaxTokens req <? minMaxOutputTokens then minMaxOutputTokens else aq_MaxTokens req) else None);
                rq_Tools := convertAnthropicToolsToResponses (aq_Tools req);
                rq_Reasoning := Some (mkReasoning (mapAnthropicEffortToResponses effort) "auto") } in
          if String.eqb (aq_ToolChoice req) "" then Ok out
          else match convertAnthropicToolChoiceToResponses (aq_ToolChoice req) with
               | Err _ => Err ToolChoiceError
               | Ok tc => Ok { out with rq_ToolChoice := tc }
               end
      end
  end.
