(* ===== verification/RequestToAnthropic.v ===== *)
(** * Responses requests as Anthropic requests ([pkg/apicompat/responses_to_anthropic_request.go])

    The conversion of a Responses request: its instructions and the items of its
    input become a system prompt and messages, which are repaired so that every
    tool result follows its tool use and the roles alternate. *)

From S2P Require Import Prelude Json JsonText JsonCodec Float64 ApiTypes ApiRequests RequestToResponses.

(** ** Contents *)

Definition textBlock (s : string) : AnthropicContentBlock := { no_block with cb_Type := "text"; cb_Text := s }.
(** [json.Marshal] of a value without raw texts. *)
Definition MarshalString (s : string) : string := json_quote s.

Fixpoint cutAt (c : ascii) (s : string) : option (string * string) :=
  match s with
  | EmptyString => None
  | String x s => if Ascii.eqb x c then Some ("", s) else match cutAt c s with Some (a, b) => Some (String x a, b) | None => None end
  end.
Definition dataURIToAnthropicImageSource (dataURI : string) : option AnthropicImageSource :=
  match CutPrefix "data:" dataURI with
  | None => None
  | Some rest =>
      match cutAt ";" rest with
      | None => None
      | Some (mediaType, rest) =>
          match CutPrefix "base64," rest with
          | None => None
          | Some data => Some (mkImageSource "base64" mediaType data)
          end
      end
  end.

Definition isTextPart (p : ResponsesContentPart) : bool :=
  String.eqb (cp_Type p) "input_text" || String.eqb (cp_Type p) "output_text" || String.eqb (cp_Type p) "text".
Definition imageBlock (uri : string) : list AnthropicContentBlock :=
  match dataURIToAnthropicImageSource uri with
  | Some source => [{ no_block with cb_Type := "image"; cb_Source := Some source }]
  | None => []
  end.
Definition textBlocks (text : string) : list AnthropicContentBlock := if String.eqb text "" then [] else [textBlock text].

Definition outputBlocks (p : ResponsesContentPart) : list AnthropicContentBlock :=
  if isTextPart p then textBlocks (cp_Text p)
  else if String.eqb (cp_Type p) "input_image" then imageBlock (cp_ImageURL p)
  else [].
Definition responsesFunctionOutputToAnthropicContent (item : ResponsesInputItem) : string :=
  if String.eqb (ri_outputRaw item) "" then
    MarshalString (if String.eqb (ri_Output item) "" then "(empty)" else ri_Output item)
  else match UnmarshalParts (ri_outputRaw item) with
       | Some parts =>
           match flat_map outputBlocks (elems_of parts), elems_of parts with
           | (_ :: _) as blocks, _ => default "" (MarshalBlocks (Some blocks))
           | [], [] => MarshalString "(empty)"
           | [], _ => MarshalString (ri_Output item)
           end
       | None => MarshalString (ri_Output item)
       end.

Definition extractTextFromContent (raw : string) : string :=
  if String.eqb raw "" then ""
  else match UnmarshalString raw with
       | Some s => s
       | None =>
           match UnmarshalParts raw with
           | Some parts => joinBlank (flat_map (fun p => if isTextPart p && negb (String.eqb (cp_Text p) "") then [cp_Text p] else []) (elems_of parts))
           | None => ""
           end
       end.

Definition parseContentBlocks (raw : string) : gslice AnthropicContentBlock :=
  match UnmarshalBlocks raw with
  | Some blocks => blocks
  | None => match UnmarshalString raw with Some s => Some [textBlock s] | None => None end
  end.

Definition anthropicContentIsEmpty (content : string) : bool :=
  let trimmed := TrimSpace content in
  String.eqb trimmed "" || String.eqb trimmed "null" || String.eqb trimmed (MarshalString "") || String.eqb trimmed "[]".
Definition anthropicContentIsOnlyBlankText (content : string) : bool :=
  match elems_of (parseContentBlocks content) with
  | [] => false
  | blocks => forallb (fun b => String.eqb (cb_Type b) "text" && String.eqb (TrimSpace (cb_Text b)) "") blocks
  end.

Definition userBlocks (p : ResponsesContentPart) : list AnthropicContentBlock :=
  if String.eqb (cp_Type p) "input_text" || String.eqb (cp_Type p) "text" then textBlocks (cp_Text p)
  else if String.eqb (cp_Type p) "input_image" then imageBlock (cp_ImageURL p)
  else [].
Definition convertResponsesUserToAnthropicContent (raw : string) : result convertError string :=
  if String.eqb raw "" then Ok (MarshalString "")
  else match UnmarshalString raw with
       | Some s => Ok (MarshalString s)
       | None =>
           match UnmarshalParts raw with
           | None => Ok raw
           | Some parts =>
               match flat_map userBlocks (elems_of parts) with
               | [] => Ok (MarshalString "")
               | blocks => orJSONError (MarshalBlocks (Some blocks))
               end
           end
       end.

Definition assistantBlocks (p : ResponsesContentPart) : list AnthropicContentBlock :=
  if String.eqb (cp_Type p) "output_text" || String.eqb (cp_Type p) "text" then textBlocks (cp_Text p) else [].
Definition convertResponsesAssistantToAnthropicContent (raw : string) : result convertError string :=
  if String.eqb raw "" then orJSONError (MarshalBlocks (Some [textBlock ""]))
  else match UnmarshalString raw with
       | Some s => orJSONError (MarshalBlocks (Some [textBlock s]))
       | None =>
           match UnmarshalParts raw with
           | None => Ok raw
           | Some parts =>
               let blocks := match flat_map assistantBlocks (elems_of parts) with [] => [textBlock ""] | blocks => blocks end in
               orJSONError (MarshalBlocks (Some blocks))
           end
       end.

Definition fromResponsesCallIDToAnthropic (id : string) : string :=
  let synthetic := if negb (HasPrefix id "toolu_") && negb (HasPrefix id "call_") then "toolu_" +:+ id else id in
  match CutPrefix "fc_" id with
  | Some after => if HasPrefix after "toolu_" || HasPrefix after "call_" then after else synthetic
  | None => synthetic
  end.

(** ** Messages *)

Definition anthropicMessageFromBlocks (role : string) (blocks : list AnthropicContentBlock) : AnthropicMessage :=
  mkMessage role (default "" (MarshalBlocks (Some blocks))).

(** The last message, if the list is not empty, and those before it. *)
Definition mergeStep (merged : list AnthropicMessage) (msg : AnthropicMessage) : list AnthropicMessage :=
  match last merged with
  | Some prev =>
      if String.eqb (am_Role prev) (am_Role msg) then
        let combined := gappend (parseContentBlocks (am_Content prev)) (parseContentBlocks (am_Content msg)) in
        removelast merged ++ [mkMessage (am_Role prev) (default "" (MarshalBlocks combined))]
      else merged ++ [msg]
  | None => [msg]
  end.
Definition mergeConsecutiveMessages (messages : list AnthropicMessage) : list AnthropicMessage :=
  if (length messages <=? 1)%nat then messages else foldl mergeStep [] messages.

(** The tool results of the user messages by their id; the last one wins. *)
Definition indexResults (messages : list AnthropicMessage) : gmap string AnthropicContentBlock :=
  foldl (fun results m =>
    if String.eqb (am_Role m) "user" then
      foldl (fun results b =>
        if isType "tool_result" b && negb (String.eqb (cb_ToolUseID b) "") then <[cb_ToolUseID b := b]> results else results)
        results (elems_of (parseContentBlocks (am_Content m)))
    else results) ∅ messages.

Definition pairMessage (results : gmap string AnthropicContentBlock) (m : AnthropicMessage) : list AnthropicMessage :=
  let blocks := elems_of (parseContentBlocks (am_Content m)) in
  if String.eqb (am_Role m) "assistant" then
    let toolUses := List.filter (isType "tool_use") blocks in
    let others := List.filter (fun b => negb (isType "tool_use" b)) blocks in
    match toolUses with
    | [] => [m]
    | _ =>
        let kept := List.filter (fun tu => match results !! cb_ID tu with Some _ => true | None => false end) toolUses in
        match kept with
        | [] => match others with [] => [] | _ => [anthropicMessageFromBlocks "assistant" others] end
        | _ => [anthropicMessageFromBlocks "assistant" (others ++ kept);
                anthropicMessageFromBlocks "user" (omap (fun tu => results !! cb_ID tu) kept)]
        end
    end
  else if String.eqb (am_Role m) "user" then
    let nonResult := List.filter (fun b => negb (isType "tool_result" b)) blocks in
    if existsb (isType "tool_result") blocks then
      match nonResult with [] => [] | _ => [anthropicMessageFromBlocks "user" nonResult] end
    else [m]
  else [m].
Definition normalizeAnthropicToolPairing (messages : list AnthropicMessage) : list AnthropicMessage :=
  flat_map (pairMessage (indexResults messages)) messages.

(** What one item adds to the system prompt or to the messages. *)
Definition convertItem (item : ResponsesInputItem) : result convertError (list string * list AnthropicMessage) :=
  let userLike :=
    match convertResponsesUserToAnthropicContent (ri_Content item) with
    | Err e => Err e
    | Ok content => if anthropicContentIsEmpty content then Ok ([], []) else Ok ([], [mkMessage "user" content])
    end in
  if String.eqb (ri_Role item) "system" || String.eqb (ri_Role item) "developer" then
    let text := extractTextFromContent (ri_Content item) in
    Ok ((if String.eqb text "" then [] else [text]), [])
  else if String.eqb (ri_Type item) "function_call" then
    let input := if String.eqb (ri_Arguments item) "" then "{}" else ri_Arguments item in
    let block := { no_block with cb_Type := "tool_use"; cb_ID := fromResponsesCallIDToAnthropic (ri_CallID item);
                                 cb_Name := ri_Name item; cb_Input := input } in
    Ok ([], [anthropicMessageFromBlocks "assistant" [block]])
  else if String.eqb (ri_Type item) "function_call_output" then
    let block := { no_block with cb_Type := "tool_result"; cb_ToolUseID := fromResponsesCallIDToAnthropic (ri_CallID item);
                                 cb_Content := responsesFunctionOutputToAnthropicContent item } in
    Ok ([], [anthropicMessageFromBlocks "user" [block]])
  else if String.eqb (ri_Type item) "reasoning" then Ok ([], [])
  else if String.eqb (ri_Role item) "user" then userLike
  else if String.eqb (ri_Role item) "assistant" then
    match convertResponsesAssistantToAnthropicContent (ri_Content item) with
    | Err e => Err e
    | Ok content =>
        if anthropicContentIsEmpty content || anthropicContentIsOnlyBlankText content then Ok ([], [])
        else Ok ([], [mkMessage "assistant" content])
    end
  else if String.eqb (ri_Content item) "" then Ok ([], [])
  else userLike.
Fixpoint convertItems (items : list ResponsesInputItem) : result convertError (list string * list AnthropicMessage) :=
  match items with
  | [] => Ok ([], [])
  | item :: items =>
      match convertItem item with
      | Err e => Err e
      | Ok (sys, msgs) => match convertItems items with Err e => Err e | Ok (sys', msgs') => Ok (sys ++ sys', msgs ++ msgs') end
      end
  end.

Definition repairMessages (messages : list AnthropicMessage) : list AnthropicMessage :=
  mergeConsecutiveMessages (normalizeAnthropicToolPairing (mergeConsecutiveMessages messages)).
Definition systemText (systemParts : list string) : string :=
  match systemParts with [] => "" | _ => MarshalString (joinBlank systemParts) end.
Definition convertResponsesInputToAnthropic (instructions inputRaw : string) : result convertError (string * list AnthropicMessage) :=
  let systemParts := if String.eqb (TrimSpace instructions) "" then [] else [TrimSpace instructions] in
  match UnmarshalString inputRaw with
  | Some inputStr => Ok (systemText systemParts, [mkMessage "user" (MarshalString inputStr)])
  | None =>
      match UnmarshalItems inputRaw with
      | None => Err ParseInputError
      | Some items =>
          match convertItems (elems_of items) with
          | Err e => Err e
          | Ok (sys, messages) => Ok (systemText (systemParts ++ sys), repairMessages messages)
          end
      end
  end.

(** ** The rest of the request *)

Definition defaultThinkingBudget (effort : string) : Z :=
  if String.eqb effort "low" then 1024 else if String.eqb effort "medium" then 4096
  else if String.eqb effort "high" then 10240 else if String.eqb effort "max" then 32768 else 10240.
Definition mapResponsesEffortToAnthropic (effort : string) : string := if String.eqb effort "xhigh" then "max" else effort.

Definition normalizeAnthropicInputSchema (schema : string) : string :=
  let trimmed := TrimSpace schema in
  if String.eqb trimmed "" || String.eqb trimmed "null" then emptyObjectSchema
  else match UnmarshalRawMap schema with
       | None => emptyObjectSchema
       | Some m =>
           let withProperties m := match m !! "properties" with Some _ => m | None => <["properties" := "{}"]> m end in
           match m !! "type" with
           | Some typeRaw =>
               if String.eqb (TrimSpace typeRaw) "" || String.eqb typeRaw "null"
               then MarshalRawMap (withProperties (<["type" := json_quote "object"]> m))
               else match UnmarshalString typeRaw with
                    | Some typ => if String.eqb typ "object" then MarshalRawMap (withProperties m) else emptyObjectSchema
                    | None => emptyObjectSchema
                    end
           | None => MarshalRawMap (withProperties (<["type" := json_quote "object"]> m))
           end
       end.

Definition convertResponsesToAnthropicTools (tools : list ResponsesTool) : list AnthropicTool :=
  map (fun t =>
    let ty := to_Type t in
    if String.eqb ty "web_search" || String.eqb ty "google_search" || String.eqb ty "web_search_20250305"
    then mkAnthropicTool "web_search_20250305" "web_search" "" "" None
    else mkAnthropicTool (if String.eqb ty "function" || String.eqb ty "custom" then "" else ty)
           (to_Name t) (to_Description t) (normalizeAnthropicInputSchema (to_Parameters t)) None) tools.

Record functionChoice := mkFunctionChoice { fc_Type : string; fc_Name : string; fc_FunctionName : string }.
Definition functionChoiceFields : fields functionChoice :=
  [("type", dStr (fun c v => mkFunctionChoice v (fc_Name c) (fc_FunctionName c)));
   ("name", dStr (fun c v => mkFunctionChoice (fc_Type c) v (fc_FunctionName c)));
   ("function", dIn fc_FunctionName (fun c v => mkFunctionChoice (fc_Type c) (fc_Name c) v)
                    (decodeStruct [("name", dStr (fun (_ : string) v => v))]))].
Definition typeOnly (t : string) : string := print (JObj [("type", JStr t)]).
Definition convertResponsesToAnthropicToolChoice (raw : string) : result convertError string :=
  match UnmarshalString raw with
  | Some s =>
      Ok (if String.eqb s "auto" then typeOnly "auto" else if String.eqb s "required" then typeOnly "any"
          else if String.eqb s "none" then typeOnly "none" else raw)
  | None =>
      match Unmarshal (decodeStruct functionChoiceFields) (mkFunctionChoice "" "" "") raw with
      | Some tc =>
          if String.eqb (fc_Type tc) "function" then
            let name := if String.eqb (TrimSpace (fc_Name tc)) "" then TrimSpace (fc_FunctionName tc) else TrimSpace (fc_Name tc) in
            if String.eqb name "" then Ok raw
            else orJSONError (Marshal (JObj [("name", JStr name); ("type", JStr "tool")]))
          else Ok raw
      | None => Ok raw
      end
  end.

Definition ResponsesToAnthropicRequest (req : ResponsesRequest) : result convertError AnthropicRequest :=
  match convertResponsesInputToAnthropic (rq_Instructions req) (rq_Input req) with
  | Err e => Err e
  | Ok (system, messages) =>
      let maxTokens := match rq_MaxOutputTokens req with Some v => if 0 <? v then v else 0 | None => 0 end in
      let reasoning := match rq_Reasoning req with Some r => if String.eqb (rg_Effort r) "" then None else Some (mapResponsesEffortToAnthropic (rg_Effort r)) | None => None end in
      let out :=
        {| aq_Model := rq_Model req;
           aq_MaxTokens := (if maxTokens =? 0 then 8192 else maxTokens);
           aq_System := system;
           aq_Messages := messages;
           aq_Tools := convertResponsesToAnthropicTools (rq_Tools req);
           aq_Stream := rq_Stream req;
           aq_Temperature := rq_Temperature req;
           aq_TopP := rq_TopP req;
           aq_StopSeqs := [];
           aq_Thinking := match reasoning with
                          | Some effort => if String.eqb effort "low" then None else Some (mkThinking "enabled" (defaultThinkingBudget effort))
                          | None => None
                          end;
           aq_ToolChoice := "";
           aq_Metadata := "";
           aq_OutputConfig := mkOutputConfig <$> reasoning |} in
      if String.eqb (rq_ToolChoice req) "" then Ok out
      else match convertResponsesToAnthropicToolChoice (rq_ToolChoice req) with
           | Err _ => Err ToolChoiceError
           | Ok tc => Ok { out with aq_ToolChoice := tc }
           end
  end.
