(* ===== verification/ToolPairing.v ===== *)
(** * The messages of a converted request are well paired

    What the repair of a conversation guarantees: roles alternate, and the tool
    results of a user message are exactly the answers to the tool uses of the
    message before it.  The texts of the messages are abstracted to what their
    blocks are; merging and pairing refine the operations on that abstraction. *)

From S2P Require Import Prelude Json JsonText JsonCodec ApiTypes ApiRequests RequestToResponses RequestToAnthropic.

(** ** The abstraction *)

Inductive ablock := Use (id : string) | Res (id : string) | Other.
Definition absBlock (b : AnthropicContentBlock) : ablock :=
  if isType "tool_use" b then Use (cb_ID b) else if isType "tool_result" b then Res (cb_ToolUseID b) else Other.
Definition amessage : Type := string * list ablock.
(** A message as its role and what [f] shows of its blocks. *)
Definition viewOf {B} (f : AnthropicContentBlock -> B) (m : AnthropicMessage) : string * list B :=
  (am_Role m, map f (elems_of (parseContentBlocks (am_Content m)))).
Definition absMessage : AnthropicMessage -> amessage := viewOf absBlock.
Definition uses (l : list ablock) : list string := omap (fun b => match b with Use id => Some id | _ => None end) l.
Definition ress (l : list ablock) : list string := omap (fun b => match b with Res id => Some id | _ => None end) l.
(** The ids of the tool uses and of the tool results of a message. *)
Definition toolUses (m : AnthropicMessage) : list string := uses (absMessage m).2.
Definition toolResults (m : AnthropicMessage) : list string := ress (absMessage m).2.

Lemma parse_ok raw : Forall blockOk (elems_of (parseContentBlocks raw)).
Proof.
  unfold parseContentBlocks. destruct (UnmarshalBlocks raw) as [l|] eqn:E; [by eapply blocks_decoded|].
  destruct (UnmarshalString raw) as [s|] eqn:Es; [|constructor]. constructor; [|constructor].
  apply UnmarshalString_valid in Es. constructor; try done; by left.
Qed.
Lemma absBlock_compact b : absBlock (compactBlock b) = absBlock b.
Proof. by destruct b. Qed.
Lemma elems_gappend {A} (a b : gslice A) : elems_of (gappend a b) = elems_of a ++ elems_of b.
Proof. destruct a as [l|], b as [k|]; try done. by destruct k. Qed.
Lemma last_rev {A} (l : list A) : last l = head (rev l).
Proof. induction l as [|x l IH] using rev_ind; [done|]. rewrite last_snoc, rev_unit. done. Qed.

(** ** The abstract operations; the list of the merged messages is reversed *)

Section views.
Context {B : Type}.

Definition amerge1 (r : list (string * list B)) (m : string * list B) : list (string * list B) :=
  match r with
  | p :: r' => if String.eqb p.1 m.1 then (p.1, p.2 ++ m.2) :: r' else m :: r
  | [] => [m]
  end.
Definition amerge (l : list (string * list B)) : list (string * list B) := rev (foldl amerge1 [] l).

(** A view that does not see white space in raw texts. *)
Context (f : AnthropicContentBlock -> B) (Hf : forall b, blockOk b -> f (compactBlock b) = f b).

(** Encoded blocks read as the same blocks. *)
Lemma parse_marshal (l : gslice AnthropicContentBlock) : Forall blockOk (elems_of l) ->
  map f (elems_of (parseContentBlocks (default "" (MarshalBlocks l)))) = map f (elems_of l).
Proof.
  destruct l as [l|]; [|done]. change (elems_of (Some l)) with l. intros H. destruct (blocks_back l H) as (raw & -> & _ & E). unfold parseContentBlocks.
  change (default "" (Some raw)) with raw. rewrite E. cbn. rewrite map_map. clear E. induction H as [|b l' Hb _ IH]; [done|].
  cbn [map]. by rewrite Hf, IH.
Qed.
Lemma view_fromBlocks role l : Forall blockOk l -> viewOf f (anthropicMessageFromBlocks role l) = (role, map f l).
Proof. intros H. unfold viewOf, anthropicMessageFromBlocks. cbn [am_Role am_Content]. f_equal. by apply (parse_marshal (Some l)). Qed.

Lemma view_mergeStep merged m : rev (map (viewOf f) (mergeStep merged m)) = amerge1 (rev (map (viewOf f) merged)) (viewOf f m).
Proof.
  unfold mergeStep. rewrite last_rev. destruct (rev merged) as [|p r] eqn:E.
  - apply (f_equal (@rev _)) in E. rewrite rev_involutive in E. by subst.
  - assert (Em : merged = rev r ++ [p]) by (apply (f_equal (@rev _)) in E; by rewrite rev_involutive in E).
    rewrite Em, !map_app, !rev_app_distr. cbn [head map rev app amerge1]. destruct (String.eqb (am_Role p) (am_Role m)) eqn:Er.
    + rewrite removelast_last, map_app, rev_app_distr. cbn [map rev app viewOf fst snd]. rewrite Er. f_equal.
      unfold viewOf. cbn [am_Role am_Content fst snd]. f_equal.
      rewrite parse_marshal; [by rewrite elems_gappend, map_app|]. rewrite elems_gappend. apply Forall_app; split; apply parse_ok.
    + rewrite !map_app, !rev_app_distr. cbn [map rev app viewOf fst snd]. by rewrite Er.
Qed.
Lemma view_merge_fold ms merged : rev (map (viewOf f) (foldl mergeStep merged ms)) = foldl amerge1 (rev (map (viewOf f) merged)) (map (viewOf f) ms).
Proof. revert merged. induction ms as [|m ms IH]; intros merged; [done|]. cbn [foldl map]. by rewrite IH, view_mergeStep. Qed.
Lemma view_merge ms : map (viewOf f) (mergeConsecutiveMessages ms) = amerge (map (viewOf f) ms).
Proof.
  unfold mergeConsecutiveMessages, amerge. destruct (Nat.leb_spec (length ms) 1).
  - destruct ms as [|m [|m2 ms]]; [done|done|simpl in *; lia].
  - pose proof (view_merge_fold ms []) as E. change (rev (map (viewOf f) [])) with ([] : list (string * list B)) in E. by rewrite <- E, rev_involutive.
Qed.
End views.

Lemma abs_fromBlocks role l : Forall blockOk l -> absMessage (anthropicMessageFromBlocks role l) = (role, map absBlock l).
Proof. apply view_fromBlocks. intros b _. apply absBlock_compact. Qed.
Lemma abs_merge ms : map absMessage (mergeConsecutiveMessages ms) = amerge (map absMessage ms).
Proof. apply view_merge. intros b _. apply absBlock_compact. Qed.

(** A message after pairing, abstractly. *)
Inductive chunk : list amessage -> Prop :=
| chunk_none : chunk []
| chunk_assistant l : uses l = [] -> chunk [("assistant", l)]
| chunk_calls l k : ress k = uses l -> chunk [("assistant", l); ("user", k)]
| chunk_user l : ress l = [] -> chunk [("user", l)].

Lemma index_ids ms id b : indexResults ms !! id = Some b -> blockOk b /\ absBlock b = Res id.
Proof.
  unfold indexResults. set (P := fun (r : gmap string AnthropicContentBlock) => forall id b, r !! id = Some b -> blockOk b /\ absBlock b = Res id).
  assert (H : P (indexResults ms)); [|by apply H]. unfold indexResults.
  assert (H0 : P ∅) by (intros ? ?; by rewrite lookup_empty). revert H0. generalize (∅ : gmap string AnthropicContentBlock).
  induction ms as [|m ms IH]; intros r Hr; [done|]. cbn [foldl]. apply IH. destruct (String.eqb (am_Role m) "user"); [|done].
  pose proof (parse_ok (am_Content m)) as Hl. revert r Hr. clear IH. induction Hl as [|x l Hx Hl IHl]; intros r Hr; [done|]. cbn [foldl]. apply IHl.
  destruct (isType "tool_result" x && negb (String.eqb (cb_ToolUseID x) "")) eqn:E; [|done].
  apply andb_true_iff in E as [E _]. intros id' b' Hb. destruct (decide (cb_ToolUseID x = id')) as [<-|Hne].
  - rewrite lookup_insert_eq in Hb. injection Hb as <-. split; [done|]. unfold absBlock. rewrite E.
    unfold isType in *. apply String.eqb_eq in E. by rewrite E.
  - rewrite lookup_insert_ne in Hb by done. by apply Hr.
Qed.

Lemma uses_app l k : uses (l ++ k) = uses l ++ uses k.
Proof. apply omap_app. Qed.
Lemma ress_app l k : ress (l ++ k) = ress l ++ ress k.
Proof. apply omap_app. Qed.
(** The blocks of one kind, and of the others. *)
Lemma uses_filter l : uses (map absBlock (List.filter (fun b => negb (isType "tool_use" b)) l)) = [].
Proof. induction l as [|b l IH]; [done|]. simpl. destruct (isType "tool_use" b) eqn:E; [done|]. cbn. unfold absBlock at 1. rewrite E. by destruct (isType "tool_result" b). Qed.
Lemma ress_filter l : ress (map absBlock (List.filter (fun b => negb (isType "tool_result" b)) l)) = [].
Proof.
  induction l as [|b l IH]; [done|]. simpl. destruct (isType "tool_result" b) eqn:E; [done|]. cbn. unfold absBlock at 1.
  destruct (isType "tool_use" b); [done|]. by rewrite E.
Qed.
Lemma uses_none l : List.filter (isType "tool_use") l = [] -> uses (map absBlock l) = [].
Proof.
  induction l as [|b l IH]; [done|]. simpl. destruct (isType "tool_use" b) eqn:E; [done|]. intros H. cbn. unfold absBlock at 1. rewrite E.
  by destruct (isType "tool_result" b); apply IH.
Qed.
Lemma ress_none l : existsb (isType "tool_result") l = false -> ress (map absBlock l) = [].
Proof.
  induction l as [|b l IH]; [done|]. simpl. intros H. apply orb_false_iff in H as [E H]. cbn. unfold absBlock at 1. rewrite E.
  by destruct (isType "tool_use" b); apply IH.
Qed.
Lemma Forall_filter_b {A} (P : A -> Prop) f (l : list A) : Forall P l -> Forall P (List.filter f l).
Proof. intros H. apply Forall_forall. intros x Hx. rewrite Forall_forall in H. apply H. apply list_elem_of_In, filter_In in Hx as [Hx _]. by apply list_elem_of_In. Qed.

(** Answered tool uses and their results. *)
Lemma calls_chunk ms others kept :
  Forall blockOk others -> uses (map absBlock others) = [] ->
  Forall (fun tu => blockOk tu /\ absBlock tu = Use (cb_ID tu) /\ is_Some (indexResults ms !! cb_ID tu)) kept ->
  chunk (map absMessage [anthropicMessageFromBlocks "assistant" (others ++ kept);
                         anthropicMessageFromBlocks "user" (omap (fun tu => indexResults ms !! cb_ID tu) kept)]).
Proof.
  intros Ho Hu Hk.
  assert (H : Forall blockOk kept /\ Forall blockOk (omap (fun tu => indexResults ms !! cb_ID tu) kept) /\
    ress (map absBlock (omap (fun tu => indexResults ms !! cb_ID tu) kept)) = uses (map absBlock kept)).
  { induction Hk as [|x l (Hx & Ex & b & Hb) Hl (IH1 & IH2 & IH3)]; [by split_and!; constructor|]. cbn [omap list_omap]. rewrite Hb.
    destruct (index_ids _ _ _ Hb) as [Hbo Eb]. split_and!; [by constructor|by constructor|]. cbn [map]. unfold ress, uses in *. cbn [omap list_omap].
    rewrite Eb, Ex. f_equal. apply IH3. }
  destruct H as (H1 & H2 & H3). cbn [map]. rewrite !abs_fromBlocks by (try apply Forall_app; done). constructor.
  by rewrite map_app, uses_app, Hu.
Qed.

Definition userOrAssistant (m : AnthropicMessage) : Prop := am_Role m = "user" \/ am_Role m = "assistant".
Lemma pairMessage_chunk ms m : userOrAssistant m -> chunk (map absMessage (pairMessage (indexResults ms) m)).
Proof.
  intros Hm. unfold pairMessage. pose proof (parse_ok (am_Content m)) as Hok.
  set (l := elems_of (parseContentBlocks (am_Content m))) in *.
  assert (Hself : absMessage m = (am_Role m, map absBlock l)) by done. clearbody l.
  destruct Hm as [E|E]; rewrite E in *.
  - change (String.eqb "user" "assistant") with false. change (String.eqb "user" "user") with true. cbv iota.
    destruct (existsb (isType "tool_result") l) eqn:Ex.
    2: { cbn [map]. rewrite Hself. constructor. by apply ress_none. }
    pose proof (Forall_filter_b _ (fun b => negb (isType "tool_result" b)) _ Hok) as Hf.
    destruct (List.filter _ l) as [|b k] eqn:Ek; [constructor|]. cbn [map]. rewrite abs_fromBlocks by done. constructor.
    rewrite <- Ek. apply ress_filter.
  - change (String.eqb "assistant" "assistant") with true. cbv iota.
    destruct (List.filter (isType "tool_use") l) as [|tu tus] eqn:Et.
    { cbn [map]. rewrite Hself. constructor. by apply uses_none. }
    rewrite <- Et. set (kept := List.filter _ (List.filter (isType "tool_use") l)).
    pose proof (Forall_filter_b _ (fun b => negb (isType "tool_use" b)) _ Hok) as Hothers.
    destruct kept as [|x kept'] eqn:Ek.
    + destruct (List.filter (fun b => negb (isType "tool_use" b)) l) as [|b k] eqn:Eo; [constructor|].
      cbn [map]. rewrite abs_fromBlocks by done. constructor. rewrite <- Eo. apply uses_filter.
    + rewrite <- Ek. apply calls_chunk; [done|apply uses_filter|]. apply Forall_forall. intros y Hy. subst kept.
      apply list_elem_of_In, filter_In in Hy as [Hy Hr]. apply filter_In in Hy as [Hy Ht].
      rewrite Forall_forall in Hok. split_and!; [by apply Hok, list_elem_of_In|unfold absBlock; by rewrite Ht|].
      destruct (indexResults ms !! cb_ID y); [by eexists|done].
Qed.

(** ** Merging keeps what pairing made *)

(** Reversed conversations: the newest message first. *)
Inductive aok : list amessage -> Prop :=
| aok_nil : aok []
| aok_assistant l r : aok r -> match r with [] => True | p :: _ => p.1 = "user" end -> aok (("assistant", l) :: r)
| aok_first l : ress l = [] -> aok [("user", l)]
| aok_user l k r : ress l = uses k -> aok (("assistant", k) :: r) -> aok (("user", l) :: ("assistant", k) :: r).
(** No tool use of the newest message waits for an answer. *)
Definition settled (r : list amessage) : Prop := match r with p :: _ => p.1 = "assistant" -> uses p.2 = [] | [] => True end.

Lemma aok_role p r : aok (p :: r) -> p.1 = "assistant" \/ p.1 = "user".
Proof. inversion 1; auto. Qed.
Lemma add_assistant r l : aok r -> settled r -> exists k, amerge1 r ("assistant", l) = ("assistant", k) :: tail (amerge1 r ("assistant", l)) /\
  uses k = uses l /\ aok (amerge1 r ("assistant", l)).
Proof.
  intros H Hs. destruct r as [|p r]; [exists l; split_and!; [done|done|by constructor]|]. cbn [amerge1].
  destruct (aok_role _ _ H) as [E|E]; cbn [fst]; rewrite E.
  - change (String.eqb "assistant" "assistant") with true. cbv iota. eexists. split_and!; [done| |].
    + rewrite uses_app. by rewrite (Hs E).
    + destruct p as [ro k]. cbn in E. subst ro. inversion H; subst. by constructor.
  - change (String.eqb "user" "assistant") with false. cbv iota. exists l. split_and!; [done|done|by constructor].
Qed.
Lemma add_user r l : aok r -> settled r -> ress l = [] -> aok (amerge1 r ("user", l)) /\ settled (amerge1 r ("user", l)).
Proof.
  intros H Hs Hl. destruct r as [|p r]; [split; [by constructor|done]|]. cbn [amerge1].
  destruct (aok_role _ _ H) as [E|E]; cbn [fst]; rewrite E.
  - change (String.eqb "assistant" "user") with false. cbv iota. destruct p as [ro k]. cbn in E. subst ro.
    split; [|done]. constructor; [|done]. rewrite Hl. symmetry. exact (Hs eq_refl).
  - change (String.eqb "user" "user") with true. cbv iota. destruct p as [ro k]. cbn in E. subst ro. split; [|done].
    cbn [snd]. inversion H; subst; constructor; rewrite ?ress_app, ?Hl, ?app_nil_r; done.
Qed.
Lemma add_chunk r c : aok r -> settled r -> chunk c -> aok (foldl amerge1 r c) /\ settled (foldl amerge1 r c).
Proof.
  intros H Hs Hc. destruct Hc as [|l Hl|l k Hk|l Hl]; cbn [foldl].
  - done.
  - destruct (add_assistant r l H Hs) as (k & -> & Hu & Hok). split; [by destruct (amerge1 r _)|]. intros _. exact (eq_trans Hu Hl).
  - destruct (add_assistant r l H Hs) as (k2 & E & Hu & Hok). rewrite E in Hok |- *. cbn [amerge1 fst].
    change (String.eqb "assistant" "user") with false. cbv iota. split; [|done]. constructor; [by rewrite Hu|done].
  - by apply add_user.
Qed.
Lemma add_chunks cs r : Forall chunk cs -> aok r -> settled r -> aok (foldl amerge1 r (concat cs)) /\ settled (foldl amerge1 r (concat cs)).
Proof.
  intros H. revert r. induction H as [|c cs Hc Hcs IH]; intros r Hr Hs; [done|]. cbn [concat]. rewrite foldl_app.
  destruct (add_chunk r c Hr Hs Hc). by apply IH.
Qed.

(** ** Conversations in order *)

(** Roles are user and assistant and alternate; what a user message answers is
    what the message before it asks; nothing asked is left without an answer. *)
Record wellPaired (out : list AnthropicMessage) : Prop := {
  wp_roles : Forall userOrAssistant out;
  wp_alternate : forall i m m', out !! i = Some m -> out !! S i = Some m' -> am_Role m <> am_Role m';
  wp_first : forall m, out !! 0%nat = Some m -> am_Role m = "user" -> toolResults m = [];
  wp_answers : forall i m m', out !! i = Some m -> out !! S i = Some m' -> am_Role m = "assistant" -> toolResults m' = toolUses m;
  wp_answered : forall i m, out !! i = Some m -> am_Role m = "assistant" -> toolUses m <> [] -> exists m', out !! S i = Some m' }.

Lemma rev_cons_lookup {A} (x y : A) r i : rev (x :: r) !! i = Some y -> (i = length r /\ y = x) \/ rev r !! i = Some y.
Proof.
  cbn [rev]. intros H. apply lookup_app_Some in H as [H|[Hi H]]; [by right|left]. rewrite length_rev in *.
  destruct (i - length r)%nat eqn:E; [|done]. injection H as ->. split; [lia|done].
Qed.
Lemma rev_last {A} (x : A) r : rev (x :: r) !! length r = Some x.
Proof. cbn [rev]. rewrite lookup_app_r by (rewrite length_rev; lia). by rewrite length_rev, Nat.sub_diag. Qed.
Lemma rev_lookup_lt {A} (r : list A) i y : rev r !! i = Some y -> (i < length r)%nat.
Proof. intros H. apply lookup_lt_Some in H. by rewrite length_rev in H. Qed.
(** Two messages that follow each other are neighbours in the reversed list too. *)
Lemma aok_adjacent r i m m' : aok r -> rev r !! i = Some m -> rev r !! S i = Some m' ->
  m.1 <> m'.1 /\ (m.1 = "assistant" -> ress m'.2 = uses m.2).
Proof.
  intros H. revert i. induction H as [|l r H IH Hh|l Hl|l k r Hl H IH]; intros i Hi Hs.
  - done.
  - apply rev_cons_lookup in Hi as [[-> ->]|Hi].
    { apply rev_cons_lookup in Hs as [[E _]|Hs]; [lia|]. apply rev_lookup_lt in Hs. lia. }
    apply rev_cons_lookup in Hs as [[E ->]|Hs]; [|by eapply IH]. destruct r as [|p r]; [done|]. cbn [length] in E.
    assert (m = p) as ->. { injection E as ->. rewrite rev_last in Hi. congruence. }
    rewrite Hh. split; done.
  - destruct i as [|[|i]]; done.
  - apply rev_cons_lookup in Hi as [[-> ->]|Hi].
    { apply rev_cons_lookup in Hs as [[E _]|Hs]; [lia|]. apply rev_lookup_lt in Hs. cbn in Hs |- *. lia. }
    apply rev_cons_lookup in Hs as [[E ->]|Hs]; [|by eapply IH]. cbn [length] in E.
    assert (m = ("assistant", k)) as ->. { injection E as ->. rewrite rev_last in Hi. congruence. }
    split; done.
Qed.
Lemma aok_first_user r m : aok r -> rev r !! 0%nat = Some m -> m.1 = "user" -> ress m.2 = [].
Proof.
  induction 1 as [|l r H IH Hh|l Hl|l k r Hl H IH]; intros Hi Hm; [done| |cbn in Hi; by injection Hi as <-|].
  - apply rev_cons_lookup in Hi as [[_ ->]|Hi]; [done|by apply IH].
  - apply rev_cons_lookup in Hi as [[E ->]|Hi]; [done|by apply IH].
Qed.
Lemma aok_wellPaired out : aok (rev (map absMessage out)) -> settled (rev (map absMessage out)) -> wellPaired out.
Proof.
  set (r := rev (map absMessage out)). intros H Hs. assert (Hl : forall i m, out !! i = Some m -> rev r !! i = Some (absMessage m)).
  { intros i m Hi. subst r. rewrite rev_involutive. rewrite <- (list_lookup_fmap absMessage out i) at 1 || idtac.
    change (map absMessage out) with (absMessage <$> out). by rewrite list_lookup_fmap, Hi. }
  assert (Hlen : length r = length out) by (subst r; by rewrite length_rev, length_map).
  split.
  - apply Forall_lookup. intros i m Hi. apply Hl in Hi. clear -H Hi. unfold userOrAssistant. change (am_Role m) with ((absMessage m).1).
    revert Hi. generalize (absMessage m). intros p Hp. induction H as [|l r H IH Hh|l Hl|l k r Hl H IH]; [done|..];
      (apply rev_cons_lookup in Hp as [[_ ->]|Hp]; [auto|]); try (by apply IH); done.
  - intros i m m' Hi Hi'. by apply (aok_adjacent r i _ _ H (Hl _ _ Hi) (Hl _ _ Hi')).
  - intros m Hi Hm. by apply (aok_first_user r _ H (Hl _ _ Hi)).
  - intros i m m' Hi Hi' Hm. by apply (aok_adjacent r i _ _ H (Hl _ _ Hi) (Hl _ _ Hi')).
  - intros i m Hi Hm Hu. destruct (out !! S i) as [m'|] eqn:E; [eauto|]. exfalso. apply Hu. apply lookup_ge_None in E.
    assert (Hii : (i < length out)%nat) by (by eapply lookup_lt_Some). pose proof (Hl _ _ Hi) as Hr. clearbody r.
    destruct r as [|p r']; [cbn in Hlen; lia|]. cbn [length] in Hlen. replace i with (length r') in Hr by lia. rewrite rev_last in Hr.
    injection Hr as ->. by apply Hs.
Qed.

(** ** The conversion *)

Lemma mergeStep_roles merged m : Forall userOrAssistant merged -> userOrAssistant m -> Forall userOrAssistant (mergeStep merged m).
Proof.
  intros H Hm. unfold mergeStep. destruct (last merged) as [p|] eqn:E; [|by constructor].
  destruct (String.eqb _ _); [|apply Forall_app; split; [done|by constructor]].
  apply last_Some in E as [l ->]. apply Forall_app in H as [Hl Hp]. rewrite removelast_last. apply Forall_app. split; [done|].
  inversion Hp; subst. by constructor.
Qed.
Lemma merge_roles ms : Forall userOrAssistant ms -> Forall userOrAssistant (mergeConsecutiveMessages ms).
Proof.
  intros H. unfold mergeConsecutiveMessages. destruct (_ <=? _)%nat; [done|]. assert (Hn : Forall userOrAssistant []) by constructor.
  revert Hn. generalize ([] : list AnthropicMessage). induction H as [|m ms Hm _ IH]; intros l Hl; [done|]. cbn [foldl]. by apply IH, mergeStep_roles.
Qed.
Lemma repair_wellPaired messages : Forall userOrAssistant messages -> wellPaired (repairMessages messages).
Proof.
  intros H. apply merge_roles in H. unfold repairMessages. set (ms := mergeConsecutiveMessages messages) in *.
  assert (Hc : aok (rev (amerge (map absMessage (normalizeAnthropicToolPairing ms)))) /\ settled (rev (amerge (map absMessage (normalizeAnthropicToolPairing ms))))).
  { unfold amerge. rewrite rev_involutive. unfold normalizeAnthropicToolPairing. rewrite flat_map_concat_map, concat_map, map_map.
    apply add_chunks; [|constructor|done]. apply Forall_forall. intros c Hc. apply list_elem_of_fmap in Hc as (m & -> & Hm).
    apply pairMessage_chunk. rewrite Forall_forall in H. by apply H. }
  rewrite <- abs_merge in Hc. destruct Hc. by apply aok_wellPaired.
Qed.
Lemma convertItem_roles item sys ms : convertItem item = Ok (sys, ms) -> Forall userOrAssistant ms.
Proof.
  assert (Hu : forall c, userOrAssistant (mkMessage "user" c)) by by left. assert (Ha : forall c, userOrAssistant (mkMessage "assistant" c)) by by right.
  assert (H1 : forall m, userOrAssistant m -> Forall userOrAssistant [m]) by (intros m Hm; by constructor).
  unfold convertItem. set (ul := match convertResponsesUserToAnthropicContent _ with Ok _ => _ | Err _ => _ end).
  assert (Hul : ul = Ok (sys, ms) -> Forall userOrAssistant ms).
  { subst ul. destruct (convertResponsesUserToAnthropicContent _) as [c|]; [|done]. destruct (anthropicContentIsEmpty c); intros [= _ <-]; [done|apply H1, Hu]. }
  clearbody ul. repeat match goal with |- (if ?b then _ else _) = _ -> _ => destruct b end; try exact Hul;
    try (intros [= _ <-]; first [apply H1, Hu|apply H1, Ha|constructor]).
  destruct (convertResponsesAssistantToAnthropicContent _) as [c|]; [|done]. destruct (_ || _); intros [= _ <-]; [constructor|apply H1, Ha].
Qed.
Lemma convertItems_roles items sys ms : convertItems items = Ok (sys, ms) -> Forall userOrAssistant ms.
Proof.
  revert sys ms. induction items as [|i items IH]; intros sys ms H; simpl in H; [by simplify_eq|].
  destruct (convertItem i) as [[s1 m1]|] eqn:E1; [|done]. destruct (convertItems items) as [[s2 m2]|] eqn:E2; [|done]. simplify_eq.
  apply Forall_app. split; [by eapply convertItem_roles|by eapply IH].
Qed.

Lemma UnmarshalBlocks_quote s : UnmarshalBlocks (MarshalString s) = None.
Proof. unfold UnmarshalBlocks, UnmarshalSlice. by destruct (Valid _). Qed.
Lemma text_message_wellPaired s : wellPaired [mkMessage "user" (MarshalString s)].
Proof.
  assert (Hr : toolResults (mkMessage "user" (MarshalString s)) = [] ).
  { unfold toolResults, absMessage, viewOf, parseContentBlocks. cbn [am_Content snd]. rewrite UnmarshalBlocks_quote. by destruct (UnmarshalString _). }
  split; [by repeat constructor|..].
  - by intros [|i] m m'.
  - by intros m [= <-].
  - by intros [|i] m m'.
  - by intros [|i] m [= <-].
Qed.

(** C16: Whatever Responses request is converted, the messages of the Anthropic
    request are well paired: the roles are user and assistant and alternate, the
    tool results of a user message are exactly the answers to the tool uses of the
    assistant message before it, in their order, and no tool use is left without
    an answer (which Anthropic would refuse). *)
Theorem converted_well_paired (req : ResponsesRequest) (out : AnthropicRequest) :
  ResponsesToAnthropicRequest req = Ok out -> wellPaired (aq_Messages out).
Proof.
  intros H. unfold ResponsesToAnthropicRequest in H.
  destruct (convertResponsesInputToAnthropic (rq_Instructions req) (rq_Input req)) as [[sys ms]|] eqn:E; [|done].
  assert (Hm : aq_Messages out = ms) by (repeat (case_match; simplify_eq; try done)). rewrite Hm. clear H Hm.
  unfold convertResponsesInputToAnthropic in E. destruct (UnmarshalString (rq_Input req)) as [s|].
  - injection E as _ <-. apply text_message_wellPaired.
  - destruct (UnmarshalItems (rq_Input req)) as [items|]; [|done]. destruct (convertItems _) as [[sy mss]|] eqn:Ec; [|done].
    injection E as _ <-. apply repair_wellPaired. by eapply convertItems_roles.
Qed.

(** A call without an answer, and an answered call whose output comes after a
    later message. *)
Definition lateOutputs : ResponsesRequest :=
  { no_responses_request with rq_Model := "gpt-5";
    rq_Input := print (JArr (map itemTree
      [message_item "user" (print (JArr (map partTree [input_text "hi"])));
       { no_item with ri_Type := "function_call"; ri_CallID := "call_1"; ri_Name := "get"; ri_Arguments := "{}" };
       { no_item with ri_Type := "function_call"; ri_CallID := "call_2"; ri_Name := "get"; ri_Arguments := "{}" };
       message_item "user" (json_quote "wait");
       { no_item with ri_Type := "function_call_output"; ri_CallID := "call_2"; ri_Output := "two" }])) }.
Lemma converted_well_paired_witness : exists out, ResponsesToAnthropicRequest lateOutputs = Ok out /\
  map toolUses (aq_Messages out) = [[]; ["call_2"]; []] /\ map toolResults (aq_Messages out) = [[]; []; ["call_2"]] /\ wellPaired (aq_Messages out).
Proof.
  eexists. split; [vm_compute; reflexivity|]. split; [vm_compute; reflexivity|]. split; [vm_compute; reflexivity|].
  apply (converted_well_paired lateOutputs). vm_compute. reflexivity.
Defined.
