(* ===== verification/RequestRoundTrip.v ===== *)
(** * A conversation survives both conversions

    An Anthropic request that is converted to a Responses request and back keeps
    its conversation: the same roles, texts, tool uses and tool results, up to
    white space in raw JSON.  Views of conversations: roles and blocks in compact
    form. *)

From S2P Require Import Prelude Json JsonText JsonCodec Float64 ApiTypes ApiRequests RequestToResponses RequestToAnthropic ToolPairing.

Definition vmessage : Type := string * list AnthropicContentBlock.
Definition view : AnthropicMessage -> vmessage := viewOf compactBlock.

Lemma rawOk_squeeze s : rawOk s -> squeeze (squeeze s) = squeeze s.
Proof. intros [-> |H]; [done|]. by apply (squeeze_idem 2). Qed.
Lemma compactBlock_idem b : blockOk b -> compactBlock (compactBlock b) = compactBlock b.
Proof.
  intros H. destruct b. unfold compactBlock. cbn -[squeeze]. f_equal; apply rawOk_squeeze; [apply (bo_input _ H)|apply (bo_content _ H)].
Qed.
Lemma view_from role l : Forall blockOk l -> view (anthropicMessageFromBlocks role l) = (role, map compactBlock l).
Proof. apply view_fromBlocks, compactBlock_idem. Qed.
Lemma view_merged ms : map view (mergeConsecutiveMessages ms) = amerge (map view ms).
Proof. apply view_merge, compactBlock_idem. Qed.

(** ** Pairing, on views *)

Definition indexBlocks (r : gmap string AnthropicContentBlock) (l : list AnthropicContentBlock) : gmap string AnthropicContentBlock :=
  foldl (fun results b => if isType "tool_result" b && negb (String.eqb (cb_ToolUseID b) "") then <[cb_ToolUseID b := b]> results else results) r l.
Definition vindexFrom (r : gmap string AnthropicContentBlock) (V : list vmessage) : gmap string AnthropicContentBlock :=
  foldl (fun results m => if String.eqb m.1 "user" then indexBlocks results m.2 else results) r V.
Definition vindex : list vmessage -> gmap string AnthropicContentBlock := vindexFrom ∅.
Definition vpair (results : gmap string AnthropicContentBlock) (m : vmessage) : list vmessage :=
  let blocks := m.2 in
  if String.eqb m.1 "assistant" then
    let toolUses := List.filter (isType "tool_use") blocks in
    let others := List.filter (fun b => negb (isType "tool_use" b)) blocks in
    match toolUses with
    | [] => [m]
    | _ =>
        match List.filter (fun tu => match results !! cb_ID tu with Some _ => true | None => false end) toolUses with
        | [] => match others with [] => [] | _ => [("assistant", others)] end
        | kept => [("assistant", others ++ kept); ("user", omap (fun tu => results !! cb_ID tu) kept)]
        end
    end
  else if String.eqb m.1 "user" then
    if existsb (isType "tool_result") blocks then
      match List.filter (fun b => negb (isType "tool_result" b)) blocks with [] => [] | nonResult => [("user", nonResult)] end
    else [m]
  else [m].

Lemma index_blocks l r : compactBlock <$> indexBlocks r l = indexBlocks (compactBlock <$> r) (map compactBlock l).
Proof.
  revert r. induction l as [|b l IH]; intros r; [done|]. unfold indexBlocks in *. cbn [foldl map]. rewrite IH. f_equal.
  change (isType "tool_result" (compactBlock b)) with (isType "tool_result" b). change (cb_ToolUseID (compactBlock b)) with (cb_ToolUseID b).
  destruct (_ && _); [|done]. by rewrite fmap_insert.
Qed.
Lemma index_view ms : compactBlock <$> indexResults ms = vindex (map view ms).
Proof.
  unfold vindex. rewrite <- (fmap_empty compactBlock : compactBlock <$> ∅ = ∅). unfold indexResults.
  match goal with |- _ <$> foldl ?f _ _ = _ => enough (H : forall r, compactBlock <$> foldl f r ms = vindexFrom (compactBlock <$> r) (map view ms)) by apply H end.
  unfold vindexFrom. induction ms as [|m ms IH]; intros r; [done|]. cbn [foldl map]. rewrite IH. apply (f_equal (fun r => foldl _ r _)).
  change (view m).1 with (am_Role m). destruct (String.eqb (am_Role m) "user"); [|done]. apply index_blocks.
Qed.
Lemma filter_map_swap {A B} (h : A -> B) f g (l : list A) : (forall x, f (h x) = g x) -> List.filter f (map h l) = map h (List.filter g l).
Proof. intros H. induction l as [|x l IH]; [done|]. simpl. rewrite H, IH. by destruct (g x). Qed.
Lemma existsb_map {A B} (h : A -> B) f (l : list A) : existsb f (map h l) = existsb (fun x => f (h x)) l.
Proof. induction l as [|x l IH]; [done|]. simpl. by rewrite IH. Qed.

Lemma pair_view ms m : map view (pairMessage (indexResults ms) m) = vpair (vindex (map view ms)) (view m).
Proof.
  pose proof (parse_ok (am_Content m)) as Hok. unfold pairMessage, vpair. rewrite <- index_view.
  change (view m).1 with (am_Role m). change (view m).2 with (map compactBlock (elems_of (parseContentBlocks (am_Content m)))).
  assert (Hself : map view [m] = [view m]) by done.
  assert (Hv : view m = (am_Role m, map compactBlock (elems_of (parseContentBlocks (am_Content m))))) by done.
  set (l := elems_of (parseContentBlocks (am_Content m))) in *. clearbody l.
  rewrite !(filter_map_swap compactBlock (isType "tool_use") (isType "tool_use")) by done.
  rewrite !(filter_map_swap compactBlock (fun b => negb (isType "tool_use" b)) (fun b => negb (isType "tool_use" b))) by done.
  rewrite !(filter_map_swap compactBlock (fun b => negb (isType "tool_result" b)) (fun b => negb (isType "tool_result" b))) by done.
  rewrite existsb_map. change (fun x => isType "tool_result" (compactBlock x)) with (isType "tool_result").
  rewrite (filter_map_swap compactBlock _ (fun tu => match indexResults ms !! cb_ID tu with Some _ => true | None => false end)).
  2: { intros b. change (cb_ID (compactBlock b)) with (cb_ID b). rewrite lookup_fmap. by destruct (indexResults ms !! cb_ID b). }
  pose proof (Forall_filter_b _ (isType "tool_use") _ Hok) as Huses.
  pose proof (Forall_filter_b _ (fun b => negb (isType "tool_use" b)) _ Hok) as Hoth.
  pose proof (Forall_filter_b _ (fun b => negb (isType "tool_result" b)) _ Hok) as Hnr.
  destruct (String.eqb (am_Role m) "assistant").
  - destruct (List.filter (isType "tool_use") l) as [|u us]; [done|]. cbn [map].
    change (compactBlock u :: map compactBlock us) with (map compactBlock (u :: us)) in *.
    pose proof (Forall_filter_b _ (fun tu => match indexResults ms !! cb_ID tu with Some _ => true | None => false end) _ Huses) as Hk.
    destruct (List.filter _ (u :: us)) as [|k ks] eqn:Ek.
    + destruct (List.filter (fun b => negb (isType "tool_use" b)) l) as [|o os]; [done|]. cbn [map]. by rewrite view_from.
    + cbn [map]. change (compactBlock k :: map compactBlock ks) with (map compactBlock (k :: ks)) in *. rewrite <- !map_app, !view_from.
      * do 4 f_equal. clear Ek Hk. generalize (k :: ks). intros q. induction q as [|x q IH]; [done|]. cbn [map omap list_omap].
        change (cb_ID (compactBlock x)) with (cb_ID x). rewrite lookup_fmap. destruct (indexResults ms !! cb_ID x); cbn [fmap option_fmap option_map map]; by rewrite IH.
      * apply Forall_forall. intros b Hb. apply list_elem_of_omap in Hb as (tu & _ & Hb). by apply index_ids in Hb as [? _].
      * by apply Forall_app.
  - destruct (String.eqb (am_Role m) "user"); [|done]. destruct (existsb _ l); [|done].
    destruct (List.filter (fun b => negb (isType "tool_result" b)) l) as [|o os]; [done|]. cbn [map]. by rewrite view_from.
Qed.

(** ** Conversations that pairing leaves alone *)

Definition isUse (b : AnthropicContentBlock) : Prop := isType "tool_use" b = true.
Definition isResult (b : AnthropicContentBlock) : Prop := isType "tool_result" b = true.
Definition isOther (b : AnthropicContentBlock) : Prop := isType "tool_use" b = false /\ isType "tool_result" b = false.
(** Turns in order, after a message of role [role] whose tool uses [pending] wait
    for their results. *)
Inductive turns : string -> list string -> list vmessage -> Prop :=
| turns_end role : turns role [] []
| turns_user role rs ts V : role <> "user" ->
    Forall isResult rs -> Forall isOther ts -> rs ++ ts <> [] -> turns "user" [] V ->
    turns role (map cb_ToolUseID rs) (("user", rs ++ ts) :: V)
| turns_assistant role os us V : role <> "assistant" ->
    Forall isOther os -> Forall isUse us -> os ++ us <> [] -> turns "assistant" (map cb_ID us) V ->
    turns role [] (("assistant", os ++ us) :: V).

Definition results (V : list vmessage) : list AnthropicContentBlock :=
  flat_map (fun m => if String.eqb m.1 "user" then List.filter (isType "tool_result") m.2 else []) V.

Lemma other_not_use ts : Forall isOther ts -> Forall (fun b => isType "tool_use" b = false) ts.
Proof. intros H. eapply Forall_impl; [exact H|]. by intros b []. Qed.
Lemma other_not_result ts : Forall isOther ts -> Forall (fun b => isType "tool_result" b = false) ts.
Proof. intros H. eapply Forall_impl; [exact H|]. by intros b []. Qed.
Lemma user_blocks rs ts : Forall isResult rs -> Forall isOther ts ->
  List.filter (isType "tool_result") (rs ++ ts) = rs /\ List.filter (fun b => negb (isType "tool_result" b)) (rs ++ ts) = ts.
Proof.
  intros Hr Ht. apply other_not_result in Ht. rewrite !List.filter_app, (filter_all _ rs Hr), (filter_none _ ts Ht), app_nil_r. split; [done|].
  rewrite (filter_none _ rs), (filter_all _ ts); [done|..]; (eapply Forall_impl; [eassumption|]; cbn; intros b E; unfold isResult in *; by rewrite E).
Qed.
Lemma assistant_blocks os us : Forall isOther os -> Forall isUse us ->
  List.filter (isType "tool_use") (os ++ us) = us /\ List.filter (fun b => negb (isType "tool_use" b)) (os ++ us) = os.
Proof.
  intros Ho Hu. apply other_not_use in Ho. rewrite !List.filter_app, (filter_none _ os Ho), (filter_all _ us Hu). split; [done|].
  rewrite (filter_none _ us), (filter_all _ os); [by rewrite app_nil_r|..]; (eapply Forall_impl; [eassumption|]; cbn; intros b E; unfold isUse in *; by rewrite E).
Qed.
Lemma existsb_results rs ts : Forall isResult rs -> Forall isOther ts -> existsb (isType "tool_result") (rs ++ ts) = match rs with [] => false | _ => true end.
Proof.
  intros Hr Ht. destruct rs as [|r rs]; [|cbn; inversion Hr; subst; unfold isResult in *; by rewrite H1].
  apply other_not_result in Ht. induction Ht as [|b l Hb _ IH]; [done|]. cbn. by rewrite Hb.
Qed.

Lemma pending_answered (R : gmap string AnthropicContentBlock) V role pending : turns role pending V -> Forall (fun b => R !! cb_ToolUseID b = Some b) (results V) ->
  Forall (fun id => is_Some (R !! id)) pending.
Proof.
  destruct 1 as [role|role rs ts V Hro Hrs Hts Hne H|]; [constructor| |constructor]. unfold results. cbn [flat_map fst snd].
  rewrite String.eqb_refl, (proj1 (user_blocks rs ts Hrs Hts)). intros HR. apply Forall_app in HR as [HR _].
  apply Forall_forall. intros id Hid. apply list_elem_of_fmap in Hid as (b & -> & Hb). rewrite Forall_forall in HR. rewrite (HR b Hb). by eexists.
Qed.
Lemma turns_merge R V role pending : turns role pending V ->
  Forall (fun b => R !! cb_ToolUseID b = Some b) (results V) ->
  (forall r, pending = [] -> match r with p :: _ => p.1 = role | [] => True end ->
     foldl amerge1 r (flat_map (vpair R) V) = rev V ++ r) /\
  (forall r, pending <> [] -> foldl amerge1 (("user", omap (fun id => R !! id) pending) :: r) (flat_map (vpair R) V) = rev V ++ r).
Proof.
  induction 1 as [role|role rs ts V Hro Hrs Hts Hne H IH|role os us V Hro Hos Hus Hne H IH]; intros HR.
  - split; [done|]. by intros r [].
  - destruct (user_blocks rs ts Hrs Hts) as [Ef Eg]. unfold results in HR. cbn [flat_map fst snd] in HR. rewrite String.eqb_refl, Ef in HR.
    apply Forall_app in HR as [HRrs HRV]. destruct (IH HRV) as [IH1 _]. clear IH.
    assert (Eres : omap (fun id => R !! id) (map cb_ToolUseID rs) = rs).
    { clear -HRrs. induction HRrs as [|b l Hb _ IH]; [done|]. cbn [map omap list_omap]. by rewrite Hb, IH. }
    cbn [flat_map]. unfold vpair at 1 3. cbn [fst snd]. rewrite existsb_results, Eg by done.
    change (String.eqb "user" "assistant") with false. change (String.eqb "user" "user") with true. cbv iota. rewrite Eres.
    split; intros r Hp.
    + intros Hr. destruct rs as [|b rs]; [|done]. cbn [app]. cbn [foldl]. cbn [rev]. rewrite <- app_assoc. cbn [app]. rewrite <- IH1 by done.
      f_equal. destruct r as [|p r]; [done|]. cbn [amerge1 fst]. rewrite (proj2 (String.eqb_neq p.1 "user")) by congruence. done.
    + destruct rs as [|b rs]; [done|]. cbn [rev]. rewrite <- app_assoc. cbn [app].
      destruct ts as [|t ts]; cbn [app foldl]; rewrite ?app_nil_r; by apply IH1.
  - destruct (assistant_blocks os us Hos Hus) as [Ef Eg]. unfold results in HR. cbn [flat_map fst snd] in HR.
    change (String.eqb "assistant" "user") with false in HR. cbn [app] in HR. destruct (IH HR) as [IH1 IH2]. clear IH.
    split; [|done]. intros r _ Hr. cbn [flat_map]. unfold vpair at 1. cbn [fst snd]. rewrite Ef, Eg.
    change (String.eqb "assistant" "assistant") with true. cbv iota.
    assert (Hhead : forall m, amerge1 r ("assistant", m) = ("assistant", m) :: r).
    { intros m. destruct r as [|p r]; [done|]. cbn [amerge1 fst]. by rewrite (proj2 (String.eqb_neq p.1 "assistant")) by congruence. }
    destruct us as [|u us].
    + cbn [app foldl rev]. rewrite Hhead, <- app_assoc. by apply IH1.
    + pose proof (pending_answered _ _ _ _ H HR) as Hans.
      assert (Hkept : List.filter (fun tu => match R !! cb_ID tu with Some _ => true | None => false end) (u :: us) = u :: us).
      { apply filter_all. apply Forall_forall. intros b Hb. rewrite Forall_forall in Hans.
        destruct (Hans (cb_ID b)) as [c ->]; [|done]. apply list_elem_of_fmap. by exists b. }
      assert (Homap : omap (fun tu => R !! cb_ID tu) (u :: us) = omap (fun id => R !! id) (map cb_ID (u :: us))).
      { clear. generalize (u :: us). intros l. induction l as [|b l IH]; [done|]. cbn [omap list_omap map]. by rewrite IH. }
      rewrite Hkept, Homap. cbn [app foldl]. rewrite Hhead. cbn [amerge1 fst]. change (String.eqb "assistant" "user") with false. cbv iota.
      rewrite IH2 by done. cbn [rev]. by rewrite <- app_assoc.
Qed.

Definition insertResult (r : gmap string AnthropicContentBlock) (b : AnthropicContentBlock) := <[cb_ToolUseID b := b]> r.
Lemma insertResults_other l r id : id ∉ map cb_ToolUseID l -> foldl insertResult r l !! id = r !! id.
Proof.
  revert r. induction l as [|b l IH]; intros r H; [done|]. cbn [foldl map] in *. apply not_elem_of_cons in H as [H1 H2].
  rewrite IH by done. by apply lookup_insert_ne.
Qed.
Lemma insertResults_in l r : NoDup (map cb_ToolUseID l) -> Forall (fun b => foldl insertResult r l !! cb_ToolUseID b = Some b) l.
Proof.
  revert r. induction l as [|b l IH]; intros r H; [constructor|]. cbn [foldl map] in *. apply NoDup_cons in H as [Hb H].
  constructor; [|by apply IH]. rewrite insertResults_other by done. apply lookup_insert_eq.
Qed.
Lemma vindex_insert V r : Forall (fun b => cb_ToolUseID b <> "") (results V) -> vindexFrom r V = foldl insertResult r (results V).
Proof.
  revert r. induction V as [|m V IH]; intros r H; [done|]. unfold vindexFrom, results in *. cbn [foldl flat_map] in *.
  apply Forall_app in H as [Hm HV]. rewrite IH, foldl_app by done. f_equal. destruct (String.eqb m.1 "user"); [|done].
  clear -Hm. revert r. unfold indexBlocks. induction m.2 as [|b l IH]; intros r; [done|]. cbn [foldl List.filter] in *.
  destruct (isType "tool_result" b); [|by apply IH]. apply Forall_cons in Hm as [Hb Hm].
  rewrite (proj2 (String.eqb_neq _ _) Hb). by apply IH.
Qed.

(** Merging and pairing leave a conversation with distinct calls as it is. *)
Lemma repair_identity V : turns "" [] V -> NoDup (map cb_ToolUseID (results V)) -> Forall (fun b => cb_ToolUseID b <> "") (results V) ->
  amerge (flat_map (vpair (vindex V)) V) = V.
Proof.
  intros Ht Hn Hne. unfold amerge. rewrite (proj1 (turns_merge (vindex V) V "" [] Ht ltac:(unfold vindex; rewrite vindex_insert by done; by apply insertResults_in)) []) by done.
  by rewrite app_nil_r, rev_involutive.
Qed.
Lemma repair_view L V : amerge (map view L) = V -> turns "" [] V -> NoDup (map cb_ToolUseID (results V)) ->
  Forall (fun b => cb_ToolUseID b <> "") (results V) -> map view (repairMessages L) = V.
Proof.
  intros HL Ht Hn Hne. unfold repairMessages. rewrite view_merged. unfold normalizeAnthropicToolPairing.
  rewrite flat_map_concat_map, concat_map, map_map, (map_ext _ _ (pair_view _)), <- (map_map view (vpair _)), <- flat_map_concat_map.
  rewrite view_merged, HL. by apply repair_identity.
Qed.

(** ** Plain messages *)

Definition keepsID (id : string) : Prop := utf8_valid id = true /\ fromResponsesCallIDToAnthropic id = id.
Definition resultBlock (id s : string) : AnthropicContentBlock :=
  { no_block with cb_Type := "tool_result"; cb_ToolUseID := id; cb_Content := MarshalString s }.
Definition useBlock (id name raw : string) : AnthropicContentBlock :=
  { no_block with cb_Type := "tool_use"; cb_ID := id; cb_Name := name; cb_Input := raw }.
Definition plainResult (b : AnthropicContentBlock) : Prop :=
  exists id s, b = resultBlock id s /\ keepsID id /\ utf8_valid s = true /\ s <> "".
Definition plainUse (b : AnthropicContentBlock) : Prop :=
  exists id name raw, b = useBlock id name raw /\ keepsID id /\ utf8_valid name = true /\ utf8_valid raw = true /\ raw <> "" /\ ValidAt 2 raw = true.
Definition plainText (b : AnthropicContentBlock) : Prop := exists s, b = textBlock s /\ utf8_valid s = true /\ s <> "".
Definition spokenText (b : AnthropicContentBlock) : Prop := plainText b /\ TrimSpace (cb_Text b) <> "".
(** A content that is a text, or blocks. *)
Definition contentIs (content : string) (blocks : list AnthropicContentBlock) : Prop :=
  (exists s, UnmarshalString content = Some s /\ s <> "" /\ blocks = [textBlock s]) \/
  (UnmarshalString content = None /\ UnmarshalBlocks content = Some (Some blocks)).
Inductive plainMessage : AnthropicMessage -> Prop :=
| plain_user c rs ts : contentIs c (rs ++ ts) -> Forall plainResult rs -> Forall plainText ts -> rs ++ ts <> [] ->
    plainMessage (mkMessage "user" c)
| plain_assistant c ts us : contentIs c (ts ++ us) -> Forall spokenText ts -> (length ts <= 1)%nat -> Forall plainUse us -> ts ++ us <> [] ->
    plainMessage (mkMessage "assistant" c).

Lemma contentIs_parse c bs : contentIs c bs -> parseContentBlocks c = Some bs.
Proof.
  intros [(s & E & Hs & ->)|[E1 E2]]; unfold parseContentBlocks; [|by rewrite E2].
  rewrite E. assert (Hn : UnmarshalBlocks c = None); [|by rewrite Hn].
  unfold UnmarshalString, dStr in E. unfold UnmarshalBlocks, UnmarshalSlice. destruct (Valid c); [|done].
  destruct (isNull c); [by injection E as <-|]. unfold stringOf in E. unfold elements. destruct (skip_ws c) as [|x t]; [done|].
  destruct (Ascii.eqb_spec x dq) as [->|]; done.
Qed.
Lemma plain_result_is b : plainResult b -> isResult b.
Proof. by intros (id & s & -> & _). Qed.
Lemma plain_use_is b : plainUse b -> isUse b.
Proof. by intros (id & n & r & -> & _). Qed.
Lemma plain_text_is b : plainText b -> isOther b.
Proof. by intros (s & -> & _). Qed.

(** ** Parts and items *)

Definition partsText (ps : list ResponsesContentPart) : string := print (JArr (map partTree ps)).
Definition textItems (role : string) (ps : list ResponsesContentPart) : list ResponsesInputItem :=
  match ps with [] => [] | _ => [message_item role (partsText ps)] end.
Lemma parts_fit d ps : d < maxNestingDepth - 2 -> (forall p, fits (d + 1) (partTree p) = true) -> fits d (JArr (map partTree ps)) = true.
Proof.
  intros Hd Hp. cbn [fits]. apply andb_true_iff. split; [apply Z.ltb_lt; lia|]. apply forallb_forall. intros t Ht.
  apply in_map_iff in Ht as (p & <- & _). apply Hp.
Qed.
Lemma partTree_fits3 p : fits 3 (partTree p) = true.
Proof. unfold partTree. fits_fields. Qed.
Lemma partsText_fits d ps : d = 0 \/ d = 2 -> fits d (JArr (map partTree ps)) = true.
Proof. intros [-> | ->]; (apply parts_fit; [reflexivity|]); [exact partTree_fits|exact partTree_fits3]. Qed.
Lemma partsText_raw ps : ValidAt 2 (partsText ps) = true /\ squeeze (partsText ps) = partsText ps.
Proof.
  pose proof (partsText_fits 2 ps (or_intror eq_refl)) as H. split; [by apply print_ValidAt|by eapply squeeze_print].
Qed.
Lemma parts_marshal ps : Forall partOk ps -> MarshalParts (Some ps) = Some (partsText ps) /\ UnmarshalParts (partsText ps) = Some (Some ps).
Proof. intros H. destruct (parts_back ps H) as (raw & E & -> & Eu). done. Qed.
Lemma UnmarshalString_parts ps : UnmarshalString (partsText ps) = None.
Proof. unfold UnmarshalString. by destruct (Valid _). Qed.
Lemma partsText_nonempty ps : String.eqb (partsText ps) "" = false.
Proof. done. Qed.

(** Contents made of blocks are neither empty nor taken for a string. *)
Definition blocksText (bs : list AnthropicContentBlock) : string := print (JArr (map blockTree bs)).
Lemma blocks_marshal bs : Forall blockOk bs -> MarshalBlocks (Some bs) = Some (blocksText bs) /\ UnmarshalBlocks (blocksText bs) = Some (Some (map compactBlock bs)).
Proof. intros H. destruct (blocks_back bs H) as (raw & E & -> & Eu). done. Qed.
Lemma fromBlocks_content role bs : Forall blockOk bs -> anthropicMessageFromBlocks role bs = mkMessage role (blocksText bs).
Proof. intros H. unfold anthropicMessageFromBlocks. by rewrite (proj1 (blocks_marshal bs H)). Qed.
Lemma blocksText_notEmpty bs : bs <> [] -> Forall blockOk bs -> anthropicContentIsEmpty (blocksText bs) = false.
Proof.
  intros Hne Hok. unfold anthropicContentIsEmpty, blocksText. cbn [print]. rewrite TrimSpace_between by done.
  set (j := join_comma _). assert (Hj : j <> "").
  { assert (Hf : Forall (fun t => fits 1 t = true) (map blockTree bs)).
    { apply Forall_forall. intros t Ht. apply list_elem_of_fmap in Ht as (b & -> & Hb). rewrite Forall_forall in Hok. by apply blockTree_fits, Hok. }
    pose proof (elements_length _ _ Hf) as Hl. intros E. subst j. rewrite E in Hl. destruct bs; [done|cbn in Hl; lia]. }
  destruct j as [|x j]; [done|]. norm. rewrite !orb_false_iff. split_and!; apply String.eqb_neq; try done. intros [= -> E]. by destruct j.
Qed.

(** ** One message there and back *)

Definition itemGood (i : ResponsesInputItem) : Prop := itemOk i /\ utf8_valid (ri_Output i) = true /\ ri_outputRaw i = "".
(** The items of one message, and what they become. *)
Record travels (m : AnthropicMessage) (items : list ResponsesInputItem) (L : list AnthropicMessage) : Prop := {
  tr_good : Forall itemGood items;
  tr_back : convertItems (map compactItem items) = Ok ([], L);
  tr_roles : Forall (fun x => am_Role x = am_Role m) L;
  tr_some : L <> [];
  tr_blocks : flat_map (fun x => (view x).2) L = (view m).2 }.

Lemma convertItems_app a b sa la sb lb : convertItems a = Ok (sa, la) -> convertItems b = Ok (sb, lb) -> convertItems (a ++ b) = Ok (sa ++ sb, la ++ lb).
Proof.
  revert sa la. induction a as [|i a IH]; intros sa la Ha Hb; cbn [convertItems app] in *; [by simplify_eq|].
  destruct (convertItem i) as [[s1 l1]|]; [|done]. destruct (convertItems a) as [[s2 l2]|]; [|done]. injection Ha as <- <-.
  rewrite (IH _ _ eq_refl Hb). by rewrite !app_assoc.
Qed.
Lemma convertItems_each {A} (f : A -> ResponsesInputItem) (g : A -> AnthropicMessage) l :
  Forall (fun x => convertItem (f x) = Ok ([], [g x])) l -> convertItems (map f l) = Ok ([], map g l).
Proof. induction 1 as [|x l Hx _ IH]; [done|]. cbn [map convertItems]. by rewrite Hx, IH. Qed.

Lemma message_item_good role ps : utf8_valid role = true -> itemGood (message_item role (partsText ps)) /\
  compactItem (message_item role (partsText ps)) = message_item role (partsText ps).
Proof.
  intros Hr. destruct (partsText_raw ps) as [Hv Hs]. split.
  - split; [|done]. constructor; try done. by right.
  - unfold compactItem, message_item. cbn -[squeeze partsText]. by rewrite Hs.
Qed.

Lemma result_there b : plainResult b -> outputItem b = { no_item with ri_Type := "function_call_output"; ri_CallID := cb_ToolUseID b; ri_Output := (convertToolResultOutput b).1 } /\
  itemGood (outputItem b) /\ (convertToolResultOutput b).2 = [] /\ convertItem (compactItem (outputItem b)) = Ok ([], [anthropicMessageFromBlocks "user" [b]]).
Proof.
  intros (id & s & -> & [Hv Hid] & Hs & Hne).
  assert (Ec : convertToolResultOutput (resultBlock id s) = (s, [])).
  { unfold convertToolResultOutput. change (cb_Content (resultBlock id s)) with (MarshalString s). change (String.eqb (MarshalString s) "") with false. cbv iota.
    rewrite (UnmarshalString_quote s Hs : UnmarshalString (MarshalString s) = Some s). by rewrite (proj2 (String.eqb_neq _ _) Hne). }
  split; [done|]. unfold outputItem, toResponsesCallID. rewrite Ec. cbn [fst snd]. split_and!; [|done|].
  - split; [|done]. by constructor; try done; left.
  - unfold compactItem. cbn. rewrite Hid. unfold responsesFunctionOutputToAnthropicContent. cbn. by rewrite (proj2 (String.eqb_neq _ _) Hne).
Qed.
Lemma use_there b : plainUse b -> itemGood (callItem b) /\ convertItem (compactItem (callItem b)) = Ok ([], [anthropicMessageFromBlocks "assistant" [b]]).
Proof.
  intros (id & name & raw & -> & [Hv Hid] & Hn & Hr & Hne & Hraw). unfold callItem, toResponsesCallID.
  change (cb_Input (useBlock id name raw)) with raw. change (cb_ID (useBlock id name raw)) with id. change (cb_Name (useBlock id name raw)) with name.
  rewrite (proj2 (String.eqb_neq _ _) Hne). split.
  - split; [|done]. by constructor; try done; left.
  - unfold compactItem. cbn. rewrite Hid. by rewrite (proj2 (String.eqb_neq _ _) Hne).
Qed.
Lemma input_text_ok s : utf8_valid s = true -> partOk (input_text s).
Proof. by constructor. Qed.
Lemma output_text_ok s : utf8_valid s = true -> partOk (output_text s).
Proof. by constructor. Qed.
Lemma textBlock_ok s : utf8_valid s = true -> blockOk (textBlock s).
Proof. by constructor; try done; left. Qed.
Ltac item_fields role :=
  match goal with |- context [message_item role ?c] =>
    change (ri_Content (message_item role c)) with c; change (ri_Role (message_item role c)) with role; change (ri_Type (message_item role c)) with "message"%string end.
Lemma user_texts_back ts : ts <> [] -> Forall plainText ts ->
  convertItem (message_item "user" (partsText (map (fun b => input_text (cb_Text b)) ts))) = Ok ([], [anthropicMessageFromBlocks "user" ts]).
Proof.
  intros Hne H. assert (Hp : Forall partOk (map (fun b => input_text (cb_Text b)) ts)).
  { apply Forall_forall. intros p Hp. apply list_elem_of_fmap in Hp as (b & -> & Hb). rewrite Forall_forall in H.
    destruct (H b Hb) as (s & -> & Hs & _). by apply input_text_ok. }
  assert (Hb : Forall blockOk ts) by (eapply Forall_impl; [exact H|]; intros b (s & -> & Hs & _); by apply textBlock_ok).
  assert (Eb : flat_map userBlocks (map (fun b => input_text (cb_Text b)) ts) = ts).
  { clear -H. induction H as [|b l (s & -> & Hs & Hn) _ IH]; [done|]. cbn [map flat_map]. rewrite IH. unfold userBlocks, textBlocks. cbn.
    by rewrite (proj2 (String.eqb_neq _ _) Hn). }
  unfold convertItem. item_fields "user". unfold convertResponsesUserToAnthropicContent.
  rewrite partsText_nonempty, UnmarshalString_parts, (proj2 (parts_marshal _ Hp)). cbn [elems_of default from_option id].
  change (elems_of (Some ?x)) with x. rewrite Eb. destruct ts as [|t ts]; [done|].
  rewrite (proj1 (blocks_marshal _ Hb)). cbn [orJSONError]. rewrite (blocksText_notEmpty _ Hne Hb), (fromBlocks_content _ _ Hb). done.
Qed.
Lemma assistant_text_back s : utf8_valid s = true -> s <> "" -> TrimSpace s <> "" ->
  convertItem (message_item "assistant" (partsText [output_text s])) = Ok ([], [anthropicMessageFromBlocks "assistant" [textBlock s]]).
Proof.
  intros Hs Hn Ht. assert (Hp : Forall partOk [output_text s]) by (constructor; [by apply output_text_ok|constructor]).
  assert (Hb : Forall blockOk [textBlock s]) by (constructor; [by apply textBlock_ok|constructor]).
  unfold convertItem. item_fields "assistant". unfold convertResponsesAssistantToAnthropicContent.
  rewrite partsText_nonempty, UnmarshalString_parts, (proj2 (parts_marshal _ Hp)). change (elems_of (Some [output_text s])) with [output_text s].
  cbn [flat_map app]. unfold assistantBlocks, textBlocks. cbn [cp_Type cp_Text output_text]. rewrite (proj2 (String.eqb_neq _ _) Hn). cbn [app].
  change (String.eqb "output_text" "output_text") with true. cbn [orb app]. rewrite (proj1 (blocks_marshal _ Hb)). cbn [orJSONError].
  rewrite (blocksText_notEmpty [textBlock s] ltac:(done) Hb), (fromBlocks_content _ _ Hb).
  replace (anthropicContentIsOnlyBlankText (blocksText [textBlock s])) with false; [done|].
  unfold anthropicContentIsOnlyBlankText, parseContentBlocks. rewrite (proj2 (blocks_marshal _ Hb)). cbn -[TrimSpace].
  by rewrite (proj2 (String.eqb_neq _ _) Ht).
Qed.

Lemma plainResult_ok b : plainResult b -> blockOk b.
Proof.
  intros (id & s & -> & [Hv _] & Hs & Hn). constructor; try done; [by left|]. right. by apply (print_ValidAt (JStr s)).
Qed.
Lemma plainUse_ok b : plainUse b -> blockOk b.
Proof. intros (id & name & raw & -> & [Hv _] & Hn & Hr & Hne & Hraw). constructor; try done; [by right|by left]. Qed.
Lemma plainText_ok b : plainText b -> blockOk b.
Proof. intros (s & -> & Hs & _). by apply textBlock_ok. Qed.
Lemma Forall_imp {A} (P Q : A -> Prop) l : (forall x, P x -> Q x) -> Forall P l -> Forall Q l.
Proof. intros H Hl. eapply Forall_impl; [exact Hl|exact H]. Qed.
(** Single blocks, viewed together. *)
Lemma flat_view_singles role l : Forall blockOk l ->
  flat_map (fun x => (view x).2) (map (fun b => anthropicMessageFromBlocks role [b]) l) = map compactBlock l.
Proof. induction 1 as [|b l Hb _ IH]; [done|]. cbn [map flat_map]. rewrite IH, view_from by by constructor. done. Qed.

Lemma user_travels c rs ts : contentIs c (rs ++ ts) -> Forall plainResult rs -> Forall plainText ts -> rs ++ ts <> [] ->
  exists items L, anthropicUserToResponses c = Ok items /\ travels (mkMessage "user" c) items L.
Proof.
  intros Hc Hr Ht Hne. set (ps := map (fun b => input_text (cb_Text b)) ts).
  assert (Hps : Forall partOk ps).
  { apply Forall_forall. intros p Hp. apply list_elem_of_fmap in Hp as (b & -> & Hb). rewrite Forall_forall in Ht.
    destruct (Ht b Hb) as (s & -> & Hs & _). by apply input_text_ok. }
  exists (map outputItem rs ++ textItems "user" ps), (map (fun b => anthropicMessageFromBlocks "user" [b]) rs ++ match ts with [] => [] | _ => [anthropicMessageFromBlocks "user" ts] end).
  split.
  - unfold anthropicUserToResponses. destruct Hc as [(s & E & Hs & Eb)|[E1 E2]].
    + rewrite E. assert (Hrs : rs = [] /\ ts = [textBlock s]).
      { destruct rs as [|b rs]; [done|]. injection Eb as -> Eb. exfalso. inversion Hr as [|? ? (id & s2 & E2 & _)]; subst. discriminate E2. }
      destruct Hrs as [-> ->]. by rewrite (proj1 (parts_marshal [input_text s] Hps)).
    + rewrite E1, E2. change (elems_of (Some (rs ++ ts))) with (rs ++ ts).
      rewrite (proj1 (user_blocks rs ts (Forall_imp _ _ _ plain_result_is Hr) (Forall_imp _ _ _ plain_text_is Ht))).
      assert (Eimg : flat_map (fun b => (convertToolResultOutput b).2) rs = []).
      { clear -Hr. induction Hr as [|b l Hb _ IH]; [done|]. cbn [flat_map]. by rewrite IH, (proj1 (proj2 (proj2 (result_there b Hb)))). }
      assert (Eps : flat_map userPart (rs ++ ts) = ps).
      { rewrite flat_map_app. clear -Hr Ht. assert (E : flat_map userPart rs = []).
        { induction Hr as [|b l (id & s & -> & _) _ IH]; [done|]. cbn [flat_map]. by rewrite IH. }
        rewrite E. subst ps. induction Ht as [|b l (s & -> & Hs & Hn) _ IH]; [done|]. cbn [flat_map map app] in *. rewrite IH.
        unfold userPart. cbn. by rewrite (proj2 (String.eqb_neq _ _) Hn). }
      rewrite Eimg, Eps, app_nil_r. destruct ps as [|p ps'] eqn:Ep; [by rewrite app_nil_r|]. by rewrite (proj1 (parts_marshal _ Hps)).
  - split.
    + apply Forall_app. split.
      * apply Forall_forall. intros i Hi. apply list_elem_of_fmap in Hi as (b & -> & Hb). rewrite Forall_forall in Hr. by apply result_there, Hr.
      * unfold textItems. destruct ps; constructor; [|constructor]. by apply message_item_good.
    + rewrite map_app. apply (convertItems_app _ _ [] _ []).
      * rewrite map_map. apply convertItems_each. eapply Forall_imp; [|exact Hr]. intros b Hb. by apply result_there.
      * destruct ts as [|t ts]; [done|]. cbn [textItems ps map]. fold ps.
        change (input_text (cb_Text t) :: map (fun b => input_text (cb_Text b)) ts) with (map (fun b => input_text (cb_Text b)) (t :: ts)).
        rewrite (proj2 (message_item_good "user" _ eq_refl)). cbn [convertItems]. by rewrite user_texts_back.
    + apply Forall_app. split; [|by destruct ts; repeat constructor].
      apply Forall_forall. intros x Hx. by apply list_elem_of_fmap in Hx as (b & -> & _).
    + destruct rs, ts; done.
    + rewrite flat_map_app, flat_view_singles by (eapply Forall_imp; [apply plainResult_ok|done]).
      unfold view, viewOf. cbn [am_Content snd]. rewrite (contentIs_parse _ _ Hc). change (elems_of (Some (rs ++ ts))) with (rs ++ ts).
      rewrite map_app. f_equal. destruct ts as [|t ts]; [done|]. cbn [flat_map]. rewrite app_nil_r.
      change (map compactBlock (elems_of (parseContentBlocks (am_Content (anthropicMessageFromBlocks "user" (t :: ts)))))) with (view (anthropicMessageFromBlocks "user" (t :: ts))).2.
      by rewrite view_from by (eapply Forall_imp; [apply plainText_ok|done]).
Qed.

Lemma assistant_travels c ts us : contentIs c (ts ++ us) -> Forall spokenText ts -> (length ts <= 1)%nat -> Forall plainUse us -> ts ++ us <> [] ->
  exists items L, anthropicAssistantToResponses c = Ok items /\ travels (mkMessage "assistant" c) items L.
Proof.
  intros Hc Ht Hlen Hu Hne. set (ps := map (fun b => output_text (cb_Text b)) ts).
  assert (Hps : Forall partOk ps).
  { apply Forall_forall. intros p Hp. apply list_elem_of_fmap in Hp as (b & -> & Hb). rewrite Forall_forall in Ht.
    destruct (Ht b Hb) as [(s & -> & Hs & _) _]. by apply output_text_ok. }
  exists (textItems "assistant" ps ++ map callItem us), (map (fun b => anthropicMessageFromBlocks "assistant" [b]) (ts ++ us)).
  assert (Hts : ts = [] \/ exists s, ts = [textBlock s] /\ utf8_valid s = true /\ s <> "" /\ TrimSpace s <> "").
  { destruct ts as [|t [|]]; [by left| |simpl in Hlen; lia]. right. inversion Ht as [|? ? [(s & -> & Hs & Hn) Htr]]; subst. by exists s. }
  split.
  - unfold anthropicAssistantToResponses. destruct Hc as [(s & E & Hs & Eb)|[E1 E2]].
    + rewrite E. assert (Hrs : us = [] /\ ts = [textBlock s]).
      { destruct Hts as [-> |(s2 & -> & _)]; [|by injection Eb as -> ->]. exfalso. cbn [app] in Eb. subst us. inversion Hu as [|? ? (id & n & r & E3 & _)]; subst. discriminate E3. }
      destruct Hrs as [-> ->]. by rewrite (proj1 (parts_marshal [output_text s] Hps)).
    + rewrite E1, E2. change (elems_of (Some (ts ++ us))) with (ts ++ us). unfold extractAnthropicTextFromBlocks.
      assert (Hto : Forall isOther ts) by (eapply Forall_imp; [|exact Ht]; intros b [Hb _]; by apply plain_text_is).
      rewrite (proj1 (assistant_blocks ts us Hto (Forall_imp _ _ _ plain_use_is Hu))).
      assert (Eu : flat_map reasoningItem us = [] /\ flat_map nonEmptyText us = []).
      { clear -Hu. induction Hu as [|b l (id & n & r & -> & _) _ [IH1 IH2]]; [done|]. cbn [flat_map]. by rewrite IH1, IH2. }
      rewrite !flat_map_app, (proj1 Eu), (proj2 Eu), !app_nil_r. destruct Hts as [-> |(s & -> & Hs & Hn & Htr)]; [done|].
      cbn [flat_map]. unfold nonEmptyText, reasoningItem. cbn -[parts_marshal MarshalParts]. rewrite (proj2 (String.eqb_neq _ _) Hn). cbn -[MarshalParts].
      rewrite (proj2 (String.eqb_neq _ _) Hn). by rewrite (proj1 (parts_marshal [output_text s] Hps)).
  - split.
    + apply Forall_app. split.
      * unfold textItems. destruct ps; constructor; [|constructor]. by apply message_item_good.
      * apply Forall_forall. intros i Hi. apply list_elem_of_fmap in Hi as (b & -> & Hb). rewrite Forall_forall in Hu. by apply use_there, Hu.
    + rewrite !map_app. apply (convertItems_app _ _ [] _ []).
      * destruct Hts as [-> |(s & -> & Hs & Hn & Htr)]; [done|].
        change (textItems "assistant" ps) with [message_item "assistant" (partsText [output_text s])]. cbn [map].
        rewrite (proj2 (message_item_good "assistant" [output_text s] eq_refl)). cbn [convertItems]. by rewrite assistant_text_back.
      * rewrite map_map. apply convertItems_each. eapply Forall_imp; [|exact Hu]. intros b Hb. by apply use_there.
    + apply Forall_forall. intros x Hx. by apply list_elem_of_fmap in Hx as (b & -> & _).
    + destruct ts, us; done.
    + rewrite flat_view_singles.
      * unfold view, viewOf. cbn [am_Content snd]. by rewrite (contentIs_parse _ _ Hc).
      * apply Forall_app. split; [eapply Forall_imp; [|exact Ht]; intros b [Hb _]; by apply plainText_ok|eapply Forall_imp; [apply plainUse_ok|done]].
Qed.
Lemma message_travels m : plainMessage m -> exists items L, anthropicMsgToResponsesItems m = Ok items /\ travels m items L.
Proof. destruct 1; [by eapply user_travels|by eapply assistant_travels]. Qed.

(** ** Conversations *)

Lemma amerge_group role r (g : list vmessage) : Forall (fun x => x.1 = role) g -> g <> [] ->
  match r with p :: _ => p.1 <> role | [] => True end ->
  foldl amerge1 r g = (role, flat_map snd g) :: r.
Proof.
  intros H Hne Hr. destruct H as [|x g Hx H]; [done|]. cbn [foldl flat_map].
  assert (E : amerge1 r x = (role, x.2) :: r).
  { destruct x as [ro l]. cbn in Hx. subst ro. destruct r as [|p r]; [done|]. cbn [amerge1 fst]. by rewrite (proj2 (String.eqb_neq _ _) Hr). }
  rewrite E. clear E Hne Hr Hx. generalize x.2 as acc. clear x. induction H as [|x g Hx _ IH]; intros acc; [by rewrite app_nil_r|].
  cbn [foldl amerge1 flat_map fst snd]. rewrite Hx, String.eqb_refl, IH. by rewrite app_assoc.
Qed.
Lemma turns_roles role pending V : turns role pending V -> match V with p :: _ => role <> p.1 | [] => True end.
Proof. by destruct 1. Qed.
Lemma conversation_travels msgs : Forall plainMessage msgs -> forall role pending, turns role pending (map view msgs) ->
  exists items L, convertMessages msgs = Ok items /\ Forall itemGood items /\ convertItems (map compactItem items) = Ok ([], L) /\
  forall r, match r with p :: _ => p.1 = role | [] => True end -> foldl amerge1 r (map view L) = rev (map view msgs) ++ r.
Proof.
  induction 1 as [|m msgs Hm _ IH]; intros role pending Ht.
  - exists [], []. by split_and!.
  - destruct (message_travels m Hm) as (i1 & L1 & E1 & []).
    assert (Hnext : exists pending', turns (am_Role m) pending' (map view msgs)).
    { cbn [map] in Ht. set (v := view m) in Ht. assert (Ev : v.1 = am_Role m) by done. clearbody v. rewrite <- Ev.
      inversion Ht; subst; eauto. }
    destruct Hnext as [p' Hnext]. destruct (IH _ _ Hnext) as (i2 & L2 & E2 & G2 & B2 & M2).
    exists (i1 ++ i2), (L1 ++ L2). split_and!.
    + cbn [convertMessages]. by rewrite E1, E2.
    + by apply Forall_app.
    + rewrite map_app. by apply (convertItems_app _ _ [] _ []).
    + intros r Hr. assert (G : foldl amerge1 r (map view L1) = view m :: r).
      { rewrite (amerge_group (am_Role m)).
        - f_equal. change (view m) with ((am_Role m, (view m).2)). f_equal. by rewrite <- tr_blocks0, !flat_map_concat_map, map_map.
        - apply Forall_forall. intros x Hx. apply list_elem_of_fmap in Hx as (y & -> & Hy). rewrite Forall_forall in tr_roles0. by apply tr_roles0.
        - by destruct L1.
        - apply turns_roles in Ht. cbn [map] in Ht. destruct r as [|p r]; [done|]. rewrite Hr. exact Ht. }
      rewrite map_app, foldl_app, G, M2 by done. cbn [map rev]. by rewrite <- app_assoc.
Qed.

(** ** Requests *)

Definition systemOk (system : string) : Prop :=
  system = "" \/ exists s, UnmarshalString system = Some s /\ s <> "" /\ isAnthropicBillingHeaderText s = false.
Definition toolChoiceTree (name type : string) : jtree := JObj [("name", JStr name); ("type", JStr type)].
Definition choiceOk (choice : string) : Prop :=
  choice = "" \/ choice = typeOnly "auto" \/ choice = typeOnly "any" \/ choice = typeOnly "none" \/
  exists name, choice = print (toolChoiceTree name "tool") /\ utf8_valid name = true /\ TrimSpace name = name /\ name <> "".
(** A request whose conversation both dialects can express: turns of texts, tool
    uses and tool results in the order both use. *)
Record plainRequest (req : AnthropicRequest) : Prop := {
  pq_messages : Forall plainMessage (aq_Messages req);
  pq_some : aq_Messages req <> [];
  pq_turns : turns "" [] (map view (aq_Messages req));
  pq_distinct : NoDup (map cb_ToolUseID (results (map view (aq_Messages req))));
  pq_system : systemOk (aq_System req);
  pq_choice : choiceOk (aq_ToolChoice req) }.

Lemma results_named msgs : Forall plainMessage msgs -> Forall (fun b => cb_ToolUseID b <> "") (results (map view msgs)).
Proof.
  induction 1 as [|m msgs Hm _ IH]; [constructor|]. unfold results in *. cbn [map flat_map]. apply Forall_app. split; [|done].
  destruct Hm as [c rs ts Hc Hr Ht Hne|c ts us Hc Ht Hlen Hu Hne]; [|constructor].
  unfold view, viewOf. cbn [am_Role am_Content fst snd]. rewrite String.eqb_refl, (contentIs_parse _ _ Hc). change (elems_of (Some (rs ++ ts))) with (rs ++ ts).
  rewrite (filter_map_swap compactBlock (isType "tool_result") (isType "tool_result")) by done.
  rewrite (proj1 (user_blocks rs ts (Forall_imp _ _ _ plain_result_is Hr) (Forall_imp _ _ _ plain_text_is Ht))).
  apply Forall_forall. intros b Hb. apply list_elem_of_fmap in Hb as (b' & -> & Hb). rewrite Forall_forall in Hr.
  destruct (Hr b' Hb) as (id & s & -> & [_ Hid] & _). cbn. intros E. subst id. discriminate Hid.
Qed.

Lemma UnmarshalString_empty : UnmarshalString "" = None.
Proof. vm_compute. reflexivity. Qed.
Lemma system_back system : systemOk system -> exists items sys,
  (if String.eqb system "" then Ok []
   else match parseAnthropicSystemContentParts system with
        | Err e => Err e | Ok [] => Ok []
        | Ok sysParts => Ok [message_item "developer" (default "" (MarshalParts (Some sysParts)))] end) = Ok items /\
  Forall itemGood items /\ convertItems (map compactItem items) = Ok (sys, []) /\
  (system = "" -> systemText sys = "") /\ (system <> "" -> UnmarshalString (systemText sys) = UnmarshalString system).
Proof.
  intros [-> |(s & E & Hs & Hb)]; [exists [], []; by split_and!|].
  pose proof (UnmarshalString_valid _ _ E) as Hv.
  assert (Hp : Forall partOk [input_text s]) by (constructor; [by apply input_text_ok|constructor]).
  exists [message_item "developer" (partsText [input_text s])], [s].
  assert (Hne : system <> "").
  { intros ->. by rewrite UnmarshalString_empty in E. }
  destruct (message_item_good "developer" [input_text s] eq_refl) as [Hg Hc]. split_and!.
  - rewrite (proj2 (String.eqb_neq _ _) Hne). unfold parseAnthropicSystemContentParts. rewrite E, Hb, (proj2 (String.eqb_neq _ _) Hs). cbn [orb].
    by rewrite (proj1 (parts_marshal _ Hp)).
  - by constructor.
  - cbn [map convertItems]. rewrite Hc. unfold convertItem. item_fields "developer".
    change (String.eqb "developer" "system" || String.eqb "developer" "developer") with true. cbv iota.
    unfold extractTextFromContent. rewrite partsText_nonempty, UnmarshalString_parts, (proj2 (parts_marshal _ Hp)).
    change (elems_of (Some [input_text s])) with [input_text s]. cbn [flat_map app isTextPart]. cbn -[joinBlank].
    rewrite (proj2 (String.eqb_neq _ _) Hs). cbn. by rewrite (proj2 (String.eqb_neq _ _) Hs).
  - done.
  - intros _. rewrite E. apply UnmarshalString_quote. done.
Qed.

Lemma print_object_nonempty l : print (JObj l) <> "".
Proof. done. Qed.
(** A choice of one tool, in both dialects. *)
Lemma choice_fits name type : fits 0 (toolChoiceTree name type) = true.
Proof. reflexivity. Qed.
Lemma choice_marshal name type : Marshal (JObj [("name", JStr name); ("type", JStr type)]) = Some (print (toolChoiceTree name type)).
Proof. unfold Marshal. by rewrite (fits_valid (toolChoiceTree name type) 0 (Z.le_refl 0) (choice_fits name type) : rawsValid (JObj [("name", JStr name); ("type", JStr type)]) = true). Qed.
Lemma choice_valid name type : Valid (print (toolChoiceTree name type)) = true.
Proof. rewrite Valid_ValidAt. apply print_ValidAt, choice_fits. Qed.
Lemma choice_fields {A} (fs : fields A) a name type : decodeStruct fs a (print (toolChoiceTree name type)) = decodeAll fs a (printed (fStr "name" name ++ fStr "type" type)).
Proof. apply (decodeStruct_printed fs a 0); [done|apply choice_fits|by repeat constructor]. Qed.
Lemma choice_not_string name type : UnmarshalString (print (toolChoiceTree name type)) = None.
Proof. unfold UnmarshalString. by destruct (Valid _). Qed.
Lemma choice_there name : utf8_valid name = true ->
  convertAnthropicToolChoiceToResponses (print (toolChoiceTree name "tool")) = Ok (print (toolChoiceTree name "function")).
Proof.
  intros Hv. unfold convertAnthropicToolChoiceToResponses, Unmarshal. rewrite choice_valid, choice_fields.
  erewrite decodeAll_printed_app by (by apply (dec_fStr _ _ _ (fun c v => mkToolChoice (tc_Type c) v))).
  rewrite (dec_fStr _ _ _ (fun c v => mkToolChoice v (tc_Name c))) by done.
  cbn [tc_Type tc_Name]. change (String.eqb "tool" "auto") with false. change (String.eqb "tool" "any") with false.
  change (String.eqb "tool" "none") with false. change (String.eqb "tool" "tool") with true. cbv iota. by rewrite choice_marshal.
Qed.
Lemma choice_decoded name : utf8_valid name = true ->
  Unmarshal (decodeStruct functionChoiceFields) (mkFunctionChoice "" "" "") (print (toolChoiceTree name "function")) = Some (mkFunctionChoice "function" name "").
Proof.
  intros Hv. unfold Unmarshal. rewrite choice_valid, choice_fields.
  erewrite decodeAll_printed_app by (by apply (dec_fStr _ _ _ (fun c v => mkFunctionChoice (fc_Type c) v (fc_FunctionName c)))).
  by rewrite (dec_fStr _ _ _ (fun c v => mkFunctionChoice v (fc_Name c) (fc_FunctionName c))).
Qed.
Lemma choice_returns name : utf8_valid name = true -> TrimSpace name = name -> name <> "" ->
  convertResponsesToAnthropicToolChoice (print (toolChoiceTree name "function")) = Ok (print (toolChoiceTree name "tool")).
Proof.
  intros Hv Ht Hn. unfold convertResponsesToAnthropicToolChoice. rewrite choice_not_string, choice_decoded by done.
  generalize dependent (print (toolChoiceTree name "function")). intros raw.
  cbv beta iota zeta delta [fc_Type fc_Name fc_FunctionName]. rewrite Ht, !(proj2 (String.eqb_neq _ _) Hn), choice_marshal.
  by rewrite String.eqb_refl.
Qed.
Lemma choice_back choice : choiceOk choice -> choice <> "" ->
  exists c, convertAnthropicToolChoiceToResponses choice = Ok c /\ c <> "" /\ convertResponsesToAnthropicToolChoice c = Ok choice.
Proof.
  intros [-> |[-> |[-> |[-> |(name & -> & Hv & Ht & Hn)]]]] Hne; [by destruct Hne|clear Hne..|].
  1: exists (json_quote "auto"). 2: exists (json_quote "required"). 3: exists (json_quote "none").
  1-3: split_and!; [vm_compute; reflexivity|intros E; vm_compute in E; discriminate E|vm_compute; reflexivity].
  exists (print (toolChoiceTree name "function")). split_and!; [by apply choice_there|apply print_object_nonempty|by apply choice_returns].
Qed.

(** The items of the whole input. *)
Lemma input_travels system msgs : systemOk system -> Forall plainMessage msgs -> turns "" [] (map view msgs) ->
  exists items sys L, convertAnthropicToResponsesInput system msgs = Ok items /\ Forall itemGood items /\
    convertItems (map compactItem items) = Ok (sys, L) /\ foldl amerge1 [] (map view L) = rev (map view msgs) /\
    (system = "" -> systemText sys = "") /\ (system <> "" -> UnmarshalString (systemText sys) = UnmarshalString system) /\
    (msgs <> [] -> items <> []).
Proof.
  intros Hs Hm Ht. destruct (system_back system Hs) as (i1 & sys & E1 & G1 & B1 & S1 & S2).
  destruct (conversation_travels msgs Hm "" [] Ht) as (i2 & L & E2 & G2 & B2 & M2).
  exists (i1 ++ i2), sys, L. split_and!; try done.
  - unfold convertAnthropicToResponsesInput. cbv zeta. by rewrite E1, E2.
  - by apply Forall_app.
  - rewrite map_app. pose proof (convertItems_app _ _ _ _ _ _ B1 B2) as B. by rewrite app_nil_r in B.
  - specialize (M2 [] I). by rewrite app_nil_r in M2.
  - intros Hne E. apply app_eq_nil in E as [-> ->]. cbn in B2. injection B2 as <-. specialize (M2 [] I). cbn in M2.
    destruct msgs as [|m msgs]; [done|]. cbn [map rev] in M2. rewrite app_nil_r in M2. by destruct (rev (map view msgs)).
Qed.
Lemma repaired msgs L : Forall plainMessage msgs -> turns "" [] (map view msgs) -> NoDup (map cb_ToolUseID (results (map view msgs))) ->
  foldl amerge1 [] (map view L) = rev (map view msgs) -> map view (repairMessages L) = map view msgs.
Proof.
  intros Hm Ht Hd E. apply repair_view; [|done|done|by apply results_named]. unfold amerge. by rewrite E, rev_involutive.
Qed.
Lemma AnthropicToResponses_plain req : plainRequest req -> exists mid items,
  AnthropicToResponses req = Ok mid /\ convertAnthropicToResponsesInput (aq_System req) (aq_Messages req) = Ok items /\
  MarshalItems (sliceOf items) = Some (rq_Input mid) /\ rq_Instructions mid = "" /\ rq_Model mid = aq_Model req /\ rq_Stream mid = aq_Stream req /\
  rq_MaxOutputTokens mid = (if 0 <? aq_MaxTokens req then Some (if aq_MaxTokens req <? minMaxOutputTokens then minMaxOutputTokens else aq_MaxTokens req) else None) /\
  rq_Tools mid = convertAnthropicToolsToResponses (aq_Tools req) /\
  (isReasoningModel (aq_Model req) = false -> rq_Temperature mid = aq_Temperature req /\ rq_TopP mid = aq_TopP req) /\
  (aq_ToolChoice req = "" -> rq_ToolChoice mid = "") /\
  (aq_ToolChoice req <> "" -> rq_ToolChoice mid <> "" /\ convertResponsesToAnthropicToolChoice (rq_ToolChoice mid) = Ok (aq_ToolChoice req)).
Proof.
  intros [Hm Hsome Ht Hd Hs Hc]. destruct (input_travels _ _ Hs Hm Ht) as (items & sys & L & E & G & _ & _ & _ & _ & Hne).
  unfold AnthropicToResponses. rewrite E. destruct items as [|i items]; [by destruct (Hne Hsome)|]. cbn [sliceOf].
  destruct (items_back _ G) as (raw & Er & _). rewrite Er.
  destruct (String.eqb_spec (aq_ToolChoice req) "") as [Ec|Ec].
  - eexists _, (i :: items). split_and!; try done. by cbn; intros ->.
  - destruct (choice_back _ Hc Ec) as (c & -> & Hc1 & Hc2). eexists _, (i :: items). split_and!; try done. by cbn; intros ->.
Qed.
Lemma UnmarshalString_array ts : UnmarshalString (print (JArr ts)) = None.
Proof. unfold UnmarshalString. by destruct (Valid _). Qed.
Lemma tools_back tools : Forall (fun t => HasPrefix (at_Type t) "web_search" = false) tools ->
  map (fun t => (at_Name t, at_Description t)) (convertResponsesToAnthropicTools (convertAnthropicToolsToResponses tools)) =
  map (fun t => (at_Name t, at_Description t)) tools.
Proof.
  unfold convertResponsesToAnthropicTools, convertAnthropicToolsToResponses.
  induction 1 as [|t tools Ht _ IH]; [done|]. cbn [map]. rewrite Ht, IH. done.
Qed.

(** The limit of both APIs on the tokens of the answer. *)
Lemma tokens_back n m : m = (if 0 <? n then Some (if n <? minMaxOutputTokens then minMaxOutputTokens else n) else None) ->
  let maxTokens := match m with Some v => if 0 <? v then v else 0 | None => 0 end in
  (if maxTokens =? 0 then 8192 else maxTokens) = if 0 <? n then Z.max minMaxOutputTokens n else 8192.
Proof.
  unfold minMaxOutputTokens. intros ->. destruct (Z.ltb_spec 0 n); [|done]. destruct (Z.ltb_spec n 128); [by rewrite Z.max_l by lia|].
  rewrite Z.max_r by lia. rewrite (proj2 (Z.ltb_lt 0 n)) by lia. cbv zeta. by rewrite (proj2 (Z.eqb_neq n 0)) by lia.
Qed.
(** What of a request is there after both conversions. *)
Record sameRequest (req out : AnthropicRequest) : Prop := {
  sr_model : aq_Model out = aq_Model req;
  sr_stream : aq_Stream out = aq_Stream req;
  sr_messages : map view (aq_Messages out) = map view (aq_Messages req);
  sr_no_system : aq_System req = "" -> aq_System out = "";
  sr_system : aq_System req <> "" -> UnmarshalString (aq_System out) = UnmarshalString (aq_System req);
  sr_choice : aq_ToolChoice out = aq_ToolChoice req;
  sr_tools : Forall (fun t => HasPrefix (at_Type t) "web_search" = false) (aq_Tools req) ->
    map (fun t => (at_Name t, at_Description t)) (aq_Tools out) = map (fun t => (at_Name t, at_Description t)) (aq_Tools req);
  sr_sampling : isReasoningModel (aq_Model req) = false -> aq_Temperature out = aq_Temperature req /\ aq_TopP out = aq_TopP req;
  sr_tokens : aq_MaxTokens out = if 0 <? aq_MaxTokens req then Z.max minMaxOutputTokens (aq_MaxTokens req) else 8192 }.

(** C15: A request whose conversation both dialects can express ([plainRequest]: turns
    of texts, tool uses and tool results, each use answered once in the next turn)
    survives the way to a Responses request and back: neither conversion fails, and the messages have
    the same roles and the same blocks in the same order, up to white space in
    raw JSON; the system prompt, the model, the tool choice and the names and
    descriptions of the tools are the same, and the token limit is raised to the
    minimum of the Responses API or set to its default. *)
Theorem anthropic_request_round_trip (req : AnthropicRequest) : plainRequest req ->
  exists mid out, AnthropicToResponses req = Ok mid /\ ResponsesToAnthropicRequest mid = Ok out /\ sameRequest req out.
Proof.
  intros H. destruct (AnthropicToResponses_plain req H) as (mid & items & E & Ei & Em & Hi & Hmo & Hst & Hmx & Hto & Hsm & Hc0 & Hc1).
  destruct H as [Hm Hsome Ht Hd Hs Hc]. destruct (input_travels _ _ Hs Hm Ht) as (items' & sys & L & E' & G & B & M & S1 & S2 & Hne).
  rewrite Ei in E'. injection E' as <-. exists mid. unfold ResponsesToAnthropicRequest, convertResponsesInputToAnthropic.
  destruct items as [|i items]; [by destruct (Hne Hsome)|]. cbn [sliceOf] in Em. destruct (items_back _ G) as (raw & Er & Eraw & Eu).
  rewrite Em in Er. injection Er as Er. rewrite Er, Eraw, UnmarshalString_array, <- Eraw, Eu.
  change (elems_of (Some ?x)) with x. rewrite B, Hi. change (String.eqb (TrimSpace "") "") with true. cbv iota zeta.
  pose proof (repaired _ _ Hm Ht Hd M) as Hmsgs.
  assert (Hchoice : (if String.eqb (rq_ToolChoice mid) "" then aq_ToolChoice req = "" else convertResponsesToAnthropicToolChoice (rq_ToolChoice mid) = Ok (aq_ToolChoice req))).
  { destruct (String.eqb_spec (aq_ToolChoice req) "") as [E0|E0]; [by rewrite (Hc0 E0)|].
    destruct (Hc1 E0) as [H1 H2]. by rewrite (proj2 (String.eqb_neq _ _) H1). }
  destruct (String.eqb (rq_ToolChoice mid) ""); [|rewrite Hchoice]; (eexists; split_and!; [done|reflexivity|]); split; try done.
  all: first [exact (tokens_back _ _ Hmx) | exact Hsm | intros Hx; cbn [aq_Tools]; rewrite Hto; by apply tools_back].
Qed.

(** A question, an answer with a tool use, and the tool's result. *)
Definition toolTalk : list AnthropicMessage :=
  [mkMessage "user" (json_quote "hi");
   mkMessage "assistant" (qs ["[{"; "type"; ":"; "text"; ","; "text"; ":"; "let me see"; "},{"; "type"; ":"; "tool_use"; ", "; "id"; ":"; "toolu_1"; ","; "name"; ":"; "get"; ","; "input"; ":{ "; "n"; ": 1 }}]"]);
   mkMessage "user" (qs ["[{"; "type"; ":"; "tool_result"; ","; "tool_use_id"; ":"; "toolu_1"; ","; "content"; ":"; "two"; "},{"; "type"; ":"; "text"; ","; "text"; ":"; "thanks"; "}]"])].
Definition toolTalkRequest : AnthropicRequest :=
  mkAnthropicRequest "claude" 50 (json_quote "be brief") toolTalk [mkAnthropicTool "" "get" "reads n" "{}" None] true None None [] None
    (print (toolChoiceTree "get" "tool")) "" None.
Lemma toolTalk_plain : Forall plainMessage toolTalk.
Proof.
  unfold toolTalk. repeat apply Forall_cons_2; [..|apply Forall_nil_2].
  - apply (plain_user _ [] [textBlock "hi"]); [|constructor|by repeat econstructor|done]. left. exists "hi". split_and!; [vm_compute; reflexivity|done|done].
  - apply (plain_assistant _ [textBlock "let me see"] [useBlock "toolu_1" "get" (qs ["{ "; "n"; ": 1 }"])]); [right; split; vm_compute; reflexivity| | | |done].
    + constructor; [|constructor]. split; [by eexists|intros E; vm_compute in E; discriminate E].
    + reflexivity.
    + constructor; [|constructor]. eexists _, _, _. split_and!; [reflexivity|done|done|done|done|vm_compute; reflexivity].
  - apply (plain_user _ [resultBlock "toolu_1" "two"] [textBlock "thanks"]); [right; split; vm_compute; reflexivity| | |done].
    + constructor; [|constructor]. eexists _, _. split_and!; [reflexivity|done|done|done].
    + constructor; [|constructor]. by eexists.
Qed.
Lemma toolTalk_view : map view toolTalk =
  [("user", [textBlock "hi"]); ("assistant", [textBlock "let me see"; useBlock "toolu_1" "get" (qs ["{"; "n"; ":1}"])]);
   ("user", [resultBlock "toolu_1" "two"; textBlock "thanks"])].
Proof. vm_compute. reflexivity. Qed.
Lemma toolTalk_turns : turns "" [] (map view toolTalk).
Proof.
  rewrite toolTalk_view. apply (turns_user "" [] [textBlock "hi"]); [done|by repeat constructor..|done|].
  apply (turns_assistant "user" [textBlock "let me see"] [useBlock "toolu_1" "get" (qs ["{"; "n"; ":1}"])]); [done|by repeat constructor..|done|].
  apply (turns_user "assistant" [resultBlock "toolu_1" "two"] [textBlock "thanks"]); [done|by repeat constructor..|done|constructor].
Qed.
Lemma toolTalk_request : plainRequest toolTalkRequest.
Proof.
  split; [apply toolTalk_plain|done|apply toolTalk_turns| | |].
  - change (aq_Messages toolTalkRequest) with toolTalk. rewrite toolTalk_view. apply NoDup_singleton.
  - right. exists "be brief". split_and!; [vm_compute; reflexivity|done|done].
  - right. right. right. right. exists "get". split_and!; [reflexivity|done|done|done].
Qed.
Lemma anthropic_request_round_trip_witness : exists mid out,
  AnthropicToResponses toolTalkRequest = Ok mid /\ ResponsesToAnthropicRequest mid = Ok out /\ sameRequest toolTalkRequest out.
Proof. apply (anthropic_request_round_trip toolTalkRequest). apply toolTalk_request. Defined.
