(* ===== verification/RequestFacts.v ===== *)
(** * What the request converters keep, bound and refuse

    The conversion of a Responses request keeps every text and every answered tool
    use in its order; its token limits; which requests the two converters refuse;
    that blocks can be encoded again after they were decoded. *)

From S2P Require Import Prelude Json JsonText JsonCodec Float64 ApiTypes ApiRequests RequestToResponses RequestToAnthropic ToolPairing RequestRoundTrip.

(** ** What the repair of a conversation keeps *)

(** The blocks of a message that are neither tool uses nor tool results; the ids of
    the tool uses of an assistant message. *)
Definition others (l : list AnthropicContentBlock) : list AnthropicContentBlock :=
  List.filter (fun b => negb (isType "tool_use" b || isType "tool_result" b)) l.
Definition useIDs (l : list AnthropicContentBlock) : list string := map cb_ID (List.filter (isType "tool_use") l).
Definition vspoken (V : list vmessage) : list AnthropicContentBlock := flat_map (fun m => others m.2) V.
Definition vasked (V : list vmessage) : list string := flat_map (fun m => if String.eqb m.1 "assistant" then useIDs m.2 else []) V.
Definition spoken (ms : list AnthropicMessage) : list AnthropicContentBlock := vspoken (map view ms).
Definition asked (ms : list AnthropicMessage) : list string := vasked (map view ms).
(** The id of a result in a user message. *)
Definition answered (ms : list AnthropicMessage) (id : string) : bool :=
  negb (String.eqb id "") && existsb (fun b => String.eqb (cb_ToolUseID b) id) (results (map view ms)).

Lemma amerge_flat {C} (g : string -> list AnthropicContentBlock -> list C) (V : list vmessage) :
  (forall r a b, g r (a ++ b) = g r a ++ g r b) -> flat_map (fun m => g m.1 m.2) (amerge V) = flat_map (fun m => g m.1 m.2) V.
Proof.
  intros Hg. unfold amerge. enough (H : forall r : list vmessage, flat_map (fun m => g m.1 m.2) (rev (foldl amerge1 r V)) = flat_map (fun m => g m.1 m.2) (rev r) ++ flat_map (fun m => g m.1 m.2) V) by apply H.
  induction V as [|m V IH]; intros r; [by rewrite app_nil_r|]. cbn [foldl flat_map]. rewrite IH, app_assoc. f_equal.
  destruct r as [|p r]; [cbn; by rewrite app_nil_r|]. cbn [amerge1]. destruct (String.eqb_spec p.1 m.1) as [E|E].
  - cbn [rev]. rewrite !flat_map_app. cbn [flat_map fst snd]. by rewrite Hg, !app_nil_r, <- app_assoc, E.
  - cbn [rev]. rewrite !flat_map_app. cbn [flat_map]. by rewrite !app_nil_r.
Qed.
Lemma others_app a b : others (a ++ b) = others a ++ others b.
Proof. apply List.filter_app. Qed.
Lemma useIDs_app a b : useIDs (a ++ b) = useIDs a ++ useIDs b.
Proof. unfold useIDs. by rewrite List.filter_app, map_app. Qed.
Lemma spoken_merged V : vspoken (amerge V) = vspoken V.
Proof. apply (amerge_flat (fun _ l => others l)). intros _. apply others_app. Qed.
Lemma asked_merged V : vasked (amerge V) = vasked V.
Proof. apply (amerge_flat (fun r l => if String.eqb r "assistant" then useIDs l else [])). intros r a b. case_match; [apply useIDs_app|done]. Qed.
Lemma results_merged V : results (amerge V) = results V.
Proof.
  apply (amerge_flat (fun r l => if String.eqb r "user" then List.filter (isType "tool_result") l else [])). intros r a b.
  case_match; [apply List.filter_app|done].
Qed.

(** Filters of filters. *)
Lemma filter_filter {A} (f g : A -> bool) l : List.filter f (List.filter g l) = List.filter (fun x => g x && f x) l.
Proof. induction l as [|x l IH]; [done|]. simpl. destruct (g x); simpl; by rewrite IH. Qed.
Lemma filter_same {A} (f g : A -> bool) l : (forall x, f x = g x) -> List.filter f l = List.filter g l.
Proof. intros H. apply filter_ext, H. Qed.
Lemma others_not_uses l : others (List.filter (fun b => negb (isType "tool_use" b)) l) = others l.
Proof. unfold others. rewrite filter_filter. apply filter_same. intros b. by destruct (isType "tool_use" b), (isType "tool_result" b). Qed.
Lemma others_not_results l : others (List.filter (fun b => negb (isType "tool_result" b)) l) = others l.
Proof. unfold others. rewrite filter_filter. apply filter_same. intros b. by destruct (isType "tool_use" b), (isType "tool_result" b). Qed.
Lemma others_none l : (forall b, b ∈ l -> isType "tool_use" b || isType "tool_result" b = true) -> others l = [].
Proof. intros H. apply filter_none. apply Forall_forall. intros b Hb. by rewrite H. Qed.
Lemma uses_not_uses l : useIDs (List.filter (fun b => negb (isType "tool_use" b)) l) = [].
Proof. unfold useIDs. rewrite filter_filter, (filter_none _ l); [done|]. apply Forall_forall. intros b _. by destruct (isType "tool_use" b). Qed.
Lemma uses_answered (f : string -> bool) l :
  useIDs (List.filter (fun b => f (cb_ID b)) (List.filter (isType "tool_use") l)) = List.filter f (useIDs l).
Proof.
  unfold useIDs. induction l as [|b l IH]; [done|]. simpl. destruct (isType "tool_use" b) eqn:E; [|exact IH]. simpl.
  destruct (f (cb_ID b)); simpl; [by rewrite E; simpl; rewrite IH|exact IH].
Qed.

Definition inIndex (R : gmap string AnthropicContentBlock) (id : string) : bool := match R !! id with Some _ => true | None => false end.
(** The blocks an index holds are results. *)
Definition indexOk (R : gmap string AnthropicContentBlock) : Prop := forall id b, R !! id = Some b -> isType "tool_result" b = true.

Lemma vpair_keeps R m : indexOk R -> m.1 = "assistant" \/ m.1 = "user" ->
  vspoken (vpair R m) = vspoken [m] /\ vasked (vpair R m) = List.filter (inIndex R) (vasked [m]).
Proof.
  intros HR Hm. unfold vspoken, vasked. cbn [flat_map]. rewrite !app_nil_r. unfold vpair. destruct Hm as [E|E]; rewrite E.
  - change (String.eqb "assistant" "assistant") with true. cbv iota.
    pose proof (uses_answered (inIndex R) m.2) as Ek. pose proof (others_not_uses m.2) as Eo. pose proof (uses_not_uses m.2) as Eu.
    change (List.filter (fun tu => match R !! cb_ID tu with Some _ => true | None => false end)) with (List.filter (fun b => inIndex R (cb_ID b))).
    assert (Hkinds : forall b, b ∈ List.filter (fun b => inIndex R (cb_ID b)) (List.filter (isType "tool_use") m.2) -> isType "tool_use" b = true).
    { intros b Hb. apply list_elem_of_In, filter_In in Hb as [Hb _]. by apply filter_In in Hb as [_ Hb]. }
    destruct (List.filter (isType "tool_use") m.2) as [|u us] eqn:Em.
    + assert (Hno : useIDs m.2 = []) by (unfold useIDs; by rewrite Em). rewrite Hno. cbn [flat_map]. rewrite !app_nil_r. split; [done|].
      destruct (String.eqb m.1 "assistant"); [exact Hno|done].
    + destruct (List.filter (fun b => inIndex R (cb_ID b)) (u :: us)) as [|k ks] eqn:Ef.
      * destruct (List.filter (fun b => negb (isType "tool_use" b)) m.2) as [|o os]; cbn [flat_map fst snd]; rewrite ?app_nil_r; by rewrite <- Eo, <- Ek.
      * cbn [flat_map fst snd]. rewrite !app_nil_r, others_app, useIDs_app, Eo, Eu, <- Ek. change (String.eqb "user" "assistant") with false. cbv iota.
        change (String.eqb "assistant" "assistant") with true. cbv iota. split; [|done].
        rewrite (others_none (k :: ks)) by (intros b Hb; by rewrite Hkinds). rewrite (others_none (omap _ _)); [by rewrite !app_nil_r|].
        intros b Hb. apply list_elem_of_omap in Hb as (tu & _ & Hb). rewrite (HR _ _ Hb). apply orb_true_r.
  - change (String.eqb "user" "assistant") with false. change (String.eqb "user" "user") with true. cbv iota.
    pose proof (others_not_results m.2) as Eo. destruct (existsb _ m.2).
    + destruct (List.filter (fun b => negb (isType "tool_result" b)) m.2) as [|o os]; cbn [flat_map fst snd]; rewrite ?app_nil_r; by rewrite <- Eo.
    + cbn [flat_map]. by rewrite !app_nil_r, E.
Qed.

Lemma indexBlocks_ok l r : indexOk r -> indexOk (indexBlocks r l).
Proof.
  revert r. induction l as [|b l IH]; intros r Hr; [done|]. apply IH. clear IH. destruct (isType "tool_result" b) eqn:E; [|done]. cbn [andb].
  destruct (negb _); [|done]. intros id b' Hb. apply lookup_insert_Some in Hb as [[_ <-]|[_ Hb]]; [done|by eapply Hr].
Qed.
Lemma vindex_ok V : indexOk (vindex V).
Proof.
  unfold vindex. assert (H : indexOk ∅) by done. revert H. generalize (∅ : gmap string AnthropicContentBlock).
  induction V as [|m V IH]; intros r Hr; [done|]. apply IH. case_match; [by apply indexBlocks_ok|done].
Qed.
(** The index holds the ids of the results of user messages. *)
Definition hasResult (l : list AnthropicContentBlock) (id : string) : bool := negb (String.eqb id "") && existsb (fun b => String.eqb (cb_ToolUseID b) id) l.
Lemma hasResult_app a b id : hasResult (a ++ b) id = hasResult a id || hasResult b id.
Proof. unfold hasResult. rewrite existsb_app. by destruct (negb _). Qed.
Lemma indexBlocks_in l r id : inIndex (indexBlocks r l) id = inIndex r id || hasResult (List.filter (isType "tool_result") l) id.
Proof.
  revert r. induction l as [|b l IH]; intros r; [unfold hasResult; cbn; by rewrite andb_false_r, orb_false_r|].
  unfold indexBlocks in *. cbn [foldl List.filter]. rewrite IH. clear IH. destruct (isType "tool_result" b); cbn [andb]; [|done].
  change (b :: ?l) with ([b] ++ l). rewrite hasResult_app, orb_assoc. f_equal. unfold hasResult. cbn [existsb]. rewrite orb_false_r.
  destruct (String.eqb_spec (cb_ToolUseID b) "") as [E|E]; cbn [negb].
  - rewrite E, (String.eqb_sym "" id). destruct (String.eqb id ""); cbn; by rewrite orb_false_r.
  - unfold inIndex. destruct (String.eqb_spec (cb_ToolUseID b) id) as [<-|Hne].
    + rewrite lookup_insert_eq, (proj2 (String.eqb_neq _ _) E). by rewrite orb_true_r.
    + rewrite lookup_insert_ne by done. by rewrite andb_false_r, orb_false_r.
Qed.
Lemma vindex_in V id : inIndex (vindex V) id = hasResult (results V) id.
Proof.
  unfold vindex. enough (H : forall r, inIndex (vindexFrom r V) id = inIndex r id || hasResult (results V) id).
  { rewrite H. unfold inIndex. by rewrite lookup_empty. }
  unfold vindexFrom, results. induction V as [|m V IH]; intros r; [unfold hasResult; cbn; by rewrite andb_false_r, orb_false_r|].
  cbn [foldl flat_map]. rewrite IH, hasResult_app, orb_assoc. f_equal. destruct (String.eqb m.1 "user"); [by rewrite indexBlocks_in|].
  unfold hasResult. cbn. by rewrite andb_false_r, orb_false_r.
Qed.

Lemma vspoken_app V W : vspoken (V ++ W) = vspoken V ++ vspoken W.
Proof. apply flat_map_app. Qed.
Lemma vasked_app V W : vasked (V ++ W) = vasked V ++ vasked W.
Proof. apply flat_map_app. Qed.
Lemma paired_keeps R V : indexOk R -> Forall (fun m => m.1 = "assistant" \/ m.1 = "user") V ->
  vspoken (flat_map (vpair R) V) = vspoken V /\ vasked (flat_map (vpair R) V) = List.filter (inIndex R) (vasked V).
Proof.
  intros HR. induction 1 as [|m V Hm _ [IH1 IH2]]; [done|]. destruct (vpair_keeps R m HR Hm) as [H1 H2].
  change (m :: V) with ([m] ++ V). cbn [flat_map app]. change (m :: V) with ([m] ++ V).
  by rewrite !vspoken_app, !vasked_app, IH1, IH2, H1, H2, List.filter_app.
Qed.
Lemma amerge_roles V : Forall (fun m : vmessage => m.1 = "assistant" \/ m.1 = "user") V -> Forall (fun m : vmessage => m.1 = "assistant" \/ m.1 = "user") (amerge V).
Proof.
  intros H. unfold amerge. apply Forall_rev.
  enough (Hf : forall r, Forall (fun m : vmessage => m.1 = "assistant" \/ m.1 = "user") r -> Forall (fun m : vmessage => m.1 = "assistant" \/ m.1 = "user") (foldl amerge1 r V)) by by apply Hf.
  induction H as [|m V Hm _ IH]; intros r Hr; [done|]. cbn [foldl]. apply IH.
  destruct r as [|p r]; [by constructor|]. cbn [amerge1]. apply Forall_cons in Hr as [Hp Hr]. case_match; repeat (apply Forall_cons; split); done.
Qed.
Lemma repair_keeps ms : Forall userOrAssistant ms -> spoken (repairMessages ms) = spoken ms /\
  asked (repairMessages ms) = List.filter (answered ms) (asked ms).
Proof.
  intros H. unfold spoken, asked, repairMessages. set (ms' := mergeConsecutiveMessages ms). rewrite view_merged, spoken_merged, asked_merged.
  assert (E : map view (normalizeAnthropicToolPairing ms') = flat_map (vpair (vindex (map view ms'))) (map view ms')).
  { unfold normalizeAnthropicToolPairing. rewrite flat_map_concat_map, concat_map, map_map, (map_ext _ _ (pair_view _)).
    by rewrite <- (map_map view (vpair _)), <- flat_map_concat_map. }
  rewrite E. subst ms'. rewrite view_merged. set (V := map view ms).
  assert (HV : Forall (fun m => m.1 = "assistant" \/ m.1 = "user") (amerge V)).
  { apply amerge_roles. apply Forall_forall. intros v Hv. apply list_elem_of_fmap in Hv as (m & -> & Hm). rewrite Forall_forall in H. destruct (H m Hm); auto. }
  destruct (paired_keeps _ _ (vindex_ok (amerge V)) HV) as [-> ->]. rewrite spoken_merged, asked_merged. split; [done|].
  apply filter_same. intros id. by rewrite vindex_in, results_merged.
Qed.

(** ** Calls and outputs among the items *)

Lemma callID_valid id : utf8_valid id = true -> utf8_valid (fromResponsesCallIDToAnthropic id) = true.
Proof.
  intros H. unfold fromResponsesCallIDToAnthropic. set (syn := if _ && _ then _ else _).
  assert (Hs : utf8_valid syn = true) by (subst syn; case_match; [exact H|done]).
  destruct (CutPrefix "fc_" id) as [after|] eqn:E; [|done]. apply CutPrefix_Some in E. subst id. by destruct (_ || _).
Qed.
Lemma callID_some id : fromResponsesCallIDToAnthropic id <> "".
Proof.
  unfold fromResponsesCallIDToAnthropic. set (syn := if _ && _ then _ else _).
  assert (Hs : syn <> "").
  { subst syn. destruct (_ && _) eqn:E; [done|]. intros ->. discriminate E. }
  destruct (CutPrefix "fc_" id) as [after|]; [|done]. destruct (_ || _) eqn:E; [|done]. intros ->. discriminate E.
Qed.

Lemma imageSource_fits4 s : fits 4 (imageSourceTree s) = true.
Proof. unfold imageSourceTree. fits_fields. Qed.
(** A block without raw texts. *)
Definition bareBlock (b : AnthropicContentBlock) : Prop := cb_Input b = "" /\ cb_Content b = "" /\ cb_CacheControl b = None.
Lemma bare_fits b : bareBlock b -> fits 3 (blockTree b) = true /\ fits 1 (blockTree b) = true.
Proof.
  intros (Hi & Hc & Hcc). unfold blockTree. rewrite Hi, Hc, Hcc. pose proof imageSource_fits4.
  assert (Hr : forall d, "" = "" \/ ValidAt d "" = true) by (by left). split.
  - apply fits_JObj; [reflexivity|]. cbv zeta. change (3 + 1) with 4. rewrite !fitsAll_app.
    repeat match goal with |- _ && _ = true => apply andb_true_iff; split end; try reflexivity; solve [fits_field].
  - apply fits_JObj; [reflexivity|]. cbv zeta. change (1 + 1) with 2. rewrite !fitsAll_app.
    repeat match goal with |- _ && _ = true => apply andb_true_iff; split end; try reflexivity; solve [fits_field].
Qed.
Lemma bare_blocks_fit d l : d = 0 \/ d = 2 -> Forall bareBlock l -> fits d (JArr (map blockTree l)) = true.
Proof.
  intros Hd H. cbn [fits]. apply andb_true_iff. split; [by destruct Hd as [-> | ->]|]. apply forallb_forall. intros t Ht.
  apply in_map_iff in Ht as (b & <- & Hb). rewrite Forall_forall in H. destruct (bare_fits b) as [H3 H1]; [by apply H, list_elem_of_In|].
  by destruct Hd as [-> | ->].
Qed.
Lemma bare_blocks_marshal l : Forall bareBlock l -> MarshalBlocks (Some l) = Some (print (JArr (map blockTree l))) /\ ValidAt 2 (print (JArr (map blockTree l))) = true.
Proof.
  intros H. split; [|by apply print_ValidAt, bare_blocks_fit; [right|]].
  unfold MarshalBlocks, Marshal, tSlice. by rewrite (fits_valid _ 0) by (done || (apply bare_blocks_fit; [by left|done])).
Qed.
Lemma textBlocks_bare s : Forall bareBlock (textBlocks s).
Proof. unfold textBlocks. case_match; by repeat constructor. Qed.
Lemma imageBlock_bare u : Forall bareBlock (imageBlock u).
Proof. unfold imageBlock. case_match; by repeat constructor. Qed.
Lemma flat_bare {A} (f : A -> list AnthropicContentBlock) l : (forall x, Forall bareBlock (f x)) -> Forall bareBlock (flat_map f l).
Proof. intros H. induction l as [|x l IH]; [constructor|]. cbn [flat_map]. apply Forall_app. by split. Qed.
Lemma output_content_ok i : rawOk (responsesFunctionOutputToAnthropicContent i).
Proof.
  assert (Hs : forall s, rawOk (MarshalString s)) by (intros s; right; exact (print_ValidAt (JStr s) 2 eq_refl)).
  unfold responsesFunctionOutputToAnthropicContent. destruct (String.eqb _ ""); [apply Hs|].
  destruct (UnmarshalParts _) as [parts|]; [|apply Hs].
  assert (Hb : Forall bareBlock (flat_map outputBlocks (elems_of parts))).
  { apply flat_bare. intros p. unfold outputBlocks. repeat case_match; [apply textBlocks_bare|apply imageBlock_bare|constructor]. }
  destruct (flat_map outputBlocks (elems_of parts)) as [|b bs]; [destruct (elems_of parts); apply Hs|].
  destruct (bare_blocks_marshal _ Hb) as [-> Hv]. by right.
Qed.

(** ** What becomes of an item *)

(** What the dialect of Anthropic can show of an item: the texts of a system item go to the
    system prompt; a user item gives its text, or its [input_text] and [text] parts and its
    images in data URIs, an assistant item its text, or its [output_text] and [text] parts,
    unless all of it is blank; calls and outputs are paired, reasoning has no place. *)
Definition isSystem (i : ResponsesInputItem) : bool := String.eqb (ri_Role i) "system" || String.eqb (ri_Role i) "developer".
Definition hasType (t : string) (i : ResponsesInputItem) : bool := negb (isSystem i) && String.eqb (ri_Type i) t.
Definition isMessage (i : ResponsesInputItem) : bool :=
  negb (isSystem i) && negb (hasType "function_call" i || hasType "function_call_output" i || hasType "reasoning" i).
Definition itemTexts (i : ResponsesInputItem) : list string :=
  if isSystem i then let text := extractTextFromContent (ri_Content i) in if String.eqb text "" then [] else [text] else [].
Definition said (f : ResponsesContentPart -> list AnthropicContentBlock) (content : string) : list AnthropicContentBlock :=
  match UnmarshalString content with
  | Some s => textBlocks s
  | None => flat_map f (elems_of (default None (UnmarshalParts content)))
  end.
Definition blank (b : AnthropicContentBlock) : bool := String.eqb (cb_Type b) "text" && String.eqb (TrimSpace (cb_Text b)) "".
Definition itemBlocks (i : ResponsesInputItem) : list AnthropicContentBlock :=
  if isMessage i then
    if String.eqb (ri_Role i) "assistant" then let blocks := said assistantBlocks (ri_Content i) in if forallb blank blocks then [] else blocks
    else said userBlocks (ri_Content i)
  else [].
Definition callID (i : ResponsesInputItem) : string := fromResponsesCallIDToAnthropic (ri_CallID i).
Definition itemCalls (i : ResponsesInputItem) : list string := if hasType "function_call" i then [callID i] else [].
Definition itemOutputs (i : ResponsesInputItem) : list string := if hasType "function_call_output" i then [callID i] else [].
(** A message whose content is a text or a list of parts, a call whose arguments are JSON. *)
Definition readable (content : string) : Prop := content = "" \/ is_Some (UnmarshalString content) \/ is_Some (UnmarshalParts content).
Record plainItem (i : ResponsesInputItem) : Prop := {
  pi_content : isMessage i = true -> readable (ri_Content i);
  pi_arguments : hasType "function_call" i = true -> rawOk (ri_Arguments i) }.

Lemma quote_empty s : UnmarshalString (json_quote s) = Some s -> s <> "" -> json_quote s <> json_quote "".
Proof. intros H Hs E. rewrite E, UnmarshalString_quote in H by done. congruence. Qed.
Lemma text_not_empty s : utf8_valid s = true -> anthropicContentIsEmpty (MarshalString s) = String.eqb s "".
Proof.
  intros Hv. destruct (String.eqb_spec s "") as [->|Hs]; [done|]. unfold anthropicContentIsEmpty. rewrite (TrimSpace_quote s : TrimSpace (MarshalString s) = _).
  rewrite !orb_false_iff. split_and!; apply String.eqb_neq; try done. apply quote_empty; [by apply UnmarshalString_quote|done].
Qed.
Lemma text_content_view role s : utf8_valid s = true -> view (mkMessage role (MarshalString s)) = (role, [textBlock s]).
Proof.
  intros Hv. unfold view, viewOf, parseContentBlocks. cbn [am_Role am_Content]. rewrite UnmarshalBlocks_quote.
  by rewrite (UnmarshalString_quote s Hv : UnmarshalString (MarshalString s) = Some s).
Qed.
(** The pieces of a valid text that is cut at an ASCII character are valid. *)
Definition high (c : ascii) : bool := 128 <=? byte_of c.
Lemma rune_high w : rune w -> (exists x, w = String x "" /\ byte_of x < 128) \/ str_forallb high w = true.
Proof.
  intros H. destruct (rune_shape w H) as (a & [[-> Ha]|(Ha & Hs)]); [left; by exists a|right]. destruct H as [Hv _]. unfold high.
  destruct Hs as [(b & -> & E2)|[(b & c & -> & E2 & E3)|(b & c & d & -> & E2 & E3)]]; cbn [utf8_valid str_forallb] in *;
    rewrite (proj2 (Z.ltb_ge _ _)), ?E2, ?E3 in Hv by done; repeat (apply andb_true_iff in Hv as [Hv ?]); bytes.
  - lia.
  - destruct (byte_of a =? 224), (byte_of a =? 237); lia.
  - destruct (byte_of a =? 240), (byte_of a =? 244); lia.
Qed.
Lemma cutAt_high w r : str_forallb high w = true -> cutAt ";" (w +:+ r) = match cutAt ";" r with Some (a, b) => Some (w +:+ a, b) | None => None end.
Proof.
  induction w as [|x w IH]; [intros _; change ("" +:+ r) with r; destruct (cutAt ";" r) as [[a b]|]; reflexivity|]. cbn [str_forallb]. intros [Hx Hw]%andb_true_iff. cbn [cutAt]. norm. cbn [cutAt].
  destruct (Ascii.eqb_spec x ";") as [->|_]; [done|]. rewrite IH by done. by destruct (cutAt ";" r) as [[]|].
Qed.
Lemma cutAt_valid s a b : utf8_valid s = true -> cutAt ";" s = Some (a, b) -> utf8_valid a = true /\ utf8_valid b = true.
Proof.
  remember (String.length s) as n eqn:En. revert s a b En. induction (lt_wf n) as [n _ IH]. intros s a b -> Hv Hc.
  destruct (valid_runes s Hv) as [->|(w & r & -> & Hw & Hr)]; [done|].
  assert (Hshort : (String.length r < String.length (w +:+ r))%nat) by (rewrite str_length_app; destruct Hw as (_ & y & t & -> & _); simpl; lia).
  assert (Hrest : (exists a', a = w +:+ a' /\ cutAt ";" r = Some (a', b)) -> utf8_valid a = true /\ utf8_valid b = true).
  { intros (a' & -> & Hc'). rewrite rune_app by done. by eapply IH. }
  destruct (rune_high w Hw) as [(x & -> & Hx)|Hh].
  - change (String x "" +:+ r) with (String x r) in Hc. cbn [cutAt] in Hc. destruct (Ascii.eqb x ";"); [injection Hc as <- <-; by rewrite Hr|]. destruct (cutAt ";" r) as [[a' b']|]; [|done].
    injection Hc as <- <-. apply Hrest. by exists a'.
  - rewrite cutAt_high in Hc by done. destruct (cutAt ";" r) as [[a' b']|]; [|done]. injection Hc as <- <-. apply Hrest. by exists a'.
Qed.
Lemma textBlocks_ok s : utf8_valid s = true -> Forall blockOk (textBlocks s).
Proof. intros Hs. unfold textBlocks. case_match; constructor; [by apply textBlock_ok|constructor]. Qed.
Lemma imageBlock_ok uri : utf8_valid uri = true -> Forall blockOk (imageBlock uri).
Proof.
  intros Hu. unfold imageBlock, dataURIToAnthropicImageSource. destruct (CutPrefix "data:" uri) as [rest|] eqn:E1; [|constructor]. apply CutPrefix_Some in E1. subst uri.
  destruct (cutAt ";" rest) as [[media rest2]|] eqn:E2; [|constructor]. destruct (cutAt_valid _ _ _ (Hu : utf8_valid rest = true) E2) as [Hm Hr].
  destruct (CutPrefix "base64," rest2) as [data|] eqn:E3; [|constructor]. apply CutPrefix_Some in E3. subst rest2.
  constructor; [|constructor]. constructor; try done; try (by left). by intros source [= <-].
Qed.
Lemma said_ok f content : (forall p, partOk p -> Forall blockOk (f p)) -> Forall blockOk (said f content).
Proof.
  intros Hf. unfold said. destruct (UnmarshalString content) as [s|] eqn:E; [by eapply textBlocks_ok, UnmarshalString_valid|].
  destruct (UnmarshalParts content) as [parts|] eqn:Ep; [|constructor]. pose proof (parts_decoded _ _ Ep) as Hp. cbn [default from_option id].
  induction Hp as [|p l Hp _ IH]; [constructor|]. cbn [flat_map]. apply Forall_app. split; [by apply Hf|exact IH].
Qed.
Lemma userBlocks_ok p : partOk p -> Forall blockOk (userBlocks p).
Proof. intros []. unfold userBlocks. case_match; [by apply textBlocks_ok|]. case_match; [by apply imageBlock_ok|constructor]. Qed.
Lemma assistantBlocks_ok p : partOk p -> Forall blockOk (assistantBlocks p).
Proof. intros []. unfold assistantBlocks. case_match; [by apply textBlocks_ok|constructor]. Qed.
(** Texts and images: no raw texts, no tools. *)
Definition speech (b : AnthropicContentBlock) : Prop := compactBlock b = b /\ isType "tool_use" b = false /\ isType "tool_result" b = false.
Lemma textBlocks_speech s : Forall speech (textBlocks s).
Proof. unfold textBlocks. case_match; by repeat constructor. Qed.
Lemma imageBlock_speech uri : Forall speech (imageBlock uri).
Proof. unfold imageBlock. case_match; by repeat constructor. Qed.
Lemma said_speech f content : (forall p, Forall speech (f p)) -> Forall speech (said f content).
Proof.
  intros Hf. unfold said. destruct (UnmarshalString content); [apply textBlocks_speech|].
  induction (elems_of _) as [|p l IH]; [constructor|]. cbn [flat_map]. apply Forall_app. by split.
Qed.
Lemma userBlocks_speech p : Forall speech (userBlocks p).
Proof. unfold userBlocks. case_match; [apply textBlocks_speech|]. case_match; [apply imageBlock_speech|constructor]. Qed.
Lemma assistantBlocks_speech p : Forall speech (assistantBlocks p).
Proof. unfold assistantBlocks. case_match; [apply textBlocks_speech|constructor]. Qed.

(** What one message shows. *)
Record shows (ms : list AnthropicMessage) (blocks : list AnthropicContentBlock) (calls outputs : list string) : Prop := {
  sh_spoken : spoken ms = blocks; sh_asked : asked ms = calls; sh_outputs : map cb_ToolUseID (results (map view ms)) = outputs }.
Lemma shows_nil : shows [] [] [] [].
Proof. done. Qed.
Lemma shows_view m role blocks : view m = (role, blocks) -> Forall speech blocks -> shows [m] blocks [] [].
Proof.
  intros E Hb. assert (Ho : others blocks = blocks /\ useIDs blocks = [] /\ List.filter (isType "tool_result") blocks = []).
  { clear E. unfold others, useIDs. induction Hb as [|b l (_ & H1 & H2) _ (IH1 & IH2 & IH3)]; [done|]. cbn [List.filter]. rewrite H1, H2. cbn [orb negb].
    by rewrite IH1, IH3. }
  destruct Ho as (H1 & H2 & H3). constructor; unfold spoken, asked, vspoken, vasked, results; cbn [map flat_map]; rewrite E; cbn [fst snd]; rewrite app_nil_r.
  - done.
  - by case_match.
  - case_match; [by rewrite H3|done].
Qed.
Lemma shows_blocks role blocks : Forall blockOk blocks -> Forall speech blocks -> shows [mkMessage role (blocksText blocks)] blocks [] [].
Proof.
  intros Hok Hs. apply (shows_view _ role); [|done]. rewrite <- fromBlocks_content, view_from by done. f_equal.
  clear Hok. induction Hs as [|b l (Hb & _) _ IH]; [done|]. cbn [map]. by rewrite Hb, IH.
Qed.

Lemma shows_app m1 b1 c1 o1 m2 b2 c2 o2 : shows m1 b1 c1 o1 -> shows m2 b2 c2 o2 -> shows (m1 ++ m2) (b1 ++ b2) (c1 ++ c2) (o1 ++ o2).
Proof.
  intros [<- <- <-] [<- <- <-]. constructor; unfold spoken, asked, results; rewrite map_app; [apply vspoken_app|apply vasked_app|].
  by rewrite flat_map_app, map_app.
Qed.
Lemma shows_call i : itemOk i -> rawOk (ri_Arguments i) ->
  shows [anthropicMessageFromBlocks "assistant"
    [{ no_block with cb_Type := "tool_use"; cb_ID := callID i; cb_Name := ri_Name i; cb_Input := (if String.eqb (ri_Arguments i) "" then "{}" else ri_Arguments i) }]] [] [callID i] [].
Proof.
  intros Hi Ha. constructor; unfold spoken, asked, vspoken, vasked, results; cbn [map flat_map]; rewrite view_from; try done;
    (constructor; [|constructor]; destruct Hi; constructor; try done; try (by left); [by apply callID_valid|cbn; case_match; [by right|exact Ha]]).
Qed.
Lemma shows_output i : itemOk i ->
  shows [anthropicMessageFromBlocks "user" [{ no_block with cb_Type := "tool_result"; cb_ToolUseID := callID i; cb_Content := responsesFunctionOutputToAnthropicContent i }]]
    [] [] [callID i].
Proof.
  intros Hi. constructor; unfold spoken, asked, vspoken, vasked, results; cbn [map flat_map]; rewrite view_from; try done;
    (constructor; [|constructor]; destruct Hi; constructor; try done; try (by left); [by apply callID_valid|apply output_content_ok]).
Qed.
(** A user message, and an assistant message. *)
Lemma user_shows content sys ms : readable content ->
  match convertResponsesUserToAnthropicContent content with
  | Err e => Err e
  | Ok content => if anthropicContentIsEmpty content then Ok ([] : list string, []) else Ok ([], [mkMessage "user" content])
  end = Ok (sys, ms) -> sys = [] /\ shows ms (said userBlocks content) [] [].
Proof.
  intros Hr. unfold convertResponsesUserToAnthropicContent. pose proof (said_ok userBlocks content userBlocks_ok) as Hok. pose proof (said_speech userBlocks content userBlocks_speech) as Hsp.
  unfold said in *. destruct (String.eqb_spec content "") as [->|Hne]; [by intros [= <- <-]|].
  destruct (UnmarshalString content) as [s|] eqn:Es.
  - pose proof (UnmarshalString_valid _ _ Es) as Hv. rewrite text_not_empty by done. unfold textBlocks in *. destruct (String.eqb s ""); [by intros [= <- <-]|].
    intros [= <- <-]. split; [done|]. apply (shows_view _ "user"); [by apply text_content_view|done].
  - destruct Hr as [Hr|[[s Hr]|[parts Hr]]]; [done|congruence|]. rewrite Hr in *. cbn [default from_option id] in *.
    destruct (flat_map userBlocks (elems_of parts)) as [|b bs]; [by intros [= <- <-]|]. rewrite (proj1 (blocks_marshal _ Hok)). cbn [orJSONError].
    rewrite blocksText_notEmpty by done. intros [= <- <-]. split; [done|]. by apply shows_blocks.
Qed.
Lemma blank_blocks blocks : Forall blockOk blocks -> Forall speech blocks -> blocks <> [] -> anthropicContentIsOnlyBlankText (blocksText blocks) = forallb blank blocks.
Proof.
  intros Hok Hs Hne. unfold anthropicContentIsOnlyBlankText, parseContentBlocks. rewrite (proj2 (blocks_marshal _ Hok)). cbn [elems_of default from_option id].
  assert (E : map compactBlock blocks = blocks) by (clear -Hs; induction Hs as [|b l [Hb _] _ IH]; [done|]; cbn [map]; by rewrite Hb, IH).
  rewrite E. by destruct blocks.
Qed.
Lemma assistant_shows content sys ms : readable content ->
  match convertResponsesAssistantToAnthropicContent content with
  | Err e => Err e
  | Ok content => if anthropicContentIsEmpty content || anthropicContentIsOnlyBlankText content then Ok ([] : list string, []) else Ok ([], [mkMessage "assistant" content])
  end = Ok (sys, ms) -> sys = [] /\ shows ms (let blocks := said assistantBlocks content in if forallb blank blocks then [] else blocks) [] [].
Proof.
  intros Hr. pose proof (said_ok assistantBlocks content assistantBlocks_ok) as Hok. pose proof (said_speech assistantBlocks content assistantBlocks_speech) as Hsp.
  assert (Hempty : blockOk (textBlock "")) by (by apply textBlock_ok).
  assert (Hkey : forall blocks, convertResponsesAssistantToAnthropicContent content = orJSONError (MarshalBlocks (Some blocks)) ->
    Forall blockOk blocks -> Forall speech blocks -> blocks <> [] -> (if forallb blank blocks then [] else blocks) = (if forallb blank (said assistantBlocks content) then [] else said assistantBlocks content) ->
    match convertResponsesAssistantToAnthropicContent content with
    | Err e => Err e
    | Ok content => if anthropicContentIsEmpty content || anthropicContentIsOnlyBlankText content then Ok ([] : list string, []) else Ok ([], [mkMessage "assistant" content])
    end = Ok (sys, ms) -> sys = [] /\ shows ms (let blocks := said assistantBlocks content in if forallb blank blocks then [] else blocks) [] []).
  { intros blocks -> Hb Hs Hne E. cbv zeta. rewrite <- E, (proj1 (blocks_marshal _ Hb)). cbn [orJSONError]. rewrite blocksText_notEmpty, blank_blocks by done. cbn [orb].
    destruct (forallb blank blocks); intros [= <- <-]; (split; [done|]); [apply shows_nil|by apply shows_blocks]. }
  unfold convertResponsesAssistantToAnthropicContent in *. destruct (String.eqb_spec content "") as [->|Hne]; [by apply (Hkey [textBlock ""]); [|repeat constructor..|]|].
  revert Hok Hsp Hkey. unfold said. destruct (UnmarshalString content) as [s|] eqn:Es; intros Hok Hsp Hkey.
  - apply (Hkey [textBlock s]); [done| | |done|].
    + constructor; [by eapply textBlock_ok, UnmarshalString_valid|constructor].
    + by repeat constructor.
    + unfold textBlocks. by destruct (String.eqb_spec s "") as [->|].
  - destruct Hr as [Hr|[[s Hr]|[parts Hr]]]; [done|by rewrite Es in Hr|]. rewrite Hr in *. cbn [default from_option id] in *.
    destruct (flat_map assistantBlocks (elems_of parts)) as [|b bs] eqn:Eb; [apply (Hkey [textBlock ""]); [done|by repeat constructor..]|by apply (Hkey (b :: bs))].
Qed.
Lemma item_shows i sys ms : itemOk i -> plainItem i -> convertItem i = Ok (sys, ms) ->
  sys = itemTexts i /\ shows ms (itemBlocks i) (itemCalls i) (itemOutputs i).
Proof.
  intros Hi [Hc Ha]. unfold convertItem, itemTexts, itemBlocks, itemCalls, itemOutputs, isMessage, hasType in *. unfold isSystem in *.
  destruct (_ || _); cbn [negb andb orb] in *; [by intros [= <- <-]|].
  destruct (String.eqb_spec (ri_Type i) "function_call") as [Et|_]; cbn [negb andb orb] in *.
  { rewrite Et. change (String.eqb "function_call" "function_call_output") with false. intros [= <- <-]. split; [done|]. by apply shows_call, Ha. }
  destruct (String.eqb (ri_Type i) "function_call_output"); cbn [negb andb orb] in *; [intros [= <- <-]; split; [done|by apply shows_output]|].
  destruct (String.eqb (ri_Type i) "reasoning"); cbn [negb andb orb] in *; [by intros [= <- <-]|].
  destruct (String.eqb_spec (ri_Role i) "user") as [Er|_].
  { rewrite Er. change (String.eqb "user" "assistant") with false. apply user_shows. by apply Hc. }
  destruct (String.eqb (ri_Role i) "assistant"); [apply assistant_shows; by apply Hc|].
  destruct (String.eqb_spec (ri_Content i) "") as [Ee|_]; [intros [= <- <-]; by rewrite Ee|apply user_shows; by apply Hc].
Qed.
Lemma items_show items sys ms : Forall itemOk items -> Forall plainItem items -> convertItems items = Ok (sys, ms) ->
  sys = flat_map itemTexts items /\ shows ms (flat_map itemBlocks items) (flat_map itemCalls items) (flat_map itemOutputs items).
Proof.
  intros Hok. revert sys ms. induction Hok as [|i items Hi _ IH]; intros sys ms Hp; [by intros [= <- <-]|]. apply Forall_cons in Hp as [Hpi Hp]. cbn [convertItems flat_map].
  destruct (convertItem i) as [[s1 m1]|] eqn:E1; [|done]. destruct (convertItems items) as [[s2 m2]|]; [|done]. intros [= <- <-].
  destruct (item_shows _ _ _ Hi Hpi E1) as [-> H1]. destruct (IH _ _ Hp eq_refl) as [-> H2]. split; [done|]. by apply shows_app.
Qed.

(** The request of [ToolPairing.lateOutputs]. *)
Definition lateItems : gslice ResponsesInputItem := default None (UnmarshalItems (rq_Input lateOutputs)).
Definition lateRequest : AnthropicRequest :=
  match ResponsesToAnthropicRequest lateOutputs with Ok out => out | Err _ => mkAnthropicRequest "" 0 "" [] [] false None None [] None "" "" None end.

(** ** Which requests are refused *)

(** A content that is a string or a list of blocks. *)
Definition contentParses (c : string) : Prop := is_Some (UnmarshalString c) \/ is_Some (UnmarshalBlocks c).
Definition requestParses (req : AnthropicRequest) : Prop :=
  (aq_System req = "" \/ contentParses (aq_System req)) /\ Forall (fun m => contentParses (am_Content m)) (aq_Messages req).
Definition choiceParses (req : AnthropicRequest) : Prop :=
  aq_ToolChoice req = "" \/ is_Some (Unmarshal (decodeStruct toolChoiceFields) (mkToolChoice "" "") (aq_ToolChoice req)).
Definition inputParses (input : string) : Prop := is_Some (UnmarshalString input) \/ is_Some (UnmarshalItems input).
(** A conversion that works exactly when [P]. *)
Definition worksWhen {A} (P : Prop) (Q : A -> Prop) (r : result convertError A) : Prop :=
  match r with Ok x => P /\ Q x | Err e => e = JSONError /\ ~ P end.
Definition rawItems (l : list ResponsesInputItem) : Prop := Forall (fun i => rawOk (ri_Content i)) l.

Lemma parts_marshal_total ps : exists raw, MarshalParts (Some ps) = Some raw /\ rawOk raw.
Proof.
  exists (partsText ps). split; [|right; apply partsText_raw].
  unfold MarshalParts, Marshal, tSlice. by rewrite (fits_valid _ 0) by (done || (apply partsText_fits; by left)).
Qed.
Lemma plain_items {A} (f : A -> ResponsesInputItem) l : (forall x, ri_Content (f x) = "") -> rawItems (map f l).
Proof. intros H. apply Forall_forall. intros i Hi. apply list_elem_of_fmap in Hi as (x & -> & _). left. apply H. Qed.
Lemma message_raw role raw : rawOk raw -> rawItems [message_item role raw].
Proof. intros H. by constructor. Qed.
Lemma user_works c : worksWhen (contentParses c) rawItems (anthropicUserToResponses c).
Proof.
  unfold anthropicUserToResponses, contentParses, worksWhen. destruct (UnmarshalString c) as [s|].
  - destruct (parts_marshal_total [input_text s]) as (raw & -> & Hr). split; [left; by eexists|by apply message_raw].
  - destruct (UnmarshalBlocks c) as [bs|].
    + assert (Ho : rawItems (map outputItem (List.filter (isType "tool_result") (elems_of bs)))) by by apply plain_items.
      destruct (_ ++ _) as [|p ps]; [split; [right; by eexists|done]|].
      destruct (parts_marshal_total (p :: ps)) as (raw & -> & Hr). split; [right; by eexists|].
      apply Forall_app. split; [done|by apply message_raw].
    + split; [done|]. by intros [[? ?]|[? ?]].
Qed.
Lemma assistant_works c : worksWhen (contentParses c) rawItems (anthropicAssistantToResponses c).
Proof.
  unfold anthropicAssistantToResponses, contentParses, worksWhen. destruct (UnmarshalString c) as [s|].
  - destruct (parts_marshal_total [output_text s]) as (raw & -> & Hr). split; [left; by eexists|by apply message_raw].
  - destruct (UnmarshalBlocks c) as [bs|]; [|split; [done|]; by intros [[? ?]|[? ?]]].
    assert (Hc : rawItems (map callItem (List.filter (isType "tool_use") (elems_of bs)))) by by apply plain_items.
    assert (Hr : rawItems (flat_map reasoningItem (elems_of bs))).
    { clear Hc. generalize (elems_of bs). intros l. induction l as [|b l IH]; [constructor|]. cbn [flat_map]. apply Forall_app. split; [|done].
      unfold reasoningItem. case_match; [|constructor]. cbv zeta. case_match; [constructor|]. constructor; [by left|constructor]. }
    destruct (String.eqb _ ""); [split; [right; by eexists|by apply Forall_app]|].
    destruct (parts_marshal_total [output_text (extractAnthropicTextFromBlocks (elems_of bs))]) as (raw & -> & Hraw).
    split; [right; by eexists|]. apply Forall_app. split; [done|]. apply Forall_app. split; [by apply message_raw|done].
Qed.
Lemma messages_work ms : worksWhen (Forall (fun m => contentParses (am_Content m)) ms) rawItems (convertMessages ms).
Proof.
  induction ms as [|m ms IH]; [by split; constructor|]. cbn [convertMessages].
  assert (H : worksWhen (contentParses (am_Content m)) rawItems (anthropicMsgToResponsesItems m)).
  { unfold anthropicMsgToResponsesItems. destruct (String.eqb (am_Role m) "user"); [apply user_works|].
    destruct (String.eqb (am_Role m) "assistant"); [apply assistant_works|apply user_works]. }
  unfold worksWhen in *. destruct (anthropicMsgToResponsesItems m) as [items|e]; [destruct H as [H1 H2]|destruct H as [-> H]].
  - destruct (convertMessages ms) as [rest|e]; destruct IH as [IH1 IH2].
    + split; [by constructor|by apply Forall_app].
    + split; [done|]. intros Hf. apply Forall_cons in Hf as [_ Hf]. done.
  - split; [done|]. intros Hf. apply Forall_cons in Hf as [Hf _]. done.
Qed.
Lemma input_works req : worksWhen (requestParses req) rawItems (convertAnthropicToResponsesInput (aq_System req) (aq_Messages req)).
Proof.
  unfold convertAnthropicToResponsesInput, requestParses. cbv zeta. pose proof (messages_work (aq_Messages req)) as Hm.
  match goal with |- worksWhen _ _ (match ?x with Ok _ => _ | Err _ => _ end) => set (sys := x) end.
  assert (Hs : worksWhen (aq_System req = "" \/ contentParses (aq_System req)) rawItems sys).
  { subst sys. destruct (String.eqb_spec (aq_System req) "") as [E|E]; [split; [by left|constructor]|].
    unfold parseAnthropicSystemContentParts, contentParses. destruct (UnmarshalString (aq_System req)) as [s|].
    - destruct (_ || _); [by split; [right; left; eexists|constructor]|].
      destruct (parts_marshal_total [input_text s]) as (raw & -> & Hr). split; [right; left; by eexists|by apply message_raw].
    - destruct (UnmarshalBlocks (aq_System req)) as [bs|]; [|split; [done|]; by intros [|[[? ?]|[? ?]]]].
      destruct (flat_map systemPart (elems_of bs)) as [|p ps]; [by split; [right; right; eexists|constructor]|].
      destruct (parts_marshal_total (p :: ps)) as (raw & -> & Hr). split; [right; right; by eexists|by apply message_raw]. }
  clearbody sys. unfold worksWhen in *. destruct sys as [out|e]; [|destruct Hs as [-> Hs]; by split; [|intros [? _]]].
  destruct (convertMessages (aq_Messages req)) as [items|e]; destruct Hm as [Hm1 Hm2], Hs as [Hs1 Hs2].
  - by split; [|apply Forall_app].
  - split; [done|]. by intros [_ ?].
Qed.
Lemma items_marshal_total items : rawItems items -> is_Some (MarshalItems (sliceOf items)).
Proof.
  intros H. destruct items as [|i items]; [by eexists|]. unfold MarshalItems, Marshal, tSlice. cbn [sliceOf].
  rewrite (fits_valid _ 0); [by eexists|done|]. cbn [fits]. apply andb_true_iff. split; [done|]. apply forallb_forall. intros t Ht.
  apply in_map_iff in Ht as (x & <- & Hx). unfold rawItems in H. rewrite Forall_forall in H. by apply itemTree_fits, H, list_elem_of_In.
Qed.
Lemma choice_works raw : match convertAnthropicToolChoiceToResponses raw with
  | Ok _ => is_Some (Unmarshal (decodeStruct toolChoiceFields) (mkToolChoice "" "") raw)
  | Err _ => Unmarshal (decodeStruct toolChoiceFields) (mkToolChoice "" "") raw = None end.
Proof.
  unfold convertAnthropicToolChoiceToResponses. destruct (Unmarshal _ _ raw) as [tc|]; [|done]. cbv zeta.
  rewrite choice_marshal. by repeat match goal with |- match (if ?b then _ else _) with _ => _ end => destruct b end; eexists.
Qed.
Lemma anthropic_errors req : match AnthropicToResponses req with
  | Ok _ => requestParses req /\ choiceParses req
  | Err ToolChoiceError => requestParses req /\ ~ choiceParses req
  | Err JSONError => ~ requestParses req
  | Err ParseInputError => False end.
Proof.
  unfold AnthropicToResponses. pose proof (input_works req) as Hi. unfold worksWhen in Hi.
  destruct (convertAnthropicToResponsesInput _ _) as [input|e]; [|destruct Hi as [-> Hi]; done]. destruct Hi as [Hp Hr].
  destruct (items_marshal_total input Hr) as [raw ->]. cbv zeta. unfold choiceParses.
  destruct (String.eqb_spec (aq_ToolChoice req) "") as [E|E]; [by split; [|left]|].
  pose proof (choice_works (aq_ToolChoice req)) as Hc. destruct (convertAnthropicToolChoiceToResponses _) as [c|e].
  - by split; [|right].
  - split; [done|]. intros [|[x Hx]]; [done|]. by rewrite Hx in Hc.
Qed.

Lemma user_content_total raw : exists c, convertResponsesUserToAnthropicContent raw = Ok c.
Proof.
  unfold convertResponsesUserToAnthropicContent. destruct (String.eqb raw ""); [by eexists|]. destruct (UnmarshalString raw); [by eexists|].
  destruct (UnmarshalParts raw) as [parts|]; [|by eexists].
  assert (Hb : Forall bareBlock (flat_map userBlocks (elems_of parts))).
  { apply flat_bare. intros p. unfold userBlocks. repeat case_match; [apply textBlocks_bare|apply imageBlock_bare|constructor]. }
  destruct (flat_map userBlocks (elems_of parts)) as [|b bs]; [by eexists|]. destruct (bare_blocks_marshal _ Hb) as [-> _]. by eexists.
Qed.
Lemma assistant_content_total raw : exists c, convertResponsesAssistantToAnthropicContent raw = Ok c.
Proof.
  assert (Hone : forall s, Forall bareBlock [textBlock s]) by by repeat constructor.
  unfold convertResponsesAssistantToAnthropicContent. destruct (String.eqb raw "").
  { destruct (bare_blocks_marshal _ (Hone "")) as [-> _]. by eexists. }
  destruct (UnmarshalString raw) as [s|]. { destruct (bare_blocks_marshal _ (Hone s)) as [-> _]. by eexists. }
  destruct (UnmarshalParts raw) as [parts|]; [|by eexists].
  assert (Hb : Forall bareBlock (flat_map assistantBlocks (elems_of parts))).
  { apply flat_bare. intros p. unfold assistantBlocks. case_match; [apply textBlocks_bare|constructor]. }
  destruct (flat_map assistantBlocks (elems_of parts)) as [|b bs]; cbv zeta.
  - destruct (bare_blocks_marshal _ (Hone "")) as [-> _]. by eexists.
  - destruct (bare_blocks_marshal _ Hb) as [-> _]. by eexists.
Qed.
Lemma convertItem_total i : exists r, convertItem i = Ok r.
Proof.
  unfold convertItem. destruct (user_content_total (ri_Content i)) as [c ->], (assistant_content_total (ri_Content i)) as [a ->]. cbv zeta.
  repeat match goal with |- exists r, (if ?b then _ else _) = Ok r => destruct b end; by eexists.
Qed.
Lemma convertItems_total items : exists r, convertItems items = Ok r.
Proof.
  induction items as [|i items [[s2 m2] IH]]; [by eexists|]. cbn [convertItems]. destruct (convertItem_total i) as [[s1 m1] ->]. rewrite IH. by eexists.
Qed.
Lemma responses_choice_total raw : exists c, convertResponsesToAnthropicToolChoice raw = Ok c.
Proof.
  unfold convertResponsesToAnthropicToolChoice. destruct (UnmarshalString raw); [by eexists|]. destruct (Unmarshal _ _ raw) as [tc|]; [|by eexists].
  cbv zeta. destruct (String.eqb (fc_Type tc) "function"); [|by eexists].
  match goal with |- exists r, (if String.eqb ?n "" then _ else _) = Ok r => destruct (String.eqb n ""); [by eexists|]; rewrite (choice_marshal n) end.
  by eexists.
Qed.
Lemma responses_errors req : match ResponsesToAnthropicRequest req with
  | Ok _ => inputParses (rq_Input req)
  | Err e => e = ParseInputError /\ ~ inputParses (rq_Input req) end.
Proof.
  unfold ResponsesToAnthropicRequest, convertResponsesInputToAnthropic, inputParses.
  destruct (responses_choice_total (rq_ToolChoice req)) as [c ->].
  destruct (UnmarshalString (rq_Input req)) as [s|]; [by destruct (String.eqb (rq_ToolChoice req) ""); left; eexists|].
  destruct (UnmarshalItems (rq_Input req)) as [items|]; [|split; [done|]; by intros [[? ?]|[? ?]]].
  destruct (convertItems_total (elems_of items)) as [[sys ms] ->]. by destruct (String.eqb (rq_ToolChoice req) ""); right; eexists.
Qed.

(** C18: Exactly the requests that can be read are converted.  An Anthropic request
    is refused only when its system prompt or the content of a message is neither
    a string nor a list of blocks, or else when its tool choice cannot be read; a
    Responses request only when its input is neither a string nor a list of items.
    What the converters build can always be encoded. *)
Theorem conversion_errors (aq : AnthropicRequest) (rq : ResponsesRequest) :
  match AnthropicToResponses aq with
  | Ok _ => requestParses aq /\ choiceParses aq
  | Err ToolChoiceError => requestParses aq /\ ~ choiceParses aq
  | Err JSONError => ~ requestParses aq
  | Err ParseInputError => False
  end /\
  match ResponsesToAnthropicRequest rq with
  | Ok _ => inputParses (rq_Input rq)
  | Err e => e = ParseInputError /\ ~ inputParses (rq_Input rq)
  end.
Proof. split; [apply anthropic_errors|apply responses_errors]. Qed.

(** ** Token limits *)

(** The effort a Responses request asks for; none is empty. *)
Definition effortOf (req : ResponsesRequest) : string := match rq_Reasoning req with Some r => rg_Effort r | None => "" end.

(** C19: The limit of a converted request is that of the Responses request when it is
    positive, else 8192.  Thinking is enabled exactly when an effort other than low
    is asked for, with a budget from 4096 to 32768 tokens; without a limit, the
    budget is below the limit, as Anthropic demands, only for the medium effort:
    for every higher effort the upstream refuses the request. *)
Theorem thinking_limits (req : ResponsesRequest) (out : AnthropicRequest) : ResponsesToAnthropicRequest req = Ok out ->
  aq_MaxTokens out = match rq_MaxOutputTokens req with Some v => if 0 <? v then v else 8192 | None => 8192 end /\
  match aq_Thinking out with
  | None => effortOf req = "" \/ effortOf req = "low"
  | Some th => effortOf req <> "" /\ effortOf req <> "low" /\ th_Type th = "enabled" /\ 4096 <= th_BudgetTokens th <= 32768 /\
      (rq_MaxOutputTokens req = None -> (th_BudgetTokens th < aq_MaxTokens out <-> effortOf req = "medium"))
  end.
Proof.
  intros H.
  assert (Hout : aq_MaxTokens out = (let maxTokens := match rq_MaxOutputTokens req with Some v => if 0 <? v then v else 0 | None => 0 end in if maxTokens =? 0 then 8192 else maxTokens) /\
    aq_Thinking out = match (match rq_Reasoning req with Some r => if String.eqb (rg_Effort r) "" then None else Some (mapResponsesEffortToAnthropic (rg_Effort r)) | None => None end) with
                      | Some effort => if String.eqb effort "low" then None else Some (mkThinking "enabled" (defaultThinkingBudget effort)) | None => None end).
  { unfold ResponsesToAnthropicRequest in H. destruct (convertResponsesInputToAnthropic _ _) as [[sys ms]|]; [|done]. cbv zeta in H.
    destruct (String.eqb (rq_ToolChoice req) ""); [by injection H as <-|]. destruct (convertResponsesToAnthropicToolChoice _); [by injection H as <-|done]. }
  destruct Hout as [Hm Ht]. clear H. assert (Hl : aq_MaxTokens out = match rq_MaxOutputTokens req with Some v => if 0 <? v then v else 8192 | None => 8192 end).
  { rewrite Hm. cbv zeta. destruct (rq_MaxOutputTokens req) as [v|]; [|done]. destruct (Z.ltb_spec 0 v); [|done]. by rewrite (proj2 (Z.eqb_neq v 0)) by lia. }
  split; [done|]. rewrite Ht. unfold effortOf. clear Hm Ht. destruct (rq_Reasoning req) as [r|]; [|by left].
  destruct (String.eqb_spec (rg_Effort r) "") as [E|E]; [by left|]. unfold mapResponsesEffortToAnthropic, defaultThinkingBudget.
  destruct (String.eqb_spec (rg_Effort r) "xhigh") as [->|E1].
  - cbn. split_and!; try done. intros Hn. rewrite Hl, Hn. done.
  - destruct (String.eqb_spec (rg_Effort r) "low") as [E2|E2]; [by right|]. cbn [th_Type th_BudgetTokens]. split_and!; try done.
    + repeat case_match; lia.
    + repeat case_match; lia.
    + intros Hn. rewrite Hl, Hn. destruct (String.eqb_spec (rg_Effort r) "medium") as [->|E3]; [done|]. split; [|by intros]. intros Hlt. exfalso.
      destruct (String.eqb (rg_Effort r) "high"), (String.eqb (rg_Effort r) "max"); lia.
Qed.
Definition highEffort : ResponsesRequest :=
  { no_responses_request with rq_Input := json_quote "hi"; rq_Reasoning := Some (mkReasoning "high" "") }.
Lemma thinking_limits_witness : exists out, ResponsesToAnthropicRequest highEffort = Ok out /\ aq_MaxTokens out = 8192 /\
  aq_Thinking out = Some (mkThinking "enabled" 10240).
Proof.
  eexists. split; [vm_compute; reflexivity|]. split; [|reflexivity].
  refine (proj1 (thinking_limits highEffort _ _)). vm_compute. reflexivity.
Defined.

(** ** Decoding and encoding again *)

(** C20: Content blocks that were decoded from a request, and the parts of an item,
    can always be encoded again, and what is decoded from that is what was decoded
    first, up to white space in raw texts: passing contents through the repair of a
    conversation loses nothing of them. *)
Theorem reencoded (raw : string) :
  (forall blocks, UnmarshalBlocks raw = Some blocks ->
     exists raw', MarshalBlocks blocks = Some raw' /\ UnmarshalBlocks raw' = Some (map compactBlock <$> blocks)) /\
  (forall parts, UnmarshalParts raw = Some parts ->
     exists raw', MarshalParts parts = Some raw' /\ UnmarshalParts raw' = Some parts).
Proof.
  split; intros l H.
  - apply blocks_decoded in H. destruct l as [l|]; [|exists "null"; by vm_compute].
    destruct (blocks_back l H) as (raw' & E & _ & Eu). by exists raw'.
  - apply parts_decoded in H. destruct l as [l|]; [|exists "null"; by vm_compute].
    destruct (parts_back l H) as (raw' & E & _ & Eu). by exists raw'.
Qed.
Lemma reencoded_witness : exists raw', MarshalBlocks (Some [useBlock "toolu_1" "get" "{ }"]) = Some raw' /\
  UnmarshalBlocks raw' = Some (map compactBlock <$> Some [useBlock "toolu_1" "get" "{ }"]).
Proof.
  apply (proj1 (reencoded (qs ["[ {"; "id"; ":"; "toolu_1"; ", "; "type"; ":"; "tool_use"; ","; "name"; ":"; "get"; ","; "input"; ":{ } }]"]))).
  vm_compute. reflexivity.
Defined.
