(* ===== verification/JsonValue.v ===== *)
(** * [json.Unmarshal] into [any]

    The decoding of a JSON text into Go's untyped values (encoding/json,
    strconv.ParseFloat), on top of the scanner of [Json]: objects become maps in
    which the last of equal keys wins, numbers become [float64], rounded to the
    nearest; a number that is too large is an error. *)

From S2P Require Import Prelude Json Float64 Account.

(** ** Numbers *)

(** The value and the number of leading digits, added to [acc], and the rest. *)
Fixpoint readDigits (acc : Z * Z) (s : string) : Z * Z * string :=
  match s with
  | String c s' => if is_digit c then readDigits (acc.1 * 10 + (byte_of c - 48), acc.2 + 1) s' else (acc, s)
  | EmptyString => (acc, s)
  end.
(** The rational [n/d] as a float, to nearest even: enough bits of the quotient
    and a bit that tells whether something is left. *)
Definition roundRational (n d : Z) (negative : bool) : float64 :=
  let s := Z.max 0 (66 + Z.log2 d - Z.log2 n) in
  let num := n * 2 ^ s in
  let m := 2 * (num / d) + (if num mod d =? 0 then 0 else 1) in
  binary_normalize 53 1024 (if negative then - m else m) (- (s + 1)) negative.
(** [strconv.ParseFloat(token, 64)] of a JSON number; infinity is a range error. *)
Definition ParseFloat (token : string) : float64 :=
  let '(negative, s) := match token with String "-" s' => (true, s') | _ => (false, token) end in
  let '(int, s) := readDigits (0, 0) s in
  let '(frac, s) := match s with String "." s' => readDigits (int.1, 0) s' | _ => ((int.1, 0), s) end in
  let exp := match s with
             | String _ (String "-" s') => - (readDigits (0, 0) s').1.1
             | String _ (String "+" s') => (readDigits (0, 0) s').1.1
             | String _ s' => (readDigits (0, 0) s').1.1
             | EmptyString => 0
             end in
  let mantissa := frac.1 in
  let e := exp - frac.2 in
  if mantissa =? 0 then S754_zero negative
  else if 400 <? int.2 + frac.2 + e then S754_infinity negative
  else if int.2 + frac.2 + e <? -400 then S754_zero negative
  else if 0 <=? e then binary_normalize 53 1024 ((if negative then - mantissa else mantissa) * 10 ^ e) 0 negative
  else roundRational mantissa (10 ^ (- e)) negative.

Example ParseFloat_vectors :
  map ParseFloat ["0.1"; "-3"; "1e-3"; "9007199254740993"; "4.9e-324"; "1e400"; "1.7976931348623157e308"; "2.5E+2"; "-0"; "1e-999"] =
  [fdiv fone (float_of_Z 10); float_of_Z (-3); fdiv fone (float_of_Z 1000); float_of_Z (2 ^ 53); S754_finite false 1 (-1074); S754_infinity false;
   S754_finite false (2 ^ 53 - 1) 971; float_of_Z 250; S754_zero true; S754_zero false].
Proof. vm_compute. reflexivity. Qed.

(** ** Values *)

(** The value at the start of a valid text, and the rest; [None] when a number in
    it is out of range. *)
Fixpoint decodeValue (fuel : nat) (s : string) : option (any * string) :=
  match fuel with
  | O => None
  | S fuel =>
      match skip_ws s with
      | String c s' =>
          if Ascii.eqb c "{" then
            match skip_ws s' with
            | String "}" r => Some (AnyMap ∅, r)
            | _ => decodeMembers fuel ∅ s'
            end
          else if Ascii.eqb c "[" then
            match skip_ws s' with
            | String "]" r => Some (AnyList [], r)
            | _ => decodeElements fuel [] s'
            end
          else if Ascii.eqb c dq then Some (AnyString (unquote (String.length s') s'), default "" (scan_string s'))
          else if Ascii.eqb c "t" then Some (AnyBool true, default "" (CutPrefix "rue" s'))
          else if Ascii.eqb c "f" then Some (AnyBool false, default "" (CutPrefix "alse" s'))
          else if Ascii.eqb c "n" then Some (AnyNil, default "" (CutPrefix "ull" s'))
          else
            let text := String c s' in
            let rest := default "" (scan_number text) in
            let f := ParseFloat (str_take (String.length text - String.length rest) text) in
            if IsInf f then None else Some (AnyFloat f, rest)
      | EmptyString => None
      end
  end
with decodeMembers (fuel : nat) (m : gmap string any) (s : string) : option (any * string) :=
  match fuel with
  | O => None
  | S fuel =>
      match skip_ws s with
      | String _ s1 =>
          let key := unquote (String.length s1) s1 in
          match skip_ws (default "" (scan_string s1)) with
          | String _ s2 =>
              match decodeValue fuel s2 with
              | None => None
              | Some (v, s3) =>
                  let m := <[key := v]> m in
                  match skip_ws s3 with
                  | String "," s4 => decodeMembers fuel m s4
                  | String _ s4 => Some (AnyMap m, s4)
                  | EmptyString => None
                  end
              end
          | EmptyString => None
          end
      | EmptyString => None
      end
  end
with decodeElements (fuel : nat) (l : list any) (s : string) : option (any * string) :=
  match fuel with
  | O => None
  | S fuel =>
      match decodeValue fuel s with
      | None => None
      | Some (v, s1) =>
          match skip_ws s1 with
          | String "," s2 => decodeElements fuel (l ++ [v]) s2
          | String _ s2 => Some (AnyList (l ++ [v]), s2)
          | EmptyString => None
          end
      end
  end.

(** [json.Unmarshal(data, &v)] for [var v map[string]any]; [None] is an error,
    and [null] leaves the map nil, which reads as empty. *)
Definition UnmarshalMap (s : string) : option (gmap string any) :=
  if negb (Valid s) then None
  else match decodeValue (json_fuel s) s with
       | Some (AnyMap m, _) => Some m
       | Some (AnyNil, _) => Some ∅
       | _ => None
       end.

Example UnmarshalMap_object :
  UnmarshalMap (qs ["{"; "a"; " : [1, true, null, "; "x\n"; "], "; "b"; ":{"; "c"; ":-2.5}, "; "a"; ":{}, "; "d"; ":[[],{}]} "]) =
  Some (list_to_map [("a", AnyMap ∅); ("b", AnyMap {["c" := AnyFloat (fdiv (float_of_Z (-5)) (float_of_Z 2))]});
                     ("d", AnyList [AnyList []; AnyMap ∅])]).
Proof. vm_compute. reflexivity. Qed.
Example UnmarshalMap_errors :
  map UnmarshalMap ["[]"; "{"; "null"; qs ["{"; "a"; ":1e999,"; "a"; ":0}"]] = [None; None; Some ∅; None].
Proof. vm_compute. reflexivity. Qed.
