(* ===== verification/ChatTypes.v ===== *)
(** * Chat Completions data ([pkg/apicompat/types.go])

    The structs of the OpenAI Chat Completions API: requests with their messages,
    content parts and tools, whole responses, and the chunks of a stream. *)

From S2P Require Import Prelude Float64 ApiTypes.

(** ** Messages and tools *)

Record ChatFunctionCall := mkFunctionCall { cf_Name : string; cf_Arguments : string }.
(** The index is there only in the chunks of a stream. *)
Record ChatToolCall := mkToolCall {
  tl_Index : option Z;
  tl_ID : string;
  tl_Type : string;
  tl_Function : ChatFunctionCall }.
Record ChatMessage := mkChatMessage {
  cm_Role : string;
  cm_Content : string;
  cm_ReasoningContent : string;
  cm_Reasoning : string;
  cm_Name : string;
  cm_ToolCalls : list ChatToolCall;
  cm_ToolCallID : string;
  cm_FunctionCall : option ChatFunctionCall }.
Definition no_message : ChatMessage := mkChatMessage "" "" "" "" "" [] "" None.
Record ChatImageURL := mkImageURL { iu_URL : string; iu_Detail : string }.
Record ChatFile := mkFile { fi_Filename : string; fi_FileData : string; fi_FileID : string }.
Record ChatContentPart := mkChatPart {
  ch_Type : string;
  ch_Text : string;
  ch_ImageURL : option ChatImageURL;
  ch_File : option ChatFile }.
Definition no_chat_part : ChatContentPart := mkChatPart "" "" None None.
Record ChatFunction := mkFunction {
  fn_Name : string;
  fn_Description : string;
  fn_Parameters : string;
  fn_Strict : option bool }.
Record ChatTool := mkChatTool {
  ct_Type : string;
  ct_Function : option ChatFunction;
  ct_AllowedXHandles : list string;
  ct_ExcludedXHandles : list string;
  ct_FromDate : string;
  ct_ToDate : string;
  ct_EnableImageUnderstanding : option bool;
  ct_EnableVideoUnderstanding : option bool }.

Record ChatCompletionsRequest := mkChatRequest {
  cq_Model : string;
  cq_Messages : list ChatMessage;
  cq_Instructions : string;
  cq_MaxTokens : option Z;
  cq_MaxCompletionTokens : option Z;
  cq_Temperature : option float64;
  cq_TopP : option float64;
  cq_Stream : bool;
  cq_StreamOptions : option bool;
  cq_Tools : list ChatTool;
  cq_ParallelToolCalls : option bool;
  cq_ToolChoice : string;
  cq_ReasoningEffort : string;
  cq_ServiceTier : string;
  cq_Stop : string;
  cq_ResponseFormat : string;
  cq_Functions : list ChatFunction;
  cq_FunctionCall : string }.

(** ** Responses and chunks *)

Record ChatTokenDetails := mkDetails {
  td_CachedTokens : Z;
  td_AudioTokens : Z;
  td_CacheCreationTokens : Z;
  td_CacheWriteTokens : Z;
  td_ReasoningTokens : Z;
  td_AcceptedPredictionTokens : Z;
  td_RejectedPredictionTokens : Z }.
Definition no_details : ChatTokenDetails := mkDetails 0 0 0 0 0 0 0.
Record ChatUsage := mkChatUsage {
  cu_PromptTokens : Z;
  cu_CompletionTokens : Z;
  cu_TotalTokens : Z;
  cu_PromptTokensDetails : option ChatTokenDetails;
  cu_CompletionTokensDetails : option ChatTokenDetails }.
Record ChatChoice := mkChoice { co_Index : Z; co_Message : ChatMessage; co_FinishReason : string }.
Record ChatCompletionsResponse := mkChatResponse {
  cr_ID : string;
  cr_Object : string;
  cr_Created : Z;
  cr_Model : string;
  cr_Choices : list ChatChoice;
  cr_Usage : option ChatUsage;
  cr_SystemFingerprint : string;
  cr_ServiceTier : string }.
Record ChatDelta := mkChatDelta {
  cd_Role : string;
  cd_Content : option string;
  cd_ReasoningContent : option string;
  cd_Reasoning : option string;
  cd_ToolCalls : list ChatToolCall }.
Definition no_chat_delta : ChatDelta := mkChatDelta "" None None None [].
Record ChatChunkChoice := mkChunkChoice { cc_Index : Z; cc_Delta : ChatDelta; cc_FinishReason : option string }.
Record ChatCompletionsChunk := mkChunk {
  ck_ID : string;
  ck_Object : string;
  ck_Created : Z;
  ck_Model : string;
  ck_Choices : list ChatChunkChoice;
  ck_Usage : option ChatUsage;
  ck_SystemFingerprint : string;
  ck_ServiceTier : string }.
