(* ===== verification/ChatStream.v ===== *)
(** * Responses as Chat Completions ([pkg/apicompat/responses_to_chatcompletions.go])

    The conversion of a whole response, of the events of a stream, and the
    accumulator that rebuilds the output of a response from its events.  A client
    that assembles the chunks of a stream gets the message that the conversion of
    the rebuilt response gives. *)

From S2P Require Import Prelude Json ApiTypes ChatTypes.

(** ** Usage *)

Definition promptDetailsFromResponses (src : option ResponsesInputTokensDetails) : option ChatTokenDetails :=
  match src with
  | None => None
  | Some src =>
      if (it_CachedTokens src =? 0) && (it_AudioTokens src =? 0) && (it_CacheCreationTokens src =? 0) && (it_CacheWriteTokens src =? 0) then None
      else Some { no_details with td_CachedTokens := it_CachedTokens src; td_AudioTokens := it_AudioTokens src;
                                  td_CacheCreationTokens := it_CacheCreationTokens src; td_CacheWriteTokens := it_CacheWriteTokens src }
  end.
Definition completionDetailsFromResponses (src : option ResponsesOutputTokensDetails) : option ChatTokenDetails :=
  match src with
  | None => None
  | Some src =>
      if (ot_ReasoningTokens src =? 0) && (ot_AudioTokens src =? 0) && (ot_AcceptedPredictionTokens src =? 0) && (ot_RejectedPredictionTokens src =? 0) then None
      else Some { no_details with td_ReasoningTokens := ot_ReasoningTokens src; td_AudioTokens := ot_AudioTokens src;
                                  td_AcceptedPredictionTokens := ot_AcceptedPredictionTokens src; td_RejectedPredictionTokens := ot_RejectedPredictionTokens src }
  end.
Definition chatUsageFromResponsesUsage (u : option ResponsesUsage) : option ChatUsage :=
  match u with
  | None => None
  | Some u =>
      let details := promptDetailsFromResponses (ru_InputTokensDetails u) in
      let details :=
        if 0 <? ru_CacheCreationInputTokens u then
          let d := default no_details details in
          Some (if (td_CacheWriteTokens d =? 0) && (td_CacheCreationTokens d =? 0)
                then { d with td_CacheCreationTokens := ru_CacheCreationInputTokens u } else d)
        else details in
      Some (mkChatUsage (ru_InputTokens u) (ru_OutputTokens u) (wrap64 (ru_InputTokens u + ru_OutputTokens u))
              details (completionDetailsFromResponses (ru_OutputTokensDetails u)))
  end.

(** ** Whole responses *)

Definition responsesStatusToChatFinishReason (status : string) (details : option ResponsesIncompleteDetails) (toolCalls : list ChatToolCall) : string :=
  if String.eqb status "incomplete" then
    match details with
    | Some d => if String.eqb (id_Reason d) "max_output_tokens" then "length"
                else if String.eqb (id_Reason d) "content_filter" then "content_filter" else "stop"
    | None => "stop"
    end
  else if String.eqb status "completed" then match toolCalls with [] => "stop" | _ => "tool_calls" end
  else "stop".

Definition joinAll (l : list string) : string := String.concat "" l.
Definition partText (p : ResponsesContentPart) : string := if String.eqb (cp_Type p) "output_text" then cp_Text p else "".
Definition summaryText (s : ResponsesSummary) : string := if String.eqb (sm_Type s) "summary_text" then sm_Text s else "".
(** What one output item adds to the text, the reasoning and the tool calls. *)
Definition itemText (item : ResponsesOutput) : string :=
  if String.eqb (ro_Type item) "message" then joinAll (map partText (ro_Content item)) else "".
Definition itemReasoning (item : ResponsesOutput) : string :=
  if String.eqb (ro_Type item) "reasoning" then joinAll (map summaryText (ro_Summary item)) else "".
Definition itemCalls (item : ResponsesOutput) : list ChatToolCall :=
  if String.eqb (ro_Type item) "function_call"
  then [mkToolCall None (ro_CallID item) "function" (mkFunctionCall (ro_Name item) (ro_Arguments item))] else [].
Definition chatMessageOf (contentText reasoningText : string) (toolCalls : list ChatToolCall) : ChatMessage :=
  { no_message with cm_Role := "assistant"; cm_ToolCalls := toolCalls;
                    cm_Content := (if String.eqb contentText "" then "" else json_quote contentText); cm_ReasoningContent := reasoningText }.

(** [id] is the generated id, [now] the time of the clock. *)
Definition ResponsesToChatCompletions (id : string) (now : Z) (resp : ResponsesResponse) (model : string) : ChatCompletionsResponse :=
  let toolCalls := flat_map itemCalls (rr_Output resp) in
  let msg := chatMessageOf (joinAll (map itemText (rr_Output resp))) (joinAll (map itemReasoning (rr_Output resp))) toolCalls in
  {| cr_ID := (if String.eqb (rr_ID resp) "" then id else rr_ID resp);
     cr_Object := "chat.completion";
     cr_Created := now;
     cr_Model := model;
     cr_Choices := [mkChoice 0 msg (responsesStatusToChatFinishReason (rr_Status resp) (rr_IncompleteDetails resp) toolCalls)];
     cr_Usage := chatUsageFromResponsesUsage (rr_Usage resp);
     cr_SystemFingerprint := "";
     cr_ServiceTier := rr_ServiceTier resp |}.

(** ** The events of a stream *)

Record ResponsesEventToChatState := mkChatState {
  es_ID : string;
  es_Model : string;
  es_Created : Z;
  es_ServiceTier : string;
  es_SentRole : bool;
  es_SawToolCall : bool;
  es_SawText : bool;
  es_Finalized : bool;
  es_NextToolCallIndex : Z;
  es_OutputIndexToToolIndex : gmap Z Z;
  es_IncludeUsage : bool;
  es_Usage : option ChatUsage }.
Definition NewResponsesEventToChatState (id : string) (now : Z) : ResponsesEventToChatState :=
  mkChatState id "" now "" false false false false 0 ∅ false None.

Definition makeChunk (st : ResponsesEventToChatState) (choices : list ChatChunkChoice) (usage : option ChatUsage) : ChatCompletionsChunk :=
  mkChunk (es_ID st) "chat.completion.chunk" (es_Created st) (es_Model st) choices usage "" (es_ServiceTier st).
Definition makeChatDeltaChunk (st : ResponsesEventToChatState) (delta : ChatDelta) : ChatCompletionsChunk :=
  makeChunk st [mkChunkChoice 0 delta None] None.
Definition makeChatFinishChunk (st : ResponsesEventToChatState) (finishReason : string) : ChatCompletionsChunk :=
  makeChunk st [mkChunkChoice 0 { no_chat_delta with cd_Content := Some "" } (Some finishReason)] None.
(** The finish chunk, and the usage when it was asked for. *)
Definition finishChunks (st : ResponsesEventToChatState) (finishReason : string) : list ChatCompletionsChunk :=
  makeChatFinishChunk st finishReason ::
  (if es_IncludeUsage st then match es_Usage st with Some u => [makeChunk st [] (Some u)] | None => [] end else []).

Notation handler := (ST ResponsesEventToChatState (list ChatCompletionsChunk)).
Definition emit (delta : ChatDelta) : handler := fun st => ([makeChatDeltaChunk st delta], st).

Definition FinalizeResponsesChatStream : handler := fun st =>
  if es_Finalized st then ([], st)
  else
    let st := { st with es_Finalized := true } in
    (finishChunks st (if es_SawToolCall st then "tool_calls" else "stop"), st).

Definition resToChatHandleCreated (evt : ResponsesStreamEvent) : handler := fun st =>
  let st := match rs_Response evt with
            | Some r => { st with es_ID := (if String.eqb (rr_ID r) "" then es_ID st else rr_ID r);
                                  es_Model := (if String.eqb (es_Model st) "" && negb (String.eqb (rr_Model r) "") then rr_Model r else es_Model st);
                                  es_ServiceTier := (if String.eqb (rr_ServiceTier r) "" then es_ServiceTier st else rr_ServiceTier r) }
            | None => st
            end in
  if es_SentRole st then ([], st) else emit { no_chat_delta with cd_Role := "assistant" } { st with es_SentRole := true }.
Definition resToChatHandleTextDelta (evt : ResponsesStreamEvent) : handler := fun st =>
  if String.eqb (rs_Delta evt) "" then ([], st)
  else emit { no_chat_delta with cd_Content := Some (rs_Delta evt) } { st with es_SawText := true }.
Definition isToolItem (item : ResponsesOutput) : bool := String.eqb (ro_Type item) "function_call" || String.eqb (ro_Type item) "custom_tool_call".
Definition resToChatHandleOutputItemAdded (evt : ResponsesStreamEvent) : handler := fun st =>
  match rs_Item evt with
  | None => ([], st)
  | Some item =>
      if negb (isToolItem item) then ([], st)
      else
        let idx := es_NextToolCallIndex st in
        emit { no_chat_delta with cd_ToolCalls := [mkToolCall (Some idx) (ro_CallID item) "function" (mkFunctionCall (ro_Name item) "")] }
          { st with es_SawToolCall := true; es_OutputIndexToToolIndex := <[rs_OutputIndex evt := idx]> (es_OutputIndexToToolIndex st);
                    es_NextToolCallIndex := wrap64 (idx + 1) }
  end.
Definition resToChatHandleFuncArgsDelta (evt : ResponsesStreamEvent) : handler := fun st =>
  if String.eqb (rs_Delta evt) "" then ([], st)
  else match es_OutputIndexToToolIndex st !! rs_OutputIndex evt with
       | None => ([], st)
       | Some idx => emit { no_chat_delta with cd_ToolCalls := [mkToolCall (Some idx) "" "" (mkFunctionCall "" (rs_Delta evt))] } st
       end.
Definition resToChatHandleReasoningDelta (evt : ResponsesStreamEvent) : handler := fun st =>
  if String.eqb (rs_Delta evt) "" then ([], st) else emit { no_chat_delta with cd_ReasoningContent := Some (rs_Delta evt) } st.
Definition resToChatHandleCompleted (evt : ResponsesStreamEvent) : handler := fun st =>
  let st := { st with es_Finalized := true } in
  let st := match rs_Usage evt with Some u => { st with es_Usage := chatUsageFromResponsesUsage (Some u) } | None => st end in
  match rs_Response evt with
  | Some r =>
      let st := match rr_Usage r with Some u => { st with es_Usage := chatUsageFromResponsesUsage (Some u) } | None => st end in
      let st := { st with es_ServiceTier := (if String.eqb (rr_ServiceTier r) "" then es_ServiceTier st else rr_ServiceTier r) } in
      let finishReason :=
        if String.eqb (rr_Status r) "incomplete" then
          match rr_IncompleteDetails r with
          | Some d => if String.eqb (id_Reason d) "max_output_tokens" then "length"
                      else if String.eqb (id_Reason d) "content_filter" then "content_filter" else "stop"
          | None => "stop"
          end
        else if String.eqb (rr_Status r) "completed" then if es_SawToolCall st then "tool_calls" else "stop"
        else "stop" in
      (finishChunks st finishReason, st)
  | None => (finishChunks st (if es_SawToolCall st then "tool_calls" else "stop"), st)
  end.

Definition isArgsDelta (t : string) : bool := String.eqb t "response.function_call_arguments.delta" || String.eqb t "response.custom_tool_call_input.delta".
Definition isReasoningDelta (t : string) : bool := String.eqb t "response.reasoning_summary_text.delta" || String.eqb t "response.reasoning_text.delta".
Definition isTerminal (t : string) : bool :=
  String.eqb t "response.completed" || String.eqb t "response.done" || String.eqb t "response.incomplete" || String.eqb t "response.failed".
Definition ResponsesEventToChatChunks (evt : ResponsesStreamEvent) : handler :=
  let t := rs_Type evt in
  if String.eqb t "response.created" then resToChatHandleCreated evt
  else if String.eqb t "response.output_text.delta" then resToChatHandleTextDelta evt
  else if String.eqb t "response.output_item.added" then resToChatHandleOutputItemAdded evt
  else if isArgsDelta t then resToChatHandleFuncArgsDelta evt
  else if isReasoningDelta t then resToChatHandleReasoningDelta evt
  else if isTerminal t then resToChatHandleCompleted evt
  else fun st => ([], st).

(** The chunks of a sequence of events. *)
Fixpoint convertEvents (evts : list ResponsesStreamEvent) : handler := fun st =>
  match evts with
  | [] => ([], st)
  | evt :: evts =>
      let '(c1, st) := ResponsesEventToChatChunks evt st in
      let '(c2, st) := convertEvents evts st in (c1 ++ c2, st)
  end.

(** ** The accumulator *)

Record bufferedFuncCall := mkBuffered { bf_CallID : string; bf_Name : string; bf_Args : string }.
Record BufferedResponseAccumulator := mkAccumulator {
  ac_text : string;
  ac_reasoning : string;
  ac_funcCalls : list bufferedFuncCall;
  ac_outputIndexToFuncIdx : gmap Z Z }.
Definition NewBufferedResponseAccumulator : BufferedResponseAccumulator := mkAccumulator "" "" [] ∅.
Definition appendArgs (delta : string) (c : bufferedFuncCall) : bufferedFuncCall := { c with bf_Args := bf_Args c +:+ delta }.

Definition ProcessEvent (a : BufferedResponseAccumulator) (event : ResponsesStreamEvent) : BufferedResponseAccumulator :=
  let t := rs_Type event in
  let delta := rs_Delta event in
  if String.eqb t "response.output_text.delta" then { a with ac_text := ac_text a +:+ delta }
  else if String.eqb t "response.output_item.added" then
    match rs_Item event with
    | Some item =>
        if isToolItem item
        then { a with ac_outputIndexToFuncIdx := <[rs_OutputIndex event := Z.of_nat (length (ac_funcCalls a))]> (ac_outputIndexToFuncIdx a);
                      ac_funcCalls := ac_funcCalls a ++ [mkBuffered (ro_CallID item) (ro_Name item) ""] }
        else a
    | None => a
    end
  else if isArgsDelta t then
    match ac_outputIndexToFuncIdx a !! rs_OutputIndex event with
    | Some idx => { a with ac_funcCalls := alter (appendArgs delta) (Z.to_nat idx) (ac_funcCalls a) }
    | None => a
    end
  else if isReasoningDelta t then { a with ac_reasoning := ac_reasoning a +:+ delta }
  else a.
Definition HasContent (a : BufferedResponseAccumulator) : bool :=
  negb (String.eqb (ac_text a) "") || (0 <? Z.of_nat (length (ac_funcCalls a))) || negb (String.eqb (ac_reasoning a) "").
Definition funcOutput (c : bufferedFuncCall) : ResponsesOutput :=
  { no_output with ro_Type := "function_call"; ro_CallID := bf_CallID c; ro_Name := bf_Name c; ro_Arguments := bf_Args c }.
Definition BuildOutput (a : BufferedResponseAccumulator) : list ResponsesOutput :=
  (if String.eqb (ac_reasoning a) "" then []
   else [{ no_output with ro_Type := "reasoning"; ro_Summary := [mkSummary "summary_text" (ac_reasoning a)] }]) ++
  (if String.eqb (ac_text a) "" then []
   else [{ no_output with ro_Type := "message"; ro_Role := "assistant"; ro_Content := [output_text (ac_text a)] }]) ++
  map funcOutput (ac_funcCalls a).
Definition SupplementResponseOutput (a : BufferedResponseAccumulator) (resp : ResponsesResponse) : ResponsesResponse :=
  match rr_Output resp with
  | _ :: _ => resp
  | [] => if HasContent a then { resp with rr_Output := BuildOutput a } else resp
  end.
