(* ===== verification/ChatFacts.v ===== *)
(** * Streams of Chat Completions chunks

    The protocol the chunks of a converted stream follow, and that what a client
    assembles from them is the message of the response that the accumulator
    rebuilds from the same events. *)

From S2P Require Import Prelude Json ApiTypes ChatTypes ChatStream.

(** ** The protocol *)

(** Whether the role was sent, and how many tool calls were announced. *)
Record progress := mkProgress { pg_role : bool; pg_calls : Z }.
Definition deltaOf (c : ChatCompletionsChunk) (d : ChatDelta) : Prop := ck_Choices c = [mkChunkChoice 0 d None] /\ ck_Usage c = None.
Definition callDelta (call : ChatToolCall) : ChatDelta := { no_chat_delta with cd_ToolCalls := [call] }.
Inductive chunk_step : progress -> ChatCompletionsChunk -> progress -> Prop :=
| step_role p c : pg_role p = false -> deltaOf c { no_chat_delta with cd_Role := "assistant" } -> chunk_step p c (mkProgress true (pg_calls p))
| step_text p c s : s <> "" -> deltaOf c { no_chat_delta with cd_Content := Some s } -> chunk_step p c p
| step_reasoning p c s : s <> "" -> deltaOf c { no_chat_delta with cd_ReasoningContent := Some s } -> chunk_step p c p
| step_call p c id name : deltaOf c (callDelta (mkToolCall (Some (pg_calls p)) id "function" (mkFunctionCall name ""))) ->
    chunk_step p c (mkProgress (pg_role p) (pg_calls p + 1))
| step_args p c i s : 0 <= i < pg_calls p -> s <> "" -> deltaOf c (callDelta (mkToolCall (Some i) "" "" (mkFunctionCall "" s))) -> chunk_step p c p.
(** Deltas, one chunk with the reason of the end, and perhaps the usage. *)
Inductive chat_stream : progress -> list ChatCompletionsChunk -> Prop :=
| stream_step p c p' l : chunk_step p c p' -> chat_stream p' l -> chat_stream p (c :: l)
| stream_end p c reason usage :
    ck_Choices c = [mkChunkChoice 0 { no_chat_delta with cd_Content := Some "" } (Some reason)] ->
    reason ∈ ["stop"; "length"; "content_filter"; "tool_calls"] -> (reason = "tool_calls" -> 0 < pg_calls p) ->
    (usage = [] \/ exists u, usage = [u] /\ ck_Choices u = [] /\ is_Some (ck_Usage u)) ->
    chat_stream p (c :: usage).

(** ** What a client assembles *)

Record assembled := mkAssembled { as_text : string; as_reasoning : string; as_calls : list ChatToolCall }.
Definition nothing : assembled := mkAssembled "" "" [].
Definition extendCall (d c : ChatToolCall) : ChatToolCall :=
  { c with tl_Function := mkFunctionCall (cf_Name (tl_Function c)) (cf_Arguments (tl_Function c) +:+ cf_Arguments (tl_Function d)) }.
(** A call of a new index is added, else its arguments are appended. *)
Definition addCall (calls : list ChatToolCall) (d : ChatToolCall) : list ChatToolCall :=
  match tl_Index d with
  | None => calls
  | Some i => match calls !! Z.to_nat i with
              | None => calls ++ [mkToolCall None (tl_ID d) (tl_Type d) (tl_Function d)]
              | Some _ => alter (extendCall d) (Z.to_nat i) calls
              end
  end.
Definition addDelta (m : assembled) (d : ChatDelta) : assembled :=
  mkAssembled (as_text m +:+ default "" (cd_Content d)) (as_reasoning m +:+ default "" (cd_ReasoningContent d)) (foldl addCall (as_calls m) (cd_ToolCalls d)).
Definition addChunk (m : assembled) (c : ChatCompletionsChunk) : assembled := foldl addDelta m (map cc_Delta (ck_Choices c)).
Definition assemble (chunks : list ChatCompletionsChunk) : assembled := foldl addChunk nothing chunks.
Definition finishReasons (chunks : list ChatCompletionsChunk) : list string := flat_map (fun c => omap cc_FinishReason (ck_Choices c)) chunks.
Definition usages (chunks : list ChatCompletionsChunk) : list ChatUsage := omap ck_Usage chunks.

(** ** One event, in both *)

Definition callOf (c : bufferedFuncCall) : ChatToolCall := mkToolCall None (bf_CallID c) "function" (mkFunctionCall (bf_Name c) (bf_Args c)).
(** The state of the stream, the accumulator and the client agree. *)
Record agree (st : ResponsesEventToChatState) (a : BufferedResponseAccumulator) (m : assembled) : Prop := {
  ag_text : as_text m = ac_text a;
  ag_reasoning : as_reasoning m = ac_reasoning a;
  ag_calls : as_calls m = map callOf (ac_funcCalls a);
  ag_next : es_NextToolCallIndex st = Z.of_nat (length (ac_funcCalls a));
  ag_index : es_OutputIndexToToolIndex st = ac_outputIndexToFuncIdx a;
  ag_range : forall i idx, ac_outputIndexToFuncIdx a !! i = Some idx -> 0 <= idx < Z.of_nat (length (ac_funcCalls a));
  ag_saw : es_SawToolCall st = (0 <? Z.of_nat (length (ac_funcCalls a)));
  ag_open : es_Finalized st = false }.
Definition progressOf (st : ResponsesEventToChatState) : progress := mkProgress (es_SentRole st) (es_NextToolCallIndex st).
(** What the steps of an event leave as it is. *)
Definition sameOptions (st st' : ResponsesEventToChatState) : Prop := es_IncludeUsage st' = es_IncludeUsage st /\ es_Usage st' = es_Usage st.
(** The chunks of one event: they follow the protocol and the agreement stays. *)
Definition keeps (st : ResponsesEventToChatState) (m : assembled) (a' : BufferedResponseAccumulator) (r : list ChatCompletionsChunk * ResponsesEventToChatState) : Prop :=
  agree r.2 a' (foldl addChunk m r.1) /\ sameOptions st r.2 /\
  (forall l, chat_stream (progressOf r.2) l -> chat_stream (progressOf st) (r.1 ++ l)) /\
  finishReasons r.1 = [] /\ usages r.1 = [].

Lemma silent st a m a' : agree st a m -> a' = a -> keeps st m a' ([], st).
Proof. intros H ->. by split_and!. Qed.
Lemma emitted st m a' d st' p' :
  agree st' a' (addDelta m d) -> sameOptions st st' -> progressOf st' = p' ->
  (forall c, deltaOf c d -> chunk_step (progressOf st) c p') -> keeps st m a' (emit d st').
Proof.
  intros H Ho Hp Hs. unfold keeps, emit. cbn [fst snd]. split_and!; try done. intros l Hl. rewrite Hp in Hl.
  cbn [app]. eapply stream_step; [|exact Hl]. by apply Hs.
Qed.
Lemma app_empty_r s : s +:+ "" = s.
Proof. apply str_app_nil. Qed.
Lemma alter_same {A} (f : A -> A) i (l : list A) : (forall x, f x = x) -> alter f i l = l.
Proof. intros H. revert i. induction l as [|x l IH]; intros [|i]; [done..|by cbn; rewrite H|]. cbn. f_equal. apply IH. Qed.
Lemma alter_map {A B} (h : A -> B) (f : A -> A) (g : B -> B) i (l : list A) : (forall x, h (f x) = g (h x)) -> map h (alter f i l) = alter g i (map h l).
Proof. intros H. revert i. induction l as [|x l IH]; intros [|i]; [done..|by cbn; rewrite H|]. cbn. f_equal. apply IH. Qed.
Ltac agreed := constructor; cbn; rewrite ?app_empty_r; try done.

Lemma created_keeps evt st a m : agree st a m -> keeps st m a (resToChatHandleCreated evt st).
Proof.
  intros H. unfold resToChatHandleCreated.
  set (st1 := match rs_Response evt with Some r => _ | None => st end).
  assert (H1 : agree st1 a m /\ sameOptions st st1 /\ progressOf st1 = progressOf st) by (destruct H; subst st1; destruct (rs_Response evt); by split_and!).
  destruct H1 as (Ha & Ho & Hp). assert (Er : es_SentRole st1 = es_SentRole st) by exact (f_equal pg_role Hp).
  clearbody st1. rewrite Er. destruct (es_SentRole st) eqn:E.
  - unfold keeps. cbn [fst snd]. split_and!; try done. intros l Hl. by rewrite Hp in Hl.
  - destruct H as [_ _ _ Hnext _ _ _ _], Ha. eapply emitted; [agreed|done|reflexivity|]. intros c Hc.
    change (chunk_step (progressOf st) c (mkProgress true (es_NextToolCallIndex st1))).
    replace (es_NextToolCallIndex st1) with (es_NextToolCallIndex st) by congruence. by apply (step_role (progressOf st)).
Qed.
Lemma text_keeps evt st a m : agree st a m -> keeps st m { a with ac_text := ac_text a +:+ rs_Delta evt } (resToChatHandleTextDelta evt st).
Proof.
  intros H. unfold resToChatHandleTextDelta. destruct (String.eqb_spec (rs_Delta evt) "") as [E|E].
  - apply (silent _ a); [done|]. rewrite E, app_empty_r. by destruct a.
  - destruct H. eapply emitted; [agreed; by f_equal|done|reflexivity|]. intros c Hc. by eapply step_text.
Qed.
Lemma reasoning_keeps evt st a m : agree st a m -> keeps st m { a with ac_reasoning := ac_reasoning a +:+ rs_Delta evt } (resToChatHandleReasoningDelta evt st).
Proof.
  intros H. unfold resToChatHandleReasoningDelta. destruct (String.eqb_spec (rs_Delta evt) "") as [E|E].
  - apply (silent _ a); [done|]. rewrite E, app_empty_r. by destruct a.
  - destruct H. eapply emitted; [agreed; by f_equal|done|reflexivity|]. intros c Hc. by eapply step_reasoning.
Qed.
Lemma addCall_new calls i id t f : i = Z.of_nat (length calls) -> addCall calls (mkToolCall (Some i) id t f) = calls ++ [mkToolCall None id t f].
Proof. intros ->. unfold addCall. cbn [tl_Index]. by rewrite Nat2Z.id, lookup_ge_None_2. Qed.
Lemma addCall_more calls i c d : calls !! Z.to_nat i = Some c -> tl_Index d = Some i -> addCall calls d = alter (extendCall d) (Z.to_nat i) calls.
Proof. intros Hc Hd. unfold addCall. by rewrite Hd, Hc. Qed.
Lemma added_keeps evt st a m : agree st a m -> Z.of_nat (length (ac_funcCalls a)) < max_int64 -> rs_Type evt = "response.output_item.added" ->
  keeps st m (ProcessEvent a evt) (resToChatHandleOutputItemAdded evt st).
Proof.
  intros H Hlen Ht. unfold resToChatHandleOutputItemAdded, ProcessEvent. rewrite Ht. cbv zeta.
  change (String.eqb "response.output_item.added" "response.output_text.delta") with false.
  change (String.eqb "response.output_item.added" "response.output_item.added") with true. cbv iota.
  destruct (rs_Item evt) as [item|]; [|by apply (silent _ a)]. destruct (isToolItem item); [|by apply (silent _ a)]. cbn [negb].
  destruct H. assert (Hw : wrap64 (es_NextToolCallIndex st + 1) = Z.of_nat (length (ac_funcCalls a)) + 1).
  { rewrite ag_next0. apply wrap64_id. unfold int64_ok, min_int64 in *. lia. }
  assert (Hl : length (ac_funcCalls a ++ [mkBuffered (ro_CallID item) (ro_Name item) ""]) = S (length (ac_funcCalls a))) by (rewrite length_app; simpl; lia).
  set (c := mkBuffered (ro_CallID item) (ro_Name item) "") in *.
  eapply emitted; [|done|reflexivity|].
  - constructor.
    + change (as_text m +:+ "" = ac_text a). by rewrite app_empty_r.
    + change (as_reasoning m +:+ "" = ac_reasoning a). by rewrite app_empty_r.
    + change (addCall (as_calls m) (mkToolCall (Some (es_NextToolCallIndex st)) (ro_CallID item) "function" (mkFunctionCall (ro_Name item) "")) = map callOf (ac_funcCalls a ++ [c])).
      rewrite addCall_new by (by rewrite ag_next0, ag_calls0, length_map). by rewrite ag_calls0, map_app.
    + change (wrap64 (es_NextToolCallIndex st + 1) = Z.of_nat (length (ac_funcCalls a ++ [c]))). rewrite Hl, Hw. lia.
    + change (<[rs_OutputIndex evt := es_NextToolCallIndex st]> (es_OutputIndexToToolIndex st) = <[rs_OutputIndex evt := Z.of_nat (length (ac_funcCalls a))]> (ac_outputIndexToFuncIdx a)).
      by rewrite ag_index0, ag_next0.
    + intros i idx. change (<[rs_OutputIndex evt := Z.of_nat (length (ac_funcCalls a))]> (ac_outputIndexToFuncIdx a) !! i = Some idx -> 0 <= idx < Z.of_nat (length (ac_funcCalls a ++ [c]))).
      rewrite Hl. intros Hi. destruct (decide (rs_OutputIndex evt = i)) as [<-|Hne].
      * rewrite lookup_insert_eq in Hi. injection Hi as <-. lia.
      * rewrite lookup_insert_ne in Hi by done. apply ag_range0 in Hi. lia.
    + change (true = (0 <? Z.of_nat (length (ac_funcCalls a ++ [c])))). rewrite Hl. symmetry. apply Z.ltb_lt. lia.
    + done.
  - intros k Hk. change (chunk_step (progressOf st) k (mkProgress (es_SentRole st) (wrap64 (es_NextToolCallIndex st + 1)))).
    replace (wrap64 (es_NextToolCallIndex st + 1)) with (es_NextToolCallIndex st + 1) by lia. by eapply (step_call (progressOf st)).
Qed.
Lemma args_keeps evt st a m : agree st a m -> isArgsDelta (rs_Type evt) = true -> keeps st m (ProcessEvent a evt) (resToChatHandleFuncArgsDelta evt st).
Proof.
  intros H Ht. unfold resToChatHandleFuncArgsDelta, ProcessEvent. cbv zeta. rewrite Ht.
  assert (Hn : String.eqb (rs_Type evt) "response.output_text.delta" = false /\ String.eqb (rs_Type evt) "response.output_item.added" = false).
  { unfold isArgsDelta in Ht. apply orb_true_iff in Ht as [E|E]; apply String.eqb_eq in E; by rewrite E. }
  rewrite (proj1 Hn), (proj2 Hn). destruct (ac_outputIndexToFuncIdx a !! rs_OutputIndex evt) as [idx|] eqn:Ei.
  - destruct H. rewrite ag_index0, Ei. pose proof (ag_range0 _ _ Ei) as Hr. destruct (String.eqb_spec (rs_Delta evt) "") as [E|E].
    + apply (silent _ a); [done|]. rewrite E, alter_same; [by destruct a|]. intros [id n s]. unfold appendArgs. cbn. by rewrite app_empty_r.
    + destruct (lookup_lt_is_Some_2 (ac_funcCalls a) (Z.to_nat idx)) as [c0 Hc0]; [lia|].
      set (d := mkToolCall (Some idx) "" "" (mkFunctionCall "" (rs_Delta evt))).
      assert (Hadd : addCall (as_calls m) d = map callOf (alter (appendArgs (rs_Delta evt)) (Z.to_nat idx) (ac_funcCalls a))).
      { rewrite (addCall_more _ idx (callOf c0)); [|rewrite ag_calls0; change (map callOf (ac_funcCalls a)) with (callOf <$> ac_funcCalls a); by rewrite list_lookup_fmap, Hc0|done].
        rewrite ag_calls0. symmetry. apply alter_map. by intros [id n s]. }
      eapply emitted; [|done|reflexivity|].
      * constructor; try done.
        -- change (as_text m +:+ "" = ac_text a). by rewrite app_empty_r.
        -- change (as_reasoning m +:+ "" = ac_reasoning a). by rewrite app_empty_r.
        -- change (es_NextToolCallIndex st = Z.of_nat (length (alter (appendArgs (rs_Delta evt)) (Z.to_nat idx) (ac_funcCalls a)))). by rewrite length_alter.
        -- change (forall i k, ac_outputIndexToFuncIdx a !! i = Some k -> 0 <= k < Z.of_nat (length (alter (appendArgs (rs_Delta evt)) (Z.to_nat idx) (ac_funcCalls a)))).
           by rewrite length_alter.
        -- change (es_SawToolCall st = (0 <? Z.of_nat (length (alter (appendArgs (rs_Delta evt)) (Z.to_nat idx) (ac_funcCalls a))))). by rewrite length_alter.
      * intros c Hc. apply (step_args _ _ idx (rs_Delta evt)); [|exact E|exact Hc]. change (pg_calls (progressOf st)) with (es_NextToolCallIndex st). by rewrite ag_next0.
  - rewrite (ag_index _ _ _ H), Ei. destruct (String.eqb (rs_Delta evt) ""); by apply (silent _ a).
Qed.
Definition isContentEvent (evt : ResponsesStreamEvent) : Prop := isTerminal (rs_Type evt) = false.
Lemma event_keeps evt st a m : agree st a m -> Z.of_nat (length (ac_funcCalls a)) < max_int64 -> isContentEvent evt ->
  keeps st m (ProcessEvent a evt) (ResponsesEventToChatChunks evt st).
Proof.
  intros H Hlen Ht. unfold ResponsesEventToChatChunks. cbv zeta. destruct (String.eqb_spec (rs_Type evt) "response.created") as [E|E1].
  { unfold ProcessEvent. rewrite E. by apply created_keeps. }
  destruct (String.eqb_spec (rs_Type evt) "response.output_text.delta") as [E|E2].
  { unfold ProcessEvent. rewrite E. by apply text_keeps. }
  destruct (String.eqb_spec (rs_Type evt) "response.output_item.added") as [E|E3]; [by apply added_keeps|].
  destruct (isArgsDelta (rs_Type evt)) eqn:Ea; [by apply args_keeps|].
  unfold ProcessEvent. rewrite (proj2 (String.eqb_neq _ _) E2), (proj2 (String.eqb_neq _ _) E3), Ea. unfold isContentEvent in Ht. rewrite Ht.
  destruct (isReasoningDelta (rs_Type evt)); [by apply reasoning_keeps|by apply (silent _ a)].
Qed.

(** ** Whole streams *)

Lemma keeps_then st m a1 a2 c1 c2 st1 st2 : keeps st m a1 (c1, st1) -> keeps st1 (foldl addChunk m c1) a2 (c2, st2) -> keeps st m a2 (c1 ++ c2, st2).
Proof.
  intros (A1 & O1 & P1 & F1 & U1) (A2 & O2 & P2 & F2 & U2). unfold keeps. cbn [fst snd] in *. split_and!.
  - by rewrite foldl_app.
  - destruct O1, O2. split; congruence.
  - intros l Hl. rewrite <- app_assoc. by apply P1, P2.
  - unfold finishReasons in *. by rewrite flat_map_app, F1, F2.
  - unfold usages in *. by rewrite omap_app, U1, U2.
Qed.
Lemma ProcessEvent_length a evt : (length (ac_funcCalls (ProcessEvent a evt)) <= S (length (ac_funcCalls a)))%nat.
Proof.
  assert (H0 : (length (ac_funcCalls a) <= S (length (ac_funcCalls a)))%nat) by lia.
  unfold ProcessEvent. cbv zeta. destruct (String.eqb _ "response.output_text.delta"); [exact H0|].
  destruct (String.eqb _ "response.output_item.added").
  { destruct (rs_Item evt) as [item|]; [|exact H0]. destruct (isToolItem item); [|exact H0].
    change (length (ac_funcCalls a ++ [mkBuffered (ro_CallID item) (ro_Name item) ""]) <= S (length (ac_funcCalls a)))%nat. rewrite length_app. simpl. lia. }
  destruct (isArgsDelta _).
  { destruct (_ !! _) as [idx|]; [|exact H0].
    change (length (alter (appendArgs (rs_Delta evt)) (Z.to_nat idx) (ac_funcCalls a)) <= S (length (ac_funcCalls a)))%nat. by rewrite length_alter. }
  destruct (isReasoningDelta _); exact H0.
Qed.
Lemma events_keep evts st a m : agree st a m -> Forall isContentEvent evts -> Z.of_nat (length (ac_funcCalls a) + length evts) <= max_int64 ->
  keeps st m (foldl ProcessEvent a evts) (convertEvents evts st).
Proof.
  intros H He. revert st a m H. induction He as [|evt evts Hev _ IH]; intros st a m H Hlen; [by apply (silent _ a)|].
  cbn [convertEvents foldl length] in *. pose proof (event_keeps evt st a m H ltac:(lia) Hev) as Hk.
  destruct (ResponsesEventToChatChunks evt st) as [c1 st1]. pose proof (ProcessEvent_length a evt) as Hl.
  assert (Hb : Z.of_nat (length (ac_funcCalls (ProcessEvent a evt)) + length evts) <= max_int64) by (clear -Hlen Hl; cbn [length] in Hlen; lia).
  pose proof (IH st1 (ProcessEvent a evt) (foldl addChunk m c1) (proj1 Hk) Hb) as Hk2.
  destruct (convertEvents evts st1) as [c2 st2]. by eapply keeps_then.
Qed.

(** The state of a new stream; the chunks of its events, and of its end. *)
Definition newStream (id : string) (now : Z) (includeUsage : bool) : ResponsesEventToChatState :=
  { (NewResponsesEventToChatState id now) with es_IncludeUsage := includeUsage }.
Definition chatStream (id : string) (now : Z) (includeUsage : bool) (evts : list ResponsesStreamEvent) : list ChatCompletionsChunk :=
  let '(chunks, st) := convertEvents evts (newStream id now includeUsage) in chunks ++ (FinalizeResponsesChatStream st).1.
Lemma new_agree id now inc : agree (newStream id now inc) NewBufferedResponseAccumulator nothing.
Proof. by constructor. Qed.

Lemma finish_stream st p reason : reason ∈ ["stop"; "length"; "content_filter"; "tool_calls"] -> (reason = "tool_calls" -> 0 < pg_calls p) ->
  chat_stream p (finishChunks st reason).
Proof.
  intros Hr Hc. unfold finishChunks. eapply stream_end; [reflexivity|done|done|].
  destruct (es_IncludeUsage st); [|by left]. destruct (es_Usage st); [right|by left]. eexists. split_and!; [done|done|by eexists].
Qed.
Lemma finish_shows st m reason : foldl addChunk m (finishChunks st reason) = m /\ finishReasons (finishChunks st reason) = [reason] /\
  usages (finishChunks st reason) = if es_IncludeUsage st then option_list (es_Usage st) else [].
Proof.
  assert (Hm : addChunk m (makeChatFinishChunk st reason) = m) by (destruct m; unfold addChunk; cbn; unfold addDelta; cbn; by rewrite !app_empty_r).
  unfold finishChunks. cbn [foldl]. rewrite Hm. by destruct (es_IncludeUsage st), (es_Usage st).
Qed.
(** The reason a terminal event gives. *)
Definition endReason (evt : ResponsesStreamEvent) (saw : bool) : string :=
  match rs_Response evt with
  | Some r => responsesStatusToChatFinishReason (rr_Status r) (rr_IncompleteDetails r) (if saw then [mkToolCall None "" "" (mkFunctionCall "" "")] else [])
  | None => if saw then "tool_calls" else "stop"
  end.
Lemma completed_shape evt st : exists st', resToChatHandleCompleted evt st = (finishChunks st' (endReason evt (es_SawToolCall st)), st') /\
  es_Finalized st' = true /\ es_IncludeUsage st' = es_IncludeUsage st /\
  (rs_Usage evt = None -> es_Usage st = None -> es_Usage st' = chatUsageFromResponsesUsage (rs_Response evt ≫= rr_Usage)).
Proof.
  destruct st as [id model created tier role saw text fin next index inc usage].
  unfold resToChatHandleCompleted, endReason, responsesStatusToChatFinishReason. cbv zeta.
  destruct (rs_Response evt) as [r|].
  - eexists. split; [f_equal; f_equal; by destruct (rs_Usage evt), (rr_Usage r), saw|].
    split_and!; [by destruct (rr_Usage r), (rs_Usage evt)..|]. intros Hu Hs. rewrite Hu. cbn. by destruct (rr_Usage r).
  - eexists. split; [f_equal; f_equal; by destruct (rs_Usage evt), saw|]. split_and!; [by destruct (rs_Usage evt)..|]. intros Hu Hs. by rewrite Hu.
Qed.
Lemma endReason_known evt saw : endReason evt saw ∈ ["stop"; "length"; "content_filter"; "tool_calls"] /\ (endReason evt saw = "tool_calls" -> saw = true).
Proof.
  unfold endReason, responsesStatusToChatFinishReason. destruct saw; (split; [|try done]); repeat case_match; try done; repeat first [by left|right].
Qed.
Lemma convertEvents_app e1 e2 st : convertEvents (e1 ++ e2) st =
  let '(c1, st1) := convertEvents e1 st in let '(c2, st2) := convertEvents e2 st1 in (c1 ++ c2, st2).
Proof.
  revert st. induction e1 as [|e e1 IH]; intros st; [cbn; by destruct (convertEvents e2 st)|]. cbn [convertEvents app].
  destruct (ResponsesEventToChatChunks e st) as [c st1]. rewrite IH. destruct (convertEvents e1 st1) as [c1 st2].
  destruct (convertEvents e2 st2) as [c2 st3]. by rewrite app_assoc.
Qed.
Lemma terminal_handler evt : isTerminal (rs_Type evt) = true -> ResponsesEventToChatChunks evt = resToChatHandleCompleted evt.
Proof.
  unfold ResponsesEventToChatChunks, isTerminal, isArgsDelta, isReasoningDelta. cbv zeta. intros H.
  repeat (apply orb_true_iff in H as [H|H]); apply String.eqb_eq in H; by rewrite H.
Qed.
Lemma finalized_silent st : es_Finalized st = true -> (FinalizeResponsesChatStream st).1 = [].
Proof. unfold FinalizeResponsesChatStream. by intros ->. Qed.
Lemma terminal_stream id now inc evts t : Forall isContentEvent evts -> Z.of_nat (length evts) <= max_int64 -> isTerminal (rs_Type t) = true ->
  exists c1 st1 st', convertEvents evts (newStream id now inc) = (c1, st1) /\
    keeps (newStream id now inc) nothing (foldl ProcessEvent NewBufferedResponseAccumulator evts) (c1, st1) /\
    chatStream id now inc (evts ++ [t]) = c1 ++ finishChunks st' (endReason t (es_SawToolCall st1)) /\ es_IncludeUsage st' = inc /\
    (rs_Usage t = None -> es_Usage st' = chatUsageFromResponsesUsage (rs_Response t ≫= rr_Usage)).
Proof.
  intros He Hlen Ht. pose proof (events_keep evts _ _ _ (new_agree id now inc) He Hlen) as Hk.
  unfold chatStream. rewrite convertEvents_app. destruct (convertEvents evts (newStream id now inc)) as [c1 st1].
  destruct (completed_shape t st1) as (st' & E & Hf & Hi & Hu). exists c1, st1, st'. cbn [convertEvents]. rewrite terminal_handler, E by done.
  pose proof Hk as (_ & [O1 O2] & _). cbn [fst snd] in *. split_and!; [done|done| | |].
  - by rewrite finalized_silent, !app_nil_r.
  - by rewrite Hi, O1.
  - intros Hn. by apply Hu; [|rewrite O2].
Qed.

(** C24: Whatever events the upstream sends before the end, the chunks of the
    converted stream follow the protocol of Chat Completions: the role at most
    once, texts and reasoning that are not empty, tool calls announced under the
    indices 0, 1, 2, ..., arguments only for announced calls, then exactly one chunk
    with the reason of the end, which is tool_calls only after a call, and perhaps
    the usage.  This holds for a stream with a terminal event and for one that
    breaks off. *)
Theorem chat_stream_well_formed id now includeUsage (evts ending : list ResponsesStreamEvent) :
  Forall isContentEvent evts -> Z.of_nat (length evts) <= max_int64 ->
  ending = [] \/ (exists t, ending = [t] /\ isTerminal (rs_Type t) = true) ->
  chat_stream (mkProgress false 0) (chatStream id now includeUsage (evts ++ ending)).
Proof.
  intros He Hlen [->|(t & -> & Ht)].
  - pose proof (events_keep evts _ _ _ (new_agree id now includeUsage) He Hlen) as Hk. rewrite app_nil_r. unfold chatStream.
    destruct (convertEvents evts (newStream id now includeUsage)) as [c1 st1]. destruct Hk as (A & _ & P & _). cbn [fst snd] in *.
    apply P. unfold FinalizeResponsesChatStream. rewrite (ag_open _ _ _ A). cbv zeta. apply finish_stream.
    + destruct (es_SawToolCall _); repeat first [by left|right].
    + change (es_SawToolCall { st1 with es_Finalized := true }) with (es_SawToolCall st1). rewrite (ag_saw _ _ _ A). intros E.
      change (0 < es_NextToolCallIndex st1). rewrite (ag_next _ _ _ A). destruct (Z.ltb_spec 0 (Z.of_nat (length (ac_funcCalls (foldl ProcessEvent NewBufferedResponseAccumulator evts))))); done.
  - destruct (terminal_stream id now includeUsage evts t He Hlen Ht) as (c1 & st1 & st' & _ & Hk & -> & _).
    destruct Hk as (A & _ & P & _). cbn [fst snd] in *. apply P, finish_stream; [apply endReason_known|].
    intros E. apply endReason_known in E. change (0 < es_NextToolCallIndex st1). rewrite (ag_saw _ _ _ A) in E. rewrite (ag_next _ _ _ A). by apply Z.ltb_lt.
Qed.

Lemma joinAll_single s : joinAll [s] = s.
Proof. done. Qed.
Lemma build_texts a : map itemText (BuildOutput a) = (if String.eqb (ac_reasoning a) "" then [] else [""]) ++ (if String.eqb (ac_text a) "" then [] else [ac_text a]) ++ map (fun _ => "") (ac_funcCalls a) /\
  map itemReasoning (BuildOutput a) = (if String.eqb (ac_reasoning a) "" then [] else [ac_reasoning a]) ++ (if String.eqb (ac_text a) "" then [] else [""]) ++ map (fun _ => "") (ac_funcCalls a) /\
  flat_map itemCalls (BuildOutput a) = map callOf (ac_funcCalls a).
Proof.
  unfold BuildOutput. rewrite !map_app, !map_map, !flat_map_app.
  split_and!; [by destruct (String.eqb (ac_reasoning a) ""), (String.eqb (ac_text a) "")..|].
  assert (Hc : flat_map itemCalls (map funcOutput (ac_funcCalls a)) = map callOf (ac_funcCalls a)).
  { induction (ac_funcCalls a) as [|c l IH]; [done|]. cbn [map flat_map]. rewrite IH. done. }
  rewrite Hc. by destruct (String.eqb (ac_reasoning a) ""), (String.eqb (ac_text a) "").
Qed.
Lemma joinAll_cons x l : joinAll (x :: l) = x +:+ joinAll l.
Proof. unfold joinAll. destruct l as [|y l]; [by rewrite app_empty_r|done]. Qed.
Lemma joinAll_app a b : joinAll (a ++ b) = joinAll a +:+ joinAll b.
Proof. induction a as [|x a IH]; [done|]. cbn [app]. by rewrite !joinAll_cons, IH, str_app_assoc. Qed.
Lemma joinAll_empties {A} (l : list A) : joinAll (map (fun _ => "") l) = "".
Proof. induction l as [|x l IH]; [done|]. cbn [map]. by rewrite joinAll_cons, IH. Qed.
Lemma build_message a : joinAll (map itemText (BuildOutput a)) = ac_text a /\ joinAll (map itemReasoning (BuildOutput a)) = ac_reasoning a.
Proof.
  destruct (build_texts a) as (-> & -> & _). rewrite !joinAll_app, !joinAll_empties.
  destruct (String.eqb_spec (ac_reasoning a) "") as [->|], (String.eqb_spec (ac_text a) "") as [->|]; cbn; by rewrite ?app_empty_r.
Qed.
Lemma supplemented a r : rr_Output r = [] -> SupplementResponseOutput a r = { r with rr_Output := BuildOutput a }.
Proof.
  intros E. unfold SupplementResponseOutput. rewrite E. destruct (HasContent a) eqn:Eh; [done|].
  unfold HasContent in Eh. apply orb_false_iff in Eh as [Eh E3]. apply orb_false_iff in Eh as [E1 E2].
  assert (Hb : BuildOutput a = []).
  { unfold BuildOutput. apply negb_false_iff in E1, E3. rewrite E1, E3. destruct (ac_funcCalls a); [done|]. apply Z.ltb_ge in E2. simpl in E2. lia. }
  rewrite Hb. destruct r. cbn in E. by subst.
Qed.


(** ** On a concrete stream *)

(** Text, a call with its arguments, an event of an unknown output, the end. *)
Definition weatherEvents : list ResponsesStreamEvent :=
  let ev t := { no_responses_event with rs_Type := t } in
  [ev "response.created";
   { (ev "response.output_text.delta") with rs_Delta := "Let me " };
   { (ev "response.output_text.delta") with rs_Delta := "see." };
   { (ev "response.output_item.added") with rs_OutputIndex := 1; rs_Item := Some { no_output with ro_Type := "function_call"; ro_CallID := "call_1"; ro_Name := "weather" } };
   { (ev "response.function_call_arguments.delta") with rs_OutputIndex := 1; rs_Delta := "{" };
   { (ev "response.function_call_arguments.delta") with rs_OutputIndex := 7; rs_Delta := "?" };
   { (ev "response.function_call_arguments.delta") with rs_OutputIndex := 1; rs_Delta := "}" }].
Definition weatherEnd : ResponsesStreamEvent :=
  { no_responses_event with rs_Type := "response.completed";
    rs_Response := Some (mkResponse "resp_1" "response" "gpt-5" "completed" [] (Some (mkUsage 7 5 12 0 None None)) "" None None) }.
Lemma chat_stream_well_formed_witness : chat_stream (mkProgress false 0) (chatStream "id" 0 true (weatherEvents ++ [weatherEnd])) /\
  length (chatStream "id" 0 true (weatherEvents ++ [weatherEnd])) = 8%nat.
Proof.
  split; [|vm_compute; reflexivity].
  apply (chat_stream_well_formed "id" 0 true weatherEvents [weatherEnd]); [by repeat constructor|done|right; by exists weatherEnd].
Defined.

(** A custom tool call that the terminal event carries is dropped by the
    conversion of the whole response, while the stream shows it. *)
Example custom_call_dropped now id model : co_Message <$> cr_Choices (ResponsesToChatCompletions id now
    (mkResponse "r" "response" "gpt-5" "completed" [{ no_output with ro_Type := "custom_tool_call"; ro_CallID := "call_1"; ro_Name := "apply_patch"; ro_Input := "x" }] None "" None None) model) =
  [chatMessageOf "" "" []].
Proof. reflexivity. Qed.
