(* ===== verification/ChatPipeline.v ===== *)
(** * Anthropic streams as Chat Completions streams
      ([service/gateway_forward_as_chat_completions.go])

    The gateway serves a Chat Completions client from an Anthropic account by two
    converters in a row: the events of the upstream become Responses events, and
    those become chunks.  No text is lost, repeated or reordered on this way. *)

From S2P Require Import Prelude ApiTypes AnthropicStream ResponsesStream ChatTypes ChatStream ChatFacts.

(** What the chunks add to the text that was assembled. *)
Lemma assembled_text chunks m : as_text (foldl addChunk m chunks) = as_text m +:+ as_text (assemble chunks).
Proof.
  unfold assemble. revert m. induction chunks as [|c chunks IH]; intros m; [by rewrite str_app_nil|]. cbn [foldl].
  rewrite IH, (IH (addChunk nothing c)), <- str_app_assoc. f_equal. unfold addChunk. generalize (map cc_Delta (ck_Choices c)). clear. intros ds.
  revert m. induction ds as [|d ds IH] using rev_ind; intros m; [by rewrite str_app_nil|]. rewrite !foldl_app. cbn [foldl]. unfold addDelta at 1 3. cbn [as_text].
  by rewrite IH, str_app_assoc.
Qed.
Lemma finish_text st reason : as_text (assemble (finishChunks st reason)) = "".
Proof. unfold assemble. by rewrite (proj1 (finish_shows st nothing reason)). Qed.
Lemma chunk_text e st : as_text (assemble (ResponsesEventToChatChunks e st).1) = reply_text e.
Proof.
  unfold ResponsesEventToChatChunks, reply_text. cbv zeta.
  destruct (String.eqb_spec (rs_Type e) "response.created") as [->|_].
  { unfold resToChatHandleCreated. set (st1 := match rs_Response e with Some r => _ | None => st end). clearbody st1. by destruct (es_SentRole st1). }
  destruct (String.eqb (rs_Type e) "response.output_text.delta").
  { unfold resToChatHandleTextDelta. by destruct (String.eqb_spec (rs_Delta e) "") as [->|]. }
  destruct (String.eqb (rs_Type e) "response.output_item.added").
  { unfold resToChatHandleOutputItemAdded. destruct (rs_Item e) as [item|]; [|done]. by destruct (isToolItem item). }
  destruct (isArgsDelta (rs_Type e)).
  { unfold resToChatHandleFuncArgsDelta. destruct (String.eqb _ ""); [done|]. by destruct (_ !! _). }
  destruct (isReasoningDelta (rs_Type e)).
  { unfold resToChatHandleReasoningDelta. by destruct (String.eqb _ ""). }
  destruct (isTerminal (rs_Type e)); [|done]. destruct (completed_shape e st) as (st' & -> & _). apply finish_text.
Qed.
Lemma events_text evts st : as_text (assemble (convertEvents evts st).1) = replied_text evts.
Proof.
  revert st. induction evts as [|e evts IH]; intros st; [done|]. cbn [convertEvents replied_text].
  pose proof (chunk_text e st) as He. destruct (ResponsesEventToChatChunks e st) as [c1 st1]. specialize (IH st1).
  destruct (convertEvents evts st1) as [c2 st2]. cbn [fst] in *. unfold assemble in *. rewrite foldl_app, assembled_text. unfold assemble. by rewrite He, IH.
Qed.

(** C25: Whatever Anthropic stream is served to a Chat Completions client, the text
    the client assembles from the chunks is the concatenation of the text deltas
    of the upstream: nothing is lost, repeated or reordered in the two conversions. *)
Theorem anthropic_text_to_chat (rand12 : nat -> list Z) (evts : list AnthropicStreamEvent) (created : Z) id now includeUsage :
  as_text (assemble (chatStream id now includeUsage (convert rand12 evts (NewAnthropicEventToResponsesState created)).1)) = text_of evts.
Proof.
  rewrite <- (responses_text_preserved rand12 evts created). generalize (convert rand12 evts (NewAnthropicEventToResponsesState created)).1. intros es.
  unfold chatStream. pose proof (events_text es (newStream id now includeUsage)) as H. destruct (convertEvents es (newStream id now includeUsage)) as [c st].
  cbn [fst] in H. unfold assemble in *. rewrite foldl_app, assembled_text, H.
  assert (Hf : as_text (assemble (FinalizeResponsesChatStream st).1) = ""); [|by rewrite Hf, str_app_nil].
  unfold FinalizeResponsesChatStream. destruct (es_Finalized st); [done|]. apply finish_text.
Qed.
