(* ===== verification/ChatRequest.v ===== *)
(** * Chat Completions requests as Responses requests
      ([pkg/apicompat/chatcompletions_to_responses.go], [response_format.go])

    The conversion of a Chat Completions request: messages become items of the
    input, tools and legacy functions become tools; the format of the answer is
    translated in both directions. *)

From S2P Require Import Prelude Json JsonText JsonCodec Float64 Account JsonValue ApiTypes ApiRequests RequestToResponses RequestToAnthropic ChatTypes ChatStream.

(** The errors of the conversion; a content that is not read, a value that cannot
    be encoded, a legacy function call that is not read. *)
Inductive chatError := ContentError | ChatJSONError | FunctionCallError.
Definition orChatError {A} (o : option A) : result chatError A := match o with Some a => Ok a | None => Err ChatJSONError end.

(** ** Contents *)

Definition imageURLFields : fields ChatImageURL :=
  [("url", dStr (fun u v => mkImageURL v (iu_Detail u))); ("detail", dStr (fun u v => mkImageURL (iu_URL u) v))].
Definition fileFields : fields ChatFile :=
  [("filename", dStr (fun f v => mkFile v (fi_FileData f) (fi_FileID f)));
   ("file_data", dStr (fun f v => mkFile (fi_Filename f) v (fi_FileID f)));
   ("file_id", dStr (fun f v => mkFile (fi_Filename f) (fi_FileData f) v))].
Definition chatPartFields : fields ChatContentPart :=
  [("type", dStr (fun p v => { p with ch_Type := v }));
   ("text", dStr (fun p v => { p with ch_Text := v }));
   ("image_url", dPtr ch_ImageURL (fun p v => { p with ch_ImageURL := v }) (mkImageURL "" "") (decodeStruct imageURLFields));
   ("file", dPtr ch_File (fun p v => { p with ch_File := v }) (mkFile "" "" "") (decodeStruct fileFields))].
Definition UnmarshalChatParts (raw : string) : option (gslice ChatContentPart) := UnmarshalSlice (decodeStruct chatPartFields) no_chat_part raw.

Record chatMessageContent := mkContent { mc_Text : option string; mc_Parts : list ChatContentPart }.
Definition stringPtr (s : string) : option string := Some s.
Definition parseChatMessageContent (raw : string) : result chatError chatMessageContent :=
  if String.eqb raw "" then Ok (mkContent (stringPtr "") [])
  else match UnmarshalString raw with
       | Some s => Ok (mkContent (Some s) [])
       | None => match UnmarshalChatParts raw with
                 | Some parts => Ok (mkContent None (elems_of parts))
                 | None => Err ContentError
                 end
       end.
Definition flattenChatContentParts (parts : list ChatContentPart) : string :=
  joinAll (flat_map (fun p => if String.eqb (ch_Type p) "text" && negb (String.eqb (ch_Text p) "") then [ch_Text p] else []) parts).
Definition parseChatContent (raw : string) : result chatError string :=
  match parseChatMessageContent raw with
  | Err e => Err e
  | Ok parsed => Ok (match mc_Text parsed with Some s => s | None => flattenChatContentParts (mc_Parts parsed) end)
  end.

Definition isEmptyBase64DataURI (raw : string) : bool :=
  match CutPrefix "data:" raw with
  | None => false
  | Some rest =>
      match cutAt ";" rest with
      | None => false
      | Some (_, rest) => match CutPrefix "base64," rest with None => false | Some data => String.eqb (TrimSpace data) "" end
      end
  end.
Definition responsePart (p : ChatContentPart) : list ResponsesContentPart :=
  if String.eqb (ch_Type p) "text" then (if String.eqb (ch_Text p) "" then [] else [input_text (ch_Text p)])
  else if String.eqb (ch_Type p) "image_url" then
    match ch_ImageURL p with
    | Some u => if negb (String.eqb (iu_URL u) "") && negb (isEmptyBase64DataURI (iu_URL u)) then [input_image (iu_URL u)] else []
    | None => []
    end
  else if String.eqb (ch_Type p) "file" then
    match ch_File p with
    | Some f => if negb (String.eqb (fi_FileData f) "") || negb (String.eqb (fi_FileID f) "")
                then [{ no_part with cp_Type := "input_file"; cp_Filename := fi_Filename f; cp_FileData := fi_FileData f; cp_FileID := fi_FileID f }] else []
    | None => []
    end
  else [].
Definition convertChatContentPartsToResponses (parts : list ChatContentPart) : list ResponsesContentPart := flat_map responsePart parts.
Definition marshalChatInputContent (content : chatMessageContent) : result chatError string :=
  match mc_Text content with
  | Some s => Ok (MarshalString s)
  | None =>
      match convertChatContentPartsToResponses (mc_Parts content) with
      | [] => Ok (MarshalString "")
      | parts => orChatError (MarshalParts (Some parts))
      end
  end.

(** [json.Unmarshal(raw, &parts)] for [var parts []map[string]any]; a nil map reads
    as empty. *)
Definition UnmarshalMaps (raw : string) : option (list (gmap string any)) :=
  if negb (Valid raw) then None
  else match decodeValue (json_fuel raw) raw with
       | Some (AnyList l, _) => mapM (fun v => match v with AnyMap m => Some m | AnyNil => Some ∅ | _ => None end) l
       | Some (AnyNil, _) => Some []
       | _ => None
       end.
Definition stringAt (m : gmap string any) (key : string) : string := match m !! key with Some (AnyString s) => s | _ => "" end.
Definition thinkingTag (s : string) : string := "<thinking>" +:+ s +:+ "</thinking>".
Definition assistantPart (p : gmap string any) : string :=
  let typ := stringAt p "type" in
  let text := stringAt p "text" in
  let thinking := stringAt p "thinking" in
  if String.eqb typ "thinking" || String.eqb typ "reasoning" then
    if negb (String.eqb thinking "") then thinkingTag thinking else if negb (String.eqb text "") then thinkingTag text else ""
  else text.
Definition parseAssistantContent (raw : string) : string :=
  if String.eqb raw "" then ""
  else match UnmarshalString raw with
       | Some s => s
       | None => match UnmarshalMaps raw with Some parts => joinAll (map assistantPart parts) | None => "" end
       end.

(** ** Messages *)

Definition role_item (role content : string) : ResponsesInputItem := { no_item with ri_Role := role; ri_Content := content }.
Definition contentItem (role : string) (m : ChatMessage) : result chatError (list ResponsesInputItem) :=
  match parseChatMessageContent (cm_Content m) with
  | Err e => Err e
  | Ok parsed => match marshalChatInputContent parsed with Err e => Err e | Ok content => Ok [role_item role content] end
  end.
Definition chatSystemToResponses : ChatMessage -> result chatError (list ResponsesInputItem) := contentItem "system".
Definition chatUserToResponses : ChatMessage -> result chatError (list ResponsesInputItem) := contentItem "user".

Definition chatCallItem (tc : ChatToolCall) : ResponsesInputItem :=
  let args := cf_Arguments (tl_Function tc) in
  { no_item with ri_Type := "function_call"; ri_CallID := tl_ID tc; ri_Name := cf_Name (tl_Function tc);
                 ri_Arguments := (if String.eqb args "" then "{}" else args) }.
Definition assistantText (m : ChatMessage) : string :=
  let content := if String.eqb (cm_ReasoningContent m) "" then "" else thinkingTag (cm_ReasoningContent m) in
  let s := parseAssistantContent (cm_Content m) in
  if String.eqb s "" then content else (if String.eqb content "" then "" else content +:+ String (byte 10) "") +:+ s.
Definition chatAssistantToResponses (m : ChatMessage) : result chatError (list ResponsesInputItem) :=
  let content := assistantText m in
  let calls := map chatCallItem (cm_ToolCalls m) in
  if String.eqb content "" then Ok calls
  else match MarshalParts (Some [output_text content]) with
       | None => Err ChatJSONError
       | Some partsJSON => Ok (role_item "assistant" partsJSON :: calls)
       end.

Definition resultItem (callID : string) (m : ChatMessage) : result chatError (list ResponsesInputItem) :=
  match parseChatContent (cm_Content m) with
  | Err e => Err e
  | Ok output =>
      Ok [{ no_item with ri_Type := "function_call_output"; ri_CallID := callID; ri_Output := (if String.eqb output "" then "(empty)" else output) }]
  end.
Definition chatToolToResponses (m : ChatMessage) : result chatError (list ResponsesInputItem) := resultItem (cm_ToolCallID m) m.
Definition chatFunctionToResponses (m : ChatMessage) : result chatError (list ResponsesInputItem) := resultItem (cm_Name m) m.

Definition chatMessageToResponsesItems (m : ChatMessage) : result chatError (list ResponsesInputItem) :=
  if String.eqb (cm_Role m) "system" then chatSystemToResponses m
  else if String.eqb (cm_Role m) "user" then chatUserToResponses m
  else if String.eqb (cm_Role m) "assistant" then chatAssistantToResponses m
  else if String.eqb (cm_Role m) "tool" then chatToolToResponses m
  else if String.eqb (cm_Role m) "function" then chatFunctionToResponses m
  else chatUserToResponses m.
Fixpoint convertChatMessagesToResponsesInput (msgs : list ChatMessage) : result chatError (list ResponsesInputItem) :=
  match msgs with
  | [] => Ok []
  | m :: msgs =>
      match chatMessageToResponsesItems m with
      | Err e => Err e
      | Ok items => match convertChatMessagesToResponsesInput msgs with Err e => Err e | Ok rest => Ok (items ++ rest) end
      end
  end.

(** ** Tools and the format of the answer *)

Definition defaultStrictFalse (src : option bool) : option bool := match src with None => Some false | Some b => Some b end.
Definition functionTool (f : ChatFunction) : ResponsesTool :=
  mkTool "function" (fn_Name f) (fn_Description f) (fn_Parameters f) (defaultStrictFalse (fn_Strict f)) [] [] [] [] "" "" None None.
(** [strings.EqualFold(s, "x_search")] *)
Definition isXSearch (s : string) : bool := String.eqb (foldName s) "X_SEARCH".
Definition chatTool (t : ChatTool) : list ResponsesTool :=
  if isXSearch (TrimSpace (ct_Type t)) then
    [mkTool "x_search" "" "" "" None [] [] (ct_AllowedXHandles t) (ct_ExcludedXHandles t) (ct_FromDate t) (ct_ToDate t)
       (ct_EnableImageUnderstanding t) (ct_EnableVideoUnderstanding t)]
  else match ct_Function t with
       | Some f => if String.eqb (ct_Type t) "function" then [functionTool f] else []
       | None => []
       end.
Definition convertChatToolsToResponses (tools : list ChatTool) (functions : list ChatFunction) : list ResponsesTool :=
  flat_map chatTool tools ++ map functionTool functions.
Definition convertChatFunctionCallToToolChoice (raw : string) : result chatError string :=
  match UnmarshalString raw with
  | Some s => Ok (MarshalString s)
  | None =>
      match Unmarshal (decodeStruct [("name", dStr (fun (_ : string) v => v))]) "" raw with
      | None => Err ChatJSONError
      | Some name => orChatError (Marshal (JObj [("name", JStr name); ("type", JStr "function")]))
      end
  end.

Definition bytesTrimSpace (raw : string) : string := TrimSpace raw.
Definition normalizedRawJSON (raw : string) : string := let raw := bytesTrimSpace raw in if String.eqb raw "null" then "" else raw.
Definition rawJSONObject (raw : string) : option (gmap string string) := UnmarshalRawMap raw.
Definition rawJSONString (value : string) : string := MarshalString value.
Definition rawString (raw : string) : string := let raw := normalizedRawJSON raw in if String.eqb raw "" then "" else default "" (UnmarshalString raw).
Definition chatResponseFormatToResponsesTextFormat (raw : string) : string :=
  let raw := normalizedRawJSON raw in
  if String.eqb raw "" then ""
  else match rawJSONObject raw with
       | None => raw
       | Some obj =>
           if negb (String.eqb (rawString (default "" (obj !! "type"))) "json_schema") then raw
           else
             let schemaRaw := normalizedRawJSON (default "" (obj !! "json_schema")) in
             if String.eqb schemaRaw "" then raw
             else match UnmarshalRawMap schemaRaw with
                  | None => raw
                  | Some schema => MarshalRawMap (<["type" := rawJSONString "json_schema"]> schema)
                  end
       end.
Definition responsesTextFormatToChatResponseFormat (raw : string) : string :=
  let raw := normalizedRawJSON raw in
  if String.eqb raw "" then ""
  else match rawJSONObject raw with
       | None => raw
       | Some obj =>
           if negb (String.eqb (rawString (default "" (obj !! "type"))) "json_schema") then raw
           else match obj !! "json_schema" with
                | Some _ => raw
                | None =>
                    let schema := delete "type" obj in
                    if bool_decide (schema = ∅) then raw
                    else MarshalRawMap (<["type" := rawJSONString "json_schema"]> {["json_schema" := MarshalRawMap schema]})
                end
       end.

(** ** Requests *)

Definition ChatCompletionsToResponses (req : ChatCompletionsRequest) : result chatError ResponsesRequest :=
  match convertChatMessagesToResponsesInput (cq_Messages req) with
  | Err e => Err e
  | Ok input =>
      match MarshalItems (sliceOf input) with
      | None => Err ChatJSONError
      | Some inputJSON =>
          let reasoning := isReasoningModel (cq_Model req) in
          let maxTokens := match cq_MaxCompletionTokens req with Some v => v | None => default 0 (cq_MaxTokens req) end in
          let format := chatResponseFormatToResponsesTextFormat (cq_ResponseFormat req) in
          let out :=
            { no_responses_request with
                rq_Model := cq_Model req; rq_Instructions := cq_Instructions req; rq_Input := inputJSON; rq_Stream := true;
                rq_Include := ["reasoning.encrypted_content"]; rq_ServiceTier := cq_ServiceTier req;
                rq_ParallelToolCalls := cq_ParallelToolCalls req;
                rq_Temperature := (if reasoning then None else cq_Temperature req);
                rq_TopP := (if reasoning then None else cq_TopP req);
                rq_Store := Some false;
                rq_MaxOutputTokens := (if 0 <? maxTokens then Some (if maxTokens <? minMaxOutputTokens then minMaxOutputTokens else maxTokens) else None);
                rq_Reasoning := (if String.eqb (cq_ReasoningEffort req) "" then None else Some (mkReasoning (cq_ReasoningEffort req) "auto"));
                rq_Text := (if String.eqb format "" then None else Some (mkText format ""));
                rq_Tools := convertChatToolsToResponses (cq_Tools req) (cq_Functions req) } in
          if negb (String.eqb (cq_ToolChoice req) "") then Ok { out with rq_ToolChoice := cq_ToolChoice req }
          else if negb (String.eqb (cq_FunctionCall req) "") then
            match convertChatFunctionCallToToolChoice (cq_FunctionCall req) with
            | Err _ => Err FunctionCallError
            | Ok tc => Ok { out with rq_ToolChoice := tc }
            end
          else Ok out
      end
  end.

(** ** On concrete texts *)

Example assistant_parts : parseAssistantContent (qs ["[{"; "type"; ":"; "thinking"; ","; "thinking"; ":"; "hm"; "},{"; "type"; ":"; "text"; ","; "text"; ":"; "a"; "},null]"])
  = "<thinking>hm</thinking>a".
Proof. vm_compute. reflexivity. Qed.
Example chat_parts : parseChatMessageContent (qs ["[{"; "type"; ":"; "image_url"; ","; "image_url"; ":{"; "url"; ":"; "u"; "}},{"; "type"; ":"; "text"; ","; "text"; ":"; "a"; "}]"])
  = Ok (mkContent None [mkChatPart "image_url" "" (Some (mkImageURL "u" "")) None; mkChatPart "text" "a" None None]) /\
  parseChatMessageContent "5" = Err ContentError /\ parseChatMessageContent "null" = Ok (mkContent (Some "") []).
Proof. vm_compute. done. Qed.
Example formats : let chat := qs ["{"; "json_schema"; ":{"; "name"; ":"; "n"; "},"; "type"; ":"; "json_schema"; "}"] in
  chatResponseFormatToResponsesTextFormat chat = qs ["{"; "name"; ":"; "n"; ","; "type"; ":"; "json_schema"; "}"] /\
  responsesTextFormatToChatResponseFormat (chatResponseFormatToResponsesTextFormat chat) = chat /\
  map isXSearch ["x_search"; "X_Search"; "xsearch"; "web_search"] = [true; true; false; false].
Proof. vm_compute. done. Qed.
