(* ===== verification/ChatRequestFacts.v ===== *)
(** * From Chat Completions to Anthropic

    A Chat Completions request reaches an Anthropic account as a Responses request
    that is converted once more.  What its messages become on this way, and which
    requests are refused. *)

From S2P Require Import Prelude Json JsonText JsonCodec Float64 Account JsonValue ApiTypes ApiRequests RequestToResponses RequestToAnthropic ToolPairing RequestRoundTrip RequestFacts ChatTypes ChatStream ChatRequest.

(** ** Messages and their blocks *)

Definition userTexts (m : ChatMessage) : list string :=
  match UnmarshalString (cm_Content m) with
  | Some s => [s]
  | None => match UnmarshalChatParts (cm_Content m) with Some parts => map ch_Text (elems_of parts) | None => [] end
  end.
Definition callArgs (tc : ChatToolCall) : string := let args := cf_Arguments (tl_Function tc) in if String.eqb args "" then "{}" else args.
Definition callUse (tc : ChatToolCall) : AnthropicContentBlock := useBlock (tl_ID tc) (cf_Name (tl_Function tc)) (callArgs tc).
Definition outputOf (m : ChatMessage) : string :=
  match parseChatContent (cm_Content m) with Ok s => if String.eqb s "" then "(empty)" else s | Err _ => "" end.
(** The system texts of a message and its blocks, each group with its role. *)
Definition chatView (m : ChatMessage) : list string * list vmessage :=
  if String.eqb (cm_Role m) "system" then (userTexts m, [])
  else if String.eqb (cm_Role m) "assistant" then
    ([], (if String.eqb (assistantText m) "" then [] else [("assistant", [textBlock (assistantText m)])]) ++
         map (fun tc => ("assistant", [compactBlock (callUse tc)])) (cm_ToolCalls m))
  else if String.eqb (cm_Role m) "tool" then ([], [("user", [resultBlock (cm_ToolCallID m) (outputOf m)])])
  else ([], [("user", map textBlock (userTexts m))]).

Definition textPart (p : ChatContentPart) : Prop := ch_Type p = "text" /\ ch_Text p <> "" /\ utf8_valid (ch_Text p) = true.
Definition callOk (tc : ChatToolCall) : Prop :=
  keepsID (tl_ID tc) /\ utf8_valid (cf_Name (tl_Function tc)) = true /\ utf8_valid (cf_Arguments (tl_Function tc)) = true /\ rawOk (cf_Arguments (tl_Function tc)).
(** Messages of texts, tool calls with JSON arguments, and tool results. *)
Inductive plainChat (m : ChatMessage) : Prop :=
| chat_system s : cm_Role m = "system" -> UnmarshalString (cm_Content m) = Some s -> s <> "" -> plainChat m
| chat_user s : cm_Role m = "user" -> UnmarshalString (cm_Content m) = Some s -> s <> "" -> plainChat m
| chat_parts ps : cm_Role m = "user" -> UnmarshalString (cm_Content m) = None -> UnmarshalChatParts (cm_Content m) = Some (Some ps) ->
    Forall textPart ps -> ps <> [] -> plainChat m
| chat_assistant : cm_Role m = "assistant" -> utf8_valid (assistantText m) = true -> (assistantText m = "" \/ TrimSpace (assistantText m) <> "") ->
    Forall callOk (cm_ToolCalls m) -> (assistantText m <> "" \/ cm_ToolCalls m <> []) -> plainChat m
| chat_tool s : cm_Role m = "tool" -> keepsID (cm_ToolCallID m) -> UnmarshalString (cm_Content m) = Some s -> plainChat m.

(** The items of one message, and what they become. *)
Record chatTravels (m : ChatMessage) (items : list ResponsesInputItem) (L : list AnthropicMessage) : Prop := {
  ct_items : chatMessageToResponsesItems m = Ok items;
  ct_good : Forall itemGood items;
  ct_back : convertItems (map compactItem items) = Ok ((chatView m).1, L);
  ct_view : map view L = (chatView m).2;
  ct_some : items <> [] }.

Lemma squeeze_quote s : squeeze (json_quote s) = json_quote s /\ rawOk (json_quote s).
Proof. split; [exact (squeeze_print (JStr s) 0 eq_refl)|]. right. exact (print_ValidAt (JStr s) 2 eq_refl). Qed.
Lemma textBlock_compact s : compactBlock (textBlock s) = textBlock s.
Proof. done. Qed.
Lemma resultBlock_compact id s : compactBlock (resultBlock id s) = resultBlock id s.
Proof. unfold compactBlock, resultBlock. cbn -[squeeze MarshalString]. by rewrite (proj1 (squeeze_quote s) : squeeze (MarshalString s) = _). Qed.
(** The type of a message item does not matter. *)
Lemma role_item_converts role c : convertItem (role_item role c) = convertItem (message_item role c).
Proof. done. Qed.
Lemma role_item_good role c : utf8_valid role = true -> rawOk c -> itemGood (role_item role c).
Proof. intros Hr Hc. split; [|done]. by constructor. Qed.
Lemma role_item_compact role c : squeeze c = c -> compactItem (role_item role c) = role_item role c.
Proof. intros H. unfold compactItem, role_item. cbn -[squeeze]. by rewrite H. Qed.

(** ** One message *)

Lemma content_parsed c s : UnmarshalString c = Some s -> parseChatMessageContent c = Ok (mkContent (Some s) []).
Proof. intros H. unfold parseChatMessageContent. destruct (String.eqb_spec c "") as [->|_]; [by rewrite UnmarshalString_empty in H|]. by rewrite H. Qed.
Lemma user_text_back s : utf8_valid s = true -> s <> "" -> convertItem (role_item "user" (MarshalString s)) = Ok ([], [mkMessage "user" (MarshalString s)]).
Proof.
  intros Hv Hs. pose proof (UnmarshalString_quote s Hv : UnmarshalString (MarshalString s) = Some s) as E.
  rewrite role_item_converts. unfold convertItem. item_fields "user". unfold convertResponsesUserToAnthropicContent.
  change (String.eqb (MarshalString s) "") with false. rewrite E.
  by rewrite (text_not_empty s Hv), (proj2 (String.eqb_neq _ _) Hs).
Qed.
Ltac role_is E := unfold chatMessageToResponsesItems, chatView; rewrite E; cbn [String.eqb Ascii.eqb Bool.eqb fst snd].

Lemma system_travels m s : cm_Role m = "system" -> UnmarshalString (cm_Content m) = Some s -> s <> "" -> exists items L, chatTravels m items L.
Proof.
  intros Er E Hs. pose proof (UnmarshalString_valid _ _ E) as Hv. exists [role_item "system" (MarshalString s)], [].
  destruct (squeeze_quote s) as [Hq Hr]. constructor.
  - role_is Er. unfold chatSystemToResponses, contentItem. by rewrite (content_parsed _ _ E).
  - constructor; [by apply role_item_good|constructor].
  - cbn [map convertItems]. rewrite role_item_compact by done. rewrite role_item_converts. unfold convertItem. item_fields "system".
    change (String.eqb "system" "system" || String.eqb "system" "developer") with true. cbv iota.
    unfold extractTextFromContent. change (String.eqb (MarshalString s) "") with false.
    rewrite (UnmarshalString_quote s Hv : UnmarshalString (MarshalString s) = Some s), (proj2 (String.eqb_neq _ _) Hs).
    role_is Er. unfold userTexts. by rewrite E.
  - by role_is Er.
  - done.
Qed.
Lemma user_chat_travels m s : cm_Role m = "user" -> UnmarshalString (cm_Content m) = Some s -> s <> "" -> exists items L, chatTravels m items L.
Proof.
  intros Er E Hs. pose proof (UnmarshalString_valid _ _ E) as Hv. exists [role_item "user" (MarshalString s)], [mkMessage "user" (MarshalString s)].
  destruct (squeeze_quote s) as [Hq Hr]. constructor.
  - role_is Er. unfold chatUserToResponses, contentItem. by rewrite (content_parsed _ _ E).
  - constructor; [by apply role_item_good|constructor].
  - cbn [map convertItems]. rewrite role_item_compact, user_text_back by done. by role_is Er.
  - cbn [map]. rewrite text_content_view by done. role_is Er. unfold userTexts. by rewrite E.
  - done.
Qed.
Lemma parts_converted ps : Forall textPart ps -> convertChatContentPartsToResponses ps = map (fun b => input_text (cb_Text b)) (map textBlock (map ch_Text ps)).
Proof.
  induction 1 as [|p l (Ht & Hn & _) _ IH]; [done|]. unfold convertChatContentPartsToResponses in *. cbn [flat_map map]. rewrite IH.
  unfold responsePart. rewrite Ht. cbn. by rewrite (proj2 (String.eqb_neq _ _) Hn).
Qed.
Lemma user_parts_travels m ps : cm_Role m = "user" -> UnmarshalString (cm_Content m) = None -> UnmarshalChatParts (cm_Content m) = Some (Some ps) ->
  Forall textPart ps -> ps <> [] -> exists items L, chatTravels m items L.
Proof.
  intros Er E1 E2 Hp Hne. set (ts := map textBlock (map ch_Text ps)).
  assert (Hts : Forall plainText ts).
  { apply Forall_forall. intros b Hb. apply list_elem_of_fmap in Hb as (s & -> & Hs). apply list_elem_of_fmap in Hs as (p & -> & Hi).
    rewrite Forall_forall in Hp. destruct (Hp p Hi) as (_ & Hn & Hv). by eexists. }
  assert (Hts0 : ts <> []) by (subst ts; by destruct ps). assert (Hok : Forall blockOk ts) by (eapply Forall_imp; [apply plainText_ok|done]).
  set (qs := map (fun b => input_text (cb_Text b)) ts).
  assert (Hqs : Forall partOk qs).
  { apply Forall_forall. intros q Hq. apply list_elem_of_fmap in Hq as (b & -> & Hb). rewrite Forall_forall in Hts. destruct (Hts b Hb) as (s & -> & Hs & _). by apply input_text_ok. }
  destruct (partsText_raw qs) as [Hv Hs]. exists [role_item "user" (partsText qs)], [anthropicMessageFromBlocks "user" ts]. constructor.
  - role_is Er. unfold chatUserToResponses, contentItem, parseChatMessageContent.
    destruct (String.eqb_spec (cm_Content m) "") as [E|_]; [rewrite E in E2; vm_compute in E2; discriminate E2|]. rewrite E1, E2.
    unfold marshalChatInputContent. cbn [mc_Text mc_Parts]. change (elems_of (Some ps)) with ps. rewrite parts_converted by done.
    change (map (fun b => input_text (cb_Text b)) (map textBlock (map ch_Text ps))) with qs.
    assert (Hqs0 : qs <> []) by (subst qs; by destruct ts). destruct qs as [|q qs']; [done|]. by rewrite (proj1 (parts_marshal _ Hqs)).
  - constructor; [apply role_item_good; [done|by right]|constructor].
  - cbn [map convertItems]. rewrite role_item_compact, role_item_converts by done.
    rewrite (user_texts_back ts Hts0 Hts : convertItem (message_item "user" (partsText qs)) = _). by role_is Er.
  - cbn [map]. rewrite view_from by done. role_is Er. unfold userTexts. rewrite E1, E2. change (elems_of (Some ps)) with ps. fold ts.
    f_equal. f_equal. subst ts. by rewrite map_map, (map_ext _ textBlock textBlock_compact).
  - done.
Qed.

Lemma calls_travel calls : Forall callOk calls -> Forall itemGood (map chatCallItem calls) /\
  convertItems (map compactItem (map chatCallItem calls)) = Ok ([], map (fun tc => anthropicMessageFromBlocks "assistant" [callUse tc]) calls) /\
  map view (map (fun tc => anthropicMessageFromBlocks "assistant" [callUse tc]) calls) = map (fun tc => ("assistant", [compactBlock (callUse tc)])) calls.
Proof.
  intros H. assert (Hone : forall tc, callOk tc -> plainUse (callUse tc) /\ chatCallItem tc = callItem (callUse tc)).
  { intros tc (Hid & Hn & Ha & Hr). unfold callUse, callArgs, chatCallItem, callItem. cbv zeta. destruct (String.eqb_spec (cf_Arguments (tl_Function tc)) "") as [E|E].
    - split; [|done]. eexists _, _, _. split_and!; [reflexivity|apply Hid|done..|by vm_compute].
    - split; [|by rewrite (proj2 (String.eqb_neq (cb_Input (useBlock _ _ _)) "") E)].
      eexists _, _, _. destruct Hr as [Hr|Hr]; [done|]. split_and!; [reflexivity|apply Hid|done..]. }
  split_and!.
  - apply Forall_forall. intros i Hi. apply list_elem_of_fmap in Hi as (tc & -> & Htc). rewrite Forall_forall in H. destruct (Hone tc (H _ Htc)) as [Hu ->]. by apply use_there.
  - rewrite map_map. apply convertItems_each. eapply Forall_imp; [|exact H]. intros tc Htc. destruct (Hone tc Htc) as [Hu ->]. by apply use_there.
  - rewrite map_map. apply map_ext_in. intros tc Htc. rewrite Forall_forall in H. apply list_elem_of_In in Htc. destruct (Hone tc (H _ Htc)) as [Hu _].
    by rewrite view_from by (constructor; [by apply plainUse_ok|constructor]).
Qed.
Lemma assistant_chat_travels m : cm_Role m = "assistant" -> utf8_valid (assistantText m) = true -> assistantText m = "" \/ TrimSpace (assistantText m) <> "" ->
  Forall callOk (cm_ToolCalls m) -> assistantText m <> "" \/ cm_ToolCalls m <> [] -> exists items L, chatTravels m items L.
Proof.
  intros Er Hv Ht Hc Hne. destruct (calls_travel _ Hc) as (G & B & V). set (calls := map chatCallItem (cm_ToolCalls m)) in *.
  destruct (String.eqb_spec (assistantText m) "") as [E|E].
  - exists calls, (map (fun tc => anthropicMessageFromBlocks "assistant" [callUse tc]) (cm_ToolCalls m)). constructor; try done.
    + role_is Er. unfold chatAssistantToResponses. cbv zeta. by rewrite E.
    + by role_is Er.
    + role_is Er. by rewrite E.
    + subst calls. destruct Hne as [Hne|Hne]; [done|]. by destruct (cm_ToolCalls m).
  - set (s := assistantText m) in *. assert (Hp : Forall partOk [output_text s]) by (constructor; [by apply output_text_ok|constructor]).
    destruct (partsText_raw [output_text s]) as [Hraw Hs].
    exists (role_item "assistant" (partsText [output_text s]) :: calls), (anthropicMessageFromBlocks "assistant" [textBlock s] :: map (fun tc => anthropicMessageFromBlocks "assistant" [callUse tc]) (cm_ToolCalls m)).
    constructor; try done.
    + role_is Er. unfold chatAssistantToResponses. cbv zeta. fold s. rewrite (proj2 (String.eqb_neq _ _) E). by rewrite (proj1 (parts_marshal _ Hp)).
    + constructor; [|done]. apply role_item_good; [done|by right].
    + cbn [map convertItems]. rewrite role_item_compact, role_item_converts by done. destruct Ht as [Ht|Ht]; [done|].
      rewrite assistant_text_back by done. rewrite B. by role_is Er.
    + cbn [map]. rewrite V, view_from by (constructor; [by apply textBlock_ok|constructor]). role_is Er. fold s. by rewrite (proj2 (String.eqb_neq _ _) E).
Qed.
Lemma tool_chat_travels m s : cm_Role m = "tool" -> keepsID (cm_ToolCallID m) -> UnmarshalString (cm_Content m) = Some s -> exists items L, chatTravels m items L.
Proof.
  intros Er Hid E. assert (Ep : parseChatContent (cm_Content m) = Ok s) by (unfold parseChatContent; by rewrite (content_parsed _ _ E)).
  assert (Ho : outputOf m = (if String.eqb s "" then "(empty)" else s)) by (unfold outputOf; by rewrite Ep).
  assert (Hv : utf8_valid (outputOf m) = true /\ outputOf m <> "").
  { rewrite Ho. destruct (String.eqb_spec s ""); [done|]. split; [|done]. by apply (UnmarshalString_valid _ _ E). }
  destruct Hv as [Hv Hn]. assert (Hb : plainResult (resultBlock (cm_ToolCallID m) (outputOf m))).
  { eexists _, _. by split_and!. }
  destruct (result_there _ Hb) as (Ei & G & _ & B).
  exists [outputItem (resultBlock (cm_ToolCallID m) (outputOf m))], [anthropicMessageFromBlocks "user" [resultBlock (cm_ToolCallID m) (outputOf m)]]. constructor; try done.
  - role_is Er. unfold chatToolToResponses, resultItem. rewrite Ep, Ei. f_equal. f_equal. f_equal.
    unfold convertToolResultOutput.
    change (cb_Content (resultBlock (cm_ToolCallID m) (outputOf m))) with (MarshalString (outputOf m)). change (String.eqb (MarshalString (outputOf m)) "") with false. cbv iota.
    rewrite (UnmarshalString_quote _ Hv : UnmarshalString (MarshalString (outputOf m)) = Some (outputOf m)). cbn [fst]. by rewrite (proj2 (String.eqb_neq _ _) Hn), Ho.
  - by constructor.
  - cbn [map convertItems]. rewrite B. by role_is Er.
  - cbn [map]. rewrite view_from by (constructor; [by apply plainResult_ok|constructor]). cbn [map]. rewrite resultBlock_compact. by role_is Er.
Qed.
Lemma chat_travels m : plainChat m -> exists items L, chatTravels m items L.
Proof.
  destruct 1; [by eapply system_travels|by eapply user_chat_travels|by eapply user_parts_travels|by apply assistant_chat_travels|by eapply tool_chat_travels].
Qed.

(** ** Conversations *)

Definition chatSystem (msgs : list ChatMessage) : list string := flat_map (fun m => (chatView m).1) msgs.
Definition chatBlocks (msgs : list ChatMessage) : list vmessage := flat_map (fun m => (chatView m).2) msgs.
Lemma chat_conversation msgs : Forall plainChat msgs -> exists items L, convertChatMessagesToResponsesInput msgs = Ok items /\ Forall itemGood items /\
  convertItems (map compactItem items) = Ok (chatSystem msgs, L) /\ map view L = chatBlocks msgs /\ (msgs <> [] -> items <> []).
Proof.
  induction 1 as [|m msgs Hm _ (i2 & L2 & E2 & G2 & B2 & V2 & _)]; [by exists [], []|].
  destruct (chat_travels m Hm) as (i1 & L1 & []). exists (i1 ++ i2), (L1 ++ L2). split_and!.
  - cbn [convertChatMessagesToResponsesInput]. by rewrite ct_items0, E2.
  - by apply Forall_app.
  - rewrite map_app. by apply convertItems_app.
  - by rewrite map_app, ct_view0, V2.
  - intros _. by destruct i1.
Qed.
Lemma plain_results m : plainChat m -> Forall (fun b => cb_ToolUseID b <> "") (results (chatView m).2).
Proof.
  assert (Ht : forall l, Forall (fun b => cb_ToolUseID b <> "") (List.filter (isType "tool_result") (map textBlock l))).
  { intros l. rewrite filter_none; [constructor|]. apply Forall_forall. intros b Hb. by apply list_elem_of_fmap in Hb as (s & -> & _). }
  assert (Ha : forall l, results (map (fun tc => ("assistant", [compactBlock (callUse tc)])) l) = []) by (intros l; induction l as [|x l IH]; [done|exact IH]).
  intros H. unfold chatView. destruct H as [s E|s E|ps E|E|s E Hid]; rewrite E; cbn [String.eqb Ascii.eqb Bool.eqb snd]; unfold results; cbn [flat_map].
  - constructor.
  - rewrite app_nil_r. apply Ht.
  - rewrite app_nil_r. apply Ht.
  - rewrite flat_map_app. apply Forall_app. split; [destruct (String.eqb _ ""); constructor|]. by rewrite (Ha (cm_ToolCalls m) : flat_map _ _ = _).
  - constructor; [|constructor]. cbn. destruct Hid as [_ Hid]. rewrite <- Hid. apply callID_some.
Qed.
Lemma conversation_results msgs : Forall plainChat msgs -> Forall (fun b => cb_ToolUseID b <> "") (results (amerge (chatBlocks msgs))).
Proof.
  intros H. rewrite results_merged. unfold chatBlocks, results. induction H as [|m msgs Hm _ IH]; [constructor|].
  cbn [flat_map]. rewrite flat_map_app. apply Forall_app. split; [exact (plain_results m Hm)|exact IH].
Qed.

(** The setting that stands in for a missing tool choice can be read. *)
Definition functionCallParses (req : ChatCompletionsRequest) : Prop :=
  cq_ToolChoice req <> "" \/ cq_FunctionCall req = "" \/ is_Some (UnmarshalString (cq_FunctionCall req)) \/
  is_Some (Unmarshal (decodeStruct [("name", dStr (fun (_ : string) v => v))]) "" (cq_FunctionCall req)).
Lemma chat_request_shape req items : convertChatMessagesToResponsesInput (cq_Messages req) = Ok items -> items <> [] -> Forall itemGood items ->
  functionCallParses req -> exists mid, ChatCompletionsToResponses req = Ok mid /\ rq_Input mid = print (JArr (map itemTree items)) /\
    UnmarshalItems (rq_Input mid) = Some (Some (map compactItem items)) /\ rq_Instructions mid = cq_Instructions req /\ rq_Model mid = cq_Model req /\ rq_Stream mid = true.
Proof.
  intros E Hne G Hc. unfold ChatCompletionsToResponses. rewrite E. destruct items as [|i items]; [done|]. cbn [sliceOf].
  destruct (items_back _ G) as (raw & -> & Eraw & Eu). cbv zeta. destruct (String.eqb_spec (cq_ToolChoice req) "") as [E0|E0]; cbn [negb].
  - destruct (String.eqb_spec (cq_FunctionCall req) "") as [E1|E1]; cbn [negb]; [eexists; by split_and!|].
    assert (Hok : exists tc, convertChatFunctionCallToToolChoice (cq_FunctionCall req) = Ok tc).
    { unfold convertChatFunctionCallToToolChoice. destruct (UnmarshalString (cq_FunctionCall req)) as [s|] eqn:Es; [by eexists|].
      destruct Hc as [Hc|[Hc|[[s Hc]|[name Hc]]]]; [done|done|congruence|]. rewrite Hc, choice_marshal. by eexists. }
    destruct Hok as [tc ->]. eexists. by split_and!.
  - eexists. by split_and!.
Qed.

(** C21: A Chat Completions request that is served by an Anthropic account keeps its
    conversation through both conversions.  This is for chats of texts, tool calls with
    JSON arguments and tool results ([plainChat], with tool ids that need no prefix of
    Anthropic's) whose calls are each answered once, by the next user turn ([turns]), and
    whose [function_call] setting, if it counts, can be read.  Then neither conversion
    fails, and the messages of the Anthropic request are exactly the texts, tool calls and
    tool results of the chat, in their order, neighbours of the same role merged; the
    system messages and the instructions are its system prompt. *)
Theorem chat_request_to_anthropic (req : ChatCompletionsRequest) :
  Forall plainChat (cq_Messages req) -> cq_Messages req <> [] -> functionCallParses req ->
  turns "" [] (amerge (chatBlocks (cq_Messages req))) -> NoDup (map cb_ToolUseID (results (amerge (chatBlocks (cq_Messages req))))) ->
  exists mid out, ChatCompletionsToResponses req = Ok mid /\ ResponsesToAnthropicRequest mid = Ok out /\
    map view (aq_Messages out) = amerge (chatBlocks (cq_Messages req)) /\
    aq_System out = systemText ((if String.eqb (TrimSpace (cq_Instructions req)) "" then [] else [TrimSpace (cq_Instructions req)]) ++ chatSystem (cq_Messages req)) /\
    aq_Model out = cq_Model req /\ aq_Stream out = true.
Proof.
  intros Hm Hne Hc Ht Hd. destruct (chat_conversation _ Hm) as (items & L & E & G & B & V & Hitems).
  destruct (chat_request_shape req items E (Hitems Hne) G Hc) as (mid & Em & Ei & Eu & Ein & Emo & Est). exists mid.
  assert (Hmsgs : map view (repairMessages L) = amerge (chatBlocks (cq_Messages req))).
  { apply repair_view; [by rewrite V|done|done|by apply conversation_results]. }
  unfold ResponsesToAnthropicRequest, convertResponsesInputToAnthropic. rewrite Eu, Ei, UnmarshalString_array.
  change (elems_of (Some ?x)) with x. rewrite B, Ein. destruct (responses_choice_total (rq_ToolChoice mid)) as [c ->].
  destruct (String.eqb (rq_ToolChoice mid) ""); (eexists; split_and!; [done|reflexivity|done..]).
Qed.

(** A chat with a tool call, on its way to Anthropic. *)
Definition weatherChat : ChatCompletionsRequest :=
  let msg role content := { no_message with cm_Role := role; cm_Content := content } in
  mkChatRequest "claude"
    [msg "system" (json_quote "be brief"); msg "user" (json_quote "weather?");
     { (msg "assistant" (json_quote "let me see")) with cm_ToolCalls := [mkToolCall None "call_1" "function" (mkFunctionCall "weather" "{ }")] };
     { (msg "tool" (json_quote "sunny")) with cm_ToolCallID := "call_1" };
     msg "user" (qs ["[{"; "type"; ":"; "text"; ","; "text"; ":"; "thanks"; "}]"])]
    "" None None None None false None [] None "" "" "" "" "" [] "".
Lemma weatherChat_blocks : amerge (chatBlocks (cq_Messages weatherChat)) =
  [("user", [textBlock "weather?"]); ("assistant", [textBlock "let me see"; useBlock "call_1" "weather" "{}"]);
   ("user", [resultBlock "call_1" "sunny"; textBlock "thanks"])].
Proof. vm_compute. reflexivity. Qed.
Lemma weatherChat_plain : Forall plainChat (cq_Messages weatherChat).
Proof.
  unfold weatherChat. cbn [cq_Messages]. repeat apply Forall_cons_2; [..|apply Forall_nil_2].
  - apply (chat_system _ "be brief"); [done|vm_compute; reflexivity|done].
  - apply (chat_user _ "weather?"); [done|vm_compute; reflexivity|done].
  - apply chat_assistant; [done|vm_compute; reflexivity|right; intros E; vm_compute in E; discriminate E| |right; done].
    constructor; [|constructor]. split_and!; [split; reflexivity|reflexivity|reflexivity|right; vm_compute; reflexivity].
  - apply (chat_tool _ "sunny"); [done|split; reflexivity|vm_compute; reflexivity].
  - apply (chat_parts _ [mkChatPart "text" "thanks" None None]); [done|vm_compute; reflexivity|vm_compute; reflexivity|by repeat constructor|done].
Qed.
Lemma chat_request_to_anthropic_witness : exists mid out, ChatCompletionsToResponses weatherChat = Ok mid /\ ResponsesToAnthropicRequest mid = Ok out /\
  map view (aq_Messages out) = [("user", [textBlock "weather?"]); ("assistant", [textBlock "let me see"; useBlock "call_1" "weather" "{}"]);
    ("user", [resultBlock "call_1" "sunny"; textBlock "thanks"])].
Proof.
  destruct (chat_request_to_anthropic weatherChat) as (mid & out & H1 & H2 & H3 & _).
  - apply weatherChat_plain.
  - done.
  - right. by left.
  - rewrite weatherChat_blocks. apply (turns_user "" [] [textBlock "weather?"]); [done|by repeat constructor..|done|].
    apply (turns_assistant "user" [textBlock "let me see"] [useBlock "call_1" "weather" "{}"]); [done|by repeat constructor..|done|].
    apply (turns_user "assistant" [resultBlock "call_1" "sunny"] [textBlock "thanks"]); [done|by repeat constructor..|done|constructor].
  - rewrite weatherChat_blocks. apply NoDup_singleton.
  - exists mid, out. split; [exact H1|]. split; [exact H2|]. by rewrite H3, weatherChat_blocks.
Defined.

(** ** Which requests are refused *)

Definition messageParses (m : ChatMessage) : Prop :=
  cm_Role m = "assistant" \/ cm_Content m = "" \/ is_Some (UnmarshalString (cm_Content m)) \/ is_Some (UnmarshalChatParts (cm_Content m)).
Definition chatWorks (P : Prop) (r : result chatError (list ResponsesInputItem)) : Prop :=
  match r with Ok items => P /\ rawItems items | Err e => e = ContentError /\ ~ P end.
Lemma content_works c : match parseChatMessageContent c with
  | Ok _ => c = "" \/ is_Some (UnmarshalString c) \/ is_Some (UnmarshalChatParts c)
  | Err e => e = ContentError /\ ~ (c = "" \/ is_Some (UnmarshalString c) \/ is_Some (UnmarshalChatParts c)) end.
Proof.
  unfold parseChatMessageContent. destruct (String.eqb_spec c "") as [->|Hc]; [by left|]. destruct (UnmarshalString c) as [s|]; [right; left; by eexists|].
  destruct (UnmarshalChatParts c) as [ps|]; [right; right; by eexists|]. split; [done|]. by intros [|[[? ?]|[? ?]]].
Qed.
Lemma input_content_total content : exists raw, marshalChatInputContent content = Ok raw /\ rawOk raw.
Proof.
  unfold marshalChatInputContent. destruct (mc_Text content) as [s|]; [eexists; split; [done|apply squeeze_quote]|].
  destruct (convertChatContentPartsToResponses (mc_Parts content)) as [|p ps]; [eexists; split; [done|apply squeeze_quote]|].
  destruct (parts_marshal_total (p :: ps)) as (raw & -> & Hr). by eexists.
Qed.
Lemma contentItem_works role m : cm_Role m <> "assistant" -> chatWorks (messageParses m) (contentItem role m).
Proof.
  intros Hr. unfold contentItem, chatWorks, messageParses. pose proof (content_works (cm_Content m)) as H. destruct (parseChatMessageContent (cm_Content m)) as [c|e].
  - destruct (input_content_total c) as (raw & -> & Hraw). split; [by right|]. by constructor.
  - destruct H as [-> H]. split; [done|]. by intros [|].
Qed.
Lemma resultItem_works id m : cm_Role m <> "assistant" -> chatWorks (messageParses m) (resultItem id m).
Proof.
  intros Hr. unfold resultItem, parseChatContent, chatWorks, messageParses. pose proof (content_works (cm_Content m)) as H. destruct (parseChatMessageContent (cm_Content m)) as [c|e].
  - split; [by right|]. constructor; [by left|constructor].
  - destruct H as [-> H]. split; [done|]. by intros [|].
Qed.
Lemma chatMessage_works m : chatWorks (messageParses m) (chatMessageToResponsesItems m).
Proof.
  unfold chatMessageToResponsesItems.
  destruct (String.eqb_spec (cm_Role m) "system") as [E|_]; [apply contentItem_works; by rewrite E|].
  destruct (String.eqb_spec (cm_Role m) "user") as [E|_]; [apply contentItem_works; by rewrite E|].
  destruct (String.eqb_spec (cm_Role m) "assistant") as [E|Ha].
  { unfold chatAssistantToResponses, chatWorks. cbv zeta. assert (Hc : rawItems (map chatCallItem (cm_ToolCalls m))) by by apply plain_items.
    destruct (String.eqb (assistantText m) ""); [by split; [left|]|]. destruct (parts_marshal_total [output_text (assistantText m)]) as (raw & -> & Hr).
    split; [by left|]. by constructor. }
  destruct (String.eqb (cm_Role m) "tool"); [by apply resultItem_works|]. destruct (String.eqb (cm_Role m) "function"); [by apply resultItem_works|].
  by apply contentItem_works.
Qed.
Lemma chatMessages_work msgs : chatWorks (Forall messageParses msgs) (convertChatMessagesToResponsesInput msgs).
Proof.
  induction msgs as [|m msgs IH]; [by split; constructor|]. cbn [convertChatMessagesToResponsesInput]. pose proof (chatMessage_works m) as H.
  unfold chatWorks in *. destruct (chatMessageToResponsesItems m) as [items|e]; destruct H as [H1 H2].
  - destruct (convertChatMessagesToResponsesInput msgs) as [rest|e]; destruct IH as [IH1 IH2].
    + split; [by constructor|by apply Forall_app].
    + split; [done|]. intros Hf. by apply Forall_cons in Hf as [_ Hf].
  - split; [done|]. intros Hf. by apply Forall_cons in Hf as [Hf _].
Qed.

(** C22: Exactly the Chat Completions requests that can be read are converted: one is
    refused only for a message, not of the assistant, whose content is neither a
    string nor a list of parts, or else for a legacy function call that is neither
    a string nor an object with a name; what is built can always be encoded.  The
    input is null, which the upstream refuses, exactly when no message gives an
    item. *)
Theorem chat_request_errors (req : ChatCompletionsRequest) :
  match ChatCompletionsToResponses req with
  | Ok out => Forall messageParses (cq_Messages req) /\ functionCallParses req /\
              (rq_Input out = "null" <-> convertChatMessagesToResponsesInput (cq_Messages req) = Ok [])
  | Err ContentError => ~ Forall messageParses (cq_Messages req)
  | Err FunctionCallError => Forall messageParses (cq_Messages req) /\ ~ functionCallParses req
  | Err ChatJSONError => False
  end.
Proof.
  unfold ChatCompletionsToResponses. pose proof (chatMessages_work (cq_Messages req)) as H. unfold chatWorks in H.
  destruct (convertChatMessagesToResponsesInput (cq_Messages req)) as [input|e]; [|by destruct H as [-> H]]. destruct H as [Hp Hr].
  destruct (items_marshal_total input Hr) as [raw Eraw]. rewrite Eraw. cbv zeta.
  assert (Hnull : raw = "null" <-> Ok input = Ok (E := chatError) []).
  { destruct input as [|i input]; cbn [sliceOf] in Eraw.
    - split; [done|]. intros _. vm_compute in Eraw. by injection Eraw as <-.
    - split; [|done]. intros ->. exfalso. unfold MarshalItems, Marshal, tSlice in Eraw. destruct (rawsValid _); [|done]. by injection Eraw. }
  unfold functionCallParses. destruct (String.eqb_spec (cq_ToolChoice req) "") as [E|E]; cbn [negb]; [|by split_and!; [|left|]].
  destruct (String.eqb_spec (cq_FunctionCall req) "") as [E2|E2]; cbn [negb]; [by split_and!; [|right; left|]|].
  unfold convertChatFunctionCallToToolChoice. destruct (UnmarshalString (cq_FunctionCall req)) as [s|]; [split_and!; [done|right; right; left; by eexists|done]|].
  destruct (Unmarshal _ "" (cq_FunctionCall req)) as [name|].
  - rewrite choice_marshal. cbn [orChatError]. split_and!; [done|right; right; right; by eexists|done].
  - split; [done|]. by intros [|[|[[? ?]|[? ?]]]].
Qed.
