(* ===== verification/BatchJobs.v ===== *)
(** * The jobs of image batches

    [service/batch_image.go] and [repository/batch_image_repo.go]: a job with its
    status, provider references, counts, amounts and times, its items and the
    events that audit it, and every statement and transaction on them.  Jobs are
    in the database of [UsageBilling].

    A job has all its columns; of an item those that are ever written.  A column
    is as wide as what is written to it.  [numeric2010] and [numeric104] are what
    a [float64] that went through a [DECIMAL] column is read back as. *)

From S2P Require Import Prelude Float64 Errors Subscription SubscriptionRepo AccountQuota Account UsageBilling.

(** ** Jobs and items *)

Definition BatchImageProviderGeminiAPI : string := "gemini_api".
Definition BatchImageProviderVertex : string := "vertex".

Definition BatchImageJobStatusCreated : string := "created".
Definition BatchImageJobStatusUploading : string := "uploading".
Definition BatchImageJobStatusSubmitted : string := "submitted".
Definition BatchImageJobStatusRunning : string := "running".
Definition BatchImageJobStatusIndexing : string := "indexing".
Definition BatchImageJobStatusSettling : string := "settling".
Definition BatchImageJobStatusCompleted : string := "completed".
Definition BatchImageJobStatusFailed : string := "failed".
Definition BatchImageJobStatusCancelled : string := "cancelled".
Definition BatchImageJobStatusOutputDeleted : string := "output_deleted".

Definition BatchImageItemStatusPending : string := "pending".
Definition BatchImageItemStatusSuccess : string := "success".
Definition BatchImageItemStatusFailed : string := "failed".

Definition ErrBatchImageJobNotFound := New 404 "BATCH_IMAGE_JOB_NOT_FOUND" "batch image job not found".
Definition ErrBatchImageJobExists := New 409 "BATCH_IMAGE_JOB_EXISTS" "batch image job already exists".
Definition ErrBatchImageItemExists := New 409 "BATCH_IMAGE_ITEM_EXISTS" "batch image item already exists".
Definition ErrBatchImageInvalidTransition := New 400 "BATCH_IMAGE_INVALID_TRANSITION" "invalid batch image job status transition".
Definition ErrBatchImageInvalidProvider := New 400 "BATCH_IMAGE_INVALID_PROVIDER" "invalid batch image provider".
Definition ErrBatchImageIndexStateConflict :=
  New 409 "BATCH_IMAGE_INDEX_STATE_CONFLICT" "batch image job is no longer in indexing state".
Definition ErrBatchImageSettlementInvalidStatus :=
  New 400 "BATCH_IMAGE_SETTLEMENT_INVALID_STATUS" "batch image job is not ready for settlement".
Definition ErrBatchImageSettlementManifestConflict :=
  New 409 "BATCH_IMAGE_SETTLEMENT_MANIFEST_CONFLICT" "batch image settlement manifest hash conflict".
Definition ErrBatchImageAlreadySettled := New 409 "BATCH_IMAGE_ALREADY_SETTLED" "batch image job is already settled".
Definition ErrBatchImageRecordDeleteNotReady :=
  New 409 "BATCH_IMAGE_RECORD_DELETE_NOT_READY" "batch image record can only be deleted after the job finishes".
Definition ErrBatchImageItemNotFound := New 404 "BATCH_IMAGE_ITEM_NOT_FOUND" "batch image item not found".

Record BatchImageJob := mkJob {
  job_ID : Z;
  BatchID : string;
  job_UserID : Z;
  job_APIKeyID : option Z;
  job_AccountID : option Z;
  Provider : string;
  job_Model : string;
  job_TaskName : string;
  job_ParentBatchID : option string;
  job_Status : string;
  ProviderJobName : option string;
  ProviderInputRef : option string;
  ProviderOutputRef : option string;
  GCSInputURI : option string;
  GCSOutputURI : option string;
  ItemCount : Z;
  SuccessCount : Z;
  FailCount : Z;
  CancelledCount : Z;
  EstimatedCost : float64;
  job_HoldAmount : option float64;
  ActualCost : option float64;
  BaseUnitPrice : float64;
  GroupRateMultiplier : float64;
  AccountRateMultiplier : float64;
  BatchDiscountMultiplier : float64;
  HoldMultiplier : float64;
  BillableUnitPrice : float64;
  HoldUnitPrice : float64;
  PricingSnapshotVersion : Z;
  Currency : string;
  HoldID : option string;
  job_IdempotencyKey : option string;
  RequestHash : option string;
  ManifestHash : option string;
  job_SessionID : option string;
  RetryCount : Z;
  Version : Z;
  OutputExpiresAt : option time;
  InputDeletedAt : option time;
  OutputDeletedAt : option time;
  DownloadedAt : option time;
  UserDeletedAt : option time;
  LastErrorCode : option string;
  LastErrorMessage : option string;
  job_CreatedAt : time;
  job_UpdatedAt : time;
  SubmittedAt : option time;
  StartedAt : option time;
  FinishedAt : option time;
  SettledAt : option time }.

(** [CreateBatchImageItemParams] and the row it becomes. *)
Record BatchImageItem := mkItem {
  JobID : string;
  CustomID : string;
  item_Status : string;
  item_RequestHash : option string;
  PromptPreview : option string;
  ProviderSourceObject : option string;
  SourceLineNumber : option Z;
  MimeType : option string;
  FileExtension : option string;
  ImageCount : Z;
  ErrorCode : option string;
  ErrorMessage : option string;
  IndexedAt : option time }.

(** [items] are in the order of their ids; [events] the types of the events of
    each job, the latest first. *)
Record store := mkStore {
  billing_db : db;
  jobs : gmap string BatchImageJob;
  items : gmap string (list BatchImageItem);
  events : gmap string (list string);
  nextJobID : Z }.

Definition IsSupportedBatchImageProvider (provider : string) : bool :=
  String.eqb provider BatchImageProviderGeminiAPI || String.eqb provider BatchImageProviderVertex.
Definition IsTerminalBatchImageJobStatus (status : string) : bool :=
  String.eqb status BatchImageJobStatusCompleted || String.eqb status BatchImageJobStatusFailed ||
  String.eqb status BatchImageJobStatusCancelled || String.eqb status BatchImageJobStatusOutputDeleted.
Definition allowedTransitions : gmap string (list string) := list_to_map [
  (BatchImageJobStatusCreated, [BatchImageJobStatusUploading; BatchImageJobStatusSubmitted; BatchImageJobStatusCancelled]);
  (BatchImageJobStatusUploading, [BatchImageJobStatusSubmitted; BatchImageJobStatusCancelled]);
  (BatchImageJobStatusSubmitted, [BatchImageJobStatusRunning; BatchImageJobStatusIndexing; BatchImageJobStatusFailed; BatchImageJobStatusCancelled]);
  (BatchImageJobStatusRunning, [BatchImageJobStatusRunning; BatchImageJobStatusIndexing; BatchImageJobStatusFailed; BatchImageJobStatusCancelled]);
  (BatchImageJobStatusIndexing, [BatchImageJobStatusSettling; BatchImageJobStatusFailed]);
  (BatchImageJobStatusSettling, [BatchImageJobStatusCompleted])].
Definition CanTransitionBatchImageJob (from to : string) : bool :=
  if String.eqb from "" || String.eqb to "" then false
  else if IsTerminalBatchImageJobStatus from
  then String.eqb to BatchImageJobStatusOutputDeleted && negb (String.eqb from BatchImageJobStatusOutputDeleted) &&
       (String.eqb from BatchImageJobStatusCompleted || String.eqb from BatchImageJobStatusFailed || String.eqb from BatchImageJobStatusCancelled)
  else if String.eqb to BatchImageJobStatusFailed then true
  else match allowedTransitions !! from with
       | Some targets => existsb (String.eqb to) targets
       | None => false
       end.

Definition batchImageDerefString (v : option string) : string := match v with None => "" | Some s => TrimSpace s end.
Definition batchImageOptionalStringPtr (v : string) : option string :=
  let v := TrimSpace v in if String.eqb v "" then None else Some v.
(** [NULLIF($n, '')] *)
Definition nullIfEmpty (v : string) : option string := if String.eqb v "" then None else Some v.
(** [CASE WHEN column IS NULL THEN v ELSE column END] *)
Definition setIfNull {A} (column : option A) (v : option A) : option A := match column with None => v | Some _ => column end.
Definition oneOf (status : string) (l : list string) : bool := existsb (String.eqb status) l.

(** ** Statements *)

Local Abbreviation world := (store * list fault)%type.
Local Abbreviation method A := (ST world (result goerror A)).

Definition ForeignKeyViolation : goerror := PlainErr (-6) "pq: insert or update violates foreign key constraint".

(** One statement over the connection. *)
Definition query {A} (s : ST store (result goerror A)) : method A :=
  r ← remote s; mret (match r with Ok a => a | Err e => Err e end).
Definition translated {A} (notFound conflict : option ApplicationError) (m : method A) : method A :=
  r ← m; mret (match r with Ok a => Ok a | Err e => Err (translatePersistenceError e notFound conflict) end).
(** BEGIN, the body, COMMIT; ROLLBACK when the body fails. *)
Definition inTx {A} (body : method A) : method A := fun w =>
  let '(b, w1) := remote (fun s => (tt, s)) w in
  match b with
  | Err e => (Err e, w1)
  | Ok _ =>
      let '(r, (s2, fs2)) := body w1 in
      match r with
      | Err e => (Err e, (w1.1, fs2))
      | Ok a => remote (fun _ => (a, s2)) (w1.1, fs2)
      end
  end.
(** The transaction of [UsageBilling] over the same database. *)
Definition onBilling {A} (m : ST (db * list fault) (result goerror A)) : method A := fun '(s, fs) =>
  let '(r, (d, fs')) := m (billing_db s, fs) in (r, ({ s with billing_db := d }, fs')).

Definition stmt_selectJob (cond : BatchImageJob -> bool) (batchID : string) : ST store (result goerror BatchImageJob) := fun s =>
  (match jobs s !! batchID with
   | Some job => if cond job then Ok job else Err ErrNoRows
   | None => Err ErrNoRows
   end, s).
(** [UPDATE batch_image_jobs SET f WHERE batch_id = ... AND cond]; the rows affected. *)
Definition stmt_updateJob (batchID : string) (cond : BatchImageJob -> bool) (f : BatchImageJob -> BatchImageJob) : ST store (result goerror Z) := fun s =>
  match jobs s !! batchID with
  | Some job => if cond job then (Ok 1, { s with jobs := <[batchID := f job]> (jobs s) }) else (Ok 0, s)
  | None => (Ok 0, s)
  end.
Definition anyJob (job : BatchImageJob) : bool := true.
Definition stmt_insertEvent (batchID eventType : string) : ST store (result goerror unit) := fun s =>
  match jobs s !! batchID with
  | Some _ => (Ok tt, { s with events := <[batchID := eventType :: default [] (events s !! batchID)]> (events s) })
  | None => (Err ForeignKeyViolation, s)
  end.
Definition appendBatchImageEventWithSQL (batchID eventType : string) : method unit := query (stmt_insertEvent batchID eventType).
Definition AppendBatchImageEvent := appendBatchImageEventWithSQL.

(** ** The repository *)

Definition GetBatchImageJobByBatchID (batchID : string) : method BatchImageJob :=
  translated (Some ErrBatchImageJobNotFound) None (query (stmt_selectJob anyJob batchID)).
Definition GetBatchImageJobByBatchIDForOwner (userID apiKeyID : Z) (batchID : string) : method BatchImageJob :=
  translated (Some ErrBatchImageJobNotFound) None (query (stmt_selectJob (fun job =>
    (job_UserID job =? userID) && bool_decide (job_APIKeyID job = Some apiKeyID) && bool_decide (UserDeletedAt job = None)) batchID)).
(** The rows that satisfy [cond], the greatest id first. *)
Definition newerJob (key : BatchImageJob -> time) (a b : BatchImageJob) : Prop := key b < key a \/ key a = key b /\ job_ID b <= job_ID a.
#[export] Instance newerJob_dec key a b : Decision (newerJob key a b).
Proof. unfold newerJob. apply _. Defined.
Definition newest (key : BatchImageJob -> time) (cond : BatchImageJob -> bool) (s : store) : list BatchImageJob :=
  merge_sort (newerJob key) (List.filter cond (map snd (map_to_list (jobs s)))).
Definition GetBatchImageJobByIdempotencyKey (userID apiKeyID : Z) (key : string) : method BatchImageJob :=
  translated (Some ErrBatchImageJobNotFound) None (query (fun s =>
    (match newest (fun _ => 0) (fun job => (job_UserID job =? userID) && bool_decide (job_APIKeyID job = Some apiKeyID) &&
                                 bool_decide (job_IdempotencyKey job = Some key)) s with
     | job :: _ => Ok job
     | [] => Err ErrNoRows
     end, s))).
Definition GetBatchImageJobByID (id : Z) : method BatchImageJob :=
  translated (Some ErrBatchImageJobNotFound) None (query (fun s =>
    (match List.find (fun job => job_ID job =? id) (map snd (map_to_list (jobs s))) with
     | Some job => Ok job
     | None => Err ErrNoRows
     end, s))).
Record BatchImageJobFilter := mkJobFilter {
  f_Status : string; TaskNameLike : string; f_Downloaded : option bool; CreatedAfter : option time; CreatedBefore : option time;
  ExcludeDeleted : bool; f_Limit : Z; f_Offset : Z }.
(** [ilike] is PostgreSQL's [ILIKE]. *)
Definition listed (ilike : string -> string -> bool) (userID apiKeyID : Z) (filter : BatchImageJobFilter) (job : BatchImageJob) : bool :=
  (job_UserID job =? userID) && bool_decide (job_APIKeyID job = Some apiKeyID) &&
  (negb (ExcludeDeleted filter) || bool_decide (UserDeletedAt job = None)) &&
  (String.eqb (f_Status filter) "" || String.eqb (job_Status job) (f_Status filter)) &&
  (String.eqb (TaskNameLike filter) "" || ilike (job_TaskName job) ("%" +:+ TaskNameLike filter +:+ "%")) &&
  match f_Downloaded filter with
  | None => true
  | Some true => bool_decide (is_Some (DownloadedAt job))
  | Some false => bool_decide (DownloadedAt job = None)
  end &&
  match CreatedAfter filter with None => true | Some t => t <=? job_CreatedAt job end &&
  match CreatedBefore filter with None => true | Some t => job_CreatedAt job <? t end.
Definition ListBatchImageJobsForOwner (ilike : string -> string -> bool) (userID apiKeyID : Z) (filter : BatchImageJobFilter)
    : method (list BatchImageJob) :=
  let limit := if (f_Limit filter <=? 0) || (100 <? f_Limit filter) then 20 else f_Limit filter in
  let offset := if f_Offset filter <? 0 then 0 else f_Offset filter in
  query (fun s => (Ok (take (Z.to_nat limit) (drop (Z.to_nat offset) (newest job_CreatedAt (listed ilike userID apiKeyID filter) s))), s)).

(** [SELECT status ... FOR UPDATE] *)
Definition selectStatusForUpdate (batchID : string) : method string :=
  job ←? translated (Some ErrBatchImageJobNotFound) None (query (stmt_selectJob anyJob batchID)); mret (Ok (job_Status job)).
Record BatchImageTransitionOptions := mkTransition {
  EventType : string; opt_ErrorCode : option string; opt_ErrorMessage : option string }.
Definition transitionRow (toStatus : string) (now : time) (opts : BatchImageTransitionOptions) (job : BatchImageJob) : BatchImageJob :=
  let becomes status := String.eqb toStatus status in
  let at_ cond column := if cond : bool then setIfNull column (Some now) else column in
  { { { { job with job_Status := toStatus; Version := Version job + 1; job_UpdatedAt := now }
     with LastErrorCode := if becomes BatchImageJobStatusFailed then opt_ErrorCode opts else LastErrorCode job;
          LastErrorMessage := if becomes BatchImageJobStatusFailed then opt_ErrorMessage opts else LastErrorMessage job }
     with SubmittedAt := at_ (becomes BatchImageJobStatusSubmitted) (SubmittedAt job);
          StartedAt := at_ (becomes BatchImageJobStatusRunning) (StartedAt job);
          FinishedAt := at_ (oneOf toStatus [BatchImageJobStatusCompleted; BatchImageJobStatusFailed; BatchImageJobStatusCancelled]) (FinishedAt job) }
     with SettledAt := at_ (becomes BatchImageJobStatusCompleted) (SettledAt job);
          OutputDeletedAt := at_ (becomes BatchImageJobStatusOutputDeleted) (OutputDeletedAt job) }.
Definition transitionBatchImageJobStatusWithSQL (batchID toStatus : string) (opts : BatchImageTransitionOptions) (now : time) : method unit :=
  current ←? selectStatusForUpdate batchID;
  if negb (CanTransitionBatchImageJob current toStatus) then mret (Err (AppErr ErrBatchImageInvalidTransition))
  else
    _ ←? query (stmt_updateJob batchID anyJob (transitionRow toStatus now opts));
    if negb (String.eqb (EventType opts) "") then appendBatchImageEventWithSQL batchID (EventType opts) else mret (Ok tt).
Definition TransitionBatchImageJobStatus (batchID toStatus : string) (opts : BatchImageTransitionOptions) (now : time) : method unit :=
  inTx (transitionBatchImageJobStatusWithSQL batchID toStatus opts now).

Definition unsubmitted (job : BatchImageJob) : bool := oneOf (job_Status job) [BatchImageJobStatusCreated; BatchImageJobStatusUploading].
Definition TouchBatchImageJobSubmitting (batchID : string) (now : time) : method unit :=
  _ ←? query (stmt_updateJob batchID unsubmitted (fun job => { job with job_UpdatedAt := now })); mret (Ok tt).

(** The [bool] is returned beside the error of the event. *)
Definition FailStaleUnsubmittedBatchImageJob (batchID : string) (cutoff : time) (code message : string) (now : time)
    : ST world (bool * option goerror) :=
  r ← query (stmt_updateJob batchID
    (fun job => unsubmitted job && bool_decide (ProviderJobName job = None) && (job_UpdatedAt job <=? cutoff))
    (fun job => { job with job_Status := BatchImageJobStatusFailed; LastErrorCode := Some code; LastErrorMessage := Some message;
                          FinishedAt := setIfNull (FinishedAt job) (Some now); job_UpdatedAt := now; Version := Version job + 1 }));
  match r with
  | Err e => mret (false, Some e)
  | Ok affected =>
      if affected =? 0 then mret (false, None)
      else e ← appendBatchImageEventWithSQL batchID "billing_hold_recovery_failed_unsubmitted";
           mret (true, match e with Ok _ => None | Err e => Some e end)
  end.

Definition UpdateBatchImageJobProviderOutputRef (batchID ref : string) (now : time) : method unit :=
  affected ←? translated (Some ErrBatchImageJobNotFound) None
    (query (stmt_updateJob batchID anyJob (fun job => { job with ProviderOutputRef := Some ref; job_UpdatedAt := now })));
  mret (if affected =? 0 then Err (AppErr ErrBatchImageJobNotFound) else Ok tt).

Record UpdateBatchImageJobProviderSubmitParams := mkProviderSubmit {
  sub_BatchID : string; sub_ProviderJobName : string; sub_ProviderInputRef : string; sub_ProviderOutputRef : string;
  sub_GCSInputURI : string; sub_GCSOutputURI : string }.
Definition updateBatchImageJobProviderSubmitWithSQL (params : UpdateBatchImageJobProviderSubmitParams) (now : time) : method unit :=
  current ←? selectStatusForUpdate (sub_BatchID params);
  if negb (CanTransitionBatchImageJob current BatchImageJobStatusSubmitted) then mret (Err (AppErr ErrBatchImageInvalidTransition))
  else
    _ ←? query (stmt_updateJob (sub_BatchID params) anyJob (fun job =>
      { job with job_Status := BatchImageJobStatusSubmitted; ProviderJobName := Some (sub_ProviderJobName params);
                 ProviderInputRef := nullIfEmpty (sub_ProviderInputRef params); ProviderOutputRef := nullIfEmpty (sub_ProviderOutputRef params);
                 GCSInputURI := nullIfEmpty (sub_GCSInputURI params); GCSOutputURI := nullIfEmpty (sub_GCSOutputURI params);
                 SubmittedAt := setIfNull (SubmittedAt job) (Some now); job_UpdatedAt := now; Version := Version job + 1 }));
    appendBatchImageEventWithSQL (sub_BatchID params) "provider_submitted".
Definition UpdateBatchImageJobProviderSubmit (params : UpdateBatchImageJobProviderSubmitParams) (now : time) : method unit :=
  inTx (updateBatchImageJobProviderSubmitWithSQL params now).

Definition RecordBatchImageJobSubmitFailure (batchID code message : string) (markFailed : bool) (now : time) : method unit :=
  _ ←? query (stmt_updateJob batchID anyJob (fun job =>
    let status := if markFailed then BatchImageJobStatusFailed else job_Status job in
    { job with job_Status := status; LastErrorCode := Some code; LastErrorMessage := Some message;
               FinishedAt := if String.eqb status BatchImageJobStatusFailed then setIfNull (FinishedAt job) (Some now) else FinishedAt job;
               job_UpdatedAt := now; Version := Version job + 1 }));
  appendBatchImageEventWithSQL batchID (if markFailed then "submit_failed" else "queue_failed").

Record MarkBatchImageJobSettledParams := mkSettled {
  set_BatchID : string; set_ActualCost : float64; set_ManifestHash : string; set_Now : time; set_OutputExpiresAt : option time }.

Section Amounts.
(** What a [float64] stored in a [DECIMAL(20,10)] or [DECIMAL(10,4)] column reads back as. *)
Context (numeric2010 numeric104 : float64 -> result goerror float64).

Definition manifestTaken (batchID hash : string) (s : store) : bool :=
  negb (String.eqb hash "") && existsb (fun kj => negb (String.eqb kj.1 batchID) && bool_decide (ManifestHash kj.2 = Some hash)) (map_to_list (jobs s)).
(** The manifest hashes that are not empty are unique. *)
Definition stmt_settleJob (params : MarkBatchImageJobSettledParams) (cost : float64) : ST store (result goerror Z) := fun s =>
  let now := set_Now params in
  let '(n, s') := stmt_updateJob (set_BatchID params)
    (fun job => String.eqb (job_Status job) BatchImageJobStatusSettling &&
       match ManifestHash job with None => true | Some h => String.eqb h "" || String.eqb h (set_ManifestHash params) end)
    (fun job => { job with job_Status := BatchImageJobStatusCompleted; ActualCost := Some cost; ManifestHash := Some (set_ManifestHash params);
       SettledAt := setIfNull (SettledAt job) (Some now); FinishedAt := setIfNull (FinishedAt job) (Some now);
       OutputExpiresAt := setIfNull (OutputExpiresAt job) (set_OutputExpiresAt params); job_UpdatedAt := now; Version := Version job + 1 }) s in
  match n with
  | Ok 1 => if manifestTaken (set_BatchID params) (set_ManifestHash params) s then (Err UniqueViolation, s) else (n, s')
  | _ => (n, s')
  end.
Definition markBatchImageJobSettledWithSQL (params : MarkBatchImageJobSettledParams) : method unit :=
  affected ←? query (fun s => match numeric2010 (set_ActualCost params) with Err e => (Err e, s) | Ok cost => stmt_settleJob params cost s end);
  if affected =? 0 then
    job ←? translated (Some ErrBatchImageJobNotFound) None (query (stmt_selectJob anyJob (set_BatchID params)));
    mret (Err (AppErr (if negb (String.eqb (job_Status job) BatchImageJobStatusSettling)
                       then if String.eqb (job_Status job) BatchImageJobStatusCompleted then ErrBatchImageAlreadySettled
                            else ErrBatchImageSettlementInvalidStatus
                       else ErrBatchImageSettlementManifestConflict)))
  else appendBatchImageEventWithSQL (set_BatchID params) "settlement_completed".
Definition MarkBatchImageJobSettled (params : MarkBatchImageJobSettledParams) : method unit :=
  inTx (markBatchImageJobSettledWithSQL params).

(** The new count is returned beside the error of the event. *)
Definition SetBatchImageJobSettlementFailed (batchID code message : string) (now : time) : ST world (Z * option goerror) :=
  r ← query (fun s =>
    let '(n, s') := stmt_updateJob batchID anyJob (fun job =>
      { job with LastErrorCode := Some code; LastErrorMessage := Some message; RetryCount := RetryCount job + 1; job_UpdatedAt := now }) s in
    match jobs s' !! batchID with Some job => (Ok (RetryCount job), s') | None => (Err ErrNoRows, s') end);
  match r with
  | Err e => mret (0, Some (translatePersistenceError e (Some ErrBatchImageJobNotFound) None))
  | Ok retryCount =>
      e ← appendBatchImageEventWithSQL batchID "settlement_failed";
      mret (retryCount, match e with Ok _ => None | Err e => Some e end)
  end.

Record CreateBatchImageJobParams := mkCreate {
  new_BatchID : string; new_UserID : Z; new_APIKeyID : option Z; new_AccountID : option Z; new_Provider : string; new_Model : string;
  new_TaskName : string; new_ParentBatchID : option string; new_Status : string;
  new_ProviderJobName : option string; new_ProviderInputRef : option string; new_ProviderOutputRef : option string;
  new_GCSInputURI : option string; new_GCSOutputURI : option string;
  new_ItemCount : Z; new_SuccessCount : Z; new_FailCount : Z; new_CancelledCount : Z;
  new_EstimatedCost : float64; new_HoldAmount : option float64; new_ActualCost : option float64;
  new_BaseUnitPrice : float64; new_GroupRateMultiplier : float64; new_AccountRateMultiplier : float64;
  new_BatchDiscountMultiplier : float64; new_HoldMultiplier : float64; new_BillableUnitPrice : float64; new_HoldUnitPrice : float64;
  new_PricingSnapshotVersion : Z; new_Currency : string; new_HoldID : option string;
  new_IdempotencyKey : option string; new_RequestHash : option string; new_ManifestHash : option string; new_SessionID : option string;
  new_RetryCount : Z; new_OutputExpiresAt : option time }.
(** A value that its column may refuse. *)
Definition column {A B} (r : result goerror A) (k : A -> ST store (result goerror B)) : ST store (result goerror B) :=
  match r with Ok a => k a | Err e => mret (Err e) end.
Definition nullable (convert : float64 -> result goerror float64) (v : option float64) : result goerror (option float64) :=
  match v with
  | None => Ok None
  | Some f => match convert f with Ok f => Ok (Some f) | Err e => Err e end
  end.
Definition stmt_insertJob (p : CreateBatchImageJobParams) : ST store (result goerror BatchImageJob) :=
  column (numeric2010 (new_EstimatedCost p)) (fun estimated => column (nullable numeric2010 (new_HoldAmount p)) (fun hold =>
  column (nullable numeric2010 (new_ActualCost p)) (fun actual => column (numeric2010 (new_BaseUnitPrice p)) (fun base =>
  column (numeric104 (new_GroupRateMultiplier p)) (fun groupRate => column (numeric104 (new_AccountRateMultiplier p)) (fun accountRate =>
  column (numeric104 (new_BatchDiscountMultiplier p)) (fun discount => column (numeric104 (new_HoldMultiplier p)) (fun holdRate =>
  column (numeric2010 (new_BillableUnitPrice p)) (fun billable => column (numeric2010 (new_HoldUnitPrice p)) (fun holdUnit => fun s =>
    if bool_decide (is_Some (jobs s !! new_BatchID p)) ||
       match new_ManifestHash p with Some hash => manifestTaken (new_BatchID p) hash s | None => false end
    then (Err UniqueViolation, s)
    else
      let now := now_ (billing_db s) in
      let job := mkJob (nextJobID s) (new_BatchID p) (new_UserID p) (new_APIKeyID p) (new_AccountID p) (new_Provider p) (new_Model p)
        (new_TaskName p) (new_ParentBatchID p) (new_Status p) (new_ProviderJobName p) (new_ProviderInputRef p) (new_ProviderOutputRef p)
        (new_GCSInputURI p) (new_GCSOutputURI p) (new_ItemCount p) (new_SuccessCount p) (new_FailCount p) (new_CancelledCount p)
        estimated hold actual base groupRate accountRate discount holdRate billable holdUnit (new_PricingSnapshotVersion p)
        (new_Currency p) (new_HoldID p) (new_IdempotencyKey p) (new_RequestHash p) (new_ManifestHash p) (new_SessionID p)
        (new_RetryCount p) 0 (new_OutputExpiresAt p) None None None None None None now now None None None None in
      (Ok job, { s with jobs := <[new_BatchID p := job]> (jobs s); nextJobID := nextJobID s + 1 }))))))))))).
(** [newBatchID] is what [NewBatchImageID] draws when there is no id. *)
Definition withDefaults (params : CreateBatchImageJobParams) (newBatchID : string) : CreateBatchImageJobParams :=
  let or (v dflt : string) := if String.eqb v "" then dflt else v in
  { params with new_BatchID := or (new_BatchID params) newBatchID; new_Status := or (new_Status params) BatchImageJobStatusCreated;
                new_Currency := or (new_Currency params) "USD" }.
Definition CreateBatchImageJob (params : CreateBatchImageJobParams) (newBatchID : string) : method BatchImageJob :=
  if negb (IsSupportedBatchImageProvider (new_Provider params)) then mret (Err (AppErr ErrBatchImageInvalidProvider))
  else translated None (Some ErrBatchImageJobExists) (query (stmt_insertJob (withDefaults params newBatchID))).
End Amounts.

(** ** Items *)

Definition stmt_insertItem (item : BatchImageItem) : ST store (result goerror BatchImageItem) := fun s =>
  let rows := default [] (items s !! JobID item) in
  match jobs s !! JobID item with
  | None => (Err ForeignKeyViolation, s)
  | Some _ =>
      if existsb (fun row => String.eqb (CustomID row) (CustomID item)) rows then (Err UniqueViolation, s)
      else (Ok item, { s with items := <[JobID item := rows ++ [item]]> (items s) })
  end.
Definition createBatchImageItemWithSQL (item : BatchImageItem) : method BatchImageItem :=
  translated None (Some ErrBatchImageItemExists) (query (stmt_insertItem item)).
Definition CreateBatchImageItem := createBatchImageItemWithSQL.
Fixpoint createItems (params : list BatchImageItem) : method unit :=
  match params with
  | [] => mret (Ok tt)
  | item :: params => _ ←? createBatchImageItemWithSQL item; createItems params
  end.
Definition BulkCreateBatchImageItems (params : list BatchImageItem) : method unit :=
  match params with [] => mret (Ok tt) | _ => inTx (createItems params) end.

Definition stmt_selectItems (batchID : string) : ST store (result goerror (list BatchImageItem)) := fun s =>
  (Ok (default [] (items s !! batchID)), s).
Definition stmt_deleteItems (batchID : string) : ST store (result goerror unit) := fun s =>
  (Ok tt, { s with items := delete batchID (items s) }).
(** The previews that are not empty, by custom id. *)
Definition previewsOf (rows : list BatchImageItem) : gmap string string :=
  list_to_map (omap (fun row => preview ← PromptPreview row; if String.eqb preview "" then None else Some (CustomID row, preview)) rows).
Definition withPreview (batchID : string) (previews : gmap string string) (item : BatchImageItem) : BatchImageItem :=
  let item := { item with JobID := batchID } in
  match PromptPreview item with
  | Some _ => item
  | None => match previews !! CustomID item with Some preview => { item with PromptPreview := Some preview } | None => item end
  end.
Definition replaceBatchImageItemsForJobWithSQL (batchID : string) (new : list BatchImageItem) (successCount failCount : Z) (now : time) : method unit :=
  current ←? selectStatusForUpdate batchID;
  if negb (String.eqb current BatchImageJobStatusIndexing) then mret (Err (AppErr ErrBatchImageIndexStateConflict))
  else
    rows ←? query (stmt_selectItems batchID);
    _ ←? query (stmt_deleteItems batchID);
    _ ←? createItems (map (withPreview batchID (previewsOf rows)) new);
    _ ←? query (stmt_updateJob batchID anyJob (fun job => { job with SuccessCount := successCount; FailCount := failCount; job_UpdatedAt := now }));
    mret (Ok tt).
Definition ReplaceBatchImageItemsForJob (batchID : string) (new : list BatchImageItem) (successCount failCount : Z) (now : time) : method unit :=
  inTx (replaceBatchImageItemsForJobWithSQL batchID new successCount failCount now).

(** [limit] rows after [offset] in the order of the ids. *)
Definition ListBatchImageItems (batchID status : string) (limit offset : Z) : method (list BatchImageItem) :=
  let limit := if (limit <=? 0) || (500 <? limit) then 100 else limit in
  let offset := if offset <? 0 then 0 else offset in
  rows ←? query (stmt_selectItems batchID);
  let rows := if String.eqb status "" then rows else List.filter (fun row => String.eqb (item_Status row) status) rows in
  mret (Ok (take (Z.to_nat limit) (drop (Z.to_nat offset) rows))).
Definition GetBatchImageItemForDownload (batchID customID : string) : method BatchImageItem :=
  rows ←? query (stmt_selectItems batchID);
  mret (match List.find (fun row => String.eqb (CustomID row) customID) rows with
        | Some row => Ok row
        | None => Err (translatePersistenceError ErrNoRows (Some ErrBatchImageItemNotFound) None)
        end).
Definition ListBatchImageItemsForOwner (userID apiKeyID : Z) (batchID status : string) (limit offset : Z) : method (list BatchImageItem) :=
  _ ←? GetBatchImageJobByBatchIDForOwner userID apiKeyID batchID; ListBatchImageItems batchID status limit offset.
Definition GetBatchImageJobForDownload := GetBatchImageJobByBatchIDForOwner.
Definition ListBatchImageItemsForDownload (batchID status : string) (limit : Z) : method (list BatchImageItem) :=
  ListBatchImageItems batchID status limit 0.

(** ** Clean-up *)

Definition olderJob (key : BatchImageJob -> time) (a b : BatchImageJob) : Prop := key a < key b \/ key a = key b /\ job_ID a <= job_ID b.
#[export] Instance olderJob_dec key a b : Decision (olderJob key a b).
Proof. unfold olderJob. apply _. Defined.
Definition listJobs (cond : BatchImageJob -> bool) (key : BatchImageJob -> time) (limit : Z) : method (list BatchImageJob) :=
  let limit := if (limit <=? 0) || (1000 <? limit) then 100 else limit in
  query (fun s => (Ok (take (Z.to_nat limit) (merge_sort (olderJob key) (List.filter cond (map snd (map_to_list (jobs s)))))), s)).
Definition holdOf (job : BatchImageJob) : float64 := default (EstimatedCost job) (job_HoldAmount job).
Definition ListStaleUnsubmittedBatchImageJobs (cutoff : time) (limit : Z) : method (list BatchImageJob) :=
  listJobs (fun job => unsubmitted job && bool_decide (ProviderJobName job = None) && positive (holdOf job) && (job_UpdatedAt job <=? cutoff))
    job_UpdatedAt limit.
Definition ListBatchImageJobsDueForInputCleanup (cutoff : time) (limit : Z) : method (list BatchImageJob) :=
  listJobs (fun job => bool_decide (InputDeletedAt job = None) && bool_decide (is_Some (ProviderInputRef job)) &&
      IsTerminalBatchImageJobStatus (job_Status job) &&
      (default (job_UpdatedAt job) (setIfNull (FinishedAt job) (SettledAt job)) <=? cutoff))
    (fun _ => 0) limit.
Definition ListBatchImageJobsDueForOutputCleanup (now : time) (limit : Z) : method (list BatchImageJob) :=
  listJobs (fun job => bool_decide (OutputDeletedAt job = None) && bool_decide (is_Some (ProviderOutputRef job)) &&
      String.eqb (job_Status job) BatchImageJobStatusCompleted &&
      match OutputExpiresAt job with Some t => t <=? now | None => false end)
    (fun job => default 0 (OutputExpiresAt job)) limit.

(** An update that must find its row, and its event. *)
Definition updateAndLog (batchID : string) (cond : BatchImageJob -> bool) (f : BatchImageJob -> BatchImageJob)
    (missing : ApplicationError) (event : string) : method unit :=
  affected ←? query (stmt_updateJob batchID cond f);
  if affected =? 0 then mret (Err (AppErr missing)) else appendBatchImageEventWithSQL batchID event.
Definition MarkBatchImageInputDeleted (batchID : string) (deletedAt : time) : method unit :=
  updateAndLog batchID anyJob (fun job => { job with InputDeletedAt := setIfNull (InputDeletedAt job) (Some deletedAt);
      job_UpdatedAt := deletedAt; Version := Version job + 1 }) ErrBatchImageJobNotFound "input_cleanup_completed".
Definition MarkBatchImageOutputDeleted (batchID : string) (deletedAt : time) : method unit :=
  updateAndLog batchID anyJob (fun job =>
      let completed := String.eqb (job_Status job) BatchImageJobStatusCompleted in
      { job with job_Status := if completed then BatchImageJobStatusOutputDeleted else job_Status job;
                 OutputDeletedAt := setIfNull (OutputDeletedAt job) (Some deletedAt);
                 FinishedAt := if completed then setIfNull (FinishedAt job) (Some deletedAt) else FinishedAt job;
                 job_UpdatedAt := deletedAt; Version := Version job + 1 }) ErrBatchImageJobNotFound "output_cleanup_completed".
Definition MarkBatchImageDownloaded (batchID : string) (downloadedAt : time) : method unit :=
  updateAndLog batchID anyJob (fun job => { job with DownloadedAt := setIfNull (DownloadedAt job) (Some downloadedAt);
      job_UpdatedAt := downloadedAt }) ErrBatchImageJobNotFound "download_completed".
Definition MarkBatchImageJobUserDeleted (userID apiKeyID : Z) (batchID : string) (deletedAt : time) : method unit :=
  updateAndLog batchID (fun job => (job_UserID job =? userID) && bool_decide (job_APIKeyID job = Some apiKeyID) &&
      bool_decide (UserDeletedAt job = None) && IsTerminalBatchImageJobStatus (job_Status job))
    (fun job => { job with UserDeletedAt := setIfNull (UserDeletedAt job) (Some deletedAt); job_UpdatedAt := deletedAt })
    ErrBatchImageRecordDeleteNotReady "user_record_deleted".
Definition SetBatchImageOutputExpiresAt (batchID : string) (expiresAt now : time) : method unit :=
  affected ←? query (stmt_updateJob batchID anyJob (fun job =>
    { job with OutputExpiresAt := setIfNull (OutputExpiresAt job) (Some expiresAt); job_UpdatedAt := now }));
  mret (if affected =? 0 then Err (AppErr ErrBatchImageJobNotFound) else Ok tt).
Definition RecordBatchImageCleanupFailure (batchID code message : string) (now : time) : method unit :=
  _ ←? query (stmt_updateJob batchID anyJob (fun job =>
    { job with LastErrorCode := Some code; LastErrorMessage := Some message; RetryCount := RetryCount job + 1; job_UpdatedAt := now }));
  appendBatchImageEventWithSQL batchID "output_cleanup_failed".

(** ** Running statements and transactions *)

Lemma query_run {A} (m : ST store (result goerror A)) s : query m (s, []) = ((m s).1, ((m s).2, [])).
Proof. unfold query. rewrite bind_run, remote_run. by destruct (m s) as [[]]. Qed.
Lemma translated_run {A} nf cf (m : method A) w :
  translated nf cf m w = match m w with (Ok a, w') => (Ok a, w') | (Err e, w') => (Err (translatePersistenceError e nf cf), w') end.
Proof. unfold translated. rewrite bind_run. by destruct (m w) as [[] w']. Qed.
Lemma inTx_run {A} (body : method A) s a s' fs' : body (s, []) = (Ok a, (s', fs')) -> fs' = [] -> inTx body (s, []) = (Ok a, (s', [])).
Proof. intros H ->. unfold inTx. rewrite remote_run. cbn [fst snd]. rewrite H. done. Qed.
Lemma inTx_inv {A} (body : method A) s a s' fs' : inTx body (s, []) = (Ok a, (s', fs')) -> exists fs, body (s, []) = (Ok a, (s', fs)).
Proof.
  unfold inTx. rewrite remote_run. cbn [fst snd]. destruct (body (s, [])) as [[b|e] [s2 fs2]]; [|done].
  unfold remote. destruct fs2 as [|[] fs2]; intros [= <- <- _]; eauto.
Qed.
