(* ===== verification/BatchIndex.v ===== *)
(** * Indexing the results of an image batch

    The result indexer of [service/batch_image_processor.go]: the output of the
    provider is read line by line, each line parsed, reconciled with the custom
    ids that were submitted, and the items of the job are replaced.

    The output is a text and the error the reader ends with ([None]: end of
    file).  [strings.ToLower] is the one of [Account], on ASCII letters. *)

From S2P Require Import Prelude Json Float64 Errors Subscription SubscriptionRepo AccountQuota Account UsageBilling.
From S2P Require Import JsonValue BatchJobs.

Definition BatchImageParsedStatusSucceeded : string := "succeeded".
Definition BatchImageParsedStatusFailed : string := "failed".
Definition batchImageMaxErrorMessageLength : Z := 1000.

Definition ErrBatchImageIndexOutputMissing := New 502 "BATCH_IMAGE_INDEX_OUTPUT_MISSING" "batch image provider output is missing".
Definition ErrBatchImageIndexParseFailed := New 502 "BATCH_IMAGE_INDEX_PARSE_FAILED" "batch image provider output parse failed".
Definition ErrBatchImageIndexNoResultLines := New 502 "BATCH_IMAGE_INDEX_NO_RESULT_LINES" "batch image provider output has no result lines".
Definition ErrBatchImageDuplicateCustomID := New 502 "DUPLICATE_CUSTOM_ID_IN_OUTPUT" "batch image provider output contains duplicate custom id".

(** ** Reading values *)

Definition batchImageMapString (m : gmap string any) (key : string) : string :=
  match m !! key with
  | Some (AnyString v) => TrimSpace v
  | Some (AnyNumber v) => v
  | Some (AnyFloat v) => Itoa (intOfFloat v)
  | _ => ""
  end.
Fixpoint batchImageNestedAny (current : any) (keys : list string) : any :=
  match keys with
  | [] => current
  | key :: keys => match current with AnyMap m => batchImageNestedAny (default AnyNil (m !! key)) keys | _ => AnyNil end
  end.
Definition batchImageNestedString (m : gmap string any) (keys : list string) : string :=
  match batchImageNestedAny (AnyMap m) keys with AnyString s => TrimSpace s | _ => "" end.
Fixpoint firstMap (values : list any) : option (gmap string any) :=
  match values with
  | [] => None
  | AnyMap m :: _ => Some m
  | _ :: values => firstMap values
  end.
Fixpoint batchImageFirstNonEmptyString (values : list string) : string :=
  match values with
  | [] => ""
  | value :: values => if negb (String.eqb (TrimSpace value) "") then TrimSpace value else batchImageFirstNonEmptyString values
  end.
(** [strings.Contains] *)
Fixpoint Contains (s sub : string) : bool :=
  HasPrefix s sub || match s with String _ s' => Contains s' sub | EmptyString => false end.
Definition truncateBatchImageMessage (message : string) (limit : Z) : string :=
  let message := TrimSpace message in
  if (limit <=? 0) || (Z.of_nat (String.length message) <=? limit) then message else str_take (Z.to_nat limit) message.

(** ** One line *)

Record ParsedBatchImageResult := mkParsed {
  p_CustomID : string; p_Status : string; p_MimeType : string; p_FileExtension : string; p_ImageCount : Z;
  p_ErrorCode : string; p_ErrorMessage : string; p_SourceLineNumber : Z }.

(** The type of the image in a part of a candidate, when it holds one. *)
Definition imageOfPart (partRaw : any) : option string :=
  match partRaw with
  | AnyMap part =>
      match firstMap [default AnyNil (part !! "inlineData"); default AnyNil (part !! "inline_data")] with
      | Some inline =>
          let data := TrimSpace (batchImageMapString inline "data") in
          let mime := batchImageFirstNonEmptyString [batchImageMapString inline "mimeType"; batchImageMapString inline "mime_type"] in
          if String.eqb data "" || negb (HasPrefix (ToLower (TrimSpace mime)) "image/") then None else Some mime
      | None => None
      end
  | _ => None
  end.
Definition imagesOfCandidate (candidateRaw : any) : list string :=
  match candidateRaw with
  | AnyMap _ =>
      match batchImageNestedAny candidateRaw ["content"; "parts"] with
      | AnyList parts => omap imageOfPart parts
      | _ => []
      end
  | _ => []
  end.
Definition batchImageFindImagePartsInCandidates (raw : any) : Z * string :=
  match raw with
  | AnyList candidates =>
      let mimes := mjoin (map imagesOfCandidate candidates) in
      (Z.of_nat (length mimes), foldl (fun first mime => if String.eqb first "" then TrimSpace mime else first) "" mimes)
  | _ => (0, "")
  end.
Definition batchImageFindImageParts (obj : gmap string any) : Z * string :=
  let '(count, mimeType) := batchImageFindImagePartsInCandidates (batchImageNestedAny (AnyMap obj) ["response"; "candidates"]) in
  if 0 <? count then (count, mimeType) else batchImageFindImagePartsInCandidates (default AnyNil (obj !! "candidates")).

Definition batchImageMapFailureCode (code message : string) : string :=
  let text := ToLower (TrimSpace (code +:+ " " +:+ message)) in
  if Contains text "safety" || Contains text "policy" || Contains text "blocked" || Contains text "prohibited" then "SAFETY_BLOCKED"
  else if Contains text "invalid_argument" || Contains text "invalid argument" || Contains text "bad request" then "INVALID_ARGUMENT"
  else if Contains text "quota" || Contains text "rate" || Contains text "resource_exhausted" || Contains text "too many requests"
  then "PROVIDER_RATE_LIMITED"
  else "PROVIDER_ITEM_FAILED".
Definition failureOf (fields : gmap string any) : string * string :=
  let message := batchImageFirstNonEmptyString [batchImageMapString fields "message"; batchImageMapString fields "details"] in
  let code := batchImageFirstNonEmptyString [batchImageMapString fields "code"; batchImageMapString fields "status"] in
  (batchImageMapFailureCode code message, message).
Definition batchImageFailureFromProviderFields (obj : gmap string any) : option (string * string) :=
  match obj !! "status" with
  | Some (AnyMap status) => Some (failureOf status)
  | _ => match obj !! "error" with Some (AnyMap errObj) => Some (failureOf errObj) | _ => None end
  end.
Definition batchImageFileExtension (mimeType : string) : string :=
  let mimeType := ToLower (TrimSpace mimeType) in
  if String.eqb mimeType "image/png" then "png"
  else if String.eqb mimeType "image/jpeg" || String.eqb mimeType "image/jpg" then "jpg"
  else if String.eqb mimeType "image/webp" then "webp"
  else "".
Definition batchImageHasCandidates (obj : gmap string any) : bool :=
  bool_decide (is_Some (obj !! "candidates")) ||
  match batchImageNestedAny (AnyMap obj) ["response"; "candidates"] with AnyList _ => true | _ => false end.

Definition ParseBatchImageResultLine (line : string) (lineNumber : Z) : result goerror ParsedBatchImageResult :=
  match UnmarshalMap line with
  | None => Err (AppErr (WithCause ErrBatchImageIndexParseFailed (Some (PlainErr 340 "line: invalid JSON object"))))
  | Some obj =>
      let customID := batchImageFirstNonEmptyString
        [batchImageMapString obj "key"; batchImageMapString obj "custom_id"; batchImageMapString obj "customId";
         batchImageNestedString obj ["request"; "key"]] in
      if String.eqb customID "" then Err (AppErr (WithCause ErrBatchImageIndexParseFailed (Some (PlainErr 341 "line: missing custom id"))))
      else
        let failed code message := mkParsed customID BatchImageParsedStatusFailed "" "" 0 code message lineNumber in
        let '(imageCount, mimeType) := batchImageFindImageParts obj in
        Ok (if 0 <? imageCount
            then mkParsed customID BatchImageParsedStatusSucceeded mimeType (batchImageFileExtension mimeType) imageCount "" "" lineNumber
            else match batchImageFailureFromProviderFields obj with
                 | Some (code, message) => failed code (truncateBatchImageMessage message batchImageMaxErrorMessageLength)
                 | None =>
                     if bool_decide (is_Some (obj !! "response")) || batchImageHasCandidates obj
                     then failed "EMPTY_IMAGE_OUTPUT" "provider response contained no image output"
                     else failed "PROVIDER_ITEM_FAILED" "provider result line contained no image output"
                 end)
  end.

(** ** All lines *)

(** [bufio.Scanner] with lines of less than [maxTokenSize] bytes. *)
Definition maxTokenSize : Z := 16 * 1024 * 1024.
Definition ErrUnexpectedEOF : goerror := PlainErr 344 "unexpected EOF".
Definition ErrTooLong : goerror := PlainErr 342 "bufio.Scanner: token too long".
Fixpoint splitLines (current : string) (s : string) : list string :=
  match s with
  | EmptyString => if String.eqb current "" then [] else [String.rev current]
  | String c s' => if Ascii.eqb c (byte 10) then String.rev current :: splitLines "" s' else splitLines (String c current) s'
  end.
Definition dropCR (line : string) : string :=
  match String.rev line with String c rest => if Ascii.eqb c (byte 13) then String.rev rest else line | EmptyString => line end.
(** The lines up to one that is too long, and how the scan ends. *)
Fixpoint scanned (lines : list string) (readErr : option goerror) : list string * option goerror :=
  match lines with
  | [] => ([], readErr)
  | line :: lines =>
      if maxTokenSize <=? Z.of_nat (String.length line) then ([], Some ErrTooLong)
      else let '(l, e) := scanned lines readErr in (dropCR line :: l, e)
  end.
Record providerOutput := mkOutput { output_text : string; output_error : option goerror }.
Definition outputLines (o : providerOutput) : list string * option goerror := scanned (splitLines "" (output_text o)) (output_error o).

Record BatchImageIndexResult := mkIndexResult { res_SuccessCount : Z; res_FailCount : Z; TotalCount : Z }.
(** The state of the loop. *)
Record indexing := mkIndexing {
  seen : gmap string Z; unknownCount : Z; indexed : list BatchImageItem; counts : BatchImageIndexResult }.
Definition noIndex : indexing := mkIndexing ∅ 0 [] (mkIndexResult 0 0 0).

Definition itemOfResult (batchID sourceObject : string) (now : time) (parsed : ParsedBatchImageResult) : BatchImageItem :=
  let succeeded := String.eqb (p_Status parsed) BatchImageParsedStatusSucceeded in
  let on (cond : bool) (s : string) := if cond then batchImageOptionalStringPtr s else None in
  mkItem batchID (p_CustomID parsed) (if succeeded then BatchImageItemStatusSuccess else BatchImageItemStatusFailed) None None
    (batchImageOptionalStringPtr sourceObject) (Some (p_SourceLineNumber parsed)) (on succeeded (p_MimeType parsed))
    (on succeeded (p_FileExtension parsed)) (p_ImageCount parsed) (on (negb succeeded) (p_ErrorCode parsed))
    (on (negb succeeded) (p_ErrorMessage parsed)) (Some now).
Definition counted (succeeded : bool) (c : BatchImageIndexResult) : BatchImageIndexResult :=
  mkIndexResult (res_SuccessCount c + (if succeeded then 1 else 0)) (res_FailCount c + (if succeeded then 0 else 1)) (TotalCount c + 1).
Definition indexLine (expected : gset string) (batchID sourceObject : string) (now : time) (lineNumber : Z) (line : string) (st : indexing)
    : result goerror indexing :=
  let line := TrimSpace line in
  if String.eqb line "" then Ok st
  else match ParseBatchImageResultLine line lineNumber with
       | Err e => Err e
       | Ok parsed =>
           let id := p_CustomID parsed in
           if negb (bool_decide (expected = ∅)) && negb (bool_decide (id ∈ expected))
           then Ok { st with unknownCount := unknownCount st + 1 }
           else if bool_decide (is_Some (seen st !! id))
           then Err (AppErr (WithCause ErrBatchImageDuplicateCustomID (Some (PlainErr 343 "custom id duplicated"))))
           else Ok (mkIndexing (<[id := lineNumber]> (seen st)) (unknownCount st) (indexed st ++ [itemOfResult batchID sourceObject now parsed])
                     (counted (String.eqb (p_Status parsed) BatchImageParsedStatusSucceeded) (counts st)))
       end.
Fixpoint indexLines (expected : gset string) (batchID sourceObject : string) (now : time) (lineNumber : Z) (lines : list string) (st : indexing)
    : result goerror indexing :=
  match lines with
  | [] => Ok st
  | line :: lines =>
      match indexLine expected batchID sourceObject now (lineNumber + 1) line st with
      | Err e => Err e
      | Ok st => indexLines expected batchID sourceObject now (lineNumber + 1) lines st
      end
  end.
(** The submitted items that have no line, in the order of their ids. *)
Definition string_le (a b : string) : Prop := String.leb a b = true.
#[export] Instance string_le_dec a b : Decision (string_le a b).
Proof. unfold string_le. apply _. Defined.
Definition missingItem (batchID sourceObject : string) (now : time) (customID : string) : BatchImageItem :=
  mkItem batchID customID BatchImageItemStatusFailed None None (batchImageOptionalStringPtr sourceObject) None None None 0
    (Some "PROVIDER_RESULT_MISSING") (Some "provider output did not include a result for this item") (Some now).
Definition addMissing (expected : gset string) (batchID sourceObject : string) (now : time) (st : indexing) : indexing * Z :=
  let missingIDs := merge_sort string_le (elements (expected ∖ dom (seen st))) in
  let n := Z.of_nat (length missingIDs) in
  ({ st with indexed := indexed st ++ map (missingItem batchID sourceObject now) missingIDs;
             counts := mkIndexResult (res_SuccessCount (counts st)) (res_FailCount (counts st) + n) (TotalCount (counts st) + n) }, n).
(** What is to be stored, and whether it was reconciled. *)
Definition buildIndex (expected : gset string) (job : BatchImageJob) (now : time) (output : providerOutput) : result goerror (indexing * bool) :=
  let sourceObject := batchImageDerefString (ProviderOutputRef job) in
  let sourceObject := if String.eqb sourceObject "" then batchImageDerefString (ProviderJobName job) else sourceObject in
  let '(lines, readErr) := outputLines output in
  match indexLines expected (BatchID job) sourceObject now 0 lines noIndex with
  | Err e => Err e
  | Ok st =>
      match readErr with
      | Some e => Err (if errors_Is e ErrUnexpectedEOF then AppErr (WithCause ErrBatchImageIndexParseFailed (Some e)) else e)
      | None =>
          let '(st, missingCount) := addMissing expected (BatchID job) sourceObject now st in
          if TotalCount (counts st) =? 0 then Err (AppErr ErrBatchImageIndexNoResultLines)
          else Ok (st, (0 <? unknownCount st) || (0 <? missingCount))
      end
  end.

(** ** The indexer *)

Local Abbreviation world := (store * list fault)%type.
Local Abbreviation method A := (ST world (result goerror A)).

Definition pageSize : Z := 500.
Fixpoint expectedPages (fuel : nat) (batchID : string) (expected : gset string) (offset : Z) : method (gset string) :=
  match fuel with
  | O => mret (Ok expected)
  | S fuel =>
      page ←? ListBatchImageItems batchID "" pageSize offset;
      let expected := expected ∪ list_to_set (CustomID <$> page) in
      if Z.of_nat (length page) <? pageSize then mret (Ok expected)
      else expectedPages fuel batchID expected (offset + Z.of_nat (length page))
  end.
(** Every full page is followed by the next; there are no more than items. *)
Definition listExpectedCustomIDs (batchID : string) : method (gset string) := fun w =>
  expectedPages (S (length (default [] (items w.1 !! batchID)))) batchID ∅ 0 w.

(** [opened] is the answer of the provider, [now] the clock. *)
Definition Index (job : BatchImageJob) (opened : result goerror providerOutput) (now : time) : method BatchImageIndexResult :=
  expected ←? listExpectedCustomIDs (BatchID job);
  match opened with
  | Err e => mret (Err (AppErr (WithCause ErrBatchImageIndexOutputMissing (Some e))))
  | Ok output =>
      match buildIndex expected job now output with
      | Err e => mret (Err e)
      | Ok (st, reconciled) =>
          _ ← (if reconciled : bool then AppendBatchImageEvent (BatchID job) "index_reconciled" else mret (Ok tt));
          _ ←? ReplaceBatchImageItemsForJob (BatchID job) (indexed st) (res_SuccessCount (counts st)) (res_FailCount (counts st)) now;
          mret (Ok (counts st))
      end
  end.

(** ** What is indexed *)

Definition isSuccess (item : BatchImageItem) : bool := String.eqb (item_Status item) BatchImageItemStatusSuccess.
Definition successes (l : list BatchImageItem) : Z := Z.of_nat (length (List.filter isSuccess l)).
Definition failures (l : list BatchImageItem) : Z := Z.of_nat (length (List.filter (fun item => negb (isSuccess item)) l)).
Lemma successes_app l l' : successes (l ++ l') = successes l + successes l'.
Proof. unfold successes. rewrite List.filter_app, length_app. lia. Qed.
Lemma failures_app l l' : failures (l ++ l') = failures l + failures l'.
Proof. unfold failures. rewrite List.filter_app, length_app. lia. Qed.

(** The items so far have different ids, those of the submitted set, and are counted. *)
Record indexing_ok (expected : gset string) (batchID : string) (st : indexing) : Prop := {
  ix_nodup : NoDup (CustomID <$> indexed st);
  ix_seen : forall id, id ∈ dom (seen st) <-> id ∈ CustomID <$> indexed st;
  ix_expected : expected = ∅ \/ dom (seen st) ⊆ expected;
  ix_success : res_SuccessCount (counts st) = successes (indexed st);
  ix_fail : res_FailCount (counts st) = failures (indexed st);
  ix_total : TotalCount (counts st) = Z.of_nat (length (indexed st));
  ix_items : Forall (fun item => JobID item = batchID /\ PromptPreview item = None /\ isSuccess item = (0 <? ImageCount item)) (indexed st) }.

Lemma parsed_status line n p : ParseBatchImageResultLine line n = Ok p ->
  String.eqb (p_Status p) BatchImageParsedStatusSucceeded = (0 <? p_ImageCount p).
Proof.
  unfold ParseBatchImageResultLine. destruct (UnmarshalMap line) as [obj|]; [|done]. cbv zeta. destruct (String.eqb _ ""); [done|].
  destruct (batchImageFindImageParts obj) as [n' mime]. destruct (0 <? n') eqn:E; [by intros [= <-]|].
  by repeat case_match; intros [= <-].
Qed.
Lemma indexLine_ok expected batchID src now n line st st' : indexing_ok expected batchID st ->
  indexLine expected batchID src now n line st = Ok st' -> indexing_ok expected batchID st'.
Proof.
  intros H. unfold indexLine. destruct (String.eqb (TrimSpace line) ""); [by intros [= <-]|].
  destruct (ParseBatchImageResultLine _ n) as [p|] eqn:Ep; [|done]. cbv zeta. destruct (negb _ && negb _) eqn:Ee.
  { intros [= <-]. destruct H. by constructor. }
  destruct (bool_decide (is_Some _)) eqn:Es; [done|]. intros [= <-]. apply bool_decide_eq_false in Es.
  assert (Hnew : p_CustomID p ∉ CustomID <$> indexed st).
  { rewrite <- (ix_seen _ _ _ H), elem_of_dom. done. }
  set (item := itemOfResult batchID src now p).
  assert (Ei : isSuccess item = (0 <? p_ImageCount p)).
  { rewrite <- (parsed_status _ _ _ Ep). unfold item, itemOfResult, isSuccess. simpl. by destruct (String.eqb (p_Status p) _). }
  assert (Es' : successes [item] = if 0 <? p_ImageCount p then 1 else 0) by (unfold successes; simpl; rewrite Ei; by destruct (0 <? _)).
  assert (Ef' : failures [item] = if 0 <? p_ImageCount p then 0 else 1) by (unfold failures; simpl; rewrite Ei; by destruct (0 <? _)).
  destruct H as [H1 H2 H3 H4 H5 H6 H7]. constructor; cbn [seen indexed counts counted res_SuccessCount res_FailCount TotalCount].
  - rewrite fmap_app. apply NoDup_app. split; [done|]. split; [|apply NoDup_singleton]. intros id Hid Hin. apply list_elem_of_singleton in Hin as ->. done.
  - intros id. rewrite dom_insert, fmap_app, elem_of_union, elem_of_app, H2. simpl. rewrite elem_of_singleton, list_elem_of_singleton. tauto.
  - destruct H3 as [->|H3]; [by left|]. destruct (decide (expected = ∅)); [by left|]. right. rewrite dom_insert. apply union_subseteq. split; [|done].
    apply singleton_subseteq_l. rewrite (bool_decide_eq_false_2 (expected = ∅)) in Ee by done. simpl in Ee.
    apply negb_false_iff, bool_decide_eq_true in Ee. done.
  - rewrite successes_app, H4, Es', (parsed_status _ _ _ Ep). done.
  - rewrite failures_app, H5, Ef', (parsed_status _ _ _ Ep). done.
  - rewrite length_app, H6. simpl. lia.
  - apply Forall_app. split; [done|]. apply Forall_singleton. done.
Qed.
Lemma indexLines_ok expected batchID src now lines n st st' : indexing_ok expected batchID st ->
  indexLines expected batchID src now n lines st = Ok st' -> indexing_ok expected batchID st'.
Proof.
  revert n st. induction lines as [|line lines IH]; intros n st H; simpl; [by intros [= <-]|].
  destruct (indexLine _ _ _ _ _ _ _) eqn:E; [|done]. apply IH. by eapply indexLine_ok.
Qed.
Lemma noIndex_ok expected batchID : indexing_ok expected batchID noIndex.
Proof.
  split; simpl; try done; [apply NoDup_nil_2| |right; set_solver].
  intros id. rewrite dom_empty. set_solver.
Qed.

Lemma missing_ids (batchID src : string) now l : CustomID <$> map (missingItem batchID src now) l = l.
Proof. induction l; simpl; [done|]. by f_equal. Qed.
Lemma missing_failed (batchID src : string) now l : successes (map (missingItem batchID src now) l) = 0 /\
  failures (map (missingItem batchID src now) l) = Z.of_nat (length l).
Proof. unfold successes, failures. induction l as [|a l [IH1 IH2]]; simpl in *; [done|]. split; [done|lia]. Qed.

(** What is stored: every submitted item once, and nothing else, when the submitted
    items are known; the counts are those of the items. *)
Lemma buildIndex_complete expected job now output st reconciled : buildIndex expected job now output = Ok (st, reconciled) ->
  indexing_ok expected (BatchID job) (mkIndexing (list_to_map ((fun id => (id, 0)) <$> (CustomID <$> indexed st))) 0 (indexed st) (counts st)) /\
  indexed st <> [] /\ (expected = ∅ \/ list_to_set (CustomID <$> indexed st) = expected).
Proof.
  unfold buildIndex. cbv zeta. set (src := if String.eqb _ "" then _ else _). destruct (outputLines output) as [lines readErr].
  destruct (indexLines _ _ _ _ _ _ _) as [st0|] eqn:E; [|done]. apply indexLines_ok in E; [|apply noIndex_ok].
  destruct readErr; [done|]. unfold addMissing. cbv zeta. set (missing := merge_sort string_le _).
  assert (Hm : forall id, id ∈ missing <-> id ∈ expected /\ id ∉ dom (seen st0)).
  { intros id. unfold missing. rewrite merge_sort_Permutation, elem_of_elements. set_solver. }
  assert (Hn : NoDup missing) by (unfold missing; rewrite merge_sort_Permutation; apply NoDup_elements).
  clearbody missing. destruct E as [H1 H2 H3 H4 H5 H6 H7]. destruct (missing_failed (BatchID job) src now missing) as [M1 M2].
  simpl. destruct (TotalCount (counts st0) + _ =? 0) eqn:Et; [done|]. intros [= <- <-]. cbn [indexed counts].
  assert (Hids : forall id, id ∈ CustomID <$> (indexed st0 ++ map (missingItem (BatchID job) src now) missing) <-> id ∈ dom (seen st0) \/ id ∈ missing).
  { intros id. rewrite fmap_app, missing_ids, elem_of_app, H2. done. }
  split; [|split].
  - constructor; cbn [seen indexed counts res_SuccessCount res_FailCount TotalCount].
    + rewrite fmap_app, missing_ids. apply NoDup_app. split_and!; [done| |done]. intros id Hid Hin. apply Hm in Hin as [_ Hin]. by rewrite H2 in Hin.
    + intros id. rewrite dom_list_to_map, elem_of_list_to_set. rewrite <- list_fmap_compose. simpl. rewrite list_fmap_id. done.
    + destruct (decide (expected = ∅)) as [->|He]; [by left|]. right. intros id. rewrite dom_list_to_map, elem_of_list_to_set.
      rewrite <- list_fmap_compose. simpl. rewrite list_fmap_id, Hids, Hm. destruct H3 as [->|H3]; [done|]. intros [Hd|[? _]]; [by apply H3|done].
    + rewrite successes_app, M1, H4. lia.
    + rewrite failures_app, M2, H5. done.
    + rewrite length_app, length_map, H6. lia.
    + apply Forall_app. split; [done|]. rewrite Forall_map. by apply Forall_true.
  - intros Hl. apply Z.eqb_neq in Et. apply app_eq_nil in Hl as [Hl1 Hl2]. apply map_eq_nil in Hl2. rewrite Hl2 in Et. rewrite H6, Hl1 in Et. by simpl in Et.
  - destruct (decide (expected = ∅)) as [->|He]; [by left|]. right. apply set_eq. intros id. rewrite elem_of_list_to_set, Hids, Hm.
    destruct H3 as [->|H3]; [done|]. destruct (decide (id ∈ dom (seen st0))) as [Hd|]; [pose proof (H3 _ Hd)|]; tauto.
Qed.

(** ** The indexer on the tables *)

Lemma take_pages {A} (l : list A) offset : (offset <= length l)%nat ->
  (length (take 500 (drop offset l)) < 500)%nat -> drop offset l = take 500 (drop offset l).
Proof. intros Ho Hl. rewrite take_ge; [done|]. rewrite length_take in Hl. lia. Qed.
Lemma expectedPages_run fuel batchID s expected offset :
  let rows := default [] (items s !! batchID) in
  (offset <= length rows)%nat -> (length rows - offset < fuel)%nat ->
  expectedPages fuel batchID expected (Z.of_nat offset) (s, []) = (Ok (expected ∪ list_to_set (CustomID <$> drop offset rows)), (s, [])).
Proof.
  intros rows. revert expected offset. induction fuel as [|fuel IH]; intros expected offset Ho Hf; [lia|].
  cbn [expectedPages]. unfold ListBatchImageItems. cbv zeta. rewrite !bind_ok_eq, query_run. unfold stmt_selectItems. cbn [fst snd].
  fold rows. replace (Z.of_nat offset <? 0) with false by (symmetry; apply Z.ltb_ge; lia). simpl.
  rewrite Nat2Z.id. unfold pageSize in *. change (Z.to_nat 500) with 500%nat.
  destruct (Z.ltb_spec (Z.of_nat (length (take 500 (drop offset rows)))) 500) as [Hl|Hl].
  - rewrite <- (take_pages rows offset Ho); [done|lia].
  - assert (E : length (take 500 (drop offset rows)) = 500%nat) by (rewrite length_take in *; lia).
    rewrite length_take, length_drop in E. rewrite <- Nat2Z.inj_add, IH.
    + f_equal. f_equal. rewrite length_take, length_drop. replace (500 `min` (length rows - offset))%nat with 500%nat by lia.
      rewrite <- (take_drop 500 (drop offset rows)) at 2. rewrite drop_drop, fmap_app, list_to_set_app_L, (assoc_L (∪)). done.
    + rewrite length_take, length_drop. lia.
    + rewrite length_take, length_drop. lia.
Qed.
Lemma listExpected_run batchID s :
  listExpectedCustomIDs batchID (s, []) = (Ok (list_to_set (CustomID <$> default [] (items s !! batchID))), (s, [])).
Proof.
  unfold listExpectedCustomIDs. simpl fst. rewrite (expectedPages_run _ _ _ _ 0); [|lia|lia]. rewrite drop_0, (left_id_L ∅ (∪)). done.
Qed.

Lemma createItems_run new s batchID job rows : jobs s !! batchID = Some job -> items s !! batchID = Some rows \/ items s !! batchID = None /\ rows = [] ->
  Forall (fun item => JobID item = batchID) new -> NoDup (CustomID <$> rows ++ new) ->
  createItems new (s, []) = (Ok tt, (match new with [] => s | _ => { s with items := <[batchID := rows ++ new]> (items s) } end, [])).
Proof.
  revert s rows. induction new as [|item new IH]; intros s rows Hj Hr Hb Hn; [done|].
  apply Forall_cons in Hb as [Hi Hb]. cbn [createItems]. unfold createBatchImageItemWithSQL. rewrite bind_ok_eq, translated_run, query_run.
  assert (Er : default [] (items s !! batchID) = rows) by (destruct Hr as [->|[-> ->]]; done).
  unfold stmt_insertItem. rewrite Hi, Hj, Er.
  assert (Hnew : existsb (fun row => String.eqb (CustomID row) (CustomID item)) rows = false).
  { apply not_true_iff_false. rewrite existsb_exists. intros (row & Hrow & E%String.eqb_eq). rewrite fmap_app in Hn.
    apply NoDup_app in Hn as (_ & Hd & _). apply (Hd (CustomID row)); [apply list_elem_of_fmap_2; by apply list_elem_of_In|].
    rewrite E. by left. }
  rewrite Hnew. cbn [fst snd]. rewrite (IH _ (rows ++ [item])); [|done| |done|by rewrite <- app_assoc].
  - destruct new; [done|]. f_equal. f_equal. destruct s. simpl. f_equal. rewrite insert_insert_eq, <- app_assoc. done.
  - left. simpl. apply lookup_insert_eq.
Qed.

Lemma withPreview_ids batchID previews new : CustomID <$> map (withPreview batchID previews) new = CustomID <$> new.
Proof.
  induction new as [|item new IH]; [done|]. simpl. f_equal; [|exact IH]. unfold withPreview. cbv zeta. by repeat case_match.
Qed.
Lemma withPreview_fields batchID previews item : JobID (withPreview batchID previews item) = batchID /\
  item_Status (withPreview batchID previews item) = item_Status item.
Proof. unfold withPreview. cbv zeta. by repeat case_match. Qed.
Lemma withPreview_counts batchID previews new :
  successes (map (withPreview batchID previews) new) = successes new /\ failures (map (withPreview batchID previews) new) = failures new.
Proof.
  unfold successes, failures. induction new as [|item new [IH1 IH2]]; [done|]. simpl.
  assert (E : isSuccess (withPreview batchID previews item) = isSuccess item) by (unfold isSuccess; by rewrite (proj2 (withPreview_fields _ _ _))).
  rewrite E. destruct (isSuccess item); simpl; split; lia.
Qed.
Definition reindexed (successCount failCount : Z) (now : time) (job : BatchImageJob) : BatchImageJob :=
  { job with SuccessCount := successCount; FailCount := failCount; job_UpdatedAt := now }.
Lemma replaceItems_run batchID new sc fc now s job : jobs s !! batchID = Some job -> job_Status job = BatchImageJobStatusIndexing ->
  new <> [] -> NoDup (CustomID <$> new) ->
  let previews := previewsOf (default [] (items s !! batchID)) in
  ReplaceBatchImageItemsForJob batchID new sc fc now (s, []) =
  (Ok tt, ({ { s with items := <[batchID := map (withPreview batchID previews) new]> (items s) }
             with jobs := <[batchID := reindexed sc fc now job]> (jobs s) }, [])).
Proof.
  intros Hj Hst Hne Hn previews. unfold ReplaceBatchImageItemsForJob. eapply inTx_run; [|done].
  unfold replaceBatchImageItemsForJobWithSQL, selectStatusForUpdate. rewrite !bind_ok_eq, translated_run, query_run. unfold stmt_selectJob. rewrite Hj.
  cbn [anyJob fst snd]. unfold mret at 1, ST_ret. rewrite Hst. cbn [negb String.eqb].
  rewrite String.eqb_refl. cbn [negb]. rewrite bind_ok_eq, query_run. unfold stmt_selectItems. cbn [fst snd]. fold previews.
  rewrite bind_ok_eq, query_run. unfold stmt_deleteItems. cbn [fst snd].
  rewrite bind_ok_eq, (createItems_run _ _ batchID job []).
  - destruct (map (withPreview batchID previews) new) as [|item l] eqn:El; [by apply map_eq_nil in El|]. rewrite <- El.
    rewrite bind_ok_eq, query_run. unfold stmt_updateJob. destruct s as [bd js its evs nj]. simpl in *. rewrite Hj. cbn [fst snd anyJob].
    f_equal. f_equal. simpl. f_equal. by rewrite insert_delete_eq.
  - by destruct s.
  - right. split; [|done]. destruct s. apply lookup_delete_eq.
  - rewrite Forall_map. apply Forall_true. intros item. apply withPreview_fields.
  - cbn [app]. by rewrite withPreview_ids.
Qed.
Lemma successes_failures l : successes l + failures l = Z.of_nat (length l).
Proof. unfold successes, failures. induction l as [|item l IH]; [done|]. simpl. destruct (isSuccess item); simpl; lia. Qed.
Lemma previewsOf_lookup rows row p : NoDup (CustomID <$> rows) -> row ∈ rows -> PromptPreview row = Some p -> p <> "" ->
  previewsOf rows !! CustomID row = Some p.
Proof.
  intros Hn Hr Hp Hne. unfold previewsOf. induction rows as [|r rows IH]; [by apply not_elem_of_nil in Hr|].
  simpl in Hn. apply NoDup_cons in Hn as [Hr' Hn]. apply elem_of_cons in Hr as [<-|Hr]; cbn [omap list_omap].
  - rewrite Hp. cbn [mbind option_bind]. destruct (String.eqb_spec p "") as [|_]; [done|]. apply lookup_insert_eq.
  - specialize (IH Hn Hr). assert (CustomID r <> CustomID row) by (intros E; apply Hr'; rewrite E; by apply list_elem_of_fmap_2).
    destruct (PromptPreview r ≫= _) as [[id' p']|] eqn:E; [|done]. destruct (PromptPreview r) as [q|]; [|done]. cbn [mbind option_bind] in E.
    destruct (String.eqb q ""); [done|]. injection E as <- <-. cbn [list_to_map foldr uncurry]. by rewrite lookup_insert_ne.
Qed.

(** Indexing the output of a provider leaves exactly the items that were submitted, each once,
    whatever lines the output repeats, lacks or adds (a repeated one is an error): an item without a
    line is recorded as failed, the previews are kept, the counts of the job are the numbers of
    successful and failed items and add up to the items submitted, and nothing else changes. *)
Theorem index_reconciles job job0 rows output now s res s' fs' :
  let b := BatchID job in
  jobs s !! b = Some job0 -> job_Status job0 = BatchImageJobStatusIndexing ->
  items s !! b = Some rows -> rows <> [] -> NoDup (CustomID <$> rows) ->
  Index job (Ok output) now (s, []) = (Ok res, (s', fs')) ->
  exists rows',
    items s' = <[b := rows']> (items s) /\
    jobs s' = <[b := reindexed (successes rows') (failures rows') now job0]> (jobs s) /\ billing_db s' = billing_db s /\
    (CustomID <$> rows') ≡ₚ (CustomID <$> rows) /\
    res = mkIndexResult (successes rows') (failures rows') (Z.of_nat (length rows)) /\
    successes rows' + failures rows' = Z.of_nat (length rows) /\
    forall row row' p, row ∈ rows -> row' ∈ rows' -> CustomID row' = CustomID row -> PromptPreview row = Some p -> p <> "" ->
      PromptPreview row' = Some p.
Proof.
  intros b Hj Hst Hi Hne Hn. unfold Index. fold b. rewrite bind_ok_eq, listExpected_run, Hi. change (default [] (Some rows)) with rows.
  set (expected := list_to_set (CustomID <$> rows) : gset string).
  assert (Hex : expected <> ∅).
  { destruct rows as [|row rows]; [done|]. subst expected. intros E. assert (H : CustomID row ∈ (∅ : gset string)) by (rewrite <- E; set_solver). set_solver. }
  destruct (buildIndex expected job now output) as [[st reconciled]|] eqn:E; [|intros [=]].
  destruct (buildIndex_complete _ _ _ _ _ _ E) as (Hok & Hst' & [He|He]); [done|]. destruct Hok as [N _ _ Hs Hf Ht Hit].
  cbn [seen indexed counts] in *. fold b in Hit. rewrite bind_run.
  set (w1 := (if reconciled then AppendBatchImageEvent b "index_reconciled" else mret (Ok tt)) (s, []) : result goerror unit * (store * list fault)). assert (Hw1 : exists evs, w1.2 = ({ s with events := evs }, [])).
  { subst w1. destruct reconciled; [|exists (events s); by destruct s]. unfold AppendBatchImageEvent, appendBatchImageEventWithSQL.
    rewrite query_run. unfold stmt_insertEvent. rewrite Hj. cbn [snd]. by eexists. }
  destruct Hw1 as [evs Hw1]. destruct w1 as [r1 w1]. cbn [snd] in Hw1. subst w1. rewrite bind_ok_eq. cbn [snd].
  rewrite (replaceItems_run b _ _ _ _ _ job0); [|by destruct s|done|done|done]. intros [= <- <- _].
  set (previews := previewsOf _). exists (map (withPreview b previews) (indexed st)).
  destruct (withPreview_counts b previews (indexed st)) as [W1 W2]. rewrite W1, W2, withPreview_ids.
  assert (Hp : (CustomID <$> indexed st) ≡ₚ (CustomID <$> rows)).
  { apply NoDup_Permutation; [done|done|]. intros id. rewrite <- (elem_of_list_to_set (C := gset string)), He. apply elem_of_list_to_set. }
  assert (Hlen : length (indexed st) = length rows).
  { apply Permutation_length in Hp. by rewrite !length_fmap in Hp. }
  assert (Ec : counts st = mkIndexResult (successes (indexed st)) (failures (indexed st)) (Z.of_nat (length rows))).
  { destruct (counts st). simpl in *. by rewrite Hs, Hf, Ht, Hlen. }
  rewrite Ec. split_and!; [by destruct s|by destruct s|by destruct s|done|done|by rewrite successes_failures, Hlen|].
  intros row row' p Hr Hr' Eid Epv Hpne. apply list_elem_of_In, in_map_iff in Hr' as (item & <- & Hitem).
  apply list_elem_of_In in Hitem. pose proof (proj1 (Forall_forall _ _) Hit _ Hitem) as (_ & Hnone & _).
  assert (Eid' : CustomID item = CustomID row).
  { rewrite <- Eid. unfold withPreview. cbv zeta. by repeat case_match. }
  assert (Hl : previews !! CustomID item = Some p).
  { subst previews. rewrite Eid'. destruct s. simpl in *. rewrite Hi. by apply previewsOf_lookup. }
  clearbody previews. unfold withPreview. cbv zeta. destruct item as [jid cid st0 rh pp]. simpl in *. subst pp. by rewrite Hl.
Qed.

(** ** A batch of three items *)

Definition demoBatch (status : string) : BatchImageJob :=
  mkJob 1 "imgbatch_1" 1 (Some 7) (Some 3) BatchImageProviderGeminiAPI "imagen" "task" None status (Some "batches/1") None (Some "files/1")
    None None 3 0 0 0 fone (Some fone) None fone fone fone fhalf fhalf fhalf fhalf 1 "USD" None None (Some "hash") None None 0 0
    None None None None None None None 0 0 None None None None.
Definition pendingItem (id : string) (preview : option string) : BatchImageItem :=
  mkItem "imgbatch_1" id BatchImageItemStatusPending None preview None None None None 0 None None None.
Definition noBilling : db := mkDB ∅ ∅ ∅ (SubscriptionRepo.mkTable ∅ 1 ∅ 0) ∅ ∅ ∅ 0.
Definition demoStore : store :=
  mkStore noBilling {["imgbatch_1" := demoBatch BatchImageJobStatusIndexing]}
    {["imgbatch_1" := [pendingItem "b" (Some "a cat"); pendingItem "a" None; pendingItem "c" (Some "a dog")]]} ∅ 2.
Definition eol : string := String (byte 10) "".
(** One image, one safety refusal, and a line of another batch. *)
Definition demoOutput : providerOutput := mkOutput
  (qs ["{"; "key"; ":"; "b"; ","; "response"; ":{"; "candidates"; ":[{"; "content"; ":{"; "parts"; ":[{"; "inlineData";
       ":{"; "mimeType"; ":"; "image/png"; ","; "data"; ":"; "iVBO"; "}}]}}]}}"] +:+ eol +:+ eol +:+
   qs ["{"; "custom_id"; ":"; "c"; ","; "error"; ":{"; "code"; ":400,"; "message"; ":"; "blocked by SAFETY"; "}}"] +:+ eol +:+
   qs ["{"; "key"; ":"; "z"; "}"]) None.
Definition demoIndexed : result goerror BatchImageIndexResult * (store * list fault) :=
  Index (demoBatch BatchImageJobStatusIndexing) (Ok demoOutput) 5 (demoStore, []).
Lemma index_reconciles_witness :
  exists rows, items demoIndexed.2.1 !! "imgbatch_1" = Some rows /\ successes rows + failures rows = 3 /\
    map (fun row => (CustomID row, item_Status row, PromptPreview row, ErrorCode row)) rows =
    [("b", "success", Some "a cat", None); ("c", "failed", Some "a dog", Some "SAFETY_BLOCKED");
     ("a", "failed", None, Some "PROVIDER_RESULT_MISSING")].
Proof.
  destruct demoIndexed as [r [s' fs']] eqn:E. assert (Er : r = Ok (mkIndexResult 1 2 3)).
  { transitivity demoIndexed.1; [by rewrite E|]. clear. vm_compute. reflexivity. }
  subst r. destruct (index_reconciles (demoBatch BatchImageJobStatusIndexing) (demoBatch BatchImageJobStatusIndexing) _ demoOutput 5 demoStore
    (mkIndexResult 1 2 3) s' fs' eq_refl eq_refl eq_refl) as (rows & Hi & _ & _ & _ & _ & Hn & _); [done| |exact E|].
  - apply (bool_decide_unpack _). vm_compute. exact I.
  - exists rows. simpl snd. simpl fst. rewrite Hi. split; [apply lookup_insert_eq|]. split; [exact Hn|].
    assert (Ei : items demoIndexed.2.1 !! "imgbatch_1" = Some rows) by (rewrite E; simpl; rewrite Hi; apply lookup_insert_eq).
    clear - Ei. revert Ei. vm_compute. intros [= <-]. reflexivity.
Defined.
