(* ===== verification/BatchSettlement.v ===== *)
(** * Paying for an image batch

    [service/batch_image_billing_hold.go], [batch_image_settlement.go],
    [batch_image_billing_recovery.go] and the job processor of
    [batch_image_processor.go]: the amount held for a batch is captured when the
    batch is settled, or released when it fails, is cancelled or never reaches its
    provider.

    The provider of a batch, the pricing of a model and the lookup of the account
    are interfaces ([Env]).  [errorText] stands for the [Error] methods: texts of
    errors are only stored.  A call sees one time [now].  Not modelled: the usage
    log, the invalidation of the authentication cache and the payloads of events. *)

From S2P Require Import Prelude Json Float64 Errors Sha256 Subscription SubscriptionRepo AccountQuota Account.
From S2P Require Import UsageBilling UsageLedger JsonValue BatchJobs BatchIndex.

Definition batchImageSettlementRetryDelay : duration := Minute.
Definition batchImageSettlementMaxRetries : Z := 5.
Definition batchImageCostEpsilon : float64 := captureTolerance.
Definition defaultBatchImageProcessorRequeue : duration := 30 * Second.
Definition batchImageProviderErrorRequeue : duration := Minute.
Definition defaultBatchImageBillingRecoveryStaleAfter : duration := 10 * Minute.
Definition defaultBatchImageBillingRecoveryLimit : Z := 100.

Definition ErrBatchImageSettlementPricingMissing :=
  New 400 "BATCH_IMAGE_SETTLEMENT_PRICING_MISSING" "batch image settlement pricing is missing".
Definition ErrBatchImageSettlementBillingFailed :=
  New 502 "BATCH_IMAGE_SETTLEMENT_BILLING_FAILED" "batch image settlement billing failed".
Definition ErrBatchImageSettlementMissingAPIKeyID :=
  New 400 "BATCH_IMAGE_SETTLEMENT_MISSING_API_KEY_ID" "batch image settlement api key id is missing".
Definition ErrBatchImageSettlementMissingAccountID :=
  New 400 "BATCH_IMAGE_SETTLEMENT_MISSING_ACCOUNT_ID" "batch image settlement account id is missing".
Definition ErrBatchImageSettlementInvalidCounts :=
  New 400 "BATCH_IMAGE_SETTLEMENT_INVALID_COUNTS" "batch image settlement counts are invalid".
Definition ErrBatchImageBillingHoldFailed := New 502 "BATCH_IMAGE_BILLING_HOLD_FAILED" "batch image balance hold failed".
Definition ErrBatchImageUnsupportedProvider := New 400 "BATCH_IMAGE_UNSUPPORTED_PROVIDER" "unsupported batch image provider".
Definition ErrBatchImageMissingAccountID := New 400 "BATCH_IMAGE_MISSING_ACCOUNT_ID" "batch image account id is missing".
Definition ErrBatchImageMissingProviderJobName :=
  New 400 "BATCH_IMAGE_MISSING_PROVIDER_JOB_NAME" "batch image provider job name is missing".
Definition ErrBatchImageProviderUnsupportedAccount :=
  New 400 "BATCH_IMAGE_PROVIDER_UNSUPPORTED_ACCOUNT" "batch image provider does not support this account".

(** ** Providers *)

Inductive BatchProviderInternalState :=
| BatchProviderStateQueued | BatchProviderStateRunning | BatchProviderStateSucceeded
| BatchProviderStateFailed | BatchProviderStateCancelled | BatchProviderStateExpired | BatchProviderStateOther.
Record BatchProviderStatus := mkStatusOf {
  InternalState : BatchProviderInternalState; status_ProviderOutputRef : string;
  status_ErrorCode : string; status_ErrorMessage : string; SuggestedRequeueAfter : duration }.
(** What a [BatchImageProvider] answers while a job is processed; [None] is a nil status. *)
Record BatchImageProvider {account : Type} := mkProvider {
  SupportsAccount : account -> bool;
  ProviderGet : BatchImageJob -> account -> result goerror (option BatchProviderStatus);
  OpenResult : BatchImageJob -> account -> result goerror providerOutput }.
Arguments BatchImageProvider : clear implicits.
Class Env := {
  account : Type;
  ProviderRegistry : string -> option (BatchImageProvider account);
  ResolveBatchImageAccount : Z -> result goerror account;
  BatchImageUnitPrice : BatchImageJob -> result goerror float64;
  numeric2010 : float64 -> result goerror float64;
  numeric104 : float64 -> result goerror float64;
  errorText : goerror -> string }.

Section Settlement.
Context {money : Money} {env : Env}.
Local Abbreviation world := (store * list fault)%type.
Local Abbreviation method A := (ST world (result goerror A)).

(** ** Holds *)

Definition buildBatchImageHoldCommand (job : BatchImageJob) (requestID : string) (actualAmount : float64) (payloadHash : string)
    : result goerror BatchImageBalanceHoldCommand :=
  match job_APIKeyID job with
  | None => Err (AppErr ErrBatchImageSettlementMissingAPIKeyID)
  | Some apiKeyID =>
      if apiKeyID <=? 0 then Err (AppErr ErrBatchImageSettlementMissingAPIKeyID)
      else
        let clamp amount := if SFltb amount fzero then fzero else amount in
        Ok (mkHold requestID apiKeyID "" (TrimSpace payloadHash) (job_UserID job) (BatchID job) (clamp (holdOf job)) (clamp actualAmount))
  end.
Definition reserveBatchImageBalanceHold (job : BatchImageJob) (payloadHash : string) : method unit :=
  match buildBatchImageHoldCommand job (BatchImageHoldRequestID (BatchID job)) fzero payloadHash with
  | Err e => mret (Err e)
  | Ok cmd =>
      if nonpositive (HoldAmount cmd) then mret (Ok tt)
      else
        r ← onBilling (ReserveBatchImageBalance cmd);
        mret (match r with
              | Ok _ => Ok tt
              | Err e => Err (if errors_Is e (AppErr ErrBatchImageInsufficientBalance) then AppErr ErrBatchImageInsufficientBalance
                              else AppErr (WithCause ErrBatchImageBillingHoldFailed (Some e)))
              end)
  end.
Definition captureBatchImageBalanceHold (job : BatchImageJob) (actualAmount : float64) (payloadHash : string) : method unit :=
  match buildBatchImageHoldCommand job (BatchImageCaptureRequestID (BatchID job)) actualAmount payloadHash with
  | Err e => mret (Err e)
  | Ok cmd =>
      r ← onBilling (CaptureBatchImageBalance cmd);
      mret (match r with Ok _ => Ok tt | Err e => Err (AppErr (WithCause ErrBatchImageSettlementBillingFailed (Some e))) end)
  end.
Definition releaseBatchImageBalanceHold (job : BatchImageJob) (payloadHash : string) : method unit :=
  match buildBatchImageHoldCommand job (BatchImageReleaseRequestID (BatchID job)) fzero payloadHash with
  | Err e => mret (Err e)
  | Ok cmd =>
      if nonpositive (HoldAmount cmd) then mret (Ok tt)
      else
        r ← onBilling (ReleaseBatchImageBalance cmd);
        mret (match r with
              | Ok _ => Ok tt
              | Err e => if errors_Is e ErrUsageBillingRequestConflict then Ok tt
                         else Err (AppErr (WithCause ErrBatchImageBillingHoldFailed (Some e)))
              end)
  end.

(** ** Settlement *)

Definition zeroByte : string := String (byte 0) "".
Definition BuildBatchImageSettlementManifestHash (job : BatchImageJob) : string :=
  sha256_hex (String.concat zeroByte
    [TrimSpace (BatchID job); TrimSpace (Provider job); TrimSpace (job_Model job); batchImageDerefString (ProviderJobName job);
     batchImageDerefString (ProviderOutputRef job); Itoa (SuccessCount job); Itoa (FailCount job); Itoa (ItemCount job)]).
Record BatchImageSettlementResult := mkSettlement {
  s_BatchID : string; s_SuccessCount : Z; s_FailCount : Z; s_ActualCost : float64; s_ManifestHash : string;
  s_RequestID : string; AlreadySettled : bool }.
Definition isBatchImageSettlementRetryExhausted (job : BatchImageJob) : bool :=
  String.eqb (job_Status job) BatchImageJobStatusSettling && (batchImageSettlementMaxRetries <=? RetryCount job) &&
  HasPrefix (batchImageDerefString (LastErrorCode job)) "SETTLEMENT_".
Definition settlementUnitPrice (job : BatchImageJob) : result goerror float64 :=
  if 1 <=? PricingSnapshotVersion job then
    if SFltb (BillableUnitPrice job) fzero then Err (AppErr ErrBatchImageSettlementPricingMissing) else Ok (BillableUnitPrice job)
  else BatchImageUnitPrice job.
Definition shortened (e : goerror) : string := truncateBatchImageMessage (errorText e) batchImageMaxErrorMessageLength.

(** It always returns an error. *)
Definition failExhaustedSettlement (job : BatchImageJob) (message : string) (now : time) : ST world goerror :=
  r ← releaseBatchImageBalanceHold job (batchImageDerefString (RequestHash job));
  match r with
  | Err e =>
      _ ← SetBatchImageJobSettlementFailed (BatchID job) "SETTLEMENT_RELEASE_FAILED" (shortened e) now;
      mret (AppErr (WithCause ErrBatchImageSettlementBillingFailed (Some e)))
  | Ok _ =>
      let msg := TrimSpace message in
      let msg := if String.eqb msg "" then "settlement billing retry limit reached" else msg in
      t ← TransitionBatchImageJobStatus (BatchID job) BatchImageJobStatusFailed
            (mkTransition "settlement_retry_exhausted" (Some "SETTLEMENT_BILLING_RETRY_EXHAUSTED") (Some msg)) now;
      mret (match t with Err e => e | Ok _ => AppErr ErrBatchImageSettlementBillingFailed end)
  end.
Definition recordSettlementFailure (job : BatchImageJob) (code message : string) (now : time) : ST world (option goerror) :=
  '(retryCount, recordErr) ← SetBatchImageJobSettlementFailed (BatchID job) code
                               (truncateBatchImageMessage message batchImageMaxErrorMessageLength) now;
  match recordErr with
  | Some _ => mret None
  | None =>
      let job := { job with RetryCount := retryCount; LastErrorCode := Some code } in
      if batchImageSettlementMaxRetries <=? retryCount then e ← failExhaustedSettlement job message now; mret (Some e) else mret None
  end.
(** Record the failure and return its error, or that of giving up. *)
Definition failSettlement {A} (job : BatchImageJob) (code message : string) (err : goerror) (now : time) : method A :=
  failErr ← recordSettlementFailure job code message now;
  mret (Err (match failErr with Some e => e | None => err end)).

(** [retention] is [outputRetentionAfterTerminal]. *)
Definition Settle (batchID : string) (retention : duration) (now : time) : method BatchImageSettlementResult :=
  job ←? GetBatchImageJobByBatchID batchID;
  let manifestHash := BuildBatchImageSettlementManifestHash job in
  let result := mkSettlement (BatchID job) (SuccessCount job) (FailCount job) (default fzero (ActualCost job)) manifestHash
                  (BatchImageCaptureRequestID (BatchID job)) false in
  let positiveID (id : option Z) := match id with Some id => 0 <? id | None => false end in
  if String.eqb (job_Status job) BatchImageJobStatusCompleted then mret (Ok { result with AlreadySettled := true })
  else if negb (String.eqb (job_Status job) BatchImageJobStatusSettling) then mret (Err (AppErr ErrBatchImageSettlementInvalidStatus))
  else if negb (positiveID (job_APIKeyID job)) then mret (Err (AppErr ErrBatchImageSettlementMissingAPIKeyID))
  else if negb (positiveID (job_AccountID job)) then mret (Err (AppErr ErrBatchImageSettlementMissingAccountID))
  else if isBatchImageSettlementRetryExhausted job then
    e ← failExhaustedSettlement job ("settlement retry limit reached: " +:+ batchImageDerefString (LastErrorCode job)) now; mret (Err e)
  else if (SuccessCount job <? 0) || (FailCount job <? 0) || (ItemCount job <? 0) || (ItemCount job <? SuccessCount job + FailCount job) then
    failSettlement job "SETTLEMENT_INVALID_COUNTS"
      ("success=" +:+ Itoa (SuccessCount job) +:+ " fail=" +:+ Itoa (FailCount job) +:+ " item_count=" +:+ Itoa (ItemCount job))
      (AppErr ErrBatchImageSettlementInvalidCounts) now
  else if negb (String.eqb (batchImageDerefString (ManifestHash job)) "") &&
          negb (String.eqb (batchImageDerefString (ManifestHash job)) manifestHash) then
    failSettlement job "SETTLEMENT_MANIFEST_CONFLICT" "manifest hash conflict" (AppErr ErrBatchImageSettlementManifestConflict) now
  else
    let priced := match settlementUnitPrice job with
                  | Ok p => if SFltb p fzero then Err (AppErr ErrBatchImageSettlementPricingMissing) else Ok p
                  | Err e => Err e
                  end in
    match priced with
    | Err e => failSettlement job "SETTLEMENT_PRICING_MISSING" (errorText e) e now
    | Ok unitPrice =>
        let actualCost := fmul (float_of_Z (SuccessCount job)) unitPrice in
        let holdAmount := holdOf job in
        if SFltb batchImageCostEpsilon (fsub actualCost holdAmount) then
          failSettlement job "SETTLEMENT_COST_EXCEEDS_HOLD"
            ("actual cost " +:+ formatFixed10 actualCost +:+ " exceeds held amount " +:+ formatFixed10 holdAmount)
            (AppErr ErrBatchImageSettlementCostExceedsHold) now
        else
          captured ← captureBatchImageBalanceHold job actualCost manifestHash;
          match captured with
          | Err e => failSettlement job "SETTLEMENT_BILLING_FAILED" (shortened e) e now
          | Ok _ =>
              _ ←? MarkBatchImageJobSettled numeric2010 (mkSettled (BatchID job) actualCost manifestHash now (Some (now + retention)));
              mret (Ok { result with s_ActualCost := actualCost })
          end
    end.

(** ** Processing *)

Record BatchImageProcessResult := mkProcessed { RequeueAfter : duration; Terminal : bool }.
Definition requeue (delay : duration) : result goerror BatchImageProcessResult := Ok (mkProcessed delay false).
Definition terminal : result goerror BatchImageProcessResult := Ok (mkProcessed 0 true).
Definition requeueDelay (DefaultRequeue suggested : duration) : duration :=
  if 0 <? suggested then suggested else if 0 <? DefaultRequeue then DefaultRequeue else defaultBatchImageProcessorRequeue.
Definition isBatchImageProcessorDoneStatus (status : string) : bool :=
  if String.eqb status BatchImageJobStatusSettling then true else IsTerminalBatchImageJobStatus status.
Definition persistProviderOutputRef (job : BatchImageJob) (ref : string) (now : time) : method BatchImageJob :=
  let ref := TrimSpace ref in
  if String.eqb ref "" || String.eqb (batchImageDerefString (ProviderOutputRef job)) ref then mret (Ok job)
  else _ ←? UpdateBatchImageJobProviderOutputRef (BatchID job) ref now; mret (Ok { job with ProviderOutputRef := Some ref }).
Definition releaseTerminalHold (job : BatchImageJob) : method unit :=
  if negb (String.eqb (job_Status job) BatchImageJobStatusFailed) && negb (String.eqb (job_Status job) BatchImageJobStatusCancelled)
  then mret (Ok tt)
  else releaseBatchImageBalanceHold job (batchImageDerefString (RequestHash job)).
(** The job becomes [status], and its hold is released. *)
Definition endJob (job : BatchImageJob) (status : string) (opts : BatchImageTransitionOptions) (now : time) : method BatchImageProcessResult :=
  _ ←? TransitionBatchImageJobStatus (BatchID job) status opts now;
  _ ←? releaseTerminalHold { job with job_Status := status };
  mret terminal.

Definition indexAndSettle (job : BatchImageJob) (opened : result goerror providerOutput) (now : time) : method BatchImageProcessResult :=
  r ← Index job opened now;
  match r with
  | Err e =>
      if errors_Is e (AppErr ErrBatchImageIndexOutputMissing) then mret (Err e)
      else if errors_Is e (AppErr ErrBatchImageIndexStateConflict) then mret (requeue Millisecond)
      else
        let code := if errors_Is e (AppErr ErrBatchImageDuplicateCustomID) then "DUPLICATE_CUSTOM_ID_IN_OUTPUT" else "INDEX_PARSE_FAILED" in
        endJob job BatchImageJobStatusFailed (mkTransition "indexing_failed" (Some code) (batchImageOptionalStringPtr (shortened e))) now
  | Ok _ =>
      _ ←? TransitionBatchImageJobStatus (BatchID job) BatchImageJobStatusSettling (mkTransition "indexing_completed" None None) now;
      mret (requeue Millisecond)
  end.

(** What the status of the provider means for the job. *)
Definition followProvider (DefaultRequeue : duration) (job : BatchImageJob) (opened : result goerror providerOutput)
    (status : BatchProviderStatus) (now : time) : method BatchImageProcessResult :=
  let later := requeue (requeueDelay DefaultRequeue (SuggestedRequeueAfter status)) in
  match InternalState status with
  | BatchProviderStateQueued | BatchProviderStateOther => mret later
  | BatchProviderStateRunning =>
      if negb (String.eqb (job_Status job) BatchImageJobStatusRunning)
      then _ ←? TransitionBatchImageJobStatus (BatchID job) BatchImageJobStatusRunning (mkTransition "provider_status_checked" None None) now;
           mret later
      else mret later
  | BatchProviderStateSucceeded =>
      if negb (String.eqb (job_Status job) BatchImageJobStatusIndexing)
      then _ ←? TransitionBatchImageJobStatus (BatchID job) BatchImageJobStatusIndexing (mkTransition "indexing_started" None None) now;
           indexAndSettle { job with job_Status := BatchImageJobStatusIndexing } opened now
      else indexAndSettle job opened now
  | (BatchProviderStateFailed | BatchProviderStateExpired) as state =>
      let code := TrimSpace (status_ErrorCode status) in
      let code := match state with
                  | BatchProviderStateExpired => if String.eqb code "" then "PROVIDER_BATCH_EXPIRED" else code
                  | _ => code
                  end in
      let code := if String.eqb code "" then "PROVIDER_BATCH_FAILED" else code in
      let msg := truncateBatchImageMessage (status_ErrorMessage status) batchImageMaxErrorMessageLength in
      endJob job BatchImageJobStatusFailed (mkTransition "job_failed" (Some code) (batchImageOptionalStringPtr msg)) now
  | BatchProviderStateCancelled =>
      endJob job BatchImageJobStatusCancelled (mkTransition "job_failed" None None) now
  end.

(** [Process] of [BatchImageProviderProcessor]. *)
Definition ProcessWithProvider (DefaultRequeue : duration) (batchID : string) (now : time) : method BatchImageProcessResult :=
  job ←? GetBatchImageJobByBatchID batchID;
  if isBatchImageProcessorDoneStatus (job_Status job) then _ ←? releaseTerminalHold job; mret terminal
  else
    match ProviderRegistry (Provider job), job_AccountID job with
    | None, _ => mret (Err (AppErr ErrBatchImageUnsupportedProvider))
    | Some _, None => mret (Err (AppErr ErrBatchImageMissingAccountID))
    | Some provider, Some accountID =>
        if accountID <=? 0 then mret (Err (AppErr ErrBatchImageMissingAccountID))
        else
          match ResolveBatchImageAccount accountID with
          | Err e => mret (Err e)
          | Ok account =>
              if negb (SupportsAccount provider account) then mret (Err (AppErr ErrBatchImageProviderUnsupportedAccount))
              else if String.eqb (batchImageDerefString (ProviderJobName job)) "" then mret (Err (AppErr ErrBatchImageMissingProviderJobName))
              else if String.eqb (job_Status job) BatchImageJobStatusIndexing then indexAndSettle job (OpenResult provider job account) now
              else
                match ProviderGet provider job account with
                | Err _ => mret (requeue batchImageProviderErrorRequeue)
                | Ok None => mret (requeue (requeueDelay DefaultRequeue 0))
                | Ok (Some status) =>
                    job ←? persistProviderOutputRef job (status_ProviderOutputRef status) now;
                    followProvider DefaultRequeue job (OpenResult provider job account) status now
                end
          end
    end.

(** [Process] of [BatchImagePipelineProcessor]. *)
Definition Process (RetryDelay DefaultRequeue retention : duration) (batchID : string) (now : time) : method BatchImageProcessResult :=
  job ←? GetBatchImageJobByBatchID batchID;
  if String.eqb (job_Status job) BatchImageJobStatusSettling then
    r ← Settle batchID retention now;
    match r with
    | Ok _ => mret terminal
    | Err e =>
        if errors_Is e (AppErr ErrBatchImageSettlementBillingFailed) then
          updated ← GetBatchImageJobByBatchID batchID;
          let over := match updated with Ok job => IsTerminalBatchImageJobStatus (job_Status job) | Err _ => false end in
          mret (if over then terminal else requeue (if RetryDelay <=? 0 then batchImageSettlementRetryDelay else RetryDelay))
        else mret (Err e)
    end
  else ProcessWithProvider DefaultRequeue batchID now.

(** ** Recovery *)

(** One job of the list: whether its hold was released, and whether a release is to be retried. *)
Definition releaseStale (cutoff now : time) (job : BatchImageJob) : ST world (result goerror bool * bool) :=
  '(applied, err) ← FailStaleUnsubmittedBatchImageJob (BatchID job) cutoff "SUBMIT_STALE_BEFORE_PROVIDER"
                      "batch image submission did not reach provider before recovery cutoff" now;
  match applied, err with
  | false, Some e => mret (Err e, false)
  | false, None => mret (Ok false, false)
  | true, _ =>
      r ← releaseBatchImageBalanceHold { job with job_Status := BatchImageJobStatusFailed } (batchImageDerefString (RequestHash job));
      mret (match r with Ok _ => (Ok true, false) | Err e => (Err e, true) end)
  end.
(** The holds released, the last error, and the batches to be queued for another release. *)
Fixpoint releaseStaleJobs (cutoff now : time) (jobs : list BatchImageJob) (released : Z) (lastErr : option goerror) (retry : list string)
    : ST world (Z * option goerror * list string) :=
  match jobs with
  | [] => mret (released, lastErr, retry)
  | job :: jobs =>
      '(r, again) ← releaseStale cutoff now job;
      let retry := if again : bool then retry ++ [BatchID job] else retry in
      match r with
      | Ok true => releaseStaleJobs cutoff now jobs (released + 1) lastErr retry
      | Ok false => releaseStaleJobs cutoff now jobs released lastErr retry
      | Err e => releaseStaleJobs cutoff now jobs released (Some e) retry
      end
  end.
Definition ReleaseStaleUnsubmittedOnce (StaleAfter : duration) (Limit : Z) (now : time) : ST world (Z * option goerror * list string) :=
  let staleAfter := if StaleAfter <=? 0 then defaultBatchImageBillingRecoveryStaleAfter else StaleAfter in
  let limit := if Limit <=? 0 then defaultBatchImageBillingRecoveryLimit else Limit in
  let cutoff := now - staleAfter in
  r ← ListStaleUnsubmittedBatchImageJobs cutoff limit;
  match r with
  | Err e => mret (0, Some e, [])
  | Ok jobs => releaseStaleJobs cutoff now jobs 0 None []
  end.

(** ** Transactions under faults *)

Lemma query_faithful {A} (m : ST store (result goerror A)) : faithful (query m).
Proof.
  intros s fs a s' fs'. unfold query. rewrite !bind_run, remote_run. unfold remote. destruct (m s) as [r s1].
  destruct fs as [|[] fs1]; destruct r; simpl; try done; intros [= -> -> ->]; done.
Qed.
Lemma translated_faithful {A} nf cf (m : method A) : faithful m -> faithful (translated nf cf m).
Proof.
  intros Hm s fs a s' fs'. rewrite !translated_run. destruct (m (s, fs)) as [[b|e] [s1 fs1]] eqn:E; [|done].
  intros [= -> -> ->]. by rewrite (Hm _ _ _ _ _ E).
Qed.
(** A transaction leaves the tables as they are, or does all of its body. *)
Lemma inTx_cases {A} (body : method A) s fs r s' fs' : faithful body -> inTx body (s, fs) = (r, (s', fs')) ->
  (s' = s /\ exists e, r = Err e) \/
  exists a, body (s, []) = (Ok a, (s', [])) /\ (r = Ok a \/ exists e, r = Err e).
Proof.
  intros Hb. unfold inTx. remember (remote (fun s : store => (tt, s)) (s, fs)) as begun eqn:Eb.
  assert (Hd : begun.2.1 = s) by (subst; by destruct fs as [|[] fs1]).
  destruct begun as [[u|e] [s1 fs1]]; simpl in Hd; subst s1; [|intros [= <- <- <-]; eauto].
  destruct (body (s, fs1)) as [[a|e] [s2 fs2]] eqn:E; simpl; [|intros [= <- <- <-]; eauto].
  apply Hb in E. unfold remote. destruct fs2 as [|[] fs3]; intros [= <- <- <-]; eauto 7.
Qed.
(** A read under faults. *)
Lemma getJob_cases batchID s fs r s' fs' : GetBatchImageJobByBatchID batchID (s, fs) = (r, (s', fs')) ->
  s' = s /\ match r with Ok job => jobs s !! batchID = Some job | Err _ => True end.
Proof.
  unfold GetBatchImageJobByBatchID. rewrite translated_run. unfold query. rewrite bind_run.
  assert (Hs : (stmt_selectJob anyJob batchID s).2 = s) by done. unfold remote. destruct (stmt_selectJob anyJob batchID s) as [q s1] eqn:E.
  simpl in Hs. subst s1. unfold stmt_selectJob, anyJob in E. injection E as <-.
  destruct fs as [|[] fs1], (jobs s !! batchID); simpl; intros [= <- <- _]; done.
Qed.
Lemma getJob_run batchID s job : jobs s !! batchID = Some job -> GetBatchImageJobByBatchID batchID (s, []) = (Ok job, (s, [])).
Proof. intros H. unfold GetBatchImageJobByBatchID. rewrite translated_run, query_run. unfold stmt_selectJob, anyJob. by rewrite H. Qed.

(** ** Holds under faults *)

Definition holdKey (cmd : BatchImageBalanceHoldCommand) : claimKey := (TrimSpace (h_RequestID cmd), h_APIKeyID cmd).
Definition holdFingerprint (cmd : BatchImageBalanceHoldCommand) : string := h_RequestFingerprint (NormalizeHold cmd).
(** A hold command leaves the database as it is, or has its whole effect. *)
Lemma hold_cases kind cmd d fs r d' fs' : applyBatchImageBalanceHold kind cmd (d, fs) = (r, (d', fs')) ->
  (d' = d /\ match r with Ok _ => is_Some (claims d !! holdKey cmd) | Err _ => True end) \/
  (claims d !! holdKey cmd = None /\
   exists a, holdEffects kind (NormalizeHold cmd) (addClaim (holdKey cmd) (holdFingerprint cmd) d, []) = (Ok a, (d', []))).
Proof.
  unfold applyBatchImageBalanceHold. cbv zeta. pose proof (NormalizeHold_fields cmd) as Ek.
  destruct (String.eqb _ ""); [intros [= <- <- _]; by left|]. rewrite bind_ok_eq.
  destruct (claimed _ _ _ _ _) as [c [d1 fs1]] eqn:E. apply claimed_cases in E; [|apply holdEffects_faithful]. rewrite Ek in E.
  destruct E as [[-> H]|(a & Hk & Ha & Hr)].
  - destruct c as [[a|]|e]; [done| |]; intros [= <- <- _]; left; [|done]. destruct H as (old & Ho & _). by split; [|exists old].
  - intros Hc. right. split; [done|]. exists a. destruct Hr as [->|[e ->]]; injection Hc as _ <- _; done.
Qed.
Lemma hold_again kind cmd d : TrimSpace (h_RequestID cmd) <> "" -> claims d !! holdKey cmd = Some (holdFingerprint cmd) ->
  applyBatchImageBalanceHold kind cmd (d, []) = (Ok noHold, (d, [])).
Proof.
  intros Hid Hc. unfold applyBatchImageBalanceHold. cbv zeta. pose proof (NormalizeHold_fields cmd) as Ek. injection Ek as E1 E2.
  rewrite E1, E2. destruct (String.eqb_spec (TrimSpace (h_RequestID cmd)) ""); [done|]. fold (holdFingerprint cmd).
  rewrite bind_ok_eq. unfold claimed, withTx. rewrite remote_run. cbn [fst snd]. rewrite bind_ok_eq, claim_run.
  unfold holdKey in Hc. rewrite Hc, String.eqb_refl. done.
Qed.
Lemma hold_new kind cmd d a d' : TrimSpace (h_RequestID cmd) <> "" -> claims d !! holdKey cmd = None ->
  holdEffects kind (NormalizeHold cmd) (addClaim (holdKey cmd) (holdFingerprint cmd) d, []) = (Ok a, (d', [])) ->
  exists r, applyBatchImageBalanceHold kind cmd (d, []) = (Ok r, (d', [])).
Proof.
  intros Hid Hc He. unfold applyBatchImageBalanceHold. cbv zeta. pose proof (NormalizeHold_fields cmd) as Ek. injection Ek as E1 E2.
  rewrite E1, E2. destruct (String.eqb_spec (TrimSpace (h_RequestID cmd)) ""); [done|]. fold (holdFingerprint cmd).
  rewrite bind_ok_eq. unfold claimed, withTx. rewrite remote_run. cbn [fst snd]. rewrite bind_ok_eq, claim_run.
  unfold holdKey in Hc. rewrite Hc. cbn [negb]. rewrite bind_ok_eq. unfold holdKey in He. rewrite He. unfold mret, ST_ret. rewrite remote_run. cbn [fst snd]. by eexists.
Qed.

Lemma moveFunds_run id c f e d u : users d !! id = Some u -> c u = true -> fits (balance (f u)) = true -> fits (frozen_balance (f u)) = true ->
  moveFunds id c f e (d, []) = (Ok (holdResult (f u)), ({ d with users := <[id := f u]> (users d) }, [])).
Proof.
  intros Hu Hc H1 H2. unfold moveFunds. rewrite bind_ok_eq, exec_run. unfold stmt_updateUser. by rewrite Hu, Hc, H1, H2.
Qed.

(** ** One batch to be settled *)

Section Paying.
Context (b hash : string) (key uid : Z) (hold unitPrice cost stored : float64).

(** A job of the batch [b] that can be settled for [cost]. *)
Record payable (job : BatchImageJob) : Prop := {
  pay_id : BatchID job = b;
  pay_status : job_Status job = BatchImageJobStatusSettling;
  pay_user : job_UserID job = uid;
  pay_key : job_APIKeyID job = Some key;
  pay_account : exists id, job_AccountID job = Some id /\ 0 < id;
  pay_counts : 0 <= SuccessCount job /\ 0 <= FailCount job /\ 0 <= ItemCount job /\ SuccessCount job + FailCount job <= ItemCount job;
  pay_manifest : ManifestHash job = None;
  pay_hash : BuildBatchImageSettlementManifestHash job = hash;
  pay_price : BillableUnitPrice job = unitPrice;
  pay_snapshot : 1 <= PricingSnapshotVersion job;
  pay_cost : fmul (float_of_Z (SuccessCount job)) unitPrice = cost;
  pay_hold : holdOf job = hold }.
(** Amounts that are not negative, on the scale of the balances, and covered by the hold. *)
Record amounts : Prop := {
  am_key : 0 < key;
  am_id : TrimSpace (BatchImageCaptureRequestID b) <> "";
  am_unit : SFltb unitPrice fzero = false;
  am_cost : SFltb cost fzero = false;
  am_hold : positive hold = true;
  am_within : SFltb captureTolerance (fsub cost hold) = false;
  am_hold_scale : toDecimal hold mod perQuantum = 0;
  am_cost_scale : toDecimal cost mod perQuantum = 0;
  am_stored : numeric2010 cost = Ok stored }.
Context (am : amounts).

Definition captureCommand : BatchImageBalanceHoldCommand :=
  mkHold (BatchImageCaptureRequestID b) key "" (TrimSpace hash) uid b hold cost.
Lemma positive_not (f : float64) : positive f = true -> SFltb f fzero = false /\ nonpositive f = false.
Proof. unfold positive, nonpositive, SFltb, SFleb. by destruct f as [[]|[]| |[] m e]. Qed.
Lemma capture_command job : payable job ->
  buildBatchImageHoldCommand job (BatchImageCaptureRequestID (BatchID job)) cost hash = Ok captureCommand.
Proof.
  intros []. unfold buildBatchImageHoldCommand. rewrite pay_key0. pose proof (am_key am). destruct (Z.leb_spec key 0); [lia|].
  rewrite pay_hold0, pay_user0, pay_id0, (am_cost am). by destruct (positive_not _ (am_hold am)) as [-> _].
Qed.

(** The balances before and after the batch was paid for. *)
Context (d0 : db) (u0 : userRow).
Record funded : Prop := {
  fund_user : users d0 !! uid = Some u0;
  fund_claim : claims d0 !! holdKey captureCommand = None;
  fund_covers : covers (frozen_balance u0) hold = true;
  fund_fits : fits (balance (afterCapture hold cost u0)) = true /\ fits (frozen_balance (afterCapture hold cost u0)) = true }.
Context (fund : funded).
Definition paidUsers : gmap Z userRow := <[uid := afterCapture hold cost u0]> (users d0).
Definition unpaid (d : db) : Prop := users d = users d0 /\ claims d !! holdKey captureCommand = None.
Definition paid (d : db) : Prop := users d = paidUsers /\ claims d !! holdKey captureCommand = Some (holdFingerprint captureCommand).

Lemma capture_effect d : users d = users d0 -> exists r d', holdEffects Capture (NormalizeHold captureCommand) (d, []) = (Ok r, (d', [])) /\
  users d' = paidUsers /\ claims d' = claims d.
Proof.
  intros Hu. destruct (NormalizeHold_amounts captureCommand) as (E1 & E2 & E3). cbn [holdEffects]. unfold captureUsageBillingBatchImageBalance.
  cbv zeta. rewrite E1, E2, E3. cbn [captureCommand HoldAmount ActualAmount h_UserID]. destruct (positive_not _ (am_hold am)) as [_ ->]. cbn [andb].
  rewrite (am_within am). destruct fund as [F1 _ F3 [F4 F5]].
  rewrite (moveFunds_run _ _ _ _ _ u0); rewrite ?Hu; rewrite ?(captured_row _ _ _ (am_hold_scale am) (am_cost_scale am)); try done.
  eexists _, _. split; [done|]. by split; [|destruct d].
Qed.
Lemma capture_cases d fs r d' fs' : unpaid d \/ paid d -> applyBatchImageBalanceHold Capture captureCommand (d, fs) = (r, (d', fs')) ->
  (d' = d /\ (paid d \/ exists e, r = Err e)) \/ paid d'.
Proof.
  intros Hd H. apply hold_cases in H as [[-> Hr]|(Hc & a & He)].
  - left. split; [done|]. destruct Hd as [[_ Hc]|Hp]; [|by left]. right. destruct r as [x|e]; [|by exists e]. by rewrite Hc in Hr; destruct Hr.
  - right. destruct Hd as [[Hu _]|[_ Hp]]; [|by rewrite Hp in Hc].
    destruct (capture_effect (addClaim (holdKey captureCommand) (holdFingerprint captureCommand) d)) as (r2 & d2 & E & E1 & E2); [done|].
    rewrite E in He. injection He as _ ->. split; [done|]. rewrite E2, claims_add. apply lookup_insert_eq.
Qed.
Lemma capture_run d : unpaid d \/ paid d -> exists r d', applyBatchImageBalanceHold Capture captureCommand (d, []) = (Ok r, (d', [])) /\ paid d'.
Proof.
  intros [[Hu Hc]|Hp].
  - destruct (capture_effect (addClaim (holdKey captureCommand) (holdFingerprint captureCommand) d)) as (r2 & d2 & E & E1 & E2); [done|].
    destruct (hold_new Capture captureCommand _ _ _ (am_id am) Hc E) as [r Hr]. exists r, d2. split; [done|]. split; [done|]. rewrite E2, claims_add. apply lookup_insert_eq.
  - exists noHold, d. split; [|done]. apply hold_again; [apply am|apply Hp].
Qed.

(** ** The phases of settling *)

(** To be settled after at most [n] failures, or settled; the other jobs are as at first. *)
Context (others : gmap string BatchImageJob) (unique : forall b' job, others !! b' = Some job -> ManifestHash job <> Some hash).
Record pending (n : Z) (s : store) : Prop := {
  pend_job : exists job, jobs s !! b = Some job /\ payable job /\ RetryCount job <= n;
  pend_others : delete b (jobs s) = others;
  pend_funds : unpaid (billing_db s) \/ paid (billing_db s) }.
Record settled (s : store) : Prop := {
  set_job : exists job, jobs s !! b = Some job /\ job_Status job = BatchImageJobStatusCompleted /\ ActualCost job = Some stored;
  set_others : delete b (jobs s) = others;
  set_funds : paid (billing_db s) }.

Lemma not_taken s : delete b (jobs s) = others -> manifestTaken b hash s = false.
Proof.
  intros Ho. unfold manifestTaken. apply andb_false_iff. right. apply not_true_iff_false. rewrite existsb_exists.
  intros ([b' job] & Hin & H). apply andb_true_iff in H as [H1 H2]. cbn [fst snd] in *. apply negb_true_iff, String.eqb_neq in H1.
  apply bool_decide_eq_true in H2. apply list_elem_of_In, elem_of_map_to_list in Hin. apply (unique b' job); [|done].
  rewrite <- Ho. by rewrite lookup_delete_ne.
Qed.
Lemma query_cases {A} (m : ST store (result goerror A)) s fs r s' fs' : query m (s, fs) = (r, (s', fs')) ->
  (s' = s /\ exists e, r = Err e) \/ (s' = (m s).2 /\ (r = (m s).1 \/ exists e, r = Err e)).
Proof.
  unfold query. rewrite bind_run. unfold remote. destruct (m s) as [q s1].
  destruct fs as [|[] fs1]; destruct q; simpl; intros [= <- <- _]; eauto 6.
Qed.
Lemma event_jobs batchID event s : jobs (stmt_insertEvent batchID event s).2 = jobs s /\
  billing_db (stmt_insertEvent batchID event s).2 = billing_db s.
Proof. unfold stmt_insertEvent. by destruct (jobs s !! batchID), s. Qed.
Lemma pending_ext n s s' : jobs s' = jobs s -> billing_db s' = billing_db s -> pending n s -> pending n s'.
Proof. intros E1 E2 [? ? ?]. constructor; by rewrite ?E1, ?E2. Qed.
Lemma pending_weaken n m s : n <= m -> pending n s -> pending m s.
Proof. intros Hl [(job & ? & ? & ?) ? ?]. constructor; [|done|done]. exists job. split_and!; [done|done|lia]. Qed.

Lemma payable_retry job code message k t : payable job ->
  payable { job with LastErrorCode := code; LastErrorMessage := message; RetryCount := k; job_UpdatedAt := t }.
Proof. intros [H1 H2 H3 H4 H5 H6 H7 H8 H9 H10 H11 H12]. destruct job.
  constructor; [exact H1|exact H2|exact H3|exact H4|exact H5|exact H6|exact H7|exact H8|exact H9|exact H10|exact H11|exact H12].
Qed.
Lemma failure_pending n s fs code message now r e s' fs' : pending n s ->
  SetBatchImageJobSettlementFailed b code message now (s, fs) = ((r, e), (s', fs')) ->
  pending (n + 1) s' /\ (e = None -> r <= n + 1).
Proof.
  intros Hp. unfold SetBatchImageJobSettlementFailed. rewrite bind_run.
  match goal with |- context [query ?m (s, fs)] => set (stmt := m) end.
  assert (Hs : pending (n + 1) (stmt s).2 /\ exists k, (stmt s).1 = Ok k /\ k <= n + 1).
  { destruct Hp as [(job & Hj & Hpay & Hr) Ho Hf]. subst stmt. unfold stmt_updateJob. rewrite Hj. unfold anyJob.
    destruct s as [bd js its evs nj]. simpl in *. rewrite lookup_insert_eq. simpl. split.
    - constructor; simpl; [|by rewrite delete_insert_eq|done]. eexists. split; [apply lookup_insert_eq|].
      split; [by apply payable_retry|]. destruct job. simpl in *. lia.
    - eexists. split; [done|]. destruct job. simpl in *. lia. }
  clearbody stmt. destruct Hs as [Hs (k & Ek & Hk)]. destruct (query stmt (s, fs)) as [q [s1 fs1]] eqn:E. cbn [fst snd].
  assert (H1 : pending (n + 1) s1).
  { apply query_cases in E as [[-> _]|[-> _]]; [|done]. by apply (pending_weaken n); [lia|]. }
  destruct q as [k'|e0]; [|intros [= <- <- <- _]; by split].
  assert (k' = k) as ->. { apply query_cases in E as [[_ [? [=]]]|[_ [Eq|[? [=]]]]]. rewrite Ek in Eq. by injection Eq. }
  rewrite bind_run. unfold appendBatchImageEventWithSQL. destruct (query _ (s1, fs1)) as [q2 [s2 fs2]] eqn:E2. intros [= <- <- <- _]. split; [|done].
  destruct (event_jobs b "settlement_failed" s1) as [Ev1 Ev2].
  apply query_cases in E2 as [[-> _]|[-> _]]; [done|]. by apply (pending_ext _ s1).
Qed.
Lemma failSettlement_pending {A} n s fs job code message err now (r : result goerror A) s' fs' : pending n s -> n < 4 -> BatchID job = b ->
  failSettlement job code message err now (s, fs) = (r, (s', fs')) -> pending (n + 1) s'.
Proof.
  intros Hp Hn Hid. unfold failSettlement, recordSettlementFailure. rewrite !bind_run, Hid.
  destruct (SetBatchImageJobSettlementFailed _ _ _ _ _) as [[k [e|]] [s1 fs1]] eqn:E;
    apply (failure_pending n) in E as [H1 H2]; [|done| |done]; cbn [fst snd]; [by intros [= _ <- _]|].
  specialize (H2 eq_refl). change batchImageSettlementMaxRetries with 5. destruct (Z.leb_spec 5 k); [lia|]. by intros [= _ <- _].
Qed.

(** What [Settle] does with a job that can be settled. *)
Definition pay (retention : duration) (now : time) (job : BatchImageJob) : method BatchImageSettlementResult :=
  captured ← captureBatchImageBalanceHold job cost hash;
  match captured with
  | Err e => failSettlement job "SETTLEMENT_BILLING_FAILED" (shortened e) e now
  | Ok _ =>
      _ ←? MarkBatchImageJobSettled numeric2010 (mkSettled (BatchID job) cost hash now (Some (now + retention)));
      mret (Ok (mkSettlement (BatchID job) (SuccessCount job) (FailCount job) cost hash (BatchImageCaptureRequestID (BatchID job)) false))
  end.
Lemma Settle_payable retention now s fs job : jobs s !! b = Some job -> payable job -> RetryCount job < 5 ->
  Settle b retention now (s, fs) =
  match GetBatchImageJobByBatchID b (s, fs) with (Ok _, w) => pay retention now job w | (Err e, w) => (Err e, w) end.
Proof.
  intros Hj Hp Hr. unfold Settle. rewrite bind_ok_eq. destruct (GetBatchImageJobByBatchID b (s, fs)) as [[job'|e] [s' fs']] eqn:E; [|done].
  apply getJob_cases in E as [-> E]. rewrite Hj in E. injection E as <-. destruct Hp. cbv zeta.
  rewrite pay_status0. cbn [negb String.eqb]. rewrite String.eqb_refl. change (String.eqb BatchImageJobStatusSettling BatchImageJobStatusCompleted) with false.
  cbn [negb]. destruct pay_account0 as (acc & Ea & Hacc). rewrite pay_key0, Ea. pose proof (am_key am).
  destruct (Z.ltb_spec 0 key), (Z.ltb_spec 0 acc); try lia. cbn [negb].
  assert (isBatchImageSettlementRetryExhausted job = false) as ->.
  { unfold isBatchImageSettlementRetryExhausted. change batchImageSettlementMaxRetries with 5. destruct (Z.leb_spec 5 (RetryCount job)); [lia|].
    by rewrite andb_false_r. }
  destruct (Z.ltb_spec (SuccessCount job) 0), (Z.ltb_spec (FailCount job) 0), (Z.ltb_spec (ItemCount job) 0),
    (Z.ltb_spec (ItemCount job) (SuccessCount job + FailCount job)); try lia. cbn [orb].
  rewrite pay_manifest0. cbn [batchImageDerefString String.eqb negb andb]. unfold settlementUnitPrice.
  destruct (Z.leb_spec 1 (PricingSnapshotVersion job)); [|lia]. rewrite pay_price0, !(am_unit am), pay_cost0, pay_hold0, pay_hash0.
  unfold batchImageCostEpsilon. rewrite (am_within am). reflexivity.
Qed.

Lemma markSettled_faithful params : faithful (markBatchImageJobSettledWithSQL numeric2010 params).
Proof.
  apply faithful_bind_ok; [apply query_faithful|]. intros n. destruct (n =? 0); [|apply query_faithful].
  apply faithful_bind_ok; [apply translated_faithful, query_faithful|]. intros job. apply faithful_ret.
Qed.
Lemma markSettled_run n s now expires : pending n s -> paid (billing_db s) ->
  exists s', markBatchImageJobSettledWithSQL numeric2010 (mkSettled b cost hash now expires) (s, []) = (Ok tt, (s', [])) /\ settled s'.
Proof.
  intros [(job & Hj & Hp & Hr) Ho _] Hpaid. unfold markBatchImageJobSettledWithSQL. cbn [set_BatchID set_ActualCost set_ManifestHash set_Now set_OutputExpiresAt].
  rewrite bind_ok_eq, query_run, (am_stored am). unfold stmt_settleJob. cbn [set_BatchID set_ManifestHash set_Now set_OutputExpiresAt].
  unfold stmt_updateJob. rewrite Hj, (pay_status _ Hp), (pay_manifest _ Hp), String.eqb_refl. cbn [andb]. rewrite (not_taken s Ho). cbn [fst snd].
  change (1 =? 0) with false. cbn iota. unfold appendBatchImageEventWithSQL. rewrite query_run.
  match goal with |- context [stmt_insertEvent b _ ?s1] => set (s1' := s1) end.
  assert (Hs1 : settled s1').
  { subst s1'. destruct s as [bd js its evs nj]. simpl in *. constructor; simpl; [|by rewrite delete_insert_eq|done].
    eexists. split; [apply lookup_insert_eq|]. by destruct job. }
  clearbody s1'. destruct (event_jobs b "settlement_completed" s1') as [E1 E2]. destruct Hs1 as [(j & Hj1 & Hs1) Ho1 Hf1].
  exists (stmt_insertEvent b "settlement_completed" s1').2. split.
  - unfold stmt_insertEvent. by rewrite Hj1.
  - constructor; rewrite ?E1, ?E2; [|done|done]. by exists j.
Qed.
Lemma markSettled_cases n s fs now expires r s' fs' : pending n s -> paid (billing_db s) ->
  MarkBatchImageJobSettled numeric2010 (mkSettled b cost hash now expires) (s, fs) = (r, (s', fs')) -> s' = s \/ settled s'.
Proof.
  intros Hp Hpaid H. apply inTx_cases in H as [[-> _]|(a & E & _)]; [by left| |apply markSettled_faithful].
  destruct (markSettled_run n s now expires Hp Hpaid) as (s2 & E2 & Hs2). rewrite E2 in E. injection E as _ <-. by right.
Qed.

Lemma pay_step retention now n s fs job r s' fs' : pending n s -> n < 4 -> payable job -> BatchID job = b ->
  pay retention now job (s, fs) = (r, (s', fs')) -> pending (n + 1) s' \/ settled s'.
Proof.
  intros Hp Hn Hpay Hid. unfold pay. rewrite bind_run. unfold captureBatchImageBalanceHold. rewrite (capture_command job Hpay), bind_run.
  unfold onBilling, CaptureBatchImageBalance. destruct (applyBatchImageBalanceHold _ _ _) as [c [d1 fs1]] eqn:E. cbn [fst snd].
  apply capture_cases in E; [|apply (pend_funds _ _ Hp)]. set (s1 := { s with billing_db := d1 }).
  assert (H1 : pending n s1 /\ (paid (billing_db s1) \/ exists e, c = Err e)).
  { subst s1. destruct s as [bd js its evs nj]. cbn [billing_db] in *. destruct Hp as [P1 P2 P3]. cbn [jobs billing_db] in *.
    destruct E as [[-> Hd]|Hd]; (split; [constructor; simpl|]); auto. }
  clearbody s1. destruct H1 as [H1 H2]. destruct c as [x|e]; cbn [fst snd].
  - destruct H2 as [H2|[e [=]]]. unfold mret at 1, ST_ret. unfold mret at 1. cbn [fst snd]. rewrite bind_ok_eq, Hid.
    destruct (MarkBatchImageJobSettled _ _ _) as [q [s2 fs2]] eqn:Em. apply (markSettled_cases n) in Em; [|done|done].
    assert (pending (n + 1) s2 \/ settled s2) by (destruct Em as [->|]; [left; by apply (pending_weaken n); [lia|]|by right]).
    by destruct q; intros [= _ <- _].
  - unfold mret at 1, ST_ret. unfold mret at 1. cbn [fst snd]. intros H. left. by apply (failSettlement_pending n) in H.
Qed.
Lemma settle_step retention now n s fs r s' fs' : pending n s -> n < 4 -> Settle b retention now (s, fs) = (r, (s', fs')) ->
  pending (n + 1) s' \/ settled s'.
Proof.
  intros Hp Hn. pose proof Hp as [(job & Hj & Hpay & Hr) _ _]. rewrite (Settle_payable _ _ _ _ job); [|done|done|lia].
  destruct (GetBatchImageJobByBatchID b (s, fs)) as [[job'|e] [s1 fs1]] eqn:E; apply getJob_cases in E as [-> E].
  - intros H. apply (pay_step _ _ n) in H; [done|done|done|done|apply Hpay].
  - intros [= _ <- _]. left. apply (pending_weaken n); [lia|done].
Qed.
Lemma settled_step retention now s fs r s' fs' : settled s -> Settle b retention now (s, fs) = (r, (s', fs')) -> s' = s.
Proof.
  intros [(job & Hj & Hst & _) _ _]. unfold Settle. rewrite bind_ok_eq.
  destruct (GetBatchImageJobByBatchID b (s, fs)) as [[job'|e] [s1 fs1]] eqn:E; apply getJob_cases in E as [-> E]; [|by intros [= _ <- _]].
  rewrite Hj in E. injection E as <-. cbv zeta. rewrite Hst, String.eqb_refl. by intros [= _ <- _].
Qed.
Lemma settle_last retention now n s : pending n s \/ settled s -> n < 5 ->
  exists res s', Settle b retention now (s, []) = (Ok res, (s', [])) /\ settled s' /\
    (AlreadySettled res = true /\ s' = s \/ AlreadySettled res = false /\ s_ActualCost res = cost).
Proof.
  intros [Hp|Hs] Hn.
  - pose proof Hp as [(job & Hj & Hpay & Hr) Ho Hf]. rewrite (Settle_payable _ _ _ _ job) by (done || lia). rewrite (getJob_run _ _ _ Hj).
    unfold pay. rewrite bind_run. unfold captureBatchImageBalanceHold. rewrite (capture_command job Hpay), bind_run.
    unfold onBilling, CaptureBatchImageBalance. destruct (capture_run _ Hf) as (x & d1 & -> & Hd). cbn [fst snd]. unfold mret at 1, ST_ret. unfold mret at 1. cbn [fst snd].
    rewrite bind_ok_eq, (pay_id _ Hpay). set (s1 := { s with billing_db := d1 }).
    assert (H1 : pending n s1 /\ paid (billing_db s1)).
    { subst s1. destruct s as [bd js its evs nj]. split; [|done]. constructor; simpl; [|done|by right]. by exists job. }
    clearbody s1. destruct (markSettled_run n s1 now (Some (now + retention)) (proj1 H1) (proj2 H1)) as (s2 & E2 & Hs2).
    change ((mret (Ok ()) : method unit) (s1, [])).2 with (s1, @nil fault).
    unfold MarkBatchImageJobSettled. rewrite (inTx_run _ _ _ _ _ E2 eq_refl). unfold mret, ST_ret. eexists _, s2. split; [done|]. split; [done|]. by right.
  - pose proof Hs as [(job & Hj & Hst & Ha) _ _]. unfold Settle. rewrite bind_ok_eq, (getJob_run _ _ _ Hj). cbv zeta. rewrite Hst, String.eqb_refl.
    eexists _, s. split; [done|]. split; [done|]. by left.
Qed.

(** [Settle] under each of the fault schedules. *)
Definition attempt (retention : duration) (s : store) (a : time * list fault) : store := (Settle b retention a.1 (s, a.2)).2.1.

(** C6: A batch is paid for exactly once: from a batch that is to be settled, up to four attempts,
    each meeting any faults of the database (a COMMIT may fail and yet have taken effect), leave it
    to be settled or settled, and an attempt without faults then settles it: the job is completed with
    its cost, the cost is charged to the held amount and the rest is returned, and no other job or
    user is touched.  Settling it again changes nothing. *)
Theorem paid_exactly_once retention (attempts : list (time * list fault)) now s0 :
  pending 0 s0 -> billing_db s0 = d0 -> Z.of_nat (length attempts) <= 4 ->
  exists res s', Settle b retention now (foldl (attempt retention) s0 attempts, []) = (Ok res, (s', [])) /\
    (exists job, jobs s' !! b = Some job /\ job_Status job = BatchImageJobStatusCompleted /\ ActualCost job = Some stored) /\
    delete b (jobs s') = delete b (jobs s0) /\
    users (billing_db s') = <[uid := mkUser (balance u0 + quanta hold - quanta cost) (frozen_balance u0 - quanta hold)]> (users d0) /\
    (AlreadySettled res = false -> s_ActualCost res = cost) /\
    forall now' fs r s2 fs2, Settle b retention now' (s', fs) = (r, (s2, fs2)) -> s2 = s'.
Proof.
  intros Hp Hd Hl. pose proof Hp as [_ Ho _].
  assert (H : pending (Z.of_nat (length attempts)) (foldl (attempt retention) s0 attempts) \/ settled (foldl (attempt retention) s0 attempts)).
  { clear Hd. induction attempts as [|[t fs] l IH] using rev_ind; [by left|]. rewrite length_app in *. simpl in Hl.
    rewrite foldl_app. cbn [foldl]. unfold attempt at 1 3. cbn [fst snd].
    destruct (Settle b retention t (foldl (attempt retention) s0 l, fs)) as [r [s' fs']] eqn:E. cbn [snd fst].
    destruct IH as [IH|IH]; [lia| |].
    - apply (settle_step _ _ (Z.of_nat (length l))) in E; [|done|lia]. by rewrite Nat2Z.inj_add.
    - apply settled_step in E; [|done]. right. by subst s'. }
  destruct (settle_last retention now _ _ H) as (res & s' & E & Hs & Hres); [lia|]. exists res, s'. split; [exact E|].
  pose proof Hs as [Hj Ho' [Hu _]]. split; [exact Hj|]. split; [by rewrite Ho', Ho|]. split.
  { rewrite Hu. unfold paidUsers, afterCapture, shift. f_equal. f_equal; lia. }
  split; [|intros ? ? ? ? ?; by apply settled_step]. destruct Hres as [[-> _]|[_ Hc]]; [done|by intros _].
Qed.
End Paying.
End Settlement.
