(* ===== verification/BatchLife.v ===== *)
(** * The life of an image batch

    What every operation on the jobs keeps, whatever the database does: the terms
    of a batch stay as they were made, its status moves along the transitions of
    [CanTransitionBatchImageJob], times that are set stay, and the cost of a job
    that ended is fixed.  The hold of a batch that failed or was cancelled is
    returned exactly once. *)

From S2P Require Import Prelude Json Float64 Errors Sha256 Subscription SubscriptionRepo AccountQuota Account.
From S2P Require Import UsageBilling UsageLedger JsonValue BatchJobs BatchIndex BatchSettlement.

Local Abbreviation world := (store * list fault)%type.
Local Abbreviation method A := (ST world (result goerror A)).

(** ** What a job keeps *)

Definition terms (job : BatchImageJob) :=
  (job_ID job, BatchID job, job_UserID job, job_APIKeyID job, job_AccountID job, (Provider job, job_Model job, ItemCount job),
   (job_TaskName job, job_ParentBatchID job, job_IdempotencyKey job, RequestHash job, job_SessionID job),
   (EstimatedCost job, job_HoldAmount job, HoldID job, Currency job, PricingSnapshotVersion job),
   (BaseUnitPrice job, GroupRateMultiplier job, AccountRateMultiplier job, BatchDiscountMultiplier job, HoldMultiplier job),
   (BillableUnitPrice job, HoldUnitPrice job)).
Definition legal : string -> string -> Prop := rtc (fun a b => CanTransitionBatchImageJob a b = true).
Definition stays {A} (a a' : option A) : Prop := forall t, a = Some t -> a' = Some t.
Record follows (job job' : BatchImageJob) : Prop := {
  fl_terms : terms job' = terms job;
  fl_status : legal (job_Status job) (job_Status job');
  fl_cost : IsTerminalBatchImageJobStatus (job_Status job) = true -> ActualCost job' = ActualCost job /\ ManifestHash job' = ManifestHash job;
  fl_submitted : stays (SubmittedAt job) (SubmittedAt job');
  fl_finished : stays (FinishedAt job) (FinishedAt job');
  fl_settled : stays (SettledAt job) (SettledAt job');
  fl_expires : stays (OutputExpiresAt job) (OutputExpiresAt job');
  fl_version : Version job <= Version job';
  fl_retries : RetryCount job <= RetryCount job' }.
(** Every job of [s] is in [s'], and followed. *)
Definition keeps (s s' : store) : Prop :=
  forall b job, jobs s !! b = Some job -> exists job', jobs s' !! b = Some job' /\ follows job job'.

Lemma stays_refl {A} (a : option A) : stays a a.
Proof. by intros t. Qed.
Lemma stays_trans {A} (a b c : option A) : stays a b -> stays b c -> stays a c.
Proof. intros H1 H2 t Ht. by apply H2, H1. Qed.
Lemma stays_setIfNull {A} (a : option A) v : stays a (setIfNull a v).
Proof. by intros t ->. Qed.
Create HintDb batch.
#[export] Hint Resolve stays_refl stays_setIfNull : batch.

Lemma terminal_moves a b : CanTransitionBatchImageJob a b = true -> IsTerminalBatchImageJobStatus a = true -> b = BatchImageJobStatusOutputDeleted.
Proof.
  unfold CanTransitionBatchImageJob. destruct (_ || _); [done|]. intros H Ht. rewrite Ht in H.
  apply andb_true_iff in H as [H _]. apply andb_true_iff in H as [H _]. by apply String.eqb_eq.
Qed.
Lemma legal_terminal a b : legal a b -> IsTerminalBatchImageJobStatus a = true -> IsTerminalBatchImageJobStatus b = true.
Proof. induction 1 as [|a b c H _ IH]; [done|]. intros Ht. apply IH. by rewrite (terminal_moves _ _ H Ht). Qed.

#[export] Instance follows_preorder : PreOrder follows.
Proof.
  split.
  - intros job. constructor; auto with batch; [reflexivity|lia|lia].
  - intros a b c [A1 A2 A3 A4 A5 A6 A7 A8 A9] [B1 B2 B3 B4 B5 B6 B7 B8 B9]. constructor; try (by eapply stays_trans; eauto); try lia.
    + by rewrite B1.
    + unfold legal in *. by etransitivity.
    + intros Ht. destruct (A3 Ht) as [<- <-]. apply B3. by eapply legal_terminal.
Qed.
#[export] Instance keeps_preorder : PreOrder keeps.
Proof.
  split.
  - intros s b job Hj. by exists job.
  - intros s1 s2 s3 H1 H2 b job Hj. destruct (H1 _ _ Hj) as (job2 & Hj2 & F). destruct (H2 _ _ Hj2) as (job3 & Hj3 & F').
    exists job3. split; [done|]. by etransitivity.
Qed.
Lemma keeps_jobs s s' : jobs s' = jobs s -> keeps s s'.
Proof. intros E b job Hj. exists job. by rewrite E. Qed.
Lemma keeps_update b cond f s : (forall job, jobs s !! b = Some job -> cond job = true -> follows job (f job)) ->
  keeps s (stmt_updateJob b cond f s).2.
Proof.
  intros Hf. unfold stmt_updateJob. destruct (jobs s !! b) as [job|] eqn:E; [|done]. destruct (cond job) eqn:Ec; [|done].
  intros b' j Hj. destruct s as [bd js its evs nj]. simpl in *. destruct (decide (b' = b)) as [->|].
  - rewrite E in Hj. injection Hj as <-. exists (f job). rewrite lookup_insert_eq. auto.
  - exists j. by rewrite lookup_insert_ne.
Qed.

(** ** What a method keeps *)

Definition keepsAt {A} (s : store) (m : ST world A) : Prop := forall fs, keeps s (m (s, fs)).2.1.
Definition keeping {A} (m : ST world A) : Prop := forall s, keepsAt s m.

Lemma keepsAt_bind {A B} s (m : ST world A) (f : A -> ST world B) : keepsAt s m -> (forall a, keeping (f a)) -> keepsAt s (m ≫= f).
Proof.
  intros Hm Hf fs. rewrite bind_run. specialize (Hm fs). destruct (m (s, fs)) as [a [s1 fs1]]. simpl in *. etransitivity; [exact Hm|apply Hf].
Qed.
Lemma keepsAt_bind_ok {A B} s (m : method A) (f : A -> method B) : keepsAt s m -> (forall a, keeping (f a)) -> keepsAt s (x ←? m; f x).
Proof. intros Hm Hf. apply keepsAt_bind; [done|]. intros [a|e]; [apply Hf|]. by intros s' fs. Qed.
Lemma keepsAt_ret {A} s (a : A) : keepsAt s (mret a).
Proof. by intros fs. Qed.
Lemma keepsAt_query {A} s (m : ST store (result goerror A)) : keeps s (m s).2 -> keepsAt s (query m).
Proof.
  intros Hm fs. destruct (query m (s, fs)) as [r [s' fs']] eqn:E. apply query_cases in E as [[-> _]|[-> _]]; [done|exact Hm].
Qed.
Lemma keepsAt_translated {A} s nf cf (m : method A) : keepsAt s m -> keepsAt s (translated nf cf m).
Proof. intros Hm fs. rewrite translated_run. specialize (Hm fs). by destruct (m (s, fs)) as [[] []]. Qed.
Lemma keepsAt_inTx {A} s (m : method A) : keepsAt s m -> keepsAt s (inTx m).
Proof.
  intros Hm fs. unfold inTx. remember (remote (fun s : store => (tt, s)) (s, fs)) as begun eqn:Eb.
  assert (Hd : begun.2.1 = s) by (subst; by destruct fs as [|[] fs1]).
  destruct begun as [[u|e] [s1 fs1]]; simpl in Hd; subst s1; [|done]. specialize (Hm fs1).
  destruct (m (s, fs1)) as [[a|e] [s2 fs2]]; simpl in *; [|done]. by destruct fs2 as [|[] fs3].
Qed.
Lemma keepsAt_onBilling {A} s (m : ST (db * list fault) (result goerror A)) : keepsAt s (onBilling m).
Proof. intros fs. unfold onBilling. destruct (m _) as [r [d fs']]. apply keeps_jobs. by destruct s. Qed.
Lemma keepsAt_event s b e : keepsAt s (appendBatchImageEventWithSQL b e).
Proof. apply keepsAt_query, keeps_jobs, event_jobs. Qed.
Lemma keepsAt_getJob s b : keepsAt s (GetBatchImageJobByBatchID b).
Proof. by apply keepsAt_translated, keepsAt_query. Qed.
(** A status that was read is that of the row that is updated. *)
Lemma keepsAt_selectStatus {A} s b (k : string -> method A) :
  (forall job, jobs s !! b = Some job -> keepsAt s (k (job_Status job))) -> keepsAt s (current ←? selectStatusForUpdate b; k current).
Proof.
  intros Hk fs. rewrite bind_ok_eq. unfold selectStatusForUpdate. rewrite bind_ok_eq. fold (GetBatchImageJobByBatchID b).
  destruct (GetBatchImageJobByBatchID b (s, fs)) as [[job|e] [s' fs']] eqn:E; apply getJob_cases in E as [-> E]; [|done]. by apply Hk.
Qed.
Lemma keepsAt_case {A} s (c : bool) (m m' : ST world A) : (c = true -> keepsAt s m) -> (c = false -> keepsAt s m') -> keepsAt s (if c then m else m').
Proof. destruct c; auto. Qed.

Ltac keeps_steps := cbv zeta; repeat lazymatch goal with
  | |- keeping _ => intros ?
  | |- keepsAt _ (mret _) => apply keepsAt_ret
  | |- keepsAt _ (bind_ok _ _) => apply keepsAt_bind_ok; [|intros ?]
  | |- keepsAt _ (mbind _ _) => apply keepsAt_bind; [|intros ?]
  | |- keepsAt _ (inTx _) => apply keepsAt_inTx
  | |- keepsAt _ (onBilling _) => apply keepsAt_onBilling
  | |- keepsAt _ (translated _ _ _) => apply keepsAt_translated
  | |- keepsAt _ (appendBatchImageEventWithSQL _ _) => apply keepsAt_event
  | |- keepsAt _ (AppendBatchImageEvent _ _) => apply keepsAt_event
  | |- keepsAt _ (GetBatchImageJobByBatchID _) => apply keepsAt_getJob
  | |- keepsAt _ (match ?x with _ => _ end) => destruct x eqn:?
  | |- keepsAt _ (query (stmt_updateJob _ _ _)) => apply keepsAt_query, keeps_update
  end.
Lemma legal_step a b : CanTransitionBatchImageJob a b = true -> legal a b.
Proof. intros H. eapply rtc_l; [exact H|]. reflexivity. Qed.
#[export] Hint Resolve legal_step : batch.
(** A row that is updated follows itself. *)
Ltac follow_row := constructor; simpl; try reflexivity; try (by case_match; auto with batch); auto with batch; try lia; try done.
Ltac follow := intros [] ?; simpl in *; intros ?; follow_row.

(** ** The repository *)

Lemma keeps_transition b to opts now : keeping (TransitionBatchImageJobStatus b to opts now).
Proof.
  intros s. apply keepsAt_inTx, keepsAt_selectStatus. intros job Hj. keeps_steps.
  intros job' Hj' _. rewrite Hj in Hj'. injection Hj' as <-. apply negb_false_iff in Heqb0. destruct job. simpl in *.
  follow_row.
Qed.
Lemma keeps_touch b now : keeping (TouchBatchImageJobSubmitting b now).
Proof. unfold TouchBatchImageJobSubmitting. keeps_steps. follow. Qed.
Lemma unsubmitted_cases status : oneOf status [BatchImageJobStatusCreated; BatchImageJobStatusUploading] = true ->
  IsTerminalBatchImageJobStatus status = false /\ legal status BatchImageJobStatusFailed.
Proof.
  simpl. rewrite orb_false_r. intros [H|H]%orb_true_iff; apply String.eqb_eq in H as ->; by split; [|apply legal_step].
Qed.
Lemma keeps_failStale b cutoff code message now : keeping (FailStaleUnsubmittedBatchImageJob b cutoff code message now).
Proof.
  unfold FailStaleUnsubmittedBatchImageJob. keeps_steps. intros [] _ Hc. unfold unsubmitted in Hc. simpl in *.
  apply andb_true_iff in Hc as [Hc _]. apply andb_true_iff in Hc as [Hc _]. apply unsubmitted_cases in Hc as [Hc1 Hc2].
  follow_row.
Qed.
Lemma keeps_outputRef b ref now : keeping (UpdateBatchImageJobProviderOutputRef b ref now).
Proof. unfold UpdateBatchImageJobProviderOutputRef. keeps_steps. follow. Qed.
Lemma keeps_providerSubmit params now : keeping (UpdateBatchImageJobProviderSubmit params now).
Proof.
  intros s. apply keepsAt_inTx, keepsAt_selectStatus. intros job Hj. keeps_steps.
  intros job' Hj' _. rewrite Hj in Hj'. injection Hj' as <-. apply negb_false_iff in Heqb. destruct job. simpl in *.
  follow_row.
Qed.
Lemma keeps_queueFailure b code message now : keeping (RecordBatchImageJobSubmitFailure b code message false now).
Proof. unfold RecordBatchImageJobSubmitFailure. keeps_steps. follow. Qed.
Lemma keeps_settlementFailed b code message now : keeping (SetBatchImageJobSettlementFailed b code message now).
Proof.
  unfold SetBatchImageJobSettlementFailed. keeps_steps. apply keepsAt_query.
  match goal with |- context [stmt_updateJob b anyJob ?f s] => pose proof (keeps_update b anyJob f s) as H; destruct (stmt_updateJob b anyJob f s) as [n s'] end.
  simpl in *. assert (Hk : keeps s s') by (apply H; follow). by destruct (jobs s' !! b).
Qed.
Lemma keeps_settled to_numeric params : keeping (MarkBatchImageJobSettled to_numeric params).
Proof.
  unfold MarkBatchImageJobSettled, markBatchImageJobSettledWithSQL. keeps_steps; apply keepsAt_query; [|done].
  destruct (to_numeric (set_ActualCost params)) as [cost|e]; [|done]. unfold stmt_settleJob.
  match goal with |- context [stmt_updateJob ?b ?c ?f s] => pose proof (keeps_update b c f s) as H; destruct (stmt_updateJob b c f s) as [n s'] end.
  cbv zeta. simpl in H. assert (Hk : keeps s s').
  { apply H. intros [] _ Hc. simpl in *. apply andb_true_iff in Hc as [Hc _]. apply String.eqb_eq in Hc as ->.
    follow_row. }
  destruct n as [z|e]; [|done]. destruct (decide (z = 1)) as [->|]; [by destruct (manifestTaken _ _ _)|]. by repeat case_match.
Qed.
Lemma keeps_column {A B} s (r : result goerror A) (k : A -> ST store (result goerror B)) :
  (forall a, keeps s (k a s).2) -> keeps s (column r k s).2.
Proof. intros H. unfold column. by destruct r. Qed.
Lemma keeps_create n1 n2 params newID : keeping (CreateBatchImageJob n1 n2 params newID).
Proof.
  unfold CreateBatchImageJob. keeps_steps. generalize (withDefaults params newID). clear. intros p.
  apply keepsAt_query. unfold stmt_insertJob. repeat (apply keeps_column; intros ?).
  destruct (_ || _) eqn:E; [done|]. apply orb_false_iff in E as [E _]. apply bool_decide_eq_false, eq_None_not_Some in E.
  intros b job Hj; exists job; split; [|done]; simpl in *. rewrite lookup_insert_ne; [done|congruence].
Qed.

Lemma keeps_createItem item : keeping (createBatchImageItemWithSQL item).
Proof.
  unfold createBatchImageItemWithSQL. keeps_steps. apply keepsAt_query, keeps_jobs. unfold stmt_insertItem. destruct s. by repeat case_match.
Qed.
Lemma keeps_createItems items : keeping (createItems items).
Proof. induction items as [|item items IH]; cbn [createItems]; keeps_steps; [apply keeps_createItem|apply IH]. Qed.
Lemma keeps_bulkCreate items : keeping (BulkCreateBatchImageItems items).
Proof. unfold BulkCreateBatchImageItems. keeps_steps. apply keeps_createItems. Qed.
Lemma keeps_replace b new sc fc now : keeping (ReplaceBatchImageItemsForJob b new sc fc now).
Proof.
  intros s. apply keepsAt_inTx, keepsAt_selectStatus. intros job Hj. keeps_steps.
  - by apply keepsAt_query.
  - apply keepsAt_query, keeps_jobs. by destruct s0.
  - apply keeps_createItems.
  - follow.
Qed.
Lemma keeps_pages fuel b expected offset : keeping (expectedPages fuel b expected offset).
Proof.
  revert expected offset. induction fuel as [|fuel IH]; intros expected offset; cbn [expectedPages]; keeps_steps; [|apply IH].
  unfold ListBatchImageItems. keeps_steps; by apply keepsAt_query.
Qed.
Lemma keeps_index job opened now : keeping (Index job opened now).
Proof.
  unfold Index. keeps_steps; [|apply keeps_replace]. intros fs. apply keeps_pages.
Qed.
Lemma keeps_updateAndLog b cond f missing event : (forall job, cond job = true -> follows job (f job)) ->
  keeping (updateAndLog b cond f missing event).
Proof. intros Hf. unfold updateAndLog. keeps_steps. intros job _. apply Hf. Qed.
Lemma keeps_expires b t now : keeping (SetBatchImageOutputExpiresAt b t now).
Proof. unfold SetBatchImageOutputExpiresAt. keeps_steps. follow. Qed.
Lemma keeps_cleanupFailure b code message now : keeping (RecordBatchImageCleanupFailure b code message now).
Proof. unfold RecordBatchImageCleanupFailure. keeps_steps. follow. Qed.
Lemma keeps_outputDeleted b t : keeping (MarkBatchImageOutputDeleted b t).
Proof.
  apply keeps_updateAndLog. intros [] _. simpl. destruct (String.eqb_spec job_Status BatchImageJobStatusCompleted) as [->|]; follow_row.
Qed.
#[export] Hint Resolve keeps_transition keeps_touch keeps_failStale keeps_outputRef keeps_providerSubmit keeps_queueFailure
  keeps_settlementFailed keeps_settled keeps_create keeps_bulkCreate keeps_replace keeps_index keeps_expires keeps_cleanupFailure
  keeps_outputDeleted : batch.

(** ** The services *)

Section Services.
Context {money : Money} {env : Env}.

Lemma keeps_reserve job hash : keeping (reserveBatchImageBalanceHold job hash).
Proof. unfold reserveBatchImageBalanceHold. keeps_steps. Qed.
Lemma keeps_capture job cost hash : keeping (captureBatchImageBalanceHold job cost hash).
Proof. unfold captureBatchImageBalanceHold. keeps_steps. Qed.
Lemma keeps_release job hash : keeping (releaseBatchImageBalanceHold job hash).
Proof. unfold releaseBatchImageBalanceHold. keeps_steps. Qed.
#[local] Hint Resolve keeps_reserve keeps_capture keeps_release : batch.
Ltac keeps_all := keeps_steps; match goal with |- keepsAt _ ?m => enough (keeping m) by auto; auto with batch end.

Lemma keeps_failExhausted job message now : keeping (failExhaustedSettlement job message now).
Proof. unfold failExhaustedSettlement. keeps_all. Qed.
#[local] Hint Resolve keeps_failExhausted : batch.
Lemma keeps_recordFailure job code message now : keeping (recordSettlementFailure job code message now).
Proof. unfold recordSettlementFailure. keeps_all. Qed.
#[local] Hint Resolve keeps_recordFailure : batch.
Lemma keeps_failSettlement {A} job code message err now : keeping (failSettlement (A := A) job code message err now).
Proof. unfold failSettlement. keeps_all. Qed.
#[local] Hint Resolve keeps_failSettlement : batch.
Lemma keeps_settle b retention now : keeping (Settle b retention now).
Proof. unfold Settle. keeps_all. Qed.
#[local] Hint Resolve keeps_settle : batch.
Lemma keeps_releaseTerminal job : keeping (releaseTerminalHold job).
Proof. unfold releaseTerminalHold. keeps_all. Qed.
#[local] Hint Resolve keeps_releaseTerminal : batch.
Lemma keeps_endJob job status opts now : keeping (endJob job status opts now).
Proof. unfold endJob. keeps_all. Qed.
#[local] Hint Resolve keeps_endJob : batch.
Lemma keeps_indexAndSettle job opened now : keeping (indexAndSettle job opened now).
Proof. unfold indexAndSettle. keeps_all. Qed.
#[local] Hint Resolve keeps_indexAndSettle : batch.
Lemma keeps_followProvider requeue job opened status now : keeping (followProvider requeue job opened status now).
Proof. unfold followProvider. keeps_all. Qed.
#[local] Hint Resolve keeps_followProvider : batch.
Lemma keeps_persistRef job ref now : keeping (persistProviderOutputRef job ref now).
Proof. unfold persistProviderOutputRef. keeps_all. Qed.
#[local] Hint Resolve keeps_persistRef : batch.
Lemma keeps_withProvider requeue b now : keeping (ProcessWithProvider requeue b now).
Proof. unfold ProcessWithProvider. keeps_all. Qed.
#[local] Hint Resolve keeps_withProvider : batch.
Lemma keeps_process retry requeue retention b now : keeping (Process retry requeue retention b now).
Proof. unfold Process. keeps_all. Qed.
Lemma keeps_releaseStale cutoff now job : keeping (releaseStale cutoff now job).
Proof. unfold releaseStale. keeps_all. Qed.
Lemma keeps_releaseStaleJobs cutoff now jobs released lastErr retry : keeping (releaseStaleJobs cutoff now jobs released lastErr retry).
Proof.
  revert released lastErr retry. induction jobs as [|job jobs IH]; intros released lastErr retry; cbn [releaseStaleJobs]; keeps_steps;
    [apply keeps_releaseStale|apply IH|apply IH|apply IH].
Qed.
Lemma keeps_recovery staleAfter limit now : keeping (ReleaseStaleUnsubmittedOnce staleAfter limit now).
Proof.
  unfold ReleaseStaleUnsubmittedOnce. keeps_steps; [|apply keeps_releaseStaleJobs]. by apply keepsAt_query.
Qed.

(** ** Histories *)

(** Every operation on the jobs. *)
Inductive operation :=
| OpCreate (params : CreateBatchImageJobParams) (newID : string)
| OpReserve (job : BatchImageJob) (hash : string)
| OpItems (items : list BatchImageItem)
| OpTransition (b to : string) (opts : BatchImageTransitionOptions)
| OpTouch (b : string)
| OpSubmitted (params : UpdateBatchImageJobProviderSubmitParams)
| OpQueueFailed (b code message : string)
| OpSubmitFailed (b code message : string)
| OpProcess (retry requeue retention : duration) (b : string)
| OpRecover (staleAfter : duration) (limit : Z)
| OpRelease (job : BatchImageJob)
| OpInputDeleted (b : string) | OpOutputDeleted (b : string) | OpDownloaded (b : string)
| OpUserDeleted (user key : Z) (b : string)
| OpExpires (b : string) (t : time)
| OpCleanupFailed (b code message : string).
Definition ignored {A} (m : ST world A) : ST world unit := _ ← m; mret tt.
Definition operate (op : operation) (now : time) : ST world unit :=
  match op with
  | OpCreate params newID => ignored (CreateBatchImageJob numeric2010 numeric104 params newID)
  | OpReserve job hash => ignored (reserveBatchImageBalanceHold job hash)
  | OpItems items => ignored (BulkCreateBatchImageItems items)
  | OpTransition b to opts => ignored (TransitionBatchImageJobStatus b to opts now)
  | OpTouch b => ignored (TouchBatchImageJobSubmitting b now)
  | OpSubmitted params => ignored (UpdateBatchImageJobProviderSubmit params now)
  | OpQueueFailed b code message => ignored (RecordBatchImageJobSubmitFailure b code message false now)
  | OpSubmitFailed b code message => ignored (RecordBatchImageJobSubmitFailure b code message true now)
  | OpProcess retry requeue retention b => ignored (Process retry requeue retention b now)
  | OpRecover staleAfter limit => ignored (ReleaseStaleUnsubmittedOnce staleAfter limit now)
  | OpRelease job => ignored (releaseTerminalHold job)
  | OpInputDeleted b => ignored (MarkBatchImageInputDeleted b now)
  | OpOutputDeleted b => ignored (MarkBatchImageOutputDeleted b now)
  | OpDownloaded b => ignored (MarkBatchImageDownloaded b now)
  | OpUserDeleted user key b => ignored (MarkBatchImageJobUserDeleted user key b now)
  | OpExpires b t => ignored (SetBatchImageOutputExpiresAt b t now)
  | OpCleanupFailed b code message => ignored (RecordBatchImageCleanupFailure b code message now)
  end.
Definition history : Type := list (operation * time * list fault).
Definition lived (s : store) (h : history) : store := foldl (fun s '(op, now, fs) => (operate op now (s, fs)).2.1) s h.

Lemma keeps_ignored {A} (m : ST world A) : keeping m -> keeping (ignored m).
Proof. intros Hm. unfold ignored. keeps_steps. apply Hm. Qed.
Lemma legal_ended a b : legal a b -> IsTerminalBatchImageJobStatus a = true -> b = a \/ b = BatchImageJobStatusOutputDeleted.
Proof.
  induction 1 as [a|a c b H _ IH]; [by left|]. intros Ht. pose proof (terminal_moves _ _ H Ht) as ->. right. by destruct IH.
Qed.

(** The failure of a submission is recorded whatever the status is by then. *)
Definition submitFails (b : string) (op : operation) : Prop := match op with OpSubmitFailed b' _ _ => b' = b | _ => False end.
Definition failedSubmits (b : string) (h : history) : Prop := Exists (fun x => submitFails b x.1.1) h.
(** What a job keeps when [late] failures may be recorded. *)
Record endures (late : Prop) (job job' : BatchImageJob) : Prop := {
  en_terms : terms job' = terms job;
  en_status : legal (job_Status job) (job_Status job') \/ late /\ IsTerminalBatchImageJobStatus (job_Status job') = true;
  en_ended : IsTerminalBatchImageJobStatus (job_Status job) = true -> ActualCost job' = ActualCost job /\
    (job_Status job' = job_Status job \/ job_Status job' = BatchImageJobStatusOutputDeleted \/ late /\ job_Status job' = BatchImageJobStatusFailed);
  en_times : stays (SubmittedAt job) (SubmittedAt job') /\ stays (FinishedAt job) (FinishedAt job') /\ stays (SettledAt job) (SettledAt job');
  en_counters : Version job <= Version job' /\ RetryCount job <= RetryCount job' }.
Lemma endures_refl late job : endures late job job.
Proof. constructor; auto with batch; [left; reflexivity|lia]. Qed.
Lemma endures_follows late job1 job2 job3 : endures late job1 job2 -> follows job2 job3 -> endures late job1 job3.
Proof.
  intros [A1 A2 A3 (A4 & A5 & A6) [A7 A8]]; intros [B1 B2 B3 B4 B5 B6 _ B7 B8]. constructor; [congruence| | |split_and!; by eapply stays_trans|lia].
  - destruct A2 as [A2|[Hl Ht]]; [left; unfold legal in *; by etransitivity|right; split; [done|by eapply legal_terminal]].
  - intros Ht. destruct (A3 Ht) as [Ec Hs].
    assert (Ht2 : IsTerminalBatchImageJobStatus (job_Status job2) = true) by (destruct Hs as [->| [->| [_ ->]]]; done).
    destruct (B3 Ht2) as [Ec2 _]. split; [congruence|]. destruct (legal_ended _ _ B2 Ht2) as [->| ->]; auto.
Qed.
(** A recorded failure. *)
Definition failJob (code message : string) (now : time) (job : BatchImageJob) : BatchImageJob :=
  { job with job_Status := BatchImageJobStatusFailed; LastErrorCode := Some code; LastErrorMessage := Some message;
             FinishedAt := setIfNull (FinishedAt job) (Some now); job_UpdatedAt := now; Version := Version job + 1 }.
Lemma endures_failed (late late' : Prop) job1 job2 code message now : (late -> late') -> late' -> endures late job1 job2 -> endures late' job1 (failJob code message now job2).
Proof.
  intros Hw Hl [A1 A2 A3 (A4 & A5 & A6) [A7 A8]]. destruct job2. constructor; simpl in *; [done|by right|intros Ht; destruct (A3 Ht); auto| |lia].
  split_and!; [done| |done]. eapply stays_trans; [exact A5|auto with batch].
Qed.
Lemma endures_late (late late' : Prop) job1 job2 : (late -> late') -> endures late job1 job2 -> endures late' job1 job2.
Proof. intros Hw [A1 A2 A3 A4 A5]. constructor; [done|tauto|intros Ht; destruct (A3 Ht); tauto|done|done]. Qed.

Lemma submitFailure_rows b code message now s fs : let s' := (RecordBatchImageJobSubmitFailure b code message true now (s, fs)).2.1 in
  jobs s' = jobs s \/ jobs s' = alter (failJob code message now) b (jobs s).
Proof.
  cbv zeta. unfold RecordBatchImageJobSubmitFailure. rewrite bind_ok_eq. destruct (query _ (s, fs)) as [r [s1 fs1]] eqn:E.
  assert (H1 : jobs s1 = jobs s \/ jobs s1 = alter (failJob code message now) b (jobs s)).
  { apply query_cases in E as [[-> _]|[-> _]]; [by left|]. unfold stmt_updateJob. destruct (jobs s !! b) as [job|] eqn:Ej; [|by left].
    right. destruct s as [bd js its evs nj]. simpl in *. apply map_eq. intros b'. destruct (decide (b' = b)) as [->|].
    - by rewrite lookup_insert_eq, lookup_alter_eq, Ej.
    - by rewrite lookup_insert_ne, lookup_alter_ne. }
  destruct r as [n|e]; [|exact H1]. unfold appendBatchImageEventWithSQL.
  destruct (query _ (s1, fs1)) as [r2 [s2 fs2]] eqn:E2. apply query_cases in E2 as [[-> _]|[-> _]]; [exact H1|]. destruct (event_jobs b "submit_failed" s1) as [Ev _]. cbn [fst snd]. by rewrite Ev.
Qed.
(** An operation that records no failure of a submission keeps the jobs. *)
Lemma keeps_operate op now : (forall b, ~ submitFails b op) -> keeping (operate op now).
Proof.
  intros Hn. destruct op; try (by destruct (Hn b)); apply keeps_ignored; auto with batch;
    first [apply keeps_process|apply keeps_recovery|apply keeps_updateAndLog; intros [] _; simpl; follow_row].
Qed.
Lemma failedSubmits_snoc b h op now fs : failedSubmits b (h ++ [(op, now, fs)]) <-> failedSubmits b h \/ submitFails b op.
Proof. unfold failedSubmits. rewrite Exists_app, Exists_cons, Exists_nil. simpl. tauto. Qed.
Lemma endures_lived s h b job : jobs s !! b = Some job -> exists job', jobs (lived s h) !! b = Some job' /\ endures (failedSubmits b h) job job'.
Proof.
  intros Hj. induction h as [|[[op now] fs] h (job2 & Hj2 & He)] using rev_ind; [exists job; split; [done|apply endures_refl]|].
  unfold lived. rewrite foldl_app. cbn [foldl]. fold (lived s h). set (s2 := lived s h) in *.
  assert (Hlate : failedSubmits b h -> failedSubmits b (h ++ [(op, now, fs)])) by (intros H; apply failedSubmits_snoc; by left).
  assert (Hother : (forall b, ~ submitFails b op) -> exists job', jobs (operate op now (s2, fs)).2.1 !! b = Some job' /\ endures (failedSubmits b (h ++ [(op, now, fs)])) job job').
  { intros Hn. destruct (keeps_operate op now Hn s2 fs b job2 Hj2) as (job3 & Hj3 & Hf). exists job3. split; [done|].
    eapply endures_late; [exact Hlate|]. by eapply endures_follows. }
  destruct op; try (apply Hother; by intros ? []). clear Hother. cbn [operate]. unfold ignored. rewrite bind_run.
  pose proof (submitFailure_rows b0 code message now s2 fs) as Hr. destruct (RecordBatchImageJobSubmitFailure _ _ _ _ _ _) as [x [s3 fs3]]. cbn [fst snd mret ST_ret] in *.
  destruct (decide (b0 = b)) as [->|Hne].
  - destruct Hr as [->| ->]; [exists job2; split; [done|by eapply endures_late]|]. rewrite lookup_alter_eq, Hj2. eexists. split; [done|].
    eapply endures_failed; [exact Hlate| |exact He]. apply failedSubmits_snoc. by right.
  - exists job2. split; [|by eapply endures_late]. destruct Hr as [->| ->]; [done|]. by rewrite lookup_alter_ne.
Qed.

(** C13: Whatever is done to the image batches, under any faults of the database, the terms of a batch
    (owner, key, account, provider, model, items, hold and price) stay as they were made; its status
    moves along the allowed transitions, and a batch that is completed, failed or cancelled stays so but
    for the deletion of its output, with the same cost; the times of its submission, end and settlement
    are written once; and its version and retry counter never fall.  Only the failure of its submission,
    recorded late, makes a batch failed against the transitions, also one that ended; it stays ended. *)
Theorem batch_keeps_terms s h b job : jobs s !! b = Some job ->
  exists job', jobs (lived s h) !! b = Some job' /\ terms job' = terms job /\
    (legal (job_Status job) (job_Status job') \/ failedSubmits b h /\ IsTerminalBatchImageJobStatus (job_Status job') = true) /\
    (IsTerminalBatchImageJobStatus (job_Status job) = true -> ActualCost job' = ActualCost job /\
       (job_Status job' = job_Status job \/ job_Status job' = BatchImageJobStatusOutputDeleted \/
        failedSubmits b h /\ job_Status job' = BatchImageJobStatusFailed)) /\
    stays (SubmittedAt job) (SubmittedAt job') /\ stays (FinishedAt job) (FinishedAt job') /\ stays (SettledAt job) (SettledAt job') /\
    Version job <= Version job' /\ RetryCount job <= RetryCount job'.
Proof.
  intros Hj. destruct (endures_lived s h b job Hj) as (job' & Hj' & [A1 A2 A3 (A4 & A5 & A6) [A7 A8]]). exists job'. by split_and!.
Qed.
End Services.

(** ** The hold of a batch that ended without images *)

Section Returning.
Context {money : Money} {env : Env}.
Context (job : BatchImageJob) (key : Z) (u0 : userRow) (d0 : db).

(** The job ended as failed or cancelled, its hold was taken and is still frozen. *)
Record returnable : Prop := {
  ret_status : job_Status job = BatchImageJobStatusFailed \/ job_Status job = BatchImageJobStatusCancelled;
  ret_key : job_APIKeyID job = Some key /\ 0 < key;
  ret_hold : positive (holdOf job) = true;
  ret_scale : toDecimal (holdOf job) mod perQuantum = 0;
  ret_id : str_forallb graphic (BatchID job) = true;
  ret_taken : is_Some (claims d0 !! ((BatchImageHoldRequestID (BatchID job), key) : claimKey));
  ret_fresh : claims d0 !! ((BatchImageReleaseRequestID (BatchID job), key) : claimKey) = None;
  ret_user : users d0 !! job_UserID job = Some u0;
  ret_covers : covers (frozen_balance u0) (holdOf job) = true;
  ret_fits : fits (balance u0 + quanta (holdOf job)) = true /\ fits (frozen_balance u0 - quanta (holdOf job)) = true }.
Context (ret : returnable).

Definition releaseCommand : BatchImageBalanceHoldCommand :=
  mkHold (BatchImageReleaseRequestID (BatchID job)) key "" (TrimSpace (batchImageDerefString (RequestHash job))) (job_UserID job) (BatchID job)
    (holdOf job) fzero.
Lemma release_command :
  buildBatchImageHoldCommand job (BatchImageReleaseRequestID (BatchID job)) fzero (batchImageDerefString (RequestHash job)) = Ok releaseCommand.
Proof.
  destruct ret as [_ [Hk Hp] Hh _ _ _ _ _ _ _]. unfold buildBatchImageHoldCommand. rewrite Hk. destruct (Z.leb_spec key 0); [lia|].
  by destruct (positive_not _ Hh) as [-> _].
Qed.
Lemma release_id : TrimSpace (BatchImageReleaseRequestID (BatchID job)) = BatchImageReleaseRequestID (BatchID job).
Proof.
  apply TrimSpace_graphic. unfold BatchImageReleaseRequestID. rewrite TrimSpace_graphic by apply ret.
  pose proof (ret_id ret) as H. revert H. generalize (BatchID job). intros s H. exact H.
Qed.
Definition returned (u : userRow) : userRow := shift (- quanta (holdOf job)) (- quanta (holdOf job)) u.
(** Before and after the hold was returned. *)
Definition stillHeld (d : db) : Prop := users d = users d0 /\ claims d = claims d0.
Definition givenBack (d : db) : Prop :=
  users d = <[job_UserID job := returned u0]> (users d0) /\ claims d !! holdKey releaseCommand = Some (holdFingerprint releaseCommand).

Lemma release_effect d : users d = users d0 -> claims d !! ((BatchImageHoldRequestID (BatchID job), key) : claimKey) = claims d0 !! ((BatchImageHoldRequestID (BatchID job), key) : claimKey) ->
  exists r d', holdEffects Release (NormalizeHold releaseCommand) (d, []) = (Ok r, (d', [])) /\
    users d' = <[job_UserID job := returned u0]> (users d0) /\ claims d' = claims d.
Proof.
  intros Hu Hc. destruct (NormalizeHold_amounts releaseCommand) as (E1 & E2 & E3). cbn [holdEffects]. unfold releaseUsageBillingBatchImageBalance.
  cbv zeta. rewrite E1, E3. pose proof (f_equal snd (NormalizeHold_fields releaseCommand)) as Ek. cbn [snd] in Ek.
  assert (Eb : h_BatchID (NormalizeHold releaseCommand) = BatchID job).
  { transitivity (TrimSpace (BatchID job)); [unfold NormalizeHold; by case_match|apply TrimSpace_graphic, ret]. }
  rewrite Ek, Eb. cbn [releaseCommand HoldAmount h_UserID h_APIKeyID]. destruct ret as [_ _ Hh Hs _ Ht _ Hus Hcov [F1 F2]].
  destruct (positive_not _ Hh) as [_ ->]. rewrite bind_ok_eq, holdClaimExists_run, Hc, bool_decide_true by done. cbn [negb].
  assert (Er : mkUser (UsageBilling.store (balance u0 * perQuantum + toDecimal (holdOf job)))
                      (UsageBilling.store (frozen_balance u0 * perQuantum - toDecimal (holdOf job))) = returned u0).
  { unfold returned, shift, quanta. rewrite store_quanta, store_quanta_sub by done. f_equal; lia. }
  rewrite (moveFunds_run _ _ _ _ _ u0); rewrite ?Hu, ?Er; try done.
  - eexists _, _. split; [done|]. split; [done|]. by destruct d.
  - unfold returned, shift. simpl. by rewrite Z.sub_opp_r.
Qed.
Lemma keys_differ : holdKey releaseCommand <> ((BatchImageHoldRequestID (BatchID job), key) : claimKey).
Proof.
  unfold holdKey, releaseCommand. cbn [h_RequestID h_APIKeyID]. rewrite release_id. intros E. apply (f_equal fst) in E. simpl in E. discriminate.
Qed.
Lemma release_cases d fs r d' fs' : stillHeld d \/ givenBack d -> applyBatchImageBalanceHold Release releaseCommand (d, fs) = (r, (d', fs')) ->
  d' = d \/ givenBack d'.
Proof.
  intros Hd H. apply hold_cases in H as [[-> Hr]|(Hc & a & He)]; [by left|]. right.
  destruct Hd as [[Hu Hcl]|[_ Hp]]; [|by rewrite Hp in Hc].
  destruct (release_effect (addClaim (holdKey releaseCommand) (holdFingerprint releaseCommand) d)) as (r2 & d2 & E & E1 & E2); [done| |].
  - rewrite claims_add, lookup_insert_ne, Hcl; [done|]. apply keys_differ.
  - rewrite E in He. injection He as _ ->. split; [done|]. rewrite E2, claims_add. apply lookup_insert_eq.
Qed.
Lemma release_run d : stillHeld d \/ givenBack d -> exists r d', applyBatchImageBalanceHold Release releaseCommand (d, []) = (Ok r, (d', [])) /\ givenBack d'.
Proof.
  assert (Hid : TrimSpace (h_RequestID releaseCommand) <> "") by (cbn [releaseCommand h_RequestID]; by rewrite release_id).
  intros [[Hu Hcl]|Hg].
  - destruct (release_effect (addClaim (holdKey releaseCommand) (holdFingerprint releaseCommand) d)) as (r2 & d2 & E & E1 & E2); [done| |].
    { rewrite claims_add, lookup_insert_ne, Hcl; [done|]. apply keys_differ. }
    assert (Hc : claims d !! holdKey releaseCommand = None).
    { rewrite Hcl. unfold holdKey, releaseCommand. cbn [h_RequestID h_APIKeyID]. rewrite release_id. apply ret. }
    destruct (hold_new Release releaseCommand _ _ _ Hid Hc E) as [r Hr]. exists r, d2. split; [done|]. split; [done|]. rewrite E2, claims_add. apply lookup_insert_eq.
  - exists noHold, d. split; [|done]. apply hold_again; [done|apply Hg].
Qed.

(** The pipeline on a job that ended only releases its hold. *)
Lemma Process_ended retry requeue retention now s fs : jobs s !! BatchID job = Some job ->
  Process retry requeue retention (BatchID job) now (s, fs) =
    match GetBatchImageJobByBatchID (BatchID job) (s, fs) with
    | (Err e, w) => (Err e, w)
    | (Ok _, w) => match GetBatchImageJobByBatchID (BatchID job) w with
                   | (Err e, w) => (Err e, w)
                   | (Ok _, w) => (_ ←? (r ← onBilling (applyBatchImageBalanceHold Release releaseCommand);
                                         mret (match r with Ok _ => Ok tt | Err e => if errors_Is e ErrUsageBillingRequestConflict then Ok tt
                                               else Err (AppErr (WithCause ErrBatchImageBillingHoldFailed (Some e))) end)); mret terminal) w
                   end
    end.
Proof.
  intros Hj. unfold Process. rewrite bind_ok_eq.
  destruct (GetBatchImageJobByBatchID (BatchID job) (s, fs)) as [[job1|e] [s1 fs1]] eqn:E; [|done]. apply getJob_cases in E as [-> E].
  rewrite Hj in E. injection E as <-.
  assert (Hst : String.eqb (job_Status job) BatchImageJobStatusSettling = false /\ isBatchImageProcessorDoneStatus (job_Status job) = true /\
    negb (String.eqb (job_Status job) BatchImageJobStatusFailed) && negb (String.eqb (job_Status job) BatchImageJobStatusCancelled) = false)
    by (by destruct (ret_status ret) as [-> | ->]).
  destruct Hst as (H1 & H2 & H3). rewrite H1. unfold ProcessWithProvider. rewrite bind_ok_eq.
  destruct (GetBatchImageJobByBatchID (BatchID job) (s, fs1)) as [[job2|e] [s2 fs2]] eqn:E; [|done]. apply getJob_cases in E as [-> E].
  rewrite Hj in E. injection E as <-. rewrite H2. unfold releaseTerminalHold. rewrite H3. unfold releaseBatchImageBalanceHold.
  rewrite release_command. change (HoldAmount releaseCommand) with (holdOf job). by destruct (positive_not _ (ret_hold ret)) as [_ ->].
Qed.
(** The other tables, and the money of [job]. *)
Definition holding (s0 s : store) : Prop :=
  jobs s = jobs s0 /\ items s = items s0 /\ events s = events s0 /\ (stillHeld (billing_db s) \/ givenBack (billing_db s)).
Lemma holding_step retry requeue retention now s0 s fs r s' fs' : jobs s0 !! BatchID job = Some job -> holding s0 s ->
  Process retry requeue retention (BatchID job) now (s, fs) = (r, (s', fs')) -> holding s0 s' /\ (givenBack (billing_db s) -> s' = s).
Proof.
  intros Hj (E1 & E2 & E3 & Hd). rewrite Process_ended by (by rewrite E1).
  destruct (GetBatchImageJobByBatchID (BatchID job) (s, fs)) as [[job1|e] [s1 fs1]] eqn:E; apply getJob_cases in E as [-> E]; [|by intros [= _ <- _]].
  destruct (GetBatchImageJobByBatchID (BatchID job) (s, fs1)) as [[job2|e] [s2 fs2]] eqn:E'; apply getJob_cases in E' as [-> E']; [|by intros [= _ <- _]].
  rewrite bind_ok_eq, bind_run. unfold onBilling. destruct (applyBatchImageBalanceHold _ _ _) as [c [d1 fs3]] eqn:Ea.
  assert (Hg : givenBack (billing_db s) -> d1 = billing_db s).
  { intros [_ Hg]. apply hold_cases in Ea as [[-> _]|[Hn _]]; [done|]. by rewrite Hg in Hn. }
  apply release_cases in Ea; [|done]. intros H. assert (Es : s' = { s with billing_db := d1 }).
  { revert H. destruct c as [x|e0]; unfold mret, ST_ret; simpl; [|destruct (errors_Is _ _)]; by intros [= _ <- _]. }
  subst s'. split; [|intros Hgb; rewrite (Hg Hgb); by destruct s].
  destruct s as [bd js its evs nj]. simpl in *. split_and!; [done|done|done|]. destruct Ea as [->|Ea]; [done|by right].
Qed.

(** C7: The hold of a batch that failed or was cancelled is returned to its user exactly once: after
    any runs of the pipeline, each meeting any faults of the database, a run without faults ends the
    batch with the whole hold moved from the frozen funds to the balance, no other user and no job
    touched; and further runs, with or without faults, change nothing. *)
Theorem hold_returned_once retry requeue retention (runs : list (time * list fault)) now s0 :
  jobs s0 !! BatchID job = Some job -> billing_db s0 = d0 ->
  let once s (a : time * list fault) := (Process retry requeue retention (BatchID job) a.1 (s, a.2)).2.1 in
  exists s', Process retry requeue retention (BatchID job) now (foldl once s0 runs, []) = (terminal, (s', [])) /\
    users (billing_db s') =
      <[job_UserID job := mkUser (balance u0 + quanta (holdOf job)) (frozen_balance u0 - quanta (holdOf job))]> (users d0) /\
    jobs s' = jobs s0 /\ items s' = items s0 /\
    forall now' fs, once s' (now', fs) = s'.
Proof.
  intros Hj Hd once. assert (H : holding s0 (foldl once s0 runs)).
  { induction runs as [|[t fs] l IH] using rev_ind; [split_and!; try done; left; simpl; by rewrite Hd|]. rewrite foldl_app. cbn [foldl]. unfold once at 1.
    cbn [fst snd]. destruct (Process _ _ _ _ t _) as [r [s' fs']] eqn:E. by apply (holding_step _ _ _ _ s0) in E as [E _]. }
  set (s := foldl once s0 runs) in *. destruct H as (E1 & E2 & E3 & Hh).
  destruct (release_run _ Hh) as (r & d' & Er & Hg). exists { s with billing_db := d' }.
  assert (Hj' : jobs s !! BatchID job = Some job) by (by rewrite E1). split.
  { rewrite (Process_ended _ _ _ _ _ _ Hj'), (getJob_run _ _ _ Hj'), (getJob_run _ _ _ Hj'), bind_ok_eq, bind_run.
    unfold onBilling. by rewrite Er. }
  assert (Hg' : holding s0 { s with billing_db := d' } /\ billing_db { s with billing_db := d' } = d')
    by (destruct s; split; [split_and!; [done|done|done|by right]|done]).
  destruct Hg' as [(F1 & F2 & F3 & F4) F5]. split.
  { rewrite F5, (proj1 Hg). unfold returned, shift. f_equal. f_equal; lia. }
  split; [done|]. split; [done|]. intros now' fs. unfold once. cbn [fst snd].
  destruct (Process _ _ _ _ now' _) as [q [s2 fs2]] eqn:E. apply (holding_step _ _ _ _ s0) in E as [_ E]; [|done|by split_and!].
  apply E. by rewrite F5.
Qed.
End Returning.

(** ** A batch of three images *)

#[local] Existing Instance dyadicMoney.
Definition demoEnv : Env := {|
  account := unit; ProviderRegistry := fun _ => None; ResolveBatchImageAccount := fun _ => Ok tt;
  BatchImageUnitPrice := fun _ => Ok fone; numeric2010 := fun f => Ok f; numeric104 := fun f => Ok f; errorText := fun _ => "error" |}.
#[local] Existing Instance demoEnv.
(** Held for 1 USD, at half a USD per image; one image was made. *)
Definition demoJob (status : string) (successCount failCount : Z) : BatchImageJob :=
  mkJob 1 "imgbatch_1" 1 (Some 7) (Some 3) BatchImageProviderGeminiAPI "imagen" "task" None status (Some "batches/1") None (Some "files/1")
    None None 3 successCount failCount 0 fone (Some fone) None fone fone fone fhalf fhalf fhalf fhalf 1 "USD" None None (Some "hash") None None 0 0
    None None None None None None None 0 0 None None None None.
Definition demoUser : userRow := mkUser (4 * 10 ^ 8) (10 ^ 8).
Definition demoFunds : db :=
  mkDB {[1 := demoUser]} ∅ ∅ (SubscriptionRepo.mkTable ∅ 1 ∅ 0) {[(("batch_image_hold:imgbatch_1", 7) : claimKey) := mkClaim "fp" 0]} ∅ ∅ 0.
Definition demoBatches (job : BatchImageJob) (d : db) : store := mkStore d {["imgbatch_1" := job]} ∅ ∅ 2.
Definition lost : goerror := PlainErr 345 "connection reset".
(** [n] calls that answer, and one that takes effect but does not answer. *)
Definition losesAnswer (n : nat) : list fault := repeat NoFault n ++ [FailAfter lost].

Definition demoSettling : store := demoBatches (demoJob BatchImageJobStatusSettling 1 2) demoFunds.
(** The COMMIT of the capture loses its answer; the next attempt cannot begin. *)
Definition demoAttempts : list (time * list fault) := [(1, losesAnswer 5); (2, [FailBefore lost])].
Definition demoHash : string := Eval vm_compute in BuildBatchImageSettlementManifestHash (demoJob BatchImageJobStatusSettling 1 2).
Lemma demo_pending : pending "imgbatch_1" demoHash 7 1 fone fhalf fhalf demoFunds demoUser ∅ 0 demoSettling.
Proof.
  constructor.
  - exists (demoJob BatchImageJobStatusSettling 1 2). split; [reflexivity|]. split; [|simpl; lia].
    constructor; try (vm_compute; reflexivity); try (simpl; lia). exists 3. split; [reflexivity|lia].
  - reflexivity.
  - left. split; [reflexivity|]. vm_compute. reflexivity.
Qed.
Lemma demo_amounts : amounts "imgbatch_1" 7 fone fhalf fhalf fhalf.
Proof. constructor; try (vm_compute; reflexivity). vm_compute. discriminate. Qed.
Lemma demo_funded : funded "imgbatch_1" demoHash 7 1 fone fhalf demoFunds demoUser.
Proof. constructor; vm_compute; try reflexivity. split; reflexivity. Qed.
Lemma paid_exactly_once_witness : exists res s',
  Settle "imgbatch_1" 0 3 (foldl (attempt "imgbatch_1" 0) demoSettling demoAttempts, []) = (Ok res, (s', [])) /\
  users (billing_db s') = {[1 := mkUser (45 * 10 ^ 7) 0]}.
Proof.
  destruct (paid_exactly_once "imgbatch_1" demoHash 7 1 fone fhalf fhalf fhalf demo_amounts demoFunds demoUser demo_funded ∅
    (fun b' job H => False_ind _ (eq_ind None (fun o => match o with None => True | Some _ => False end) I _ (eq_trans (eq_sym (lookup_empty b')) H)))
    0 demoAttempts 3 demoSettling demo_pending eq_refl) as (res & s' & E & _ & _ & Hu & _).
  - simpl. lia.
  - exists res, s'. split; [exact E|]. rewrite Hu. clear. vm_compute. reflexivity.
Defined.

Definition demoFailed : store := demoBatches (demoJob BatchImageJobStatusFailed 0 0) demoFunds.
(** The first run loses the answer of the COMMIT of the release. *)
Definition demoRuns : list (time * list fault) := [(1, losesAnswer 7)].
Lemma hold_returned_once_witness : exists s',
  Process 0 0 0 "imgbatch_1" 2
    (foldl (fun s (a : time * list fault) => (Process 0 0 0 "imgbatch_1" a.1 (s, a.2)).2.1) demoFailed demoRuns, []) = (terminal, (s', [])) /\
  users (billing_db s') = {[1 := mkUser (5 * 10 ^ 8) 0]}.
Proof.
  destruct (hold_returned_once (demoJob BatchImageJobStatusFailed 0 0) 7 demoUser demoFunds) with (retry := 0) (requeue := 0) (retention := 0)
    (runs := demoRuns) (now := 2) (s0 := demoFailed) as (s' & E & Hu & _).
  - constructor; try (vm_compute; reflexivity); [by left| |by eexists|by split]. split; [reflexivity|lia].
  - reflexivity.
  - reflexivity.
  - exists s'. split; [exact E|]. rewrite Hu. clear. vm_compute. reflexivity.
Defined.

Definition demoLife : history :=
  [(OpProcess 0 0 0 "imgbatch_1", 1, []); (OpOutputDeleted "imgbatch_1", 2, []); (OpRecover 0 0, 3, [FailBefore lost])].
(** A batch that is settled, and one that was cancelled before the failure of its submission was recorded. *)
Definition demoLate : history := [(OpTransition "imgbatch_1" BatchImageJobStatusCancelled (mkTransition "job_cancelled" None None), 1, []);
  (OpSubmitFailed "imgbatch_1" "PROVIDER_SUBMIT_FAILED" "timeout", 2, [])].
Definition demoCreated : store := demoBatches (demoJob BatchImageJobStatusCreated 0 0) demoFunds.
Lemma batch_keeps_terms_witness : (exists job', jobs (lived demoSettling demoLife) !! "imgbatch_1" = Some job' /\
    terms job' = terms (demoJob BatchImageJobStatusSettling 1 2) /\ job_Status job' = BatchImageJobStatusOutputDeleted /\ SettledAt job' = Some 1) /\
  exists job', jobs (lived demoCreated demoLate) !! "imgbatch_1" = Some job' /\
    terms job' = terms (demoJob BatchImageJobStatusCreated 0 0) /\ job_Status job' = BatchImageJobStatusFailed /\ FinishedAt job' = Some 1.
Proof.
  split.
  - destruct (batch_keeps_terms demoSettling demoLife "imgbatch_1" (demoJob BatchImageJobStatusSettling 1 2) eq_refl) as (job' & Hj & Ht & _).
    exists job'. split; [exact Hj|]. split; [exact Ht|]. clear Ht. revert Hj. vm_compute. intros [= <-]. split; reflexivity.
  - destruct (batch_keeps_terms demoCreated demoLate "imgbatch_1" (demoJob BatchImageJobStatusCreated 0 0) eq_refl) as (job' & Hj & Ht & _).
    exists job'. split; [exact Hj|]. split; [exact Ht|]. clear Ht. revert Hj. vm_compute. intros [= <-]. split; reflexivity.
Defined.

(** A settlement that gives up releases the whole hold even when the capture took
    effect: the second hold of the user, of another batch, pays for it. *)
Definition demoTwoHolds : store :=
  demoBatches (demoJob BatchImageJobStatusSettling 1 2) { demoFunds with users := {[1 := mkUser (3 * 10 ^ 8) (2 * 10 ^ 8)]} }.
Definition cannotBegin : list fault := [NoFault; FailBefore lost].
Lemma given_up_after_capture :
  let s := foldl (attempt "imgbatch_1" 0) demoTwoHolds
             [(1, losesAnswer 5); (2, cannotBegin); (3, cannotBegin); (4, cannotBegin); (5, cannotBegin)] in
  users (billing_db (foldl (attempt "imgbatch_1" 0) demoTwoHolds [(1, losesAnswer 5)])) = {[1 := mkUser (35 * 10 ^ 7) (10 ^ 8)]} /\
  users (billing_db s) = {[1 := mkUser (45 * 10 ^ 7) 0]} /\
  job_Status <$> jobs s !! "imgbatch_1" = Some BatchImageJobStatusFailed.
Proof. vm_compute. repeat split. Qed.
(** A statement that fails while a batch is indexed ends the batch as failed. *)
Definition demoProvider : BatchImageProvider unit :=
  {| SupportsAccount := fun _ => true; ProviderGet := fun _ _ => Ok None; OpenResult := fun _ _ => Ok demoOutput |}.
Definition indexingEnv : Env := {|
  account := unit; ProviderRegistry := fun _ => Some demoProvider; ResolveBatchImageAccount := fun _ => Ok tt;
  BatchImageUnitPrice := fun _ => Ok fone; numeric2010 := fun f => Ok f; numeric104 := fun f => Ok f; errorText := fun _ => "error" |}.
Lemma failed_by_connection :
  let s := { demoBatches (demoJob BatchImageJobStatusIndexing 0 0) demoFunds with items := items demoStore } in
  let '(r, (s', _)) := @Process _ indexingEnv 0 0 0 "imgbatch_1" 5 (s, repeat NoFault 2 ++ [FailBefore lost]) in
  r = terminal /\ job_Status <$> jobs s' !! "imgbatch_1" = Some BatchImageJobStatusFailed /\
  LastErrorCode <$> jobs s' !! "imgbatch_1" = Some (Some "INDEX_PARSE_FAILED").
Proof. vm_compute. repeat split. Qed.
