(* ===== verification/Candidates.v ===== *)
(** * Account candidates ([service/openai_account_scheduler.go])

    The part of the account scheduler that computes: runtime statistics, the
    score of a candidate, the best [topK] of them by a bounded heap, the weighted
    random order and the order in which accounts are tried.  The clock and the
    configuration are arguments, and so are the factors that other files of the
    service compute: the quota headroom and the upstream cost of an account.
    Candidates are built from accounts that exist, so no pointer of theirs is nil. *)

From S2P Require Import Prelude Float64 Errors Subscription AccountQuota Ordering ConcurrencyCache Account.

(** ** Numbers *)

Definition clamp01 (value : float64) : float64 :=
  if SFltb value fzero then fzero else if SFltb fone value then fone else value.
Definition calcLoadSkewByMoments (sum sumSquares : float64) (count : Z) : float64 :=
  if count <=? 1 then fzero
  else
    let mean := fdiv sum (float_of_Z count) in
    let variance := fsub (fdiv sumSquares (float_of_Z count)) (fmul mean mean) in
    fsqrt (if SFltb variance fzero then fzero else variance).

(** ** Runtime statistics *)

Record openAIAccountRuntimeStat := mkStat { errorRateEWMA : float64; ttftEWMA : float64 }.
Definition runtimeStats : Type := gmap Z openAIAccountRuntimeStat.
Definition newStat : openAIAccountRuntimeStat := mkStat fzero S754_nan.
Definition alpha : float64 := fdiv fone (float_of_Z 5).
Definition oneMinusAlpha : float64 := fdiv (float_of_Z 4) (float_of_Z 5).
(** [1-alpha] is 0.8 both as a constant and as a difference of [float64]s. *)
Definition updateEWMA (old sample : float64) : float64 := fadd (fmul alpha sample) (fmul oneMinusAlpha old).
Definition report (accountID : Z) (success : bool) (firstTokenMs : option Z) (s : runtimeStats) : runtimeStats :=
  if accountID <=? 0 then s
  else
    let stat := default newStat (s !! accountID) in
    let errorSample := if success then fzero else fone in
    let stat := { stat with errorRateEWMA := updateEWMA (errorRateEWMA stat) errorSample } in
    let stat :=
      match firstTokenMs with
      | Some ms =>
          if 0 <? ms then
            let ttft := float_of_Z ms in
            { stat with ttftEWMA := if IsNaN (ttftEWMA stat) then ttft else updateEWMA (ttftEWMA stat) ttft }
          else stat
      | None => stat
      end in
    <[accountID := stat]> s.
(** The error rate, and the time to the first token when one was reported. *)
Definition snapshot (s : runtimeStats) (accountID : Z) : float64 * option float64 :=
  if accountID <=? 0 then (fzero, None)
  else match s !! accountID with
  | None => (fzero, None)
  | Some stat => (clamp01 (errorRateEWMA stat), if IsNaN (ttftEWMA stat) then None else Some (ttftEWMA stat))
  end.

Record openAIStickyEscapeConfig := mkEscape { esc_enabled : bool; esc_ttftMs : float64; esc_errorRate : float64 }.
Definition shouldEscapeStickyAccount (s : runtimeStats) (accountID : Z) (cfg : openAIStickyEscapeConfig) : option string :=
  if negb (esc_enabled cfg) || (accountID <=? 0) then None
  else
    let '(errorRate, ttft) := snapshot s accountID in
    match ttft with
    | Some t => if SFltb (esc_ttftMs cfg) t then Some "ttft" else if SFltb (esc_errorRate cfg) errorRate then Some "error_rate" else None
    | None => if SFltb (esc_errorRate cfg) errorRate then Some "error_rate" else None
    end.

(** ** Requests and candidates *)

Record OpenAIAccountScheduleRequest := mkRequest {
  GroupID : option Z;
  SessionHash : string;
  StickyAccountID : Z;
  StickyPreviousAccountID : Z;
  StickyWeighted : bool;
  SubscriptionPriority : bool;
  PreserveStickyBinding : bool;
  PreviousResponseID : string;
  PreviousResponseCanMove : bool;
  UseUpstreamTokenCost : bool;
  RequestedModel : string;
  RequireCompact : bool;
  ExcludedIDs : gset Z }.

Record openAIAccountCandidateScore := mkCandidate {
  account : Account.Account;
  loadInfo : LoadInfo;
  loadKnown : bool;
  score : float64;
  priority : Z;
  errorRate : float64;
  ttft : option float64 }.
Implicit Types (c : openAIAccountCandidateScore) (req : OpenAIAccountScheduleRequest).
Definition candidateID c : Z := ID (account c).

Definition isOpenAIAccountCandidateBetter (left right : openAIAccountCandidateScore) : bool :=
  if negb (SFeqb (score left) (score right)) then SFltb (score right) (score left)
  else if negb (Priority (account left) =? Priority (account right)) then Priority (account left) <? Priority (account right)
  else if negb (li_LoadRate (loadInfo left) =? li_LoadRate (loadInfo right)) then
    li_LoadRate (loadInfo left) <? li_LoadRate (loadInfo right)
  else if negb (li_WaitingCount (loadInfo left) =? li_WaitingCount (loadInfo right)) then
    li_WaitingCount (loadInfo left) <? li_WaitingCount (loadInfo right)
  else ID (account left) <? ID (account right).

(** The heap keeps the worst candidate at its root. *)
Definition heapLess (x y : openAIAccountCandidateScore) : bool := isOpenAIAccountCandidateBetter y x.

(** ** The random source *)

Definition uint64 (z : Z) : Z := z mod 2 ^ 64.
Definition goldenGamma : Z := 11400714819323198485.
Definition newOpenAISelectionRNG (seed : Z) : Z := if seed =? 0 then goldenGamma else seed.
Definition xorshift (x : Z) : Z :=
  let x := Z.lxor x (Z.shiftr x 12) in
  let x := Z.lxor x (uint64 (Z.shiftl x 25)) in
  Z.lxor x (Z.shiftr x 27).
Definition nextUint64 (state : Z) : Z * Z :=
  let x := xorshift state in (uint64 (x * 2685821657736338717), x).
Definition nextFloat64 (state : Z) : float64 * Z :=
  let '(u, state) := nextUint64 state in (fdiv (float_of_Z (Z.shiftr u 11)) (float_of_Z (2 ^ 53)), state).

(** FNV-1a on 64 bits. *)
Definition fnvWrite (h : Z) (bytes : list Z) : Z := foldl (fun h b => uint64 (Z.lxor h b * 1099511628211)) h bytes.
Definition fnvOffset : Z := 14695981039346656037.
Definition writeValue (h : Z) (value : string) : Z :=
  let trimmed := TrimSpace value in if String.eqb trimmed "" then h else fnvWrite h (str_bytes trimmed ++ [0])%list.
(** [now1] and [now2] are the two readings of [UnixNano]. *)
Definition deriveOpenAISelectionSeed req (now1 now2 : Z) : Z :=
  let h := writeValue (writeValue (writeValue fnvOffset (SessionHash req)) (PreviousResponseID req)) (RequestedModel req) in
  let seed := match GroupID req with Some id => fnvWrite h (str_bytes (Itoa id)) | None => h end in
  let seed :=
    if String.eqb (TrimSpace (SessionHash req)) "" && String.eqb (TrimSpace (PreviousResponseID req)) ""
    then Z.lxor seed (uint64 now1) else seed in
  if seed =? 0 then Z.lxor (uint64 now2) goldenGamma else seed.

Section Order.
Context {sorting : SliceSort}.

(** ** The best [topK] candidates *)

Definition offer (topK : nat) (best : list openAIAccountCandidateScore) c : list openAIAccountCandidateScore :=
  if Nat.ltb (length best) topK then Push heapLess best c
  else match best with
  | [] => best
  | worst :: rest => if isOpenAIAccountCandidateBetter c worst then Fix_ heapLess (c :: rest) 0 else best
  end.
Definition selectTopKOpenAICandidates (candidates : list openAIAccountCandidateScore) (topK : Z) : list openAIAccountCandidateScore :=
  match candidates with
  | [] => []
  | _ =>
      let topK := if topK <=? 0 then 1 else topK in
      if Z.of_nat (length candidates) <=? topK then sortSlice isOpenAIAccountCandidateBetter candidates
      else sortSlice isOpenAIAccountCandidateBetter (foldl (offer (Z.to_nat topK)) [] candidates)
  end.

(** ** The weighted order *)

Definition weightOf (minScore : float64) c : float64 :=
  let weight := fadd (fsub (score c) minScore) fone in
  if IsNaN weight || IsInf weight || SFleb weight fzero then fone else weight.
Definition minScoreOf (first : float64) (rest : list openAIAccountCandidateScore) : float64 :=
  foldl (fun m c => if SFltb (score c) m then score c else m) first rest.
(** The first index whose cumulated weight reaches [r]; 0 when none does. *)
Fixpoint pickIndex (r acc : float64) (i : nat) (weights : list float64) : nat :=
  match weights with
  | [] => O
  | w :: weights' => let acc := fadd acc w in if SFleb r acc then i else pickIndex r acc (S i) weights'
  end.
Definition pick (rng : Z) (weights : list float64) : nat * Z :=
  let total := foldl fadd fzero weights in
  if SFltb fzero total then
    let '(u, rng) := nextFloat64 rng in (pickIndex (fmul u total) fzero 0 weights, rng)
  else
    let '(u, rng) := nextUint64 rng in (Z.to_nat (u mod Z.of_nat (length weights)), rng).
(** [None] is the panic of an index that is out of range. *)
Fixpoint drawAll (fuel : nat) (rng : Z) (pool : list openAIAccountCandidateScore) (weights : list float64)
  : option (list openAIAccountCandidateScore) :=
  match pool, fuel with
  | [], _ => Some []
  | _, O => None
  | _, S fuel' =>
      let '(i, rng) := pick rng weights in
      match pool !! i with
      | Some c => cons c <$> drawAll fuel' rng (delete i pool) (delete i weights)
      | None => None
      end
  end.
Definition buildOpenAIWeightedSelectionOrder (candidates : list openAIAccountCandidateScore) req (now1 now2 : Z)
  : option (list openAIAccountCandidateScore) :=
  match candidates with
  | [] | [_] => Some candidates
  | first :: rest =>
      let minScore := minScoreOf (score first) rest in
      drawAll (length candidates) (newOpenAISelectionRNG (deriveOpenAISelectionSeed req now1 now2))
        candidates (map (weightOf minScore) candidates)
  end.

(** ** The order of the attempts *)

Record openAIAccountLoadPlan := mkPlan {
  allCandidates : list openAIAccountCandidateScore;
  candidates : list openAIAccountCandidateScore;
  staleSnapshotCompactRetry : list openAIAccountCandidateScore;
  topK : Z;
  loadSkew : float64;
  includeOverflowFallback : bool }.

(** [candidate] and what is before and after it, when its account is [stickyID]. *)
Definition moveFront (stickyID : Z) (ranked : list openAIAccountCandidateScore) : option (list openAIAccountCandidateScore) :=
  match list_find (fun c => candidateID c = stickyID) ranked with
  | Some (i, c) => Some (c :: take i ranked ++ drop (S i) ranked)%list
  | None => None
  end.
Fixpoint stickyFirst (stickyIDs : list Z) (ranked : list openAIAccountCandidateScore) : option (list openAIAccountCandidateScore) :=
  match stickyIDs with
  | [] => None
  | stickyID :: ids =>
      if stickyID <=? 0 then stickyFirst ids ranked
      else match moveFront stickyID ranked with
      | Some primary => Some primary
      | None => stickyFirst ids ranked
      end
  end.
Definition buildSelectionOrder req (k : Z) (overflow : bool) (now1 now2 : Z) (pool : list openAIAccountCandidateScore)
  : option (list openAIAccountCandidateScore) :=
  if bool_decide (pool = []) || (k <=? 0) then Some []
  else
    let groupTopK := Z.min k (Z.of_nat (length pool)) in
    let ranked := selectTopKOpenAICandidates pool groupTopK in
    let sticky := if StickyWeighted req then stickyFirst [StickyPreviousAccountID req; StickyAccountID req] ranked else None in
    primary ← match sticky with Some primary => Some primary | None => buildOpenAIWeightedSelectionOrder ranked req now1 now2 end;
    if negb overflow || (Z.of_nat (length pool) <=? groupTopK) then Some primary
    else
      let selected : gset Z := list_to_set (map candidateID primary) in
      let rest := List.filter (fun c => negb (bool_decide (candidateID c ∈ selected))) pool in
      Some (primary ++ sortSlice isOpenAIAccountCandidateBetter rest)%list.

(** Least recently used first; never used before that. *)
Definition retryLess (a b : openAIAccountCandidateScore) : bool :=
  if negb (Priority (account a) =? Priority (account b)) then Priority (account a) <? Priority (account b)
  else if negb (li_LoadRate (loadInfo a) =? li_LoadRate (loadInfo b)) then li_LoadRate (loadInfo a) <? li_LoadRate (loadInfo b)
  else if negb (li_WaitingCount (loadInfo a) =? li_WaitingCount (loadInfo b)) then
    li_WaitingCount (loadInfo a) <? li_WaitingCount (loadInfo b)
  else match LastUsedAt (account a), LastUsedAt (account b) with
  | None, Some _ => true
  | Some _, None => false
  | None, None => false
  | Some t, Some u => Before t u
  end.
Definition sortOpenAICompactRetryCandidates (pool : list openAIAccountCandidateScore) : list openAIAccountCandidateScore :=
  SliceStable retryLess pool.
Definition tierOf c : Z := openAICompactSupportTier (account c).
Definition ofTier (t : Z) (l : list openAIAccountCandidateScore) : list openAIAccountCandidateScore :=
  List.filter (fun c => tierOf c =? t) l.
(** [hasSnapshot] tells whether the service has a scheduler snapshot; each weighted
    order reads the clock for itself. *)
Definition buildOpenAISelectionOrder (hasSnapshot : bool) req (now1 now2 now3 now4 : Z) (plan : openAIAccountLoadPlan)
  : option (list openAIAccountCandidateScore) :=
  let build := buildSelectionOrder req (topK plan) (includeOverflowFallback plan) in
  if RequireCompact req then
    supported ← build now1 now2 (ofTier 2 (candidates plan));
    unknown ← build now3 now4 (ofTier 1 (candidates plan));
    Some (supported ++ unknown ++
      (if negb (bool_decide (staleSnapshotCompactRetry plan = [])) && hasSnapshot
       then sortOpenAICompactRetryCandidates (staleSnapshotCompactRetry plan) else []))%list
  else build now1 now2 (candidates plan).

(** ** Scores *)

Record GatewayOpenAIWSSchedulerScoreWeightsView := mkWeights {
  w_Priority : float64; w_Load : float64; w_Queue : float64; w_ErrorRate : float64; w_TTFT : float64;
  w_Reset : float64; w_QuotaHeadroom : float64; w_UpstreamCost : float64; w_Previous : float64; w_SessionSticky : float64 }.

Record schedulerEnv := mkEnv {
  stats : runtimeStats;
  weights : GatewayOpenAIWSSchedulerScoreWeightsView;
  topKSetting : Z;
  schedulerSnapshot : bool;
  openAIQuotaHeadroomFactor : Account.Account -> time -> float64;
  openAIUpstreamCostFactors : list Account.Account -> time -> gmap Z float64 }.

Definition candidateOf (env : schedulerEnv) (loadMap : gmap Z LoadInfo) (a : Account.Account) : openAIAccountCandidateScore :=
  let '(errorRate, ttft) := snapshot (stats env) (ID a) in
  match loadMap !! ID a with
  | Some load => mkCandidate a load true fzero 0 errorRate ttft
  | None => mkCandidate a (mkLoadInfo (ID a) 0 0 0) false fzero 0 errorRate ttft
  end.

(** The smallest and largest value of a list, by [<] as the loops compute them. *)
Definition fminmax (l : list float64) : option (float64 * float64) :=
  foldl (fun acc v => match acc with
    | None => Some (v, v)
    | Some (lo, hi) => Some (if SFltb v lo then v else lo, if SFltb hi v then v else hi)
    end) None l.
Definition ttftSamples (l : list openAIAccountCandidateScore) : list float64 :=
  omap (fun c => match ttft c with Some t => if SFltb fzero t then Some t else None | None => None end) l.
(** [time.Duration.Seconds]. *)
Definition Seconds (d : duration) : float64 :=
  fadd (float_of_Z (Z.quot d Second)) (fdiv (float_of_Z (Z.rem d Second)) (float_of_Z Second)).
Definition resetRemaining (now : time) (a : Account.Account) : option float64 :=
  match SessionWindowEnd a with
  | Some e => if Before now e then Some (Seconds (SubT e now)) else None
  | None => None
  end.
Definition maxWaitingOf (l : list openAIAccountCandidateScore) : Z := foldl (fun m c => Z.max m (li_WaitingCount (loadInfo c))) 1 l.
Definition prioritiesOf (first : openAIAccountCandidateScore) (l : list openAIAccountCandidateScore) : Z * Z :=
  foldl (fun acc c => (Z.min acc.1 (Priority (account c)), Z.max acc.2 (Priority (account c))))
    (Priority (account first), Priority (account first)) l.

Record scoreBounds := mkBounds {
  sb_priority : Z * Z; sb_maxWaiting : Z; sb_ttft : option (float64 * float64); sb_reset : option (float64 * float64);
  sb_cost : gmap Z float64 }.

Definition scoreOf (env : schedulerEnv) req (now : time) (b : scoreBounds) (c : openAIAccountCandidateScore) : float64 :=
  let w := weights env in
  let a := account c in
  let '(minPriority, maxPriority) := sb_priority b in
  let priorityFactor :=
    if minPriority <? maxPriority
    then fsub fone (fdiv (float_of_Z (wrap64 (Priority a - minPriority))) (float_of_Z (wrap64 (maxPriority - minPriority))))
    else fone in
  let loadFactor := fsub fone (clamp01 (fdiv (float_of_Z (li_LoadRate (loadInfo c))) (float_of_Z 100))) in
  let queueFactor := fsub fone (clamp01 (fdiv (float_of_Z (li_WaitingCount (loadInfo c))) (float_of_Z (sb_maxWaiting b)))) in
  let errorFactor := fsub fone (clamp01 (errorRate c)) in
  let ttftFactor :=
    match ttft c, sb_ttft b with
    | Some t, Some (minTTFT, maxTTFT) =>
        if SFltb minTTFT maxTTFT then fsub fone (clamp01 (fdiv (fsub t minTTFT) (fsub maxTTFT minTTFT))) else fhalf
    | _, _ => fhalf
    end in
  let resetFactor :=
    match resetRemaining now a, sb_reset b with
    | Some r, Some (minReset, maxReset) =>
        if SFltb minReset maxReset then fsub fone (clamp01 (fdiv (fsub r minReset) (fsub maxReset minReset))) else fone
    | _, _ => fzero
    end in
  let quotaHeadroomFactor := if SFltb fzero (w_QuotaHeadroom w) then openAIQuotaHeadroomFactor env a now else fzero in
  let upstreamCostFactor := default fhalf (sb_cost b !! ID a) in
  let total :=
    fadd (fadd (fadd (fadd (fadd (fadd (fadd
      (fmul (w_Priority w) priorityFactor)
      (fmul (w_Load w) loadFactor))
      (fmul (w_Queue w) queueFactor))
      (fmul (w_ErrorRate w) errorFactor))
      (fmul (w_TTFT w) ttftFactor))
      (fmul (w_Reset w) resetFactor))
      (fmul (w_QuotaHeadroom w) quotaHeadroomFactor))
      (fmul (w_UpstreamCost w) (fsub upstreamCostFactor fhalf)) in
  if StickyWeighted req then
    let total :=
      if PreviousResponseCanMove req && (0 <? StickyPreviousAccountID req) && (ID a =? StickyPreviousAccountID req)
      then fadd total (w_Previous w) else total in
    if (0 <? StickyAccountID req) && (ID a =? StickyAccountID req) then fadd total (w_SessionSticky w) else total
  else total.

Definition loadRates (l : list openAIAccountCandidateScore) : list float64 := map (fun c => float_of_Z (li_LoadRate (loadInfo c))) l.
Definition sumOf (l : list float64) : float64 := foldl fadd fzero l.

(** [None] where the code would panic.  Without [compact] both slices of the plan
    share their array, and so the scores. *)
Definition buildOpenAIAccountLoadPlan (env : schedulerEnv) req (now now1 now2 now3 now4 : Z)
    (filtered : list Account.Account) (loadMap : gmap Z LoadInfo)
  : option (openAIAccountLoadPlan * list openAIAccountCandidateScore) :=
  let allCandidates := map (candidateOf env loadMap) filtered in
  let compact := RequireCompact req in
  let candidates := if compact then List.filter (fun c => negb (tierOf c =? 0)) allCandidates else allCandidates in
  let retry := if compact then ofTier 0 allCandidates else [] in
  match candidates with
  | [] =>
      let plan := mkPlan allCandidates [] retry 0 fzero false in
      order ← buildOpenAISelectionOrder (schedulerSnapshot env) req now1 now2 now3 now4 plan;
      Some (plan, order)
  | first :: _ =>
      let w := weights env in
      let costFactors :=
        if UseUpstreamTokenCost req && SFltb fzero (w_UpstreamCost w)
        then openAIUpstreamCostFactors env (map account candidates) now else ∅ in
      let overflow := existsb (fun kv => negb (SFeqb kv.2 fhalf)) (map_to_list costFactors) in
      let bounds := mkBounds (prioritiesOf first candidates) (maxWaitingOf candidates) (fminmax (ttftSamples candidates))
        (if SFltb fzero (w_Reset w) then fminmax (omap (fun c => resetRemaining now (account c)) candidates) else None)
        costFactors in
      let candidates := map (fun c => { { c with priority := Priority (account c) } with
        score := scoreOf env req now bounds c }) candidates in
      let k := Z.min (topKSetting env) (Z.of_nat (length candidates)) in
      let k := if k <=? 0 then 1 else k in
      let skew := calcLoadSkewByMoments (sumOf (loadRates candidates)) (sumOf (map (fun r => fmul r r) (loadRates candidates)))
        (Z.of_nat (length candidates)) in
      let plan := mkPlan (if compact then allCandidates else candidates) candidates retry k skew overflow in
      order ← buildOpenAISelectionOrder (schedulerSnapshot env) req now1 now2 now3 now4 plan;
      Some (plan, order)
  end.
End Order.

(** ** Lemmas: the order of the candidates *)

(** Sign, exponent and mantissa, so that [<] is lexicographic. *)
Definition fkey (f : float64) : list Z :=
  match f with
  | S754_zero _ | S754_nan => [0; 0; 0]
  | S754_infinity s => [if s then -2 else 2; 0; 0]
  | S754_finite s m e => if s then [-1; - e; - Zpos m] else [1; e; Zpos m]
  end.
Lemma fkey_length f : length (fkey f) = 3%nat.
Proof. by destruct f as [| | |[]]. Qed.
Lemma SFcompare_key x y : IsNaN x = false -> IsNaN y = false ->
  SFcompare x y = Some (if lexlt (fkey x) (fkey y) then Lt else if lexlt (fkey y) (fkey x) then Gt else Eq).
Proof.
  intros Hx Hy. destruct x as [sx|sx| |sx mx ex], y as [sy|sy| |sy my ey]; try done;
    try (by destruct sx); try (by destruct sy); try (by destruct sx, sy).
  destruct sx, sy; try done; unfold SFcompare, fkey; cbn [lexlt]; f_equal;
    change (Pos.compare_cont Eq mx my) with (Pos.compare mx my);
    destruct (Z.compare_spec ex ey) as [->|E|E], (Pos.compare_spec mx my) as [->|E'|E']; rewrite ?Z.eqb_refl;
    repeat (rewrite (proj2 (Z.eqb_neq _ _)) by lia); repeat split_if; bool_to_prop; try done; lia.
Qed.
Lemma SFltb_key x y : IsNaN x = false -> IsNaN y = false -> SFltb x y = lexlt (fkey x) (fkey y).
Proof. intros Hx Hy. unfold SFltb. rewrite SFcompare_key by done. repeat split_if; done. Qed.
Lemma SFeqb_key x y : IsNaN x = false -> IsNaN y = false -> SFeqb x y = bool_decide (fkey x = fkey y).
Proof.
  intros Hx Hy. unfold SFeqb. rewrite SFcompare_key by done. case_bool_decide as E.
  - by rewrite E, lexlt_irrefl.
  - destruct (lexlt (fkey x) (fkey y)) eqn:E1; [done|]. destruct (lexlt (fkey y) (fkey x)) eqn:E2; [done|].
    destruct E. apply lexlt_total; [by rewrite !fkey_length|done..].
Qed.

Definition scored c : Prop := IsNaN (score c) = false.
(** The heap and the sorts order candidates by this key: higher scores first. *)
Definition candidateKey c : list Z :=
  (map Z.opp (fkey (score c)) ++
   [Priority (account c); li_LoadRate (loadInfo c); li_WaitingCount (loadInfo c); ID (account c)])%list.
Lemma candidateKey_length c : length (candidateKey c) = 7%nat.
Proof. unfold candidateKey. by rewrite length_app, length_map, fkey_length. Qed.
Lemma lexlt_opp x y t u : length x = length y ->
  lexlt (map Z.opp x ++ t) (map Z.opp y ++ u) = if bool_decide (x = y) then lexlt t u else lexlt y x.
Proof.
  revert y. induction x as [|a x IH]; intros [|b y]; simpl; try done. intros [= Hl]. rewrite IH by done.
  rewrite (Z.eqb_sym b a). destruct (Z.eqb_spec a b) as [->|Hne].
  - rewrite Z.eqb_refl. by repeat case_bool_decide; congruence.
  - rewrite (proj2 (Z.eqb_neq (- a) (- b))) by lia. rewrite bool_decide_eq_false_2 by congruence.
    destruct (b <? a) eqn:E; bool_to_prop; lia.
Qed.
Lemma isBetter_key l r : scored l -> scored r -> isOpenAIAccountCandidateBetter l r = lexlt (candidateKey l) (candidateKey r).
Proof.
  intros Hl Hr. unfold isOpenAIAccountCandidateBetter, candidateKey.
  rewrite lexlt_opp, SFeqb_key, SFltb_key by (done || by rewrite !fkey_length). case_bool_decide; simpl; [|done].
  do 3 (destruct (Z.eqb _ _); simpl; [|done]). destruct (ID (account l) =? ID (account r)) eqn:E; [|done].
  apply Z.eqb_eq in E as ->. apply Z.ltb_irrefl.
Qed.

Definition retryKey c : list Z :=
  ([Priority (account c); li_LoadRate (loadInfo c); li_WaitingCount (loadInfo c)] ++
   match LastUsedAt (account c) with None => [0; 0] | Some t => [1; t] end)%list.
Lemma retryLess_key a b : retryLess a b = lexlt (retryKey a) (retryKey b).
Proof.
  unfold retryLess, retryKey, Before. simpl.
  do 3 (destruct (Z.eqb _ _); simpl; [|done]).
  destruct (LastUsedAt (account a)) as [t|], (LastUsedAt (account b)) as [u|]; simpl; try done.
  destruct (t =? u) eqn:E; [|done]. apply Z.eqb_eq in E as ->. apply Z.ltb_irrefl.
Qed.

Lemma better_weak (l : list openAIAccountCandidateScore) : Forall scored l -> weak_order isOpenAIAccountCandidateBetter (.∈ l).
Proof.
  rewrite Forall_forall. intros H. apply (key_weak_order _ candidateKey 7).
  - intros. apply candidateKey_length.
  - intros. apply isBetter_key; auto.
Qed.
Lemma NoDup_fmap_inj {A B} (f : A -> B) (l : list A) x y : NoDup (map f l) -> x ∈ l -> y ∈ l -> f x = f y -> x = y.
Proof.
  induction l as [|a l IH]; simpl; [by intros _ ?%not_elem_of_nil|]. intros [Ha Hn]%NoDup_cons [->|Hx]%elem_of_cons [->|Hy]%elem_of_cons E.
  - done.
  - destruct Ha. rewrite E. by apply list_elem_of_fmap_2.
  - destruct Ha. rewrite <- E. by apply list_elem_of_fmap_2.
  - auto.
Qed.
Lemma better_total (l : list openAIAccountCandidateScore) : Forall scored l -> NoDup (map candidateID l) -> total_order isOpenAIAccountCandidateBetter (.∈ l).
Proof.
  rewrite Forall_forall. intros H Hn. apply (key_total_order _ candidateKey 7).
  - intros. apply candidateKey_length.
  - intros. apply isBetter_key; auto.
  - intros x y Hx Hy E. apply (NoDup_fmap_inj candidateID l); [done..|]. unfold candidateKey in E.
    apply app_inj_1 in E as [_ [= _ _ _ E]]; [done|by rewrite !length_map, !fkey_length].
Qed.
Lemma heap_weak (l : list openAIAccountCandidateScore) : Forall scored l -> weak_order heapLess (.∈ l).
Proof.
  intros [H1 H2 H3]%better_weak. split; unfold heapLess.
  - auto.
  - intros x y z Hx Hy Hz E1 E2. by apply (H2 z y x).
  - intros x y z Hx Hy Hz E1 E2. by apply (H3 z y x).
Qed.

(** *** The best [topK] *)

Section TopK.
Context {sorting : SliceSort}.

Lemma offer_submseteq k best c : offer k best c ⊆+ c :: best.
Proof.
  unfold offer. destruct (Nat.ltb _ _); [by rewrite Push_perm|]. destruct best as [|w rest]; [apply submseteq_nil_l|].
  destruct (isOpenAIAccountCandidateBetter c w).
  - rewrite Fix_perm. apply submseteq_skip, submseteq_cons, reflexivity.
  - apply submseteq_cons, reflexivity.
Qed.
Lemma offer_length k best c : (0 < k)%nat -> (length best <= k)%nat ->
  length (offer k best c) = Nat.min k (S (length best)).
Proof.
  intros Hk Hl. unfold offer. destruct (Nat.ltb _ _) eqn:E.
  - apply Nat.ltb_lt in E. rewrite (Permutation_length (Push_perm _ _ _)). simpl. lia.
  - apply Nat.ltb_ge in E. destruct best as [|w rest]; simpl in *; [lia|].
    destruct (isOpenAIAccountCandidateBetter c w); [rewrite (Permutation_length (Fix_perm _ _ _))|]; simpl; lia.
Qed.
Lemma offers_spec k l best : (0 < k)%nat -> (length best <= k)%nat ->
  foldl (offer k) best l ⊆+ best ++ l /\ length (foldl (offer k) best l) = Nat.min k (length best + length l).
Proof.
  intros Hk. revert best. induction l as [|c l IH]; intros best Hl; simpl; [rewrite app_nil_r; split; [done|lia]|].
  pose proof (offer_length k best c Hk Hl) as Hn. destruct (IH (offer k best c)) as [H1 H2]; [lia|]. split; [|lia].
  etrans; [exact H1|]. etrans; [apply submseteq_app; [apply (offer_submseteq k best c)|reflexivity]|].
  simpl. by rewrite (Permutation_middle best l c).
Qed.
(** The selection is [topK] of the candidates, at least one, whatever the scores. *)
Lemma selectTopK_submseteq l k : selectTopKOpenAICandidates l k ⊆+ l.
Proof.
  destruct l as [|c l]; [done|]. unfold selectTopKOpenAICandidates. set (k' := if k <=? 0 then 1 else k).
  assert (0 < k') by (subst k'; split_if; bool_to_prop; lia). destruct (_ <=? k'); rewrite sortSlice_perm; [done|].
  apply (offers_spec (Z.to_nat k') (c :: l) []); simpl; lia.
Qed.
Lemma selectTopK_length l k : Z.of_nat (length (selectTopKOpenAICandidates l k)) = Z.min (Z.max 1 k) (Z.of_nat (length l)).
Proof.
  destruct l as [|c l]; [simpl; lia|]. unfold selectTopKOpenAICandidates. set (k' := if k <=? 0 then 1 else k).
  assert (Hk : k' = Z.max 1 k) by (subst k'; split_if; bool_to_prop; lia). rewrite <- Hk.
  destruct (_ <=? k') eqn:E; rewrite (Permutation_length (sortSlice_perm _ _)); bool_to_prop; [lia|].
  destruct (offers_spec (Z.to_nat k') (c :: l) []) as [_ ->]; simpl in *; lia.
Qed.

(** While the heap holds [k] candidates, none that was dropped comes before one that was kept. *)
Record kept (k : nat) (universe best dropped seen : list openAIAccountCandidateScore) : Prop := {
  kept_all : best ++ dropped ≡ₚ seen;
  kept_universe : Forall (.∈ universe) seen;
  kept_heap : heap heapLess best;
  kept_full : (length best < k)%nat -> dropped = [];
  kept_best d b : d ∈ dropped -> b ∈ best -> isOpenAIAccountCandidateBetter d b = false }.
Lemma offer_kept k universe best dropped seen c : (0 < k)%nat -> Forall scored universe -> c ∈ universe ->
  kept k universe best dropped seen -> exists dropped', kept k universe (offer k best c) dropped' (seen ++ [c]).
Proof.
  intros Hk Hs Hc [Hall Hu Hh Hf Hb]. pose proof (better_weak _ Hs) as Ho. pose proof (heap_weak _ Hs) as Hho.
  assert (Hub : forall x, x ∈ best -> x ∈ universe).
  { intros x Hx. rewrite Forall_forall in Hu. apply Hu. rewrite <- Hall. set_solver. }
  assert (Hud : forall x, x ∈ dropped -> x ∈ universe).
  { intros x Hx. rewrite Forall_forall in Hu. apply Hu. rewrite <- Hall. set_solver. }
  assert (Hu' : Forall (.∈ universe) (seen ++ [c])) by (apply Forall_app; by repeat constructor).
  unfold offer. destruct (Nat.ltb _ _) eqn:E; [apply Nat.ltb_lt in E|apply Nat.ltb_ge in E].
  - rewrite (Hf E) in Hall. exists []. destruct (Push_heap heapLess (.∈ universe) Hho best c) as [H1 H2]; [|done|].
    { apply Forall_app. split; [by apply Forall_forall|by repeat constructor]. }
    split; [|done|done|done|by intros d b ?%not_elem_of_nil].
    rewrite app_nil_r, H2, <- Hall, app_nil_r. apply Permutation_cons_append.
  - destruct best as [|w rest]; [simpl in E; lia|].
    assert (Hw : forall b, b ∈ w :: rest -> isOpenAIAccountCandidateBetter w b = false).
    { intros b Hin. apply (heap_root heapLess (.∈ universe) Hho (w :: rest) w b); [by apply Forall_forall|done..]. }
    destruct (isOpenAIAccountCandidateBetter c w) eqn:Ecw.
    + exists (w :: dropped). destruct (Fix_heap heapLess (.∈ universe) Hho rest w c) as [H1 H2]; [|done|].
      { constructor; [done|]. apply Forall_forall. intros x Hx. apply Hub. by right. }
      assert (Hasym : isOpenAIAccountCandidateBetter w c = false) by (apply (less_asym _ _ Ho); auto using list_elem_of_here).
      split; [|done|done| |].
      * rewrite H2, <- Hall. simpl. rewrite <- Permutation_middle, Permutation_swap. constructor.
        apply (Permutation_cons_append (rest ++ dropped) c).
      * rewrite (Permutation_length H2). simpl in *. lia.
      * intros d b Hd Hb'. rewrite H2 in Hb'. apply elem_of_cons in Hd as [->|Hd], Hb' as [->|Hb']; [done|apply Hw; by right| |].
        { destruct (isOpenAIAccountCandidateBetter d c) eqn:Edc; [|done].
          rewrite <- (Hb d w Hd (list_elem_of_here _ _)). symmetry. apply (less_trans _ _ Ho d c w); auto using list_elem_of_here. }
        { apply Hb; [done|by right]. }
    + exists (c :: dropped). split; [|done|done|intros; lia|].
      * rewrite <- Permutation_middle, <- Hall. apply Permutation_cons_append.
      * intros d b [->|Hd]%elem_of_cons Hb'; [|by apply Hb].
        apply (notless_trans _ _ Ho c w b); auto using list_elem_of_here.
Qed.
Lemma offers_kept k universe l best dropped seen : (0 < k)%nat -> Forall scored universe -> Forall (.∈ universe) l ->
  kept k universe best dropped seen -> exists dropped', kept k universe (foldl (offer k) best l) dropped' (seen ++ l).
Proof.
  intros Hk Hs. revert best dropped seen. induction l as [|c l IH]; intros best dropped seen Hl Hkept; simpl.
  - exists dropped. by rewrite app_nil_r.
  - apply Forall_cons in Hl as [Hc Hl]. destruct (offer_kept k universe best dropped seen c Hk Hs Hc Hkept) as [dr Hd].
    destruct (IH _ _ _ Hl Hd) as [dr' Hd']. exists dr'. by rewrite <- app_assoc in Hd'.
Qed.

Lemma better_sorted l : Forall scored l -> StronglySorted (upto isOpenAIAccountCandidateBetter) (sortSlice isOpenAIAccountCandidateBetter l).
Proof.
  intros Hs. pose proof (better_weak l Hs) as Ho. apply sorted_strong; [|by apply sortSlice_sorted].
  eapply weak_order_mono; [|exact Ho]. intros x. simpl. by rewrite sortSlice_perm.
Qed.
Lemma selectTopK_sorted l k : Forall scored l -> NoDup (map candidateID l) ->
  selectTopKOpenAICandidates l k = take (Z.to_nat (Z.max 1 k)) (sortSlice isOpenAIAccountCandidateBetter l).
Proof.
  intros Hs Hn. destruct l as [|c l].
  { pose proof (sortSlice_perm isOpenAIAccountCandidateBetter []) as H. symmetry in H. apply Permutation_nil in H as ->. by rewrite take_nil. }
  unfold selectTopKOpenAICandidates. set (k' := if k <=? 0 then 1 else k).
  assert (Hk : k' = Z.max 1 k) by (subst k'; split_if; bool_to_prop; lia). rewrite <- Hk.
  set (cs := c :: l) in *. destruct (_ <=? k') eqn:E; bool_to_prop.
  { rewrite take_ge; [done|]. rewrite (Permutation_length (sortSlice_perm _ _)). lia. }
  destruct (offers_kept (Z.to_nat k') cs cs [] [] [] ltac:(lia) Hs) as [dropped [Hall _ _ _ Hb]].
  { by apply Forall_forall. }
  { split; [done|by constructor| |done|by intros d b ?%not_elem_of_nil]. intros i Hi x y Hx. by rewrite lookup_nil in Hx. }
  change ([] ++ cs)%list with cs in Hall. set (best := foldl (offer _) [] cs) in *.
  assert (Hsb : Forall scored best /\ Forall scored dropped) by (apply Forall_app; by rewrite Hall).
  assert (Hsorted : sortSlice isOpenAIAccountCandidateBetter cs =
                    (sortSlice isOpenAIAccountCandidateBetter best ++ sortSlice isOpenAIAccountCandidateBetter dropped)%list).
  { apply (sorted_unique isOpenAIAccountCandidateBetter).
    - eapply total_order_mono; [|exact (better_total cs Hs Hn)]. intros x. simpl. by rewrite sortSlice_perm.
    - by rewrite !sortSlice_perm, Hall.
    - by apply StronglySorted_Sorted, better_sorted.
    - apply StronglySorted_Sorted, StronglySorted_app_2; [|apply better_sorted; tauto..].
      intros x y Hx Hy. rewrite sortSlice_perm in Hx, Hy. by apply Hb. }
  rewrite Hsorted, take_app_length'; [done|]. rewrite (Permutation_length (sortSlice_perm _ _)).
  destruct (offers_spec (Z.to_nat k') cs []) as [_ Hlen]; [lia|simpl; lia|]. fold best in Hlen. rewrite Hlen. simpl in *. lia.
Qed.
End TopK.

(** *** The weighted order draws every candidate once *)

Lemma pickIndex_lt r acc i weights : (i <= pickIndex r acc i weights < i + length weights)%nat \/ pickIndex r acc i weights = O.
Proof.
  revert acc i. induction weights as [|w ws IH]; intros acc i; simpl; [by right|].
  destruct (SFleb r _); [left; lia|]. destruct (IH (fadd acc w) (S i)); [left; lia|by right].
Qed.
Lemma pick_lt rng weights : weights <> [] -> ((pick rng weights).1 < length weights)%nat.
Proof.
  intros Hne. assert (Hl : (0 < length weights)%nat) by (destruct weights; simpl; [done|lia]).
  unfold pick. destruct (SFltb _ _).
  - destruct (nextFloat64 rng) as [u s]. cbn [fst]. set (r := fmul _ _). destruct (pickIndex_lt r fzero 0 weights); lia.
  - destruct (nextUint64 rng) as [u s]. cbn [fst]. pose proof (Z.mod_pos_bound u (Z.of_nat (length weights))). lia.
Qed.
Lemma drawAll_perm fuel rng pool weights : (length pool <= fuel)%nat -> length weights = length pool ->
  exists order, drawAll fuel rng pool weights = Some order /\ order ≡ₚ pool.
Proof.
  revert rng pool weights. induction fuel as [|fuel IH]; intros rng pool weights Hf Hl.
  { destruct pool; simpl in *; [by exists []|lia]. }
  destruct pool as [|c pool]; [by exists []|]. cbn [drawAll].
  pose proof (pick_lt rng weights) as Hp. destruct (pick rng weights) as [i rng']. cbn [fst] in Hp.
  assert (Hi : (i < length (c :: pool))%nat) by (rewrite <- Hl; apply Hp; by destruct weights).
  destruct (lookup_lt_is_Some_2 _ _ Hi) as [x Hx]. rewrite Hx.
  assert (Hw : is_Some (weights !! i)) by (apply lookup_lt_is_Some_2; by rewrite Hl).
  destruct (IH rng' (delete i (c :: pool)) (delete i weights)) as (order & Ho & Hperm).
  - rewrite length_delete by by eexists. simpl in *. lia.
  - rewrite !length_delete by (done || by eexists). by rewrite Hl.
  - exists (x :: order). rewrite Ho. split; [done|]. rewrite Hperm. by rewrite <- delete_Permutation.
Qed.
Lemma weighted_perm l req now1 now2 : exists order, buildOpenAIWeightedSelectionOrder l req now1 now2 = Some order /\ order ≡ₚ l.
Proof.
  destruct l as [|c [|d l]]; [by eexists|by eexists|]. apply drawAll_perm; [done|by rewrite length_map].
Qed.

(** *** The state of the random source *)

Lemma shiftr_fixed x k : 0 <= x -> 0 < k -> x = Z.shiftr x k -> x = 0.
Proof.
  intros Hx Hk E. rewrite Z.shiftr_div_pow2 in E by lia. pose proof (Z.pow_gt_1 2 k ltac:(lia)) as [H _].
  destruct (decide (x = 0)) as [|Hne]; [done|]. pose proof (Z.div_lt x (2 ^ k) ltac:(lia) (H Hk)). lia.
Qed.
Lemma shiftl_fixed x k : 0 <= x < 2 ^ 64 -> 0 < k -> x = uint64 (Z.shiftl x k) -> x = 0.
Proof.
  intros Hx Hk E. unfold uint64 in E. rewrite <- Z.land_ones in E by lia. apply Z.bits_inj_0. intros i.
  destruct (decide (i < 0)) as [|Hi]; [by apply Z.testbit_neg_r|].
  induction i as [i IH] using (well_founded_induction (Z.lt_wf 0)).
  rewrite E, Z.land_spec, Z.shiftl_spec by lia. destruct (decide (i < k)); [by rewrite Z.testbit_neg_r by lia|].
  rewrite IH by lia. done.
Qed.
Lemma log2_uint64 x : 0 <= x < 2 ^ 64 -> Z.log2 x < 64.
Proof. intros Hx. destruct (decide (x = 0)) as [->|]; [done|]. apply Z.log2_lt_pow2; lia. Qed.
Lemma lxor_uint64 x y : 0 <= x < 2 ^ 64 -> 0 <= y < 2 ^ 64 -> 0 <= Z.lxor x y < 2 ^ 64.
Proof.
  intros Hx Hy. split; [apply Z.lxor_nonneg; lia|]. destruct (decide (Z.lxor x y = 0)) as [->|Hne]; [lia|].
  assert (0 <= Z.lxor x y) by (apply Z.lxor_nonneg; lia).
  apply Z.log2_lt_pow2; [lia|]. pose proof (Z.log2_lxor x y ltac:(lia) ltac:(lia)).
  pose proof (log2_uint64 x Hx). pose proof (log2_uint64 y Hy). lia.
Qed.
Lemma xorshift_range x : 0 < x < 2 ^ 64 -> 0 < xorshift x < 2 ^ 64.
Proof.
  intros Hx. unfold xorshift.
  assert (Hr : forall y k, 0 <= k -> 0 <= y < 2 ^ 64 -> 0 <= Z.shiftr y k < 2 ^ 64).
  { intros y k Hk Hy. rewrite Z.shiftr_div_pow2 by lia. pose proof (Z.pow_pos_nonneg 2 k). split; [apply Z.div_pos; lia|].
    apply Z.div_lt_upper_bound; nia. }
  assert (Hstep : forall y z, 0 < y < 2 ^ 64 -> 0 <= z < 2 ^ 64 -> (y = z -> y = 0) -> 0 < Z.lxor y z < 2 ^ 64).
  { intros y z Hy Hz Hne. pose proof (lxor_uint64 y z ltac:(lia) Hz). assert (Z.lxor y z <> 0); [|lia].
    intros H0%Z.lxor_eq. apply Hne in H0. lia. }
  assert (H1 : 0 < Z.lxor x (Z.shiftr x 12) < 2 ^ 64).
  { apply Hstep; [done|apply Hr; lia|]. intros E. apply (shiftr_fixed x 12); [lia..|done]. }
  set (x1 := Z.lxor x _) in *. clearbody x1.
  assert (H2 : 0 < Z.lxor x1 (uint64 (Z.shiftl x1 25)) < 2 ^ 64).
  { apply Hstep; [done|apply Z.mod_pos_bound; lia|]. intros E. apply (shiftl_fixed x1 25); [lia..|done]. }
  set (x2 := Z.lxor x1 _) in *. clearbody x2.
  apply Hstep; [done|apply Hr; lia|]. intros E. apply (shiftr_fixed x2 27); [lia..|done].
Qed.

(** *** The selection order *)

Lemma filter_perm {A} (f : A -> bool) (l k : list A) : l ≡ₚ k -> List.filter f l ≡ₚ List.filter f k.
Proof.
  induction 1 as [|x l k _ IH|x y l|l k m _ IH1 _ IH2]; simpl; [done| | |by etrans].
  - destruct (f x); [by constructor|done].
  - destruct (f x), (f y); try done. apply perm_swap.
Qed.
Lemma filter_submseteq {A} (f : A -> bool) (l : list A) : List.filter f l ⊆+ l.
Proof. induction l as [|x l IH]; simpl; [done|]. destruct (f x); [by apply submseteq_skip|by apply submseteq_cons]. Qed.

Lemma moveFront_perm id l primary : moveFront id l = Some primary -> primary ≡ₚ l.
Proof.
  unfold moveFront. destruct (list_find _ l) as [[i c]|] eqn:E; [|done]. intros [= <-].
  apply list_find_Some in E as (Hi & _ & _). rewrite <- (take_drop_middle l i c Hi) at 3. apply Permutation_middle.
Qed.
Lemma stickyFirst_perm ids l primary : stickyFirst ids l = Some primary -> primary ≡ₚ l.
Proof.
  induction ids as [|id ids IH]; simpl; [done|]. destruct (id <=? 0); [done|].
  destruct (moveFront id l) eqn:E; [|done]. intros [= <-]. by eapply moveFront_perm.
Qed.

Section SelectionOrder.
Context {sorting : SliceSort}.

(** The candidates that are left are those whose accounts are not yet selected. *)
Lemma overflow_rest (primary pool : list openAIAccountCandidateScore) : primary ⊆+ pool ->
  let rest := List.filter (fun c => negb (bool_decide (candidateID c ∈ (list_to_set (map candidateID primary) : gset Z)))) pool in
  (primary ++ rest) ⊆+ pool /\ (NoDup (map candidateID pool) -> (primary ++ rest) ≡ₚ pool).
Proof.
  intros [k Hk]%submseteq_Permutation rest. set (f := fun c => negb _) in rest.
  assert (Hf : forall c, c ∈ primary -> f c = false).
  { intros c Hc. subst f. simpl. apply negb_false_iff, bool_decide_eq_true. apply elem_of_list_to_set. by apply list_elem_of_fmap_2. }
  assert (Hr : rest ≡ₚ List.filter f k).
  { unfold rest. rewrite (filter_perm f pool (primary ++ k) Hk), List.filter_app, (filter_none f primary) by by apply Forall_forall. done. }
  rewrite Hr. split.
  - rewrite Hk. apply submseteq_app; [done|apply filter_submseteq].
  - intros Hn. assert (Hn' : NoDup (map candidateID (primary ++ k))) by (by rewrite <- Hk).
    rewrite map_app in Hn'. apply NoDup_app in Hn' as (_ & Hd & _). rewrite Hk, filter_all; [done|]. apply Forall_forall.
    intros c Hc. subst f. simpl. apply negb_true_iff, bool_decide_eq_false. rewrite elem_of_list_to_set.
    intros H. apply (Hd _ H). by apply list_elem_of_fmap_2.
Qed.

Lemma buildSelectionOrder_spec req k overflow now1 now2 pool :
  exists order, buildSelectionOrder req k overflow now1 now2 pool = Some order /\ order ⊆+ pool /\
    (if overflow && (0 <? k) then NoDup (map candidateID pool) -> order ≡ₚ pool
     else Z.of_nat (length order) = Z.min (Z.max 0 k) (Z.of_nat (length pool))) /\
    (0 < k -> Z.min k (Z.of_nat (length pool)) <= Z.of_nat (length order)).
Proof.
  unfold buildSelectionOrder. destruct (bool_decide (pool = [])) eqn:Ep; cbn [orb].
  { apply bool_decide_eq_true in Ep as ->. exists []. split_and!; [done|done| |simpl; lia]. destruct (_ && _); simpl; [done|lia]. }
  destruct (k <=? 0) eqn:Ek; bool_to_prop.
  { exists []. split_and!; [done|apply submseteq_nil_l| |lia]. rewrite (proj2 (Z.ltb_ge 0 k)), andb_false_r by lia. simpl. lia. }
  rewrite (proj2 (Z.ltb_lt 0 k)), andb_true_r by lia.
  set (K := Z.min k _). set (ranked := selectTopKOpenAICandidates pool K).
  assert (Hne : (0 < length pool)%nat) by (destruct pool; simpl; [done|lia]).
  pose proof (selectTopK_submseteq pool K) as Hsub. pose proof (selectTopK_length pool K) as Hlen. fold ranked in Hsub, Hlen.
  assert (Hp : exists primary,
    match (if StickyWeighted req then stickyFirst [StickyPreviousAccountID req; StickyAccountID req] ranked else None) with
    | Some primary => Some primary
    | None => buildOpenAIWeightedSelectionOrder ranked req now1 now2
    end = Some primary /\ primary ≡ₚ ranked).
  { destruct (if StickyWeighted req then _ else None) as [primary|] eqn:E; [|apply weighted_perm].
    exists primary. split; [done|]. destruct (StickyWeighted req); [|done]. by eapply stickyFirst_perm. }
  destruct Hp as (primary & -> & Hperm). cbn [mbind option_bind]. apply Permutation_length in Hperm as Hpl.
  assert (Hps : primary ⊆+ pool) by (by rewrite Hperm).
  destruct overflow; cbn [negb orb andb].
  - destruct (_ <=? K) eqn:EK; bool_to_prop.
    + exists primary. split_and!; [done|done| |lia]. intros _. apply submseteq_length_Permutation; [done|]. lia.
    + pose proof (overflow_rest primary pool Hps) as [H1 H2]. eexists. split; [done|].
      rewrite length_app, sortSlice_perm. split_and!; [done|done|lia].
  - exists primary. split_and!; [done|done|lia|lia].
Qed.

Lemma selectionOrder_plain snap req n1 n2 n3 n4 plan : RequireCompact req = false ->
  exists order, buildOpenAISelectionOrder snap req n1 n2 n3 n4 plan = Some order /\ order ⊆+ candidates plan /\
    (if includeOverflowFallback plan && (0 <? topK plan) then NoDup (map candidateID (candidates plan)) -> order ≡ₚ candidates plan
     else Z.of_nat (length order) = Z.min (Z.max 0 (topK plan)) (Z.of_nat (length (candidates plan)))).
Proof.
  intros Hc. unfold buildOpenAISelectionOrder. rewrite Hc.
  destruct (buildSelectionOrder_spec req (topK plan) (includeOverflowFallback plan) n1 n2 (candidates plan)) as (o & H1 & H2 & H3 & _).
  by exists o.
Qed.
Lemma selectionOrder_compact (snap : bool) req n1 n2 n3 n4 plan : RequireCompact req = true ->
  exists supported unknown,
    buildOpenAISelectionOrder snap req n1 n2 n3 n4 plan =
      Some (supported ++ unknown ++ if snap then sortOpenAICompactRetryCandidates (staleSnapshotCompactRetry plan) else [])%list /\
    supported ⊆+ ofTier 2 (candidates plan) /\ unknown ⊆+ ofTier 1 (candidates plan) /\
    (0 < topK plan -> Z.min (topK plan) (Z.of_nat (length (ofTier 2 (candidates plan)))) <= Z.of_nat (length supported)).
Proof.
  intros Hc. unfold buildOpenAISelectionOrder. rewrite Hc.
  destruct (buildSelectionOrder_spec req (topK plan) (includeOverflowFallback plan) n1 n2 (ofTier 2 (candidates plan))) as (s & -> & Hs & _ & Hl).
  destruct (buildSelectionOrder_spec req (topK plan) (includeOverflowFallback plan) n3 n4 (ofTier 1 (candidates plan))) as (u & -> & Hu & _).
  cbn [mbind option_bind]. exists s, u. split_and!; [|done..]. do 3 f_equal.
  destruct snap; [|by rewrite andb_false_r]. rewrite andb_true_r. case_bool_decide as E; simpl; [|done]. by rewrite E.
Qed.
End SelectionOrder.

(** *** Accounts of a plan *)

Lemma map_filter_account (g : Account.Account -> bool) (l : list openAIAccountCandidateScore) :
  map account (List.filter (fun c => g (account c)) l) = List.filter g (map account l).
Proof. induction l as [|c l IH]; simpl; [done|]. destruct (g (account c)); simpl; by rewrite IH. Qed.
Lemma map_account_of env loadMap l : map account (map (candidateOf env loadMap) l) = l.
Proof.
  induction l as [|a l IH]; simpl; [done|]. f_equal; [|done]. unfold candidateOf.
  destruct (snapshot (stats env) (ID a)). by destruct (loadMap !! ID a).
Qed.
Definition accountsOfTier (t : Z) (l : list Account.Account) : list Account.Account :=
  List.filter (fun a => openAICompactSupportTier a =? t) l.
Lemma map_ofTier t l : map account (ofTier t l) = accountsOfTier t (map account l).
Proof. apply (map_filter_account (fun a => openAICompactSupportTier a =? t)). Qed.
Lemma tier_cases a : openAICompactSupportTier a ∈ [2; 1; 0].
Proof.
  unfold openAICompactSupportTier. destruct (IsGrok a); [set_solver|]. destruct (IsOpenAI a); simpl; [|set_solver].
  destruct (OpenAICompactSupportKnown a) as [[]|]; set_solver.
Qed.
Lemma tiers_partition l : (accountsOfTier 2 l ++ accountsOfTier 1 l ++ accountsOfTier 0 l)%list ≡ₚ l.
Proof.
  induction l as [|a l IH]; simpl; [done|]. pose proof (tier_cases a) as H.
  etrans; [|apply (perm_skip a), IH]. rewrite !elem_of_cons in H. destruct H as [->|[->|[->|H%not_elem_of_nil]]]; simpl; [done| | |done].
  - symmetry. apply Permutation_middle.
  - rewrite !app_assoc. symmetry. apply Permutation_middle.
Qed.
Lemma map_submseteq {A B} (f : A -> B) (l k : list A) : l ⊆+ k -> map f l ⊆+ map f k.
Proof. apply fmap_submseteq. Qed.
Lemma tier_of_member t l c : c ∈ ofTier t l -> tierOf c = t.
Proof. intros [_ H%Z.eqb_eq]%list_elem_of_In%filter_In. done. Qed.

(** The candidates of a plan, for the accounts that pass the compact filter. *)
Definition eligibleAccounts req (filtered : list Account.Account) : list Account.Account :=
  if RequireCompact req then List.filter (fun a => negb (openAICompactSupportTier a =? 0)) filtered else filtered.
Lemma eligible_tier req t filtered : t <> 0 -> RequireCompact req = true ->
  accountsOfTier t (eligibleAccounts req filtered) = accountsOfTier t filtered.
Proof.
  intros Ht Hc. unfold eligibleAccounts, accountsOfTier. rewrite Hc. induction filtered as [|a l IH]; simpl; [done|].
  destruct (openAICompactSupportTier a =? 0) eqn:E0; simpl; [|by rewrite IH].
  apply Z.eqb_eq in E0. rewrite E0, IH. by rewrite (proj2 (Z.eqb_neq 0 t)) by lia.
Qed.

Lemma tiers_sorted s u r : Forall (fun c => tierOf c = 2) s -> Forall (fun c => tierOf c = 1) u -> Forall (fun c => tierOf c = 0) r ->
  StronglySorted (fun c d => tierOf d <= tierOf c) (s ++ u ++ r).
Proof.
  intros Hs Hu Hr. assert (Hall : forall t l, Forall (fun c => tierOf c = t) l -> StronglySorted (fun c d => tierOf d <= tierOf c) l).
  { intros t l H. induction H as [|c l Hc H IH]; constructor; [done|]. eapply Forall_impl; [exact H|]. simpl. lia. }
  rewrite Forall_forall in Hs, Hu, Hr.
  apply StronglySorted_app_2; [|by eapply (Hall 2), Forall_forall|].
  - intros c d Hc [Hd|Hd]%elem_of_app; [rewrite (Hs c Hc), (Hu d Hd)|rewrite (Hs c Hc), (Hr d Hd)]; lia.
  - apply StronglySorted_app_2; [|by eapply (Hall 1), Forall_forall|by eapply (Hall 0), Forall_forall].
    intros c d Hc Hd. rewrite (Hu c Hc), (Hr d Hd). lia.
Qed.

Section Plan.
Context {sorting : SliceSort}.

Lemma plan_shape env req now n1 n2 n3 n4 filtered loadMap :
  exists plan,
    buildOpenAIAccountLoadPlan env req now n1 n2 n3 n4 filtered loadMap =
      (order ← buildOpenAISelectionOrder (schedulerSnapshot env) req n1 n2 n3 n4 plan; Some (plan, order)) /\
    map account (candidates plan) = eligibleAccounts req filtered /\
    (RequireCompact req = true -> map account (staleSnapshotCompactRetry plan) = accountsOfTier 0 filtered) /\
    topK plan = (if bool_decide (eligibleAccounts req filtered = []) then 0
                 else Z.max 1 (Z.min (topKSetting env) (Z.of_nat (length (eligibleAccounts req filtered))))).
Proof.
  unfold buildOpenAIAccountLoadPlan. set (all := map (candidateOf env loadMap) filtered).
  set (cands := if RequireCompact req then _ else all). set (retry := if RequireCompact req then _ else []).
  assert (Ha : map account cands = eligibleAccounts req filtered).
  { subst cands. unfold eligibleAccounts. destruct (RequireCompact req); [|apply map_account_of].
    subst all. rewrite <- (map_account_of env loadMap filtered) at 2.
    apply (map_filter_account (fun a => negb (openAICompactSupportTier a =? 0))). }
  assert (Hr : RequireCompact req = true -> map account retry = accountsOfTier 0 filtered).
  { intros Hc. subst retry. rewrite Hc, map_ofTier. unfold all. by rewrite map_account_of. }
  clearbody cands retry. rewrite <- Ha. destruct cands as [|first cands].
  { eexists. split; [done|]. simpl. by split_and!. }
  eexists. split; [reflexivity|]. cbn [candidates staleSnapshotCompactRetry topK]. split_and!; [|done|].
  - rewrite map_map. by apply map_ext.
  - rewrite bool_decide_eq_false_2 by done. rewrite !length_map. split_if; bool_to_prop; simpl length in *; lia.
Qed.
End Plan.

(** ** Theorems *)

(** C36: The best candidates.  The bounded heap keeps exactly the first [topK] of the
    candidates in the order of the scheduler, at least one, whatever [sort.Slice]
    does with equal elements; and for any scores, NaN included, the result is
    [topK] of the candidates, none twice. *)
Theorem top_candidates {sorting : SliceSort} l k :
  (selectTopKOpenAICandidates l k ⊆+ l /\
   Z.of_nat (length (selectTopKOpenAICandidates l k)) = Z.min (Z.max 1 k) (Z.of_nat (length l))) /\
  (Forall scored l -> NoDup (map candidateID l) ->
   selectTopKOpenAICandidates l k = take (Z.to_nat (Z.max 1 k)) (sortSlice isOpenAIAccountCandidateBetter l)).
Proof.
  split; [split; [apply selectTopK_submseteq|apply selectTopK_length]|]. apply selectTopK_sorted.
Qed.

(** The weighted order ends: whatever the scores, the request and the clock, the
    loop draws every candidate exactly once and no index is out of range; and the
    random source never reaches its fixed point 0, for any number of draws. *)
Theorem weighted_order_draws_all l req now1 now2 :
  (exists order, buildOpenAIWeightedSelectionOrder l req now1 now2 = Some order /\ order ≡ₚ l) /\
  forall seed n, 0 <= seed < 2 ^ 64 -> 0 < Nat.iter n (fun s => (nextUint64 s).2) (newOpenAISelectionRNG seed) < 2 ^ 64.
Proof.
  split; [apply weighted_perm|]. intros seed n Hs. induction n as [|n IH]; simpl; [|by apply xorshift_range].
  unfold newOpenAISelectionRNG, goldenGamma. split_if; bool_to_prop; lia.
Qed.

(** What the scheduler tries.  The plan never panics.  Each attempt is one of the
    accounts passed in and none is attempted more often than it occurs.  For an
    ordinary request the order has [topK] accounts (the setting, at least 1 and at
    most all), or every account when cost overflow is on.  For a compact request
    the accounts known to support it come first, then the unknown ones, and those
    known not to support it come last and only when a snapshot may be stale. *)
Theorem load_plan_order {sorting : SliceSort} env req now n1 n2 n3 n4 filtered loadMap :
  exists plan order,
    buildOpenAIAccountLoadPlan env req now n1 n2 n3 n4 filtered loadMap = Some (plan, order) /\
    map account order ⊆+ filtered /\
    (RequireCompact req = false -> filtered <> [] ->
       let k := Z.max 1 (Z.min (topKSetting env) (Z.of_nat (length filtered))) in
       topK plan = k /\
       if includeOverflowFallback plan then NoDup (map ID filtered) -> map account order ≡ₚ filtered
       else Z.of_nat (length order) = k) /\
    (RequireCompact req = true ->
       StronglySorted (fun c d => tierOf d <= tierOf c) order /\
       (if schedulerSnapshot env then accountsOfTier 0 filtered ⊆+ map account order else Forall (fun c => 0 < tierOf c) order) /\
       (accountsOfTier 2 filtered <> [] -> exists c, head order = Some c /\ tierOf c = 2)).
Proof.
  destruct (plan_shape env req now n1 n2 n3 n4 filtered loadMap) as (plan & -> & Ha & Hr & Hk).
  exists plan. destruct (RequireCompact req) eqn:Hc.
  - destruct (selectionOrder_compact (schedulerSnapshot env) req n1 n2 n3 n4 plan Hc) as (s & u & -> & Hs & Hu & Hl).
    eexists. split; [done|]. specialize (Hr eq_refl).
    set (retry := if schedulerSnapshot env then _ else []).
    assert (Hretry : retry ⊆+ staleSnapshotCompactRetry plan).
    { subst retry. destruct (schedulerSnapshot env); [by rewrite (SliceStable_perm retryLess)|apply submseteq_nil_l]. }
    assert (Ht : forall t l, l ⊆+ ofTier t (candidates plan) -> Forall (fun c => tierOf c = t) l).
    { intros t l Hsub. apply Forall_forall. intros c Hin. eapply tier_of_member. by eapply elem_of_submseteq. }
    assert (Ht0 : Forall (fun c => tierOf c = 0) retry).
    { apply Forall_forall. intros c Hin. apply (elem_of_submseteq _ _ _ Hin) in Hretry.
      apply (list_elem_of_fmap_2 account) in Hretry. change (account <$> ?l) with (map account l) in Hretry. rewrite Hr in Hretry.
      apply list_elem_of_In, filter_In in Hretry as [_ E]. by apply Z.eqb_eq in E. }
    split_and!; [|done|intros _; split_and!].
    + rewrite !map_app. rewrite <- (tiers_partition filtered). rewrite <- Hr. 
      rewrite <- (eligible_tier req 2), <- (eligible_tier req 1) by done. rewrite <- Ha, <- !map_ofTier.
      repeat apply submseteq_app; by apply map_submseteq.
    + by apply tiers_sorted; auto.
    + subst retry. destruct (schedulerSnapshot env).
      * rewrite !map_app, <- Hr, (SliceStable_perm retryLess). apply submseteq_inserts_l, submseteq_inserts_l. done.
      * rewrite app_nil_r. apply Forall_app. split; eapply Forall_impl; eauto; simpl; lia.
    + intros Hne. rewrite <- (eligible_tier req 2), <- Ha, <- map_ofTier in Hne by done.
      assert (Hpos : (0 < length (ofTier 2 (candidates plan)))%nat) by (destruct (ofTier 2 _); simpl in *; [done|lia]).
      assert (0 < topK plan).
      { rewrite Hk, bool_decide_eq_false_2; [lia|]. rewrite <- Ha. intros E. apply map_eq_nil in E. rewrite E in Hpos. simpl in Hpos. lia. }
      destruct s as [|c s]; [simpl in Hl; lia|]. exists c. split; [done|]. specialize (Ht 2 _ Hs). by apply Forall_cons in Ht as [Ht _].
  - destruct (selectionOrder_plain (schedulerSnapshot env) req n1 n2 n3 n4 plan Hc) as (o & -> & Ho & Hl).
    exists o. unfold eligibleAccounts in *. rewrite Hc in *. split; [done|]. split; [rewrite <- Ha; by apply map_submseteq|].
    split; [|done]. intros _ Hne. rewrite bool_decide_eq_false_2 in Hk by done. split; [done|].
    rewrite Hk in Hl. rewrite (proj2 (Z.ltb_lt 0 (Z.max 1 _))), andb_true_r in Hl by lia.
    assert (Hlen : length (candidates plan) = length filtered) by (by rewrite <- Ha, length_map).
    assert (0 < length filtered)%nat by (destruct filtered; simpl; [done|lia]).
    destruct (includeOverflowFallback plan); [|lia]. intros Hn. rewrite <- Ha. apply (fmap_Permutation account), Hl.
    unfold candidateID. by rewrite <- (map_map account ID), Ha.
Qed.

(** Scenarios. *)
Definition demoRequest : OpenAIAccountScheduleRequest :=
  mkRequest (Some 3) "session" 0 0 false false false "" false false "gpt-5" false ∅.
Definition demoCandidate (id : Z) (s : Z) : openAIAccountCandidateScore :=
  mkCandidate (blankAccount id PlatformOpenAI AccountTypeAPIKey) (mkLoadInfo id 0 0 0) true (float_of_Z s) 0 fzero None.
Definition demoCandidates : list openAIAccountCandidateScore := [demoCandidate 1 5; demoCandidate 2 9; demoCandidate 3 7; demoCandidate 4 9].
Definition demoWeights : GatewayOpenAIWSSchedulerScoreWeightsView :=
  mkWeights fone fone fone fone fone fzero fzero fzero fzero fzero.
Definition demoEnv : schedulerEnv := mkEnv ∅ demoWeights 2 false (fun _ _ => fzero) (fun _ _ => ∅).
Definition demoAccounts : list Account.Account :=
  [blankAccount 1 PlatformOpenAI AccountTypeAPIKey; blankAccount 2 PlatformGrok AccountTypeAPIKey; blankAccount 3 PlatformOpenAI AccountTypeAPIKey].

Lemma top_candidates_witness :
  map candidateID (selectTopKOpenAICandidates (sorting := stableSliceSort) demoCandidates 3) = [2; 4; 3] /\
  selectTopKOpenAICandidates (sorting := stableSliceSort) demoCandidates 3 =
    take 3 (SliceStable isOpenAIAccountCandidateBetter demoCandidates).
Proof.
  split; [vm_compute; reflexivity|].
  apply (top_candidates (sorting := stableSliceSort) demoCandidates 3).
  - repeat constructor.
  - apply (bool_decide_eq_true_1 _). vm_compute. reflexivity.
Defined.
Lemma weighted_order_draws_all_witness :
  map candidateID <$> buildOpenAIWeightedSelectionOrder demoCandidates demoRequest 0 0 = Some [4; 3; 2; 1] /\
  0 < (nextUint64 (newOpenAISelectionRNG 0)).2 < 2 ^ 64.
Proof.
  split; [vm_compute; reflexivity|].
  apply (proj2 (weighted_order_draws_all demoCandidates demoRequest 0 0) 0 1%nat). lia.
Defined.
Definition compactRequest : OpenAIAccountScheduleRequest := { demoRequest with RequireCompact := true }.
Lemma load_plan_order_witness :
  match buildOpenAIAccountLoadPlan (sorting := stableSliceSort) demoEnv compactRequest 0 0 0 0 0 demoAccounts ∅ with
  | Some (_, order) => StronglySorted (fun c d => tierOf d <= tierOf c) order /\ map candidateID order = [2; 3; 1]
  | None => False
  end.
Proof.
  destruct (load_plan_order (sorting := stableSliceSort) demoEnv compactRequest 0 0 0 0 0 demoAccounts ∅)
    as (plan & order & E & _ & _ & H). rewrite E. split; [exact (proj1 (H eq_refl))|]. clear H. revert E.
  vm_compute. intros E. injection E as _ <-. reflexivity.
Defined.
