(* ===== verification/Scheduler.v ===== *)
(** * Account selection ([service/openai_account_scheduler.go])

    How the scheduler turns an order of candidates into a slot: it acquires a slot
    of the concurrency service for each candidate in turn, checks the account
    again, and gives the slot back when a check fails; when no slot is free it
    answers with a plan to wait.  What it asks of the rest of the gateway is the
    signature [serviceCall]; what it relies on is [GatewaySpec]: no such call
    touches slots, and the cache answers ([AccountSlots]).  The profit gate and
    the previous-response layer are not modelled; a context is never cancelled. *)

From S2P Require Import Prelude Float64 Errors RedisSlots ConcurrencyCache ConcurrencyService Subscription.
From S2P Require Import AccountQuota Ordering Account Candidates.

(** ** Probe budget *)

Definition openAIAccountSelectionProbeLimit : Z := 64.
Record openAISelectionProbeBudget := mkBudget { acquires : Z; rechecks : Z; attempted : gset Z; limited : bool }.
Definition newOpenAISelectionProbeBudget : openAISelectionProbeBudget := mkBudget 0 0 ∅ false.
Definition enableLimit (b : openAISelectionProbeBudget) : openAISelectionProbeBudget := { b with limited := true }.
Definition recordAcquire (accountID : Z) : ST openAISelectionProbeBudget bool := fun b =>
  if negb (limited b) then (true, b)
  else if openAIAccountSelectionProbeLimit <=? acquires b then (false, b)
  else (true, mkBudget (acquires b + 1) (rechecks b) ({[accountID]} ∪ attempted b) (limited b)).
Definition recordRecheck : ST openAISelectionProbeBudget bool := fun b =>
  if negb (limited b) then (true, b)
  else if openAIAccountSelectionProbeLimit <=? rechecks b then (false, b)
  else (true, mkBudget (acquires b) (rechecks b + 1) (attempted b) (limited b)).
Definition acquireExhausted (b : openAISelectionProbeBudget) : bool :=
  limited b && (openAIAccountSelectionProbeLimit <=? acquires b).
Definition wasAttempted (b : openAISelectionProbeBudget) (accountID : Z) : bool := bool_decide (accountID ∈ attempted b).

(** ** What the scheduler asks of the service *)

Inductive serviceCall : Type -> Type :=
| Now : serviceCall time
| ListSchedulableAccounts : serviceCall (result goerror (list Account.Account))
  (** The Grok filters; [Err] carries the reason when one of them leaves nothing. *)
| FilterGrokAccounts (accounts : list Account.Account) : serviceCall (result string (list Account.Account))
| GroupRequiresPrivacySet : serviceCall bool
| RuntimeBlocked (a : Account.Account) : serviceCall bool
  (** [isAccountRequestCompatibleReason]: the reason of the veto, if there is one. *)
| CompatibleReason (a : Account.Account) : serviceCall (option string)
| TransportCompatible (a : Account.Account) : serviceCall bool
| GetSchedulableAccount (id : Z) : serviceCall (option Account.Account)
| ResolveFresh (a : Account.Account) : serviceCall (option Account.Account)
| RecheckFromDB (a : Account.Account) (requireCompact : bool) : serviceCall (option Account.Account)
| MatchesSchedulingGroup (a : Account.Account) : serviceCall bool
| GrokBlocked (a : Account.Account) : serviceCall bool
| ShouldClearSticky (a : Account.Account) : serviceCall bool
| GetSticky : serviceCall (option Z)
| BindSticky (id : Z) : serviceCall unit
| RefreshSticky : serviceCall unit
| DeleteSticky : serviceCall unit
| AccountsLoadBatch (fresh : bool) (accounts : list (Z * Z)) : serviceCall (result goerror (gmap Z LoadInfo)).

Class Gateway (W : Type) := { perform {A} : OpenAIAccountScheduleRequest -> serviceCall A -> ST W A }.

Record schedulerConfig := mkSchedulerConfig {
  env : schedulerEnv;
  concurrencyService : bool;
  accountRepo : bool;
  hasSessionCache : bool;
  escapeConfig : openAIStickyEscapeConfig;
  platform : string;
  StickySessionWaitTimeout : duration;
  StickySessionMaxWaiting : Z;
  FallbackWaitTimeout : duration;
  FallbackMaxWaiting : Z }.

Record AccountWaitPlan := mkWaitPlan { wp_AccountID : Z; wp_MaxConcurrency : Z; wp_Timeout : duration; wp_MaxWaiting : Z }.

(** ** Errors *)

Definition ErrNoAvailableCompactAccounts : goerror := PlainErr 407 "no available accounts support /responses/compact".
Definition noAvailableOpenAISelectionError (requestedModel : string) (compactBlocked : bool) (details : string) : goerror :=
  if compactBlocked then ErrNoAvailableCompactAccounts
  else
    let message := if String.eqb requestedModel "" then "no available OpenAI accounts"
                   else "no available OpenAI accounts supporting model: " +:+ requestedModel in
    PlainErr 323 (if String.eqb details "" then message else message +:+ " (" +:+ details +:+ ")").

Record openAISelectionFilterStats := mkFilterStats { pool : Z; reasons : gmap string Z }.
Definition exclude (s : openAISelectionFilterStats) (reason : string) : openAISelectionFilterStats :=
  mkFilterStats (pool s) (<[reason := default 0 (reasons s !! reason) + 1]> (reasons s)).
Definition noStats : openAISelectionFilterStats := mkFilterStats 0 ∅.

Definition NormalizeOpenAICompatiblePlatform (platform : string) : string :=
  if bool_decide (platform ∈ [PlatformGrok; PlatformKimi; PlatformZhipu; PlatformDeepseek]) then platform else PlatformOpenAI.

Section Scheduler.
Context {W : Type} {cache : Cache W} {gateway : Gateway W} {sorting : SliceSort} (cfg : schedulerConfig)
  (LoadLocation : string -> option (time -> duration)) {numbers : JsonNumbers}.
Implicit Types (req : OpenAIAccountScheduleRequest) (a fresh : Account.Account).

Record AccountSelectionResult := mkSelection {
  sel_Account : Account.Account;
  sel_Acquired : bool;
  sel_Release : option (ST W unit);
  sel_WaitPlan : option AccountWaitPlan }.

Record sched := mkSched { proc : process W; budget : openAISelectionProbeBudget }.

Definition call {A} req (c : serviceCall A) : ST sched A :=
  fun s => let '(a, w) := perform req c (world (proc s)) in
           (a, mkSched (mkProcess (requestIDPrefix (proc s)) (requestIDCounter (proc s)) w) (budget s)).
Definition withProcess {A} (m : ST (process W) A) : ST sched A :=
  fun s => let '(a, p) := m (proc s) in (a, mkSched p (budget s)).
Definition withBudget {A} (m : ST openAISelectionProbeBudget A) : ST sched A :=
  fun s => let '(a, b) := m (budget s) in (a, mkSched (proc s) b).
Definition release (f : option (ST W unit)) : ST sched unit :=
  match f with Some m => withProcess (lift m) | None => mret tt end.
Definition summary (s : openAISelectionFilterStats) (extra : string) : string :=
  let keys := map fst (sortSlice (fun x y => String.ltb x.1 y.1) (map_to_list (reasons s))) in
  let listed := foldr (fun k acc => (" " +:+ k +:+ "=" +:+ Itoa (default 0 (reasons s !! k))) +:+ acc) "" keys in
  let filtered := if bool_decide (keys = []) then "" else ", filtered:" +:+ listed in
  "pool=" +:+ Itoa (pool s) +:+ filtered +:+ (if String.eqb extra "" then "" else ", " +:+ extra).

(** ** Slots *)

Definition serviceAcquire (accountID maxConcurrency : Z) : ST sched (result goerror (AcquireResult W)) :=
  if negb (concurrencyService cfg) then mret (Ok (mkAcquire true (Some (mret tt))))
  else withProcess (AcquireAccountSlot accountID maxConcurrency).
(** [None]: the budget allows no attempt. *)
Definition tryAcquireOpenAIAccountSlot (accountID maxConcurrency : Z) : ST sched (option (result goerror (AcquireResult W))) :=
  allowed ← (if concurrencyService cfg && (0 <? maxConcurrency) then withBudget (recordAcquire accountID) else mret true);
  if negb allowed then mret None else (r ← serviceAcquire accountID maxConcurrency; mret (Some r)).
Definition consumeOpenAISelectionDBRecheck : ST sched bool :=
  if negb (schedulerSnapshot (env cfg)) || negb (accountRepo cfg) then mret true else withBudget recordRecheck.

(** The account if it is there and its transport and the request suit it. *)
Definition suitable req (account : option Account.Account) : ST sched (option Account.Account) :=
  match account with
  | None => mret None
  | Some a =>
      transport ← call req (TransportCompatible a);
      if negb transport then mret None
      else (veto ← call req (CompatibleReason a); mret (match veto with None => Some a | Some _ => None end))
  end.

Definition selected req fresh (result : AcquireResult W) : ST sched AccountSelectionResult :=
  _ ← (if negb (String.eqb (SessionHash req) "") && negb (PreserveStickyBinding req)
       then call req (BindSticky (ID fresh)) else mret tt);
  mret (mkSelection fresh true (ReleaseFunc result) None).

Definition knownFull (c : openAIAccountCandidateScore) : bool :=
  loadKnown c && (0 <? Concurrency (account c)) && (Concurrency (account c) <=? li_CurrentConcurrency (loadInfo c)).

(** [tryAcquireOpenAISelectionOrderWithBudget] from one candidate on. *)
Fixpoint tryAcquireOrder req (selectionOrder : list openAIAccountCandidateScore) (compactBlocked : bool)
  : ST sched (result goerror (option AccountSelectionResult) * bool) :=
  match selectionOrder with
  | [] => mret (Ok None, compactBlocked)
  | candidate :: rest =>
      let next := tryAcquireOrder req rest in
      let a := account candidate in
      if knownFull candidate then next compactBlocked
      else
        slot ← tryAcquireOpenAIAccountSlot (ID a) (Concurrency a);
        match slot with
        | None => mret (Ok None, compactBlocked)
        | Some (Err e) => mret (Err e, compactBlocked)
        | Some (Ok result) =>
            if negb (Acquired result) then next compactBlocked
            else
              fresh ← (resolved ← call req (ResolveFresh a); suitable req resolved);
              match fresh with
              | None => _ ← release (ReleaseFunc result); next compactBlocked
              | Some fresh =>
                  allowed ← consumeOpenAISelectionDBRecheck;
                  if negb allowed then _ ← release (ReleaseFunc result); mret (Ok None, compactBlocked)
                  else
                    latest ← (checked ← call req (RecheckFromDB fresh false); suitable req checked);
                    match latest with
                    | None => _ ← release (ReleaseFunc result); next compactBlocked
                    | Some fresh =>
                        if RequireCompact req && (openAICompactSupportTier fresh =? 0) then
                          _ ← release (ReleaseFunc result); next true
                        else if negb (Concurrency fresh =? Concurrency a) then
                          _ ← release (ReleaseFunc result);
                          slot ← tryAcquireOpenAIAccountSlot (ID fresh) (Concurrency fresh);
                          match slot with
                          | None => next compactBlocked
                          | Some (Err e) => mret (Err e, compactBlocked)
                          | Some (Ok result) =>
                              if negb (Acquired result) then next compactBlocked
                              else (sel ← selected req fresh result; mret (Ok (Some sel), compactBlocked))
                          end
                        else (sel ← selected req fresh result; mret (Ok (Some sel), compactBlocked))
                    end
              end
        end
  end.
Definition tryAcquireOpenAISelectionOrderWithBudget req selectionOrder := tryAcquireOrder req selectionOrder false.
Definition tryAcquireOpenAISelectionOrder req selectionOrder : ST sched (result goerror (option AccountSelectionResult) * bool) :=
  fun s =>
    let '(r, s') := tryAcquireOpenAISelectionOrderWithBudget req selectionOrder
                      (mkSched (proc s) (enableLimit newOpenAISelectionProbeBudget)) in
    (r, mkSched (proc s') (budget s)).

(** ** Waiting plans *)

Definition waitFor a (timeout : duration) (maxWaiting : Z) : AccountSelectionResult :=
  mkSelection a false None (Some (mkWaitPlan (ID a) (Concurrency a) timeout maxWaiting)).
Definition knownExcluded req (id : Z) : bool := bool_decide (id ∈ ExcludedIDs req).
(** The request first, then the transport. *)
Definition admissible req a : ST sched bool :=
  veto ← call req (CompatibleReason a);
  match veto with Some _ => mret false | None => call req (TransportCompatible a) end.

Fixpoint stickyFallback req (ids : list Z) : ST sched (result goerror (option AccountSelectionResult)) :=
  match ids with
  | [] => mret (Ok None)
  | accountID :: rest =>
      let next := stickyFallback req rest in
      let forget : ST sched unit :=
        if (accountID =? StickyAccountID req) && negb (String.eqb (TrimSpace (SessionHash req)) "")
        then call req DeleteSticky else mret tt in
      if (accountID <=? 0) || knownExcluded req accountID then next
      else
        found ← call req (GetSchedulableAccount accountID);
        match found with
        | None => next
        | Some account =>
            ok ← admissible req account;
            if negb ok then next
            else
              checked ← call req (RecheckFromDB account (RequireCompact req));
              match checked with
              | None => _ ← forget; next
              | Some account =>
                  matches ← call req (MatchesSchedulingGroup account);
                  if negb matches then _ ← forget; next
                  else
                    ok ← admissible req account;
                    if negb ok then next
                    else if RequireCompact req && (openAICompactSupportTier account =? 0) then next
                    else
                      blocked ← call req (GrokBlocked account);
                      if (blocked : bool) then next
                      else
                        slot ← serviceAcquire (ID account) (Concurrency account);
                        match slot with
                        | Err e => mret (Err e)
                        | Ok result =>
                            if Acquired result then (sel ← selected req account result; mret (Ok (Some sel)))
                            else if concurrencyService cfg
                            then mret (Ok (Some (waitFor account (StickySessionWaitTimeout cfg) (StickySessionMaxWaiting cfg))))
                            else next
                        end
              end
        end
  end.
Definition tryFallbackToWeightedSticky req : ST sched (result goerror (option AccountSelectionResult)) :=
  if negb (StickyWeighted req) then mret (Ok None)
  else stickyFallback req [StickyPreviousAccountID req; StickyAccountID req].

(** ** The last resort: wait for an account *)

Record attempt := mkAttempt {
  at_order : list openAIAccountCandidateScore;
  at_candidateCount : Z;
  at_topK : Z;
  at_loadSkew : float64;
  at_compactBlocked : bool;
  at_noCompactCandidates : bool;
  at_result : result goerror (option AccountSelectionResult) }.
Record outcome := mkOutcome { out_result : result goerror (option AccountSelectionResult); out_candidateCount : Z; out_topK : Z; out_loadSkew : float64 }.

Inductive waitResult := WaitFound (s : AccountSelectionResult) | WaitStopped | WaitNone.

(** One pass over the order; [skip] tells which candidates are left to another pass. *)
Fixpoint waitPass req (skip : openAIAccountCandidateScore -> openAISelectionProbeBudget -> bool)
    (order : list openAIAccountCandidateScore) (compactBlocked : bool) : ST sched (waitResult * bool) :=
  match order with
  | [] => mret (WaitNone, compactBlocked)
  | candidate :: rest =>
      let next := waitPass req skip rest in
      s ← get;
      if skip candidate (budget s) then next compactBlocked
      else
        fresh ← (resolved ← call req (ResolveFresh (account candidate)); suitable req resolved);
        match fresh with
        | None => next compactBlocked
        | Some fresh =>
            allowed ← consumeOpenAISelectionDBRecheck;
            if negb allowed then mret (WaitStopped, compactBlocked)
            else
              latest ← (checked ← call req (RecheckFromDB fresh false); suitable req checked);
              match latest with
              | None => next compactBlocked
              | Some fresh =>
                  if RequireCompact req && (openAICompactSupportTier fresh =? 0) then next true
                  else mret (WaitFound (waitFor fresh (FallbackWaitTimeout cfg) (FallbackMaxWaiting cfg)), compactBlocked)
              end
        end
  end.
(** Accounts not probed before probed ones, and the ones known to be full after
    the others; without a budget there is one pass. *)
Definition skipInPass (pass : Z) (candidate : openAIAccountCandidateScore) (b : openAISelectionProbeBudget) : bool :=
  let wantAttempted := (pass =? 1) || (pass =? 3) in
  let wantKnownFull := 2 <=? pass in
  limited b && (negb (Bool.eqb (wasAttempted b (candidateID candidate)) wantAttempted) ||
                negb (Bool.eqb (knownFull candidate) wantKnownFull)).
Fixpoint waitPasses req (order : list openAIAccountCandidateScore) (passes : list Z) (compactBlocked : bool) : ST sched (waitResult * bool) :=
  match passes with
  | [] => mret (WaitNone, compactBlocked)
  | pass :: rest =>
      r ← waitPass req (skipInPass pass) order compactBlocked;
      match r with
      | (WaitNone, compactBlocked) => waitPasses req order rest compactBlocked
      | _ => mret r
      end
  end.
Definition finishLoadBalanceSelectionFallback req (at_ : attempt) (filterStats : openAISelectionFilterStats) : ST sched outcome :=
  let finish r := mkOutcome r (at_candidateCount at_) (at_topK at_) (at_loadSkew at_) in
  match at_order at_ with
  | [] => mret (finish (Err (noAvailableOpenAISelectionError (RequestedModel req) (at_compactBlocked at_) (summary filterStats "selection_order_empty"))))
  | _ =>
      sticky ← tryFallbackToWeightedSticky req;
      match sticky with
      | Err e => mret (finish (Err e))
      | Ok (Some sel) => mret (finish (Ok (Some sel)))
      | Ok None =>
          s ← get;
          r ← waitPasses req (at_order at_) (if limited (budget s) then [0; 1; 2; 3] else [0]) (at_compactBlocked at_);
          match r with
          | (WaitFound sel, _) => mret (finish (Ok (Some sel)))
          | (_, compactBlocked) =>
              mret (finish (Err (noAvailableOpenAISelectionError (RequestedModel req) compactBlocked (summary filterStats "selection_order_exhausted"))))
          end
      end
  end.

(** ** Load balancing over a pool *)

Definition UnixNano (t : time) : Z := t - unixEpoch.
(** The plan with its clock readings; [None] would be a panic. *)
Definition planFor req (filtered : list Account.Account) (loadMap : gmap Z LoadInfo)
  : ST sched (option (openAIAccountLoadPlan * list openAIAccountCandidateScore)) :=
  now ← call req Now; n1 ← call req Now; n2 ← call req Now; n3 ← call req Now; n4 ← call req Now;
  mret (buildOpenAIAccountLoadPlan (env cfg) req now (UnixNano n1) (UnixNano n2) (UnixNano n3) (UnixNano n4) filtered loadMap).
Definition openAICostOverflowExpanded req (plan : openAIAccountLoadPlan) : bool :=
  if negb (includeOverflowFallback plan) || (topK plan <=? 0) then false
  else if negb (RequireCompact req) then topK plan <? Z.of_nat (length (candidates plan))
  else (topK plan <? Z.of_nat (length (ofTier 2 (candidates plan)))) || (topK plan <? Z.of_nat (length (ofTier 1 (candidates plan)))).
Definition buildOpenAIAccountLoadRequest (accounts : list Account.Account) : list (Z * Z) :=
  map (fun a => (ID a, EffectiveLoadFactor a)) accounts.
Definition limitIf (b : bool) : ST sched unit := withBudget (fun x => (tt, if b then enableLimit x else x)).
Definition panicError : goerror := PlainErr 0 "panic: index out of range".

Definition failAttempt (at_ : attempt) (e : goerror) : attempt := { at_ with at_result := Err e }.
Definition trySelectByLoadBalancePool req (filtered : list Account.Account) (loadMap : gmap Z LoadInfo) : ST sched attempt :=
  p ← planFor req filtered loadMap;
  match p with
  | None => mret (mkAttempt [] 0 0 fzero false false (Err panicError))
  | Some (plan, order) =>
      _ ← limitIf (openAICostOverflowExpanded req plan);
      let at_ := mkAttempt order (Z.of_nat (length (candidates plan))) (topK plan) (loadSkew plan) false false (Ok None) in
      let noCompact := { failAttempt at_ ErrNoAvailableCompactAccounts with at_noCompactCandidates := true } in
      if RequireCompact req && bool_decide (candidates plan = []) && bool_decide (staleSnapshotCompactRetry plan = []) then mret noCompact
      else if RequireCompact req && bool_decide (order = []) && negb (schedulerSnapshot (env cfg)) then mret noCompact
      else if bool_decide (order = []) then
        mret { at_ with at_compactBlocked := RequireCompact req && negb (bool_decide (allCandidates plan = [])) }
      else
        r ← tryAcquireOpenAISelectionOrderWithBudget req order;
        let at_ := { { at_ with at_compactBlocked := r.2 } with at_result := r.1 } in
        match r.1 with
        | Err _ | Ok (Some _) => mret at_
        | Ok None =>
            s ← get;
            if negb (concurrencyService cfg) || acquireExhausted (budget s) then mret at_
            else
              fresh ← call req (AccountsLoadBatch true (buildOpenAIAccountLoadRequest filtered));
              match fresh with
              | Err _ => mret at_
              | Ok freshLoadMap =>
                  p ← planFor req filtered freshLoadMap;
                  match p with
                  | None => mret (failAttempt at_ panicError)
                  | Some (freshPlan, freshOrder) =>
                      _ ← limitIf (openAICostOverflowExpanded req freshPlan);
                      if bool_decide (freshOrder = []) then mret at_
                      else
                        r ← tryAcquireOpenAISelectionOrderWithBudget req freshOrder;
                        let updated := mkAttempt freshOrder (Z.of_nat (length (candidates freshPlan))) (topK freshPlan) (loadSkew freshPlan) in
                        match r.1 with
                        | Err e => mret (failAttempt at_ e)
                        | Ok (Some sel) => mret (updated (at_compactBlocked at_) false (Ok (Some sel)))
                        | Ok None => mret (updated (at_compactBlocked at_ || r.2) false (Ok None))
                        end
                  end
              end
        end
  end.

(** The filter of [selectByLoadBalance]: the accounts that are kept, and why the
    others are not. *)
Fixpoint filterAccounts req (privacy : bool) (accounts : list Account.Account) (st : openAISelectionFilterStats)
  : ST sched (list Account.Account * openAISelectionFilterStats) :=
  match accounts with
  | [] => mret ([], st)
  | a :: rest =>
      let drop reason := filterAccounts req privacy rest (exclude st reason) in
      if knownExcluded req (ID a) then drop "excluded"
      else
        now ← call req Now;
        if negb (IsSchedulable LoadLocation a now) then drop "not_schedulable"
        else if negb (String.eqb (Platform a) (NormalizeOpenAICompatiblePlatform (platform cfg))) || negb (IsOpenAICompatible a)
        then drop "platform_mismatch"
        else
          blocked ← call req (RuntimeBlocked a);
          if (blocked : bool) then drop "runtime_blocked"
          else if privacy && negb (IsPrivacySet a) then drop "privacy_not_set"
          else
            veto ← call req (CompatibleReason a);
            match veto with
            | Some reason => drop reason
            | None =>
                transport ← call req (TransportCompatible a);
                if negb transport then drop "transport_incompatible"
                else (r ← filterAccounts req privacy rest st; mret (a :: r.1, r.2))
            end
  end.
Definition partitionOpenAIChatGPTSubscriptionAccounts (accounts : list Account.Account) : list Account.Account * list Account.Account :=
  (List.filter IsOpenAIChatGPTSubscription accounts, List.filter (fun a => negb (IsOpenAIChatGPTSubscription a)) accounts).

Definition outcomeOf (at_ : attempt) : outcome :=
  mkOutcome (at_result at_) (at_candidateCount at_) (at_topK at_) (at_loadSkew at_).
Definition poolOrFallback req (filterStats : openAISelectionFilterStats) (at_ : attempt) : ST sched outcome :=
  match at_result at_ with
  | Ok None => finishLoadBalanceSelectionFallback req at_ filterStats
  | _ => mret (outcomeOf at_)
  end.
(** The pool of subscriptions had no free slot; the regular accounts are tried,
    then waiting for one of them, then waiting for a subscription. *)
Definition regularAfterSubscription req (filterStats : openAISelectionFilterStats) (subscription regular : attempt) : ST sched outcome :=
  first ← (match at_result regular with
           | Err _ => mret (outcomeOf regular)
           | Ok _ => finishLoadBalanceSelectionFallback req regular filterStats
           end);
  match out_result first with
  | Ok (Some _) => mret first
  | _ =>
      second ← finishLoadBalanceSelectionFallback req subscription filterStats;
      match out_result second with Ok (Some _) => mret second | _ => mret first end
  end.
Definition failedFor (at_ : attempt) (final : bool) : bool :=
  match at_result at_ with Err _ => negb (at_noCompactCandidates at_) || final | Ok _ => false end.
Definition selectWithinAccounts req (filtered : list Account.Account) (loadMap : gmap Z LoadInfo) (filterStats : openAISelectionFilterStats)
  : ST sched outcome :=
  let '(subscriptionAccounts, regularAccounts) := partitionOpenAIChatGPTSubscriptionAccounts filtered in
  if SubscriptionPriority req && negb (bool_decide (subscriptionAccounts = [])) then
    at_ ← trySelectByLoadBalancePool req subscriptionAccounts loadMap;
    if failedFor at_ (bool_decide (regularAccounts = [])) then mret (outcomeOf at_)
    else match at_result at_ with
    | Ok (Some _) => mret (outcomeOf at_)
    | _ =>
        if bool_decide (regularAccounts = []) then finishLoadBalanceSelectionFallback req at_ filterStats
        else
          regular ← trySelectByLoadBalancePool req regularAccounts loadMap;
          if failedFor regular false then mret (outcomeOf regular)
          else match at_result regular with
          | Ok (Some _) => mret (outcomeOf regular)
          | _ => regularAfterSubscription req filterStats at_ regular
          end
    end
  else (at_ ← trySelectByLoadBalancePool req filtered loadMap; poolOrFallback req filterStats at_).

Definition noAccounts req (details : string) : outcome :=
  mkOutcome (Err (noAvailableOpenAISelectionError (RequestedModel req) false details)) 0 0 fzero.
Definition selectByLoadBalance req : ST sched outcome :=
  _ ← withBudget (fun _ => (tt, newOpenAISelectionProbeBudget));
  listed ← call req ListSchedulableAccounts;
  match listed with
  | Err e => mret (mkOutcome (Err e) 0 0 fzero)
  | Ok [] => mret (noAccounts req (summary noStats ""))
  | Ok accounts =>
      filtered ← call req (FilterGrokAccounts accounts);
      match filtered with
      | Err reason => mret (noAccounts req (summary noStats reason))
      | Ok accounts =>
          privacy ← call req GroupRequiresPrivacySet;
          r ← filterAccounts req privacy accounts (mkFilterStats (Z.of_nat (length accounts)) ∅);
          let '(filtered, filterStats) := r in
          if bool_decide (filtered = []) then mret (noAccounts req (summary filterStats ""))
          else
            loads ← (if concurrencyService cfg then call req (AccountsLoadBatch false (buildOpenAIAccountLoadRequest filtered)) else mret (Ok ∅));
            selectWithinAccounts req filtered (match loads with Ok m => m | Err _ => ∅ end) filterStats
      end
  end.

(** ** The session's account *)

(** [selectBySessionHash]: the selection, and whether the session left its account. *)
Definition selectBySessionHash req : ST sched (option AccountSelectionResult * bool) :=
  let none := mret (None, false) in
  if String.eqb (TrimSpace (SessionHash req)) "" || negb (hasSessionCache cfg) then none
  else
    let clearBinding : ST sched unit := if PreserveStickyBinding req then mret tt else call req DeleteSticky in
    let clear := (_ ← clearBinding; none) in
    found ← (if 0 <? StickyAccountID req then mret (Some (StickyAccountID req)) else call req GetSticky);
    match found with
    | None => none
    | Some accountID =>
        if (accountID <=? 0) || knownExcluded req accountID then none
        else
          account ← call req (GetSchedulableAccount accountID);
          match account with
          | None => clear
          | Some a =>
              shouldClear ← call req (ShouldClearSticky a);
              now ← call req Now;
              if shouldClear || negb (String.eqb (Platform a) (NormalizeOpenAICompatiblePlatform (platform cfg))) ||
                 negb (IsOpenAICompatible a) || negb (IsSchedulable LoadLocation a now) then clear
              else
                veto ← call req (CompatibleReason a);
                if match veto : option string with Some _ => true | None => false end then none
                else
                  transport ← call req (TransportCompatible a);
                  if negb transport then clear
                  else
                    checked ← call req (RecheckFromDB a (RequireCompact req));
                    match checked with
                    | None => clear
                    | Some a =>
                        matches ← call req (MatchesSchedulingGroup a);
                        ok ← (if negb matches then mret false else admissible req a);
                        if negb ok then clear
                        else
                          blocked ← call req (GrokBlocked a);
                          if (blocked : bool) then clear
                          else match shouldEscapeStickyAccount (stats (env cfg)) accountID (escapeConfig cfg) with
                          | Some _ => mret (None, true)
                          | None =>
                              slot ← serviceAcquire accountID (Concurrency a);
                              match slot with
                              | Ok (mkAcquire true f) =>
                                  _ ← (if PreserveStickyBinding req then mret tt else call req RefreshSticky);
                                  mret (Some (mkSelection a true f None), false)
                              | _ =>
                                  if negb (concurrencyService cfg) then none
                                  else if esc_enabled (escapeConfig cfg) && match slot with Ok _ => true | Err _ => false end
                                  then mret (None, true)
                                  else mret (Some (mkSelection a false None
                                         (Some (mkWaitPlan accountID (Concurrency a) (StickySessionWaitTimeout cfg) (StickySessionMaxWaiting cfg)))), false)
                              end
                          end
                    end
          end
    end.
End Scheduler.

(** ** What the scheduler relies on *)

Abbreviation slotsOf w id := (holders w ConcurrencyCache.Account id).

(** While the cache is healthy, acquisitions and releases are answered, and they
    give no slot of another account. *)
Class AccountSlots (W : Type) {cache : Cache W} {spec : SlotSpec W} := {
  healthy : W -> Prop;
  acquire_answers id m r w : healthy w ->
    let '(res, w') := cacheAcquireAccountSlot id m r w in
    healthy w' /\ (exists b, res = Ok b) /\ forall id', id' <> id -> slotsOf w' id' ⊆ slotsOf w id';
  release_answers id r w : healthy w ->
    let '(res, w') := cacheReleaseAccountSlot id r w in
    res = Ok tt /\ healthy w' /\ forall id', slotsOf w' id' ⊆ slotsOf w id' }.

(** The calls read and bind sessions; a fresh copy of an account is that account. *)
Class GatewaySpec (W : Type) {cache : Cache W} {spec : SlotSpec W} {slots : AccountSlots W} {gateway : Gateway W} := {
  perform_quiet {A} req (c : serviceCall A) w : healthy w ->
    healthy (perform req c w).2 /\ forall id, slotsOf (perform req c w).2 id = slotsOf w id;
  resolve_same req a w b : (perform req (ResolveFresh a) w).1 = Some b -> ID b = ID a;
  recheck_same req a compact w b : (perform req (RecheckFromDB a compact) w).1 = Some b -> ID b = ID a;
  schedulable_same req id w b : (perform req (GetSchedulableAccount id) w).1 = Some b -> ID b = id }.

Lemma gain_trans (A B C R : gset string) : A ⊆ B ∪ R -> B ⊆ C -> A ⊆ C ∪ R.
Proof.
  intros H1 H2 x [Hx|Hx]%H1%elem_of_union; [by apply elem_of_union_l, H2|by apply elem_of_union_r].
Qed.
Lemma give_back (A B C R : gset string) : A ⊆ B -> B ⊆ C ∪ R -> R ## A -> A ⊆ C.
Proof. intros H1 H2 H3 x Hx. apply H1 in Hx as Hb. apply H2, elem_of_union in Hb as [|HR]; [done|]. destruct (H3 x HR Hx). Qed.

Section Facts.
Context {W : Type} {cache : Cache W} {spec : SlotSpec W} {slots : AccountSlots W} {gateway : Gateway W}
  {quiet : GatewaySpec W} {sorting : SliceSort} (cfg : schedulerConfig)
  (LoadLocation : string -> option (time -> duration)) {numbers : JsonNumbers}.
Implicit Types (s : sched (W := W)) (req : OpenAIAccountScheduleRequest).

(** ** Weakest preconditions *)

Definition wp {A} (m : ST (sched (W := W)) A) (Q : A -> sched -> Prop) s : Prop := Q (m s).1 (m s).2.
Lemma wp_bind {A B} (m : ST (sched (W := W)) A) (f : A -> ST sched B) Q s : wp m (fun a s' => wp (f a) Q s') s -> wp (m ≫= f) Q s.
Proof. unfold wp. by rewrite bind_run. Qed.
Lemma wp_ret {A} (a : A) Q s : Q a s -> wp (mret a) Q s.
Proof. done. Qed.
Lemma wp_mono {A} (m : ST (sched (W := W)) A) (Q Q' : A -> sched -> Prop) s : wp m Q s -> (forall a s', Q a s' -> Q' a s') -> wp m Q' s.
Proof. unfold wp. auto. Qed.

(** ** What a step may do to slots, request ids and the budget *)

Definition heldAt s id : gset string := slotsOf (world (proc s)) id.
Definition good s : Prop := healthy (world (proc s)).
Definition counter s : Z := requestIDCounter (proc s).
(** Under a limit, request ids are drawn as fast as the budget counts, and no faster. *)
Definition charge s s' : Prop :=
  limited (budget s') = limited (budget s) /\
  (limited (budget s) = true -> 0 <= acquires (budget s) <= 64 ->
     acquires (budget s) <= acquires (budget s') <= 64 /\
     counter s' mod 2 ^ 64 = (counter s + (acquires (budget s') - acquires (budget s))) mod 2 ^ 64) /\
  (limited (budget s) = true -> 0 <= rechecks (budget s) <= 64 -> rechecks (budget s) <= rechecks (budget s') <= 64).
(** [exact]: the budget is in force all along, and only the candidate loop acquires. *)
Variable exact : Prop.
Definition spent s s' : Prop := exact -> charge s s'.
(** Nothing happened to the slots. *)
Definition same s s' : Prop := good s' /\ (forall id, heldAt s' id = heldAt s id) /\ spent s s'.
(** Nobody gained a slot. *)
Definition sub s s' : Prop := good s' /\ (forall id, heldAt s' id ⊆ heldAt s id) /\ spent s s'.

Lemma spent_quiet s s' : budget s' = budget s -> counter s' = counter s -> spent s s'.
Proof.
  intros E1 E2 _. unfold charge. rewrite E1, E2, Z.sub_diag, Z.add_0_r. split_and!; [done|split; [lia|done]|lia].
Qed.
Lemma spent_refl s : spent s s.
Proof. by apply spent_quiet. Qed.
Lemma spent_trans s1 s2 s3 : spent s1 s2 -> spent s2 s3 -> spent s1 s3.
Proof.
  intros H12 H23 Hx. destruct (H12 Hx) as (H1 & H2 & H3), (H23 Hx) as (H1' & H2' & H3').
  split; [congruence|]. rewrite H1 in H2', H3'. split; intros Hl Hb.
  - destruct (H2 Hl Hb) as [Ha Hc]. destruct (H2' Hl ltac:(lia)) as [Ha' Hc']. split; [lia|].
    rewrite Hc', <- Z.add_mod_idemp_l, Hc, Z.add_mod_idemp_l by lia. f_equal. lia.
  - pose proof (H3 Hl Hb). pose proof (H3' Hl ltac:(lia)). lia.
Qed.
Lemma same_sub s s' : same s s' -> sub s s'.
Proof. intros (? & H & ?). split_and!; [done| |done]. intros id. by rewrite H. Qed.
Lemma sub_refl s : good s -> sub s s.
Proof. intros. split_and!; [done..|apply spent_refl]. Qed.
Lemma same_refl s : good s -> same s s.
Proof. intros. split_and!; [done..|apply spent_refl]. Qed.
Lemma same_trans s1 s2 s3 : same s1 s2 -> same s2 s3 -> same s1 s3.
Proof.
  intros (_ & H1 & ?) (? & H2 & ?). split_and!; [done| |by eapply spent_trans]. intros id. by rewrite H2, H1.
Qed.
Lemma sub_trans s1 s2 s3 : sub s1 s2 -> sub s2 s3 -> sub s1 s3.
Proof.
  intros (_ & H1 & ?) (? & H2 & ?). split_and!; [done| |by eapply spent_trans]. intros id. by etrans; [apply H2|apply H1].
Qed.

(** Since [s0] one slot of account [id] was acquired, and [f] gives it back. *)
Definition releases (f : option (ST W unit)) (id : Z) (R : gset string) : Prop :=
  exists rel, f = Some rel /\ forall w, healthy w ->
    healthy (rel w).2 /\ (forall id', slotsOf (rel w).2 id' ⊆ slotsOf w id') /\ R ## slotsOf (rel w).2 id.
(** The request ids [R] of a slot: one, which is held, or none where there is no
    service or no limit. *)
Definition slotHeld (limits : bool) (R held : gset string) : Prop :=
  if limits then exists r, R = {[r]} /\ r ∈ held else R = ∅.
Definition limitedTo m : bool := concurrencyService cfg && (0 <? m).
Definition holding s0 s id m f : Prop :=
  good s /\ spent s0 s /\ exists R,
    (forall id', heldAt s id' ⊆ heldAt s0 id' ∪ (if decide (id' = id) then R else ∅)) /\
    slotHeld (limitedTo m) R (heldAt s id) /\ releases f id R.
Lemma holding_same s0 s s' id m f : holding s0 s id m f -> same s s' -> holding s0 s' id m f.
Proof.
  intros (_ & Hs & R & H1 & H2 & H3) (Hg & He & Hs'). split_and!; [done|by eapply spent_trans|]. exists R. split_and!; [| |done].
  - intros id'. rewrite He. apply H1.
  - rewrite He. apply H2.
Qed.
Lemma holding_sub s0 s s' id m f : sub s0 s -> holding s s' id m f -> holding s0 s' id m f.
Proof.
  intros (_ & He & Hs) (Hg & Hs' & R & H1 & H2 & H3). split_and!; [done|by eapply spent_trans|]. exists R. split_and!; [|done..].
  intros id'. by eapply gain_trans.
Qed.
Lemma wp_releases s f id R : releases f id R -> good s ->
  wp (release f) (fun _ s' => good s' /\ (forall id', heldAt s' id' ⊆ heldAt s id') /\ R ## heldAt s' id) s.
Proof.
  intros (rel & -> & H) Hg. unfold wp, release, withProcess, lift. specialize (H _ Hg) as (Hg' & H4 & H5).
  by destruct (rel (world (proc s))) as [[] w'].
Qed.
Lemma wp_release s0 s id m f (Q : unit -> sched -> Prop) : holding s0 s id m f ->
  (forall s', sub s0 s' -> Q tt s') -> wp (release f) Q s.
Proof.
  intros (Hg & Hs & R & H1 & _ & rel & -> & H3) HQ. unfold wp, release, withProcess, lift.
  specialize (H3 _ Hg) as (Hg' & H4 & H5). destruct (rel (world (proc s))) as [[] w']. cbn [fst snd] in *.
  apply HQ. split_and!; [done| |done]. intros id'. specialize (H1 id'). specialize (H4 id'). unfold heldAt in *. cbn [proc world] in *.
  destruct (decide (id' = id)) as [->|]; [by eapply give_back|]. rewrite union_empty_r_L in H1. by etrans.
Qed.
Lemma wp_call {A} req (c : serviceCall A) s (Q : A -> sched -> Prop) : good s ->
  (forall a s', same s s' -> (exists w, (perform req c w).1 = a) -> Q a s') -> wp (call req c) Q s.
Proof.
  intros Hg HQ. unfold wp, call. pose proof (perform_quiet req c (world (proc s)) Hg) as [H1 H2].
  destruct (perform req c (world (proc s))) as [a w'] eqn:E. cbn [fst snd] in *. apply HQ; [|exists (world (proc s)); by rewrite E].
  split_and!; [done|done|by apply spent_quiet].
Qed.

(** *** Acquiring *)

Lemma AcquireAccountSlot_holding id m (p : process W) : healthy (world p) ->
  let '(res, p') := AcquireAccountSlot id m p in
  healthy (world p') /\ requestIDCounter p' = (if m <=? 0 then requestIDCounter p else (requestIDCounter p + 1) mod 2 ^ 64) /\
  exists a, res = Ok a /\
    if Acquired a then exists R,
      (forall id', slotsOf (world p') id' ⊆ slotsOf (world p) id' ∪ (if decide (id' = id) then R else ∅)) /\
      slotHeld (0 <? m) R (slotsOf (world p') id) /\ releases (ReleaseFunc a) id R
    else forall id', slotsOf (world p') id' ⊆ slotsOf (world p) id'.
Proof.
  intros Hh. unfold AcquireAccountSlot. destruct (m <=? 0) eqn:Em; bool_to_prop.
  { split_and!; [done..|]. eexists. split; [done|]. exists ∅. split_and!; [set_solver|by rewrite (proj2 (Z.ltb_ge _ _) Em)|].
    eexists. split; [done|]. intros w Hw. by split_and!. }
  rewrite bind_run. unfold bind_ok, lift. rewrite bind_run. set (r := (generateRequestID p).1).
  pose proof (acquire_law ConcurrencyCache.Account id m r (world p)) as Ha. pose proof (acquire_answers id m r (world p) Hh) as Hb.
  cbn [acquire_of generateRequestID fst snd world] in *. fold r in Ha, Hb |- *.
  destruct (cacheAcquireAccountSlot id m r (world p)) as [res w']. destruct Hb as (Hg & [b ->] & Hf), Ha as (H1 & H2 & H3).
  destruct b; cbn [fst snd world requestIDCounter] in *; (split_and!; [done..|]); eexists; (split; [done|]); simpl.
  - exists {[r]}. split_and!.
    + intros id'. destruct (decide (id' = id)) as [->|]; [done|]. specialize (Hf id' n). set_solver.
    + rewrite (proj2 (Z.ltb_lt _ _)) by lia. exists r. auto.
    + eexists. split; [done|]. intros w Hw. unfold ignoring. rewrite bind_run.
      pose proof (release_answers id r w Hw) as Hrel. pose proof (release_law ConcurrencyCache.Account id r w) as Hlaw.
      cbn [release_of] in Hlaw. destruct (cacheReleaseAccountSlot id r w) as [res w2]. simpl.
      destruct Hrel as (-> & ? & ?), Hlaw as [_ Hn]. split_and!; [done|done|]. specialize (Hn eq_refl). set_solver.
  - intros id'. destruct (decide (id' = id)) as [->|]; auto.
Qed.
Definition acquiredAs s s' id m (r : option (result goerror (AcquireResult W))) : Prop :=
  match r with
  | None => sub s s'
  | Some (Err _) => False
  | Some (Ok a) => if Acquired a then holding s s' id m (ReleaseFunc a) else sub s s'
  end.

Lemma serviceAcquire_cases id m s : good s ->
  let '(r, s') := serviceAcquire cfg id m s in
  budget s' = budget s /\
  counter s' = (if concurrencyService cfg && (0 <? m) then (counter s + 1) mod 2 ^ 64 else counter s) /\
  exists a, r = Ok a /\ forall s0, proc s0 = proc s -> spent s0 s' -> acquiredAs s0 s' id m (Some r).
Proof.
  intros Hg. unfold serviceAcquire. destruct (concurrencyService cfg) eqn:Ec; simpl.
  - pose proof (AcquireAccountSlot_holding id m (proc s) Hg) as H. unfold withProcess.
    destruct (AcquireAccountSlot id m (proc s)) as [r p']. destruct H as (Hg' & Hc & a & -> & H). cbn [fst snd].
    split_and!; [done| |].
    { unfold counter. simpl. rewrite Hc. destruct (m <=? 0) eqn:E1, (0 <? m) eqn:E2; bool_to_prop; done || lia. }
    exists a. split; [done|]. intros s0 E Hs. unfold acquiredAs, sub, holding, heldAt. rewrite E.
    destruct (Acquired a); [|by split_and!].
    destruct H as (R & H1 & H2 & H3). split_and!; [done|done|]. exists R. unfold limitedTo. rewrite Ec. by split_and!.
  - split_and!; [done..|]. eexists. split; [done|]. intros s0 E Hs. simpl. split_and!; [done|done|]. exists ∅. unfold heldAt, limitedTo. rewrite E, Ec.
    split_and!; [intros; apply union_subseteq_l|done|]. eexists. split; [done|]. intros w Hw. split_and!; [done..|set_solver].
Qed.
Lemma wp_serviceAcquire id m s (Q : result goerror (AcquireResult W) -> sched -> Prop) : ~ exact -> good s ->
  (forall r s', acquiredAs s s' id m (Some r) -> Q r s') -> wp (serviceAcquire cfg id m) Q s.
Proof.
  intros Hx Hg HQ. unfold wp. pose proof (serviceAcquire_cases id m s Hg) as H.
  destruct (serviceAcquire cfg id m s) as [r s']. destruct H as (Hb & _ & a & -> & H). cbn [fst snd]. apply HQ, H; [done|].
  by intros ?%Hx.
Qed.

(** An attempt that counts. *)
Lemma charged s s' b n : recordAcquire n (budget s) = (true, b) -> budget s' = b -> counter s' = (counter s + 1) mod 2 ^ 64 -> spent s s'.
Proof.
  unfold recordAcquire, spent, charge, openAIAccountSelectionProbeLimit. intros H Hb Hc _. rewrite Hb, Hc. clear Hb Hc.
  destruct (limited (budget s)) eqn:El; simpl in H; [|injection H as <-; by rewrite El].
  destruct (64 <=? acquires (budget s)) eqn:E; [done|]. injection H as <-. cbn [acquires rechecks limited]. bool_to_prop.
  split_and!; [done| |lia]. intros _ Hr. split; [lia|]. rewrite Z.mod_mod by lia. f_equal. lia.
Qed.
Lemma wp_tryAcquire id m s (Q : option (result goerror (AcquireResult W)) -> sched -> Prop) : good s ->
  (forall r s', acquiredAs s s' id m r -> Q r s') -> wp (tryAcquireOpenAIAccountSlot cfg id m) Q s.
Proof.
  intros Hg HQ. unfold tryAcquireOpenAIAccountSlot, wp. rewrite bind_run.
  destruct (concurrencyService cfg && (0 <? m)) eqn:Ec; [unfold withBudget; destruct (recordAcquire id (budget s)) as [[] b] eqn:Eb|];
    cbn [fst snd negb mret ST_ret].
  - rewrite bind_run. pose proof (serviceAcquire_cases id m (mkSched (proc s) b) Hg) as H.
    destruct (serviceAcquire cfg id m (mkSched (proc s) b)) as [r s']. destruct H as (Hb & Hc & a & -> & H). cbn [fst snd].
    rewrite Ec in Hc. apply HQ, H; [done|]. by eapply charged.
  - apply HQ. split_and!; [done|done|]. apply spent_quiet; [|done]. unfold recordAcquire in Eb.
    destruct (negb _); [done|]. destruct (_ <=? _); [|done]. by injection Eb as <-.
  - rewrite bind_run. pose proof (serviceAcquire_cases id m s Hg) as H.
    destruct (serviceAcquire cfg id m s) as [r s']. destruct H as (Hb & Hc & a & -> & H). cbn [fst snd].
    rewrite Ec in Hc. apply HQ, H; [done|]. by apply spent_quiet.
Qed.
Lemma wp_recheck s (Q : bool -> sched -> Prop) : good s ->
  (forall b s', same s s' -> Q b s') -> wp (consumeOpenAISelectionDBRecheck cfg) Q s.
Proof.
  intros Hg HQ. unfold wp, consumeOpenAISelectionDBRecheck. destruct (_ || _); [by apply HQ, same_refl|].
  unfold withBudget, recordRecheck, openAIAccountSelectionProbeLimit.
  destruct (limited (budget s)) eqn:El; cbn [negb]; [destruct (64 <=? rechecks (budget s)) eqn:E|]; bool_to_prop; apply HQ;
    (split_and!; [done|done|]); [by apply spent_quiet| |by apply spent_quiet].
  intros _. unfold charge. rewrite El. cbn [snd budget acquires rechecks limited]. split_and!; [done|intros _ ?; split; [lia|]|lia].
  unfold counter. cbn [snd proc]. by rewrite Z.sub_diag, Z.add_0_r.
Qed.

(** *** Checks *)

(** The gateway found the account fit for the request. *)
Definition admitted req a : Prop :=
  (exists w, (perform req (CompatibleReason a) w).1 = None) /\ (exists w, (perform req (TransportCompatible a) w).1 = true).
Definition vetted (compact : bool) req a : Prop :=
  admitted req a /\ (compact = true -> openAICompactSupportTier a <> 0) /\
  exists x compact w, (perform req (RecheckFromDB x compact) w).1 = Some a.
(** What a selection may say: a slot that is held, or a plan to wait and no slot. *)
Definition selection_ok (compact : bool) s0 s' req (sel : AccountSelectionResult (W := W)) : Prop :=
  vetted compact req (sel_Account sel) /\
  if sel_Acquired sel then
    sel_WaitPlan sel = None /\ holding s0 s' (ID (sel_Account sel)) (Concurrency (sel_Account sel)) (sel_Release sel)
  else
    sub s0 s' /\ sel_Release sel = None /\
    exists p, sel_WaitPlan sel = Some p /\ wp_AccountID p = ID (sel_Account sel) /\ wp_MaxConcurrency p = Concurrency (sel_Account sel).
Definition verdict s0 s' req (r : result goerror (option (AccountSelectionResult (W := W)))) : Prop :=
  match r with Ok (Some sel) => selection_ok (RequireCompact req) s0 s' req sel | _ => sub s0 s' end.

Lemma sub_same s0 s s' : sub s0 s -> same s s' -> sub s0 s'.
Proof. intros H1 H2%same_sub. by eapply sub_trans. Qed.
Lemma sub_good s0 s : sub s0 s -> good s.
Proof. by intros [? _]. Qed.
Lemma same_good s0 s : same s0 s -> good s.
Proof. by intros [? _]. Qed.
Lemma holding_good s0 s id m f : holding s0 s id m f -> good s.
Proof. by intros [? _]. Qed.

Lemma wp_suitable req acc s (Q : option Account.Account -> sched -> Prop) : good s ->
  (forall r s', same s s' -> (forall b, r = Some b -> acc = Some b /\ admitted req b) -> Q r s') -> wp (suitable req acc) Q s.
Proof.
  intros Hg HQ. destruct acc as [a|]; simpl; [|by apply HQ; [apply same_refl|]].
  apply wp_bind, wp_call; [done|]. intros transport s1 H1 [w Hw]. destruct transport; simpl; [|by apply HQ].
  apply wp_bind, wp_call; [by eapply same_good|]. intros veto s2 H2 [w' Hw'].
  apply HQ; [by eapply same_trans|]. intros b. destruct veto; [done|]. intros [= <-]. split; [done|]. split; by eexists.
Qed.
Lemma wp_selected req fresh result s0 s (Q : AccountSelectionResult -> sched -> Prop) m id :
  holding s0 s id m (ReleaseFunc result) ->
  (forall s', holding s0 s' id m (ReleaseFunc result) -> Q (mkSelection fresh true (ReleaseFunc result) None) s') ->
  wp (selected req fresh result) Q s.
Proof.
  intros Hh HQ. apply holding_good in Hh as Hg. unfold selected. apply wp_bind. destruct (_ && _).
  - apply wp_call; [done|]. intros _ s' H _. apply HQ. by eapply holding_same.
  - by apply HQ.
Qed.

Lemma tryAcquireOrder_ok req order cb s0 s : sub s0 s ->
  wp (tryAcquireOrder cfg req order cb) (fun r s' => verdict s0 s' req r.1) s.
Proof.
  revert cb s. induction order as [|candidate rest IH]; intros cb s Hs; [done|]. cbn [tryAcquireOrder].
  apply sub_good in Hs as Hg.
  destruct (knownFull candidate); [by apply IH|]. apply wp_bind, wp_tryAcquire; [done|]. intros slot s1 Hslot.
  destruct slot as [[result|e]|]; [|done|by eapply sub_trans]. simpl in Hslot.
  destruct (Acquired result); cbn [negb]; [|by apply IH; eapply sub_trans].
  eapply holding_sub in Hslot; [|done]. apply wp_bind, wp_bind, wp_call; [by eapply holding_good|].
  intros resolved s2 H2 [w2 Hres]. eapply holding_same in Hslot; [|done].
  apply wp_suitable; [by eapply holding_good|]. intros fresh s3 H3 Hfresh. eapply holding_same in Hslot; [|done].
  destruct fresh as [fresh|]; [|apply wp_bind; by eapply wp_release; [|intros; apply IH]].
  destruct (Hfresh _ eq_refl) as [-> _]. apply resolve_same in Hres.
  apply wp_bind, wp_recheck; [by eapply holding_good|]. intros allowed s4 H4. eapply holding_same in Hslot; [|done].
  destruct allowed; cbn [negb]; [|apply wp_bind; by eapply wp_release].
  apply wp_bind, wp_bind, wp_call; [by eapply holding_good|]. intros checked s5 H5 [w5 Hchk]. eapply holding_same in Hslot; [|done].
  apply wp_suitable; [by eapply holding_good|]. intros latest s6 H6 Hlatest. eapply holding_same in Hslot; [|done].
  destruct latest as [latest|]; [|apply wp_bind; by eapply wp_release; [|intros; apply IH]].
  destruct (Hlatest _ eq_refl) as [-> Hadm]. apply recheck_same in Hchk as Hid. rewrite Hres in Hid.
  destruct (RequireCompact req && (openAICompactSupportTier latest =? 0)) eqn:Ecomp.
  { apply wp_bind; by eapply wp_release; [|intros; apply IH]. }
  assert (Hvet : vetted (RequireCompact req) req latest).
  { split; [done|]. split; [|by eexists _, _, _]. intros Hc E. by rewrite Hc, E in Ecomp. }
  destruct (Concurrency latest =? Concurrency (account candidate)) eqn:Econ; cbn [negb]; bool_to_prop.
  - apply wp_bind. rewrite <- Hid, <- Econ in Hslot. eapply wp_selected; [exact Hslot|]. intros s7 H7. split; [done|]. by split.
  - apply wp_bind. eapply wp_release; [exact Hslot|]. intros s7 H7. apply wp_bind, wp_tryAcquire; [by eapply sub_good|].
    intros slot s8 Hslot8. destruct slot as [[result8|e]|]; [|done|by apply IH; eapply sub_trans]. simpl in Hslot8.
    destruct (Acquired result8); cbn [negb]; [|by apply IH; eapply sub_trans].
    eapply holding_sub in Hslot8; [|done]. apply wp_bind. eapply wp_selected; [exact Hslot8|]. intros s9 H9. split; [done|]. by split.
Qed.

(** *** Waiting *)

Lemma waiting_ok compact s0 s req a timeout maxWaiting : vetted compact req a -> sub s0 s ->
  selection_ok compact s0 s req (waitFor a timeout maxWaiting).
Proof. intros Hv Hs. split; [done|]. split; [done|]. split; [done|]. by eexists. Qed.
Lemma wp_admissible req a s (Q : bool -> sched -> Prop) : good s ->
  (forall b s', same s s' -> (b = true -> admitted req a) -> Q b s') -> wp (admissible req a) Q s.
Proof.
  intros Hg HQ. unfold admissible. apply wp_bind, wp_call; [done|]. intros veto s1 H1 [w Hw].
  destruct veto; [by apply HQ|]. apply wp_call; [by eapply same_good|]. intros b s2 H2 [w' Hw'].
  apply HQ; [by eapply same_trans|]. intros ->. split; by eexists.
Qed.

Definition wait_ok s0 s' req (r : waitResult (W := W)) : Prop :=
  match r with
  | WaitFound sel => selection_ok (RequireCompact req) s0 s' req sel /\ sel_Acquired sel = false
  | _ => sub s0 s'
  end.
Lemma waitPass_ok req skip order cb s0 s : sub s0 s -> wp (waitPass cfg req skip order cb) (fun r s' => wait_ok s0 s' req r.1) s.
Proof.
  revert cb s. induction order as [|candidate rest IH]; intros cb s Hs; [done|]. cbn [waitPass]. apply wp_bind. unfold wp at 1. simpl.
  destruct (skip candidate (budget s)); [by apply IH|]. apply sub_good in Hs as Hg.
  apply wp_bind, wp_bind, wp_call; [done|]. intros resolved s1 H1 _.
  apply wp_suitable; [by eapply same_good|]. intros fresh s2 H2 _. assert (Hs2 : sub s0 s2) by eauto using sub_same.
  destruct fresh as [fresh|]; [|by apply IH]. apply wp_bind, wp_recheck; [by eapply same_good|]. intros allowed s3 H3.
  assert (Hs3 : sub s0 s3) by eauto using sub_same. destruct allowed; cbn [negb]; [|done].
  apply wp_bind, wp_bind, wp_call; [by eapply same_good|]. intros checked s4 H4 [w4 Hchk].
  apply wp_suitable; [by eapply same_good|]. intros latest s5 H5 Hlatest. assert (Hs5 : sub s0 s5) by eauto using sub_same.
  destruct latest as [latest|]; [|by apply IH]. destruct (Hlatest _ eq_refl) as [-> Hadm].
  destruct (RequireCompact req && (openAICompactSupportTier latest =? 0)) eqn:Ecomp; [by apply IH|].
  split; [|done]. apply waiting_ok; [|done]. split; [done|]. split; [|by eexists _, _, _]. intros Hc E. by rewrite Hc, E in Ecomp.
Qed.
Lemma waitPasses_ok req order passes cb s0 s : sub s0 s -> wp (waitPasses cfg req order passes cb) (fun r s' => wait_ok s0 s' req r.1) s.
Proof.
  revert cb s. induction passes as [|pass rest IH]; intros cb s Hs; [done|]. cbn [waitPasses].
  apply wp_bind. eapply wp_mono; [by apply waitPass_ok|]. intros [[sel| |] cb'] s'; simpl; [done|done|apply IH].
Qed.

Lemma stickyFallback_ok req ids s0 s : ~ exact -> sub s0 s -> wp (stickyFallback cfg req ids) (fun r s' => verdict s0 s' req r) s.
Proof.
  intros Hx. revert s. induction ids as [|accountID rest IH]; intros s Hs; [done|]. cbn [stickyFallback].
  apply sub_good in Hs as Hg. destruct (_ || _); [by apply IH|].
  assert (Hforget : forall s1, sub s0 s1 ->
    wp (_ ← (if (accountID =? StickyAccountID req) && negb (String.eqb (TrimSpace (SessionHash req)) "")
             then call req DeleteSticky else mret tt); stickyFallback cfg req rest) (fun r s' => verdict s0 s' req r) s1).
  { intros s1 H1. apply wp_bind. destruct (_ && _); [|by apply IH]. apply wp_call; [by eapply sub_good|].
    intros _ s2 H2 _. apply IH. eauto using sub_same. }
  apply wp_bind, wp_call; [done|]. intros found s1 H1 [w1 Hf]. assert (Hs1 : sub s0 s1) by eauto using sub_same.
  destruct found as [account|]; [|by apply IH]. apply schedulable_same in Hf.
  apply wp_bind, wp_admissible; [by eapply sub_good|]. intros ok s2 H2 _. assert (Hs2 : sub s0 s2) by eauto using sub_same.
  destruct ok; cbn [negb]; [|by apply IH].
  apply wp_bind, wp_call; [by eapply sub_good|]. intros checked s3 H3 [w3 Hchk]. assert (Hs3 : sub s0 s3) by eauto using sub_same.
  destruct checked as [latest|]; [|by apply Hforget].
  apply wp_bind, wp_call; [by eapply sub_good|]. intros matches s4 H4 _. assert (Hs4 : sub s0 s4) by eauto using sub_same.
  destruct matches; cbn [negb]; [|by apply Hforget].
  apply wp_bind, wp_admissible; [by eapply sub_good|]. intros ok s5 H5 Hadm. assert (Hs5 : sub s0 s5) by eauto using sub_same.
  destruct ok; cbn [negb]; [|by apply IH]. destruct (RequireCompact req && _) eqn:Ecomp; [by apply IH|].
  assert (Hvet : vetted (RequireCompact req) req latest).
  { split; [by apply Hadm|]. split; [|by eexists _, _, _]. intros Hc E. by rewrite Hc, E in Ecomp. }
  apply wp_bind, wp_call; [by eapply sub_good|]. intros blocked s6 H6 _. assert (Hs6 : sub s0 s6) by eauto using sub_same.
  destruct blocked; [by apply IH|].
  apply wp_bind, wp_serviceAcquire; [done|by eapply sub_good|]. intros slot s7 Hslot. destruct slot as [result|e]; [|done].
  simpl in Hslot. destruct (Acquired result).
  - eapply holding_sub in Hslot; [|done]. apply wp_bind. eapply wp_selected; [exact Hslot|]. intros s8 H8. split; [done|]. by split.
  - assert (Hs7 : sub s0 s7) by eauto using sub_trans. destruct (concurrencyService cfg); [|by apply IH]. by apply waiting_ok.
Qed.

(** *** Pools *)

Hypothesis inexact : ~ exact.

Lemma limitIf_sub b s0 s : sub s0 s -> wp (limitIf b) (fun _ s' => sub s0 s') s.
Proof. intros (Hg & He & _). unfold wp, limitIf, withBudget. simpl. split_and!; [done|done|by intros ?%inexact]. Qed.

Lemma finish_ok req at_ st s0 s : sub s0 s ->
  wp (finishLoadBalanceSelectionFallback cfg req at_ st) (fun o s' => verdict s0 s' req (out_result o)) s.
Proof.
  intros Hs. unfold finishLoadBalanceSelectionFallback. destruct (at_order at_) as [|c order]; [done|].
  apply wp_bind. unfold tryFallbackToWeightedSticky. eapply wp_mono with (Q := fun r s' => verdict s0 s' req r).
  { destruct (StickyWeighted req); [by apply stickyFallback_ok|done]. }
  intros sticky s1 H1. destruct sticky as [[sel|]|e]; [done| |done].
  apply wp_bind. unfold wp at 1. simpl. apply wp_bind. eapply wp_mono; [by apply (waitPasses_ok req _ _ _ s0)|].
  intros [[sel| |] cb] s2 H2; [by destruct H2|done|done].
Qed.
Lemma planFor_same req filtered loadMap s (Q : option (openAIAccountLoadPlan * list openAIAccountCandidateScore) -> sched -> Prop) : good s ->
  (forall p s', same s s' -> Q p s') -> wp (planFor cfg req filtered loadMap) Q s.
Proof.
  intros Hg HQ. unfold planFor.
  do 5 (apply wp_bind, wp_call; [by eauto using same_good|]; intros ? ? ? _).
  apply wp_ret, HQ. eauto 6 using same_trans.
Qed.
Definition attempt_ok s0 s' req (at_ : attempt (W := W)) : Prop := verdict s0 s' req (at_result at_).
Lemma trySelect_ok req filtered loadMap s0 s : sub s0 s ->
  wp (trySelectByLoadBalancePool cfg req filtered loadMap) (fun at_ s' => attempt_ok s0 s' req at_) s.
Proof.
  intros Hs. apply sub_good in Hs as Hg. unfold trySelectByLoadBalancePool.
  apply wp_bind, planFor_same; [done|]. intros p s1 H1. assert (Hs1 : sub s0 s1) by eauto using sub_same.
  destruct p as [[plan order]|]; [|done]. apply wp_bind. eapply wp_mono; [by apply (limitIf_sub _ s0)|]. intros [] s2 Hs2.
  destruct (_ && bool_decide (staleSnapshotCompactRetry plan = [])); [done|]. destruct (_ && negb _); [done|].
  case_bool_decide; [done|]. apply wp_bind. eapply wp_mono; [by apply (tryAcquireOrder_ok req order false s0)|].
  intros [r cb] s3 H3. cbn [fst snd] in *. destruct r as [[sel|]|e]; [done| |done]. simpl in H3.
  apply wp_bind. unfold wp at 1. simpl. destruct (_ || _); [done|].
  apply wp_bind, wp_call; [by eapply sub_good|]. intros fresh s4 H4 _. assert (Hs4 : sub s0 s4) by eauto using sub_same.
  destruct fresh as [freshLoadMap|e]; [|done].
  apply wp_bind, planFor_same; [by eapply sub_good|]. intros p s5 H5. assert (Hs5 : sub s0 s5) by eauto using sub_same.
  destruct p as [[freshPlan freshOrder]|]; [|done]. apply wp_bind. eapply wp_mono; [by apply (limitIf_sub _ s0)|]. intros [] s6 Hs6.
  case_bool_decide; [done|]. apply wp_bind. eapply wp_mono; [by apply (tryAcquireOrder_ok req freshOrder false s0)|].
  intros [r cb'] s7 H7. cbn [fst snd] in *. by destruct r as [[sel|]|e].
Qed.
Lemma filterAccounts_same req privacy accounts st s (Q : list Account.Account * openAISelectionFilterStats -> sched -> Prop) : good s ->
  (forall r s', same s s' -> Q r s') -> wp (filterAccounts cfg LoadLocation req privacy accounts st) Q s.
Proof.
  revert st s Q. induction accounts as [|a rest IH]; intros st s Q Hg HQ; [by apply HQ, same_refl|]. cbn [filterAccounts].
  destruct (knownExcluded req (ID a)); [by apply IH|].
  apply wp_bind, wp_call; [done|]. intros now s1 H1 _. assert (Hg1 : good s1) by eauto using same_good.
  assert (Hdrop : forall st s2, same s s2 -> wp (filterAccounts cfg LoadLocation req privacy rest st) Q s2).
  { intros st' s2 H2. apply IH; [by eapply same_good|]. intros. apply HQ. by eapply same_trans. }
  destruct (negb _); [by apply Hdrop|]. destruct (_ || _); [by apply Hdrop|].
  apply wp_bind, wp_call; [done|]. intros blocked s2 H2 _. assert (Hs2 : same s s2) by eauto using same_trans.
  destruct blocked; [by apply Hdrop|]. destruct (privacy && _); [by apply Hdrop|].
  apply wp_bind, wp_call; [by eapply same_good|]. intros veto s3 H3 _. assert (Hs3 : same s s3) by eauto using same_trans.
  destruct veto; [by apply Hdrop|].
  apply wp_bind, wp_call; [by eapply same_good|]. intros transport s4 H4 _. assert (Hs4 : same s s4) by eauto using same_trans.
  destruct transport; cbn [negb]; [|by apply Hdrop].
  apply wp_bind, IH; [by eapply same_good|]. intros r s5 H5. apply HQ. eauto using same_trans.
Qed.
Lemma outcomeOf_ok req (at_ : attempt) s0 s : attempt_ok s0 s req at_ ->
  wp (mret (outcomeOf at_)) (fun o s' => verdict s0 s' req (out_result o)) s.
Proof. done. Qed.
Lemma verdict_sub s0 s req r : (forall sel, r <> Ok (Some sel)) -> verdict s0 s req r -> sub s0 s.
Proof. destruct r as [[sel|]|e]; [|done|done]. intros H. by destruct (H sel). Qed.
Lemma regularAfter_ok req st at_ regular s0 s : sub s0 s ->
  wp (regularAfterSubscription cfg req st at_ regular) (fun o s' => verdict s0 s' req (out_result o)) s.
Proof.
  intros Hs. unfold regularAfterSubscription. apply wp_bind.
  eapply wp_mono with (Q := fun o s' => verdict s0 s' req (out_result o) /\ ((exists sel, out_result o = Ok (Some sel)) \/ sub s0 s')).
  { assert (Hv : forall (m : ST sched (outcome (W := W))) s1, wp m (fun o s' => verdict s0 s' req (out_result o)) s1 ->
      wp m (fun o s' => verdict s0 s' req (out_result o) /\ ((exists sel, out_result o = Ok (Some sel)) \/ sub s0 s')) s1).
    { intros m s1 H. eapply wp_mono; [exact H|]. intros o s' Ho. cbn beta in Ho. split; [done|].
      destruct (out_result o) as [[sel|]|e]; [left; by exists sel|by right|by right]. }
    destruct (at_result regular) as [r|e] eqn:E; [by apply Hv, finish_ok|].
    unfold wp, outcomeOf. simpl. rewrite E. split; [done|by right]. }
  intros first s1 [Hv Hs1]. destruct (out_result first) as [[sel|]|e] eqn:Ef.
  { unfold wp. simpl. by rewrite Ef. }
  all: destruct Hs1 as [[sel ?]|Hs1]; [done|]; apply wp_bind; eapply wp_mono; [by apply (finish_ok req at_ st s0)|].
  all: intros second s2 H2; cbn beta in H2; destruct (out_result second) as [[sel|]|e2] eqn:E2; unfold wp; simpl; rewrite ?E2, ?Ef; done.
Qed.
Lemma selectWithin_ok req filtered loadMap st s0 s : sub s0 s ->
  wp (selectWithinAccounts cfg req filtered loadMap st) (fun o s' => verdict s0 s' req (out_result o)) s.
Proof.
  intros Hs. unfold selectWithinAccounts. destruct (partitionOpenAIChatGPTSubscriptionAccounts filtered) as [subs regs].
  destruct (_ && _).
  - apply wp_bind. eapply wp_mono; [by apply (trySelect_ok req subs loadMap s0)|]. intros at_ s1 H1.
    destruct (failedFor _ _); [by apply outcomeOf_ok|]. pose proof (verdict_sub s0 s1 req (at_result at_)) as Hsub.
    destruct (at_result at_) as [[sel|]|e] eqn:E; [by apply outcomeOf_ok| |].
    all: assert (Hs1 : sub s0 s1) by (apply Hsub; [done|]; unfold attempt_ok in H1; by rewrite E in H1).
    all: case_bool_decide; [by apply finish_ok|].
    all: apply wp_bind; eapply wp_mono; [by apply (trySelect_ok req regs loadMap s0)|]; intros regular s2 H2.
    all: destruct (failedFor _ _); [by apply outcomeOf_ok|]; pose proof (verdict_sub s0 s2 req (at_result regular)) as Hsub2.
    all: destruct (at_result regular) as [[sel|]|e2] eqn:E2; [by apply outcomeOf_ok| |].
    all: apply regularAfter_ok, Hsub2; [done|]; unfold attempt_ok in H2; by rewrite E2 in H2.
  - apply wp_bind. eapply wp_mono; [by apply (trySelect_ok req filtered loadMap s0)|]. intros at_ s1 H1.
    unfold poolOrFallback. unfold attempt_ok in H1. destruct (at_result at_) as [[sel|]|e] eqn:E; [|by apply finish_ok|].
    all: unfold outcomeOf, wp; simpl; by rewrite E.
Qed.
Lemma selectByLoadBalance_ok req s0 s : sub s0 s ->
  wp (selectByLoadBalance cfg LoadLocation req) (fun o s' => verdict s0 s' req (out_result o)) s.
Proof.
  intros Hs. unfold selectByLoadBalance. apply wp_bind. unfold wp at 1, withBudget. cbn [fst snd].
  assert (Hs1 : sub s0 (mkSched (proc s) newOpenAISelectionProbeBudget)).
  { destruct Hs as (Hg & He & _). split_and!; [done|done|by intros ?%inexact]. }
  revert Hs1. generalize (mkSched (proc s) newOpenAISelectionProbeBudget). clear s Hs. intros s Hs.
  apply wp_bind, wp_call; [by eapply sub_good|]. intros listed s1 H1 _. assert (Hs1 : sub s0 s1) by eauto using sub_same.
  destruct listed as [[|a accounts]|e]; [done| |done].
  apply wp_bind, wp_call; [by eapply sub_good|]. intros filtered s2 H2 _. assert (Hs2 : sub s0 s2) by eauto using sub_same.
  destruct filtered as [kept|reason]; [|done].
  apply wp_bind, wp_call; [by eapply sub_good|]. intros privacy s3 H3 _. assert (Hs3 : sub s0 s3) by eauto using sub_same.
  apply wp_bind, filterAccounts_same; [by eapply sub_good|]. intros [filtered st] s4 H4. assert (Hs4 : sub s0 s4) by eauto using sub_same.
  case_bool_decide; [done|]. apply wp_bind. destruct (concurrencyService cfg) eqn:Ec; [|by apply selectWithin_ok].
  apply wp_call; [by eapply sub_good|]. intros loads s5 H5 _. apply selectWithin_ok. eauto using sub_same.
Qed.

(** *** The session's account *)

Lemma session_ok req s0 s : sub s0 s ->
  wp (selectBySessionHash cfg LoadLocation req)
    (fun r s' => match r.1 with Some sel => selection_ok false s0 s' req sel | None => sub s0 s' end) s.
Proof.
  intros Hs. unfold selectBySessionHash. destruct (_ || _); [done|].
  assert (Hclear : forall s1, sub s0 s1 ->
    wp (_ ← (if PreserveStickyBinding req then mret tt else call req DeleteSticky); mret (None, false))
      (fun r s' => match r.1 with Some sel => selection_ok false s0 s' req sel | None => sub s0 s' end) s1).
  { intros s1 H1. apply wp_bind. destruct (PreserveStickyBinding req); [done|]. apply wp_call; [by eapply sub_good|].
    intros _ s2 H2 _. assert (sub s0 s2) by eauto using sub_same. done. }
  apply wp_bind. eapply wp_mono with (Q := fun _ s' => sub s0 s').
  { destruct (0 <? _); [done|]. apply wp_call; [by eapply sub_good|]. intros ? s1 H1 _. eauto using sub_same. }
  intros found s1 Hs1. cbn beta in Hs1. destruct found as [accountID|]; [|done]. destruct (_ || _); [done|].
  apply wp_bind, wp_call; [by eapply sub_good|]. intros account s2 H2 [w2 Hacc]. assert (Hs2 : sub s0 s2) by eauto using sub_same.
  destruct account as [a|]; [|by apply Hclear]. apply schedulable_same in Hacc.
  apply wp_bind, wp_call; [by eapply sub_good|]. intros shouldClear s3 H3 _. assert (Hs3 : sub s0 s3) by eauto using sub_same.
  apply wp_bind, wp_call; [by eapply sub_good|]. intros now s4 H4 _. assert (Hs4 : sub s0 s4) by eauto using sub_same.
  destruct (_ || _); [by apply Hclear|].
  apply wp_bind, wp_call; [by eapply sub_good|]. intros veto s5 H5 _. assert (Hs5 : sub s0 s5) by eauto using sub_same.
  destruct veto; [done|].
  apply wp_bind, wp_call; [by eapply sub_good|]. intros transport s6 H6 _. assert (Hs6 : sub s0 s6) by eauto using sub_same.
  destruct transport; cbn [negb]; [|by apply Hclear].
  apply wp_bind, wp_call; [by eapply sub_good|]. intros checked s7 H7 [w7 Hchk]. assert (Hs7 : sub s0 s7) by eauto using sub_same.
  destruct checked as [b|]; [|by apply Hclear]. apply recheck_same in Hchk as Hid. rewrite Hacc in Hid.
  apply wp_bind, wp_call; [by eapply sub_good|]. intros matches s8 H8 _. assert (Hs8 : sub s0 s8) by eauto using sub_same.
  apply wp_bind. eapply wp_mono with (Q := fun ok s' => sub s0 s' /\ (ok = true -> admitted req b)).
  { destruct matches; cbn [negb]; [|done]. apply wp_admissible; [by eapply sub_good|]. intros ok s9 H9 Hadm. eauto using sub_same. }
  intros ok s9 [Hs9 Hadm]. destruct ok; cbn [negb]; [|by apply Hclear]. specialize (Hadm eq_refl).
  assert (Hvet : vetted false req b) by (split; [done|]; split; [done|by eexists _, _, _]).
  apply wp_bind, wp_call; [by eapply sub_good|]. intros blocked s10 H10 _. assert (Hs10 : sub s0 s10) by eauto using sub_same.
  destruct blocked; [by apply Hclear|]. destruct (shouldEscapeStickyAccount _ _ _); [done|].
  apply wp_bind, wp_serviceAcquire; [done|by eapply sub_good|]. intros slot s11 Hslot.
  destruct slot as [[[] f]|e]; [| |done]; simpl in Hslot; rewrite <- Hid in *.
  - eapply holding_sub in Hslot; [|done]. apply wp_bind.
    assert (Hsel : forall s12, same s11 s12 -> selection_ok false s0 s12 req (mkSelection b true f None)).
    { intros s12 H12. split; [done|]. split; [done|]. by eapply holding_same. }
    destruct (PreserveStickyBinding req); [by apply Hsel, same_refl; eapply holding_good|].
    apply wp_call; [by eapply holding_good|]. intros _ s12 H12 _. by apply Hsel.
  - assert (Hs11 : sub s0 s11) by eauto using sub_trans. destruct (negb _); [done|]. destruct (_ && _); [done|].
    split; [done|]. split; [done|]. split; [done|]. by eexists.
Qed.
End Facts.

(** ** The four passes are one *)

Section Passes.
Context {W : Type} {cache : Cache W} {gateway : Gateway W} (cfg : schedulerConfig).
Implicit Types (s : sched (W := W)) (req : OpenAIAccountScheduleRequest) (b : openAISelectionProbeBudget).

(** What the passes look at. *)
Definition agrees b s : Prop := limited (budget s) = limited b /\ attempted (budget s) = attempted b.
Lemma agrees_skip pass c b s : agrees b s -> skipInPass pass c (budget s) = skipInPass pass c b.
Proof. intros [E1 E2]. unfold skipInPass, wasAttempted. by rewrite E1, E2. Qed.
Lemma agrees_call {A} req (c : serviceCall A) b s : agrees b s -> agrees b (call req c s).2.
Proof. unfold call. by destruct (perform req c (world (proc s))). Qed.
Lemma agrees_suitable req acc b s : agrees b s -> agrees b (suitable req acc s).2.
Proof.
  intros H. destruct acc as [a|]; simpl; [|done]. rewrite bind_run. apply (agrees_call req (TransportCompatible a)) in H.
  destruct (call req (TransportCompatible a) s) as [t s1]. simpl in *. destruct t; simpl; [|done].
  rewrite bind_run. by apply (agrees_call req (CompatibleReason a)).
Qed.
Lemma agrees_recheck b s : agrees b s -> agrees b (consumeOpenAISelectionDBRecheck cfg s).2.
Proof.
  intros H. unfold consumeOpenAISelectionDBRecheck, withBudget, recordRecheck. destruct (_ || _); [done|].
  destruct (negb _); [done|]. by destruct (_ <=? _).
Qed.

(** Leaving a candidate out of the list is skipping it. *)
Lemma waitPass_filter req pass order cb b s : agrees b s ->
  waitPass cfg req (skipInPass pass) order cb s =
  waitPass cfg req (fun _ _ => false) (List.filter (fun c => negb (skipInPass pass c b)) order) cb s /\
  agrees b (waitPass cfg req (skipInPass pass) order cb s).2.
Proof.
  revert cb s. induction order as [|c order IH]; intros cb s H; [done|].
  assert (Hskip : skipInPass pass c (budget s) = skipInPass pass c b) by by apply agrees_skip.
  cbn [List.filter]. destruct (skipInPass pass c b) eqn:Es; cbn [negb waitPass].
  { rewrite bind_run. cbn [get fst snd]. rewrite Hskip. by apply IH. }
  rewrite !(bind_run get). cbn [get fst snd]. rewrite Hskip.
  rewrite !(bind_run (resolved ← call req (ResolveFresh (account c)); suitable req resolved)), bind_run.
  apply (agrees_call req (ResolveFresh (account c))) in H. destruct (call req (ResolveFresh (account c)) s) as [r s1]. cbn [fst snd] in *.
  apply (agrees_suitable req r) in H. destruct (suitable req r s1) as [fresh s2]. cbn [fst snd] in *.
  destruct fresh as [fresh|]; [|by apply IH]. rewrite !(bind_run (consumeOpenAISelectionDBRecheck cfg)).
  apply agrees_recheck in H. destruct (consumeOpenAISelectionDBRecheck cfg s2) as [allowed s3]. cbn [fst snd] in *.
  destruct allowed; cbn [negb]; [|done].
  rewrite !(bind_run (checked ← call req (RecheckFromDB fresh false); suitable req checked)), bind_run.
  apply (agrees_call req (RecheckFromDB fresh false)) in H. destruct (call req (RecheckFromDB fresh false) s3) as [r4 s4]. cbn [fst snd] in *.
  apply (agrees_suitable req r4) in H. destruct (suitable req r4 s4) as [latest s5]. cbn [fst snd] in *.
  destruct latest as [latest|]; [|by apply IH]. destruct (_ && _); [by apply IH|done].
Qed.
Lemma waitPass_app req l k cb s :
  waitPass cfg req (fun _ _ => false) (l ++ k) cb s =
  (r ← waitPass cfg req (fun _ _ => false) l cb;
   match r with (WaitNone, cb') => waitPass cfg req (fun _ _ => false) k cb' | _ => mret r end) s.
Proof.
  revert cb s. induction l as [|c l IH]; intros cb s; [done|]. cbn [app waitPass].
  rewrite ?bind_run. cbn [get fst snd]. rewrite ?bind_run.
  destruct (call req (ResolveFresh (account c)) s) as [r s1]. cbn [fst snd].
  destruct (suitable req r s1) as [fresh s2]. cbn [fst snd]. destruct fresh as [fresh|]; [|by rewrite IH, bind_run].
  rewrite ?bind_run. destruct (consumeOpenAISelectionDBRecheck cfg s2) as [allowed s3]. cbn [fst snd].
  destruct allowed; cbn [negb]; [|done]. rewrite ?bind_run.
  destruct (call req (RecheckFromDB fresh false) s3) as [r4 s4]. cbn [fst snd].
  destruct (suitable req r4 s4) as [latest s5]. cbn [fst snd]. destruct latest as [latest|]; [|by rewrite IH, bind_run].
  destruct (_ && _); [by rewrite IH, bind_run|done].
Qed.

(** The pass in which a candidate has its turn. *)
Definition passOf b (c : openAIAccountCandidateScore) : Z :=
  (if knownFull c then 2 else 0) + (if wasAttempted b (candidateID c) then 1 else 0).
Definition turnOf b (pass : Z) (order : list openAIAccountCandidateScore) : list openAIAccountCandidateScore :=
  List.filter (fun c => passOf b c =? pass) order.
Definition passOrder b (order : list openAIAccountCandidateScore) : list openAIAccountCandidateScore :=
  flat_map (fun pass => turnOf b pass order) [0; 1; 2; 3].

Lemma skip_turn b pass order : limited b = true -> pass ∈ [0; 1; 2; 3] ->
  List.filter (fun c => negb (skipInPass pass c b)) order = turnOf b pass order.
Proof.
  intros Hl Hp. apply filter_ext. intros c. unfold skipInPass, passOf. rewrite Hl.
  repeat (apply elem_of_cons in Hp as [->|Hp]; [by destruct (knownFull c), (wasAttempted b (candidateID c))|]).
  by apply not_elem_of_nil in Hp.
Qed.
Lemma waitPasses_flat req order passes cb b s : limited b = true -> passes ⊆ [0; 1; 2; 3] -> agrees b s ->
  waitPasses cfg req order passes cb s =
  waitPass cfg req (fun _ _ => false) (flat_map (fun pass => turnOf b pass order) passes) cb s.
Proof.
  intros Hl. revert cb s. induction passes as [|pass passes IH]; intros cb s Hp H; [done|]. cbn [waitPasses flat_map].
  rewrite waitPass_app, !bind_run. destruct (waitPass_filter req pass order cb b s H) as [E Ha].
  rewrite (skip_turn b pass order Hl) in E by (apply Hp; left). rewrite <- E.
  destruct (waitPass cfg req (skipInPass pass) order cb s) as [[[sel| |] cb'] s']; cbn [fst snd] in *; [done|done|].
  apply IH; [|done]. intros x Hx. apply Hp. by right.
Qed.
Lemma passOf_range b c : passOf b c ∈ [0; 1; 2; 3].
Proof. unfold passOf. destruct (knownFull c), (wasAttempted b (candidateID c)); vm_compute; repeat constructor. Qed.
Lemma passOrder_perm b order : passOrder b order ≡ₚ order.
Proof.
  unfold passOrder. cbn [flat_map]. rewrite app_nil_r. induction order as [|c order IH]; [done|].
  etrans; [|apply (perm_skip c), IH]. clear IH. cbn [turnOf List.filter].
  change (List.filter _ order) with (turnOf b 0 order) at 1 2.
  change (List.filter (fun c => passOf b c =? 1) order) with (turnOf b 1 order).
  change (List.filter (fun c => passOf b c =? 2) order) with (turnOf b 2 order).
  change (List.filter (fun c => passOf b c =? 3) order) with (turnOf b 3 order).
  generalize (turnOf b 0 order) (turnOf b 1 order) (turnOf b 2 order) (turnOf b 3 order). intros l0 l1 l2 l3.
  pose proof (passOf_range b c) as Hr. rewrite !elem_of_cons in Hr.
  destruct Hr as [->|[->|[->|[->|H%not_elem_of_nil]]]]; simpl; [done| | | |done].
  all: by rewrite <- !Permutation_middle.
Qed.
Lemma turnOf_pass b pass order : Forall (fun c => passOf b c = pass) (turnOf b pass order).
Proof. apply Forall_forall. intros c [_ H]%list_elem_of_In%filter_In. by apply Z.eqb_eq. Qed.
Lemma passOrder_sorted b order : StronglySorted (fun c d => passOf b c <= passOf b d) (passOrder b order).
Proof.
  assert (H : forall passes, StronglySorted Z.le passes ->
    StronglySorted (fun c d => passOf b c <= passOf b d) (flat_map (fun pass => turnOf b pass order) passes) /\
    forall c, c ∈ flat_map (fun pass => turnOf b pass order) passes -> passOf b c ∈ passes).
  { induction 1 as [|p passes Hs [IH1 IH2] Hp]; cbn [flat_map]; [split; [constructor|set_solver]|].
    pose proof (turnOf_pass b p order) as Ht. rewrite Forall_forall in Ht. rewrite Forall_forall in Hp. split.
    - apply StronglySorted_app_2; [|revert Ht; generalize (turnOf b p order)|done].
      + intros c d Hc Hd. rewrite (Ht c Hc). by apply Hp, IH2.
      + intros l Ht. induction l as [|c l IH]; constructor; [apply IH; intros; apply Ht; by right|].
        apply Forall_forall. intros d Hd. rewrite (Ht c), (Ht d); [lia|by right|by left].
    - intros c [Hc|Hc]%elem_of_app; [rewrite (Ht c Hc); by left|right; by apply IH2]. }
  apply H. repeat constructor; lia.
Qed.
End Passes.

(** ** The Redis cache answers while it has no faults *)

Section RedisSlotsAnswer.
Context {S : Type} {redis : Redis S} {laws : RedisSpec S} (slotTTLMinutes waitTTL : Z).
#[local] Existing Instance redisCache.
#[local] Existing Instance redisSlotSpec.

Lemma acquireScript_frame key live m t r (s : S) k : k <> key ->
  dom (zset (acquireScript key live m t r s).2 k) ⊆ dom (zset s k).
Proof.
  intros Hk. unfold acquireScript. run_redis.
  set (s1 := (ZREMRANGEBYSCORE live (clock s - 60) (ZREMRANGEBYSCORE key (clock s - t) s).2).2).
  assert (H1 : shrinks s s1) by (unfold s1; shrinking).
  assert (Hput : dom (zset (EXPIRE key t (ZADD key (clock s) r s1).2).2 k) ⊆ dom (zset s k)).
  { etrans; [apply expire_shrinks|]. rewrite zadd_spec, decide_False by done. apply H1. }
  destruct (zset s1 key !! r); run_redis; [exact Hput|]. destruct (_ <? m); run_redis; [exact Hput|apply H1].
Qed.
Lemma remote_answers {A} (m : ST S A) s : remote m (s, []) = (Ok (m s).1, ((m s).2, [])).
Proof. simpl. by destruct (m s). Qed.
Lemma touch_answers idx id e s : exists s', touchActiveIndexAt idx id e (s, []) = (tt, (s', [])).
Proof.
  unfold touchActiveIndexAt. destruct (_ || _); [by eexists|]. rewrite bind_run, remote_answers. by eexists.
Qed.
Lemma refresh_answers c sp id s : exists s', refreshActiveIndex c sp id (s, []) = (tt, (s', [])).
Proof.
  unfold refreshActiveIndex. destruct (id <=? 0); [by eexists|]. unfold redisUnixSeconds, readActiveLoadForKey, wrapErr.
  rewrite !bind_run, remote_answers. cbn [fst snd mret ST_ret]. rewrite !bind_run, remote_answers. cbn [fst snd mret ST_ret].
  destruct (_ && _); [rewrite bind_run, remote_answers; by eexists|]. destruct (_ <=? 0); [by eexists|apply touch_answers].
Qed.

#[export] Instance redisAccountSlots : AccountSlots (S * list fault) (cache := redisCache slotTTLMinutes waitTTL).
Proof.
  refine {| healthy := fun w => w.2 = [] |}.
  - intros id m r [s fs] Hh. simpl in Hh. subst fs. cbn [cacheAcquireAccountSlot redisCache].
    unfold ConcurrencyCache.AcquireAccountSlot, acquireSlot, bind_ok. rewrite bind_run, remote_answers. cbn [fst snd].
    set (script := acquireScript _ _ _ _ _ s).
    assert (Hframe : forall id', id' <> id -> dom (zset script.2 (slot ConcurrencyCache.Account id')) ⊆ dom (zset s (slot ConcurrencyCache.Account id'))).
    { intros id' Hne. apply acquireScript_frame. intros E. by apply (slot_inj ConcurrencyCache.Account ConcurrencyCache.Account id' id) in E as [_ ?]. }
    destruct script as [[[] now] s']; cbn [fst snd] in *; [|split_and!; [done|by eexists|done]].
    rewrite bind_run. unfold touchActiveIndexAt. destruct (_ || _); [split_and!; [done|by eexists|done]|].
    rewrite bind_run, remote_answers. split_and!; [done|by eexists|]. intros id' Hne. simpl.
    rewrite zadd_spec, decide_False by apply (idx_slot ConcurrencyCache.Account). by apply Hframe.
  - intros id r [s fs] Hh. simpl in Hh. subst fs. cbn [cacheReleaseAccountSlot redisCache].
    unfold ConcurrencyCache.ReleaseAccountSlot, releaseSlot, bind_ok. rewrite bind_run, remote_answers. cbn [fst snd].
    rewrite bind_run. pose proof (refresh_answers (NewConcurrencyCache slotTTLMinutes waitTTL) accountSlotIndex id
      (ZREM (slotKey accountSlotIndex id) r s).2) as [s' E].
    pose proof (quiet_refresh slotTTLMinutes waitTTL ConcurrencyCache.Account id ((ZREM (slotKey accountSlotIndex id) r s).2, [])) as Hq.
    cbn [spec_of] in Hq. rewrite E in Hq |- *. cbn [fst snd mret ST_ret] in *. split_and!; [done|done|]. intros id'.
    etrans; [apply (Hq ConcurrencyCache.Account id')|]. exact (zrem_shrinks _ _ s _).
Defined.
End RedisSlotsAnswer.

(** ** Theorems *)

Section Properties.
Context {W : Type} {cache : Cache W} {spec : SlotSpec W} {slots : AccountSlots W} {gateway : Gateway W}
  {quiet : GatewaySpec W} {sorting : SliceSort} (cfg : schedulerConfig)
  (LoadLocation : string -> option (time -> duration)) {numbers : JsonNumbers}.

Lemma verdict_spent exact s0 s req r : verdict cfg exact s0 s req r -> spent exact s0 s.
Proof.
  destruct r as [[sel|]|e]; simpl; [|by intros (_ & _ & ?)..]. intros [_ H]. destruct (sel_Acquired sel).
  - by destruct H as (_ & _ & ? & _).
  - by destruct H as ((_ & _ & ?) & _).
Qed.

(** C27: Slots while an account is selected, on a cache that answers every call (a
    failed release would leave a slot until it expires).  The load balancer and the
    session layer return a selection only of an account that the gateway found fit,
    after a recheck, and for a compact request the load balancer never of one known
    not to support it.  If the selection is acquired, nobody gained a slot but the
    request itself, at that account, and that exactly one slot, or none when the
    account has no limit or there is no concurrency service: every slot that was
    acquired on the way and given up was given back.  If it is a plan to wait, or
    there is none, or an error, nobody gained a slot at all.  The release function
    of an acquired selection, run in any later state, takes the slot of the request
    away and gives none to anybody. *)
Theorem selection_keeps_slots req (s : sched) : good s ->
  wp (selectByLoadBalance cfg LoadLocation req) (fun o s' => verdict cfg False s s' req (out_result o)) s /\
  wp (selectBySessionHash cfg LoadLocation req)
    (fun r s' => match r.1 with Some sel => selection_ok cfg False false s s' req sel | None => sub False s s' end) s /\
  forall compact s' sel, selection_ok cfg False compact s s' req sel -> sel_Acquired sel = true ->
    let id := ID (sel_Account sel) in
    exists R, (forall id', heldAt s' id' ⊆ heldAt s id' ∪ (if decide (id' = id) then R else ∅)) /\
      slotHeld (limitedTo cfg (Concurrency (sel_Account sel))) R (heldAt s' id) /\
      forall s'', good s'' ->
        wp (release (sel_Release sel)) (fun _ s3 => good s3 /\ (forall id', heldAt s3 id' ⊆ heldAt s'' id') /\ R ## heldAt s3 id) s''.
Proof.
  intros Hg. split; [|split].
  - apply selectByLoadBalance_ok; [tauto|]. by apply sub_refl.
  - apply session_ok; [tauto|]. by apply sub_refl.
  - intros compact s' sel [_ H] Ea. rewrite Ea in H. destruct H as (_ & _ & _ & R & H1 & H2 & H3).
    exists R. split_and!; [done..|]. intros s'' Hs''. by apply wp_releases.
Qed.

(** The probe budget.  Trying a selection order under the limit, however long the
    order, acquires a slot at most 64 times (each acquisition draws one request
    id), and reads accounts from the database at most 64 times. *)
Theorem probes_bounded req order (s : sched) : good s ->
  let start := mkSched (proc s) (enableLimit newOpenAISelectionProbeBudget) in
  let s' := (tryAcquireOpenAISelectionOrderWithBudget cfg req order start).2 in
  (tryAcquireOpenAISelectionOrder cfg req order s).2 = mkSched (proc s') (budget s) /\
  exists n, 0 <= n <= 64 /\ counter s' mod 2 ^ 64 = (counter s + n) mod 2 ^ 64 /\
    acquires (budget s') = n /\ 0 <= rechecks (budget s') <= 64.
Proof.
  intros Hg start s'. split.
  { unfold tryAcquireOpenAISelectionOrder. fold start. subst s'.
    by destruct (tryAcquireOpenAISelectionOrderWithBudget cfg req order start). }
  assert (Hs : spent True start s').
  { eapply verdict_spent. apply (tryAcquireOrder_ok cfg (fun _ => None) True req order false start start). by apply sub_refl. }
  destruct (Hs I) as (_ & H1 & H2). specialize (H1 eq_refl ltac:(simpl; lia)). specialize (H2 eq_refl ltac:(simpl; lia)).
  exists (acquires (budget s')). simpl in H1, H2. destruct H1 as [H1 Hc]. rewrite Z.sub_0_r in Hc. auto.
Qed.

(** Waiting under a budget.  The four passes over the selection order are one pass
    over a rearrangement of it: first the accounts that are not known to be full
    and were not probed, then those that were probed, then the full ones in the
    same way; every candidate has exactly one turn. *)
Theorem wait_in_passes req order cb (s : sched) : limited (budget s) = true ->
  waitPasses cfg req order [0; 1; 2; 3] cb s =
    waitPass cfg req (fun _ _ => false) (passOrder (budget s) order) cb s /\
  passOrder (budget s) order ≡ₚ order /\
  StronglySorted (fun c d => passOf (budget s) c <= passOf (budget s) d) (passOrder (budget s) order).
Proof.
  intros Hl. split; [by apply waitPasses_flat|]. split; [apply passOrder_perm|apply passOrder_sorted].
Qed.
End Properties.

(** ** Scenarios: two accounts of two slots each on the in-memory Redis *)

Definition demoWorld : Type := memRedis * list fault.
#[local] Instance schedCache : Cache demoWorld := redisCache 15 0.
#[local] Instance schedSpec : SlotSpec demoWorld := redisSlotSpec 15 0.
#[local] Instance schedSlots : AccountSlots demoWorld := redisAccountSlots 15 0.
Definition pooledAccounts : list Account.Account :=
  map (fun id => { blankAccount id PlatformOpenAI AccountTypeAPIKey with Concurrency := 2 }) [7; 8].
Definition pooledAccount (id : Z) : option Account.Account := snd <$> list_find (fun a => ID a = id) pooledAccounts.
Lemma pooledAccount_same id a : pooledAccount id = Some a -> ID a = id.
Proof.
  unfold pooledAccount. destruct (list_find _ _) as [[i b]|] eqn:E; [|done]. intros [= <-].
  by apply list_find_Some in E as (_ & E & _).
Qed.
#[local] Instance demoGateway : Gateway demoWorld := {|
  perform A req c w := match c in serviceCall A return A * demoWorld with
    | Now => (unixEpoch, w)
    | ListSchedulableAccounts => (Ok pooledAccounts, w)
    | FilterGrokAccounts l => (Ok l, w)
    | GroupRequiresPrivacySet | RuntimeBlocked _ | GrokBlocked _ | ShouldClearSticky _ => (false, w)
    | CompatibleReason _ => (None, w)
    | TransportCompatible _ | MatchesSchedulingGroup _ => (true, w)
    | GetSchedulableAccount id => (pooledAccount id, w)
    | ResolveFresh a | RecheckFromDB a _ => (Some a, w)
    | GetSticky => (Some 8, w)
    | BindSticky _ | RefreshSticky | DeleteSticky => (tt, w)
    | AccountsLoadBatch _ _ => (Ok ∅, w)
    end |}.
#[local] Instance demoGatewaySpec : GatewaySpec demoWorld.
Proof.
  split.
  - intros A req c w Hw. by destruct c.
  - by intros req a w b [= ->].
  - by intros req a compact w b [= ->].
  - intros req id w b. apply pooledAccount_same.
Qed.
#[local] Instance demoSort : SliceSort := stableSliceSort.
Definition demoConfig : schedulerConfig :=
  mkSchedulerConfig demoEnv true true true (mkEscape false fzero fzero) PlatformOpenAI Second 3 Second 3.
Definition freshSched : sched (W := demoWorld) := mkSched (mkProcess (initRequestIDPrefix 99) 0 (freshRedis, [])) newOpenAISelectionProbeBudget.
Definition chosenID (o : outcome (W := demoWorld)) : option Z :=
  match out_result o with Ok (Some sel) => Some (ID (sel_Account sel)) | _ => None end.

Lemma selection_keeps_slots_witness :
  let r := selectByLoadBalance demoConfig (fun _ => None) (numbers := exactNumbers) demoRequest freshSched in
  chosenID r.1 = Some 8 /\ verdict demoConfig False freshSched r.2 demoRequest (out_result r.1).
Proof.
  split; [vm_compute; reflexivity|].
  exact (proj1 (selection_keeps_slots demoConfig (fun _ => None) (numbers := exactNumbers) demoRequest freshSched eq_refl)).
Defined.
Lemma probes_bounded_witness :
  let start := mkSched (proc freshSched) (enableLimit newOpenAISelectionProbeBudget) in
  let s' := (tryAcquireOpenAISelectionOrderWithBudget demoConfig demoRequest (map (candidateOf demoEnv ∅) pooledAccounts) start).2 in
  acquires (budget s') = 1 /\ 0 <= rechecks (budget s') <= 64.
Proof.
  intros start s'. assert (Hg : good freshSched) by reflexivity.
  destruct (probes_bounded demoConfig demoRequest (map (candidateOf demoEnv ∅) pooledAccounts) freshSched Hg)
    as (_ & n & _ & _ & _ & Hr). split; [vm_compute; reflexivity|exact Hr].
Defined.
Lemma wait_in_passes_witness :
  let b := mkBudget 1 0 {[7]} true in
  map candidateID (passOrder b (map (candidateOf demoEnv ∅) pooledAccounts)) = [8; 7] /\
  passOrder b (map (candidateOf demoEnv ∅) pooledAccounts) ≡ₚ map (candidateOf demoEnv ∅) pooledAccounts.
Proof.
  split; [vm_compute; reflexivity|].
  exact (proj1 (proj2 (wait_in_passes demoConfig demoRequest (map (candidateOf demoEnv ∅) pooledAccounts) false
    (mkSched (proc freshSched) (mkBudget 1 0 {[7]} true)) eq_refl))).
Defined.
