(* ===== verification/BatchQueue.v ===== *)
(** * The queue of image batches and its workers

    [repository/batch_image_queue.go], [service/batch_image_queue.go] and
    [service/batch_image_worker.go]: ready batches in a Redis list, delayed and
    active ones in sorted sets, a key per batch in flight and a lock per batch.

    Redis is not part of the repository: [RedisQueue] is the interface of the
    commands the queue calls, [RedisQueueSpec] their documented behaviour, and
    [memQueue] an instance.  A script or a MULTI/EXEC pipeline is atomic; over a
    connection it can fail before or after it took effect.  Keys whose time to live
    ends are steps of the environment. *)

From S2P Require Import Prelude AbuseLimiter Errors SubscriptionRepo Account Scheduler BatchSettlement.

Class RedisQueue (S : Type) := {
  RPOP : string -> ST S (option string);
  LPUSH : string -> string -> ST S unit;
  ZADD : string -> Z -> string -> ST S unit;
  ZADD_XX : string -> Z -> string -> ST S unit;
  ZREM : string -> string -> ST S unit;
  ZRANGEBYSCORE : string -> Z -> Z -> ST S (list string);
  SET_NX_PX : string -> string -> Z -> ST S bool;
  GET : string -> ST S (option string);
  DEL : string -> ST S unit;
  PEXPIRE : string -> Z -> ST S unit }.

(** The list (its left end first), the sorted set and the string of every key,
    absent keys being empty. *)
Class RedisQueueSpec (S : Type) `{!RedisQueue S} := {
  lst : S -> string -> list string;
  zset : S -> string -> gmap string Z;
  txt : S -> string -> option string;
  rpop_result k s : (RPOP k s).1 = last (lst s k);
  rpop_lst k s k' : lst (RPOP k s).2 k' = if decide (k = k') then take (pred (length (lst s k))) (lst s k) else lst s k';
  rpop_frame k s k' : zset (RPOP k s).2 k' = zset s k' /\ txt (RPOP k s).2 k' = txt s k';
  lpush_lst k m s k' : lst (LPUSH k m s).2 k' = if decide (k = k') then m :: lst s k else lst s k';
  lpush_frame k m s k' : zset (LPUSH k m s).2 k' = zset s k' /\ txt (LPUSH k m s).2 k' = txt s k';
  zadd_zset k v m s k' : zset (ZADD k v m s).2 k' = if decide (k = k') then <[m := v]> (zset s k) else zset s k';
  zadd_frame k v m s k' : lst (ZADD k v m s).2 k' = lst s k' /\ txt (ZADD k v m s).2 k' = txt s k';
  zaddxx_zset k v m s k' : zset (ZADD_XX k v m s).2 k' = if decide (k = k') then alter (fun _ => v) m (zset s k) else zset s k';
  zaddxx_frame k v m s k' : lst (ZADD_XX k v m s).2 k' = lst s k' /\ txt (ZADD_XX k v m s).2 k' = txt s k';
  zrem_zset k m s k' : zset (ZREM k m s).2 k' = if decide (k = k') then delete m (zset s k) else zset s k';
  zrem_frame k m s k' : lst (ZREM k m s).2 k' = lst s k' /\ txt (ZREM k m s).2 k' = txt s k';
  zrange_state k max count s : (ZRANGEBYSCORE k max count s).2 = s;
  zrange_sound k max count s m : m ∈ (ZRANGEBYSCORE k max count s).1 -> exists v, zset s k !! m = Some v /\ v <= max;
  zrange_nodup k max count s : NoDup (ZRANGEBYSCORE k max count s).1;
  zrange_complete k max count s m v : zset s k !! m = Some v -> v <= max -> 0 <= count ->
    m ∈ (ZRANGEBYSCORE k max count s).1 \/ Z.of_nat (length (ZRANGEBYSCORE k max count s).1) = count;
  zrange_count k max count s : 0 <= count -> Z.of_nat (length (ZRANGEBYSCORE k max count s).1) <= count;
  zrange_lowest k max count s m v m' v' : m ∈ (ZRANGEBYSCORE k max count s).1 -> zset s k !! m = Some v ->
    zset s k !! m' = Some v' -> v' < v -> m' ∈ (ZRANGEBYSCORE k max count s).1;
  setnx_result k t ttl s : 0 < ttl -> (SET_NX_PX k t ttl s).1 = bool_decide (txt s k = None);
  setnx_txt k t ttl s k' : 0 < ttl -> txt (SET_NX_PX k t ttl s).2 k' =
    if decide (k = k') then Some (default t (txt s k)) else txt s k';
  setnx_frame k t ttl s k' : lst (SET_NX_PX k t ttl s).2 k' = lst s k' /\ zset (SET_NX_PX k t ttl s).2 k' = zset s k';
  get_spec k s : GET k s = (txt s k, s);
  del_lst k s k' : lst (DEL k s).2 k' = if decide (k = k') then [] else lst s k';
  del_zset k s k' : zset (DEL k s).2 k' = if decide (k = k') then ∅ else zset s k';
  del_txt k s k' : txt (DEL k s).2 k' = if decide (k = k') then None else txt s k';
  pexpire_frame k ttl s k' : 0 < ttl ->
    lst (PEXPIRE k ttl s).2 k' = lst s k' /\ zset (PEXPIRE k ttl s).2 k' = zset s k' /\ txt (PEXPIRE k ttl s).2 k' = txt s k' }.

Definition ErrBatchImageQueueEmpty := New 404 "BATCH_IMAGE_QUEUE_EMPTY" "batch image queue is empty".
Definition ErrBatchImageAlreadyQueued := New 409 "BATCH_IMAGE_ALREADY_QUEUED" "batch image job is already queued".
Definition ErrInvalidBatchImageQueuePayload := New 400 "BATCH_IMAGE_QUEUE_INVALID_PAYLOAD" "invalid batch image queue payload".
Definition IsValidBatchImageID (batchID : string) : bool :=
  HasPrefix batchID "imgbatch_" && (Z.of_nat (String.length "imgbatch_") <? Z.of_nat (String.length batchID)).

(** ** Options *)

Definition defaultBatchImageReadyKey : string := "batch_image:queue:ready".
Definition defaultBatchImageDelayedKey : string := "batch_image:queue:delayed".
Definition defaultBatchImageActiveKey : string := "batch_image:queue:active".
Definition defaultBatchImageInflightPrefix : string := "batch_image:queue:inflight:".
Definition defaultBatchImageLockPrefix : string := "batch_image:queue:lock:".
Definition defaultBatchImageInflightTTL : duration := 7 * 24 * Hour.
Definition defaultBatchImageJobLockTTL : duration := 5 * Minute.
Record batchImageQueueOptions := mkQueueOptions {
  ReadyKey : string; DelayedKey : string; ActiveKey : string; InflightPrefix : string; LockPrefix : string;
  InflightTTL : duration; LockTTL : duration }.
Definition normalizeBatchImageQueueOptions (opts : batchImageQueueOptions) : batchImageQueueOptions :=
  let text (s dflt : string) := if String.eqb s "" then dflt else s in
  let ttl (d dflt : duration) := if d <=? 0 then dflt else d in
  mkQueueOptions (text (ReadyKey opts) defaultBatchImageReadyKey) (text (DelayedKey opts) defaultBatchImageDelayedKey)
    (text (ActiveKey opts) defaultBatchImageActiveKey) (text (InflightPrefix opts) defaultBatchImageInflightPrefix)
    (text (LockPrefix opts) defaultBatchImageLockPrefix) (ttl (InflightTTL opts) defaultBatchImageInflightTTL)
    (ttl (LockTTL opts) defaultBatchImageJobLockTTL).

Definition UnixMilli (t : time) : Z := UnixNano t / 10 ^ 6.
Definition Milliseconds (d : duration) : Z := Z.quot d (10 ^ 6).

(** ** The queue *)

Section Queue.
Context {S : Type} `{!RedisQueue S} (q : batchImageQueueOptions).
Local Abbreviation call A := (ST (S * list fault) (result goerror A)).
Definition inflightKey (batchID : string) : string := InflightPrefix q +:+ batchID.
Definition lockKey (batchID : string) : string := LockPrefix q +:+ batchID.

Fixpoint moveAll (from to : string) (jobs : list string) : ST S unit :=
  match jobs with
  | [] => mret tt
  | job :: jobs => _ ← ZREM from job; _ ← LPUSH to job; moveAll from to jobs
  end.
(** [batchImageMoveDueDelayedScript] and [batchImageRecoverStaleActiveScript] have the same text. *)
Definition batchImageMoveDueDelayedScript (from to : string) (max limit : Z) : ST S Z :=
  jobs ← ZRANGEBYSCORE from max limit; _ ← moveAll from to jobs; mret (Z.of_nat (length jobs)).
Definition batchImageReleaseLockScript (key token : string) : ST S unit :=
  held ← GET key; if bool_decide (held = Some token) then DEL key else mret tt.
Definition batchImageRefreshLockScript (key token : string) (ttl : Z) : ST S unit :=
  held ← GET key; if bool_decide (held = Some token) then PEXPIRE key ttl else mret tt.
Definition batchImageReserveScript (readyKey activeKey : string) (now : Z) : ST S (option string) :=
  job ← RPOP readyKey;
  match job with
  | None => mret None
  | Some job => _ ← ZADD activeKey now job; mret (Some job)
  end.
Definition batchImageEnqueueScript (inflightKey readyKey batchID : string) (ttl : Z) : ST S bool :=
  applied ← SET_NX_PX inflightKey batchID ttl;
  if applied : bool then _ ← LPUSH readyKey batchID; mret true else mret false.

Definition validated {A} (batchID : string) (m : call A) : call A :=
  if negb (IsValidBatchImageID batchID) then mret (Err (AppErr ErrInvalidBatchImageQueuePayload)) else m.
Definition Enqueue (batchID : string) : call unit := validated batchID (
  applied ←? remote (batchImageEnqueueScript (inflightKey batchID) (ReadyKey q) batchID (Milliseconds (InflightTTL q)));
  mret (if applied : bool then Ok tt else Err (AppErr ErrBatchImageAlreadyQueued))).
Definition reserveOnce (now : time) : call string :=
  raw ←? remote (batchImageReserveScript (ReadyKey q) (ActiveKey q) (UnixMilli now));
  match raw with
  | None => mret (Err (AppErr ErrBatchImageQueueEmpty))
  | Some batchID =>
      if negb (IsValidBatchImageID batchID) then
        _ ← (if negb (String.eqb batchID "") then r ← remote (ZREM (ActiveKey q) batchID); mret tt else mret tt);
        mret (Err (AppErr ErrInvalidBatchImageQueuePayload))
      else mret (Ok batchID)
  end.
(** [later]: the times of the further polls before the deadline. *)
Fixpoint Reserve (now : time) (later : list time) : call string :=
  r ← reserveOnce now;
  match r with
  | Ok batchID => mret (Ok batchID)
  | Err e =>
      if negb (errors_Is e (AppErr ErrBatchImageQueueEmpty)) then mret (Err e)
      else match later with
           | [] => mret (Err (AppErr ErrBatchImageQueueEmpty))
           | now :: later => Reserve now later
           end
  end.
Definition RequeueAfter (batchID : string) (delay : duration) (now : time) : call unit := validated batchID (
  remote (
    _ ← ZREM (ActiveKey q) batchID;
    _ ← ZREM (DelayedKey q) batchID;
    if delay <=? 0 then LPUSH (ReadyKey q) batchID else ZADD (DelayedKey q) (UnixMilli (now + delay)) batchID)).
Definition Ack (batchID : string) : call unit := validated batchID (
  remote (_ ← ZREM (ActiveKey q) batchID; _ ← ZREM (DelayedKey q) batchID; DEL (inflightKey batchID))).
Definition Heartbeat (batchID : string) (now : time) : call unit := validated batchID (
  remote (ZADD_XX (ActiveKey q) (UnixMilli now) batchID)).
Definition MoveDueDelayedToReady (limit : Z) (now : time) : call Z :=
  let limit := if limit <=? 0 then 100 else limit in
  remote (batchImageMoveDueDelayedScript (DelayedKey q) (ReadyKey q) (UnixMilli now) limit).
Definition RecoverStaleActive (staleAfter : duration) (limit : Z) (now : time) : call Z :=
  if staleAfter <=? 0 then mret (Err (AppErr ErrInvalidBatchImageQueuePayload))
  else
    let limit := if limit <=? 0 then 100 else limit in
    remote (batchImageMoveDueDelayedScript (ActiveKey q) (ReadyKey q) (UnixMilli (now - staleAfter)) limit).
(** [token] is drawn by [newBatchImageLockToken]; [true]: the lock is held by it. *)
Definition TryAcquireJobLock (batchID token : string) (ttl : duration) : call bool := validated batchID (
  let ttl := if ttl <=? 0 then LockTTL q else ttl in
  remote (SET_NX_PX (lockKey batchID) token (Milliseconds ttl))).
Definition LockRelease (batchID token : string) : call unit :=
  if String.eqb (lockKey batchID) "" || String.eqb token "" then mret (Ok tt)
  else remote (batchImageReleaseLockScript (lockKey batchID) token).
Definition LockRefresh (batchID token : string) (ttl : duration) : call unit :=
  if String.eqb (lockKey batchID) "" || String.eqb token "" then mret (Ok tt)
  else remote (batchImageRefreshLockScript (lockKey batchID) token (Milliseconds (if ttl <=? 0 then defaultBatchImageJobLockTTL else ttl))).
End Queue.

(** ** The worker *)

Record BatchImageWorkerOptions := mkWorkerOptions {
  ReserveBlockTimeout : duration; JobLockTTL : duration; LockConflictDelay : duration; DefaultRequeueDelay : duration;
  ErrorRetryDelay : duration; ErrorBackoff : duration; DelayedPollInterval : duration; RecoveryInterval : duration;
  StaleActiveAfter : duration; DelayedMoveLimit : Z; RecoverLimit : Z }.
Definition normalizeBatchImageWorkerOptions (opts : BatchImageWorkerOptions) : BatchImageWorkerOptions :=
  let or (v dflt : Z) := if v <=? 0 then dflt else v in
  mkWorkerOptions (or (ReserveBlockTimeout opts) (5 * Second)) (or (JobLockTTL opts) (5 * Minute)) (or (LockConflictDelay opts) (5 * Second))
    (or (DefaultRequeueDelay opts) (30 * Second)) (or (ErrorRetryDelay opts) Minute) (or (ErrorBackoff opts) Second)
    (or (DelayedPollInterval opts) (5 * Second)) (or (RecoveryInterval opts) (5 * Minute)) (or (StaleActiveAfter opts) (10 * Minute))
    (or (DelayedMoveLimit opts) 100) (or (RecoverLimit opts) 100).
Definition heartbeatInterval (opts : BatchImageWorkerOptions) : duration :=
  let interval := JobLockTTL opts in
  let interval := if StaleActiveAfter opts <? interval then StaleActiveAfter opts else interval in
  let interval := Z.quot interval 3 in
  if interval <? Second then Second else interval.

Section Worker.
Context {S : Type} `{!RedisQueue S} {P : Type} (q : batchImageQueueOptions) (opts : BatchImageWorkerOptions)
  (process : string -> ST P (result goerror BatchImageProcessResult)).
(** Redis with its connection, and what the processor works on. *)
Local Abbreviation world := ((S * list fault) * P)%type.
Definition onQueue {A} (m : ST (S * list fault) A) : ST world A := fun '(w, p) => let '(a, w) := m w in (a, (w, p)).
Definition onProcessor {A} (m : ST P A) : ST world A := fun '(w, p) => let '(a, p) := m p in (a, (w, p)).

(** One round at [now], [done] when the batch was processed; the heartbeat beside it is [Heartbeat]
    and [LockRefresh]. *)
Definition RunOnce (token : string) (now : time) (later : list time) (done : time) : ST world (result goerror unit) :=
  reserved ← onQueue (Reserve q now later);
  match reserved with
  | Err e => mret (if errors_Is e (AppErr ErrBatchImageQueueEmpty) then Ok tt else Err e)
  | Ok batchID =>
      locked ← onQueue (TryAcquireJobLock q batchID token (JobLockTTL opts));
      match locked with
      | Err e =>
          r ← onQueue (RequeueAfter q batchID (LockConflictDelay opts) done);
          mret (match r with Err e' => Err e' | Ok _ => Err e end)
      | Ok false => onQueue (RequeueAfter q batchID (LockConflictDelay opts) done)
      | Ok true =>
          result ← onProcessor (process batchID);
          r ← match result with
              | Err _ => onQueue (RequeueAfter q batchID (ErrorRetryDelay opts) done)
              | Ok result =>
                  if Terminal result then onQueue (Ack q batchID)
                  else
                    let delay := BatchSettlement.RequeueAfter result in
                    onQueue (RequeueAfter q batchID (if delay <=? 0 then DefaultRequeueDelay opts else delay) done)
              end;
          _ ← onQueue (LockRelease q batchID token);
          mret r
      end
  end.
End Worker.

(** ** Histories of the queue *)

Section Properties.
Context {S : Type} `{RedisQueueSpec S} (q : batchImageQueueOptions).
Local Abbreviation world := (S * list fault)%type.

(** The keys are different ones, and their times to live at least a millisecond. *)
Record keysOk : Prop := {
  keys_sets : DelayedKey q <> ActiveKey q;
  keys_inflight b : inflightKey q b <> ReadyKey q /\ inflightKey q b <> DelayedKey q /\ inflightKey q b <> ActiveKey q;
  keys_lock b : lockKey q b <> ReadyKey q /\ lockKey q b <> DelayedKey q /\ lockKey q b <> ActiveKey q;
  keys_apart b b' : inflightKey q b <> lockKey q b';
  keys_ttl : 0 < Milliseconds (InflightTTL q) /\ 0 < Milliseconds (LockTTL q) }.
Context (keys : keysOk).

(** What any worker, service or maintenance loop does to the queue; [EvExpire] is a key
    whose time to live ends. *)
Inductive event :=
| EvEnqueue (b : string) | EvReserve (now : time) | EvRequeue (b : string) (delay : duration) (now : time) | EvAck (b : string)
| EvHeartbeat (b : string) (now : time) | EvMoveDue (limit : Z) (now : time) | EvRecover (staleAfter : duration) (limit : Z) (now : time)
| EvLock (b token : string) (ttl : duration) | EvUnlock (b token : string) | EvRefresh (b token : string) (ttl : duration)
| EvExpireInflight (b : string) | EvExpireLock (b : string).
#[local] Instance event_eq_dec : EqDecision event.
Proof. solve_decision. Defined.
Definition ignored {A} (m : ST world A) : ST world unit := _ ← m; mret tt.
Definition happens (ev : event) : ST world unit :=
  match ev with
  | EvEnqueue b => ignored (Enqueue q b)
  | EvReserve now => ignored (reserveOnce q now)
  | EvRequeue b delay now => ignored (RequeueAfter q b delay now)
  | EvAck b => ignored (Ack q b)
  | EvHeartbeat b now => ignored (Heartbeat q b now)
  | EvMoveDue limit now => ignored (MoveDueDelayedToReady q limit now)
  | EvRecover staleAfter limit now => ignored (RecoverStaleActive q staleAfter limit now)
  | EvLock b token ttl => ignored (TryAcquireJobLock q b token ttl)
  | EvUnlock b token => ignored (LockRelease q b token)
  | EvRefresh b token ttl => ignored (LockRefresh q b token ttl)
  | EvExpireInflight b => ignored (remote (DEL (inflightKey q b)))
  | EvExpireLock b => ignored (remote (DEL (lockKey q b)))
  end.
(** Times to live that Redis accepts. *)
Definition acceptable (ev : event) : Prop :=
  match ev with EvLock _ _ ttl | EvRefresh _ _ ttl => ttl <= 0 \/ 0 < Milliseconds ttl | _ => True end.
Definition history : Type := list (event * list fault).
Definition runQueue (s : S) (h : history) : S := foldl (fun s '(ev, fs) => (happens ev (s, fs)).2.1) s h.

(** ** Invariants under faults *)

Section Invariant.
Context (P : S -> Prop).
Definition maintained {A} (m : ST S A) : Prop := forall s, P s -> P (m s).2.
Definition maintains {A} (m : ST world A) : Prop := forall s fs, P s -> P (m (s, fs)).2.1.
Lemma maintains_ret {A} (a : A) : maintains (mret a).
Proof. by intros s fs. Qed.
Lemma maintains_bind {A B} (m : ST world A) (f : A -> ST world B) : maintains m -> (forall a, maintains (f a)) -> maintains (m ≫= f).
Proof.
  intros Hm Hf s fs Hs. rewrite bind_run. specialize (Hm s fs Hs). destruct (m (s, fs)) as [a [s1 fs1]]. by apply Hf.
Qed.
Lemma maintains_bind_ok {A B} (m : ST world (result goerror A)) (f : A -> ST world (result goerror B)) :
  maintains m -> (forall a, maintains (f a)) -> maintains (x ←? m; f x).
Proof. intros Hm Hf. apply maintains_bind; [done|]. intros [a|e]; [apply Hf|apply maintains_ret]. Qed.
Lemma maintains_remote {A} (m : ST S A) : maintained m -> maintains (remote m).
Proof.
  intros Hm s fs Hs. destruct (remote_cases m s fs) as (fs' & [-> | (e & [-> | ->])]); simpl; auto.
Qed.
Lemma maintains_ignored {A} (m : ST world A) : maintains m -> maintains (ignored m).
Proof. intros Hm. apply maintains_bind; [done|]. intros _. apply maintains_ret. Qed.
Lemma maintains_validated {A} b (m : ST world (result goerror A)) : (IsValidBatchImageID b = true -> maintains m) -> maintains (validated b m).
Proof. intros Hm. unfold validated. destruct (IsValidBatchImageID b); [by apply Hm|apply maintains_ret]. Qed.
Lemma maintained_bind {A B} (m : ST S A) (f : A -> ST S B) : maintained m -> (forall a, maintained (f a)) -> maintained (m ≫= f).
Proof. intros Hm Hf s Hs. rewrite bind_run. specialize (Hm s Hs). destruct (m s) as [a s1]. by apply Hf. Qed.
Lemma maintained_ret {A} (a : A) : maintained (mret a).
Proof. by intros s. Qed.
End Invariant.

(** ** Where a batch is *)

Definition queued (b : string) (s : S) : Prop :=
  b ∈ lst s (ReadyKey q) \/ is_Some (zset s (DelayedKey q) !! b) \/ is_Some (zset s (ActiveKey q) !! b).
(** A step on other keys leaves the batch where it is. *)
Lemma queued_same b s s' : lst s' (ReadyKey q) = lst s (ReadyKey q) -> zset s' (DelayedKey q) = zset s (DelayedKey q) ->
  zset s' (ActiveKey q) = zset s (ActiveKey q) -> queued b s -> queued b s'.
Proof. unfold queued. by intros -> -> ->. Qed.
Lemma queued_frame {A} b (m : ST S A) : (forall s k, k = ReadyKey q \/ k = DelayedKey q \/ k = ActiveKey q ->
    lst (m s).2 k = lst s k /\ zset (m s).2 k = zset s k) -> maintained (queued b) m.
Proof. intros Hm s. apply queued_same; apply Hm; auto. Qed.

Lemma queued_push b j : maintained (queued b) (LPUSH (ReadyKey q) j).
Proof.
  intros s. unfold queued. rewrite lpush_lst, decide_True by done. destruct (lpush_frame (ReadyKey q) j s (DelayedKey q)) as [-> _].
  destruct (lpush_frame (ReadyKey q) j s (ActiveKey q)) as [-> _]. intros [Hb|Hb]; [left; by right|by right].
Qed.
Lemma pushed b s : queued b (LPUSH (ReadyKey q) b s).2.
Proof. left. rewrite lpush_lst, decide_True by done. by left. Qed.
Lemma queued_zadd b k v m : k = DelayedKey q \/ k = ActiveKey q -> maintained (queued b) (ZADD k v m).
Proof.
  intros Hk s. unfold queued. destruct (zadd_frame k v m s (ReadyKey q)) as [-> _]. rewrite !zadd_zset.
  assert (Hi : forall z : gmap string Z, is_Some (z !! b) -> is_Some (<[m := v]> z !! b)).
  { intros z Hz. destruct (decide (m = b)) as [->|]; [by rewrite lookup_insert_eq|by rewrite lookup_insert_ne]. }
  intros [Hb|[Hb|Hb]]; [by left|right; left|right; right]; destruct (decide _) as [E|]; try done; rewrite E; auto.
Qed.
Lemma queued_zrem b k m : b <> m -> maintained (queued b) (ZREM k m).
Proof.
  intros Hn s. unfold queued. destruct (zrem_frame k m s (ReadyKey q)) as [-> _]. rewrite !zrem_zset.
  intros [Hb|[Hb|Hb]]; [by left|right; left|right; right]; destruct (decide _) as [->|]; try done; by rewrite lookup_delete_ne.
Qed.
Lemma queued_zaddxx b k v m : maintained (queued b) (ZADD_XX k v m).
Proof.
  intros s. unfold queued. destruct (zaddxx_frame k v m s (ReadyKey q)) as [-> _]. rewrite !zaddxx_zset.
  intros [Hb|[Hb|Hb]]; [by left|right; left|right; right]; destruct (decide _) as [->|]; try done; destruct (decide (b = m)) as [->|];
    rewrite ?lookup_alter_eq, ?lookup_alter_ne by done; by rewrite ?fmap_is_Some.
Qed.
Lemma queued_del b k : k <> ReadyKey q /\ k <> DelayedKey q /\ k <> ActiveKey q -> maintained (queued b) (DEL k).
Proof.
  intros (H1 & H2 & H3). apply queued_frame. intros s k' Hk. rewrite del_lst, del_zset. destruct (decide (k = k')) as [<-|]; [|done]. by destruct Hk as [-> | [-> | ->]].
Qed.
Lemma queued_setnx b k t ttl : 0 < ttl -> maintained (queued b) (SET_NX_PX k t ttl).
Proof. intros Ht. apply queued_frame. intros s k' _. by apply setnx_frame. Qed.

Lemma queued_move b from jobs : maintained (queued b) (moveAll from (ReadyKey q) jobs).
Proof.
  induction jobs as [|j jobs IH]; cbn [moveAll]; [apply maintained_ret|]. intros s Hs. rewrite bind_run.
  destruct (ZREM from j s) as [u s1] eqn:E1. rewrite bind_run. destruct (LPUSH (ReadyKey q) j s1) as [v s2] eqn:E2. apply IH. clear IH. cbn [snd].
  assert (F1 : s1 = (ZREM from j s).2) by (by rewrite E1). assert (F2 : s2 = (LPUSH (ReadyKey q) j s1).2) by (by rewrite E2). subst s2.
  destruct (decide (b = j)) as [->|Hn]; [apply pushed|]. apply queued_push. subst s1. by apply queued_zrem.
Qed.
Lemma queued_moveDue b from max limit : maintained (queued b) (batchImageMoveDueDelayedScript from (ReadyKey q) max limit).
Proof.
  apply maintained_bind; [intros s; by rewrite zrange_state|]. intros jobs. apply maintained_bind; [apply queued_move|]. intros _. apply maintained_ret.
Qed.
Lemma queued_reserve b now : maintained (queued b) (batchImageReserveScript (ReadyKey q) (ActiveKey q) now).
Proof.
  intros s Hs. unfold batchImageReserveScript. rewrite bind_run. pose proof (rpop_result (ReadyKey q) s) as Hr.
  pose proof (rpop_lst (ReadyKey q) s (ReadyKey q)) as Hl. rewrite decide_True in Hl by done.
  pose proof (fun k => proj1 (rpop_frame (ReadyKey q) s k)) as Hf.
  destruct (RPOP (ReadyKey q) s) as [r s1]. cbn [fst snd] in *. subst r.
  destruct (last (lst s (ReadyKey q))) as [j|] eqn:El; cbn iota.
  - rewrite bind_run. destruct (ZADD (ActiveKey q) now j s1) as [u s2] eqn:Ez. assert (s2 = (ZADD (ActiveKey q) now j s1).2) as -> by (by rewrite Ez).
    cbn [snd]. change (queued b (ZADD (ActiveKey q) now j s1).2). apply last_Some in El as [l El].
    destruct (decide (b = j)) as [->|Hn].
    + right; right. rewrite zadd_zset, decide_True by done. by rewrite lookup_insert_eq.
    + apply (queued_zadd b (ActiveKey q)); [by right|]. unfold queued. rewrite Hl, !Hf. destruct Hs as [Hb|Hb]; [left|by right].
      rewrite El in *. rewrite length_app. cbn [length]. rewrite Nat.add_1_r. cbn [pred]. rewrite take_app_length.
      apply elem_of_app in Hb as [Hb|Hb]; [done|]. by apply list_elem_of_singleton in Hb.
  - apply last_None in El. change (queued b s1). revert Hs. apply queued_same; [rewrite Hl, El; done|apply Hf|apply Hf].
Qed.
Lemma queued_requeue b b' delay now : maintained (queued b) (_ ← ZREM (ActiveKey q) b'; _ ← ZREM (DelayedKey q) b';
    if delay <=? 0 then LPUSH (ReadyKey q) b' else ZADD (DelayedKey q) now b').
Proof.
  intros s Hs. rewrite bind_run. destruct (ZREM (ActiveKey q) b' s) as [u s1] eqn:E1. rewrite bind_run. cbn [fst snd].
  destruct (ZREM (DelayedKey q) b' s1) as [v s2] eqn:E2. cbn [fst snd]. destruct (decide (b = b')) as [->|Hn].
  - destruct (delay <=? 0); [apply pushed|]. right; left. rewrite zadd_zset, decide_True by done. by rewrite lookup_insert_eq.
  - assert (Hs2 : queued b s2).
    { replace s2 with (ZREM (DelayedKey q) b' s1).2 by (by rewrite E2). apply queued_zrem; [done|].
      replace s1 with (ZREM (ActiveKey q) b' s).2 by (by rewrite E1). by apply queued_zrem. }
    destruct (delay <=? 0); [by apply queued_push|]. apply queued_zadd; [by left|done].
Qed.

(** A property of the store that the scripts of the workers and of the maintenance keep. *)
Record robust (P : S -> Prop) : Prop := {
  rob_move from max limit : maintained P (batchImageMoveDueDelayedScript from (ReadyKey q) max limit);
  rob_reserve now : maintained P (batchImageReserveScript (ReadyKey q) (ActiveKey q) now);
  rob_requeue b delay now : maintained P (_ ← ZREM (ActiveKey q) b; _ ← ZREM (DelayedKey q) b;
    if delay <=? 0 then LPUSH (ReadyKey q) b else ZADD (DelayedKey q) now b);
  rob_heartbeat now b : maintained P (ZADD_XX (ActiveKey q) now b);
  rob_discard b : IsValidBatchImageID b = false -> maintained P (ZREM (ActiveKey q) b);
  rob_lock b token ttl : 0 < ttl -> maintained P (SET_NX_PX (lockKey q b) token ttl);
  rob_refresh b ttl : 0 < ttl -> maintained P (PEXPIRE (lockKey q b) ttl) }.
Definition ordinary (ev : event) : bool :=
  match ev with EvEnqueue _ | EvAck _ | EvUnlock _ _ | EvExpireInflight _ | EvExpireLock _ => false | _ => true end.
Lemma lock_ttl ttl : ttl <= 0 \/ 0 < Milliseconds ttl -> 0 < Milliseconds (if ttl <=? 0 then LockTTL q else ttl).
Proof. intros [Ht|Ht]; destruct (Z.leb_spec ttl 0); try lia; try apply keys. Qed.
Lemma refresh_ttl ttl : ttl <= 0 \/ 0 < Milliseconds ttl -> 0 < Milliseconds (if ttl <=? 0 then defaultBatchImageJobLockTTL else ttl).
Proof. intros [Ht|Ht]; destruct (Z.leb_spec ttl 0); try lia; reflexivity. Qed.
Lemma maintains_recover P staleAfter limit now : robust P -> maintains P (RecoverStaleActive q staleAfter limit now).
Proof.
  intros HP. unfold RecoverStaleActive. destruct (staleAfter <=? 0); [apply maintains_ret|]. apply maintains_remote, HP.
Qed.
Lemma maintains_reserve P now : robust P -> maintains P (reserveOnce q now).
Proof.
  intros HP. apply maintains_bind_ok; [apply maintains_remote, HP|]. intros [b|]; [|apply maintains_ret].
  destruct (IsValidBatchImageID b) eqn:Ev; cbn [negb]; [apply maintains_ret|]. apply maintains_bind; [|intros _; apply maintains_ret].
  destruct (String.eqb b ""); cbn [negb]; [apply maintains_ret|]. apply maintains_bind; [|intros _; apply maintains_ret].
  by apply maintains_remote, HP.
Qed.
Lemma happens_ordinary P ev : robust P -> acceptable ev -> ordinary ev = true -> maintains P (happens ev).
Proof.
  intros HP Ha Ho. destruct ev; try done; apply maintains_ignored.
  - by apply maintains_reserve.
  - apply maintains_validated. intros _. apply maintains_remote, HP.
  - apply maintains_validated. intros _. apply maintains_remote, HP.
  - apply maintains_remote, HP.
  - by apply maintains_recover.
  - apply maintains_validated. intros _. apply maintains_remote, HP. by apply lock_ttl.
  - unfold LockRefresh. destruct (_ || _); [apply maintains_ret|]. apply maintains_remote. apply maintained_bind.
    + intros s Hs. by rewrite get_spec.
    + intros held. case_bool_decide; [|apply maintained_ret]. apply HP. by apply refresh_ttl.
Qed.
Lemma maintained_unlock P b token : maintained P (DEL (lockKey q b)) -> maintains P (LockRelease q b token).
Proof.
  intros HP. unfold LockRelease. destruct (_ || _); [apply maintains_ret|]. apply maintains_remote. apply maintained_bind.
  - intros s Hs. by rewrite get_spec.
  - intros held. case_bool_decide; [done|apply maintained_ret].
Qed.

Lemma queued_robust b : IsValidBatchImageID b = true -> robust (queued b).
Proof.
  intros Hb. constructor; intros.
  - apply queued_moveDue.
  - apply queued_reserve.
  - apply queued_requeue.
  - apply queued_zaddxx.
  - apply queued_zrem. intros ->. congruence.
  - by apply queued_setnx.
  - apply queued_frame. intros s k _. destruct (pexpire_frame (lockKey q b0) ttl s k) as (? & ? & _); done.
Qed.
Lemma queued_enqueue b b' : maintains (queued b) (Enqueue q b').
Proof.
  apply maintains_validated. intros _. apply maintains_bind_ok; [|intros ?; apply maintains_ret]. apply maintains_remote.
  apply maintained_bind; [apply queued_setnx, keys|]. intros []; [|apply maintained_ret].
  apply maintained_bind; [apply queued_push|]. intros ?. apply maintained_ret.
Qed.
Lemma queued_ack b b' : b <> b' -> maintains (queued b) (Ack q b').
Proof.
  intros Hn. apply maintains_validated. intros _. apply maintains_remote.
  apply maintained_bind; [by apply queued_zrem|]. intros _. apply maintained_bind; [by apply queued_zrem|]. intros _. apply queued_del, keys.
Qed.
(** A batch stays queued until it is acknowledged. *)
Lemma happens_queued b ev : IsValidBatchImageID b = true -> acceptable ev -> ev <> EvAck b -> maintains (queued b) (happens ev).
Proof.
  intros Hb Ha Hn. destruct (ordinary ev) eqn:Eo; [apply happens_ordinary; [by apply queued_robust|done|done]|].
  destruct ev; try done; apply maintains_ignored.
  - apply queued_enqueue.
  - apply queued_ack. congruence.
  - apply maintained_unlock, queued_del, keys.
  - apply maintains_remote, queued_del, keys.
  - apply maintains_remote, queued_del, keys.
Qed.

(** *** Keys of one string *)

(** The string of [k], a key of no queue, after a step on other keys. *)
Lemma txt_robust (k : string) (v : option string) : (forall b token ttl, 0 < ttl -> maintained (fun s => txt s k = v) (SET_NX_PX (lockKey q b) token ttl)) ->
  robust (fun s => txt s k = v).
Proof.
  intros Hl. assert (Hpush : forall m, maintained (fun s => txt s k = v) (LPUSH (ReadyKey q) m)) by (intros m s <-; apply lpush_frame).
  assert (Hzrem : forall k' m, maintained (fun s => txt s k = v) (ZREM k' m)) by (intros k' m s <-; apply zrem_frame).
  assert (Hzadd : forall k' x m, maintained (fun s => txt s k = v) (ZADD k' x m)) by (intros k' x m s <-; apply zadd_frame).
  constructor.
  - intros from max limit. apply maintained_bind; [intros s; by rewrite zrange_state|]. intros jobs. apply maintained_bind; [|intros _; apply maintained_ret].
    induction jobs as [|j jobs IH]; cbn [moveAll]; [apply maintained_ret|].
    apply maintained_bind; [apply Hzrem|]. intros _. apply maintained_bind; [apply Hpush|]. by intros _.
  - intros now. apply maintained_bind; [intros s <-; apply rpop_frame|]. intros [j|]; [|apply maintained_ret].
    apply maintained_bind; [apply Hzadd|]. intros _. apply maintained_ret.
  - intros b delay now. apply maintained_bind; [apply Hzrem|]. intros _. apply maintained_bind; [apply Hzrem|]. intros _. by destruct (delay <=? 0).
  - intros now b s <-. apply zaddxx_frame.
  - intros b _. apply Hzrem.
  - exact Hl.
  - intros b ttl Ht s <-. by apply pexpire_frame.
Qed.
Lemma inflight_inj b b' : inflightKey q b = inflightKey q b' -> b = b'.
Proof. unfold inflightKey. generalize (InflightPrefix q). intros p. induction p as [|c p IH]; simpl; [done|]. intros [= E]. auto. Qed.
Lemma lock_inj b b' : lockKey q b = lockKey q b' -> b = b'.
Proof. unfold lockKey. generalize (LockPrefix q). intros p. induction p as [|c p IH]; simpl; [done|]. intros [= E]. auto. Qed.
Lemma txt_setnx k v k' t ttl : 0 < ttl -> k' <> k -> maintained (fun s => txt s k = v) (SET_NX_PX k' t ttl).
Proof. intros Ht Hn s <-. by rewrite setnx_txt, decide_False. Qed.
Lemma txt_del k v k' : k' <> k -> maintained (fun s => txt s k = v) (DEL k').
Proof. intros Hn s <-. by rewrite del_txt, decide_False. Qed.

(** A key in flight stands for a batch that is queued. *)
Definition tracked (b : string) (s : S) : Prop := txt s (inflightKey q b) = None \/ queued b s.
Lemma maintains_or {A} (P Q : S -> Prop) (m : ST world A) : maintains P m -> maintains Q m -> maintains (fun s => P s \/ Q s) m.
Proof. intros HP HQ s fs [Hs|Hs]; [left; by apply HP|right; by apply HQ]. Qed.
Lemma absent_robust b : robust (fun s => txt s (inflightKey q b) = None).
Proof. apply txt_robust. intros b' token ttl Ht. apply txt_setnx; [done|]. intros E. by apply (keys_apart keys b b'). Qed.
Lemma tracked_enqueue b : maintained (tracked b) (batchImageEnqueueScript (inflightKey q b) (ReadyKey q) b (Milliseconds (InflightTTL q))).
Proof.
  intros s Hs. unfold batchImageEnqueueScript. rewrite bind_run. pose proof (keys_ttl keys) as [Ht _].
  pose proof (setnx_result (inflightKey q b) b _ s Ht) as Hr. pose proof (queued_setnx b (inflightKey q b) b _ Ht s) as Hq.
  pose proof (setnx_txt (inflightKey q b) b _ s (inflightKey q b) Ht) as Hx. rewrite decide_True in Hx by done.
  destruct (SET_NX_PX _ _ _ s) as [r s1]. cbn [fst snd] in *. subst r. case_bool_decide as E.
  - right. rewrite bind_run. pose proof (pushed b s1) as Hp. by destruct (LPUSH (ReadyKey q) b s1) as [u s2].
  - right. destruct Hs as [Hs|Hs]; [done|]. by apply Hq.
Qed.
Lemma happens_tracked b ev : IsValidBatchImageID b = true -> acceptable ev -> maintains (tracked b) (happens ev).
Proof.
  intros Hb Ha. destruct (decide (ev = EvAck b)) as [->|Hn].
  { apply maintains_ignored, maintains_validated. intros _. apply maintains_remote. intros s _. left. rewrite !bind_run.
    destruct (ZREM (ActiveKey q) b s) as [u s1]. cbn [fst snd]. destruct (ZREM (DelayedKey q) b s1) as [v s2]. cbn [fst snd].
    by rewrite del_txt, decide_True. }
  destruct (decide (ev = EvEnqueue b)) as [->|He].
  { apply maintains_ignored, maintains_validated. intros _. apply maintains_bind_ok; [|intros ?; apply maintains_ret].
    apply maintains_remote, tracked_enqueue. }
  apply maintains_or; [|by apply happens_queued].
  destruct (ordinary ev) eqn:Eo; [apply happens_ordinary; [apply absent_robust|done|done]|].
  destruct ev as [b'| | |b'| | | | |b' ?| |b'|b']; try done; apply maintains_ignored.
  - apply maintains_validated. intros _. apply maintains_bind_ok; [|intros ?; apply maintains_ret]. apply maintains_remote.
    apply maintained_bind; [apply txt_setnx; [apply keys|]; intros E; apply inflight_inj in E; congruence|]. intros []; [|apply maintained_ret].
    apply maintained_bind; [intros s <-; apply lpush_frame|]. intros _. apply maintained_ret.
  - apply maintains_validated. intros _. apply maintains_remote. apply maintained_bind; [intros s <-; apply zrem_frame|]. intros _.
    apply maintained_bind; [intros s <-; apply zrem_frame|]. intros _. apply txt_del. intros E. apply inflight_inj in E. congruence.
  - apply maintained_unlock, txt_del. intros E. by apply (keys_apart keys b b').
  - apply maintains_remote. intros s Hs. rewrite del_txt. by destruct (decide _).
  - apply maintains_remote, txt_del. intros E. by apply (keys_apart keys b b').
Qed.

Lemma runQueue_maintains (P : S -> Prop) (h : history) s : (forall ev, ev ∈ h.*1 -> maintains P (happens ev)) -> P s -> P (runQueue s h).
Proof.
  intros Hm Hs. unfold runQueue. revert s Hs. induction h as [|[ev fs] h IH]; intros s Hs; [done|]. simpl in *. apply IH.
  - intros ev' Hin. apply Hm. by right.
  - apply Hm; [by left|done].
Qed.

(** ** Properties *)

(** C12: No batch is lost, whichever workers crash and whichever calls to Redis fail, before or after
    they took effect: a batch that is ready, delayed or active stays one of these until it is
    acknowledged; a key in flight, which refuses to enqueue its batch again, always stands for a batch
    that is ready, delayed or active; and a batch that was enqueued is. *)
Theorem batch_not_lost s (h : history) b : IsValidBatchImageID b = true -> Forall acceptable h.*1 ->
  (queued b s -> EvAck b ∉ h.*1 -> queued b (runQueue s h)) /\
  (tracked b s -> tracked b (runQueue s h)) /\
  (forall fs w, Enqueue q b (s, fs) = (Ok tt, w) -> queued b w.1).
Proof.
  intros Hb Ha. rewrite Forall_forall in Ha. split; [|split].
  - intros Hs Hn. apply runQueue_maintains; [|done]. intros ev Hev. apply happens_queued; [done|by apply Ha|]. by intros ->.
  - intros Hs. apply runQueue_maintains; [|done]. intros ev Hev. apply happens_tracked; [done|by apply Ha].
  - intros fs w. unfold Enqueue, validated. rewrite Hb. cbn [negb]. rewrite bind_ok_eq.
    match goal with |- context [remote ?m (s, fs)] => destruct (remote_cases m s fs) as (fs' & [-> | (e & [-> | ->])]) end; try done.
    destruct (batchImageEnqueueScript _ _ _ _ s) as [[] s1] eqn:E; unfold mret, ST_ret; simpl; [|done]. intros [= <-]. simpl.
    revert E. unfold batchImageEnqueueScript. rewrite bind_run. destruct (SET_NX_PX _ _ _ s) as [[] s2]; cbn [fst snd]; [|done]. rewrite bind_run.
    pose proof (pushed b s2) as Hp. destruct (LPUSH (ReadyKey q) b s2) as [u s3]. cbn [fst snd] in *. unfold mret, ST_ret. by intros [= <-].
Qed.

(** C28: A lock excludes.  From a state in which the lock of a batch carries a token,
    after any calls of any workers meeting any faults, as long as nobody releases
    the lock with that token and it does not expire, the lock carries the same token
    and no call takes it: neither releases nor renewals with other tokens nor crashed
    workers open it.  (Times to live below a millisecond, which Redis refuses, are
    left out.) *)
Theorem lock_exclusive s (h : history) b token : txt s (lockKey q b) = Some token -> Forall acceptable h.*1 ->
  EvUnlock b token ∉ h.*1 -> EvExpireLock b ∉ h.*1 ->
  txt (runQueue s h) (lockKey q b) = Some token /\
  forall token' ttl fs r w, ttl <= 0 \/ 0 < Milliseconds ttl -> TryAcquireJobLock q b token' ttl (runQueue s h, fs) = (r, w) -> r <> Ok true.
Proof.
  intros Hs Ha Hu He. rewrite Forall_forall in Ha.
  assert (Hrob : robust (fun s => txt s (lockKey q b) = Some token)).
  { apply txt_robust. intros b' t ttl Ht s0 E. rewrite setnx_txt by done. destruct (decide _) as [Ek|]; [by rewrite Ek, E|done]. }
  assert (H1 : txt (runQueue s h) (lockKey q b) = Some token).
  { apply (runQueue_maintains (fun s => txt s (lockKey q b) = Some token)); [|done]. intros ev Hev.
    destruct (ordinary ev) eqn:Eo; [apply happens_ordinary; [done|by apply Ha|done]|].
    destruct ev as [b'| | |b'| | | | |b' t| |b'|b']; try done; apply maintains_ignored.
    - apply maintains_validated. intros _. apply maintains_bind_ok; [|intros ?; apply maintains_ret]. apply maintains_remote.
      apply maintained_bind; [apply txt_setnx; [apply keys|apply keys]|]. intros []; [|apply maintained_ret].
      apply maintained_bind; [intros s0 <-; apply lpush_frame|]. intros _. apply maintained_ret.
    - apply maintains_validated. intros _. apply maintains_remote. apply maintained_bind; [intros s0 <-; apply zrem_frame|]. intros _.
      apply maintained_bind; [intros s0 <-; apply zrem_frame|]. intros _. apply txt_del, keys.
    - unfold LockRelease. destruct (_ || _); [apply maintains_ret|]. apply maintains_remote. intros s0 Hs0. unfold batchImageReleaseLockScript.
      rewrite bind_run, get_spec. cbn [fst snd]. case_bool_decide as Et; [|done]. apply txt_del; [|done]. intros Ek. rewrite Ek in Et.
      apply lock_inj in Ek. subst b'. rewrite Hs0 in Et. injection Et as <-. done.
    - apply maintains_remote, txt_del, keys.
    - apply maintains_remote, txt_del. intros Ek. apply lock_inj in Ek. by subst b'. }
  split; [done|]. intros token' ttl fs r w Ht. unfold TryAcquireJobLock, validated. destruct (negb _); [by intros [= <- _]|].
  match goal with |- context [remote ?m (?s0, fs)] => destruct (remote_cases m s0 fs) as (fs' & [-> | (e & [-> | ->])]) end;
    intros [= <- _]; try done. rewrite setnx_result, H1 by (by apply lock_ttl). done.
Qed.

Lemma moveAll_effect from jobs s : let s' := (moveAll from (ReadyKey q) jobs s).2 in
  lst s' (ReadyKey q) = rev jobs ++ lst s (ReadyKey q) /\
  (forall b, zset s' from !! b = if decide (b ∈ jobs) then None else zset s from !! b).
Proof.
  revert s. induction jobs as [|j jobs IH]; intros s; cbn [moveAll]; [split; [done|]; intros b; by rewrite decide_False by apply not_elem_of_nil|].
  rewrite bind_run. pose proof (zrem_zset from j s from) as Z1. rewrite decide_True in Z1 by done.
  pose proof (proj1 (zrem_frame from j s (ReadyKey q))) as L1. destruct (ZREM from j s) as [u s1]. cbn [fst snd] in *.
  rewrite bind_run. pose proof (lpush_lst (ReadyKey q) j s1 (ReadyKey q)) as L2. rewrite decide_True in L2 by done.
  pose proof (proj1 (lpush_frame (ReadyKey q) j s1 from)) as Z2. destruct (LPUSH (ReadyKey q) j s1) as [v s2]. cbn [fst snd] in *.
  destruct (IH s2) as [I1 I2]. split.
  - rewrite I1, L2, L1. simpl. by rewrite <- app_assoc.
  - intros b. rewrite I2, Z2, Z1. destruct (decide (b ∈ jobs)) as [Hb|Hb].
    + rewrite decide_True; [done|by right].
    + destruct (decide (b = j)) as [->|Hj]; [rewrite lookup_delete_eq, decide_True; [done|by left]|].
      rewrite lookup_delete_ne by done. rewrite decide_False; [done|]. rewrite not_elem_of_cons. done.
Qed.
(** The members whose score is at most [max]. *)
Definition dueMembers (from : string) (max : Z) (s : S) : gmap string Z := filter (fun p => p.2 <= max) (zset s from).
(** [jobs] are the members due that come first, as many as the limit allows, and they moved to the ready list. *)
Record movedDue (from : string) (max limit : Z) (jobs : list string) (s s' : S) : Prop := {
  md_once : NoDup jobs;
  md_due b : b ∈ jobs -> exists v, dueMembers from max s !! b = Some v;
  md_count : Z.of_nat (length jobs) = Z.min limit (Z.of_nat (size (dueMembers from max s)));
  md_first b v b' v' : b ∈ jobs -> dueMembers from max s !! b = Some v -> dueMembers from max s !! b' = Some v' -> v' < v -> b' ∈ jobs;
  md_left b : zset s' from !! b = if decide (b ∈ jobs) then None else zset s from !! b;
  md_ready : lst s' (ReadyKey q) = rev jobs ++ lst s (ReadyKey q) }.
Lemma moveDue_effect from max limit s : 0 <= limit ->
  let '(n, s') := batchImageMoveDueDelayedScript from (ReadyKey q) max limit s in
  exists jobs, n = Z.of_nat (length jobs) /\ movedDue from max limit jobs s s'.
Proof.
  intros Hlim. unfold batchImageMoveDueDelayedScript. rewrite bind_run. pose proof (zrange_state from max limit s) as Hst.
  pose proof (zrange_sound from max limit s) as Hsnd. pose proof (zrange_nodup from max limit s) as Hnd.
  pose proof (zrange_complete from max limit s) as Hcpl. pose proof (zrange_count from max limit s Hlim) as Hcnt.
  pose proof (zrange_lowest from max limit s) as Hlow. destruct (ZRANGEBYSCORE from max limit s) as [jobs s0]. cbn [fst snd] in *. subst s0.
  assert (Hdue : forall b v, dueMembers from max s !! b = Some v <-> zset s from !! b = Some v /\ v <= max)
    by (intros b v; unfold dueMembers; by rewrite map_lookup_filter_Some).
  assert (Hin : forall b, b ∈ jobs -> exists v, dueMembers from max s !! b = Some v)
    by (intros b Hb; destruct (Hsnd b Hb) as (v & Hv & Hle); exists v; by apply Hdue).
  assert (Hsize : size (list_to_set (C := gset string) jobs) = length jobs) by (by apply size_list_to_set).
  rewrite bind_run. destruct (moveAll_effect from jobs s) as [I1 I2]. destruct (moveAll from (ReadyKey q) jobs s) as [u s1]. cbn [fst snd] in *.
  exists jobs. split; [done|]. constructor; [done|done| | |done|done].
  - assert (Hle : (length jobs <= size (dueMembers from max s))%nat).
    { rewrite <- (size_dom (D := gset string)), <- Hsize. apply subseteq_size. intros x Hx. apply elem_of_list_to_set, Hin in Hx as [v Hx]. by apply elem_of_dom. }
    destruct (decide (Z.of_nat (length jobs) = limit)) as [E|E]; [lia|].
    assert (Hge : (size (dueMembers from max s) <= length jobs)%nat); [|lia].
    rewrite <- (size_dom (D := gset string)), <- Hsize. apply subseteq_size. intros x Hx. apply elem_of_dom in Hx as [v Hx]. apply elem_of_list_to_set.
    apply Hdue in Hx as [Hx Hv]. by destruct (Hcpl x v Hx Hv Hlim).
  - intros b v b' v' Hb [Hv _]%Hdue [Hv' _]%Hdue Hlt. exact (Hlow b v b' v' Hb Hv Hv' Hlt).
Qed.

(** C14: The maintenance gives back every batch that is due: over any connection a round of the recovery
    moves those active batches whose last heartbeat is as old as the cutoff to the ready ones, and a round of
    the mover those delayed ones whose time has come: the earliest first, all of them or as many as the limit
    of the round (100 by default) allows, and no others.  A round that answers with an error did that too, or
    did nothing. *)
Theorem due_redelivered s fs staleAfter limit now : 0 < staleAfter ->
  let atMost := if limit <=? 0 then 100 else limit in
  let returns (from : string) (due : Z) (out : result goerror Z * world) := let '(r, (s', _)) := out in
    (exists e, r = Err e /\ s' = s) \/
    exists jobs, movedDue from due atMost jobs s s' /\ match r with Ok n => n = Z.of_nat (length jobs) | Err _ => True end in
  returns (ActiveKey q) (UnixMilli (now - staleAfter)) (RecoverStaleActive q staleAfter limit now (s, fs)) /\
  returns (DelayedKey q) (UnixMilli now) (MoveDueDelayedToReady q limit now (s, fs)).
Proof.
  intros Hst atMost returns. unfold RecoverStaleActive, MoveDueDelayedToReady. destruct (Z.leb_spec staleAfter 0); [lia|]. cbv zeta. fold atMost.
  assert (Hl : 0 <= atMost) by (subst atMost; destruct (Z.leb_spec limit 0); lia).
  enough (H1 : forall from due, returns from due (remote (batchImageMoveDueDelayedScript from (ReadyKey q) due atMost) (s, fs))) by (by split).
  intros from due. pose proof (moveDue_effect from due atMost s Hl) as Hm.
  destruct (remote_cases (batchImageMoveDueDelayedScript from (ReadyKey q) due atMost) s fs) as (fs' & Hr).
  destruct (batchImageMoveDueDelayedScript _ _ _ _ s) as [n s']. destruct Hm as (jobs & -> & Hm). cbn [fst snd] in Hr.
  destruct Hr as [->|(e & [->| ->])]; [right; by exists jobs|left; by exists e|right; by exists jobs].
Qed.

(** *** A round of a worker *)

Lemma reserveOnce_run now s l b : lst s (ReadyKey q) = l ++ [b] -> IsValidBatchImageID b = true ->
  exists s1, reserveOnce q now (s, []) = (Ok b, (s1, [])) /\ lst s1 (ReadyKey q) = l /\
    (forall k, zset s1 k = if decide (ActiveKey q = k) then <[b := UnixMilli now]> (zset s k) else zset s k) /\ (forall k, txt s1 k = txt s k).
Proof.
  intros Hl Hb. unfold reserveOnce. rewrite bind_ok_eq, remote_run. unfold batchImageReserveScript. rewrite bind_run.
  pose proof (rpop_result (ReadyKey q) s) as Hr. pose proof (rpop_lst (ReadyKey q) s (ReadyKey q)) as L. rewrite decide_True in L by done.
  pose proof (rpop_frame (ReadyKey q) s) as F. rewrite Hl, last_snoc in Hr. rewrite Hl, length_app, Nat.add_1_r in L. cbn [pred length] in L.
  rewrite take_app_length in L. destruct (RPOP (ReadyKey q) s) as [r s1]. cbn [fst snd] in *. subst r. rewrite bind_run.
  pose proof (zadd_zset (ActiveKey q) (UnixMilli now) b s1) as Z. pose proof (zadd_frame (ActiveKey q) (UnixMilli now) b s1) as F2.
  destruct (ZADD (ActiveKey q) (UnixMilli now) b s1) as [u s2]. cbn [fst snd] in *. unfold mret, ST_ret. cbn [fst snd]. rewrite Hb. cbn [negb].
  exists s2. split; [done|]. split; [by rewrite (proj1 (F2 _))|]. split.
  - intros k. rewrite Z. destruct (decide (ActiveKey q = k)) as [<-|]; by rewrite (proj1 (F _)).
  - intros k. by rewrite (proj2 (F2 _)), (proj2 (F _)).
Qed.
Lemma requeue_run b delay now s : IsValidBatchImageID b = true -> 0 < delay ->
  exists s1, RequeueAfter q b delay now (s, []) = (Ok tt, (s1, [])) /\ (forall k, lst s1 k = lst s k /\ txt s1 k = txt s k) /\
    zset s1 (ActiveKey q) = delete b (zset s (ActiveKey q)) /\
    zset s1 (DelayedKey q) = <[b := UnixMilli (now + delay)]> (zset s (DelayedKey q)).
Proof.
  intros Hb Hd. unfold RequeueAfter, validated. rewrite Hb. cbn [negb]. rewrite remote_run, bind_run. destruct (Z.leb_spec delay 0); [lia|].
  pose proof (zrem_zset (ActiveKey q) b s) as Z1. pose proof (zrem_frame (ActiveKey q) b s) as F1.
  destruct (ZREM (ActiveKey q) b s) as [u s1]. cbn [fst snd] in *. rewrite bind_run.
  pose proof (zrem_zset (DelayedKey q) b s1) as Z2. pose proof (zrem_frame (DelayedKey q) b s1) as F2.
  destruct (ZREM (DelayedKey q) b s1) as [v s2]. cbn [fst snd] in *.
  pose proof (zadd_zset (DelayedKey q) (UnixMilli (now + delay)) b s2) as Z3. pose proof (zadd_frame (DelayedKey q) (UnixMilli (now + delay)) b s2) as F3.
  destruct (ZADD (DelayedKey q) _ b s2) as [[] s3]. cbn [fst snd] in *. exists s3. split; [done|]. split; [|split].
  - intros k. by rewrite (proj1 (F3 _)), (proj2 (F3 _)), (proj1 (F2 _)), (proj2 (F2 _)), (proj1 (F1 _)), (proj2 (F1 _)).
  - rewrite Z3, decide_False by apply keys. rewrite Z2, decide_False by apply keys. by rewrite Z1, decide_True.
  - rewrite Z3, decide_True by done. rewrite Z2, decide_True by done. rewrite Z1, decide_False by (intros E; by apply (keys_sets keys)).
    by rewrite insert_delete_eq.
Qed.
Lemma ack_run b s : IsValidBatchImageID b = true ->
  exists s1, Ack q b (s, []) = (Ok tt, (s1, [])) /\ lst s1 (ReadyKey q) = lst s (ReadyKey q) /\
    (forall k, txt s1 k = if decide (inflightKey q b = k) then None else txt s k) /\
    zset s1 (ActiveKey q) = delete b (zset s (ActiveKey q)) /\ zset s1 (DelayedKey q) = delete b (zset s (DelayedKey q)).
Proof.
  intros Hb. unfold Ack, validated. rewrite Hb. cbn [negb]. rewrite remote_run, bind_run.
  pose proof (zrem_zset (ActiveKey q) b s) as Z1. pose proof (zrem_frame (ActiveKey q) b s) as F1.
  destruct (ZREM (ActiveKey q) b s) as [u s1]. cbn [fst snd] in *. rewrite bind_run.
  pose proof (zrem_zset (DelayedKey q) b s1) as Z2. pose proof (zrem_frame (DelayedKey q) b s1) as F2.
  destruct (ZREM (DelayedKey q) b s1) as [v s2]. cbn [fst snd] in *.
  pose proof (del_zset (inflightKey q b) s2) as Z3. pose proof (del_lst (inflightKey q b) s2) as L3. pose proof (del_txt (inflightKey q b) s2) as T3.
  destruct (DEL (inflightKey q b) s2) as [[] s3]. cbn [fst snd] in *. destruct (keys_inflight keys b) as (K1 & K2 & K3). exists s3. split; [done|]. split_and!.
  - by rewrite L3, decide_False, (proj1 (F2 _)), (proj1 (F1 _)).
  - intros k. by rewrite T3, (proj2 (F2 _)), (proj2 (F1 _)).
  - rewrite Z3, decide_False, Z2, decide_False by (done || apply keys). by rewrite Z1, decide_True.
  - rewrite Z3, decide_False, Z2, decide_True by done. rewrite Z1, decide_False; [done|]. intros E. by apply (keys_sets keys).
Qed.
Lemma lock_run b token ttl s : IsValidBatchImageID b = true -> txt s (lockKey q b) = None -> 0 < ttl -> 0 < Milliseconds ttl ->
  exists s1, TryAcquireJobLock q b token ttl (s, []) = (Ok true, (s1, [])) /\
    (forall k, lst s1 k = lst s k /\ zset s1 k = zset s k) /\ (forall k, txt s1 k = if decide (lockKey q b = k) then Some token else txt s k).
Proof.
  intros Hb Hn Ht Hm. unfold TryAcquireJobLock, validated. rewrite Hb. cbn [negb]. destruct (Z.leb_spec ttl 0); [lia|]. rewrite remote_run.
  pose proof (setnx_result (lockKey q b) token _ s Hm) as Hr. pose proof (fun k => setnx_txt (lockKey q b) token _ s k Hm) as Hx.
  pose proof (setnx_frame (lockKey q b) token (Milliseconds ttl) s) as F. destruct (SET_NX_PX _ _ _ s) as [r s1]. cbn [fst snd] in *.
  rewrite Hn in Hr, Hx. subst r. by exists s1.
Qed.
Lemma unlock_run b token s : token <> "" -> lockKey q b <> "" -> txt s (lockKey q b) = Some token ->
  exists s1, LockRelease q b token (s, []) = (Ok tt, (s1, [])) /\ lst s1 (ReadyKey q) = lst s (ReadyKey q) /\
    zset s1 (ActiveKey q) = zset s (ActiveKey q) /\ zset s1 (DelayedKey q) = zset s (DelayedKey q) /\
    (forall k, txt s1 k = if decide (lockKey q b = k) then None else txt s k).
Proof.
  intros Ht Hk Hs. unfold LockRelease. destruct (String.eqb_spec (lockKey q b) ""), (String.eqb_spec token ""); try done. cbn [orb].
  rewrite remote_run. unfold batchImageReleaseLockScript. rewrite bind_run, get_spec, Hs. cbn [fst snd]. rewrite bool_decide_true by done.
  pose proof (del_zset (lockKey q b) s) as Z3. pose proof (del_lst (lockKey q b) s) as L3. pose proof (del_txt (lockKey q b) s) as T3.
  destruct (DEL (lockKey q b) s) as [[] s3]. cbn [fst snd] in *. destruct (keys_lock keys b) as (K1 & K2 & K3). exists s3. split; [done|].
  split_and!; [by rewrite L3, decide_False|by rewrite Z3, decide_False|by rewrite Z3, decide_False|done].
Qed.

Section Round.
Context {P : Type} (process : string -> ST P (result goerror BatchImageProcessResult)).
Local Abbreviation round := (ST (world * P) (result goerror unit)).

(** A round of a worker, without faults, on the batch that is next and not locked: it is processed
    once; when it is over, it leaves every queue and may be queued again; when not, or when processing
    failed, it is delayed until its next check is due; in both cases it is no longer active, its lock is
    free and the other ready batches are as they were. *)
Theorem round_outcome opts0 token now later finished s p l b :
  let opts := normalizeBatchImageWorkerOptions opts0 in
  lst s (ReadyKey q) = l ++ [b] -> IsValidBatchImageID b = true -> txt s (lockKey q b) = None ->
  token <> "" -> lockKey q b <> "" -> 0 < Milliseconds (JobLockTTL opts) ->
  exists s', RunOnce q opts process token now later finished ((s, []), p) = (Ok tt, ((s', []), (process b p).2)) /\
    lst s' (ReadyKey q) = l /\ zset s' (ActiveKey q) = delete b (zset s (ActiveKey q)) /\ txt s' (lockKey q b) = None /\
    match (process b p).1 with
    | Ok (mkProcessed _ true) => zset s' (DelayedKey q) = delete b (zset s (DelayedKey q)) /\ txt s' (inflightKey q b) = None
    | Ok (mkProcessed d false) =>
        zset s' (DelayedKey q) = <[b := UnixMilli (finished + (if d <=? 0 then DefaultRequeueDelay opts else d))]> (zset s (DelayedKey q)) /\
        txt s' (inflightKey q b) = txt s (inflightKey q b)
    | Err _ =>
        zset s' (DelayedKey q) = <[b := UnixMilli (finished + ErrorRetryDelay opts)]> (zset s (DelayedKey q)) /\
        txt s' (inflightKey q b) = txt s (inflightKey q b)
    end.
Proof.
  intros opts Hl Hb Hn Ht Hk Hm.
  assert (Hpos : 0 < ErrorRetryDelay opts /\ 0 < DefaultRequeueDelay opts /\ 0 < JobLockTTL opts).
  { subst opts. unfold normalizeBatchImageWorkerOptions. cbn [ErrorRetryDelay DefaultRequeueDelay JobLockTTL].
    repeat split; match goal with |- context [?x <=? 0] => destruct (Z.leb_spec x 0); [reflexivity|lia] end. }
  destruct Hpos as (P1 & P2 & P3). clearbody opts. unfold RunOnce, onQueue, onProcessor. rewrite bind_run.
  destruct (reserveOnce_run now s l b Hl Hb) as (s1 & E1 & L1 & Z1 & T1).
  assert (Er : Reserve q now later (s, []) = (Ok b, (s1, []))) by (destruct later; cbn [Reserve]; by rewrite bind_run, E1). rewrite Er.
  assert (Hn1 : txt s1 (lockKey q b) = None) by (by rewrite T1). cbn [fst snd]. rewrite bind_run.
  destruct (lock_run b token (JobLockTTL opts) s1 Hb Hn1 P3 Hm) as (s2 & E2 & F2 & T2). rewrite E2. cbn [fst snd]. rewrite bind_run.
  assert (Hd2 : delete b (zset s2 (ActiveKey q)) = delete b (zset s (ActiveKey q)))
    by (by rewrite (proj2 (F2 _)), Z1, decide_True, delete_insert_eq by done).
  assert (Hdl : zset s2 (DelayedKey q) = zset s (DelayedKey q))
    by (by rewrite (proj2 (F2 _)), Z1, decide_False by (intros E; by apply (keys_sets keys))).
  assert (Hin : txt s2 (inflightKey q b) = txt s (inflightKey q b)) by (by rewrite T2, decide_False, T1 by (intros E; by apply (keys_apart keys b b))).
  assert (Hlk : txt s2 (lockKey q b) = Some token) by (by rewrite T2, decide_True).
  assert (Hnl : inflightKey q b <> lockKey q b) by apply keys.
  assert (Hrq : forall d, 0 < d -> exists s3 s4, RequeueAfter q b d finished (s2, []) = (Ok tt, (s3, [])) /\
    LockRelease q b token (s3, []) = (Ok tt, (s4, [])) /\ lst s4 (ReadyKey q) = l /\ zset s4 (ActiveKey q) = delete b (zset s (ActiveKey q)) /\
    txt s4 (lockKey q b) = None /\ zset s4 (DelayedKey q) = <[b := UnixMilli (finished + d)]> (zset s (DelayedKey q)) /\
    txt s4 (inflightKey q b) = txt s (inflightKey q b)).
  { intros d Hd. destruct (requeue_run b d finished s2 Hb Hd) as (s3 & E3 & F3 & A3 & D3).
    assert (Hs3 : txt s3 (lockKey q b) = Some token) by (by rewrite (proj2 (F3 _))).
    destruct (unlock_run b token s3 Ht Hk Hs3) as (s4 & E4 & L4 & A4 & D4 & T4). exists s3, s4. split; [done|]. split; [done|].
    split_and!; [by rewrite L4, (proj1 (F3 _)), (proj1 (F2 _))|by rewrite A4, A3|by rewrite T4, decide_True|by rewrite D4, D3, Hdl|].
    by rewrite T4, decide_False, (proj2 (F3 _)) by done. }
  destruct (process b p) as [[[d []]|e] p'] eqn:Ep; cbn [fst snd Terminal BatchSettlement.RequeueAfter]; rewrite bind_run.
  - destruct (ack_run b s2 Hb) as (s3 & E3 & L3 & T3 & A3 & D3).
    assert (Hs3 : txt s3 (lockKey q b) = Some token) by (by rewrite T3, decide_False).
    destruct (unlock_run b token s3 Ht Hk Hs3) as (s4 & E4 & L4 & A4 & D4 & T4). rewrite E3. cbn [fst snd]. rewrite bind_run, E4. exists s4. split; [done|].
    split_and!; [by rewrite L4, L3, (proj1 (F2 _))|by rewrite A4, A3|by rewrite T4, decide_True|by rewrite D4, D3, Hdl|].
    by rewrite T4, decide_False, T3, decide_True by done.
  - destruct (Hrq (if d <=? 0 then DefaultRequeueDelay opts else d)) as (s3 & s4 & E3 & E4 & H4); [by destruct (Z.leb_spec d 0)|].
    rewrite E3. cbn [fst snd]. rewrite bind_run, E4. exists s4. split; [done|]. naive_solver.
  - destruct (Hrq (ErrorRetryDelay opts) P1) as (s3 & s4 & E3 & E4 & H4). rewrite E3. cbn [fst snd]. rewrite bind_run, E4. exists s4. split; [done|]. naive_solver.
Qed.
End Round.
End Properties.

(** ** A store in memory *)

Record memStore := mkMemStore { m_lst : gmap string (list string); m_zset : gmap string (gmap string Z); m_txt : gmap string string }.
Definition memLst (s : memStore) (k : string) : list string := default [] (m_lst s !! k).
Definition memZset (s : memStore) (k : string) : gmap string Z := default ∅ (m_zset s !! k).
(** Members in the order of their scores. *)
Definition notAbove (p p' : string * Z) : Prop := p.2 <= p'.2.
#[export] Instance notAbove_dec p p' : Decision (notAbove p p').
Proof. unfold notAbove. apply _. Defined.
Definition byScore : list (string * Z) -> list (string * Z) := merge_sort notAbove.
#[export] Instance memQueue : RedisQueue memStore := {|
  RPOP k s := (last (memLst s k), { s with m_lst := <[k := take (pred (length (memLst s k))) (memLst s k)]> (m_lst s) });
  LPUSH k m s := (tt, { s with m_lst := <[k := m :: memLst s k]> (m_lst s) });
  ZADD k v m s := (tt, { s with m_zset := <[k := <[m := v]> (memZset s k)]> (m_zset s) });
  ZADD_XX k v m s := (tt, { s with m_zset := <[k := alter (fun _ => v) m (memZset s k)]> (m_zset s) });
  ZREM k m s := (tt, { s with m_zset := <[k := delete m (memZset s k)]> (m_zset s) });
  ZRANGEBYSCORE k max count s := (take (Z.to_nat count) (map fst (byScore (map_to_list (filter (fun p => p.2 <= max) (memZset s k))))), s);
  SET_NX_PX k t ttl s := match m_txt s !! k with Some _ => (false, s) | None => (true, { s with m_txt := <[k := t]> (m_txt s) }) end;
  GET k s := (m_txt s !! k, s);
  DEL k s := (tt, mkMemStore (delete k (m_lst s)) (delete k (m_zset s)) (delete k (m_txt s)));
  PEXPIRE k ttl s := (tt, s) |}.
Lemma default_insert {A} (d x : A) (m : gmap string A) k k' :
  default d (<[k := x]> m !! k') = if decide (k = k') then x else default d (m !! k').
Proof. destruct (decide (k = k')) as [->|]; [by rewrite lookup_insert_eq|by rewrite lookup_insert_ne]. Qed.
Lemma default_delete {A} (d : A) (m : gmap string A) k k' : default d (delete k m !! k') = if decide (k = k') then d else default d (m !! k').
Proof. destruct (decide (k = k')) as [->|]; [by rewrite lookup_delete_eq|by rewrite lookup_delete_ne]. Qed.
Lemma byScore_perm l : byScore l ≡ₚ l.
Proof. apply merge_sort_Permutation. Qed.
Lemma byScore_sorted l : StronglySorted notAbove (byScore l).
Proof. apply StronglySorted_merge_sort; unfold notAbove; [intros p1 p2 p3; lia|intros p p'; lia]. Qed.
Lemma in_take {A} (l : list A) n x : x ∈ take n l -> x ∈ l.
Proof. intros (i & Hi & _)%elem_of_take. by eapply list_elem_of_lookup_2. Qed.
(** What comes first has no greater score. *)
Lemma take_lowest (l : list (string * Z)) n p p' : StronglySorted notAbove l -> p ∈ take n l -> p' ∈ l -> p'.2 < p.2 -> p' ∈ take n l.
Proof.
  intros Hs. revert n. induction Hs as [|x l Hs IH Hx]; intros n Hp Hp' Hlt; [by destruct n|]. destruct n as [|n]; [by apply not_elem_of_nil in Hp|]. simpl in *.
  apply elem_of_cons in Hp' as [->|Hp']; [by left|]. right. apply elem_of_cons in Hp as [->|Hp]; [|by apply IH].
  rewrite Forall_forall in Hx. specialize (Hx p' Hp'). unfold notAbove in Hx. lia.
Qed.
Lemma mem_due max (z : gmap string Z) m : m ∈ map fst (byScore (map_to_list (filter (fun p => p.2 <= max) z))) <-> exists v, z !! m = Some v /\ v <= max.
Proof.
  rewrite (Permutation_map fst (byScore_perm _)). rewrite list_elem_of_In, in_map_iff. split.
  - intros ([m' v] & <- & Hin). apply list_elem_of_In, elem_of_map_to_list, map_lookup_filter_Some in Hin as [E Hv]. by exists v.
  - intros (v & E & Hv). exists (m, v). split; [done|]. apply list_elem_of_In, elem_of_map_to_list, map_lookup_filter_Some. done.
Qed.
Lemma mem_lowest max count (z : gmap string Z) m v m' v' : let first := take count (map fst (byScore (map_to_list (filter (fun p => p.2 <= max) z)))) in
  m ∈ first -> z !! m = Some v -> z !! m' = Some v' -> v' < v -> m' ∈ first.
Proof.
  intros first Hm Hv Hv' Hlt. subst first. set (l := byScore _) in *.
  assert (Hl : forall n w, (n, w) ∈ l <-> z !! n = Some w /\ w <= max)
    by (intros n w; subst l; by rewrite byScore_perm, elem_of_map_to_list, map_lookup_filter_Some).
  change (map fst l) with (fst <$> l) in *. rewrite <- fmap_take in *. apply list_elem_of_fmap in Hm as ([n w] & -> & Hn). simpl in Hv.
  destruct (proj1 (Hl n w) (in_take _ _ _ Hn)) as [Hw Hle]. rewrite Hv in Hw. injection Hw as <-.
  apply list_elem_of_fmap. exists (m', v'). split; [done|]. apply (take_lowest l _ (n, v)); [apply byScore_sorted|done| |done]. apply Hl. split; [done|lia].
Qed.
#[export] Instance memQueueSpec : RedisQueueSpec memStore.
Proof.
  refine {| lst := memLst; zset := memZset; txt s k := m_txt s !! k |}; unfold memLst, memZset; simpl; intros;
    rewrite ?default_insert, ?default_delete; try done; try (by case_decide; subst); try (by destruct s).
  - apply mem_due. match goal with Hm : m ∈ take _ _ |- _ => apply elem_of_take in Hm as (i & Hi & _) end. by eapply list_elem_of_lookup_2.
  - apply (sublist_NoDup _ (map fst (byScore (map_to_list (filter (fun p => p.2 <= max) (memZset s k)))))); [|apply sublist_take].
    rewrite (Permutation_map fst (byScore_perm _)). apply NoDup_fst_map_to_list.
  - set (due := map fst _). destruct (decide (Z.to_nat count < length due)%nat).
    + right. rewrite length_take. lia.
    + left. rewrite take_ge by lia. apply mem_due. by exists v.
  - rewrite length_take. lia.
  - by eapply mem_lowest.
  - by destruct (m_txt s !! k).
  - destruct (m_txt s !! k) eqn:E; simpl; case_decide; subst; rewrite ?lookup_insert_eq, ?lookup_insert_ne; done.
  - destruct (m_txt s !! k); by destruct s.
  - case_decide; subst; rewrite ?lookup_delete_eq, ?lookup_delete_ne; done.
Defined.

Definition demoQueue : batchImageQueueOptions := normalizeBatchImageQueueOptions (mkQueueOptions "" "" "" "" "" 0 0).
Lemma demo_keys : keysOk demoQueue.
Proof.
  constructor.
  - discriminate.
  - intros b. repeat split; intros E; vm_compute in E; discriminate.
  - intros b. repeat split; intros E; vm_compute in E; discriminate.
  - intros b b' E. vm_compute in E. discriminate.
  - split; reflexivity.
Qed.
Definition down : goerror := PlainErr 346 "redis: connection refused".
Definition demoNow : time := unixEpoch + 1000 * Second.
Definition emptyQueue : memStore := mkMemStore ∅ ∅ ∅.
(** A worker takes the batch and crashes; the recovery is tried twice. *)
Definition demoCrash : history :=
  [(EvEnqueue "imgbatch_1", [FailAfter down]); (EvEnqueue "imgbatch_1", []); (EvReserve demoNow, []);
   (EvLock "imgbatch_1" "t1" Minute, []); (EvRecover Minute 10 (demoNow + 2 * Minute), [FailAfter down]);
   (EvLock "imgbatch_1" "t2" Minute, [])].
Lemma batch_not_lost_witness : tracked demoQueue "imgbatch_1" (runQueue demoQueue emptyQueue demoCrash) /\
  lst (runQueue demoQueue emptyQueue demoCrash) "batch_image:queue:ready" = ["imgbatch_1"].
Proof.
  split; [|clear; vm_compute; reflexivity].
  apply (batch_not_lost demoQueue demo_keys emptyQueue demoCrash "imgbatch_1" eq_refl).
  - repeat (apply Forall_cons_2; [first [exact I|right; reflexivity]|]). apply Forall_nil_2.
  - left. reflexivity.
Defined.
Definition demoLocked : memStore := runQueue demoQueue emptyQueue (take 4 demoCrash).
Lemma lock_exclusive_witness :
  txt (runQueue demoQueue demoLocked (drop 4 demoCrash)) "batch_image:queue:lock:imgbatch_1" = Some "t1".
Proof.
  apply (lock_exclusive demoQueue demo_keys demoLocked (drop 4 demoCrash) "imgbatch_1" "t1").
  - clear. vm_compute. reflexivity.
  - repeat (apply Forall_cons_2; [first [exact I|right; reflexivity]|]). apply Forall_nil_2.
  - simpl. rewrite !elem_of_cons. intros [E|[E|E]]; [discriminate|discriminate|]. by apply not_elem_of_nil in E.
  - simpl. rewrite !elem_of_cons. intros [E|[E|E]]; [discriminate|discriminate|]. by apply not_elem_of_nil in E.
Defined.
(** Two batches are due, one round may return one: the earlier. *)
Definition demoDue : memStore := mkMemStore ∅ {["batch_image:queue:delayed" := {["imgbatch_1" := 30; "imgbatch_2" := 10; "imgbatch_3" := UnixMilli demoNow + 1]}]} ∅.
Lemma due_redelivered_witness : exists s', MoveDueDelayedToReady demoQueue 1 demoNow (demoDue, []) = (Ok 1, (s', [])) /\
  lst s' "batch_image:queue:ready" = ["imgbatch_2"] /\ exists jobs, movedDue demoQueue "batch_image:queue:delayed" (UnixMilli demoNow) 1 jobs demoDue s'.
Proof.
  destruct (due_redelivered demoQueue demoDue [] Minute 1 demoNow eq_refl) as [_ H].
  destruct (MoveDueDelayedToReady demoQueue 1 demoNow (demoDue, [])) as [r [s' fs']] eqn:E.
  assert (Er : r = Ok 1 /\ fs' = [] /\ lst s' "batch_image:queue:ready" = ["imgbatch_2"]) by (clear H; revert E; vm_compute; intros [= <- <- <-]; by split_and!).
  destruct Er as (-> & -> & El). exists s'. split; [reflexivity|]. split; [exact El|]. destruct H as [(e & [=] & _)|(jobs & Hm & _)]. exists jobs. exact Hm.
Defined.
Definition demoReady : memStore := runQueue demoQueue emptyQueue (take 2 demoCrash).
Definition demoOptions : BatchImageWorkerOptions := mkWorkerOptions 0 0 0 0 0 0 0 0 0 0 0.
(** The batch is to be seen again after a second. *)
Definition demoProcess (b : string) : ST nat (result goerror BatchImageProcessResult) := fun n => (Ok (mkProcessed Second false), Datatypes.S n).
Lemma round_outcome_witness : exists s',
  RunOnce demoQueue (normalizeBatchImageWorkerOptions demoOptions) demoProcess "t1" demoNow [] (demoNow + Second) ((demoReady, []), 0%nat) =
    (Ok tt, ((s', []), 1%nat)) /\
  zset s' "batch_image:queue:delayed" = {["imgbatch_1" := 1002000]}.
Proof.
  destruct (round_outcome demoQueue demo_keys demoProcess demoOptions "t1" demoNow [] (demoNow + Second) demoReady 0%nat [] "imgbatch_1")
    as (s' & E & _ & _ & _ & Hd & _); [clear; vm_compute; reflexivity|reflexivity|clear; vm_compute; reflexivity|discriminate|discriminate|reflexivity|].
  exists s'. split; [exact E|]. etransitivity; [exact Hd|]. clear. vm_compute. reflexivity.
Defined.
