(* ===== verification/BatchRequest.v ===== *)
(** * Requests for image batches

    The first half of [service/batch_image_public.go]: the request of a client is
    normalised, expanded to one item per image and checked against the limits of
    the configuration, hashed, priced and given an account.

    Strings are bytes; [ToLower] is the one of [Account].  [now] is the time of
    the call.  The repositories of groups, user rates and accounts answer what
    the arguments say. *)

From S2P Require Import Prelude Float64 Errors Json Sha256 Subscription SubscriptionRepo Ordering AccountQuota Account ModelMapping.
From S2P Require Import UsageBilling BatchJobs BatchIndex BatchSettlement.

Definition defaultBatchImageMaxItems : Z := 200.
Definition defaultBatchImageMaxOutputImages : Z := 200.
Definition defaultBatchImageMaxOutputCount : Z := 4.
Definition defaultBatchImageMaxPromptChars : Z := 8000.
Definition defaultBatchImageResponseMime : string := "image/png".
Definition defaultBatchImageImageSize : string := "1K".
Definition defaultBatchImageDiscountMultiplier : float64 := fhalf.
Definition defaultBatchImageHoldMultiplier : float64 := fdiv (float_of_Z 6) (float_of_Z 10).
Definition maxBatchImagePublicErrorChars : Z := 500.
Definition maxBatchImageReferenceImageBytes : Z := 10 * 1024 * 1024.
Definition defaultBatchImageMaxReferenceImages : Z := 1000.
Definition defaultBatchImageMaxReferenceBytes : Z := 128 * 1024 * 1024.

Definition ErrBatchImageDisabled := New 404 "BATCH_IMAGE_DISABLED" "batch image API is disabled".
Definition ErrBatchImageGroupDisabled := New 403 "BATCH_IMAGE_GROUP_DISABLED" "batch image API is disabled for this group".
Definition ErrBatchImageInvalidModel := New 400 "BATCH_IMAGE_INVALID_MODEL" "batch image model is required".
Definition ErrBatchImageNoAccountAvailable :=
  New 502 "BATCH_IMAGE_NO_ACCOUNT_AVAILABLE" "no compatible batch image account is available".
Definition ErrBatchImageInvalidItems := New 400 "BATCH_IMAGE_INVALID_ITEMS" "batch image items are invalid".
Definition ErrBatchImageDuplicateCustomIDInRequest :=
  New 400 "BATCH_IMAGE_DUPLICATE_CUSTOM_ID" "batch image custom ids must be unique".
Definition ErrBatchImagePromptTooLong := New 400 "BATCH_IMAGE_PROMPT_TOO_LONG" "batch image prompt is too long".
Definition ErrBatchImageInvalidReferenceImage :=
  New 400 "BATCH_IMAGE_INVALID_REFERENCE_IMAGE" "batch image reference image is invalid".
Definition ErrBatchImageTooManyReferenceImages :=
  New 400 "BATCH_IMAGE_TOO_MANY_REFERENCE_IMAGES" "too many batch image reference images for this model".
Definition ErrBatchImageReferenceImagesTooLarge :=
  New 400 "BATCH_IMAGE_REFERENCE_IMAGES_TOO_LARGE" "batch image reference images are too large".
Definition ErrBatchImageTooManyOutputImages := New 400 "BATCH_IMAGE_TOO_MANY_OUTPUT_IMAGES" "too many batch image output images".

(** ** Requests *)

Record BatchImageReferenceInput := mkReference {
  ref_ID : string; ref_Type : string; ref_MimeType : string; ref_Data : string; FileURI : string }.
Record BatchImageSubmitItem := mkSubmitItem {
  it_CustomID : string; Prompt : string; OutputCount : Z; ReferenceImages : list BatchImageReferenceInput }.
Record BatchImageSubmitRequest := mkSubmit {
  req_Model : string; req_TaskName : string; req_ParentBatchID : string; req_Provider : string;
  Items : list BatchImageSubmitItem; ResponseMimeType : string; AspectRatio : string; ImageSize : string;
  Metadata : gmap string string; req_SessionID : option string }.
Record BatchImageOwner := mkOwner { own_UserID : Z; own_APIKeyID : Z; GroupID : option Z }.

(** [config.BatchImageConfig], as far as it is read here. *)
Record BatchImageConfig := mkConfig {
  cfg_Enabled : bool; cfg_MaxItemsPerJobDefault : Z; cfg_MaxOutputImagesPerJob : Z; cfg_MaxOutputImagesPerItem : Z;
  cfg_MaxPromptCharsPerItem : Z; cfg_MaxReferenceImagesPerJob : Z; cfg_MaxReferenceInlineBytesPerJob : Z;
  cfg_DefaultResponseMimeType : string; cfg_DefaultImageSize : string;
  cfg_InputRetentionAfterTerminalHours : Z; cfg_CleanupBatchSize : Z }.

(** ** Times as text *)

(** The civil date of a number of days since 1 January of the year 1. *)
Definition civil (day : Z) : Z * Z * Z :=
  let z := day + 306 in
  let era := z / 146097 in
  let doe := z mod 146097 in
  let yoe := (doe - doe / 1460 + doe / 36524 - doe / 146096) / 365 in
  let doy := doe - (365 * yoe + yoe / 4 - yoe / 100) in
  let mp := (5 * doy + 2) / 153 in
  let d := doy - (153 * mp + 2) / 5 + 1 in
  let m := if mp <? 10 then mp + 3 else mp - 9 in
  (yoe + era * 400 + (if m <=? 2 then 1 else 0), m, d).
Section Request.
Context (zoneOffset : time -> duration) (cfg : BatchImageConfig).

(** [t.Format("2006-01-02 15:04:05")] in the local zone. *)
Definition FormatDateTime (t : time) : string :=
  let '(y, m, d) := civil (localDay zoneOffset t) in
  let s := (t + zoneOffset t) mod Day / Second in
  let two z := padZeros 2 (Itoa z) in
  padZeros 4 (Itoa y) +:+ "-" +:+ two m +:+ "-" +:+ two d +:+ " " +:+ two (s / 3600) +:+ ":" +:+ two (s / 60 mod 60) +:+ ":" +:+ two (s mod 60).
Definition defaultBatchImageTaskName (t now : time) : string := FormatDateTime (if IsZero t then now else t).

(** ** Limits *)

Definition positiveOr (v dflt : Z) : Z := if 0 <? v then v else dflt.
Definition maxItems : Z := positiveOr (cfg_MaxItemsPerJobDefault cfg) defaultBatchImageMaxItems.
Definition maxOutputImagesPerJob : Z := positiveOr (cfg_MaxOutputImagesPerJob cfg) defaultBatchImageMaxOutputImages.
Definition maxOutputImagesPerItem : Z := positiveOr (cfg_MaxOutputImagesPerItem cfg) defaultBatchImageMaxOutputCount.
Definition maxPromptChars : Z := positiveOr (cfg_MaxPromptCharsPerItem cfg) defaultBatchImageMaxPromptChars.
Definition maxReferenceImagesPerJob : Z := positiveOr (cfg_MaxReferenceImagesPerJob cfg) defaultBatchImageMaxReferenceImages.
Definition maxReferenceInlineBytesPerJob : Z := positiveOr (cfg_MaxReferenceInlineBytesPerJob cfg) defaultBatchImageMaxReferenceBytes.
Definition textOr (v dflt : string) : string := if String.eqb (TrimSpace v) "" then dflt else TrimSpace v.
Definition defaultResponseMimeType : string := textOr (cfg_DefaultResponseMimeType cfg) defaultBatchImageResponseMime.
Definition defaultImageSize : string := textOr (cfg_DefaultImageSize cfg) defaultBatchImageImageSize.

Definition batchImageRepeatSuffixWidth (count : Z) : Z := if count <? 10 then 2 else slen (Itoa count).
Definition maxBatchImageReferenceImagesForModel (model : string) : Z :=
  let model := ToLower (TrimSpace model) in
  if Contains model "pro-image" then 14 else if Contains model "flash-image" then 3 else 0.


(** ** Normalisation *)

Definition normalizeBatchImageReferenceMimeType (v : string) : string :=
  let v := ToLower (TrimSpace v) in
  if String.eqb v "image/jpeg" || String.eqb v "image/jpg" then "image/jpeg"
  else if String.eqb v "image/png" then "image/png"
  else if String.eqb v "image/webp" then "image/webp"
  else "".
Definition normalizeReference (ref : BatchImageReferenceInput) : result goerror BatchImageReferenceInput :=
  let ref := mkReference (truncateBatchImageMessage (TrimSpace (ref_ID ref)) 80) (truncateBatchImageMessage (TrimSpace (ref_Type ref)) 40)
               (normalizeBatchImageReferenceMimeType (ref_MimeType ref)) (ref_Data ref) (TrimSpace (FileURI ref)) in
  let invalid := Err (AppErr ErrBatchImageInvalidReferenceImage) in
  let inline := 0 <? slen (ref_Data ref) in
  let linked := negb (String.eqb (FileURI ref) "") in
  if String.eqb (ref_MimeType ref) "" then invalid
  else if negb inline && negb linked then invalid
  else if inline && linked then invalid
  else if maxBatchImageReferenceImageBytes <? slen (ref_Data ref) then invalid
  else if linked && negb (HasPrefix (FileURI ref) "gs://") then invalid
  else Ok ref.
Fixpoint normalizeReferences (refs : list BatchImageReferenceInput) : result goerror (list BatchImageReferenceInput) :=
  match refs with
  | [] => Ok []
  | ref :: refs =>
      match normalizeReference ref, normalizeReferences refs with
      | Ok ref, Ok refs => Ok (ref :: refs)
      | Err e, _ => Err e
      | _, Err e => Err e
      end
  end.
Definition inlineBytes (refs : list BatchImageReferenceInput) : Z := foldr (fun ref n => slen (ref_Data ref) + n) 0 refs.
(** The references of an item; [len(out)] and [inlineBytes] are those of the result. *)
Definition normalizeBatchImageReferenceInputs (model : string) (item : BatchImageSubmitItem) : result goerror (list BatchImageReferenceInput) :=
  match ReferenceImages item with
  | [] => Ok []
  | refs =>
      let maxRefs := maxBatchImageReferenceImagesForModel model in
      if (maxRefs <=? 0) || (maxRefs <? Z.of_nat (length refs)) then Err (AppErr ErrBatchImageTooManyReferenceImages)
      else normalizeReferences refs
  end.

(** [sanitizeBatchImageMetadata]: an empty map stands for nil. *)
Fixpoint sanitizeKeys (keys : list (string * string)) (out : gmap string string) : gmap string string :=
  match keys with
  | [] => out
  | (k, v) :: keys =>
      let key := TrimSpace k in
      if String.eqb key "" || (64 <? slen key) then sanitizeKeys keys out
      else
        let value := TrimSpace v in
        let out := <[key := if 256 <? slen value then str_take 256 value else value]> out in
        if 20 <=? Z.of_nat (size out) then out else sanitizeKeys keys out
  end.
Definition sanitizeBatchImageMetadata (metadata : gmap string string) : gmap string string :=
  sanitizeKeys (merge_sort key_le (map_to_list metadata)) ∅.
Definition sanitizeBatchImagePublicMessage (message : string) : string :=
  let message := TrimSpace message in
  let message := if existsb (Contains message) ["gs://"; "files/"; "projects/"] then "upstream provider operation failed" else message in
  if maxBatchImagePublicErrorChars <? slen message then str_take (Z.to_nat maxBatchImagePublicErrorChars) message else message.

(** [strings.EqualFold(s, "1K")]: the Kelvin sign folds to [k]. *)
Definition isDefaultImageSize (s : string) : bool :=
  EqualFold s defaultBatchImageImageSize || String.eqb s (String "1" (String (byte 226) (String (byte 132) (String (byte 170) "")))).

(** *** Expansion to one item per image *)

Definition itemNumber (i : Z) : string := "item_" +:+ padZeros 6 (Itoa (i + 1)).
Definition repeatID (customID : string) (outputCount repeatIndex : Z) : string :=
  if 1 <? outputCount
  then customID +:+ "_" +:+ padZeros (Z.to_nat (batchImageRepeatSuffixWidth outputCount)) (Itoa repeatIndex)
  else customID.
Record expansion := mkExpansion {
  seenIDs : gset string; totalReferenceImages : Z; totalInlineReferenceBytes : Z; totalOutputImages : Z;
  expandedItems : list BatchImageSubmitItem }.
Definition noItems : expansion := mkExpansion ∅ 0 0 0 [].
(** [n] repeats from [repeatIndex] on. *)
Fixpoint expandRepeats (item : BatchImageSubmitItem) (outputCount : Z) (n : nat) (repeatIndex : Z) (st : expansion) : result goerror expansion :=
  match n with
  | O => Ok st
  | S n =>
      let id := repeatID (it_CustomID item) outputCount repeatIndex in
      if bool_decide (id ∈ seenIDs st) then Err (AppErr ErrBatchImageDuplicateCustomIDInRequest)
      else expandRepeats item outputCount n (repeatIndex + 1)
             { st with seenIDs := {[id]} ∪ seenIDs st;
                       expandedItems := expandedItems st ++ [{ item with it_CustomID := id; OutputCount := 0 }] }
  end.
Definition expandItem (model : string) (i : Z) (item : BatchImageSubmitItem) (st : expansion) : result goerror expansion :=
  let customID := TrimSpace (it_CustomID item) in
  let customID := if String.eqb customID "" then itemNumber i else customID in
  let outputCount := if OutputCount item =? 0 then 1 else OutputCount item in
  if (outputCount <? 1) || (maxOutputImagesPerItem <? outputCount) then Err (AppErr ErrBatchImageInvalidItems)
  else
    let images := totalOutputImages st + outputCount in
    if maxOutputImagesPerJob <? images then Err (AppErr ErrBatchImageTooManyOutputImages)
    else
      let prompt := TrimSpace (Prompt item) in
      if String.eqb prompt "" then Err (AppErr ErrBatchImageInvalidItems)
      else if maxPromptChars <? slen prompt then Err (AppErr ErrBatchImagePromptTooLong)
      else
        match normalizeBatchImageReferenceInputs model item with
        | Err e => Err e
        | Ok refs =>
            let references := totalReferenceImages st + Z.of_nat (length refs) * outputCount in
            if maxReferenceImagesPerJob <? references then Err (AppErr ErrBatchImageTooManyReferenceImages)
            else
              let bytes := totalInlineReferenceBytes st + inlineBytes refs * outputCount in
              if maxReferenceInlineBytesPerJob <? bytes then Err (AppErr ErrBatchImageReferenceImagesTooLarge)
              else expandRepeats (mkSubmitItem customID prompt (OutputCount item) refs) outputCount (Z.to_nat outputCount) 1
                     { st with totalReferenceImages := references; totalInlineReferenceBytes := bytes; totalOutputImages := images }
        end.
Fixpoint expandItems (model : string) (i : Z) (items : list BatchImageSubmitItem) (st : expansion) : result goerror expansion :=
  match items with
  | [] => Ok st
  | item :: items =>
      match expandItem model i item st with
      | Err e => Err e
      | Ok st => expandItems model (i + 1) items st
      end
  end.

Definition validateSubmitRequest (req : BatchImageSubmitRequest) (now : time) : result goerror BatchImageSubmitRequest :=
  let model := TrimSpace (req_Model req) in
  let taskName := TrimSpace (req_TaskName req) in
  let provider := TrimSpace (req_Provider req) in
  let mime := TrimSpace (ResponseMimeType req) in
  let size := TrimSpace (ImageSize req) in
  if String.eqb model "" then Err (AppErr ErrBatchImageInvalidModel)
  else
    let taskName := if String.eqb taskName "" then defaultBatchImageTaskName now now else taskName in
    let taskName := if 255 <? slen taskName then truncateBatchImageMessage taskName 255 else taskName in
    if negb (String.eqb provider "") && negb (IsSupportedBatchImageProvider provider) then Err (AppErr ErrBatchImageUnsupportedProvider)
    else if bool_decide (Items req = []) || (maxItems <? Z.of_nat (length (Items req))) then Err (AppErr ErrBatchImageInvalidItems)
    else if negb (isDefaultImageSize (if String.eqb size "" then defaultImageSize else size)) then Err (AppErr ErrBatchImageInvalidItems)
    else
      match expandItems model 0 (Items req) noItems with
      | Err e => Err e
      | Ok st =>
          Ok (mkSubmit model taskName (TrimSpace (req_ParentBatchID req)) provider (expandedItems st)
                (if String.eqb mime "" then defaultResponseMimeType else mime) (TrimSpace (AspectRatio req)) defaultBatchImageImageSize
                (sanitizeBatchImageMetadata (Metadata req)) (req_SessionID req))
      end.

End Request.

(** ** The hash of a request *)

Definition base64Digit (n : Z) : ascii :=
  byte (if n <? 26 then 65 + n else if n <? 52 then 71 + n else if n <? 62 then n - 4 else if n =? 62 then 43 else 47).
(** [base64.StdEncoding], the JSON text of a [[]byte]. *)
Fixpoint base64 (l : list Z) : string :=
  let digit := base64Digit in
  match l with
  | [] => ""
  | [a] => String (digit (a / 4)) (String (digit (a mod 4 * 16)) "==")
  | [a; b] => String (digit (a / 4)) (String (digit (a mod 4 * 16 + b / 16)) (String (digit (b mod 16 * 4)) "="))
  | a :: b :: c :: l =>
      String (digit (a / 4)) (String (digit (a mod 4 * 16 + b / 16)) (String (digit (b mod 16 * 4 + c / 64)) (String (digit (c mod 64)) (base64 l))))
  end.

(** An object from its members; one whose text is empty is omitted. *)
Definition member (key value : string) : list string := [json_quote key +:+ ":" +:+ value].
Definition memberUnless (omitted : bool) (key value : string) : list string := if omitted then [] else member key value.
Definition jsonObject (members : list (list string)) : string := "{" +:+ join_comma (List.concat members) +:+ "}".
Definition jsonArray (l : list string) : string := "[" +:+ join_comma l +:+ "]".
Definition marshalReference (ref : BatchImageReferenceInput) : string := jsonObject [
  memberUnless (String.eqb (ref_ID ref) "") "id" (json_quote (ref_ID ref));
  memberUnless (String.eqb (ref_Type ref) "") "type" (json_quote (ref_Type ref));
  member "mime_type" (json_quote (ref_MimeType ref));
  memberUnless (String.eqb (ref_Data ref) "") "data" (String dq (base64 (str_bytes (ref_Data ref)) +:+ String dq ""));
  memberUnless (String.eqb (FileURI ref) "") "file_uri" (json_quote (FileURI ref))].
Definition marshalItem (item : BatchImageSubmitItem) : string := jsonObject [
  member "custom_id" (json_quote (it_CustomID item));
  member "prompt" (json_quote (Prompt item));
  memberUnless (OutputCount item =? 0) "output_count" (Itoa (OutputCount item));
  memberUnless (bool_decide (ReferenceImages item = [])) "reference_images" (jsonArray (map marshalReference (ReferenceImages item)))].
Definition marshalRequest (req : BatchImageSubmitRequest) : string := jsonObject [
  member "model" (json_quote (req_Model req));
  member "task_name" (json_quote (req_TaskName req));
  member "parent_batch_id" (json_quote (req_ParentBatchID req));
  member "provider" (json_quote (req_Provider req));
  member "items" (if bool_decide (Items req = []) then "null" else jsonArray (map marshalItem (Items req)));
  member "response_mime_type" (json_quote (ResponseMimeType req));
  member "aspect_ratio" (json_quote (AspectRatio req));
  member "image_size" (json_quote (ImageSize req));
  member "metadata" (if bool_decide (Metadata req = ∅) then "null" else
    jsonObject (map (fun kv => member kv.1 (json_quote kv.2)) (merge_sort key_le (map_to_list (Metadata req)))))].
Definition HashBatchImageSubmitRequest (req : BatchImageSubmitRequest) : string :=
  sha256_hex (marshalRequest { req with Metadata := sanitizeBatchImageMetadata (Metadata req) }).

(** ** The price *)

(** A [Group], as far as it is read here. *)
Record BatchGroup := mkBatchGroup {
  grp_ID : Z; grp_Platform : string; AllowBatchImageGeneration : bool; grp_RateMultiplier : float64; ImageRateIndependent : bool;
  ImageRateMultiplier : float64; BatchImageDiscountMultiplier : float64; BatchImageHoldMultiplier : float64;
  ImagePrice1K : option float64; ImagePrice2K : option float64; ImagePrice4K : option float64 }.
Definition GetImagePrice (g : BatchGroup) (imageSize : string) : option float64 :=
  if String.eqb imageSize "1K" then ImagePrice1K g
  else if String.eqb imageSize "2K" then ImagePrice2K g
  else if String.eqb imageSize "4K" then ImagePrice4K g
  else ImagePrice2K g.
Record BatchImagePricingSnapshot := mkSnapshot {
  snap_BaseUnitPrice : float64; snap_GroupRateMultiplier : float64; snap_AccountRateMultiplier : float64;
  snap_BatchDiscountMultiplier : float64; snap_HoldMultiplier : float64; snap_BillableUnitPrice : float64;
  snap_HoldUnitPrice : float64; snap_EstimatedCost : float64; snap_HoldAmount : float64 }.

(** A group the owner is in. *)
Definition ownGroup (owner : BatchImageOwner) : option Z :=
  match GroupID owner with Some id => if 0 <? id then Some id else None | None => None end.
Section Pricing.
Context (GetByIDLite : Z -> result goerror (option BatchGroup)) (GetByUserAndGroup : Z -> Z -> result goerror (option float64))
  (unitPriceOf : string -> string -> result goerror float64).

Definition ensureGroupAllowsBatchImage (owner : BatchImageOwner) : result goerror unit :=
  match ownGroup owner with
  | None => Ok tt
  | Some id =>
      match GetByIDLite id with
      | Ok (Some group) =>
          if negb (AllowBatchImageGeneration group) || negb (String.eqb (grp_Platform group) PlatformGemini)
          then Err (AppErr ErrBatchImageGroupDisabled) else Ok tt
      | _ => Err (AppErr ErrBatchImageSettlementPricingMissing)
      end
  end.

(** What the group says: its multiplier, discount, share to hold and configured price. *)
Definition groupPricing (owner : BatchImageOwner) (imageSize : string) : result goerror (float64 * float64 * float64 * option float64) :=
  let atLeast0 f := if SFltb f fzero then fzero else f in
  let missing := Err (AppErr ErrBatchImageSettlementPricingMissing) in
  match ownGroup owner with
  | None => Ok (fone, defaultBatchImageDiscountMultiplier, defaultBatchImageHoldMultiplier, None)
  | Some id =>
      match GetByIDLite id with
      | Ok (Some group) =>
          if negb (AllowBatchImageGeneration group) then Err (AppErr ErrBatchImageGroupDisabled)
          else match GetByUserAndGroup (own_UserID owner) (grp_ID group) with
               | Err _ => missing
               | Ok userRate =>
                   let effective := default (atLeast0 (grp_RateMultiplier group)) userRate in
                   Ok (atLeast0 (if ImageRateIndependent group then ImageRateMultiplier group else effective),
                       atLeast0 (BatchImageDiscountMultiplier group),
                       (if SFleb fzero (BatchImageHoldMultiplier group) then BatchImageHoldMultiplier group else defaultBatchImageHoldMultiplier),
                       match GetImagePrice group imageSize with
                       | Some p => if SFleb fzero p then Some p else None
                       | None => None
                       end)
               end
      | _ => missing
      end
  end.
Definition resolvePricingSnapshot (owner : BatchImageOwner) (req : BatchImageSubmitRequest) (provider : string) (account : Account)
    : result goerror BatchImagePricingSnapshot :=
  match groupPricing owner (ImageSize req) with
  | Err e => Err e
  | Ok (groupMultiplier, discountMultiplier, holdMultiplier, configured) =>
      let unit_ := match configured with
                   | Some p => Ok p
                   | None => match unitPriceOf provider (req_Model req) with
                             | Ok p => if SFltb p fzero then Err (AppErr ErrBatchImageSettlementPricingMissing) else Ok p
                             | Err _ => Err (AppErr ErrBatchImageSettlementPricingMissing)
                             end
                   end in
      match unit_ with
      | Err e => Err e
      | Ok unitPrice =>
          let holdMultiplier := if SFltb holdMultiplier discountMultiplier then discountMultiplier else holdMultiplier in
          let accountMultiplier := if SFltb (BillingRateMultiplier account) fzero then fzero else BillingRateMultiplier account in
          let standard := fmul (fmul unitPrice groupMultiplier) accountMultiplier in
          let billable := fmul standard discountMultiplier in
          let holdUnit := fmul standard holdMultiplier in
          let n := float_of_Z (Z.of_nat (length (Items req))) in
          Ok (mkSnapshot unitPrice groupMultiplier accountMultiplier discountMultiplier holdMultiplier billable holdUnit
                (fmul billable n) (fmul holdUnit n))
      end
  end.
End Pricing.

(** ** The account *)

Definition batchImageProviderPlatform (provider : string) : string := PlatformGemini.
Definition batchImageProviderSelectionOrder (requestedProvider : string) : list string :=
  if negb (String.eqb (TrimSpace requestedProvider) "") then [TrimSpace requestedProvider]
  else [BatchImageProviderGeminiAPI; BatchImageProviderVertex].
Definition accountBefore (a b : Account) : bool :=
  if negb (Priority a =? Priority b) then Priority b <? Priority a else ID a <? ID b.

Section Selection.
(** [listCandidateAccounts] of a platform, whether an account may be used for the
    model, and the providers that are registered with what they support. *)
Context (listCandidateAccounts : option Z -> string -> result goerror (list Account)) (usable : Account -> bool)
  (registered : string -> option (Account -> bool)).

Fixpoint selectAmong (group : option Z) (providers : list string) : result goerror (string * Account) :=
  match providers with
  | [] => Err (AppErr ErrBatchImageNoAccountAvailable)
  | provider :: providers =>
      match registered provider with
      | None => selectAmong group providers
      | Some supports =>
          match listCandidateAccounts group (batchImageProviderPlatform provider) with
          | Err e => Err e
          | Ok accounts =>
              match List.find (fun account => usable account && supports account) (SliceStable accountBefore accounts) with
              | Some account => Ok (provider, account)
              | None => selectAmong group providers
              end
          end
      end
  end.
Definition selectProviderAndAccount (owner : BatchImageOwner) (requestedProvider : string) : result goerror (string * Account) :=
  selectAmong (ownGroup owner) (batchImageProviderSelectionOrder requestedProvider).
End Selection.

(** ** What a checked request is *)

Section Checked.
Context (zoneOffset : time -> duration) (cfg : BatchImageConfig).

Definition goodReference (ref : BatchImageReferenceInput) : Prop :=
  ref_MimeType ref ∈ ["image/jpeg"; "image/png"; "image/webp"] /\ slen (ref_Data ref) <= maxBatchImageReferenceImageBytes /\
  (ref_Data ref = "" <-> FileURI ref <> "") /\ (FileURI ref <> "" -> HasPrefix (FileURI ref) "gs://" = true).
Definition goodItem (model : string) (item : BatchImageSubmitItem) : Prop :=
  it_CustomID item <> "" /\ 0 < slen (Prompt item) <= maxPromptChars cfg /\ OutputCount item = 0 /\
  Z.of_nat (length (ReferenceImages item)) <= Z.max 0 (maxBatchImageReferenceImagesForModel model) /\
  Forall goodReference (ReferenceImages item).
Definition sumOf {A} (f : A -> Z) (l : list A) : Z := foldr (fun x n => f x + n) 0 l.
Definition referenceCount (item : BatchImageSubmitItem) : Z := Z.of_nat (length (ReferenceImages item)).
Definition imageBytes (item : BatchImageSubmitItem) : Z := inlineBytes (ReferenceImages item).
(** The images asked for by an item, one prompt each. *)
Definition imagesOf (item : BatchImageSubmitItem) : Z := if OutputCount item =? 0 then 1 else OutputCount item.
Definition promptsOf (item : BatchImageSubmitItem) : list string := replicate (Z.to_nat (imagesOf item)) (TrimSpace (Prompt item)).

Lemma slen_pos s : 0 < slen s <-> s <> "".
Proof. unfold slen. destruct s; simpl; split; try done; lia. Qed.
Lemma mime_cases v : normalizeBatchImageReferenceMimeType v <> "" -> normalizeBatchImageReferenceMimeType v ∈ ["image/jpeg"; "image/png"; "image/webp"].
Proof. unfold normalizeBatchImageReferenceMimeType. cbv zeta. repeat case_match; intros; try done; rewrite !elem_of_cons; auto. Qed.
Lemma normalizeReference_good ref ref' : normalizeReference ref = Ok ref' -> goodReference ref'.
Proof.
  unfold normalizeReference. cbv zeta. cbn [ref_MimeType ref_Data FileURI]. destruct (String.eqb_spec (normalizeBatchImageReferenceMimeType (ref_MimeType ref)) "") as [|Hm]; [done|].
  destruct (Z.ltb_spec 0 (slen (ref_Data ref))) as [Hi|Hi], (String.eqb_spec (TrimSpace (FileURI ref)) "") as [Hl|Hl]; cbn [negb andb]; try done.
  - destruct (Z.ltb_spec maxBatchImageReferenceImageBytes (slen (ref_Data ref))); [done|]. intros [= <-]. apply slen_pos in Hi.
    split_and!; cbn [ref_MimeType ref_Data FileURI]; [by apply mime_cases|lia|by split|done].
  - destruct (Z.ltb_spec maxBatchImageReferenceImageBytes (slen (ref_Data ref))); [done|]. destruct (HasPrefix _ _) eqn:E; [|done]. intros [= <-].
    split_and!; cbn [ref_MimeType ref_Data FileURI]; [by apply mime_cases|lia| |done]. split; [done|]. intros _.
    destruct (ref_Data ref) eqn:Er; [done|]. unfold slen in Hi. simpl in Hi. lia.
Qed.
Lemma normalizeReferences_good refs refs' : normalizeReferences refs = Ok refs' -> length refs' = length refs /\ Forall goodReference refs'.
Proof.
  revert refs'. induction refs as [|ref refs IH]; intros refs'; cbn [normalizeReferences]; [by intros [= <-]|].
  destruct (normalizeReference ref) as [r|] eqn:Er; [|done]. destruct (normalizeReferences refs) as [rs|]; [|done]. intros [= <-].
  destruct (IH _ eq_refl) as [H1 H2]. split; [simpl; lia|]. constructor; [by eapply normalizeReference_good|done].
Qed.
Lemma normalizeInputs_good model item refs : normalizeBatchImageReferenceInputs model item = Ok refs ->
  Z.of_nat (length refs) <= Z.max 0 (maxBatchImageReferenceImagesForModel model) /\ Forall goodReference refs.
Proof.
  unfold normalizeBatchImageReferenceInputs. destruct (ReferenceImages item) as [|ref l]; [intros [= <-]; split; [simpl; lia|done]|].
  cbv zeta. destruct (Z.leb_spec (maxBatchImageReferenceImagesForModel model) 0), (Z.ltb_spec (maxBatchImageReferenceImagesForModel model) (Z.of_nat (length (ref :: l))));
    cbn [orb]; try done. intros H'. apply normalizeReferences_good in H' as [-> Hg]. split; [lia|done].
Qed.

(** *** The expansion *)

Definition ids (items : list BatchImageSubmitItem) : list string := map it_CustomID items.
Record expansion_ok (model : string) (st : expansion) : Prop := {
  ex_seen : seenIDs st = list_to_set (ids (expandedItems st));
  ex_nodup : NoDup (ids (expandedItems st));
  ex_items : Forall (goodItem model) (expandedItems st);
  ex_images : Z.of_nat (length (expandedItems st)) = totalOutputImages st /\ totalOutputImages st <= maxOutputImagesPerJob cfg;
  ex_references : sumOf referenceCount (expandedItems st) = totalReferenceImages st /\ totalReferenceImages st <= maxReferenceImagesPerJob cfg;
  ex_bytes : sumOf imageBytes (expandedItems st) = totalInlineReferenceBytes st /\ totalInlineReferenceBytes st <= maxReferenceInlineBytesPerJob cfg }.

Lemma positiveOr_pos v d : 0 < d -> 0 < positiveOr v d.
Proof. unfold positiveOr. destruct (Z.ltb_spec 0 v); lia. Qed.
Lemma noItems_ok model : expansion_ok model noItems.
Proof. constructor; simpl; try done; try (apply NoDup_nil_2); split; try done; apply Z.lt_le_incl, positiveOr_pos; reflexivity. Qed.
Lemma sumOf_app {A} (f : A -> Z) l l' : sumOf f (l ++ l') = sumOf f l + sumOf f l'.
Proof. induction l as [|x l IH]; simpl; lia. Qed.
Lemma sumOf_repeat {A} (f : A -> Z) (l : list A) v : (forall x, x ∈ l -> f x = v) -> sumOf f l = Z.of_nat (length l) * v.
Proof.
  induction l as [|x l IH]; intros H; [done|]. cbn [sumOf foldr length]. fold (sumOf f l). rewrite (H x) by left. rewrite IH; [lia|].
  intros y Hy. apply H. by right.
Qed.
Lemma padZeros_nonempty n s : s <> "" -> padZeros n s <> "".
Proof. intros H. unfold padZeros. by destruct (n - String.length s)%nat. Qed.
Lemma app_nonempty s t : s <> "" -> s +:+ t <> "".
Proof. by destruct s. Qed.

(** The copies an item is expanded to. *)
Definition copies (item : BatchImageSubmitItem) (outputCount : Z) (n : nat) (k : Z) : list BatchImageSubmitItem :=
  map (fun i => { item with it_CustomID := repeatID (it_CustomID item) outputCount i; OutputCount := 0 }) (seqZ k (Z.of_nat n)).
Lemma expandRepeats_spec item outputCount n k st st' : expandRepeats item outputCount n k st = Ok st' ->
  let l := copies item outputCount n k in
  expandedItems st' = expandedItems st ++ l /\ seenIDs st' = seenIDs st ∪ list_to_set (ids l) /\
  NoDup (ids l) /\ (forall id, id ∈ ids l -> id ∉ seenIDs st) /\
  totalReferenceImages st' = totalReferenceImages st /\ totalInlineReferenceBytes st' = totalInlineReferenceBytes st /\
  totalOutputImages st' = totalOutputImages st.
Proof.
  revert k st. induction n as [|n IH]; intros k st; cbn [expandRepeats].
  { intros [= <-]. unfold copies. simpl. rewrite app_nil_r. split_and!; try done; [set_solver|apply NoDup_nil_2|set_solver]. }
  cbv zeta. case_bool_decide as Hid; [done|]. intros H. apply IH in H as (E1 & E2 & E3 & E4 & E5 & E6 & E7).
  destruct st as [sn tr tb ti ex]. cbn [expandedItems seenIDs totalReferenceImages totalInlineReferenceBytes totalOutputImages] in *. simpl in *.
  unfold copies in *. rewrite Nat2Z.inj_succ, seqZ_cons by lia. rewrite Z.pred_succ. cbn [map ids]. fold (ids (map (fun i => { item with it_CustomID := repeatID (it_CustomID item) outputCount i; OutputCount := 0 }) (seqZ (Z.succ k) (Z.of_nat n)))).
  replace (Z.succ k) with (k + 1) by lia. set (l := map _ (seqZ (k + 1) (Z.of_nat n))) in *.
  assert (Ei : it_CustomID ({ item with it_CustomID := repeatID (it_CustomID item) outputCount k; OutputCount := 0 }) = repeatID (it_CustomID item) outputCount k)
    by (by destruct item). cbv zeta. rewrite Ei.
  split_and!; try done.
  - by rewrite E1, <- app_assoc.
  - rewrite E2. cbn [list_to_set]. set_solver.
  - apply NoDup_cons_2; [|done]. intros Hin. apply E4 in Hin. set_solver.
  - intros id [->|Hin]%elem_of_cons; [done|]. apply E4 in Hin. set_solver.
Qed.

Lemma copies_field {A} (f : BatchImageSubmitItem -> A) item c n k : (forall i id, f { i with it_CustomID := id; OutputCount := 0 } = f i) ->
  forall x, x ∈ copies item c n k -> f x = f item.
Proof. intros Hf x (i & -> & _)%list_elem_of_fmap. apply Hf. Qed.
Lemma copies_length item c n k : length (copies item c n k) = n.
Proof. unfold copies. rewrite length_map, length_seqZ. lia. Qed.
Lemma repeatID_nonempty id c i : id <> "" -> repeatID id c i <> "".
Proof. intros H. unfold repeatID. destruct (1 <? c); [|done]. by apply app_nonempty. Qed.

Lemma expandItem_ok model i item st st' : expansion_ok model st -> expandItem cfg model i item st = Ok st' ->
  expansion_ok model st' /\ totalOutputImages st < totalOutputImages st' /\
  map Prompt (expandedItems st') = map Prompt (expandedItems st) ++ promptsOf item.
Proof.
  intros [S N I (M & M') (R & R') (B & B')]. unfold expandItem. cbv zeta. fold (imagesOf item).
  set (id := if String.eqb (TrimSpace (it_CustomID item)) "" then itemNumber i else TrimSpace (it_CustomID item)).
  assert (Hid : id <> "") by (subst id; destruct (String.eqb_spec (TrimSpace (it_CustomID item)) ""); [by apply app_nonempty|done]).
  destruct (Z.ltb_spec (imagesOf item) 1); [done|]. destruct (Z.ltb_spec (maxOutputImagesPerItem cfg) (imagesOf item)); [done|]. cbn [orb].
  destruct (Z.ltb_spec (maxOutputImagesPerJob cfg) (totalOutputImages st + imagesOf item)); [done|].
  destruct (String.eqb_spec (TrimSpace (Prompt item)) "") as [|Hp]; [done|]. destruct (Z.ltb_spec (maxPromptChars cfg) (slen (TrimSpace (Prompt item)))); [done|].
  destruct (normalizeBatchImageReferenceInputs model item) as [refs|] eqn:En; [|done]. apply normalizeInputs_good in En as [Hn Hg].
  destruct (Z.ltb_spec (maxReferenceImagesPerJob cfg) (totalReferenceImages st + Z.of_nat (length refs) * imagesOf item)); [done|].
  destruct (Z.ltb_spec (maxReferenceInlineBytesPerJob cfg) (totalInlineReferenceBytes st + inlineBytes refs * imagesOf item)); [done|].
  intros E. apply expandRepeats_spec in E. cbv zeta in E. set (l := copies _ _ _ _) in E.
  assert (Hl : length l = Z.to_nat (imagesOf item)) by apply copies_length.
  assert (Hf : forall x, x ∈ l -> Prompt x = TrimSpace (Prompt item) /\ ReferenceImages x = refs).
  { intros x Hx. split; [exact (copies_field Prompt _ _ _ _ (fun i id => match i with mkSubmitItem _ _ _ _ => eq_refl end) x Hx)|].
    exact (copies_field ReferenceImages _ _ _ _ (fun i id => match i with mkSubmitItem _ _ _ _ => eq_refl end) x Hx). }
  assert (Hk : Forall (goodItem model) l).
  { rewrite Forall_forall. intros x Hx. destruct (Hf x Hx) as [E1 E2]. unfold goodItem. rewrite E1, E2. unfold l, copies in Hx.
    apply list_elem_of_fmap in Hx as (k & -> & _). split_and!; try done; [by apply repeatID_nonempty|by apply slen_pos]. }
  destruct st as [sn tr tb ti ex]. cbn [expandedItems seenIDs totalReferenceImages totalInlineReferenceBytes totalOutputImages] in *. simpl in E.
  destruct E as (E1 & E2 & E3 & E4 & E5 & E6 & E7). split; [constructor|split; [lia|]].
  - rewrite E2, E1, S. unfold ids. rewrite map_app, list_to_set_app_L. done.
  - rewrite E1. unfold ids. rewrite map_app. apply NoDup_app. split_and!; [done| |done]. intros x Hx Hy. apply E4 in Hy. apply Hy. rewrite S. by apply elem_of_list_to_set.
  - rewrite E1. by apply Forall_app.
  - rewrite E1, E7, length_app, Hl. lia.
  - rewrite E1, E5, sumOf_app, (sumOf_repeat referenceCount l (Z.of_nat (length refs))), Hl by (intros x Hx; unfold referenceCount; by rewrite (proj2 (Hf x Hx))). lia.
  - rewrite E1, E6, sumOf_app, (sumOf_repeat imageBytes l (inlineBytes refs)), Hl by (intros x Hx; unfold imageBytes; by rewrite (proj2 (Hf x Hx))). lia.
  - rewrite E1, map_app. f_equal. unfold promptsOf. rewrite <- Hl. clear -Hf. induction l as [|x l IH]; [done|]. simpl. f_equal; [apply Hf; by left|].
    apply IH. intros y Hy. apply Hf. by right.
Qed.
Lemma expandItems_ok model i items st st' : expansion_ok model st -> expandItems cfg model i items st = Ok st' ->
  expansion_ok model st' /\ totalOutputImages st + Z.of_nat (length items) <= totalOutputImages st' /\
  map Prompt (expandedItems st') = map Prompt (expandedItems st) ++ concat (map promptsOf items).
Proof.
  revert i st. induction items as [|item items IH]; intros i st Hst; cbn [expandItems]; [intros [= <-]; rewrite app_nil_r; split_and!; [done|simpl; lia|done]|].
  destruct (expandItem cfg model i item st) as [st1|] eqn:E; [|done]. apply expandItem_ok in E as (H1 & T1 & P1); [|done]. intros H.
  apply IH in H as (H2 & T2 & P2); [|done]. split; [done|]. split; [simpl length; lia|]. rewrite P2, P1. simpl. by rewrite app_assoc.
Qed.
Lemma str_take_bound n s : slen (str_take n s) <= Z.of_nat n.
Proof. revert s. unfold slen. induction n as [|n IH]; intros [|c s]; simpl; try lia. specialize (IH s). lia. Qed.
Lemma truncate_le message limit : 0 < limit -> slen (truncateBatchImageMessage message limit) <= limit.
Proof.
  intros Hl. unfold truncateBatchImageMessage. cbv zeta. destruct (Z.leb_spec limit 0); [lia|]. cbn [orb].
  destruct (Z.leb_spec (Z.of_nat (String.length (TrimSpace message))) limit); [done|]. etransitivity; [apply str_take_bound|lia].
Qed.

(** The items of a checked request have ids of their own. *)
Lemma validated_items req now r : validateSubmitRequest zoneOffset cfg req now = Ok r -> NoDup (ids (Items r)) /\ Items r <> [].
Proof.
  unfold validateSubmitRequest. cbv zeta. destruct (String.eqb _ ""); [done|]. destruct (negb _ && _); [done|].
  case_bool_decide as Hn; [done|]. destruct (maxItems cfg <? _); [done|]. cbn [orb]. destruct (negb _); [done|].
  destruct (expandItems cfg _ 0 (Items req) noItems) as [st|] eqn:E; [|done]. apply expandItems_ok in E as (Hok & Ht & _); [|apply noItems_ok].
  intros [= <-]. cbn [Items]. split; [apply (ex_nodup _ _ Hok)|]. pose proof (proj1 (ex_images _ _ Hok)) as Hl. cbn [noItems totalOutputImages] in Ht.
  destruct (Items req); [done|]. destruct (expandedItems st); [|done]. simpl length in *. lia.
Qed.

(** C11: A checked request asks for what the client asked for and is within the limits: it has an item
    for every image, with the prompt of that image, between one and the greatest number; their ids are
    different and not empty; prompts, references and inline bytes are within the limits of the
    configuration and the model; every reference is either an inline image or a Cloud Storage object. *)
Theorem checked_request req now r : validateSubmitRequest zoneOffset cfg req now = Ok r ->
  NoDup (ids (Items r)) /\ 0 < Z.of_nat (length (Items r)) <= maxOutputImagesPerJob cfg /\
  map Prompt (Items r) = concat (map promptsOf (Items req)) /\ Z.of_nat (length (Items req)) <= maxItems cfg /\
  Forall (goodItem (req_Model r)) (Items r) /\
  sumOf referenceCount (Items r) <= maxReferenceImagesPerJob cfg /\ sumOf imageBytes (Items r) <= maxReferenceInlineBytesPerJob cfg /\
  req_Model r = TrimSpace (req_Model req) /\ req_Model r <> "" /\ slen (req_TaskName r) <= 255 /\ ImageSize r = "1K" /\
  (req_Provider r = "" \/ IsSupportedBatchImageProvider (req_Provider r) = true).
Proof.
  unfold validateSubmitRequest. cbv zeta. destruct (String.eqb_spec (TrimSpace (req_Model req)) "") as [|Hm]; [done|].
  set (task := if 255 <? _ then _ else _). assert (Ht : slen task <= 255).
  { subst task. destruct (Z.ltb_spec 255 (slen (if String.eqb (TrimSpace (req_TaskName req)) "" then defaultBatchImageTaskName zoneOffset now now
      else TrimSpace (req_TaskName req)))) as [Hl|]; [|done]. by apply truncate_le. }
  destruct (negb (String.eqb (TrimSpace (req_Provider req)) "") && _) eqn:Ep; [done|].
  case_bool_decide as Hn; [done|]. destruct (Z.ltb_spec (maxItems cfg) (Z.of_nat (length (Items req)))); [done|]. cbn [orb].
  destruct (negb (isDefaultImageSize _)); [done|]. destruct (expandItems cfg (TrimSpace (req_Model req)) 0 (Items req) noItems) as [st|] eqn:E; [|done].
  apply expandItems_ok in E as ([S N I (M & M') (R & R') (B & B')] & Ht' & Hp); [|apply noItems_ok]. intros [= <-]. cbn [Items req_Model req_TaskName ImageSize req_Provider].
  split_and!; try done; try lia.
  - cbn [noItems totalOutputImages] in Ht'. destruct (Items req); [done|]. simpl length in Ht'. lia.
  - apply andb_false_iff in Ep as [Ep|Ep]; apply negb_false_iff in Ep; [left; by apply String.eqb_eq|by right].
Qed.

End Checked.

(** ** The account that is chosen *)

Lemma accountBefore_order P : weak_order accountBefore P.
Proof.
  unfold accountBefore. split.
  - intros a _. rewrite Z.eqb_refl. simpl. apply Z.ltb_irrefl.
  - intros a b c _ _ _. destruct (Z.eqb_spec (Priority a) (Priority b)), (Z.eqb_spec (Priority b) (Priority c)), (Z.eqb_spec (Priority a) (Priority c));
      simpl; rewrite ?Z.ltb_lt; lia.
  - intros a b c _ _ _. destruct (Z.eqb_spec (Priority a) (Priority b)), (Z.eqb_spec (Priority b) (Priority c)), (Z.eqb_spec (Priority a) (Priority c));
      simpl; rewrite ?Z.ltb_ge; lia.
Qed.
Lemma upto_trans : Relations_1.Transitive (upto accountBefore).
Proof. intros a b c H1 H2. unfold upto in *. by eapply (notless_trans accountBefore (fun _ => True) (accountBefore_order _)). Qed.
(** The first that fits in a sorted list comes before every other that fits. *)
Lemma find_best (f : Account -> bool) l a : StronglySorted (upto accountBefore) l -> List.find f l = Some a ->
  a ∈ l /\ f a = true /\ forall a', a' ∈ l -> f a' = true -> accountBefore a' a = false.
Proof.
  induction 1 as [|x l _ IH Hx]; [done|]. cbn [List.find]. destruct (f x) eqn:E.
  - intros [= <-]. split_and!; [by left|done|]. intros a' [->|Ha]%elem_of_cons _.
    + by apply (less_irrefl accountBefore (fun _ => True) (accountBefore_order _)).
    + rewrite List.Forall_forall in Hx. apply Hx. by apply list_elem_of_In.
  - intros H. destruct (IH H) as (H1 & H2 & H3). split_and!; [by right|done|]. intros a' [->|Ha]%elem_of_cons Hf; [congruence|auto].
Qed.

Section Selected.
Context (listCandidateAccounts : option Z -> string -> result goerror (list Account)) (usable : Account -> bool)
  (registered : string -> option (Account -> bool)).
(** The account may serve the request through the provider. *)
Definition fitting (group : option Z) (provider : string) (a : Account) : Prop := exists supports accounts,
  registered provider = Some supports /\ listCandidateAccounts group (batchImageProviderPlatform provider) = Ok accounts /\
  a ∈ accounts /\ usable a = true /\ supports a = true.

(** The account of a batch is the best that fits: of the first provider in the order of preference
    that has a usable account for the model at all, one with the highest priority, and the least id among
    these; there is an error only when no account of any provider fits, or the accounts could not be listed. *)
Theorem best_account owner requestedProvider : let order := batchImageProviderSelectionOrder requestedProvider in
  match selectProviderAndAccount listCandidateAccounts usable registered owner requestedProvider with
  | Ok (provider, a) => exists before after, order = before ++ provider :: after /\ fitting (ownGroup owner) provider a /\
      (forall a', fitting (ownGroup owner) provider a' -> Priority a' < Priority a \/ Priority a' = Priority a /\ ID a <= ID a') /\
      forall provider' a', provider' ∈ before -> ~ fitting (ownGroup owner) provider' a'
  | Err e => (exists provider, listCandidateAccounts (ownGroup owner) (batchImageProviderPlatform provider) = Err e) \/
      e = AppErr ErrBatchImageNoAccountAvailable /\ forall provider a, provider ∈ order -> ~ fitting (ownGroup owner) provider a
  end.
Proof.
  intros order. unfold selectProviderAndAccount. fold order. clearbody order. generalize (ownGroup owner). intros group.
  induction order as [|p order IH]; cbn [selectAmong]; [right; split; [done|]; intros ? ? Hin; by apply not_elem_of_nil in Hin|].
  assert (Hskip : (forall a, ~ fitting group p a) ->
    match selectAmong listCandidateAccounts usable registered group order with
    | Ok (provider, a) => exists before after, p :: order = before ++ provider :: after /\ fitting group provider a /\
        (forall a', fitting group provider a' -> Priority a' < Priority a \/ Priority a' = Priority a /\ ID a <= ID a') /\
        forall provider' a', provider' ∈ before -> ~ fitting group provider' a'
    | Err e => (exists provider, listCandidateAccounts group (batchImageProviderPlatform provider) = Err e) \/
        e = AppErr ErrBatchImageNoAccountAvailable /\ forall provider a, provider ∈ p :: order -> ~ fitting group provider a
    end).
  { intros Hp. destruct (selectAmong _ _ _ group order) as [[q a]|e].
    - destruct IH as (before & after & -> & Hf & Hb & Hn). exists (p :: before), after. split_and!; [done|done|done|].
      intros q' a' [->|Hq]%elem_of_cons; [apply Hp|by apply Hn].
    - destruct IH as [IH|[-> IH]]; [by left|right]. split; [done|]. intros q a [->|Hq]%elem_of_cons; [apply Hp|by apply IH]. }
  destruct (registered p) as [supports|] eqn:Er; [|apply Hskip; intros a (s & l & E & _); congruence].
  destruct (listCandidateAccounts group (batchImageProviderPlatform p)) as [accounts|e] eqn:El; [|left; eauto].
  set (sorted := SliceStable accountBefore accounts).
  assert (Hin : forall a, a ∈ sorted <-> a ∈ accounts) by (intros a; subst sorted; by rewrite SliceStable_perm).
  destruct (List.find _ sorted) as [a|] eqn:Ef.
  - apply find_best in Ef as (Ha & Hf & Hb); [|apply Sorted_StronglySorted; [apply upto_trans|]; apply SliceStable_sorted, accountBefore_order].
    apply andb_true_iff in Hf as [Hu Hs]. exists [], order. split_and!; [done| | |by intros ? ? Hx; apply not_elem_of_nil in Hx].
    + exists supports, accounts. by rewrite <- Hin.
    + intros a' (s & l & E1 & E2 & E3 & E4 & E5). rewrite Er in E1. rewrite El in E2. injection E1 as <-. injection E2 as <-.
      specialize (Hb a' (proj2 (Hin a') E3)). rewrite E4, E5 in Hb. specialize (Hb eq_refl). revert Hb. unfold accountBefore.
      destruct (Z.eqb_spec (Priority a') (Priority a)); simpl; [intros H%Z.ltb_ge|intros H%Z.ltb_ge]; lia.
  - apply Hskip. intros a (s & l & E1 & E2 & E3 & E4 & E5). rewrite Er in E1. rewrite El in E2. injection E1 as <-. injection E2 as <-.
    pose proof (List.find_none _ _ Ef a (proj1 (list_elem_of_In _ _) (proj2 (Hin a) E3))) as Hn. simpl in Hn. by rewrite E4, E5 in Hn.
Qed.
End Selected.

(** ** Examples *)

Example civil_dates : map civil [739573; 738944; 0; 730118; 730179] = [(2025, 11, 19); (2024, 2, 29); (1, 1, 1); (1999, 12, 31); (2000, 3, 1)].
Proof. vm_compute. reflexivity. Qed.
Example formatted : FormatDateTime (fun _ => 8 * Hour) (739573 * Day + 17 * Hour + 8 * Minute + 7 * Second) = "2025-11-20 01:08:07".
Proof. vm_compute. reflexivity. Qed.
Example base64_texts : map base64 [[0; 255; 16; 62; 63; 7; 9]; [97; 98]; [97; 98; 99]; [251; 255]] = ["AP8QPj8HCQ=="; "YWI="; "YWJj"; "+/8="].
Proof. vm_compute. reflexivity. Qed.
Definition demoConfig : BatchImageConfig := mkConfig true 0 0 0 0 0 0 "" "" 0 0.
(** Two images of one prompt and one of another, with a reference. *)
Definition demoRequest (task : string) : BatchImageSubmitRequest :=
  mkSubmit " gemini-2.5-flash-image " task "" "" [
    mkSubmitItem "" "a cat" 2 []; mkSubmitItem "dog" " a dog " 0 [mkReference "r" "" "image/JPG" "abc" ""]]
    "" "" "1k" {["k" := " v "]} None.
Example demo_hashed : option_map marshalRequest (match validateSubmitRequest (fun _ => 0) demoConfig (demoRequest "t") 0 with Ok r => Some r | Err _ => None end) =
  Some (qs ["{"; "model"; ":"; "gemini-2.5-flash-image"; ","; "task_name"; ":"; "t"; ","; "parent_batch_id"; ":"; ""; ","; "provider"; ":"; ""; ",";
    "items"; ":[{"; "custom_id"; ":"; "item_000001_01"; ","; "prompt"; ":"; "a cat"; "},{"; "custom_id"; ":"; "item_000001_02"; ","; "prompt"; ":"; "a cat";
    "},{"; "custom_id"; ":"; "dog"; ","; "prompt"; ":"; "a dog"; ","; "reference_images"; ":[{"; "id"; ":"; "r"; ","; "mime_type"; ":"; "image/jpeg"; ",";
    "data"; ":"; "YWJj"; "}]}],"; "response_mime_type"; ":"; "image/png"; ","; "aspect_ratio"; ":"; ""; ","; "image_size"; ":"; "1K"; ",";
    "metadata"; ":{"; "k"; ":"; "v"; "}}"]).
Proof. vm_compute. reflexivity. Qed.
(** What the checks make of a request; [demoRequest] when they fail. *)
Definition demoChecked (task : string) (now : time) : BatchImageSubmitRequest :=
  match validateSubmitRequest (fun _ => 0) demoConfig (demoRequest task) now with Ok r => r | Err _ => demoRequest task end.
Definition passes (task : string) (now : time) : bool :=
  match validateSubmitRequest (fun _ => 0) demoConfig (demoRequest task) now with Ok _ => true | Err _ => false end.
Lemma demo_checked task now : passes task now = true ->
  validateSubmitRequest (fun _ => 0) demoConfig (demoRequest task) now = Ok (demoChecked task now).
Proof. unfold passes, demoChecked. by destruct (validateSubmitRequest _ _ _ _). Qed.
Lemma checked_request_witness : NoDup (ids (Items (demoChecked "t" 0))) /\ map Prompt (Items (demoChecked "t" 0)) = ["a cat"; "a cat"; "a dog"].
Proof.
  assert (E : passes "t" 0 = true) by (vm_compute; reflexivity).
  destruct (checked_request (fun _ => 0) demoConfig (demoRequest "t") 0 _ (demo_checked "t" 0 E)) as (H1 & _ & H2 & _).
  split; [exact H1|]. rewrite H2. clear. vm_compute. reflexivity.
Defined.
(** Without a task name the hash depends on the second of the request: a repetition
    under the same idempotency key is taken for another request. *)
Lemma unnamed_hash_changes : exists r r',
  validateSubmitRequest (fun _ => 0) demoConfig (demoRequest "") (739573 * Day) = Ok r /\
  validateSubmitRequest (fun _ => 0) demoConfig (demoRequest "") (739573 * Day + Second) = Ok r' /\
  HashBatchImageSubmitRequest r <> HashBatchImageSubmitRequest r'.
Proof.
  exists (demoChecked "" (739573 * Day)), (demoChecked "" (739573 * Day + Second)).
  split; [apply demo_checked; vm_compute; reflexivity|]. split; [apply demo_checked; vm_compute; reflexivity|].
  apply String.eqb_neq. vm_compute. reflexivity.
Qed.
