(* ===== verification/BatchSubmit.v ===== *)
(** * Submitting and cancelling image batches

    The second half of [service/batch_image_public.go]: [Submit], [Cancel] and
    the calls of an owner on a batch, over the database of the jobs and the
    balances ([BatchJobs], [UsageBilling]), the queue and the providers.

    The queue and the providers are interfaces: what they keep is a state of
    their own ([Q] and [P]).  The database connection may fail at every statement;
    the queue and a provider may answer with errors.  A call sees one time [now];
    the id of a batch is drawn from random bytes and is an argument, and so is
    what the heartbeat and other processes do to the database while [Submit] waits
    for the provider.  The cache of keys is not modelled.  [public] is the view a
    client gets of a job. *)

From S2P Require Import Prelude Float64 Errors Subscription SubscriptionRepo AccountQuota Account.
From S2P Require Import UsageBilling BatchJobs BatchIndex BatchSettlement BatchQueue BatchRequest.

Definition ErrBatchImageProviderSubmitFailed := New 502 "BATCH_IMAGE_PROVIDER_SUBMIT_FAILED" "batch image provider submit failed".
Definition ErrBatchImageQueueFailed := New 502 "BATCH_IMAGE_QUEUE_FAILED" "batch image queue failed".
Definition ErrBatchImageIdempotencyConflict :=
  New 409 "BATCH_IMAGE_IDEMPOTENCY_CONFLICT" "idempotency key reused with different batch image request".
Definition ErrBatchImageCancelFailed := New 502 "BATCH_IMAGE_CANCEL_FAILED" "batch image cancel failed".
Definition ErrBatchImageVertexGCSBucketMissing :=
  New 502 "BATCH_IMAGE_VERTEX_GCS_BUCKET_MISSING" "Vertex managed GCS bucket is not configured".
Definition ErrBatchImageProviderMissingAPIKey :=
  New 400 "BATCH_IMAGE_PROVIDER_MISSING_API_KEY" "batch image provider account is missing api key".
Definition ErrBatchImageProviderMissingServiceAccount :=
  New 400 "BATCH_IMAGE_PROVIDER_MISSING_SERVICE_ACCOUNT" "batch image provider account is missing service account credentials".

(** ** Providers *)

Inductive CleanupTarget := CleanupTargetInput | CleanupTargetOutput | CleanupTargetAll.
Record BatchImageInputItem := mkInputItem { in_CustomID : string; in_Prompt : string; in_ReferenceImages : list BatchImageReferenceInput }.
Record BatchImageInput := mkInput {
  in_BatchID : string; in_Model : string; DisplayName : string; in_Items : list BatchImageInputItem;
  in_ResponseMimeType : string; in_AspectRatio : string; in_ImageSize : string; in_Metadata : gmap string string }.
Record BatchProviderJob := mkProviderJob { pj_ProviderJobName : string; pj_ProviderInputRef : string; pj_ProviderOutputRef : string }.
(** The calls that change something at the provider. *)
Class Providers (P : Type) := {
  ProviderSubmit : string -> BatchImageJob -> Account -> BatchImageInput -> ST P (result goerror (option BatchProviderJob));
  ProviderCancel : string -> BatchImageJob -> Account -> ST P (result goerror unit);
  ProviderCleanup : string -> BatchImageJob -> Account -> CleanupTarget -> ST P (result goerror unit) }.
(** [err == nil || errors.Is(err, ErrBatchImageAlreadyQueued)] *)
Definition accepted (r : result goerror unit) : bool :=
  match r with Ok _ => true | Err e => errors_Is e (AppErr ErrBatchImageAlreadyQueued) end.
(** [BatchImageQueue.Enqueue] and what it is for: a batch that was accepted, or
    was there already, is queued, and stays so when others are accepted. *)
Class Queue (Q : Type) := {
  put : string -> ST Q (result goerror unit);
  inQueue : string -> Q -> Prop;
  soundQueue : Q -> Prop;
  put_sound b q : soundQueue q -> soundQueue (put b q).2;
  put_keeps b b' q : soundQueue q -> inQueue b' q -> inQueue b' (put b q).2;
  put_queues b q : soundQueue q -> accepted (put b q).1 = true -> inQueue b (put b q).2 }.

(** ** What clients see *)

Record BatchImagePublicBatch := mkPublic {
  pub_ID : string; pub_TaskName : string; pub_ParentBatchID : option string; pub_Status : string; pub_Model : string; pub_Provider : string;
  pub_ItemCount : Z; pub_SuccessCount : Z; pub_FailCount : Z; pub_EstimatedCost : float64; pub_HoldAmount : float64;
  pub_ActualCost : option float64; pub_CreatedAt : time; pub_SubmittedAt : option time; pub_SettledAt : option time;
  pub_DownloadedAt : option time; pub_OutputDeletedAt : option time }.
Record BatchImagePublicItem := mkPublicItem {
  pi_CustomID : string; pi_Status : string; pi_PromptPreview : option string; pi_MimeType : option string; pi_FileExtension : option string;
  pi_ImageCount : Z; pi_Error : option (string * string * string) }.
Definition PublicBatchImageStatus (status : string) : string :=
  if oneOf status [BatchImageJobStatusCreated; BatchImageJobStatusUploading; BatchImageJobStatusSubmitted] then "queued"
  else if String.eqb status BatchImageJobStatusIndexing then "processing_results"
  else status.
Definition batchImageItemErrorSource (item : BatchImageItem) : string :=
  match ErrorCode item with
  | None => ""
  | Some code =>
      if negb (String.eqb (batchImageDerefString (ProviderSourceObject item)) "") then "provider"
      else if oneOf (TrimSpace code) ["EMPTY_IMAGE_OUTPUT"; "PROVIDER_ITEM_FAILED"] then "provider"
      else if oneOf (TrimSpace code) ["INDEX_OUTPUT_MISSING"; "INDEX_PARSE_FAILED"; "DUPLICATE_CUSTOM_ID_IN_OUTPUT"] then "system"
      else ""
  end.
Definition BatchImageItemToPublic (item : BatchImageItem) : BatchImagePublicItem :=
  let out := mkPublicItem (CustomID item) "failed" (PromptPreview item) (MimeType item) (FileExtension item) (ImageCount item) None in
  if String.eqb (item_Status item) BatchImageItemStatusPending then { out with pi_Status := "pending" }
  else if String.eqb (item_Status item) BatchImageItemStatusSuccess then { out with pi_Status := "succeeded" }
  else { out with pi_Error := Some (batchImageDerefString (ErrorCode item),
                                    sanitizeBatchImagePublicMessage (batchImageDerefString (ErrorMessage item)), batchImageItemErrorSource item) }.
Definition parseBatchImageCursor (cursor : string) : Z :=
  match Atoi (TrimSpace cursor) with Some offset => if offset <? 0 then 0 else offset | None => 0 end.

Definition batchImageGCSRef (provider ref : string) : string :=
  if String.eqb provider BatchImageProviderVertex && HasPrefix (TrimSpace ref) "gs://" then TrimSpace ref else "".
Definition batchImageProviderSubmitPublicError (err : goerror) : ApplicationError :=
  let reason := TrimSpace (Reason (Some err)) in
  if String.eqb reason "VERTEX_MANAGED_GCS_BUCKET_MISSING" then ErrBatchImageVertexGCSBucketMissing
  else if String.eqb reason "BATCH_IMAGE_PROVIDER_MISSING_API_KEY" then ErrBatchImageProviderMissingAPIKey
  else if String.eqb reason "BATCH_IMAGE_PROVIDER_MISSING_SERVICE_ACCOUNT" then ErrBatchImageProviderMissingServiceAccount
  else if String.eqb reason "BATCH_IMAGE_PROVIDER_UNSUPPORTED_ACCOUNT" then ErrBatchImageProviderUnsupportedAccount
  else ErrBatchImageProviderSubmitFailed.
Definition batchImageProviderSubmitRecordCode (err : ApplicationError) : string :=
  let reason := TrimSpace (Reason (Some (AppErr err))) in
  if String.eqb reason "" || String.eqb reason "BATCH_IMAGE_PROVIDER_SUBMIT_FAILED" then "PROVIDER_SUBMIT_FAILED" else reason.

(** ** The service *)

(** The dependencies of the service: the other repositories answer what they say. *)
Class PublicEnv := {
  config : BatchImageConfig;
  localOffset : time -> duration;
  provider_named : string -> option (BatchImageProvider Account);
  GetByID : Z -> result goerror Account;
  listAccounts : option Z -> string -> result goerror (list Account);
  schedulable : Account -> string -> time -> bool;
  GetByIDLite : Z -> result goerror (option BatchGroup);
  GetByUserAndGroup : Z -> Z -> result goerror (option float64);
  ModelUnitPrice : string -> string -> result goerror float64;
  column2010 : float64 -> result goerror float64;
  column104 : float64 -> result goerror float64;
  textOf : goerror -> string }.
#[export] Instance publicEnv `{PublicEnv} : Env := {|
  account := Account; ProviderRegistry := provider_named; ResolveBatchImageAccount := GetByID;
  BatchImageUnitPrice := fun job => ModelUnitPrice (Provider job) (job_Model job);
  numeric2010 := column2010; numeric104 := column104; errorText := textOf |}.

Section Service.
Context {money : Money} {penv : PublicEnv} {Q P : Type} `{!Queue Q} `{!Providers P}.
Local Abbreviation dbWorld := (store * list fault)%type.
(** The database with its connection, the queue, the providers. *)
Local Abbreviation world := (dbWorld * (Q * P))%type.
Local Abbreviation method A := (ST world (result goerror A)).
Definition onDB {A} (m : ST dbWorld A) : ST world A := fun '(d, rest) => let '(a, d) := m d in (a, (d, rest)).
Definition onQueue {A} (m : ST Q A) : ST world A := fun '(d, (q, p)) => let '(a, q) := m q in (a, (d, (q, p))).
Definition atProvider {A} (m : ST P A) : ST world A := fun '(d, (q, p)) => let '(a, p) := m p in (a, (d, (q, p))).

Definition public (job : BatchImageJob) : BatchImagePublicBatch :=
  let seconds t := (t - 62135596800 * Second) / Second in
  let name := TrimSpace (job_TaskName job) in
  mkPublic (BatchID job) (if String.eqb name "" then FormatDateTime localOffset (job_CreatedAt job) else name) (job_ParentBatchID job)
    (PublicBatchImageStatus (job_Status job)) (job_Model job) (Provider job) (ItemCount job) (SuccessCount job) (FailCount job)
    (EstimatedCost job) (holdOf job) (ActualCost job) (seconds (job_CreatedAt job)) (seconds <$> SubmittedAt job) (seconds <$> SettledAt job)
    (seconds <$> DownloadedAt job) (seconds <$> OutputDeletedAt job).

(** *** Failures of a submission *)

Definition recordFailure (batchID code message : string) (markFailed : bool) (now : time) : ST world unit :=
  _ ← onDB (RecordBatchImageJobSubmitFailure batchID code (sanitizeBatchImagePublicMessage message) markFailed now); mret tt.
Definition enqueueBillingRetry (batchID : string) : ST world unit :=
  r ← onQueue (put batchID);
  if accepted r then mret tt else _ ← onDB (AppendBatchImageEvent batchID "billing_retry_enqueue_failed"); mret tt.
Definition hidePreUpstreamSubmitFailure (owner : BatchImageOwner) (job : BatchImageJob) (now : time) : ST world unit :=
  match ProviderJobName job with
  | Some _ => mret tt
  | None => _ ← onDB (MarkBatchImageJobUserDeleted (own_UserID owner) (own_APIKeyID owner) (BatchID job) now); mret tt
  end.
Definition releaseFailedSubmitHold (job : BatchImageJob) (requestHash : string) (now : time) : method unit :=
  r ← onDB (releaseBatchImageBalanceHold job requestHash);
  match r with
  | Ok _ => mret (Ok tt)
  | Err e =>
      _ ← recordFailure (BatchID job) "BILLING_RELEASE_FAILED" (errorText e) true now;
      _ ← enqueueBillingRetry (BatchID job);
      mret (Err (AppErr ErrBatchImageBillingHoldFailed))
  end.
(** The failure is recorded and the batch hidden from its owner. *)
Definition failSubmit (owner : BatchImageOwner) (job : BatchImageJob) (code message : string) (now : time) : ST world unit :=
  _ ← recordFailure (BatchID job) code message true now; hidePreUpstreamSubmitFailure owner job now.
(** The same once the hold is returned; [err] is answered. *)
Definition withdraw {A} (owner : BatchImageOwner) (job : BatchImageJob) (requestHash code message : string) (err : goerror) (now : time) : method A :=
  _ ←? releaseFailedSubmitHold job requestHash now;
  _ ← failSubmit owner job code message now;
  mret (Err err).

Definition pendingItemOf (batchID requestHash : string) (item : BatchImageSubmitItem) : BatchImageItem :=
  mkItem batchID (it_CustomID item) BatchImageItemStatusPending (Some requestHash)
    (Some (truncateBatchImageMessage (Prompt item) (maxPromptChars config))) None None None None 0 None None None.
Definition createPendingItems (batchID requestHash : string) (items : list BatchImageSubmitItem) : method unit :=
  onDB (BulkCreateBatchImageItems (map (pendingItemOf batchID requestHash) items)).

Definition abortOrphanProviderJob (provider : string) (job : BatchImageJob) (account : Account) (providerJob : BatchProviderJob) : ST world unit :=
  let orphan := { job with ProviderJobName := batchImageOptionalStringPtr (pj_ProviderJobName providerJob);
                           ProviderInputRef := batchImageOptionalStringPtr (pj_ProviderInputRef providerJob);
                           GCSInputURI := batchImageOptionalStringPtr (batchImageGCSRef provider (pj_ProviderInputRef providerJob)) } in
  _ ← atProvider (ProviderCancel provider orphan account);
  _ ← atProvider (ProviderCleanup provider orphan account CleanupTargetInput);
  _ ← onDB (AppendBatchImageEvent (BatchID job) "provider_job_aborted_after_submit");
  mret tt.

(** *** [Submit] *)

Definition inputOf (job : BatchImageJob) (req : BatchImageSubmitRequest) : BatchImageInput :=
  mkInput (BatchID job) (req_Model req) (BatchID job)
    (map (fun item => mkInputItem (it_CustomID item) (Prompt item) (ReferenceImages item)) (Items req))
    (ResponseMimeType req) (AspectRatio req) (ImageSize req) (Metadata req).
(** The parent of the batch: the one named, or that one's parent. *)
Definition resolveParent (owner : BatchImageOwner) (req : BatchImageSubmitRequest) : method (option string) :=
  match batchImageOptionalStringPtr (req_ParentBatchID req) with
  | None => mret (Ok None)
  | Some id =>
      parent ←? onDB (GetBatchImageJobByBatchIDForOwner (own_UserID owner) (own_APIKeyID owner) id);
      mret (Ok (match job_ParentBatchID parent with
                | Some p => if String.eqb (TrimSpace p) "" then Some id else batchImageOptionalStringPtr p
                | None => Some id
                end))
  end.
Definition jobParams (owner : BatchImageOwner) (req : BatchImageSubmitRequest) (provider : string) (account : Account)
    (price : BatchImagePricingSnapshot) (parent : option string) (idempotencyKey requestHash batchID : string) : CreateBatchImageJobParams :=
  mkCreate batchID (own_UserID owner) (Some (own_APIKeyID owner)) (Some (ID account)) provider (req_Model req) (req_TaskName req) parent
    BatchImageJobStatusCreated None None None None None (Z.of_nat (length (Items req))) 0 0 0
    (snap_EstimatedCost price) (Some (snap_HoldAmount price)) None (snap_BaseUnitPrice price) (snap_GroupRateMultiplier price)
    (snap_AccountRateMultiplier price) (snap_BatchDiscountMultiplier price) (snap_HoldMultiplier price) (snap_BillableUnitPrice price)
    (snap_HoldUnitPrice price) 1 "USD" (Some (BatchImageHoldRequestID batchID)) (batchImageOptionalStringPtr idempotencyKey)
    (Some requestHash) None (req_SessionID req) 0 None.

(** The job that the provider accepted is recorded and queued, or cancelled. *)
Definition recordSubmitted (provider : string) (account : Account) (job : BatchImageJob) (providerJob : BatchProviderJob) (now : time)
    : method BatchImagePublicBatch :=
  recorded ← onDB (UpdateBatchImageJobProviderSubmit
    (mkProviderSubmit (BatchID job) (pj_ProviderJobName providerJob) (pj_ProviderInputRef providerJob) (pj_ProviderOutputRef providerJob)
       (batchImageGCSRef provider (pj_ProviderInputRef providerJob)) (batchImageGCSRef provider (pj_ProviderOutputRef providerJob))) now);
  match recorded with
  | Err e => _ ← abortOrphanProviderJob provider job account providerJob; mret (Err e)
  | Ok _ =>
      enqueued ← onQueue (put (BatchID job));
      if negb (accepted enqueued) then
        _ ← recordFailure (BatchID job) "QUEUE_FAILED" (match enqueued with Err e => errorText e | Ok _ => "" end) false now;
        mret (Err (AppErr ErrBatchImageQueueFailed))
      else
        created ←? onDB (GetBatchImageJobByBatchID (BatchID job));
        mret (Ok (public created))
  end.
(** After the job was created and its hold reserved: the items, the provider, the queue. *)
Definition upload (owner : BatchImageOwner) (req : BatchImageSubmitRequest) (requestHash provider : string) (account : Account)
    (meanwhile : ST dbWorld unit) (now : time) (job : BatchImageJob) : method BatchImagePublicBatch :=
  created ← createPendingItems (BatchID job) requestHash (Items req);
  match created with
  | Err e => withdraw owner job requestHash "ITEM_CREATE_FAILED" (errorText e) (AppErr ErrBatchImageQueueFailed) now
  | Ok _ =>
      uploading ← onDB (TransitionBatchImageJobStatus (BatchID job) BatchImageJobStatusUploading (mkTransition "upload_started" None None) now);
      match uploading with
      | Err e =>
          if errors_Is e (AppErr ErrBatchImageInvalidTransition)
          then _ ←? releaseFailedSubmitHold job requestHash now; mret (Err e)
          else withdraw owner job requestHash "UPLOAD_TRANSITION_FAILED" (errorText e) e now
      | Ok _ =>
          let job := { job with job_Status := BatchImageJobStatusUploading } in
          submitted ← atProvider (ProviderSubmit provider job account (inputOf job req));
          _ ← onDB meanwhile;
          match submitted with
          | Err e =>
              let publicErr := batchImageProviderSubmitPublicError e in
              withdraw owner job requestHash (batchImageProviderSubmitRecordCode publicErr) (errorText e) (AppErr publicErr) now
          | Ok None =>
              withdraw owner job requestHash "PROVIDER_SUBMIT_FAILED" "provider job name missing" (AppErr ErrBatchImageProviderSubmitFailed) now
          | Ok (Some providerJob) =>
              if String.eqb (TrimSpace (pj_ProviderJobName providerJob)) "" then
                withdraw owner job requestHash "PROVIDER_SUBMIT_FAILED" "provider job name missing" (AppErr ErrBatchImageProviderSubmitFailed) now
              else recordSubmitted provider account job providerJob now
          end
      end
  end.
(** A new batch for a checked request. *)
Definition submitNew (owner : BatchImageOwner) (req : BatchImageSubmitRequest) (requestHash idempotencyKey : string)
    (newID : result goerror string) (meanwhile : ST dbWorld unit) (now : time) : method BatchImagePublicBatch :=
  let usable account := schedulable account (req_Model req) now in
  let supports name := SupportsAccount <$> provider_named name in
  match selectProviderAndAccount listAccounts usable supports owner (req_Provider req) with
  | Err e => mret (Err e)
  | Ok (provider, account) =>
      match resolvePricingSnapshot GetByIDLite GetByUserAndGroup ModelUnitPrice owner req provider account with
      | Err e => mret (Err e)
      | Ok price =>
          parent ←? resolveParent owner req;
          match newID with
          | Err e => mret (Err e)
          | Ok batchID =>
              job ←? onDB (CreateBatchImageJob numeric2010 numeric104
                             (jobParams owner req provider account price parent idempotencyKey requestHash batchID) batchID);
              reserved ← onDB (reserveBatchImageBalanceHold job requestHash);
              match reserved with
              | Err e =>
                  let code := if errors_Is e (AppErr ErrBatchImageInsufficientBalance) then "INSUFFICIENT_BALANCE" else "BILLING_HOLD_FAILED" in
                  _ ← failSubmit owner job code (errorText e) now; mret (Err e)
              | Ok _ => upload owner req requestHash provider account meanwhile now job
              end
          end
      end
  end.
(** A request whose key was used: the batch it made, which is queued again if it waits for the worker. *)
Definition resubmitted (existing : BatchImageJob) (requestHash : string) (now : time) : method BatchImagePublicBatch :=
  if negb (String.eqb (batchImageDerefString (RequestHash existing)) requestHash) then mret (Err (AppErr ErrBatchImageIdempotencyConflict))
  else if String.eqb (job_Status existing) BatchImageJobStatusSubmitted then
    r ← onQueue (put (BatchID existing));
    if accepted r then mret (Ok (public existing))
    else _ ← recordFailure (BatchID existing) "QUEUE_FAILED" (match r with Err e => errorText e | Ok _ => "" end) false now;
         mret (Err (AppErr ErrBatchImageQueueFailed))
  else mret (Ok (public existing)).
Definition Submit (owner : BatchImageOwner) (req : BatchImageSubmitRequest) (idempotencyKey : string) (newID : result goerror string)
    (meanwhile : ST dbWorld unit) (now : time) : method BatchImagePublicBatch :=
  if negb (cfg_Enabled config) then mret (Err (AppErr ErrBatchImageDisabled))
  else match validateSubmitRequest localOffset config req now with
  | Err e => mret (Err e)
  | Ok req =>
      match ensureGroupAllowsBatchImage GetByIDLite owner with
      | Err e => mret (Err e)
      | Ok _ =>
          let requestHash := HashBatchImageSubmitRequest req in
          let key := TrimSpace idempotencyKey in
          if String.eqb key "" then submitNew owner req requestHash key newID meanwhile now
          else
            existing ← onDB (GetBatchImageJobByIdempotencyKey (own_UserID owner) (own_APIKeyID owner) key);
            match existing with
            | Ok existing => resubmitted existing requestHash now
            | Err e =>
                if negb (errors_Is e (AppErr ErrBatchImageJobNotFound)) then mret (Err e)
                else submitNew owner req requestHash key newID meanwhile now
            end
      end
  end.

(** *** The other calls of an owner *)

Definition Get (owner : BatchImageOwner) (batchID : string) : method BatchImagePublicBatch :=
  job ←? onDB (GetBatchImageJobByBatchIDForOwner (own_UserID owner) (own_APIKeyID owner) batchID); mret (Ok (public job)).
Definition MarkDownloaded (owner : BatchImageOwner) (batchID : string) (now : time) : method unit :=
  job ←? onDB (GetBatchImageJobByBatchIDForOwner (own_UserID owner) (own_APIKeyID owner) batchID);
  onDB (MarkBatchImageDownloaded (BatchID job) now).
Definition DeleteRecord (owner : BatchImageOwner) (batchID : string) (now : time) : method unit :=
  job ←? onDB (GetBatchImageJobByBatchIDForOwner (own_UserID owner) (own_APIKeyID owner) batchID);
  if negb (isBatchImageProcessorDoneStatus (job_Status job)) then mret (Err (AppErr ErrBatchImageRecordDeleteNotReady))
  else onDB (MarkBatchImageJobUserDeleted (own_UserID owner) (own_APIKeyID owner) (BatchID job) now).
(** The items of a page, and whether there may be more. *)
Definition ListItems (owner : BatchImageOwner) (batchID status cursor : string) (limit : Z) : method (list BatchImagePublicItem * bool) :=
  let filter := let s := TrimSpace status in
    if oneOf s [""; "all"] then Some ""
    else if oneOf s ["succeeded"; "success"] then Some BatchImageItemStatusSuccess
    else if String.eqb s "pending" then Some BatchImageItemStatusPending
    else if String.eqb s "failed" then Some BatchImageItemStatusFailed
    else None in
  match filter with
  | None => mret (Err (AppErr ErrBatchImageInvalidItems))
  | Some filter =>
      let limit := if (limit <=? 0) || (500 <? limit) then 100 else limit in
      items ←? onDB (ListBatchImageItemsForOwner (own_UserID owner) (own_APIKeyID owner) batchID filter limit (parseBatchImageCursor cursor));
      mret (Ok (map BatchImageItemToPublic items, Z.of_nat (length items) =? limit))
  end.
(** A failed release is retried by the worker. *)
Definition releaseOrRetry (job : BatchImageJob) : method unit :=
  r ← onDB (releaseBatchImageBalanceHold job (batchImageDerefString (RequestHash job)));
  match r with
  | Ok _ => mret (Ok tt)
  | Err _ => _ ← enqueueBillingRetry (BatchID job); mret (Err (AppErr ErrBatchImageCancelFailed))
  end.
Definition Cancel (owner : BatchImageOwner) (batchID : string) (now : time) : method BatchImagePublicBatch :=
  let own := GetBatchImageJobByBatchIDForOwner (own_UserID owner) (own_APIKeyID owner) batchID in
  job ←? onDB own;
  if isBatchImageProcessorDoneStatus (job_Status job) then
    if String.eqb (job_Status job) BatchImageJobStatusFailed || String.eqb (job_Status job) BatchImageJobStatusCancelled
    then _ ←? releaseOrRetry job; mret (Ok (public job))
    else mret (Ok (public job))
  else if negb (String.eqb (batchImageDerefString (ProviderJobName job)) "") then
    match provider_named (Provider job) with
    | None => mret (Err (AppErr ErrBatchImageUnsupportedProvider))
    | Some _ =>
        match job_AccountID job with
        | None => mret (Err (AppErr ErrBatchImageCancelFailed))
        | Some id =>
            match GetByID id with
            | Err _ => mret (Err (AppErr ErrBatchImageCancelFailed))
            | Ok account =>
                cancelled ← atProvider (ProviderCancel (Provider job) job account);
                match cancelled with
                | Err _ => mret (Err (AppErr ErrBatchImageCancelFailed))
                | Ok _ =>
                    _ ← onDB (AppendBatchImageEvent (BatchID job) "job_cancel_requested");
                    enqueued ← onQueue (put (BatchID job));
                    if negb (accepted enqueued) then mret (Err (AppErr ErrBatchImageCancelFailed))
                    else updated ←? onDB own; mret (Ok (public updated))
                end
            end
        end
    end
  else
    _ ←? onDB (TransitionBatchImageJobStatus (BatchID job) BatchImageJobStatusCancelled (mkTransition "job_cancelled" None None) now);
    _ ←? releaseOrRetry job;
    updated ←? onDB own;
    mret (Ok (public updated)).
End Service.
