(* ===== verification/BatchRows.v ===== *)
(** * What the methods on batches do to rows and to the connection

    Three kinds of statements about the methods of [BatchJobs] under faults, each
    with the rules that build them from statements and transactions: [moves R], that
    every row moves along a relation and the balances stay; [failsIn E], that
    errors are those of [E] when those of the connection are; and [tame E], that
    the connection meets no other faults later. *)

From S2P Require Import Prelude Float64 Errors Subscription SubscriptionRepo AccountQuota Account.
From S2P Require Import UsageBilling UsageLedger BatchJobs BatchSettlement BatchLife.

Local Abbreviation dbWorld := (BatchJobs.store * list fault)%type.

(** ** What a method does to a row *)

(** Every row moves along [R], whatever fails, and the balances stay. *)
Section Rows.
Context (R : BatchImageJob -> BatchImageJob -> Prop) `{!PreOrder R}.
Definition rowsMove (s s' : BatchJobs.store) : Prop :=
  billing_db s' = billing_db s /\ forall b row, jobs s !! b = Some row -> exists row', jobs s' !! b = Some row' /\ R row row'.
Definition movesAt {A} (s : BatchJobs.store) (m : ST dbWorld A) : Prop := forall fs, rowsMove s (m (s, fs)).2.1.
Definition moves {A} (m : ST dbWorld A) : Prop := forall s, movesAt s m.

#[export] Instance rowsMove_preorder : PreOrder rowsMove.
Proof.
  split; [intros s; split; [done|]; intros b row Hb; by exists row|]. intros s1 s2 s3 [E1 H1] [E2 H2]. split; [congruence|].
  intros b row Hb. destruct (H1 _ _ Hb) as (r2 & Hb2 & R2). destruct (H2 _ _ Hb2) as (r3 & Hb3 & R3). exists r3. split; [done|]. by etransitivity.
Qed.
Lemma rowsMove_same s s' : billing_db s' = billing_db s -> jobs s' = jobs s -> rowsMove s s'.
Proof. intros E1 E2. split; [done|]. intros b row Hb. exists row. by rewrite E2. Qed.
Lemma movesAt_ret {A} s (a : A) : movesAt s (mret a).
Proof. intros fs. simpl. reflexivity. Qed.
Lemma movesAt_bind {A B} s (m : ST dbWorld A) (f : A -> ST dbWorld B) : movesAt s m -> (forall a, moves (f a)) -> movesAt s (m ≫= f).
Proof.
  intros Hm Hf fs. rewrite bind_run. specialize (Hm fs). destruct (m (s, fs)) as [a [s1 fs1]]. simpl in *. etransitivity; [exact Hm|apply Hf].
Qed.
Lemma movesAt_bind_ok {A B} s (m : ST dbWorld (result goerror A)) (f : A -> ST dbWorld (result goerror B)) :
  movesAt s m -> (forall a, moves (f a)) -> movesAt s (x ←? m; f x).
Proof. intros Hm Hf. apply movesAt_bind; [done|]. intros [a|e]; [apply Hf|]. intros s'. apply movesAt_ret. Qed.
Lemma movesAt_query {A} s (m : ST BatchJobs.store (result goerror A)) : rowsMove s (m s).2 -> movesAt s (query m).
Proof.
  intros Hm fs. destruct (query m (s, fs)) as [r [s' fs']] eqn:E. apply query_cases in E as [[-> _]|[-> _]]; [simpl; reflexivity|exact Hm].
Qed.
Lemma movesAt_translated {A} s nf cf (m : ST dbWorld (result goerror A)) : movesAt s m -> movesAt s (translated nf cf m).
Proof. intros Hm fs. rewrite translated_run. specialize (Hm fs). by destruct (m (s, fs)) as [[] []]. Qed.
Lemma movesAt_inTx {A} s (m : ST dbWorld (result goerror A)) : movesAt s m -> movesAt s (inTx m).
Proof.
  intros Hm fs. unfold inTx. remember (remote (fun s : BatchJobs.store => (tt, s)) (s, fs)) as begun eqn:Eb.
  assert (Hd : begun.2.1 = s) by (subst; by destruct fs as [|[] fs1]).
  destruct begun as [[u|e] [s1 fs1]]; simpl in Hd; subst s1; [|simpl; reflexivity]. specialize (Hm fs1).
  destruct (m (s, fs1)) as [[a|e] [s2 fs2]]; simpl in *; [|reflexivity]. destruct fs2 as [|[] fs3]; simpl; first [exact Hm|reflexivity].
Qed.
Lemma movesAt_event s b e : movesAt s (appendBatchImageEventWithSQL b e).
Proof. apply movesAt_query, rowsMove_same; apply event_jobs. Qed.
Lemma movesAt_getJob s b : movesAt s (GetBatchImageJobByBatchID b).
Proof. apply movesAt_translated, movesAt_query. simpl. reflexivity. Qed.
Lemma movesAt_selectStatus {A} s b (k : string -> ST dbWorld (result goerror A)) :
  (forall job, jobs s !! b = Some job -> movesAt s (k (job_Status job))) -> movesAt s (current ←? selectStatusForUpdate b; k current).
Proof.
  intros Hk fs. rewrite bind_ok_eq. unfold selectStatusForUpdate. rewrite bind_ok_eq. fold (GetBatchImageJobByBatchID b).
  destruct (GetBatchImageJobByBatchID b (s, fs)) as [[job|e] [s' fs']] eqn:E; apply getJob_cases in E as [-> E]; [by apply Hk|simpl; reflexivity].
Qed.
Lemma moves_update b cond f s : (forall job, jobs s !! b = Some job -> cond job = true -> R job (f job)) ->
  rowsMove s (stmt_updateJob b cond f s).2.
Proof.
  intros Hf. unfold stmt_updateJob. destruct (jobs s !! b) as [job|] eqn:E; [|simpl; reflexivity]. destruct (cond job) eqn:Ec; [|simpl; reflexivity].
  destruct s as [bd js its evs nj]. split; [done|]. intros b' j Hj. simpl in *. destruct (decide (b' = b)) as [->|].
  - rewrite E in Hj. injection Hj as <-. exists (f job). rewrite lookup_insert_eq. auto.
  - exists j. by rewrite lookup_insert_ne.
Qed.
Lemma movesAt_updateAndLog s b cond f missing event :
  (forall job, jobs s !! b = Some job -> cond job = true -> R job (f job)) -> movesAt s (updateAndLog b cond f missing event).
Proof.
  intros Hf. unfold updateAndLog. apply movesAt_bind_ok; [by apply movesAt_query, moves_update|]. intros n s1. destruct (n =? 0); [apply movesAt_ret|apply movesAt_event].
Qed.
End Rows.
Ltac moves_steps := cbv zeta; repeat lazymatch goal with
  | |- moves _ _ => intros ?
  | |- movesAt _ _ (mret _) => apply movesAt_ret; apply _
  | |- movesAt _ _ (bind_ok _ _) => apply movesAt_bind_ok; [apply _| |intros ?]
  | |- movesAt _ _ (mbind _ _) => apply movesAt_bind; [apply _| |intros ?]
  | |- movesAt _ _ (inTx _) => apply movesAt_inTx; [apply _|]
  | |- movesAt _ _ (translated _ _ _) => apply movesAt_translated
  | |- movesAt _ _ (appendBatchImageEventWithSQL _ _) => apply movesAt_event; apply _
  | |- movesAt _ _ (AppendBatchImageEvent _ _) => apply movesAt_event; apply _
  | |- movesAt _ _ (GetBatchImageJobByBatchID _) => apply movesAt_getJob; apply _
  | |- movesAt _ _ (match ?x with _ => _ end) => destruct x eqn:?
  | |- movesAt _ _ (query (stmt_updateJob _ _ _)) => apply movesAt_query; [apply _|]; apply moves_update; [apply _|]
  end.

(** The terms stay, and the status and the provider's name move along [Q]. *)
Definition moving (Q : string * option string -> string * option string -> Prop) (row row' : BatchImageJob) : Prop :=
  terms row' = terms row /\ Q (job_Status row, ProviderJobName row) (job_Status row', ProviderJobName row').
#[export] Instance moving_preorder Q : PreOrder Q -> PreOrder (moving Q).
Proof.
  intros HQ. split; [by intros row; split|]. intros a b c [E1 H1] [E2 H2]. split; [congruence|]. by etransitivity.
Qed.
(** Nothing changes, or the status becomes [to] from one of [from]. *)
Definition becomes (from : string -> Prop) (to : string) (a b : string * option string) : Prop := b = a \/ from a.1 /\ b = (to, a.2).
#[export] Instance becomes_preorder from to : PreOrder (becomes from to).
Proof.
  split; [by left|]. intros a b c [->|[H1 ->]] [->|[H2 ->]]; [by left|by right|by right|right; by split].
Qed.
Definition named (name : string) (a b : string * option string) : Prop := b = a \/ b = (BatchImageJobStatusSubmitted, Some name).
#[export] Instance named_preorder name : PreOrder (named name).
Proof. split; [by left|]. intros a b c [->| ->] [->| ->]; [by left|by right|by right|by right]. Qed.
#[export] Instance eq_moving_preorder : PreOrder (moving eq).
Proof. apply moving_preorder, _. Qed.

Lemma moves_createItem item : moves eq (createBatchImageItemWithSQL item).
Proof.
  unfold createBatchImageItemWithSQL. intros s. apply movesAt_translated, movesAt_query, rowsMove_same; try apply _; unfold stmt_insertItem; destruct s; by repeat case_match.
Qed.
Lemma moves_bulkCreate l : moves eq (BulkCreateBatchImageItems l).
Proof.
  unfold BulkCreateBatchImageItems. destruct l as [|item l]; [intros s; apply movesAt_ret, _|]. intros s. apply movesAt_inTx; [apply _|].
  revert s. change (moves eq (createItems (item :: l))). induction (item :: l) as [|i l' IH]; cbn [createItems]; intros s; moves_steps; [apply moves_createItem|apply IH].
Qed.
Lemma to_uploading status : CanTransitionBatchImageJob status BatchImageJobStatusUploading = true -> status = BatchImageJobStatusCreated.
Proof.
  unfold CanTransitionBatchImageJob, IsTerminalBatchImageJobStatus. destruct (_ || _); [done|].
  destruct (String.eqb_spec status BatchImageJobStatusCompleted) as [->|]; [done|]. destruct (String.eqb_spec status BatchImageJobStatusFailed) as [->|]; [done|].
  destruct (String.eqb_spec status BatchImageJobStatusCancelled) as [->|]; [done|]. destruct (String.eqb_spec status BatchImageJobStatusOutputDeleted) as [->|]; [done|].
  cbn [orb]. change (String.eqb BatchImageJobStatusUploading BatchImageJobStatusFailed) with false. cbv iota.
  destruct (decide (status ∈ [BatchImageJobStatusCreated; BatchImageJobStatusUploading; BatchImageJobStatusSubmitted; BatchImageJobStatusRunning;
    BatchImageJobStatusIndexing; BatchImageJobStatusSettling])) as [H|H].
  - repeat (apply elem_of_cons in H as [->|H]; [done|]). by apply not_elem_of_nil in H.
  - assert (allowedTransitions !! status = None) as ->; [|done]. apply not_elem_of_list_to_map_1. simpl. clear -H. set_solver.
Qed.
Lemma moves_upload b opts now :
  moves (moving (becomes (eq BatchImageJobStatusCreated) BatchImageJobStatusUploading)) (TransitionBatchImageJobStatus b BatchImageJobStatusUploading opts now).
Proof.
  intros s. apply movesAt_inTx; [apply _|]. apply movesAt_selectStatus; [apply _|]. intros job Hj. moves_steps.
  intros job' Hj' _. rewrite Hj in Hj'. injection Hj' as <-. apply negb_false_iff in Heqb0. apply to_uploading in Heqb0. destruct job; simpl in *.
  split; [done|]. right. by subst.
Qed.
Lemma moves_failure b code message now :
  moves (moving (becomes (fun _ => True) BatchImageJobStatusFailed)) (RecordBatchImageJobSubmitFailure b code message true now).
Proof. unfold RecordBatchImageJobSubmitFailure. moves_steps. intros [] _ _. split; [done|by right]. Qed.
Lemma moves_queueFailure b code message now : moves (moving eq) (RecordBatchImageJobSubmitFailure b code message false now).
Proof. unfold RecordBatchImageJobSubmitFailure. moves_steps. by intros [] _ _. Qed.
Lemma moves_userDeleted userID keyID b t : moves (moving eq) (MarkBatchImageJobUserDeleted userID keyID b t).
Proof. unfold MarkBatchImageJobUserDeleted. intros s. apply movesAt_updateAndLog; [apply _|]. by intros [] _ _. Qed.
Lemma moves_submitted params now : moves (moving (named (sub_ProviderJobName params))) (UpdateBatchImageJobProviderSubmit params now).
Proof.
  intros s. apply movesAt_inTx; [apply _|]. apply movesAt_selectStatus; [apply _|]. intros job Hj. moves_steps.
  intros [] _ _. split; [done|]. by right.
Qed.
(** A submission that is recorded is recorded with its name. *)
Lemma submitted_named params now s fs s' fs' : UpdateBatchImageJobProviderSubmit params now (s, fs) = (Ok tt, (s', fs')) ->
  exists row, jobs s' !! sub_BatchID params = Some row /\ ProviderJobName row = Some (sub_ProviderJobName params).
Proof.
  intros H. apply inTx_cases in H as [(_ & e & [=])|([] & H & _)].
  2: { unfold updateBatchImageJobProviderSubmitWithSQL. apply faithful_bind_ok; [apply faithful_bind_ok; [apply translated_faithful, query_faithful|intros ?; apply faithful_ret]|].
       intros st. destruct (negb _); [apply faithful_ret|]. apply faithful_bind_ok; [apply query_faithful|]. intros ?. apply query_faithful. }
  revert H. unfold updateBatchImageJobProviderSubmitWithSQL, selectStatusForUpdate. rewrite !bind_ok_eq. fold (GetBatchImageJobByBatchID (sub_BatchID params)).
  destruct (jobs s !! sub_BatchID params) as [row|] eqn:Ej.
  - rewrite (getJob_run _ _ _ Ej). unfold mret, ST_ret. destruct (negb _); [done|]. rewrite bind_ok_eq, query_run. unfold stmt_updateJob. rewrite Ej. cbn [anyJob fst snd].
    unfold appendBatchImageEventWithSQL. rewrite query_run. intros [= _ <-]. rewrite (proj1 (event_jobs _ _ _)). destruct s. simpl. rewrite lookup_insert_eq.
    eexists. split; [reflexivity|]. by destruct row.
  - unfold GetBatchImageJobByBatchID. rewrite translated_run, query_run. unfold stmt_selectJob. rewrite Ej. done.
Qed.

(** ** The errors of a connection *)

(** A fault whose error satisfies [E]. *)
Definition errorIn (E : goerror -> Prop) (f : fault) : Prop := match f with NoFault => True | FailBefore e | FailAfter e => E e end.
Definition faultsIn (E : goerror -> Prop) : list fault -> Prop := Forall (errorIn E).
(** Over such a connection a method fails with an error of [E] only, and leaves such a connection. *)
Definition failsIn {S A} (E : goerror -> Prop) (s : S) (m : ST (S * list fault) (result goerror A)) : Prop := forall fs, faultsIn E fs ->
  match (m (s, fs)).1 with Ok _ => True | Err e => E e end /\ faultsIn E (m (s, fs)).2.2.
Section Fails.
Context {S : Type} (E : goerror -> Prop).
Lemma failsIn_ret {A} (s : S) (r : result goerror A) : match r with Ok _ => True | Err e => E e end -> failsIn E s (mret r).
Proof. by intros H fs Hfs. Qed.
Lemma failsIn_remote {A} (s : S) (m : ST S A) : failsIn E s (remote m).
Proof.
  intros fs Hfs. unfold remote. destruct (m s) as [a s']. destruct fs as [|f fs]; [done|]. apply Forall_cons in Hfs as [Hf Hfs]. by destruct f.
Qed.
Lemma failsIn_bind_ok {A B} (s : S) (m : ST (S * list fault) (result goerror A)) (f : A -> ST (S * list fault) (result goerror B)) :
  failsIn E s m -> (forall a fs s' fs', m (s, fs) = (Ok a, (s', fs')) -> failsIn E s' (f a)) -> failsIn E s (x ←? m; f x).
Proof.
  intros Hm Hf fs Hfs. rewrite bind_ok_eq. destruct (Hm fs Hfs) as [H1 H2]. destruct (m (s, fs)) as [[a|e] [s1 fs1]] eqn:Em; [by eapply Hf|done].
Qed.
Lemma failsIn_answer {A} (s : S) (m : ST S (result goerror A)) : (match (m s).1 with Ok _ => True | Err e => E e end) ->
  failsIn E s (r ← remote m; mret (match r with Ok a => a | Err e => Err e end)).
Proof.
  intros Hm fs Hfs. rewrite bind_run. destruct (failsIn_remote s m fs Hfs) as [H1 H2]. split; [|exact H2]. cbn [fst]. unfold remote in *.
  destruct (m s) as [a s']. destruct fs as [|f fs]; [exact Hm|]. by destruct f.
Qed.
End Fails.
Lemma withTx_fails {A} E d (body : ST (db * list fault) (result goerror (option A))) : failsIn E d body -> failsIn E d (withTx body).
Proof.
  intros Hb fs Hfs. unfold withTx. destruct (failsIn_remote E d (fun d => (tt, d)) fs Hfs) as [H1 H2].
  assert (Hd : (remote (fun d : db => (tt, d)) (d, fs)).2.1 = d) by (by destruct fs as [|[] ?]).
  destruct (remote _ (d, fs)) as [[u|e] [d1 fs1]]; cbn [fst snd] in *; [|done]. subst d1. destruct (Hb fs1 H2) as [H3 H4].
  destruct (body (d, fs1)) as [[[a|]|e] [d2 fs2]]; cbn [fst snd] in *; [|done|done]. by apply failsIn_remote.
Qed.
(** Errors of a release other than that it was made before. *)
Definition notConflict (e : goerror) : Prop := errors_Is e ErrUsageBillingRequestConflict = false.
Lemma insertClaim_new k fp d : claims d !! k = None -> stmt_insertClaim k fp d = (Ok true, addClaim k fp d).
Proof.
  intros H. unfold stmt_insertClaim. rewrite claims_lookup in H. destruct (usage_billing_dedup d !! k); [done|]. by destruct d.
Qed.
Lemma exec_ok {A} (m : ST db (result goerror A)) d fs a d' fs' : exec m (d, fs) = (Ok a, (d', fs')) -> m d = (Ok a, d').
Proof. unfold exec. rewrite bind_run. unfold remote. destruct (m d) as [[b|e] d1], fs as [|[] fs]; simpl; intros [=]; by subst. Qed.
Lemma exec_fails {A} E (m : ST db (result goerror A)) d : match (m d).1 with Ok _ => True | Err e => E e end -> failsIn E d (exec m).
Proof. apply failsIn_answer. Qed.
Lemma claim_fails rid key fp d : claims d !! ((rid, key) : claimKey) = None -> failsIn notConflict d (claimUsageBillingRequest rid key fp).
Proof.
  intros Hc. unfold claimUsageBillingRequest. cbv zeta. apply failsIn_bind_ok; [apply exec_fails; by rewrite (insertClaim_new _ _ _ Hc)|].
  intros a fs d1 fs1 H%exec_ok. rewrite (insertClaim_new _ _ _ Hc) in H. injection H as <- <-. cbn [negb]. apply failsIn_bind_ok; [by apply exec_fails|].
  intros a fs2 d2 fs3 H%exec_ok. injection H as <- <-. apply failsIn_ret. rewrite claims_lookup in Hc. unfold addClaim.
  destruct d. simpl in *. destruct (usage_billing_dedup !! _); [done|]. by apply fmap_None in Hc as ->.
Qed.
Lemma moveFunds_fails {money : Money} E id cond f refused d : E NumericOverflow -> E (AppErr ErrUserNotFound) -> E refused ->
  failsIn E d (moveFunds id cond f refused).
Proof.
  intros H1 H2 H3. unfold moveFunds. apply failsIn_bind_ok.
  - apply exec_fails. unfold stmt_updateUser. destruct (users d !! id) as [u|]; [|done]. destruct (negb (cond u)); [done|]. cbv zeta. by destruct (negb _).
  - intros [u|] ? ? ? _; [by apply failsIn_ret|]. apply failsIn_bind_ok; [by apply exec_fails|]. intros found ? ? ? _. apply failsIn_ret. by destruct (negb found).
Qed.
Lemma release_fails {money : Money} cmd d : failsIn notConflict d (releaseUsageBillingBatchImageBalance cmd).
Proof.
  unfold releaseUsageBillingBatchImageBalance, batchImageHoldClaimExists. cbv zeta. destruct (nonpositive _); [by apply failsIn_ret|].
  apply failsIn_bind_ok.
  - apply failsIn_bind_ok; [by apply exec_fails|]. intros [] ? ? ? _; [by apply failsIn_ret|]. apply failsIn_bind_ok; [by apply exec_fails|]. intros ? ? ? ? _. by apply failsIn_ret.
  - intros held ? ? ? _. destruct (negb held); [by apply failsIn_ret|]. by apply moveFunds_fails.
Qed.
(** A release command whose request is not claimed yet. *)
Lemma releaseHold_fails {money : Money} cmd d : TrimSpace (h_RequestID cmd) <> "" -> claims d !! holdKey cmd = None ->
  failsIn notConflict d (applyBatchImageBalanceHold Release cmd).
Proof.
  intros Hid Hc. unfold applyBatchImageBalanceHold. cbv zeta. pose proof (NormalizeHold_fields cmd) as Ek. injection Ek as E1 E2. rewrite E1, E2.
  destruct (String.eqb_spec (TrimSpace (h_RequestID cmd)) ""); [done|]. apply failsIn_bind_ok; [|intros ? ? ? ? _; by apply failsIn_ret].
  unfold claimed. apply withTx_fails. apply failsIn_bind_ok; [by apply claim_fails|]. intros applied ? ? ? _. destruct (negb applied); [by apply failsIn_ret|].
  apply failsIn_bind_ok; [apply release_fails|]. intros ? ? ? ? _. by apply failsIn_ret.
Qed.

(** A method leaves no other faults than it met. *)
Definition tame {S A} (E : fault -> Prop) (m : ST (S * list fault) A) : Prop := forall s fs, Forall E fs -> Forall E (m (s, fs)).2.2.
Section Tame.
Context {S : Type} (E : fault -> Prop).
Lemma tame_ret {A} (a : A) : tame (S := S) E (mret a).
Proof. by intros s fs H. Qed.
Lemma tame_remote {A} (m : ST S A) : tame E (remote m).
Proof.
  intros s fs Hfs. unfold remote. destruct (m s) as [a s']. destruct fs as [|f fs]; [done|]. apply Forall_cons in Hfs as [_ Hfs]. by destruct f.
Qed.
Lemma tame_bind {A B} (m : ST (S * list fault) A) (f : A -> ST (S * list fault) B) : tame E m -> (forall a, tame E (f a)) -> tame E (m ≫= f).
Proof. intros Hm Hf s fs Hfs. rewrite bind_run. specialize (Hm s fs Hfs). destruct (m (s, fs)) as [a [s1 fs1]]. by apply Hf. Qed.
Lemma tame_bind_ok {A B} (m : ST (S * list fault) (result goerror A)) (f : A -> ST (S * list fault) (result goerror B)) :
  tame E m -> (forall a, tame E (f a)) -> tame E (x ←? m; f x).
Proof. intros Hm Hf. apply tame_bind; [done|]. intros [a|e]; [apply Hf|apply tame_ret]. Qed.
End Tame.
Lemma tame_inTx {A} E (m : ST dbWorld (result goerror A)) : tame E m -> tame E (inTx m).
Proof.
  intros Hm s fs Hfs. unfold inTx. pose proof (tame_remote E (fun s : BatchJobs.store => (tt, s)) s fs Hfs) as H.
  destruct (remote _ (s, fs)) as [[u|e] [s1 fs1]]; [|exact H]. specialize (Hm s1 fs1 H). destruct (m (s1, fs1)) as [[a|e] [s2 fs2]]; [|exact Hm]. by apply tame_remote.
Qed.
Lemma tame_withTx {A} E (m : ST (db * list fault) (result goerror (option A))) : tame E m -> tame E (withTx m).
Proof.
  intros Hm s fs Hfs. unfold withTx. pose proof (tame_remote E (fun s : db => (tt, s)) s fs Hfs) as H.
  destruct (remote _ (s, fs)) as [[u|e] [s1 fs1]]; [|exact H]. specialize (Hm s1 fs1 H). destruct (m (s1, fs1)) as [[[a|]|e] [s2 fs2]]; [|exact Hm|exact Hm]. by apply tame_remote.
Qed.
Lemma tame_onBilling {A} E (m : ST (db * list fault) (result goerror A)) : tame E m -> tame E (onBilling m).
Proof. intros Hm s fs Hfs. unfold onBilling. specialize (Hm (billing_db s) fs Hfs). by destruct (m _) as [r [d fs']]. Qed.
(** A transaction that fails leaves everything as it was, unless its COMMIT was answered by an error after it took effect. *)
Lemma inTx_failed {A} E (m : ST dbWorld (result goerror A)) s fs e s' fs' : tame E m -> Forall E fs ->
  inTx m (s, fs) = (Err e, (s', fs')) -> s' = s \/ exists e, E (FailAfter e).
Proof.
  intros Hm Hfs. unfold inTx. pose proof (tame_remote E (fun s : BatchJobs.store => (tt, s)) s fs Hfs) as H.
  assert (Hd : (remote (fun s : BatchJobs.store => (tt, s)) (s, fs)).2.1 = s) by (by destruct fs as [|[] ?]).
  destruct (remote _ (s, fs)) as [[u|e0] [s1 fs1]]; cbn [fst snd] in *; subst s1; [|intros [= _ <- _]; by left].
  specialize (Hm s fs1 H). destruct (m (s, fs1)) as [[a|e1] [s2 fs2]]; cbn [fst snd] in *; [|intros [= _ <- _]; by left].
  destruct fs2 as [|[|e2|e2] fs3]; cbn; [done|done|intros [= _ <- _]; by left|]. apply Forall_cons in Hm as [He _]. intros _. right. by exists e2.
Qed.
Ltac tame_steps := cbv zeta; repeat lazymatch goal with
  | |- tame _ (mret _) => apply tame_ret
  | |- tame _ (remote _) => apply tame_remote
  | |- tame _ (bind_ok _ _) => apply tame_bind_ok; [|intros ?]
  | |- tame _ (mbind _ _) => apply tame_bind; [|intros ?]
  | |- tame _ (inTx _) => apply tame_inTx
  | |- tame _ (withTx _) => apply tame_withTx
  | |- tame _ (onBilling _) => apply tame_onBilling
  | |- tame _ (query _) => unfold query
  | |- tame _ (exec _) => unfold exec
  | |- tame _ (translated _ _ _) => unfold translated
  | |- tame _ (appendBatchImageEventWithSQL _ _) => unfold appendBatchImageEventWithSQL
  | |- tame _ (AppendBatchImageEvent _ _) => unfold AppendBatchImageEvent
  | |- tame _ (match ?x with _ => _ end) => destruct x eqn:?
  end.
Lemma tame_bulkCreate E l : tame E (BulkCreateBatchImageItems l).
Proof.
  unfold BulkCreateBatchImageItems. destruct l as [|item l]; [apply tame_ret|]. apply tame_inTx.
  induction (item :: l) as [|i l' IH]; cbn [createItems]; unfold createBatchImageItemWithSQL; tame_steps. apply IH.
Qed.
Lemma tame_transition E b to opts now : tame E (TransitionBatchImageJobStatus b to opts now).
Proof. unfold TransitionBatchImageJobStatus, transitionBatchImageJobStatusWithSQL, selectStatusForUpdate. tame_steps. Qed.
Lemma tame_submit E params now : tame E (UpdateBatchImageJobProviderSubmit params now).
Proof. unfold UpdateBatchImageJobProviderSubmit, updateBatchImageJobProviderSubmitWithSQL, selectStatusForUpdate. tame_steps. Qed.
Lemma tame_failure E b code message failed now : tame E (RecordBatchImageJobSubmitFailure b code message failed now).
Proof. unfold RecordBatchImageJobSubmitFailure. tame_steps. Qed.
Lemma tame_touch E b now : tame E (TouchBatchImageJobSubmitting b now).
Proof. unfold TouchBatchImageJobSubmitting. tame_steps. Qed.
Lemma tame_release {money : Money} E cmd : tame E (ReleaseBatchImageBalance cmd).
Proof.
  unfold ReleaseBatchImageBalance, applyBatchImageBalanceHold, claimed, claimUsageBillingRequest, holdEffects, releaseUsageBillingBatchImageBalance,
    batchImageHoldClaimExists, moveFunds. tame_steps.
Qed.
Lemma tame_releaseHold {money : Money} E job hash : tame E (releaseBatchImageBalanceHold job hash).
Proof. unfold releaseBatchImageBalanceHold. tame_steps. apply tame_release. Qed.
(** A submission that is not recorded leaves the batch alone, or its COMMIT was answered by an error. *)
Lemma submit_failed E params now s fs : Forall E fs -> let '(r, (s', fs')) := UpdateBatchImageJobProviderSubmit params now (s, fs) in
  forall e, r = Err e -> s' = s \/ exists e, E (FailAfter e).
Proof.
  intros Hfs. destruct (UpdateBatchImageJobProviderSubmit params now (s, fs)) as [r [s' fs']] eqn:H. intros e ->. apply (inTx_failed E) in H; [done| |done].
  unfold updateBatchImageJobProviderSubmitWithSQL, selectStatusForUpdate. tame_steps.
Qed.
Lemma tame_getJob E b : tame E (GetBatchImageJobByBatchID b).
Proof. unfold GetBatchImageJobByBatchID. tame_steps. Qed.
