(* ===== verification/BatchPublic.v ===== *)
(** * What a submission promises

    Theorems about [Submit] and [Cancel] of [BatchSubmit], under any faults of the
    database: a provider never keeps a job that the gateway does not know of, the
    money held for a batch is never left behind, a repeated request does nothing;
    and what a submission and a cancellation do when nothing fails. *)

From S2P Require Import Prelude Float64 Errors Subscription SubscriptionRepo AccountQuota Account.
From S2P Require Import UsageBilling UsageLedger BatchJobs BatchIndex BatchSettlement BatchLife BatchQueue BatchRequest BatchSubmit BatchRows.

Local Abbreviation dbWorld := (BatchJobs.store * list fault)%type.

(** ** No orphans at the provider *)

(** What a provider was told: the batch jobs that it accepted, and the cancellations asked of it. *)
Inductive call :=
| AcceptedJob (batchID provider name : string)
| CancelAsked (batchID provider : string) (name : option string).
(** A provider that remembers this. *)
Definition remembering {P} (prov : Providers P) : Providers (P * list call) := {|
  ProviderSubmit := fun provider job account input '(p, l) =>
    let '(r, p) := ProviderSubmit provider job account input p in
    (r, (p, match r with
            | Ok (Some pj) => if String.eqb (TrimSpace (pj_ProviderJobName pj)) "" then l else AcceptedJob (BatchID job) provider (pj_ProviderJobName pj) :: l
            | _ => l
            end));
  ProviderCancel := fun provider job account '(p, l) =>
    let '(r, p) := ProviderCancel provider job account p in (r, (p, CancelAsked (BatchID job) provider (ProviderJobName job) :: l));
  ProviderCleanup := fun provider job account target '(p, l) => let '(r, p) := ProviderCleanup provider job account target p in (r, (p, l)) |}.
(** Every job that was accepted is named by its batch, or was cancelled. *)
Definition accountedFor (l : list call) (s : BatchJobs.store) : Prop := forall b provider name, AcceptedJob b provider name ∈ l ->
  (exists row, jobs s !! b = Some row /\ ProviderJobName row = Some name) \/ CancelAsked b provider (Some (TrimSpace name)) ∈ l.

Section World.
Context {money : Money} {penv : PublicEnv} {Q P : Type} `{!Queue Q} {prov : Providers P}.
Local Abbreviation world := (dbWorld * (Q * P))%type.

Lemma onDB_run {A} (m : ST dbWorld A) (d : dbWorld) (rest : Q * P) : onDB m (d, rest) = ((m d).1, ((m d).2, rest)).
Proof. unfold onDB. by destruct (m d). Qed.
Lemma bindDB {A B} (m : ST dbWorld A) (f : A -> ST world B) (d : dbWorld) (rest : Q * P) : (onDB m ≫= f) (d, rest) = f (m d).1 ((m d).2, rest).
Proof. by rewrite bind_run, onDB_run. Qed.
Lemma bindDB_ok {A B} (m : ST dbWorld (result goerror A)) (f : A -> ST world (result goerror B)) (d : dbWorld) (rest : Q * P) :
  (x ←? onDB m; f x) (d, rest) = match m d with (Ok a, d') => f a (d', rest) | (Err e, d') => (Err e, (d', rest)) end.
Proof. rewrite bind_ok_eq, onDB_run. by destruct (m d) as [[] ?]. Qed.
Lemma bindQueue {A B} (m : ST Q A) (f : A -> ST world B) (d : dbWorld) (q : Q) (p : P) : (onQueue m ≫= f) (d, (q, p)) = f (m q).1 (d, ((m q).2, p)).
Proof. rewrite bind_run. unfold onQueue. by destruct (m q). Qed.
Lemma bindProvider {A B} (m : ST P A) (f : A -> ST world B) (d : dbWorld) (q : Q) (p : P) :
  (atProvider m ≫= f) (d, (q, p)) = f (m p).1 (d, (q, (m p).2)).
Proof. rewrite bind_run. unfold atProvider. by destruct (m p). Qed.

(** A part of a submission that does not call the provider. *)
Definition quiet {A} (m : ST world A) : Prop := forall d q p, (m (d, (q, p))).2.2.2 = p.
Lemma quiet_ret {A} (a : A) : quiet (mret a).
Proof. by intros d q p. Qed.
Lemma quiet_bind {A B} (m : ST world A) (f : A -> ST world B) : quiet m -> (forall a, quiet (f a)) -> quiet (m ≫= f).
Proof. intros Hm Hf d q p. rewrite bind_run. specialize (Hm d q p). destruct (m (d, (q, p))) as [a [d' [q' p']]]. simpl in *. subst p'. apply Hf. Qed.
Lemma quiet_bind_ok {A B} (m : ST world (result goerror A)) (f : A -> ST world (result goerror B)) : quiet m -> (forall a, quiet (f a)) -> quiet (x ←? m; f x).
Proof. intros Hm Hf. apply quiet_bind; [done|]. intros [a|e]; [apply Hf|apply quiet_ret]. Qed.
Lemma quiet_onDB {A} (m : ST dbWorld A) : quiet (onDB m).
Proof. intros d q p. by rewrite onDB_run. Qed.
Lemma quiet_onQueue {A} (m : ST Q A) : quiet (onQueue m).
Proof. intros d q p. unfold onQueue. by destruct (m q). Qed.
End World.
Ltac quiet_steps := cbv zeta; repeat lazymatch goal with
  | |- quiet (mret _) => apply quiet_ret
  | |- quiet (bind_ok _ _) => apply quiet_bind_ok; [|intros ?]
  | |- quiet (mbind _ _) => apply quiet_bind; [|intros ?]
  | |- quiet (onDB _) => apply quiet_onDB
  | |- quiet (onQueue _) => apply quiet_onQueue
  | |- quiet (match ?x with _ => _ end) => destruct x eqn:?
  end.

Section Orphans.
Context {money : Money} {penv : PublicEnv} {Q P : Type} `{!Queue Q} {prov : Providers P}.
#[local] Existing Instance remembering.
Local Abbreviation world := (dbWorld * (Q * (P * list call)))%type.

Lemma quiet_release job hash now : quiet (Q := Q) (P := P * list call) (releaseFailedSubmitHold job hash now).
Proof. unfold releaseFailedSubmitHold, recordFailure, enqueueBillingRetry. quiet_steps. Qed.
Lemma quiet_failSubmit owner job code message now : quiet (Q := Q) (P := P * list call) (failSubmit owner job code message now).
Proof. unfold failSubmit, recordFailure, hidePreUpstreamSubmitFailure. quiet_steps. Qed.
Lemma quiet_withdraw {A} owner job hash code message err now : quiet (Q := Q) (P := P * list call) (withdraw (A := A) owner job hash code message err now).
Proof. unfold withdraw. quiet_steps; [apply quiet_release|apply quiet_failSubmit]. Qed.
Lemma accounted_nil s : accountedFor [] s.
Proof. intros b provider name H. by apply not_elem_of_nil in H. Qed.
Lemma quiet_accounted {A} (m : ST world A) d q p : quiet m -> let '(_, ((s', _), (_, (_, l)))) := m (d, (q, (p, []))) in accountedFor l s'.
Proof. intros Hm. specialize (Hm d q (p, [])). destruct (m _) as [a [[s' fs'] [q' [p' l]]]]. simpl in Hm. injection Hm as -> ->. apply accounted_nil. Qed.

Lemma recordSubmitted_accounted provider account job pj now d q p1 : TrimSpace (pj_ProviderJobName pj) <> "" ->
  let '(_, ((s', _), (_, (_, l)))) := recordSubmitted provider account job pj now (d, (q, (p1, [AcceptedJob (BatchID job) provider (pj_ProviderJobName pj)])))
  in accountedFor l s'.
Proof.
  intros Hn. destruct d as [s3 fs3]. unfold recordSubmitted. rewrite bindDB. set (params := mkProviderSubmit _ _ _ _ _ _).
  destruct (UpdateBatchImageJobProviderSubmit params now (s3, fs3)) as [[[]|e] [s4 fs4]] eqn:Eu; cbn [fst snd].
  - apply submitted_named in Eu as (row & Hrow & Hname). cbn [params sub_BatchID sub_ProviderJobName] in Hrow, Hname.
    assert (Hall : forall s', rowsMove (moving eq) s4 s' -> accountedFor [AcceptedJob (BatchID job) provider (pj_ProviderJobName pj)] s').
    { intros s' [_ Hm] b pr name Hin. apply list_elem_of_singleton in Hin. injection Hin as -> -> ->. left.
      destruct (Hm _ _ Hrow) as (row' & Hrow' & _ & E). exists row'. split; [done|]. injection E as _ <-. done. }
    rewrite bindQueue. destruct (put (BatchID job) q) as [r q1]. cbn [fst snd]. destruct (accepted r); cbn [negb].
    + rewrite bindDB_ok. destruct (GetBatchImageJobByBatchID (BatchID job) (s4, fs4)) as [[row2|e] [s5 fs5]] eqn:Eg; apply getJob_cases in Eg as [-> _]; apply Hall; reflexivity.
    + unfold recordFailure. rewrite !bind_run, onDB_run. cbn [fst snd]. destruct (RecordBatchImageJobSubmitFailure _ _ _ _ _ _) as [x [s5 fs5]] eqn:Er. cbn [fst snd].
      apply Hall. pose proof (moves_queueFailure (BatchID job) "QUEUE_FAILED"
        (sanitizeBatchImagePublicMessage (match r with Ok _ => "" | Err e => errorText e end)) now s4 fs4) as Hm. by rewrite Er in Hm.
  - rewrite bind_run. unfold abortOrphanProviderJob. cbv zeta. set (orphan := ({ job with ProviderJobName := _; ProviderInputRef := _; GCSInputURI := _ })).
    assert (Ho : BatchID orphan = BatchID job /\ ProviderJobName orphan = Some (TrimSpace (pj_ProviderJobName pj))).
    { subst orphan. destruct job. simpl. split; [done|]. unfold batchImageOptionalStringPtr. by destruct (String.eqb_spec (TrimSpace (pj_ProviderJobName pj)) ""). }
    clearbody orphan. destruct Ho as [Ho1 Ho2]. rewrite bindProvider. cbn [ProviderCancel remembering].
    destruct (ProviderCancel provider orphan account p1) as [r2 p2]. cbn [fst snd]. rewrite bindProvider. cbn [ProviderCleanup remembering].
    destruct (ProviderCleanup provider orphan account CleanupTargetInput p2) as [r3 p3]. cbn [fst snd].
    rewrite bindDB. destruct (AppendBatchImageEvent _ _ _) as [x [s5 fs5]]. cbn [fst snd]. rewrite Ho1, Ho2.
    intros b pr name Hin. apply elem_of_cons in Hin as [|Hin]; [done|]. apply list_elem_of_singleton in Hin. injection Hin as -> -> ->. right. by left.
Qed.
Lemma upload_accounted owner req hash provider account meanwhile now job d q p :
  let '(_, ((s', _), (_, (_, l)))) := upload owner req hash provider account meanwhile now job (d, (q, (p, []))) in accountedFor l s'.
Proof.
  unfold upload, createPendingItems. rewrite bindDB. destruct (BulkCreateBatchImageItems _ d) as [[u|e] d1]; cbn [fst snd]; [|apply quiet_accounted, quiet_withdraw].
  rewrite bindDB. destruct (TransitionBatchImageJobStatus _ _ _ _ d1) as [[u1|e] d2]; cbn [fst snd].
  2: { apply quiet_accounted. destruct (errors_Is _ _); [|apply quiet_withdraw]. apply quiet_bind_ok; [apply quiet_release|]. intros ?. apply quiet_ret. }
  cbv zeta. rewrite bindProvider. set (job' := ({ job with job_Status := BatchImageJobStatusUploading })). clearbody job'. cbn [ProviderSubmit remembering].
  destruct (ProviderSubmit provider job' account (inputOf job' req) p) as [r p1]. cbn [fst snd]. rewrite bindDB. destruct (meanwhile d2) as [u2 d3]. cbn [fst snd].
  destruct r as [[pj|]|e]; [|apply quiet_accounted, quiet_withdraw|apply quiet_accounted, quiet_withdraw].
  destruct (String.eqb_spec (TrimSpace (pj_ProviderJobName pj)) "") as [|Hn]; [apply quiet_accounted, quiet_withdraw|]. by apply recordSubmitted_accounted.
Qed.

(** C9: A provider never works for nothing: whatever fails in the database and whatever else happens to
    it while the provider is asked, once [Submit] returns, every job that a provider accepted is either
    recorded with its name in the row of the batch, or the provider was told to cancel it. *)
Theorem no_orphan owner req idempotencyKey newID meanwhile now d q p :
  let '(_, ((s', _), (_, (_, l)))) := Submit owner req idempotencyKey newID meanwhile now (d, (q, (p, []))) in accountedFor l s'.
Proof.
  assert (Hnew : forall r hash key d, let '(_, ((s', _), (_, (_, l)))) := submitNew owner r hash key newID meanwhile now (d, (q, (p, []))) in accountedFor l s').
  { intros r hash key d0. unfold submitNew. cbv zeta. destruct (selectProviderAndAccount _ _ _ _ _) as [[provider account]|e]; [|destruct d0; apply accounted_nil].
    destruct (resolvePricingSnapshot _ _ _ _ _ _ _) as [price|e]; [|destruct d0; apply accounted_nil]. rewrite bind_ok_eq.
    destruct (resolveParent owner r (d0, (q, (p, [])))) as [x [d1 [q1 p1]]] eqn:Er.
    assert (Hq : quiet (Q := Q) (P := P * list call) (resolveParent owner r) /\ q1 = q).
    { split; [unfold resolveParent; quiet_steps|]. revert Er. unfold resolveParent. destruct (batchImageOptionalStringPtr _); [|by intros [= _ _ <- _]].
      rewrite bindDB_ok. destruct (GetBatchImageJobByBatchIDForOwner _ _ _ d0) as [[]]; by intros [= _ _ <- _]. }
    destruct Hq as [Hq ->]. specialize (Hq d0 q (p, [])). rewrite Er in Hq. simpl in Hq. subst p1. destruct x as [parent|e]; [|destruct d1; apply accounted_nil].
    destruct newID as [id|e]; [|destruct d1; apply accounted_nil]. rewrite bindDB_ok. destruct (CreateBatchImageJob _ _ _ _ d1) as [[job|e] d2]; [|destruct d2; apply accounted_nil].
    rewrite bindDB. destruct (reserveBatchImageBalanceHold job hash d2) as [[u|e] d3]; cbn [fst snd]; [apply upload_accounted|].
    apply quiet_accounted. apply quiet_bind; [apply quiet_failSubmit|]. intros ?. apply quiet_ret. }
  unfold Submit. destruct (negb _); [destruct d; apply accounted_nil|]. destruct (validateSubmitRequest _ _ _ _) as [r|e]; [|destruct d; apply accounted_nil].
  destruct (ensureGroupAllowsBatchImage _ _) as [u|e]; [|destruct d; apply accounted_nil]. cbv zeta. destruct (String.eqb _ ""); [apply Hnew|].
  rewrite bindDB. destruct (GetBatchImageJobByIdempotencyKey _ _ _ d) as [[existing|e] d1]; cbn [fst snd].
  - apply quiet_accounted. unfold resubmitted, recordFailure. quiet_steps.
  - destruct (negb _); [destruct d1; apply accounted_nil|apply Hnew].
Qed.
End Orphans.

(** ** Money that was held *)

Section Holds.
Context {money : Money} {penv : PublicEnv} {Q P : Type} `{!Queue Q} {prov : Providers P}.
Context (job : BatchImageJob) (key : Z).
Local Abbreviation world := (dbWorld * (Q * P))%type.

(** The hold of the batch was returned. *)
Definition released (s : BatchJobs.store) : Prop :=
  is_Some (claims (billing_db s) !! ((TrimSpace (BatchImageReleaseRequestID (BatchID job)), key) : claimKey)).
(** A batch of the key with something to hold. *)
Record chargeable : Prop := {
  ch_key : job_APIKeyID job = Some key /\ 0 < key;
  ch_id : TrimSpace (BatchImageReleaseRequestID (BatchID job)) <> "";
  ch_hold : positive (holdOf job) = true }.
Context (ch : chargeable).
(** The connection fails with errors of its own. *)
Definition driverFaults : list fault -> Prop := faultsIn notConflict.

Lemma same_terms job' : terms job' = terms job -> BatchID job' = BatchID job /\ job_APIKeyID job' = job_APIKeyID job /\ holdOf job' = holdOf job.
Proof. unfold terms, holdOf. intros E. injection E. intros. repeat split; congruence. Qed.
Lemma release_outcome job' hash s fs r s' fs' : terms job' = terms job -> driverFaults fs ->
  releaseBatchImageBalanceHold job' hash (s, fs) = (r, (s', fs')) ->
  jobs s' = jobs s /\ driverFaults fs' /\ (released s -> released s') /\ (r = Ok tt -> released s').
Proof.
  intros (Eb & Ek & Eh)%same_terms Hfs. destruct ch as [[Hk Hp] Hid Hh]. destruct (positive_not _ Hh) as [Hlt Hnp]. unfold releaseBatchImageBalanceHold, buildBatchImageHoldCommand.
  rewrite Ek, Hk. destruct (Z.leb_spec key 0); [lia|]. cbv zeta. rewrite Eh, Hlt, Eb. cbn [HoldAmount]. rewrite Hnp, bind_run.
  set (cmd := mkHold _ _ _ _ _ _ _ _). unfold onBilling. pose proof (tame_release (errorIn notConflict) cmd (billing_db s) fs Hfs) as Ht.
  destruct (ReleaseBatchImageBalance cmd (billing_db s, fs)) as [c [d1 fs1]] eqn:E. cbn [fst snd] in *.
  assert (Hrel : forall (x : BatchJobs.store) d, billing_db x = d -> is_Some (claims d !! holdKey cmd) <-> released x) by (intros x d <-; done).
  assert (Hfail : claims (billing_db s) !! holdKey cmd = None -> match c with Ok _ => True | Err e => notConflict e end).
  { intros Hn. pose proof (proj1 (releaseHold_fails cmd _ Hid Hn fs Hfs)) as Hx. unfold ReleaseBatchImageBalance in E. by rewrite E in Hx. }
  apply hold_cases in E. unfold mret, ST_ret. intros [= <- <- <-]. assert (Hd : billing_db { s with billing_db := d1 } = d1) by (by destruct s).
  split; [by destruct s|]. split; [done|]. rewrite <- (Hrel { s with billing_db := d1 } d1 Hd), <- (Hrel s (billing_db s) eq_refl).
  destruct E as [[-> Hc]|(Hn & a & He)].
  - split; [done|]. destruct c as [x|e]; [done|]. destruct (claims (billing_db s) !! holdKey cmd); [done|]. by rewrite (Hfail eq_refl).
  - pose proof (holdEffects_same Release (NormalizeHold cmd) (addClaim (holdKey cmd) (holdFingerprint cmd) (billing_db s)) []) as Hs. rewrite He in Hs.
    apply sameClaims_claims in Hs. cbn [fst snd] in Hs. rewrite Hs, claims_add, lookup_insert_eq. by split.
Qed.

(** What becomes of the hold of a batch: it was returned, or the batch waits for its provider without a
    name, where the recovery of stale batches finds it, or it is in the queue, running at its provider or
    ended, for the worker to settle or to return the hold.  Otherwise it waits for its owner: the answer of
    a COMMIT was lost, [unheard], that recorded the provider's job, or the queue [refused] the batch. *)
Section Caring.
Context (unheard refused : Prop).
Definition running (row : BatchImageJob) : Prop :=
  batchImageDerefString (ProviderJobName row) <> "" /\ IsTerminalBatchImageJobStatus (job_Status row) = false.
Definition withdrawn (row : BatchImageJob) : Prop := oneOf (job_Status row) [BatchImageJobStatusFailed; BatchImageJobStatusCancelled] = true.
Inductive cared (row : BatchImageJob) (s : BatchJobs.store) (q : Q) : Prop :=
| HoldReturned : released s -> cared row s q
| ToBeRecovered : unsubmitted row = true -> ProviderJobName row = None -> cared row s q
| InTheQueue : running row \/ withdrawn row -> inQueue (BatchID job) q -> cared row s q
| AnswerLost : unheard -> running row -> cared row s q
| QueueRefused : refused -> running row \/ withdrawn row -> cared row s q.
Definition secured (s : BatchJobs.store) (q : Q) : Prop :=
  exists row, jobs s !! BatchID job = Some row /\ terms row = terms job /\ cared row s q.
(** Only the loss of an answer makes [unheard] true. *)
Definition careFault (f : fault) : Prop := errorIn notConflict f /\ match f with FailAfter _ => unheard | _ => True end.
Lemma careFault_driver fs : Forall careFault fs -> driverFaults fs.
Proof. intros H. eapply Forall_impl; [exact H|]. by intros f [? _]. Qed.

(** *** Steps that keep a hold cared for *)

Lemma cared_same row row' s s' q q' : job_Status row' = job_Status row -> ProviderJobName row' = ProviderJobName row -> billing_db s' = billing_db s ->
  (inQueue (BatchID job) q -> inQueue (BatchID job) q') -> cared row s q -> cared row' s' q'.
Proof.
  intros E1 E2 E3 Hq [H|H1 H2|H1 H2|H1 H2|H1 H2]; [apply HoldReturned|apply ToBeRecovered|apply InTheQueue|apply AnswerLost|apply QueueRefused];
    unfold unsubmitted, released, running, withdrawn in *; rewrite ?E1, ?E2, ?E3; auto.
Qed.
Lemma secured_moves R s s' q : rowsMove (moving R) s s' ->
  (forall row row', R (job_Status row, ProviderJobName row) (job_Status row', ProviderJobName row') -> cared row s q -> cared row' s' q) ->
  secured s q -> secured s' q.
Proof.
  intros [_ Hm] Hc (row & Hrow & Ht & H). destruct (Hm _ _ Hrow) as (row' & Hrow' & Ht' & Hr). exists row'. split_and!; [done|congruence|by eapply Hc].
Qed.
Lemma secured_eq s s' q : rowsMove (moving eq) s s' -> secured s q -> secured s' q.
Proof. intros Hm. apply (secured_moves eq); [done|]. intros row row' [= E1 E2]. by apply cared_same; [| |apply Hm|]. Qed.
Lemma secured_queue s q q' : (inQueue (BatchID job) q -> inQueue (BatchID job) q') -> secured s q -> secured s q'.
Proof. intros Hq (row & Hrow & Ht & Hc). exists row. split_and!; [done|done|]. by eapply cared_same; [| | | |exact Hc]. Qed.
Lemma secured_released R s s' q : rowsMove (moving R) s s' -> released s -> secured s q -> secured s' q.
Proof.
  intros Hm Hr. apply (secured_moves R); [done|]. intros row row' _ _. apply HoldReturned. unfold released. by rewrite (proj1 Hm).
Qed.
Lemma rows_released R s s' : rowsMove (moving R) s s' -> released s -> released s'.
Proof. intros [E _]. unfold released. by rewrite E. Qed.
Lemma rows_jobs s s' q : jobs s' = jobs s -> (released s -> released s') -> secured s q -> secured s' q.
Proof.
  intros Ej Hr (row & Hrow & Ht & H). exists row. rewrite Ej. split_and!; [done|done|].
  destruct H; [apply HoldReturned|apply ToBeRecovered|apply InTheQueue|apply AnswerLost|apply QueueRefused]; auto.
Qed.
(** A batch that comes to run or to fail is put in the queue. *)
Lemma secured_put R s s' q : rowsMove (moving R) s s' -> soundQueue q -> (accepted (put (BatchID job) q).1 = false -> refused) ->
  (forall row row', R (job_Status row, ProviderJobName row) (job_Status row', ProviderJobName row') ->
     job_Status row' = job_Status row /\ ProviderJobName row' = ProviderJobName row \/ running row' \/ withdrawn row') ->
  secured s q -> secured s' (put (BatchID job) q).2.
Proof.
  intros Hm Hq Hr HR (row & Hrow & Ht & Hc). destruct (proj2 Hm _ _ Hrow) as (row' & Hrow' & Ht' & Hst). exists row'. split_and!; [done|congruence|].
  destruct (HR _ _ Hst) as [[E1 E2]|H].
  - eapply cared_same; [exact E1|exact E2|apply Hm|by apply put_keeps|exact Hc].
  - destruct (accepted (put (BatchID job) q).1) eqn:Ea; [apply InTheQueue; [done|by apply put_queues]|apply QueueRefused; auto].
Qed.

(** The world while a submission runs: nothing was put in the queue yet. *)
Definition guarded (w : world) : Prop := let '((s, fs), (q, p)) := w in
  secured s q /\ Forall careFault fs /\ soundQueue q /\ (accepted (put (BatchID job) q).1 = false -> refused).
Definition settled (w : world) : Prop := released w.1.1.
Definition securedWorld (w : world) : Prop := secured w.1.1 w.2.1.
Lemma guarded_secured (w : world) : guarded w -> securedWorld w.
Proof. destruct w as [[s fs] [q p]]. by intros [H _]. Qed.

Lemma recordFailure_released b code message now (w : world) : guarded w -> settled w ->
  let w' := (recordFailure b code message true now w).2 in guarded w' /\ settled w'.
Proof.
  destruct w as [[s fs] [q p]]. intros (H1 & H2 & H3) Hr. unfold recordFailure. rewrite bindDB.
  pose proof (moves_failure b code (sanitizeBatchImagePublicMessage message) now s fs) as Hm.
  pose proof (tame_failure careFault b code (sanitizeBatchImagePublicMessage message) true now s fs H2) as Ht.
  destruct (RecordBatchImageJobSubmitFailure _ _ _ _ _ _) as [x [s1 fs1]]. cbn [fst snd] in *. simpl. split; [split_and!; [|done|apply H3..]|].
  - by eapply secured_released.
  - by eapply rows_released.
Qed.
Lemma failSubmit_guarded owner job' code message now (w : world) : guarded w -> settled w -> guarded (failSubmit owner job' code message now w).2.
Proof.
  intros Hw Hr. unfold failSubmit. rewrite bind_run. destruct (recordFailure_released (BatchID job') code message now w Hw Hr) as [Hw1 Hr1].
  destruct (recordFailure _ _ _ _ _ _) as [x w1]. cbn [fst snd] in *. unfold hidePreUpstreamSubmitFailure. destruct (ProviderJobName job'); [done|].
  destruct w1 as [[s fs] [q p]]. rewrite bindDB. destruct Hw1 as (H1 & H2 & H3).
  pose proof (moves_userDeleted (own_UserID owner) (own_APIKeyID owner) (BatchID job') now s fs) as Hm.
  assert (Ht : tame careFault (MarkBatchImageJobUserDeleted (own_UserID owner) (own_APIKeyID owner) (BatchID job') now))
    by (unfold MarkBatchImageJobUserDeleted, updateAndLog; tame_steps).
  specialize (Ht s fs H2). destruct (MarkBatchImageJobUserDeleted _ _ _ _ _) as [y [s1 fs1]]. cbn [fst snd] in *. simpl. split_and!; [|done|apply H3..]. by eapply secured_eq.
Qed.
Lemma releaseFailed_guarded job' hash now (w : world) : terms job' = terms job -> guarded w ->
  let '(r, w') := releaseFailedSubmitHold job' hash now w in securedWorld w' /\ (r = Ok tt -> guarded w' /\ settled w').
Proof.
  intros Ht. destruct w as [[s fs] [q p]]. intros (H1 & H2 & H3 & H4). unfold releaseFailedSubmitHold. rewrite bindDB.
  pose proof (tame_releaseHold careFault job' hash s fs H2) as Hf.
  destruct (releaseBatchImageBalanceHold job' hash (s, fs)) as [r [s1 fs1]] eqn:E. apply release_outcome in E as (Ej & _ & Hm & Hr); [|done|by apply careFault_driver]. cbn [fst snd] in *.
  pose proof (rows_jobs _ _ _ Ej Hm H1) as Hs. destruct r as [[]|e]; [split; [done|]; intros _; split; [by split_and!|by apply Hr]|].
  destruct (same_terms _ Ht) as (Eb & _ & _). rewrite bind_run. unfold recordFailure at 1. rewrite bindDB, Eb.
  set (msg := sanitizeBatchImagePublicMessage (errorText e)).
  pose proof (moves_failure (BatchID job) "BILLING_RELEASE_FAILED" msg now s1 fs1) as Hmv.
  destruct (RecordBatchImageJobSubmitFailure _ _ _ _ _ _) as [x [s2 fs2]]. cbn [fst snd] in *. cbn [mret ST_ret fst snd].
  rewrite bind_run. unfold enqueueBillingRetry. rewrite bindQueue.
  assert (Hput : secured s2 (put (BatchID job) q).2).
  { eapply secured_put; [exact Hmv|done|done| |exact Hs]. intros row row' [E|[_ E]]; injection E as E1 E2; [by left|]. right. right. unfold withdrawn. by rewrite E1. }
  destruct (accepted (put (BatchID job) q).1); [split; [exact Hput|done]|]. rewrite bindDB. unfold AppendBatchImageEvent.
  pose proof (movesAt_event (moving eq) s2 (BatchID job) "billing_retry_enqueue_failed" fs2) as He.
  destruct (appendBatchImageEventWithSQL _ _ (s2, fs2)) as [y [s3 fs3]]. split; [|done]. by eapply secured_eq.
Qed.
(** What the theorem below says of the end of a submission. *)
Definition careful (m : ST world (result goerror BatchImagePublicBatch)) (w : world) : Prop :=
  let '(r, w') := m w in securedWorld w' /\ forall batch, r = Ok batch -> inQueue (BatchID job) w'.2.1.
Lemma withdraw_careful owner job' hash code message err now w : terms job' = terms job -> guarded w -> careful (withdraw owner job' hash code message err now) w.
Proof.
  intros Ht Hw. unfold careful, withdraw. rewrite bind_ok_eq. pose proof (releaseFailed_guarded job' hash now w Ht Hw) as H.
  destruct (releaseFailedSubmitHold _ _ _ w) as [[[]|e] w1]; [|split; [apply H|done]]. destruct H as [_ [H1 H2]]; [done|]. rewrite bind_run.
  pose proof (failSubmit_guarded owner job' code message now w1 H1 H2) as H3. destruct (failSubmit _ _ _ _ _ w1) as [x w2]. split; [by apply guarded_secured|done].
Qed.
Lemma recordSubmitted_careful provider account job' pj now w : terms job' = terms job -> TrimSpace (pj_ProviderJobName pj) <> "" -> guarded w ->
  careful (recordSubmitted provider account job' pj now) w.
Proof.
  intros Hterm Hname. destruct (same_terms _ Hterm) as (Hid & _). destruct w as [[s3 fs3] [q p1]]. intros (Hw3 & Ht3 & Hsd & Hrf). unfold careful, recordSubmitted.
  rewrite bindDB. set (params := mkProviderSubmit _ _ _ _ _ _). pose proof (moves_submitted params now s3 fs3) as Hm4.
  pose proof (submit_failed careFault params now s3 fs3 Ht3) as Hx. destruct (UpdateBatchImageJobProviderSubmit params now (s3, fs3)) as [c [s4 fs4]]. cbn [fst snd] in *. rewrite Hid.
  assert (Hrun : forall row', ProviderJobName row' = Some (sub_ProviderJobName params) -> job_Status row' = BatchImageJobStatusSubmitted -> running row')
    by (intros row' E1 E2; split; [by rewrite E1|by rewrite E2]).
  destruct c as [u3|e].
  - assert (Hput : secured s4 (put (BatchID job) q).2).
    { eapply secured_put; [exact Hm4|done|done| |exact Hw3]. intros row row' [E|E]; injection E as E1 E2; [by left|]. right. left. by apply Hrun. }
    rewrite bindQueue. destruct (accepted (put (BatchID job) q).1) eqn:Ea; cbn [negb].
    + pose proof (put_queues (BatchID job) q Hsd Ea) as Hq. destruct (put (BatchID job) q) as [y q1]. cbn [fst snd] in *.
      rewrite bindDB_ok. destruct (GetBatchImageJobByBatchID (BatchID job) (s4, fs4)) as [[row|e] [s5 fs5]] eqn:Eg; apply getJob_cases in Eg as [-> _]; by split.
    + set (msg := match _ with Ok _ => "" | Err e => errorText e end). rewrite bind_run. unfold recordFailure. rewrite bindDB.
      pose proof (moves_queueFailure (BatchID job) "QUEUE_FAILED" (sanitizeBatchImagePublicMessage msg) now s4 fs4) as Hm5.
      destruct (RecordBatchImageJobSubmitFailure _ _ _ _ _ _) as [x [s5 fs5]]. split; [|done]. by eapply secured_eq.
  - rewrite bind_run. unfold abortOrphanProviderJob. cbv zeta. rewrite bindProvider. destruct (ProviderCancel _ _ _ p1) as [r2 p2]. cbn [fst snd].
    rewrite bindProvider. destruct (ProviderCleanup _ _ _ _ p2) as [r3 p3]. cbn [fst snd]. rewrite bindDB. unfold AppendBatchImageEvent.
    pose proof (movesAt_event (moving eq) s4 (BatchID job') "provider_job_aborted_after_submit" fs4) as Hm5.
    destruct (appendBatchImageEventWithSQL _ _ (s4, fs4)) as [x [s5 fs5]]. cbn [fst snd] in *. split; [|done]. eapply secured_eq; [exact Hm5|].
    destruct (Hx e eq_refl) as [->|(e' & _ & Hun)]; [done|]. eapply (secured_moves (named (sub_ProviderJobName params))); [exact Hm4| |exact Hw3].
    intros row row' [E|E] Hc; injection E as E1 E2; [by eapply cared_same; [| |apply Hm4| |exact Hc]|]. apply AnswerLost; [done|by apply Hrun].
Qed.
Lemma secured_uploading s1 s2 q : rowsMove (moving (becomes (eq BatchImageJobStatusCreated) BatchImageJobStatusUploading)) s1 s2 -> secured s1 q -> secured s2 q.
Proof.
  intros Hm. apply (secured_moves _ _ _ _ Hm). intros row row' [E|[E1 E]] Hc; injection E as E2 E3; cbn [fst snd] in *; [by eapply cared_same; [| |apply Hm| |exact Hc]|].
  assert (Hrun : running row -> running row') by (intros [H1 H2]; split; [by rewrite E3|by rewrite E2]).
  assert (Hcase : running row \/ withdrawn row -> running row') by (intros [H|H]; [auto|unfold withdrawn in H; by rewrite <- E1 in H]).
  destruct Hc as [H|H1 H2|H1 H2|H1 H2|H1 H2].
  - apply HoldReturned. by eapply rows_released.
  - apply ToBeRecovered; [unfold unsubmitted; by rewrite E2|by rewrite E3].
  - apply InTheQueue; auto.
  - apply AnswerLost; auto.
  - apply QueueRefused; auto.
Qed.
End Caring.

Lemma secured_weaken (u r u' r' : Prop) s q : (u -> u') -> (r -> r') -> secured u r s q -> secured u' r' s q.
Proof.
  intros Hu Hr (row & Hrow & Ht & Hc). exists row. split_and!; [done|done|].
  destruct Hc; [apply HoldReturned|apply ToBeRecovered|apply InTheQueue|apply AnswerLost|apply QueueRefused]; auto.
Qed.
(** What goes on beside a submission cares for the hold as well, whatever was lost or refused. *)
Definition surroundings (meanwhile : ST dbWorld unit) : Prop := forall unheard refused s fs q, secured unheard refused s q -> Forall (careFault unheard) fs ->
  secured unheard refused (meanwhile (s, fs)).2.1 q /\ Forall (careFault unheard) (meanwhile (s, fs)).2.2.
Context (meanwhile : ST dbWorld unit) (sur : surroundings meanwhile).
Lemma upload_careful unheard refused owner req hash provider account now (w : world) : unsubmitted job = true -> guarded unheard refused w ->
  careful unheard refused (upload owner req hash provider account meanwhile now job) w.
Proof.
  intros Hu. destruct w as [[s fs] [q p]]. intros (Hw & Hfs & Hsd & Hrf). unfold careful, upload, createPendingItems. rewrite bindDB. set (l := map _ _).
  pose proof (moves_bulkCreate l s fs) as Hm. pose proof (tame_bulkCreate (careFault unheard) l s fs Hfs) as Ht.
  destruct (BulkCreateBatchImageItems l (s, fs)) as [c [s1 fs1]]. cbn [fst snd] in *.
  assert (Hw1 : secured unheard refused s1 q).
  { destruct Hm as [Eb Hm]. destruct Hw as (row & Hrow & Hterm & Hc). destruct (Hm _ _ Hrow) as (row' & Hrow' & <-). exists row. split_and!; [done|done|].
    by eapply cared_same; [| | | |exact Hc]. }
  destruct c as [u|e]; [|by apply withdraw_careful]. rewrite bindDB. set (opts := mkTransition _ _ _).
  pose proof (secured_uploading unheard refused _ _ q (moves_upload (BatchID job) opts now s1 fs1) Hw1) as Hw2.
  pose proof (tame_transition (careFault unheard) (BatchID job) BatchImageJobStatusUploading opts now s1 fs1 Ht) as Ht2.
  destruct (TransitionBatchImageJobStatus _ _ _ _ (s1, fs1)) as [c [s2 fs2]]. cbn [fst snd] in *. destruct c as [u1|e].
  2: { destruct (errors_Is _ _); [|by apply withdraw_careful]. rewrite bind_ok_eq. pose proof (releaseFailed_guarded unheard refused job hash now ((s2, fs2), (q, p)) eq_refl) as H.
       destruct (releaseFailedSubmitHold _ _ _ _) as [[[]|e'] w']; (split; [by apply H; split_and!|done]). }
  cbv zeta. set (job' := ({ job with job_Status := BatchImageJobStatusUploading })).
  assert (Hterm : terms job' = terms job) by (subst job'; by destruct job). clearbody job'.
  rewrite bindProvider. destruct (ProviderSubmit _ _ _ _ p) as [r p1]. cbn [fst snd]. rewrite bindDB.
  destruct (sur _ _ s2 fs2 q Hw2 Ht2) as [Hw3 Ht3]. destruct (meanwhile (s2, fs2)) as [u2 [s3 fs3]]. cbn [fst snd] in *.
  destruct r as [[pj|]|e]; [|by apply withdraw_careful|by apply withdraw_careful].
  destruct (String.eqb_spec (TrimSpace (pj_ProviderJobName pj)) "") as [|Hname]; [by apply withdraw_careful|by apply recordSubmitted_careful].
Qed.

Definition answerLost (f : fault) : Prop := match f with FailAfter _ => True | _ => False end.
(** C8: The money held for a batch is not left behind. From the hold on, whatever fails in the database
    and the queue and whatever the provider answers, when the submission returns the hold was returned, or
    the batch waits for its provider without a name and the recovery of stale batches will find it, or it
    is in the queue for the worker, as running at its provider or as ended. There are two exceptions,
    [AnswerLost] and [QueueRefused]: the answer to a COMMIT was lost and the batch is recorded with its
    provider job all the same, or the queue refused the batch; then it waits for its owner. A submission
    that succeeds leaves the batch in the queue. *)
Theorem hold_never_stranded owner req hash provider account now s fs q p : driverFaults fs -> soundQueue q ->
  jobs s !! BatchID job = Some job -> unsubmitted job = true -> ProviderJobName job = None ->
  let '(r, ((s', _), (q', _))) := upload owner req hash provider account meanwhile now job ((s, fs), (q, p)) in
  secured (Exists answerLost fs) (accepted (put (BatchID job) q).1 = false) s' q' /\ forall batch, r = Ok batch -> inQueue (BatchID job) q'.
Proof.
  intros Hfs Hsd Hj Hu Hn. set (unheard := Exists answerLost fs). set (refused := accepted _ = false).
  enough (H : careful unheard refused (upload owner req hash provider account meanwhile now job) ((s, fs), (q, p))).
  { unfold careful in H. destruct (upload _ _ _ _ _ _ _ _ _) as [r [[s' fs'] [q' p']]]. exact H. }
  apply upload_careful; [done|]. split_and!; [exists job; split_and!; [done|done|by apply ToBeRecovered]| |done|done].
  unfold driverFaults, faultsIn in Hfs. rewrite Forall_forall in Hfs. apply Forall_forall. intros f Hf. split; [by apply Hfs|].
  destruct f as [|e|e]; [done|done|]. apply Exists_exists. by exists (FailAfter e).
Qed.
(** The heartbeat of a submission cares for the hold. *)
Definition heartbeat (at_ : time) : ST dbWorld unit := _ ← TouchBatchImageJobSubmitting (BatchID job) at_; mret tt.
Lemma heartbeat_surroundings at_ : surroundings (heartbeat at_).
Proof.
  intros unheard refused s fs q Hw Hfs. unfold heartbeat. rewrite bind_run.
  assert (Hm : moves (moving eq) (TouchBatchImageJobSubmitting (BatchID job) at_)) by (unfold TouchBatchImageJobSubmitting; moves_steps; by intros [] _ _).
  specialize (Hm s fs). pose proof (tame_touch (careFault unheard) (BatchID job) at_ s fs Hfs) as Ht.
  destruct (TouchBatchImageJobSubmitting _ _ (s, fs)) as [r [s1 fs1]]. cbn [mret ST_ret fst snd] in *. split; [by eapply secured_eq|done].
Qed.
End Holds.

(** ** A repeated request *)

(** The database gains no batch and no item. *)
Definition sameBatches (s s' : BatchJobs.store) : Prop := dom (jobs s') = dom (jobs s) /\ items s' = items s /\ billing_db s' = billing_db s.
#[export] Instance sameBatches_preorder : PreOrder sameBatches.
Proof. split; [by intros s|]. intros a b c (?&?&?) (?&?&?). split_and!; congruence. Qed.
Lemma query_relates {A} (R : BatchJobs.store -> BatchJobs.store -> Prop) `{!PreOrder R} (m : ST BatchJobs.store (result goerror A)) s fs :
  R s (m s).2 -> R s (query m (s, fs)).2.1.
Proof. intros H. destruct (query m (s, fs)) as [r [s' fs']] eqn:E. apply query_cases in E as [[-> _]|[-> _]]; [simpl; reflexivity|exact H]. Qed.
Lemma event_sameBatches b e s : sameBatches s (stmt_insertEvent b e s).2.
Proof. unfold stmt_insertEvent. destruct (jobs s !! b); [|simpl; reflexivity]. by destruct s. Qed.
Lemma update_sameBatches b cond f s : sameBatches s (stmt_updateJob b cond f s).2.
Proof.
  unfold stmt_updateJob. destruct (jobs s !! b) as [row|] eqn:E; [|simpl; reflexivity]. destruct (cond row); [|simpl; reflexivity].
  destruct s. split_and!; [|done|done]. simpl in *. apply dom_insert_lookup_L. by rewrite E.
Qed.
Lemma failure_sameBatches b code message failed now s fs : sameBatches s (RecordBatchImageJobSubmitFailure b code message failed now (s, fs)).2.1.
Proof.
  unfold RecordBatchImageJobSubmitFailure. rewrite bind_ok_eq. match goal with |- context [query ?m (s, fs)] => pose proof (query_relates sameBatches m s fs (update_sameBatches _ _ _ s)) as H;
    destruct (query m (s, fs)) as [[n|e] [s1 fs1]] end; cbn [fst snd] in *; [|done]. etransitivity; [exact H|]. apply (query_relates _ _ _ _ (event_sameBatches _ _ _)).
Qed.

(** Every batch keeps its terms, its status and its provider's name. *)
Definition rowsStay : BatchJobs.store -> BatchJobs.store -> Prop := rowsMove (moving eq).
#[export] Instance rowsStay_preorder : PreOrder rowsStay.
Proof. apply rowsMove_preorder, _. Qed.

Section Again.
Context {money : Money} {penv : PublicEnv} {Q P : Type} `{!Queue Q} {prov : Providers P}.
(** Errors of the connection that do not say that a row is missing. *)
Definition notMissing (e : goerror) : Prop :=
  errors_Is e ErrNoRows = false /\ errors_Is e NotFoundError = false /\ errors_Is e (AppErr ErrBatchImageJobNotFound) = false.
(** The latest batch that the owner made under the key. *)
Definition batchOfKey (owner : BatchImageOwner) (key : string) (s : BatchJobs.store) : option BatchImageJob :=
  head (newest (fun _ => 0) (fun job => (job_UserID job =? own_UserID owner) && bool_decide (job_APIKeyID job = Some (own_APIKeyID owner)) &&
    bool_decide (job_IdempotencyKey job = Some key)) s).
Lemma getKey_cases owner key s fs : GetBatchImageJobByIdempotencyKey (own_UserID owner) (own_APIKeyID owner) key (s, fs) =
  match fs with
  | FailBefore e :: fs | FailAfter e :: fs => (Err (translatePersistenceError e (Some ErrBatchImageJobNotFound) None), (s, fs))
  | _ => (match batchOfKey owner key s with
          | Some job => Ok job
          | None => Err (AppErr (WithCause ErrBatchImageJobNotFound (Some ErrNoRows)))
          end, (s, tail fs))
  end.
Proof.
  unfold GetBatchImageJobByIdempotencyKey. rewrite translated_run. unfold query. rewrite bind_run. unfold remote, batchOfKey.
  destruct (newest _ _ s) as [|job l]; destruct fs as [|[] fs]; done.
Qed.
Lemma resubmitted_effect existing hash now s fs (q : Q) (p : P) :
  let '(r, ((s', _), (q', p'))) := resubmitted existing hash now ((s, fs), (q, p)) in
  sameBatches s s' /\ rowsStay s s' /\ p' = p /\ (q' = q \/ q' = (put (BatchID existing) q).2) /\
  forall batch, r = Ok batch -> batch = public existing /\ batchImageDerefString (RequestHash existing) = hash.
Proof.
  unfold resubmitted. destruct (String.eqb_spec (batchImageDerefString (RequestHash existing)) hash) as [Eh|]; cbn [negb].
  2: { split_and!; [reflexivity|reflexivity|done|by left|done]. }
  destruct (String.eqb _ _); [|split_and!; [reflexivity|reflexivity|done|by left|by intros ? [= <-]]].
  rewrite bindQueue. destruct (put (BatchID existing) q) as [r q1]. cbn [fst snd]. destruct (accepted r).
  - split_and!; [reflexivity|reflexivity|done|by right|by intros ? [= <-]].
  - rewrite bind_run. unfold recordFailure. rewrite bindDB. set (msg := sanitizeBatchImagePublicMessage _).
    pose proof (failure_sameBatches (BatchID existing) "QUEUE_FAILED" msg false now s fs) as H1. pose proof (moves_queueFailure (BatchID existing) "QUEUE_FAILED" msg now s fs) as H2.
    destruct (RecordBatchImageJobSubmitFailure _ _ _ _ _ _) as [x [s1 fs1]]. split_and!; [exact H1|exact H2|done|by right|done].
Qed.

(** Submitting again under an idempotency key that made a batch is harmless, whatever fails: it makes
    no batch and no item, holds no money, asks no provider for anything, and changes no batch but the note
    that it could not be queued; it succeeds only for the same request and then answers with that batch. *)
Theorem resubmit_harmless owner req idempotencyKey newID meanwhile now existing s fs q p :
  batchOfKey owner (TrimSpace idempotencyKey) s = Some existing -> TrimSpace idempotencyKey <> "" -> faultsIn notMissing fs ->
  let '(r, ((s', _), (q', p'))) := Submit owner req idempotencyKey newID meanwhile now ((s, fs), (q, p)) in
  sameBatches s s' /\ rowsStay s s' /\ p' = p /\ (q' = q \/ q' = (put (BatchID existing) q).2) /\
  forall batch, r = Ok batch -> batch = public existing /\ exists checked,
    validateSubmitRequest localOffset config req now = Ok checked /\ batchImageDerefString (RequestHash existing) = HashBatchImageSubmitRequest checked.
Proof.
  intros Hb Hk Hfs. unfold Submit. assert (Hno : forall e : goerror, let '(r, ((s', _), (q', p'))) := (Err e : result goerror BatchImagePublicBatch, ((s, fs), (q, p))) in
    sameBatches s s' /\ rowsStay s s' /\ p' = p /\ (q' = q \/ q' = (put (BatchID existing) q).2) /\
    forall batch, r = Ok batch -> batch = public existing /\ exists checked,
      validateSubmitRequest localOffset config req now = Ok checked /\ batchImageDerefString (RequestHash existing) = HashBatchImageSubmitRequest checked)
    by (intros e; split_and!; [reflexivity|reflexivity|done|by left|done]).
  destruct (negb _); [apply Hno|]. destruct (validateSubmitRequest localOffset config req now) as [r|e]; [|apply Hno].
  destruct (ensureGroupAllowsBatchImage _ _) as [u|e]; [|apply Hno]. cbv zeta. destruct (String.eqb_spec (TrimSpace idempotencyKey) ""); [done|].
  rewrite bindDB, getKey_cases, Hb. assert (Hfound : forall fs', let '(r0, ((s', _), (q', p'))) := resubmitted existing (HashBatchImageSubmitRequest r) now ((s, fs'), (q, p)) in
    sameBatches s s' /\ rowsStay s s' /\ p' = p /\ (q' = q \/ q' = (put (BatchID existing) q).2) /\
    forall batch, r0 = Ok batch -> batch = public existing /\ exists checked, (Ok r : result goerror BatchImageSubmitRequest) = Ok checked /\ batchImageDerefString (RequestHash existing) = HashBatchImageSubmitRequest checked).
  { intros fs'. pose proof (resubmitted_effect existing (HashBatchImageSubmitRequest r) now s fs' q p) as H.
    destruct (resubmitted _ _ _ _) as [r0 [[s' fs2] [q' p']]]. destruct H as (H1 & H2 & H3 & H4 & H5). split_and!; try done.
    intros batch Eb. destruct (H5 batch Eb) as [-> E]. split; [done|]. by exists r. }
  assert (Hmiss : forall e, notMissing e -> errors_Is (translatePersistenceError e (Some ErrBatchImageJobNotFound) None) (AppErr ErrBatchImageJobNotFound) = false)
    by (intros e (E1 & E2 & E3); unfold translatePersistenceError; by rewrite E1, E2).
  destruct fs as [|f fs]; [apply Hfound|]. apply Forall_cons in Hfs as [Hf _]. destruct f as [|e|e]; cbn [fst snd tail]; [apply Hfound| |];
    rewrite (Hmiss e Hf); split_and!; first [reflexivity|by left|done].
Qed.
End Again.

(** ** The queue of the worker *)

(** [Enqueue] of [BatchQueue] is the queue of a submission, over any connection. *)
Section RedisQueue.
Context {S : Type} `{RedisQueueSpec S} (o : batchImageQueueOptions) (keys : keysOk o).
Definition notQueued (e : goerror) : Prop := errors_Is e (AppErr ErrBatchImageAlreadyQueued) = false.
Definition queueSound (w : S * list fault) : Prop := (forall b, IsValidBatchImageID b = true -> tracked o b w.1) /\ faultsIn notQueued w.2.
Lemma enqueue_sound b w : queueSound w -> queueSound (Enqueue o b w).2.
Proof.
  destruct w as [s fs]. intros [Ht Hf]. split.
  - intros b' Hv. pose proof (happens_tracked o keys b' (EvEnqueue b) Hv I s fs (Ht b' Hv)) as Hx. simpl in Hx. unfold ignored in Hx. rewrite bind_run in Hx. exact Hx.
  - assert (Htame : tame (errorIn notQueued) (Enqueue o b)) by (unfold Enqueue, validated; tame_steps). by apply Htame.
Qed.
Lemma enqueue_keeps b b' w : queueSound w -> queued o b' w.1 -> queued o b' (Enqueue o b w).2.1.
Proof. destruct w as [s fs]. intros _. apply (queued_enqueue o keys b' b s fs). Qed.
Lemma enqueue_queues b w : queueSound w -> accepted (Enqueue o b w).1 = true -> queued o b (Enqueue o b w).2.1.
Proof.
  destruct w as [s fs]. intros [Ht Hf]. unfold Enqueue, validated. destruct (IsValidBatchImageID b) eqn:Hv; cbn [negb]; [|done]. rewrite bind_ok_eq.
  pose proof (tracked_enqueue o keys b s (Ht b Hv)) as [Hx|Hx].
  - exfalso. revert Hx. unfold batchImageEnqueueScript. rewrite bind_run. pose proof (keys_ttl o keys) as [Hl _].
    pose proof (setnx_txt (inflightKey o b) b _ s (inflightKey o b) Hl) as Hs. rewrite decide_True in Hs by done.
    destruct (SET_NX_PX _ _ _ s) as [[] s1]; cbn [mret ST_ret fst snd] in *; [|by rewrite Hs]. rewrite bind_run.
    destruct (lpush_frame (ReadyKey o) b s1 (inflightKey o b)) as [_ E]. destruct (LPUSH _ _ s1) as [u s2]. cbn [mret ST_ret fst snd] in *. by rewrite E, Hs.
  - unfold remote. destruct (batchImageEnqueueScript _ _ _ _ s) as [r s']. destruct fs as [|[|e|e] fs]; cbn [fst snd] in *; [done|done| |done].
    apply Forall_cons in Hf as [Hf _]. unfold accepted. by rewrite Hf.
Qed.
Definition redisQueue : Queue (S * list fault) := {|
  put := Enqueue o; inQueue := fun b w => queued o b w.1; soundQueue := queueSound;
  put_sound := enqueue_sound; put_keeps := enqueue_keeps; put_queues := enqueue_queues |}.
(** The same over a connection that does not fail: every batch with a valid id is accepted. *)
Definition reliablePut (b : string) : ST S (result goerror unit) := fun s => let '(r, (s', _)) := Enqueue o b (s, []) in (r, s').
Lemma reliable_eq b s : Enqueue o b (s, []) = ((reliablePut b s).1, ((reliablePut b s).2, [])).
Proof.
  unfold reliablePut, Enqueue, validated. destruct (negb _); [done|]. rewrite bind_ok_eq, remote_run. by destruct (batchImageEnqueueScript _ _ _ _ s) as [[] s'].
Qed.
Definition reliableSound (s : S) : Prop := queueSound (s, []).
Lemma reliable_sound b s : reliableSound s -> reliableSound (reliablePut b s).2.
Proof. intros Hs. apply (enqueue_sound b (s, [])) in Hs. by rewrite reliable_eq in Hs. Qed.
Lemma reliable_keeps b b' s : reliableSound s -> queued o b' s -> queued o b' (reliablePut b s).2.
Proof. intros Hs Hq. pose proof (enqueue_keeps b b' (s, []) Hs Hq) as Hk. by rewrite reliable_eq in Hk. Qed.
Lemma reliable_queues b s : reliableSound s -> accepted (reliablePut b s).1 = true -> queued o b (reliablePut b s).2.
Proof. intros Hs Ha. pose proof (enqueue_queues b (s, []) Hs) as Hk. rewrite reliable_eq in Hk. by apply Hk. Qed.
Definition reliableQueue : Queue S := {|
  put := reliablePut; inQueue := queued o; soundQueue := reliableSound;
  put_sound := reliable_sound; put_keeps := reliable_keeps; put_queues := reliable_queues |}.
Lemma reliable_accepts b s : IsValidBatchImageID b = true -> accepted (reliablePut b s).1 = true.
Proof.
  intros Hv. unfold reliablePut, Enqueue, validated. rewrite Hv. cbn [negb]. rewrite bind_ok_eq, remote_run.
  by destruct (batchImageEnqueueScript _ _ _ _ s) as [[] s'].
Qed.
End RedisQueue.

(** ** A submission that goes well *)

(** A method that succeeds and changes the row of one batch only. *)
Definition rowChanged {A} (m : ST dbWorld (result goerror A)) (a : A) (b : string) (row : BatchImageJob) (s s' : BatchJobs.store) : Prop :=
  m (s, []) = (Ok a, (s', [])) /\ jobs s' = <[b := row]> (jobs s) /\ items s' = items s /\ billing_db s' = billing_db s.
Lemma update_run b cond f s row : jobs s !! b = Some row -> cond row = true ->
  rowChanged (query (stmt_updateJob b cond f)) 1 b (f row) s { s with jobs := <[b := f row]> (jobs s) }.
Proof. intros Hr Hc. unfold rowChanged. rewrite query_run. unfold stmt_updateJob. rewrite Hr, Hc. by destruct s. Qed.
Lemma event_run b e s row : jobs s !! b = Some row -> exists s', appendBatchImageEventWithSQL b e (s, []) = (Ok tt, (s', [])) /\
  jobs s' = jobs s /\ items s' = items s /\ billing_db s' = billing_db s.
Proof.
  intros Hr. unfold appendBatchImageEventWithSQL. rewrite query_run. unfold stmt_insertEvent. rewrite Hr. eexists. split; [reflexivity|]. by destruct s.
Qed.
(** A change of status in a transaction: the status is read, the row updated, the event written. *)
Lemma statusChange_run b to f e s row : jobs s !! b = Some row -> CanTransitionBatchImageJob (job_Status row) to = true ->
  exists s', rowChanged (inTx (current ←? selectStatusForUpdate b;
    if negb (CanTransitionBatchImageJob current to) then mret (Err (AppErr ErrBatchImageInvalidTransition))
    else _ ←? query (stmt_updateJob b anyJob f); appendBatchImageEventWithSQL b e)) tt b (f row) s s'.
Proof.
  intros Hr Hc. destruct (update_run b anyJob f s row Hr eq_refl) as (E1 & E2 & E3 & E4). set (s1 := { s with jobs := <[b := f row]> (jobs s) }) in *.
  destruct (event_run b e s1 (f row)) as (s2 & F1 & F2 & F3 & F4); [rewrite E2; apply lookup_insert_eq|]. exists s2. split; [|split_and!; congruence].
  eapply inTx_run; [|reflexivity]. unfold selectStatusForUpdate. rewrite !bind_ok_eq. fold (GetBatchImageJobByBatchID b). rewrite (getJob_run _ _ _ Hr).
  unfold mret, ST_ret. rewrite Hc. cbn [negb]. by rewrite bind_ok_eq, E1, F1.
Qed.
Lemma uploading_run b e now s row : e <> "" -> jobs s !! b = Some row -> job_Status row = BatchImageJobStatusCreated ->
  exists s', rowChanged (TransitionBatchImageJobStatus b BatchImageJobStatusUploading (mkTransition e None None) now) tt b
    (transitionRow BatchImageJobStatusUploading now (mkTransition e None None) row) s s'.
Proof.
  intros He Hr Hs. destruct (statusChange_run b BatchImageJobStatusUploading (transitionRow BatchImageJobStatusUploading now (mkTransition e None None)) e s row Hr) as (s' & H).
  { by rewrite Hs. }
  exists s'. destruct H as [H1 H2]. split; [|exact H2]. rewrite <- H1. unfold TransitionBatchImageJobStatus, transitionBatchImageJobStatusWithSQL. cbn [EventType].
  by destruct (String.eqb_spec e "").
Qed.
(** The row once the provider accepted the job. *)
Definition submittedRow (params : UpdateBatchImageJobProviderSubmitParams) (now : time) (job : BatchImageJob) : BatchImageJob :=
  { job with job_Status := BatchImageJobStatusSubmitted; ProviderJobName := Some (sub_ProviderJobName params);
             ProviderInputRef := nullIfEmpty (sub_ProviderInputRef params); ProviderOutputRef := nullIfEmpty (sub_ProviderOutputRef params);
             GCSInputURI := nullIfEmpty (sub_GCSInputURI params); GCSOutputURI := nullIfEmpty (sub_GCSOutputURI params);
             SubmittedAt := setIfNull (SubmittedAt job) (Some now); job_UpdatedAt := now; Version := Version job + 1 }.
Lemma providerSubmit_run params now s row : jobs s !! sub_BatchID params = Some row -> job_Status row = BatchImageJobStatusUploading ->
  exists s', rowChanged (UpdateBatchImageJobProviderSubmit params now) tt (sub_BatchID params) (submittedRow params now row) s s'.
Proof. intros Hr Hs. apply (statusChange_run (sub_BatchID params) BatchImageJobStatusSubmitted (submittedRow params now) "provider_submitted" s row Hr). by rewrite Hs. Qed.

(** The batch that [params] describe. *)
Definition describes (p : CreateBatchImageJobParams) (job : BatchImageJob) : Prop :=
  (BatchID job, job_UserID job, job_APIKeyID job, job_AccountID job, Provider job, job_Model job, job_TaskName job, job_ParentBatchID job) =
    (new_BatchID p, new_UserID p, new_APIKeyID p, new_AccountID p, new_Provider p, new_Model p, new_TaskName p, new_ParentBatchID p) /\
  (ItemCount job, job_IdempotencyKey job, RequestHash job, job_SessionID job, EstimatedCost job, job_HoldAmount job, BillableUnitPrice job) =
    (new_ItemCount p, new_IdempotencyKey p, new_RequestHash p, new_SessionID p, new_EstimatedCost p, new_HoldAmount p, new_BillableUnitPrice p).
Lemma describes_terms p job job' : terms job' = terms job -> describes p job -> describes p job'.
Proof. unfold terms, describes. intros E [E1 E2]. injection E. injection E1. injection E2. intros. split; congruence. Qed.

Section Effect.
Context {money : Money} {penv : PublicEnv} {Q P : Type} `{!Queue Q} {prov : Providers P}.

(** Amounts that their columns keep. *)
Definition storable (price : BatchImagePricingSnapshot) : Prop :=
  Forall (fun f => numeric2010 f = Ok f) [snap_EstimatedCost price; snap_HoldAmount price; snap_BaseUnitPrice price; snap_BillableUnitPrice price; snap_HoldUnitPrice price] /\
  Forall (fun f => numeric104 f = Ok f) [snap_GroupRateMultiplier price; snap_AccountRateMultiplier price; snap_BatchDiscountMultiplier price; snap_HoldMultiplier price].
Lemma createJob_run owner req provider account price key hash id s : IsSupportedBatchImageProvider provider = true -> id <> "" -> storable price ->
  jobs s !! id = None -> let params := jobParams owner req provider account price None key hash id in
  exists job s', rowChanged (CreateBatchImageJob numeric2010 numeric104 params id) job id job s s' /\ describes params job /\
    job_Status job = BatchImageJobStatusCreated /\ ProviderJobName job = None /\ FinishedAt job = None /\ SubmittedAt job = None.
Proof.
  intros Hp Hid [H1 H2] Hn params. unfold CreateBatchImageJob. change (new_Provider params) with provider. rewrite Hp. cbn [negb].
  apply Forall_cons in H1 as [E1 H1]. apply Forall_cons in H1 as [E2 H1]. apply Forall_cons in H1 as [E3 H1]. apply Forall_cons in H1 as [E4 H1]. apply Forall_cons in H1 as [E5 _].
  apply Forall_cons in H2 as [F1 H2]. apply Forall_cons in H2 as [F2 H2]. apply Forall_cons in H2 as [F3 H2]. apply Forall_cons in H2 as [F4 _].
  assert (Ew : withDefaults params id = params) by (unfold withDefaults; cbn; by destruct (String.eqb_spec id "")). rewrite Ew.
  unfold rowChanged. rewrite translated_run, query_run. unfold stmt_insertJob. cbn [jobParams params new_EstimatedCost new_HoldAmount new_ActualCost new_BaseUnitPrice new_GroupRateMultiplier
    new_AccountRateMultiplier new_BatchDiscountMultiplier new_HoldMultiplier new_BillableUnitPrice new_HoldUnitPrice nullable]. rewrite E1, E2, E3, E4, E5, F1, F2, F3, F4.
  cbn [column]. change (new_BatchID params) with id. change (new_ManifestHash params) with (None (A := string)). rewrite Hn, bool_decide_eq_false_2 by (intros [x Hx]; discriminate Hx). cbn [orb].
  cbv zeta. eexists _, _. split; [split; [reflexivity|]; by destruct s|]. done.
Qed.

(** The hold of [amount] is taken from the balance. *)
Definition heldFrom (amount : float64) (u : userRow) : userRow := mkUser (balance u - quanta amount) (frozen_balance u + quanta amount).
Record affordable (amount : float64) (uid key : Z) (id : string) (u : userRow) (d : db) : Prop := {
  af_key : 0 < key;
  af_id : TrimSpace (BatchImageHoldRequestID id) <> "";
  af_new : claims d !! ((TrimSpace (BatchImageHoldRequestID id), key) : claimKey) = None;
  af_hold : positive amount = true;
  af_scale : toDecimal amount mod perQuantum = 0;
  af_user : users d !! uid = Some u;
  af_covers : covers (balance u) amount = true;
  af_fits : fits (balance u - quanta amount) = true /\ fits (frozen_balance u + quanta amount) = true }.
Lemma reserve_run job hash s amount key u : holdOf job = amount -> job_APIKeyID job = Some key -> affordable amount (job_UserID job) key (BatchID job) u (billing_db s) ->
  exists s', reserveBatchImageBalanceHold job hash (s, []) = (Ok tt, (s', [])) /\ jobs s' = jobs s /\ items s' = items s /\
    users (billing_db s') = <[job_UserID job := heldFrom amount u]> (users (billing_db s)).
Proof.
  intros Eh Ek [Hp Hid Hn Hh Hs Hu Hc [F1 F2]]. destruct (positive_not _ Hh) as [Hlt Hnp]. unfold reserveBatchImageBalanceHold, buildBatchImageHoldCommand.
  rewrite Ek. destruct (Z.leb_spec key 0); [lia|]. cbv zeta. rewrite Eh, Hlt. cbn [HoldAmount]. rewrite Hnp, bind_run. set (cmd := mkHold _ _ _ _ _ _ _ _).
  set (d1 := addClaim (holdKey cmd) (holdFingerprint cmd) (billing_db s)). assert (He : exists a d', holdEffects UsageBilling.Reserve (NormalizeHold cmd) (d1, []) = (Ok a, (d', [])) /\
    users d' = <[job_UserID job := heldFrom amount u]> (users (billing_db s))).
  { cbn [holdEffects]. unfold reserveUsageBillingBatchImageBalance. cbv zeta. destruct (NormalizeHold_amounts cmd) as (E1 & E2 & E3). rewrite E1, E3.
    cbn [cmd HoldAmount h_UserID]. rewrite Hnp.
    assert (Er : mkUser (UsageBilling.store (balance u * perQuantum - toDecimal amount)) (UsageBilling.store (frozen_balance u * perQuantum + toDecimal amount)) = heldFrom amount u)
      by (unfold heldFrom, quanta; by rewrite store_quanta, store_quanta_sub).
    rewrite (moveFunds_run _ _ _ _ _ u); rewrite ?Er; try done. eexists _, _. split; [reflexivity|]. subst d1. unfold addClaim. by destruct (billing_db s). }
  destruct He as (a & d' & He & Hus). destruct (hold_new UsageBilling.Reserve cmd (billing_db s) a d' Hid Hn He) as [r Hr].
  unfold onBilling, ReserveBatchImageBalance. rewrite Hr. cbn [fst snd]. eexists. split; [reflexivity|]. by destruct s.
Qed.
Lemma pendingItems_run id hash items_ s row : jobs s !! id = Some row -> items s !! id = None -> items_ <> [] -> NoDup (ids items_) ->
  exists s', createPendingItems (Q := Q) (P := P) id hash items_ = onDB (BulkCreateBatchImageItems (map (pendingItemOf id hash) items_)) /\
    BulkCreateBatchImageItems (map (pendingItemOf id hash) items_) (s, []) = (Ok tt, (s', [])) /\
    jobs s' = jobs s /\ billing_db s' = billing_db s /\ items s' = <[id := map (pendingItemOf id hash) items_]> (items s).
Proof.
  intros Hr Hi Hn Hd. destruct items_ as [|item l]; [done|]. set (new := map _ _). exists ({ s with items := <[id := new]> (items s) }). split; [done|].
  assert (Hrun : createItems new (s, []) = (Ok tt, ({ s with items := <[id := new]> (items s) }, []))).
  { rewrite (createItems_run new s id row []); [done|done|by right| |].
    - apply List.Forall_forall. intros x (i & <- & _)%in_map_iff. done.
    - subst new. cbn [app]. clear -Hd. induction (item :: l) as [|i l' IH]; [by constructor|]. cbn in *. apply NoDup_cons in Hd as [H1 H2].
      constructor; [|by apply IH]. intros H. apply H1. clear -H. induction l' as [|j l' IH]; [done|]. cbn in *. apply elem_of_cons in H as [->|H]; [by left|right; by apply IH]. }
  split; [|by destruct s]. change (inTx (createItems new) (s, []) = (Ok tt, ({ s with items := <[id := new]> (items s) }, []))). by eapply inTx_run.
Qed.

(** Everything that a submission of [req] needs. *)
Record goesWell (owner : BatchImageOwner) (req r : BatchImageSubmitRequest) (key : string) (provider : string) (account : Account)
    (price : BatchImagePricingSnapshot) (id : string) (u : userRow) (now : time) (s : BatchJobs.store) (q : Q) (p p' : P) (pj : BatchProviderJob) : Prop := {
  gw_enabled : cfg_Enabled config = true;
  gw_valid : validateSubmitRequest localOffset config req now = Ok r;
  gw_group : ensureGroupAllowsBatchImage GetByIDLite owner = Ok tt;
  gw_new : TrimSpace key = "" \/ batchOfKey owner (TrimSpace key) s = None;
  gw_account : selectProviderAndAccount listAccounts (fun account => schedulable account (req_Model r) now)
                 (fun name => SupportsAccount <$> provider_named name) owner (req_Provider r) = Ok (provider, account);
  gw_provider : IsSupportedBatchImageProvider provider = true;
  gw_price : resolvePricingSnapshot GetByIDLite GetByUserAndGroup ModelUnitPrice owner r provider account = Ok price;
  gw_stored : storable price;
  gw_parent : batchImageOptionalStringPtr (req_ParentBatchID r) = None;
  gw_id : id <> "" /\ jobs s !! id = None /\ items s !! id = None;
  gw_money : affordable (snap_HoldAmount price) (own_UserID owner) (own_APIKeyID owner) id u (billing_db s);
  gw_accepted job : BatchID job = id -> ProviderSubmit provider job account (inputOf job r) p = (Ok (Some pj), p');
  gw_named : TrimSpace (pj_ProviderJobName pj) <> "";
  gw_queue : accepted (put id q).1 = true }.

(** C10: A submission for which all goes well makes one batch of the request: the row describes the request,
    with the price, the account and the provider that were chosen, and is submitted under the name the
    provider gave; there is a pending item for every image; the hold moved from the balance of the owner to
    the frozen funds; the batch is in the queue; nothing else in the database changed, and the owner is
    shown the row. *)
Theorem submit_effect owner req r idempotencyKey provider account price id u now s q p p' pj :
  goesWell owner req r idempotencyKey provider account price id u now s q p p' pj ->
  let hash := HashBatchImageSubmitRequest r in
  exists s' row, Submit owner req idempotencyKey (Ok id) (mret tt) now ((s, []), (q, p)) = (Ok (public row), ((s', []), ((put id q).2, p'))) /\
    jobs s' = <[id := row]> (jobs s) /\
    describes (jobParams owner r provider account price None (TrimSpace idempotencyKey) hash id) row /\
    job_Status row = BatchImageJobStatusSubmitted /\ ProviderJobName row = Some (pj_ProviderJobName pj) /\ SubmittedAt row = Some now /\
    items s' = <[id := map (pendingItemOf id hash) (Items r)]> (items s) /\
    users (billing_db s') = <[own_UserID owner := heldFrom (snap_HoldAmount price) u]> (users (billing_db s)).
Proof.
  intros [Hen Hv Hg Hk Ha Hsp Hpr Hst Hpa (Hid & Hj & Hi) Hm Hac Hn Hq] hash. destruct (validated_items _ _ _ _ _ Hv) as [Hdup Hne].
  set (newKey := TrimSpace idempotencyKey).
  destruct (createJob_run owner r provider account price newKey hash id s Hsp Hid Hst Hj) as (job & s1 & (C1 & C2 & C3 & C4) & Hde & Hcs & Hcn & _ & Hsb). cbv zeta in C1.
  assert (Hjob : BatchID job = id /\ job_UserID job = own_UserID owner /\ job_APIKeyID job = Some (own_APIKeyID owner) /\ holdOf job = snap_HoldAmount price).
  { destruct Hde as [D1 D2]. injection D1. injection D2. cbn [jobParams new_BatchID new_UserID new_APIKeyID new_HoldAmount]. intros. unfold holdOf.
    split_and!; [congruence|congruence|congruence|]. match goal with H : job_HoldAmount job = _ |- _ => by rewrite H end. }
  destruct Hjob as (Eb & Eu & Ek & Eh). destruct (reserve_run job hash s1 (snap_HoldAmount price) (own_APIKeyID owner) u Eh Ek) as (s2 & R1 & R2 & R3 & R4).
  { by rewrite Eu, Eb, C4. }
  assert (J2 : jobs s2 !! id = Some job) by (rewrite R2, C2; apply lookup_insert_eq).
  destruct (pendingItems_run id hash (Items r) s2 job J2) as (s3 & _ & I2 & I3 & I4 & I5); [by rewrite R3, C3|done|done|].
  assert (J3 : jobs s3 !! id = Some job) by congruence.
  destruct (uploading_run id "upload_started" now s3 job) as (s4 & U1 & U2 & U3 & U4); [done|done|done|]. set (row4 := transitionRow _ _ _ _) in *.
  assert (H4 : job_Status row4 = BatchImageJobStatusUploading /\ SubmittedAt row4 = None /\ terms row4 = terms job) by (subst row4; clear -Hsb; by destruct job).
  destruct H4 as (S4 & B4 & T4). clearbody row4.
  set (params := mkProviderSubmit id (pj_ProviderJobName pj) (pj_ProviderInputRef pj) (pj_ProviderOutputRef pj)
       (batchImageGCSRef provider (pj_ProviderInputRef pj)) (batchImageGCSRef provider (pj_ProviderOutputRef pj))).
  destruct (providerSubmit_run params now s4 row4) as (s5 & P1 & P2 & P3 & P4); [rewrite U2; apply lookup_insert_eq|done|]. set (row5 := submittedRow _ _ _) in *.
  assert (H5 : job_Status row5 = BatchImageJobStatusSubmitted /\ ProviderJobName row5 = Some (pj_ProviderJobName pj) /\ SubmittedAt row5 = Some now /\ terms row5 = terms row4)
    by (subst row5; clear -B4; destruct row4; simpl in *; by subst). destruct H5 as (S5 & N5 & B5 & T5). clearbody row5. cbn [params sub_BatchID] in P2.
  exists s5, row5. split; [|split_and!; [by rewrite P2, U2, I3, R2, C2, !insert_insert_eq|by eapply describes_terms; [|exact Hde]; congruence|done|done|done|by rewrite P3, U3, I5, R3, C3|
    by rewrite P4, U4, I4, R4, Eu, C4]].
  assert (Hup : upload owner r hash provider account (mret tt) now job ((s2, []), (q, p)) = (Ok (public row5), ((s5, []), ((put id q).2, p')))).
  { unfold upload, createPendingItems. rewrite bindDB, Eb, I2. cbn [fst snd]. rewrite bindDB, U1. cbn [fst snd]. cbv zeta. set (job' := ({ job with job_Status := _ })).
    assert (E' : BatchID job' = id) by (subst job'; by destruct job). clearbody job'. rewrite bindProvider, (Hac job' E'). cbn [fst snd]. rewrite bindDB. cbn [mret ST_ret fst snd].
    destruct (String.eqb_spec (TrimSpace (pj_ProviderJobName pj)) ""); [done|]. unfold recordSubmitted. rewrite bindDB, E'. fold params. rewrite P1. cbn [fst snd].
    rewrite bindQueue, Hq. cbn [negb]. rewrite bindDB_ok, (getJob_run id s5 row5) by (rewrite P2; apply lookup_insert_eq). done. }
  assert (Hnew : submitNew owner r hash newKey (Ok id) (mret tt) now ((s, []), (q, p)) = (Ok (public row5), ((s5, []), ((put id q).2, p')))).
  { unfold submitNew. cbv zeta. rewrite Ha, Hpr, bind_ok_eq. unfold resolveParent. rewrite Hpa. cbn [mret ST_ret]. rewrite bindDB_ok, C1, bindDB, R1. exact Hup. }
  unfold Submit. rewrite Hen, Hv, Hg. cbn [negb]. cbv zeta. fold newKey hash. destruct (String.eqb_spec newKey "") as [|Hkn]; [exact Hnew|].
  destruct Hk as [|Hk]; [done|]. rewrite bindDB, getKey_cases. cbn [fst snd tail]. fold newKey in Hk. rewrite Hk. exact Hnew.
Qed.
End Effect.

(** ** What a cancellation promises *)

Lemma getOwned_cases uid key b s fs r s' fs' : GetBatchImageJobByBatchIDForOwner uid key b (s, fs) = (r, (s', fs')) ->
  s' = s /\ match r with Ok job => jobs s !! b = Some job | Err _ => True end.
Proof.
  unfold GetBatchImageJobByBatchIDForOwner. rewrite translated_run. destruct (query _ (s, fs)) as [q [s1 fs1]] eqn:E. apply query_cases in E.
  unfold stmt_selectJob in E. destruct q as [job|e]; intros [= <- <- _]; destruct E as [[-> [e' He]]|[-> Hr]]; try done; (split; [done|]).
  destruct (jobs s !! b) as [row|]; [|destruct Hr as [|[? ?]]; done]. cbn [fst] in Hr. destruct (_ && _); destruct Hr as [Hr|[? Hr]]; congruence.
Qed.
Lemma tame_getOwned E uid key b : tame E (GetBatchImageJobByBatchIDForOwner uid key b).
Proof. unfold GetBatchImageJobByBatchIDForOwner. tame_steps. Qed.

Section Cancelling.
Context {money : Money} {penv : PublicEnv} {Q P : Type} `{!Queue Q} {prov : Providers P}.
Context (job : BatchImageJob) (key : Z) (ch : chargeable job key).
Local Abbreviation world := (dbWorld * (Q * P))%type.

Lemma releaseOrRetry_ok (w : world) w' r : driverFaults w.1.2 -> releaseOrRetry job w = (r, w') -> r = Ok tt -> released job key w'.1.1.
Proof.
  destruct w as [[s fs] [q p]]. cbn [fst snd]. intros Hf. unfold releaseOrRetry. rewrite bindDB.
  destruct (releaseBatchImageBalanceHold job _ (s, fs)) as [x [s1 fs1]] eqn:E. apply (release_outcome job key ch job) in E as (_ & _ & _ & Hr); [|done|done]. cbn [fst snd].
  destruct x as [[]|e]; [intros [= <- <-] _; by apply Hr|]. rewrite bind_run. destruct (enqueueBillingRetry _ _) as [u w1]. cbn [fst snd]. by intros [= <- <-].
Qed.

(** What a cancellation answers is true, whatever fails in the database, the queue and the provider:
    when it succeeds on a batch with a hold, then the hold was returned; or the batch runs at its provider
    and is in the queue, for the worker to follow the provider; or it is being settled, or was, and is as
    it was. *)
Theorem cancel_truthful owner b now s fs (q : Q) (p : P) : driverFaults fs -> soundQueue q -> BatchID job = b -> jobs s !! b = Some job ->
  let '(r, ((s', _), (q', _))) := Cancel owner b now ((s, fs), (q, p)) in forall batch, r = Ok batch ->
    released job key s' \/
    (batchImageDerefString (ProviderJobName job) <> "" /\ jobs s' = jobs s /\ inQueue b q') \/
    (oneOf (job_Status job) [BatchImageJobStatusSettling; BatchImageJobStatusCompleted; BatchImageJobStatusOutputDeleted] = true /\ s' = s /\ batch = public job).
Proof.
  intros Hfs Hsd Eb Hj. unfold Cancel. cbv zeta. rewrite bindDB_ok. pose proof (tame_getOwned (errorIn notConflict) (own_UserID owner) (own_APIKeyID owner) b s fs Hfs) as Hf1.
  destruct (GetBatchImageJobByBatchIDForOwner _ _ b (s, fs)) as [x [s1 fs1]] eqn:E. apply getOwned_cases in E as [-> E]. cbn [fst snd] in Hf1.
  destruct x as [row|e]; [|done]. rewrite Hj in E. injection E as <-. destruct (isBatchImageProcessorDoneStatus (job_Status job)) eqn:Ed.
  - destruct (_ || _) eqn:Ef.
    + rewrite bind_ok_eq. destruct (releaseOrRetry job ((s, fs1), (q, p))) as [[[]|e] [[s2 fs2] [q2 p2]]] eqn:E; [|done]. intros batch _. left.
      exact (releaseOrRetry_ok ((s, fs1), (q, p)) _ _ Hf1 E eq_refl).
    + intros batch [= <-]. right. right. split; [|done]. revert Ed Ef. clear. unfold isBatchImageProcessorDoneStatus, IsTerminalBatchImageJobStatus. simpl.
      destruct (String.eqb _ BatchImageJobStatusSettling); [done|]. destruct (String.eqb _ BatchImageJobStatusCompleted); [done|]. cbn [orb].
      destruct (String.eqb _ BatchImageJobStatusFailed), (String.eqb _ BatchImageJobStatusCancelled); cbn [orb]; try done. intros -> _. done.
  - destruct (String.eqb_spec (batchImageDerefString (ProviderJobName job)) "") as [En|En]; cbn [negb].
    + rewrite bindDB_ok. pose proof (tame_transition (errorIn notConflict) (BatchID job) BatchImageJobStatusCancelled (mkTransition "job_cancelled" None None) now s fs1 Hf1) as Hf2.
      destruct (TransitionBatchImageJobStatus _ _ _ _ (s, fs1)) as [[u|e] [s2 fs2]]; [|done]. cbn [fst snd] in Hf2. rewrite bind_ok_eq.
      destruct (releaseOrRetry job ((s2, fs2), (q, p))) as [[[]|e] [[s3 fs3] [q3 p3]]] eqn:E; [|done]. pose proof (releaseOrRetry_ok ((s2, fs2), (q, p)) _ _ Hf2 E eq_refl) as Hr.
      rewrite bindDB_ok. destruct (GetBatchImageJobByBatchIDForOwner _ _ b (s3, fs3)) as [y [s4 fs4]] eqn:Eg. apply getOwned_cases in Eg as [-> _]. destruct y; [|done]. by left.
    + destruct (provider_named _) as [pr|]; [|done]. destruct (job_AccountID job) as [id|]; [|done]. destruct (GetByID id) as [account|e]; [|done].
      rewrite bindProvider. destruct (ProviderCancel _ _ _ p) as [c p1]. cbn [fst snd]. destruct c as [u|e]; [|done]. rewrite bindDB.
      change (AppendBatchImageEvent (BatchID job)) with (appendBatchImageEventWithSQL (BatchID job)) in *.
      assert (Hje : jobs (appendBatchImageEventWithSQL (BatchID job) "job_cancel_requested" (s, fs1)).2.1 = jobs s).
      { unfold appendBatchImageEventWithSQL. destruct (query _ (s, fs1)) as [y [s2 fs2]] eqn:Ee. apply query_cases in Ee as [[-> _]|[-> _]]; [done|apply event_jobs]. }
      destruct (appendBatchImageEventWithSQL _ _ (s, fs1)) as [y [s2 fs2]]. cbn [fst snd] in *. rewrite bindQueue. destruct (accepted (put (BatchID job) q).1) eqn:Ea; cbn [negb]; [|by destruct (put (BatchID job) q)].
      pose proof (put_queues (BatchID job) q Hsd Ea) as Hq. destruct (put (BatchID job) q) as [z q1]. cbn [fst snd] in *. rewrite bindDB_ok.
      destruct (GetBatchImageJobByBatchIDForOwner _ _ b (s2, fs2)) as [y2 [s4 fs4]] eqn:Eg. apply getOwned_cases in Eg as [-> _]. destruct y2; [|done]. intros batch _. right. left.
      subst b. done.
Qed.
End Cancelling.

(** ** Examples *)

#[local] Existing Instance dyadicMoney.
Definition demoAccount : Account := blankAccount 3 PlatformGemini AccountTypeAPIKey.
Definition demoGemini : BatchImageProvider Account :=
  {| SupportsAccount := fun _ => true; ProviderGet := fun _ _ => Ok None; OpenResult := fun _ _ => Err lost |}.
(** An image costs one USD, half of it in a batch; the whole is held. *)
Definition demoGroup : BatchGroup := mkBatchGroup 2 PlatformGemini true fone false fone fhalf fone None None None.
Definition demoPublic : PublicEnv := {|
  config := demoConfig; localOffset := fun _ => 0;
  provider_named := fun name => if String.eqb name BatchImageProviderGeminiAPI then Some demoGemini else None;
  GetByID := fun _ => Ok demoAccount; listAccounts := fun _ _ => Ok [demoAccount]; schedulable := fun _ _ _ => true;
  GetByIDLite := fun _ => Ok (Some demoGroup); GetByUserAndGroup := fun _ _ => Ok None; ModelUnitPrice := fun _ _ => Ok fone;
  column2010 := fun f => Ok f; column104 := fun f => Ok f; textOf := fun _ => "error" |}.
#[local] Existing Instance demoPublic.
(** A provider that counts its jobs. *)
Definition demoProviders : Providers Z := {|
  ProviderSubmit := fun _ _ _ _ n => (Ok (Some (mkProviderJob "batches/9" "files/9" "")), n + 1);
  ProviderCancel := fun _ _ _ n => (Ok tt, n - 1);
  ProviderCleanup := fun _ _ _ _ n => (Ok tt, n) |}.
#[local] Existing Instance demoProviders.
Definition demoWaiting : Queue memStore := reliableQueue demoQueue demo_keys.
#[local] Existing Instance demoWaiting.
Definition demoOwner : BatchImageOwner := mkOwner 1 7 (Some 2).
Definition demoRich : BatchJobs.store :=
  mkStore (mkDB {[1 := mkUser (10 ^ 9) 0]} ∅ ∅ (SubscriptionRepo.mkTable ∅ 1 ∅ 0) ∅ ∅ ∅ 0) ∅ ∅ ∅ 1.
Lemma emptyQueue_sound : soundQueue emptyQueue.
Proof. split; [|by constructor]. intros b _. by left. Qed.

Definition demoPrice : BatchImagePricingSnapshot :=
  mkSnapshot fone fone fone fhalf fone fhalf fone (fmul fhalf (float_of_Z 3)) (float_of_Z 3).
Lemma submit_effect_witness : exists s' row,
  Submit demoOwner (demoRequest "t") "k" (Ok "imgbatch_9") (mret tt) 5 ((demoRich, []), (emptyQueue, 0)) =
    (Ok (public row), ((s', []), ((put "imgbatch_9" emptyQueue).2, 1))) /\
  job_Status row = BatchImageJobStatusSubmitted /\ length (default [] (items s' !! "imgbatch_9")) = 3%nat /\
  users (billing_db s') = {[1 := mkUser (7 * 10 ^ 8) (3 * 10 ^ 8)]}.
Proof.
  destruct (submit_effect demoOwner (demoRequest "t") (demoChecked "t" 5) "k" BatchImageProviderGeminiAPI demoAccount demoPrice "imgbatch_9"
    (mkUser (10 ^ 9) 0) 5 demoRich emptyQueue 0 1 (mkProviderJob "batches/9" "files/9" "")) as (s' & row & E & _ & _ & Hs & _ & _ & Hi & Hu).
  - constructor.
    + reflexivity.
    + apply demo_checked. vm_compute. reflexivity.
    + reflexivity.
    + right. vm_compute. reflexivity.
    + vm_compute. reflexivity.
    + reflexivity.
    + vm_compute. reflexivity.
    + split; repeat constructor.
    + vm_compute. reflexivity.
    + split_and!; [discriminate|reflexivity|reflexivity].
    + constructor; vm_compute; try reflexivity; try discriminate. split; reflexivity.
    + reflexivity.
    + discriminate.
    + vm_compute. reflexivity.
  - exists s', row. split; [exact E|]. split; [exact Hs|]. rewrite Hi, Hu. clear. split; vm_compute; reflexivity.
Defined.

(** A batch whose items cannot be written, and whose hold cannot be returned at once. *)
Definition demoUnsent : BatchImageJob := { demoJob BatchImageJobStatusCreated 0 0 with ProviderJobName := None }.
Lemma demo_chargeable status : chargeable (demoJob status 0 0) 7.
Proof. constructor; [split; [reflexivity|lia]|vm_compute; discriminate|reflexivity]. Qed.
Lemma unsent_chargeable : chargeable demoUnsent 7.
Proof. constructor; [split; [reflexivity|lia]|vm_compute; discriminate|reflexivity]. Qed.
Lemma demo_accepts (q : memStore) : soundQueue q -> accepted (put "imgbatch_1" q).1 = true.
Proof. intros _. apply (reliable_accepts demoQueue). reflexivity. Qed.
Definition twoFail : list fault := [FailBefore lost; FailBefore lost].
Lemma hold_never_stranded_witness :
  let '(r, ((s', _), (q', _))) := upload demoOwner (demoRequest "t") "hash" BatchImageProviderGeminiAPI demoAccount (heartbeat demoUnsent 4) 5 demoUnsent
    ((demoBatches demoUnsent demoFunds, twoFail), (emptyQueue, 0)) in
  secured demoUnsent 7 False False s' q' /\ job_Status <$> jobs s' !! "imgbatch_1" = Some BatchImageJobStatusFailed /\ memLst q' (ReadyKey demoQueue) = ["imgbatch_1"].
Proof.
  pose proof (hold_never_stranded (Q := memStore) demoUnsent 7 unsent_chargeable (heartbeat demoUnsent 4) (heartbeat_surroundings demoUnsent 7 4) demoOwner
    (demoRequest "t") "hash" BatchImageProviderGeminiAPI demoAccount 5 (demoBatches demoUnsent demoFunds) twoFail emptyQueue 0) as H.
  assert (E : let '(_, ((s', _), (q', _))) := upload demoOwner (demoRequest "t") "hash" BatchImageProviderGeminiAPI demoAccount (heartbeat demoUnsent 4) 5 demoUnsent
    ((demoBatches demoUnsent demoFunds, twoFail), (emptyQueue, 0)) in
    job_Status <$> jobs s' !! "imgbatch_1" = Some BatchImageJobStatusFailed /\ memLst q' (ReadyKey demoQueue) = ["imgbatch_1"]) by (clear; vm_compute; split; reflexivity).
  destruct (upload _ _ _ _ _ _ _ _ _) as [r [[s' fs'] [q' p']]]. split; [|exact E]. destruct H as [H _].
  - repeat constructor.
  - apply emptyQueue_sound.
  - reflexivity.
  - reflexivity.
  - reflexivity.
  - eapply secured_weaken; [| |exact H].
    + intros Hl. apply Exists_exists in Hl as (f & Hf & Hl). repeat (apply elem_of_cons in Hf as [->|Hf]; [exact Hl|]). by apply not_elem_of_nil in Hf.
    + intros Hr. pose proof (demo_accepts emptyQueue emptyQueue_sound) as Ha. discriminate (eq_trans (eq_sym Ha) Hr).
Defined.
(** The batch of [demoOwner] under the key "k". *)
Definition demoKeyed : BatchJobs.store :=
  demoBatches { demoJob BatchImageJobStatusSubmitted 0 0 with job_IdempotencyKey := Some "k" } demoFunds.
Lemma resubmit_harmless_witness :
  let '(_, ((s', _), (_, p'))) := Submit demoOwner (demoRequest "t") "k" (Ok "imgbatch_9") (mret tt) 5 ((demoKeyed, [NoFault; FailAfter lost]), (emptyQueue, 0)) in
  dom (jobs s') = dom (jobs demoKeyed) /\ users (billing_db s') = users demoFunds /\ p' = 0.
Proof.
  pose proof (resubmit_harmless (Q := memStore) demoOwner (demoRequest "t") "k" (Ok "imgbatch_9") (mret tt) 5
    { demoJob BatchImageJobStatusSubmitted 0 0 with job_IdempotencyKey := Some "k" } demoKeyed [NoFault; FailAfter lost] emptyQueue 0) as H.
  destruct (Submit _ _ _ _ _ _ _) as [r [[s' fs'] [q' p']]]. destruct H as ((H1 & H2 & H3) & _ & H4 & _).
  - vm_compute. reflexivity.
  - discriminate.
  - repeat constructor.
  - split; [exact H1|]. rewrite H3. split; [reflexivity|exact H4].
Defined.
(** The release of a failed batch loses the answer of its COMMIT; asked again, the cancellation succeeds. *)
Lemma cancel_truthful_witness :
  let '(r, ((s', _), (q', _))) := Cancel demoOwner "imgbatch_1" 5 ((demoFailed, repeat NoFault 3), (emptyQueue, 0)) in
  r = Ok (public (demoJob BatchImageJobStatusFailed 0 0)) /\ released (demoJob BatchImageJobStatusFailed 0 0) 7 s' /\ users (billing_db s') = {[1 := mkUser (5 * 10 ^ 8) 0]}.
Proof.
  pose proof (cancel_truthful (Q := memStore) (demoJob BatchImageJobStatusFailed 0 0) 7 (demo_chargeable BatchImageJobStatusFailed) demoOwner "imgbatch_1" 5 demoFailed
    (repeat NoFault 3) emptyQueue 0) as H.
  assert (E : let '(r, ((s', _), (q', _))) := Cancel demoOwner "imgbatch_1" 5 ((demoFailed, repeat NoFault 3), (emptyQueue, 0)) in
    r = Ok (public (demoJob BatchImageJobStatusFailed 0 0)) /\ users (billing_db s') = {[1 := mkUser (5 * 10 ^ 8) 0]} /\ q' = emptyQueue)
    by (clear; vm_compute; repeat split).
  destruct (Cancel _ _ _ _) as [r [[s' fs'] [q' p']]]. destruct E as (E1 & E2 & E3). split; [exact E1|]. split; [|exact E2].
  destruct (H ltac:(repeat constructor) emptyQueue_sound eq_refl eq_refl _ E1) as [Hr|[(Hn & _ & Hq)|(Hs & _)]]; [exact Hr| |].
  - exfalso. subst q'. destruct Hq as [Hq|[[x Hq]|[x Hq]]]; [by apply not_elem_of_nil in Hq|discriminate Hq|discriminate Hq].
  - discriminate.
Defined.
(** The answer to the COMMIT of a hold is lost: the batch ends as failed and hidden, and nothing is left
    that returns the money: the recovery does not list it, the queue does not have it, and the owner
    cannot cancel it. *)
Lemma reserve_answer_lost :
  let '(r, ((s', _), (q', p'))) := Submit demoOwner (demoRequest "t") "" (Ok "imgbatch_9") (mret tt) 5 ((demoRich, losesAnswer 5), (emptyQueue, 0)) in
  users (billing_db s') = {[1 := mkUser (7 * 10 ^ 8) (3 * 10 ^ 8)]} /\ job_Status <$> jobs s' !! "imgbatch_9" = Some BatchImageJobStatusFailed /\
  (ListStaleUnsubmittedBatchImageJobs (10 ^ 20) 0 (s', [])).1 = Ok [] /\ memLst q' (ReadyKey demoQueue) = [] /\
  match (Cancel demoOwner "imgbatch_9" 6 ((s', []), (q', p'))).1 with Ok _ => False | Err e => errors_Is e (AppErr ErrBatchImageJobNotFound) = true end.
Proof. vm_compute. repeat split. Qed.
