(* ===== verification/BatchCleanup.v ===== *)
(** * Deleting the files of image batches

    [service/batch_image_cleanup.go]: the inputs of a batch that ended and the
    outputs of one whose time is over, or whose owner asks for it, are deleted at
    the provider, and the batch is marked.  The ticker that calls [RunOnce] is the
    list of its calls in a history.  [clock] is what [time.Now] reads. *)

From S2P Require Import Prelude Float64 Errors Subscription SubscriptionRepo AccountQuota Account ModelMapping.
From S2P Require Import UsageBilling UsageLedger BatchJobs BatchIndex BatchSettlement BatchLife BatchQueue BatchRequest BatchSubmit BatchRows BatchPublic.

Definition defaultBatchImageInputRetentionAfterTerminal : duration := 24 * Hour.
Definition defaultBatchImageCleanupBatchSize : Z := 100.
Definition ErrBatchImageOutputDeleteNotReady :=
  New 409 "BATCH_IMAGE_OUTPUT_DELETE_NOT_READY" "batch image output can only be deleted after completion".
Definition ErrBatchImageCleanupFailed := New 502 "BATCH_IMAGE_CLEANUP_FAILED" "batch image cleanup failed".
Definition ErrBatchImageCleanupUnsafePath := New 400 "BATCH_IMAGE_CLEANUP_UNSAFE_PATH" "batch image cleanup path is unsafe".
Definition ErrBatchImageProviderCleanupFailed :=
  New 502 "BATCH_IMAGE_PROVIDER_CLEANUP_FAILED" "batch image provider cleanup failed".
Definition ErrBatchImageProviderUnsafeCleanupPath := New 400 "VERTEX_UNSAFE_CLEANUP_PATH" "unsafe batch image cleanup path".
Definition ErrUnsupportedCleanupTarget :=
  New 400 "BATCH_IMAGE_PROVIDER_UNSUPPORTED_CLEANUP_TARGET" "unsupported batch image cleanup target".

Section Cleaning.
Context {money : Money} {penv : PublicEnv} {Q P : Type} {prov : Providers P}.
Local Abbreviation dbWorld := (BatchJobs.store * list fault)%type.
Local Abbreviation world := (dbWorld * (Q * P))%type.
Local Abbreviation method A := (ST world (result goerror A)).

Definition cleanupErrorIsNotFound (err : goerror) : bool :=
  let reason := ToUpper (Reason (Some err)) in
  let msg := ToUpper (errorText err) in
  Contains reason "NOT_FOUND" || Contains msg "NOT FOUND" || Contains msg "404".
Definition cleanupFailureCode (err : goerror) : string :=
  if errors_Is err (AppErr ErrBatchImageProviderUnsafeCleanupPath) then "BATCH_IMAGE_CLEANUP_UNSAFE_PATH"
  else
    let reason := TrimSpace (Reason (Some err)) in
    if negb (String.eqb reason "") then reason else "BATCH_IMAGE_PROVIDER_CLEANUP_FAILED".
Definition inputRetentionAfterTerminal : duration :=
  if 0 <? cfg_InputRetentionAfterTerminalHours config then cfg_InputRetentionAfterTerminalHours config * Hour
  else defaultBatchImageInputRetentionAfterTerminal.
Definition cleanupBatchSize : Z := positiveOr (cfg_CleanupBatchSize config) defaultBatchImageCleanupBatchSize.
Definition appendCleanupEvent (batchID eventType : string) : ST world unit := _ ← onDB (AppendBatchImageEvent batchID eventType); mret tt.

Definition callProviderCleanup (job : BatchImageJob) (target : CleanupTarget) : method unit :=
  match provider_named (Provider job) with
  | None => mret (Err (AppErr ErrBatchImageUnsupportedProvider))
  | Some _ =>
      match job_AccountID job with
      | None => mret (Err (AppErr ErrBatchImageMissingAccountID))
      | Some id =>
          if id <=? 0 then mret (Err (AppErr ErrBatchImageMissingAccountID))
          else match GetByID id with
               | Err e => mret (Err e)
               | Ok account =>
                   r ← atProvider (ProviderCleanup (Provider job) job account target);
                   mret (match r with
                         | Ok _ => Ok tt
                         | Err e => if cleanupErrorIsNotFound e then Ok tt else Err e
                         end)
               end
      end
  end.
Definition targetName (target : CleanupTarget) : string :=
  match target with CleanupTargetInput => "input" | CleanupTargetOutput => "output" | CleanupTargetAll => "all" end.
(** The provider deletes the files, and the batch is marked. *)
Definition deleteFiles (job : BatchImageJob) (target : CleanupTarget) (clock : time) : method unit :=
  r ← callProviderCleanup job target;
  match r with
  | Err e =>
      let code := cleanupFailureCode e in
      _ ← onDB (RecordBatchImageCleanupFailure (BatchID job) code (sanitizeBatchImagePublicMessage (errorText e)) clock);
      _ ← appendCleanupEvent (BatchID job) (targetName target +:+ "_cleanup_failed");
      mret (Err (AppErr (if errors_Is e (AppErr ErrBatchImageProviderUnsafeCleanupPath) then ErrBatchImageCleanupUnsafePath
                         else ErrBatchImageProviderCleanupFailed)))
  | Ok _ =>
      onDB (match target with
            | CleanupTargetInput => MarkBatchImageInputDeleted (BatchID job) clock
            | _ => MarkBatchImageOutputDeleted (BatchID job) clock
            end)
  end.
Definition cleanupJob (job : BatchImageJob) (target : CleanupTarget) (clock : time) : method unit :=
  match target with
  | CleanupTargetInput =>
      if bool_decide (is_Some (InputDeletedAt job)) then mret (Ok tt)
      else if negb (IsTerminalBatchImageJobStatus (job_Status job)) then mret (Err (AppErr ErrBatchImageCleanupFailed))
      else _ ← appendCleanupEvent (BatchID job) "input_cleanup_started"; deleteFiles job target clock
  | CleanupTargetOutput =>
      if bool_decide (is_Some (OutputDeletedAt job)) || String.eqb (job_Status job) BatchImageJobStatusOutputDeleted then mret (Ok tt)
      else if negb (oneOf (job_Status job) [BatchImageJobStatusCompleted; BatchImageJobStatusFailed; BatchImageJobStatusCancelled])
      then mret (Err (AppErr ErrBatchImageOutputDeleteNotReady))
      else _ ← appendCleanupEvent (BatchID job) "output_cleanup_started"; deleteFiles job target clock
  | CleanupTargetAll => mret (Err (AppErr ErrUnsupportedCleanupTarget))
  end.

Definition DeleteOutputsForOwner (owner : BatchImageOwner) (batchID : string) (clock : time) : method BatchImagePublicBatch :=
  job ←? onDB (GetBatchImageJobByBatchIDForOwner (own_UserID owner) (own_APIKeyID owner) batchID);
  if String.eqb (job_Status job) BatchImageJobStatusOutputDeleted || bool_decide (is_Some (OutputDeletedAt job)) then mret (Ok (public job))
  else if negb (String.eqb (job_Status job) BatchImageJobStatusCompleted) then mret (Err (AppErr ErrBatchImageOutputDeleteNotReady))
  else
    _ ← appendCleanupEvent (BatchID job) "manual_output_delete_requested";
    _ ←? cleanupJob job CleanupTargetOutput clock;
    updated ←? onDB (GetBatchImageJobByBatchIDForOwner (own_UserID owner) (own_APIKeyID owner) batchID);
    mret (Ok (public updated)).
Definition CleanupInput (batchID : string) (clock : time) : method unit :=
  job ←? onDB (GetBatchImageJobByBatchID batchID); cleanupJob job CleanupTargetInput clock.
Definition CleanupOutput (batchID : string) (clock : time) : method unit :=
  job ←? onDB (GetBatchImageJobByBatchID batchID); cleanupJob job CleanupTargetOutput clock.

Record BatchImageCleanupRunResult := mkCleaned { InputCleaned : Z; OutputCleaned : Z; Failures : Z }.
Definition counted (target : CleanupTarget) (ok : bool) (result : BatchImageCleanupRunResult) : BatchImageCleanupRunResult :=
  match ok, target with
  | false, _ => { result with Failures := Failures result + 1 }
  | true, CleanupTargetInput => { result with InputCleaned := InputCleaned result + 1 }
  | true, _ => { result with OutputCleaned := OutputCleaned result + 1 }
  end.
Fixpoint cleanupJobs (target : CleanupTarget) (clock : time) (jobs : list BatchImageJob) (result : BatchImageCleanupRunResult)
    : ST world BatchImageCleanupRunResult :=
  match jobs with
  | [] => mret result
  | job :: jobs =>
      r ← cleanupJob job target clock;
      cleanupJobs target clock jobs (counted target (match r with Ok _ => true | Err _ => false end) result)
  end.
(** The result beside the error. *)
Definition RunOnce (now clock : time) : ST world (BatchImageCleanupRunResult * option goerror) :=
  let now := if IsZero now then clock else now in
  let none := mkCleaned 0 0 0 in
  inputs ← onDB (ListBatchImageJobsDueForInputCleanup (now - inputRetentionAfterTerminal) cleanupBatchSize);
  match inputs with
  | Err e => mret (none, Some e)
  | Ok inputs =>
      result ← cleanupJobs CleanupTargetInput clock inputs none;
      outputs ← onDB (ListBatchImageJobsDueForOutputCleanup now cleanupBatchSize);
      match outputs with
      | Err e => mret (result, Some e)
      | Ok outputs => result ← cleanupJobs CleanupTargetOutput clock outputs result; mret (result, None)
      end
  end.
End Cleaning.

(** ** What is deleted *)

(** A provider that remembers which files it deleted, or did not have any more. *)
Definition clearing {penv : PublicEnv} {P} (prov : Providers P) : Providers (P * list (string * CleanupTarget)) := {|
  ProviderSubmit := fun provider job account input '(p, l) => let '(r, p) := ProviderSubmit provider job account input p in (r, (p, l));
  ProviderCancel := fun provider job account '(p, l) => let '(r, p) := ProviderCancel provider job account p in (r, (p, l));
  ProviderCleanup := fun provider job account target '(p, l) =>
    let '(r, p) := ProviderCleanup provider job account target p in
    (r, (p, if match r with Ok _ => true | Err e => cleanupErrorIsNotFound e end then (BatchID job, target) :: l else l)) |}.

(** Every batch is stored under its id. *)
Definition wellKeyed (s : BatchJobs.store) : Prop := forall b row, jobs s !! b = Some row -> BatchID row = b.
(** What became of [row] when the files of [l] were deleted. *)
Definition cleaned (l : list (string * CleanupTarget)) (b : string) (row row' : BatchImageJob) : Prop :=
  terms row' = terms row /\
  (InputDeletedAt row' = InputDeletedAt row \/ (b, CleanupTargetInput) ∈ l) /\
  (OutputDeletedAt row' = OutputDeletedAt row \/ (b, CleanupTargetOutput) ∈ l) /\
  (job_Status row' = job_Status row \/
   job_Status row = BatchImageJobStatusCompleted /\ job_Status row' = BatchImageJobStatusOutputDeleted /\ (b, CleanupTargetOutput) ∈ l).
(** From [s0] to [s] only files were deleted, those of [l], each of a batch that had ended. *)
Record onlyCleaned (s0 : BatchJobs.store) (l : list (string * CleanupTarget)) (s : BatchJobs.store) : Prop := {
  oc_rows b row : jobs s0 !! b = Some row -> exists row', jobs s !! b = Some row' /\ cleaned l b row row';
  oc_new b : jobs s0 !! b = None -> jobs s !! b = None;
  oc_ended b t : (b, t) ∈ l -> exists row, jobs s0 !! b = Some row /\ IsTerminalBatchImageJobStatus (job_Status row) = true }.
Lemma onlyCleaned_refl s : onlyCleaned s [] s.
Proof.
  split; [|done|by intros b t H%not_elem_of_nil]. intros b row H. exists row. split; [done|]. split_and!; [done|by left|by left|by left].
Qed.
Lemma cleaned_more l l' b row row' : l ⊆ l' -> cleaned l b row row' -> cleaned l' b row row'.
Proof. intros Hl (H1 & H2 & H3 & H4). split_and!; [done|destruct H2; auto|destruct H3; auto|destruct H4 as [|(?&?&?)]; auto]. Qed.
Lemma onlyCleaned_jobs s0 l s s' : jobs s' = jobs s -> onlyCleaned s0 l s -> onlyCleaned s0 l s'.
Proof. intros E [H1 H2 H3]. split; rewrite ?E; auto. Qed.
(** A row that changes as the files deleted allow. *)
Lemma onlyCleaned_update s0 l s b cond f : (forall row row', jobs s0 !! b = Some row -> cleaned l b row row' -> cleaned l b row (f row')) ->
  onlyCleaned s0 l s -> onlyCleaned s0 l (stmt_updateJob b cond f s).2.
Proof.
  intros Hf Hs. unfold stmt_updateJob. destruct (jobs s !! b) as [row|] eqn:E; [|done]. destruct (cond row); [|done]. destruct Hs as [H1 H2 H3].
  destruct s as [bd js its evs nj]. simpl in *. split; simpl; [| |done].
  - intros b' row0 Hb. destruct (H1 b' row0 Hb) as (row' & Hr & Hc). destruct (decide (b' = b)) as [->|]; [|exists row'; by rewrite lookup_insert_ne].
    rewrite E in Hr. injection Hr as <-. exists (f row). rewrite lookup_insert_eq. auto.
  - intros b' Hb. destruct (decide (b' = b)) as [->|]; [|rewrite lookup_insert_ne; auto]. by rewrite (H2 b Hb) in E.
Qed.
Lemma query_keeps {A} (I : BatchJobs.store -> Prop) (m : ST BatchJobs.store (result goerror A)) s fs : I s -> I (m s).2 -> I (query m (s, fs)).2.1.
Proof. intros H1 H2. destruct (query m (s, fs)) as [r [s' fs']] eqn:E. apply query_cases in E as [[-> _]|[-> _]]; done. Qed.
Lemma event_cleaned s0 l b e s fs : onlyCleaned s0 l s -> onlyCleaned s0 l (AppendBatchImageEvent b e (s, fs)).2.1.
Proof. intros Hs. apply (query_keeps (onlyCleaned s0 l)); [done|]. by eapply onlyCleaned_jobs; [apply event_jobs|]. Qed.
Lemma updateAndLog_cleaned s0 l b cond f missing e s fs :
  (forall row row', jobs s0 !! b = Some row -> cleaned l b row row' -> cleaned l b row (f row')) ->
  onlyCleaned s0 l s -> onlyCleaned s0 l (updateAndLog b cond f missing e (s, fs)).2.1.
Proof.
  intros Hf Hs. unfold updateAndLog. rewrite bind_ok_eq. pose proof (query_keeps (onlyCleaned s0 l) _ s fs Hs (onlyCleaned_update s0 l s b cond f Hf Hs)) as H.
  destruct (query _ (s, fs)) as [[n|err] [s1 fs1]]; [|exact H]. cbn [fst snd] in H. destruct (n =? 0); [exact H|by apply event_cleaned].
Qed.

Section Deleted.
Context {money : Money} {penv : PublicEnv} {Q P : Type} {prov : Providers P}.
#[local] Existing Instance clearing.
Local Abbreviation world := ((BatchJobs.store * list fault) * (Q * (P * list (string * CleanupTarget))))%type.
(** The world after, from [s0]. *)
Definition fair (s0 : BatchJobs.store) (w : world) : Prop := onlyCleaned s0 w.2.2.2 w.1.1.

Lemma fair_event s0 b e (w : world) : fair s0 w -> fair s0 (appendCleanupEvent b e w).2.
Proof.
  destruct w as [[s fs] [q [p l]]]. intros Hs. unfold appendCleanupEvent. rewrite bindDB. pose proof (event_cleaned s0 l b e s fs Hs) as H.
  by destruct (AppendBatchImageEvent b e (s, fs)) as [x [s1 fs1]].
Qed.
Lemma marked_input s0 l b clock s fs : (b, CleanupTargetInput) ∈ l -> onlyCleaned s0 l s -> onlyCleaned s0 l (MarkBatchImageInputDeleted b clock (s, fs)).2.1.
Proof.
  intros Hl. apply updateAndLog_cleaned. intros row [] _ (H1 & H2 & H3 & H4). split_and!; [exact H1|by right|exact H3|exact H4].
Qed.
Lemma marked_output s0 l b clock s fs : (b, CleanupTargetOutput) ∈ l -> onlyCleaned s0 l s -> onlyCleaned s0 l (MarkBatchImageOutputDeleted b clock (s, fs)).2.1.
Proof.
  intros Hl. apply updateAndLog_cleaned. intros row row' _ (H1 & H2 & H3 & H4). cbv zeta.
  split_and!; [by destruct row'|by destruct row'|by right|]. destruct (String.eqb_spec (job_Status row') BatchImageJobStatusCompleted) as [E|]; [right|by destruct row'].
  destruct H4 as [H4|(_ & H4 & _)]; [|by rewrite H4 in E]. split_and!; [congruence|by destruct row'|done].
Qed.
(** A batch that had ended when [s0] was. *)
Definition hadEnded (s0 : BatchJobs.store) (b : string) : Prop :=
  exists row, jobs s0 !! b = Some row /\ IsTerminalBatchImageJobStatus (job_Status row) = true.
Lemma deleteFiles_fair s0 job target clock (w : world) : target = CleanupTargetInput \/ target = CleanupTargetOutput -> hadEnded s0 (BatchID job) ->
  fair s0 w -> fair s0 (deleteFiles job target clock w).2.
Proof.
  intros Ht He Hw. unfold deleteFiles. rewrite bind_run.
  assert (Hcall : let '(r, w') := callProviderCleanup job target w in fair s0 w' /\ (r = Ok tt -> (BatchID job, target) ∈ w'.2.2.2)).
  { unfold callProviderCleanup. destruct (provider_named _); [|by destruct w]. destruct (job_AccountID job) as [id|]; [|by destruct w]. destruct (id <=? 0); [by destruct w|].
    destruct (GetByID id) as [account|e]; [|by destruct w]. destruct w as [[s fs] [q [p l]]]. rewrite bindProvider. cbn [ProviderCleanup clearing].
    destruct (ProviderCleanup (Provider job) job account target p) as [r p1]. cbn [mret ST_ret fst snd].
    assert (Hmore : fair s0 ((s, fs), (q, (p1, (BatchID job, target) :: l)))).
    { destruct Hw as [H1 H2 H3]. cbn [fst snd] in *. split; cbn [fst snd]; [|done|].
      - intros b1 row Hb. destruct (H1 b1 row Hb) as (row' & Hr & Hc). exists row'. split; [done|]. eapply cleaned_more; [|exact Hc]. set_solver.
      - intros b1 t Hin. apply elem_of_cons in Hin as [Hin|Hin]; [injection Hin as -> _; exact He|by apply (H3 b1 t)]. }
    destruct r as [[]|e]; [split; [done|by left]|]. destruct (cleanupErrorIsNotFound e); [split; [done|by left]|done]. }
  destruct (callProviderCleanup job target w) as [r [[s fs] [q [p l]]]]. destruct Hcall as [Hs Hr]. cbn [fst snd] in *. destruct r as [[]|e].
  - specialize (Hr eq_refl). rewrite onDB_run. cbn [fst snd]. destruct Ht as [->| ->].
    + pose proof (marked_input s0 l _ clock s fs Hr Hs) as H. by destruct (MarkBatchImageInputDeleted _ _ _) as [x [s1 fs1]].
    + pose proof (marked_output s0 l _ clock s fs Hr Hs) as H. by destruct (MarkBatchImageOutputDeleted _ _ _) as [x [s1 fs1]].
  - rewrite bindDB. set (m := RecordBatchImageCleanupFailure _ _ _ _). assert (Hf : onlyCleaned s0 l (m (s, fs)).2.1).
    { subst m. unfold RecordBatchImageCleanupFailure. rewrite bind_ok_eq. set (f := fun job0 : BatchImageJob => _).
      assert (Hu : onlyCleaned s0 l (stmt_updateJob (BatchID job) anyJob f s).2) by (apply onlyCleaned_update; [by intros row []|exact Hs]).
      pose proof (query_keeps (onlyCleaned s0 l) _ s fs Hs Hu) as H. destruct (query _ (s, fs)) as [[n|err] [s1 fs1]]; [by apply event_cleaned|exact H]. }
    destruct (m (s, fs)) as [x [s1 fs1]]. cbn [fst snd] in *. rewrite bind_run. pose proof (fair_event s0 (BatchID job) (targetName target +:+ "_cleanup_failed") ((s1, fs1), (q, (p, l))) Hf) as H.
    by destruct (appendCleanupEvent _ _ _) as [y w2].
Qed.
(** A row that was read since [s0]. *)
Definition readSince (s0 : BatchJobs.store) (job : BatchImageJob) : Prop :=
  IsTerminalBatchImageJobStatus (job_Status job) = true -> hadEnded s0 (BatchID job).
Lemma cleanupJob_fair s0 job target clock (w : world) : readSince s0 job -> fair s0 w -> fair s0 (cleanupJob job target clock w).2.
Proof.
  intros Hr Hw. unfold cleanupJob. destruct target; [| |done].
  - destruct (bool_decide _); [done|]. destruct (IsTerminalBatchImageJobStatus (job_Status job)) eqn:E; [|done]. cbn [negb]. rewrite bind_run.
    pose proof (fair_event s0 (BatchID job) "input_cleanup_started" w Hw) as H. destruct (appendCleanupEvent _ _ w) as [x w1]. apply deleteFiles_fair; [by left|by apply Hr|exact H].
  - destruct (_ || _); [done|]. destruct (oneOf _ _) eqn:E; [|done]. cbn [negb]. rewrite bind_run.
    pose proof (fair_event s0 (BatchID job) "output_cleanup_started" w Hw) as H. destruct (appendCleanupEvent _ _ w) as [x w1]. apply deleteFiles_fair; [by right| |exact H].
    apply Hr. revert E. unfold IsTerminalBatchImageJobStatus. simpl. destruct (String.eqb _ BatchImageJobStatusCompleted); [done|].
    destruct (String.eqb _ BatchImageJobStatusFailed); [done|]. by destruct (String.eqb _ BatchImageJobStatusCancelled).
Qed.
Lemma cleanupJobs_fair s0 target clock jobs result (w : world) : Forall (readSince s0) jobs -> fair s0 w -> fair s0 (cleanupJobs target clock jobs result w).2.
Proof.
  revert result w. induction jobs as [|job jobs IH]; intros result w Hj Hw; [done|]. apply Forall_cons in Hj as [H1 H2]. cbn [cleanupJobs]. rewrite bind_run.
  pose proof (cleanupJob_fair s0 job target clock w H1 Hw) as H. destruct (cleanupJob _ _ _ w) as [r w1]. by apply IH.
Qed.
Lemma row_readSince s0 l s b row : wellKeyed s0 -> onlyCleaned s0 l s -> jobs s !! b = Some row -> readSince s0 row.
Proof.
  intros Hk [H1 H2 _] Hb Ht. destruct (jobs s0 !! b) as [row0|] eqn:E0; [|rewrite (H2 b E0) in Hb; done]. destruct (H1 b row0 E0) as (row' & Hr & Hter & _ & _ & Hst).
  rewrite Hb in Hr. injection Hr as <-. destruct (same_terms _ _ Hter) as (Eid & _). rewrite (Hk b row0 E0) in Eid. rewrite Eid. exists row0. split; [done|].
  destruct Hst as [E|(E & _)]; rewrite E in *; done.
Qed.
Lemma listJobs_readSince s0 l cond key limit s fs : wellKeyed s0 -> onlyCleaned s0 l s ->
  let '(r, (s', _)) := listJobs cond key limit (s, fs) in s' = s /\ match r with Ok rows => Forall (readSince s0) rows | Err _ => True end.
Proof.
  intros Hk Hs. unfold listJobs. cbv zeta. destruct (query _ (s, fs)) as [r [s' fs']] eqn:E. apply query_cases in E as [[-> [e ->]]|[-> [->|[e ->]]]]; try done. split; [done|].
  apply Forall_forall. intros row Hin. apply elem_of_take in Hin as (i & Hi & _). apply list_elem_of_lookup_2 in Hi. rewrite merge_sort_Permutation in Hi.
  apply list_elem_of_In, filter_In in Hi as [Hi _]. apply in_map_iff in Hi as ([b r] & <- & Hi). apply list_elem_of_In, elem_of_map_to_list in Hi. by eapply row_readSince.
Qed.
End Deleted.

Section History.
Context {money : Money} {penv : PublicEnv} {Q P : Type} {prov : Providers P}.
#[local] Existing Instance clearing.
Local Abbreviation rest := (Q * (P * list (string * CleanupTarget)))%type.
Local Abbreviation world := ((BatchJobs.store * list fault) * rest)%type.

(** What the ticker, an administrator or an owner starts. *)
Inductive cleaning :=
| Tick (now clock : time)
| OfInput (batchID : string) (clock : time)
| OfOutput (batchID : string) (clock : time)
| OfOwner (owner : BatchImageOwner) (batchID : string) (clock : time).
Definition start (c : cleaning) : ST world unit :=
  match c with
  | Tick now clock => _ ← RunOnce now clock; mret tt
  | OfInput b clock => _ ← CleanupInput b clock; mret tt
  | OfOutput b clock => _ ← CleanupOutput b clock; mret tt
  | OfOwner owner b clock => _ ← DeleteOutputsForOwner owner b clock; mret tt
  end.
(** Each over a connection of its own. *)
Definition afterCleaning (w : BatchJobs.store * rest) (c : cleaning * list fault) : BatchJobs.store * rest :=
  let '(_, ((s, _), r)) := start c.1 ((w.1, c.2), w.2) in (s, r).

Lemma fair_get {A} s0 (m : ST (BatchJobs.store * list fault) (result goerror BatchImageJob)) (k : BatchImageJob -> ST world (result goerror A)) (w : world) :
  (forall s fs r s' fs', m (s, fs) = (r, (s', fs')) -> s' = s /\ match r with Ok job => exists b, jobs s !! b = Some job | Err _ => True end) ->
  wellKeyed s0 -> fair s0 w -> (forall job (w : world), readSince s0 job -> fair s0 w -> fair s0 (k job w).2) -> fair s0 ((job ←? onDB m; k job) w).2.
Proof.
  intros Hm Hk Hw Hc. destruct w as [[s fs] r]. rewrite bindDB_ok. destruct (m (s, fs)) as [x [s1 fs1]] eqn:E. apply Hm in E as [-> E].
  destruct x as [job|e]; [|exact Hw]. destruct E as [b E]. apply Hc; [by eapply row_readSince|exact Hw].
Qed.
Lemma getJob_reads b s fs r s' fs' : GetBatchImageJobByBatchID b (s, fs) = (r, (s', fs')) ->
  s' = s /\ match r with Ok job => exists b, jobs s !! b = Some job | Err _ => True end.
Proof. intros E. apply getJob_cases in E as [-> E]. split; [done|]. destruct r; eauto. Qed.
Lemma getOwned_reads uid key b s fs r s' fs' : GetBatchImageJobByBatchIDForOwner uid key b (s, fs) = (r, (s', fs')) ->
  s' = s /\ match r with Ok job => exists b, jobs s !! b = Some job | Err _ => True end.
Proof. intros E. apply getOwned_cases in E as [-> E]. split; [done|]. destruct r; eauto. Qed.
Lemma tick_fair s0 now clock (w : world) : wellKeyed s0 -> fair s0 w -> fair s0 (RunOnce now clock w).2.
Proof.
  intros Hk Hw. unfold RunOnce. cbv zeta. destruct w as [[s fs] [q [p l]]]. rewrite bindDB.
  pose proof (listJobs_readSince s0 l) as Hlist. unfold ListBatchImageJobsDueForInputCleanup.
  match goal with |- context [listJobs ?c ?k ?n (s, fs)] => pose proof (Hlist c k n s fs Hk Hw) as H1; destruct (listJobs c k n (s, fs)) as [x [s1 fs1]] end.
  destruct H1 as [-> H1]. cbn [fst snd]. destruct x as [inputs|e]; [|exact Hw]. rewrite bind_run.
  pose proof (cleanupJobs_fair s0 CleanupTargetInput clock inputs (mkCleaned 0 0 0) ((s, fs1), (q, (p, l))) H1 Hw) as H2.
  destruct (cleanupJobs _ _ _ _ _) as [res [[s2 fs2] [q2 [p2 l2]]]]. cbn [fst snd] in *. rewrite bindDB. unfold ListBatchImageJobsDueForOutputCleanup.
  match goal with |- context [listJobs ?c ?k ?n (s2, fs2)] => pose proof (listJobs_readSince s0 l2 c k n s2 fs2 Hk H2) as H3; destruct (listJobs c k n (s2, fs2)) as [y [s3 fs3]] end.
  destruct H3 as [-> H3]. cbn [fst snd]. destruct y as [outputs|e]; [|exact H2]. rewrite bind_run.
  pose proof (cleanupJobs_fair s0 CleanupTargetOutput clock outputs res ((s2, fs3), (q2, (p2, l2))) H3 H2) as H4.
  by destruct (cleanupJobs _ _ _ _ _) as [res2 w4].
Qed.
Lemma start_fair s0 c (w : world) : wellKeyed s0 -> fair s0 w -> fair s0 (start c w).2.
Proof.
  intros Hk Hw. assert (Hd : forall A (m : ST world A), fair s0 (m w).2 -> fair s0 ((_ ← m; mret tt) w).2) by (intros A m H; rewrite bind_run; by destruct (m w)).
  destruct c as [now clock|b clock|b clock|owner b clock]; apply Hd.
  - by apply tick_fair.
  - apply fair_get; [apply getJob_reads|done|done|]. intros job w1 Hr Hw1. by apply cleanupJob_fair.
  - apply fair_get; [apply getJob_reads|done|done|]. intros job w1 Hr Hw1. by apply cleanupJob_fair.
  - apply fair_get; [apply getOwned_reads|done|done|]. intros job w1 Hr Hw1. destruct (_ || _); [done|]. destruct (negb _); [done|]. rewrite bind_run.
    pose proof (fair_event s0 (BatchID job) "manual_output_delete_requested" w1 Hw1) as H. destruct (appendCleanupEvent _ _ w1) as [x w2]. cbn [fst snd] in *. rewrite bind_ok_eq.
    pose proof (cleanupJob_fair s0 job CleanupTargetOutput clock w2 Hr H) as H2. destruct (cleanupJob _ _ _ w2) as [[u|e] w3]; [|exact H2]. cbn [fst snd] in H2.
    apply fair_get; [apply getOwned_reads|done|exact H2|done].
Qed.

(** Files are recorded as deleted only when they are, and are deleted only of batches that have ended.
    Whatever rounds of the clean-up, deletions by owners and single clean-ups happen, under any faults of
    the database: a batch whose input or output is marked as deleted since was deleted at its provider, or
    the provider did not have it any more; its status changed at most from completed to output deleted,
    and then its output was; the terms of every batch are as they were; and the provider was told to delete
    files only of batches that had ended. *)
Theorem deleted_at_provider s0 q p (h : list (cleaning * list fault)) : wellKeyed s0 ->
  let '(s, (_, (_, l))) := foldl afterCleaning (s0, (q, (p, []))) h in
  (forall b row, jobs s0 !! b = Some row -> exists row', jobs s !! b = Some row' /\ cleaned l b row row') /\
  (forall b target, (b, target) ∈ l -> hadEnded s0 b).
Proof.
  intros Hk. assert (H : forall h (w : BatchJobs.store * rest), fair s0 ((w.1, []), w.2) -> fair s0 (((foldl afterCleaning w h).1, []), (foldl afterCleaning w h).2)).
  { clear h. induction h as [|[c fs] h IH]; intros [s r] Hw; [exact Hw|]. cbn [foldl]. apply IH. unfold afterCleaning. cbn [fst snd].
    pose proof (start_fair s0 c ((s, fs), r) Hk Hw) as H. by destruct (start c _) as [u [[s1 fs1] r1]]. }
  specialize (H h (s0, (q, (p, []))) (onlyCleaned_refl s0)). destruct (foldl _ _ h) as [s [q' [p' l]]]. destruct H as [H1 _ H3]. split; [exact H1|exact H3].
Qed.
End History.

(** ** Examples *)

#[local] Existing Instances dyadicMoney demoPublic demoProviders.
Definition demoDone : BatchImageJob :=
  { demoJob BatchImageJobStatusCompleted 1 2 with ProviderInputRef := Some "files/9"; OutputExpiresAt := Some 3; FinishedAt := Some 2 }.
Definition demoCompleted : BatchJobs.store := demoBatches demoDone demoFunds.
Lemma demo_keyed : wellKeyed demoCompleted.
Proof. intros b row H. change (({["imgbatch_1" := demoDone]} : gmap string BatchImageJob) !! b = Some row) in H. apply lookup_singleton_Some in H as [<- <-]. reflexivity. Qed.
(** The first round loses the connection when it marks the input, the second deletes both. *)
Definition demoRounds : list (cleaning * list fault) := [(Tick (100 * Hour) 7, [NoFault; NoFault; FailBefore lost]); (Tick (100 * Hour) 8, [])].
Lemma deleted_at_provider_witness :
  let '(s, (_, (_, l))) := foldl (afterCleaning (Q := unit)) (demoCompleted, (tt, (0, []))) demoRounds in
  (exists row, jobs s !! "imgbatch_1" = Some row /\ job_Status row = BatchImageJobStatusOutputDeleted /\ InputDeletedAt row = Some 8 /\ OutputDeletedAt row = Some 7) /\
  l = [("imgbatch_1", CleanupTargetInput); ("imgbatch_1", CleanupTargetOutput); ("imgbatch_1", CleanupTargetInput)] /\ hadEnded demoCompleted "imgbatch_1".
Proof.
  pose proof (deleted_at_provider (Q := unit) demoCompleted tt 0 demoRounds demo_keyed) as H.
  assert (E : let '(s, (_, (_, l))) := foldl (afterCleaning (Q := unit)) (demoCompleted, (tt, (0, []))) demoRounds in
    (exists row, jobs s !! "imgbatch_1" = Some row /\ job_Status row = BatchImageJobStatusOutputDeleted /\ InputDeletedAt row = Some 8 /\ OutputDeletedAt row = Some 7) /\
    l = [("imgbatch_1", CleanupTargetInput); ("imgbatch_1", CleanupTargetOutput); ("imgbatch_1", CleanupTargetInput)])
    by (clear; vm_compute; split; [eexists; repeat split|reflexivity]).
  destruct (foldl _ _ _) as [s [u [p l]]]. destruct E as [E1 E2]. split; [exact E1|]. split; [exact E2|]. destruct H as [_ H]. apply (H _ CleanupTargetInput). rewrite E2. by left.
Defined.
(** Batches whose clean-up always fails keep their place: as many as a round takes keep
    all later ones from being cleaned. *)
Definition oneByOne : PublicEnv := {|
  config := mkConfig true 0 0 0 0 0 0 "" "" 0 1; localOffset := localOffset; provider_named := provider_named; GetByID := GetByID;
  listAccounts := listAccounts; schedulable := schedulable; GetByIDLite := GetByIDLite; GetByUserAndGroup := GetByUserAndGroup;
  ModelUnitPrice := ModelUnitPrice; column2010 := column2010; column104 := column104; textOf := textOf |}.
Definition demoStuck : BatchJobs.store :=
  { demoCompleted with jobs := {["imgbatch_1" := { demoDone with job_AccountID := None; InputDeletedAt := Some 3 };
                                 "imgbatch_2" := { demoDone with job_ID := 2; BatchID := "imgbatch_2"; OutputExpiresAt := Some 4; InputDeletedAt := Some 3 }]} }.
Lemma blocked_behind :
  let after n := (foldl (afterCleaning (penv := oneByOne) (Q := unit)) (demoStuck, (tt, (0, []))) (repeat (Tick (100 * Hour) (100 * Hour), []) n)).1 in
  map (fun n => OutputDeletedAt <$> jobs (after n) !! "imgbatch_2") [1; 5; 25]%nat = [Some None; Some None; Some None].
Proof. vm_compute. reflexivity. Qed.
